(* ===== verification/_CoqProject ===== *)
-Q . S2P
Prelude.v
Lists.v
Types.v
ChainPoint.v
EpochValue.v
EntityDelta.v
Eras.v
PParams.v
Forks.v
Ratio.v
Pots.v
Rewards.v
Accounts.v
Pools.v
DReps.v
Datums.v
Assets.v
Pending.v
Epochs.v
Proposals.v
Hacks.v
Gov.v
Ratify.v
RatifyRule.v
Boundary.v
StateStore.v
Shards.v
Indexes.v
Blocks.v
Metadata.v
PallasExtras.v
GovActions.v
GenesisFiles.v
RewardMap.v
Wal.v
Roll.v
IndexBuilder.v
Work.v
Mempool.v
RedbMempool.v
CardanoModel.v
Codec.v
Visitors.v
Cip151.v
IndexQuery.v
Pagination.v
Ewrap.v
Crawl.v
Validate.v
CrawlEffects.v
StakeTracking.v
Commits.v
EwrapDemo.v
Submit.v
CrawlDemo.v
Settlement.v
Enactment.v
Resume.v
Estart.v
Opening.v
Rupd.v
RewardUpdate.v
Bootstrap.v
Genesis.v
Node.v
