(* ===== verification/Prelude.v ===== *)
(** * Dolos: a verification of the ledger state machine of the data node

    Dolos follows a Cardano chain.  Blocks come in from a relay and are cut
    into work units; a unit loads the entities it needs, computes deltas,
    logs them in a write-ahead log and commits them to a state store; a
    rollback reads the log backwards and undoes the deltas.  Three further
    units run at epoch boundaries: the reward update (rupd), the close of an
    epoch (ewrap) and the opening of the next (estart).  Transactions that are
    submitted locally wait in a mempool until blocks confirm them.

    The development models the crates [cardano], [core] and [redb3], and the
    pagination of [minibf]; paths
    below are relative to src/crates.

    ** Conventions

    A Rust function that may panic is a computation in [run]; a [Result] is
    the [result] of StateStore.v inside it.  Machine integers are [Z] with
    [is_u N] their range; native operators go through [uadd], [usub], [umul],
    which panic or wrap by the class [BuildCfg] (overflow checks, debug
    assertions, the feature [strict]), so a theorem without further hypothesis
    holds in every build.  Hash maps are [gmap]s, ordered maps are [gmap]s read
    by key order where the order matters; records are updated with
    [r <| f := v |>].  Code outside the repository is a parameter: [Pallas]
    (hashes, credential encoding, timestamps), [BlockDecoder], [TxDecoder],
    [Views] (what the index reads of a block), [Traversal] (what the crawl
    reads of it), [Addresses], [MetadataCodecs] (the CRC of an asset label,
    plutus data in CBOR), [Hasher224], [GenesisUtxos], [Validator] (ledger
    validation), [Chrono] (points in time), [Xxh3],
    [QueryDecoder], [Minicbor] and [EntityCbor] (with the round trip of the encoding as their
    law), [RedbTable] (an ordered table).

    ** Files

    - Prelude, Lists: [run], machine integers, bytes, record update, sums,
      stable sorting, chunks, the hint database [dolos] and the tactics.
    - Types, ChainPoint, EntityDelta: core/src/state.rs, core/src/point.rs; the
      classes [Entity], [EntityDelta], [ReversibleDelta].
    - EpochValue, Eras, PParams, Forks, Ratio, Pots, Rewards: the modules of
      these names in cardano/src and cardano/src/model.
    - Accounts, Pools, DReps, Datums, Assets, Pending, Epochs, Proposals, Gov:
      one file per module of cardano/src/model, with one Module per delta
      ([apply], [undo] and the instance of [ReversibleDelta]).
    - Hacks: cardano/src/hacks.rs.
    - Ratify: cardano/src/ewrap/ratify.rs; RatifyRule: the RATIFY rule it
      implements, as an inductive relation.
    - Boundary: the deltas of a boundary, delivered in any order.
    - StateStore: the store traits of core/src/state.rs as the class
      [StateStore], the in-memory backend as its instance, and the loading,
      applying and undoing of chunks of deltas.
    - Shards: cardano/src/shard.rs.
    - Indexes: core/src/indexes.rs and the in-memory index store of
      core/src/builtin/memory/index.rs; IndexBuilder: the index deltas of
      cardano/src/indexes; IndexQuery: its queries and core/src/async_query.rs,
      against the classes [IndexReads] and [ArchiveReads].
    - Pagination: minibf/src/pagination.rs.
    - Blocks: cardano/src/utxoset.rs and consensus.rs.
    - PallasExtras: cardano/src/pallas_extras.rs, addresses and certificates.
    - RewardMap: cardano/src/rewards/mod.rs.
    - Wal: core/src/wal.rs and redb3/src/wal.
    - Roll: cardano/src/roll/batch.rs and work_unit.rs, the rollback of
      core/src/sync.rs.
    - Work: cardano/src/work.rs, the part of cardano/src/lib.rs that owns the
      work buffer, the drain loops of core/src/sync.rs and import.rs.
    - Mempool, RedbMempool: core/src/mempool.rs with the class of its backends,
      core/src/builtin/mempool.rs and redb3/src/mempool.rs, its instances.
    - Validate: cardano/src/validate.rs, the environment of a validation and
      its two phases, with [pparams_to_pallas] of cardano/src/utils.rs.
    - Submit: submission (core/src/submit.rs), the mempool-aware view, and the
      mempool updates of core/src/sync.rs, against the class.
    - CardanoModel, Codec: cardano/src/model/mod.rs, the sums of entities and
      deltas, their encoding, and typed access to the store.
    - Ewrap: cardano/src/ewrap, the whole close of an epoch; EwrapDemo: a
      concrete boundary; Commits: the rows the commits of a boundary leave;
      Settlement, Enactment, Resume: what the close guarantees.
    - Metadata, Cip151: cardano/src/cip25.rs, cip68.rs and cip151.rs.
    - GovActions, Visitors: cardano/src/roll/proposals.rs and the eight
      visitors of cardano/src/roll; Crawl: cardano/src/roll/mod.rs, the crawl
      of a block and [compute_delta]; CrawlEffects: what a crawl queues,
      computed from the transactions; StakeTracking: what the deltas keep in
      step with the UTxO set; CrawlDemo: a concrete block.
    - GenesisFiles: what is read of the genesis files (utils.rs, model/gov.rs,
      utxoset.rs), with the stability windows in IEEE double precision.
    - Estart: cardano/src/estart, the whole opening of an epoch; Opening: what
      the opening guarantees.
    - Rupd: cardano/src/rupd, the whole reward update; RewardUpdate: what the
      update guarantees.
    - Bootstrap: cardano/src/genesis; Genesis: what genesis guarantees.
    - Node: the theorems on rolling forward and back, at the Cardano types.

    ** What the theorems show

    - The chain follower (Node, Roll, Work): rolling batches refines folding
      the blocks over an abstract ledger; a rollback to any logged point
      restores the ledger of that point; a batch the ledger accepts is
      committed; the work units emitted are the reference schedule of the
      blocks; the drain loops terminate.
    - The crawl (CrawlEffects, StakeTracking): after every block of a batch
      the accounts record what the unspent outputs hold and the datums count
      the outputs that name them; the bodies of invalid transactions do not
      matter; a vote on a proposal of the same block is recorded.
    - The index (Indexes, IndexBuilder): indexing keeps the UTxO filters in
      step with the UTxO set and makes blocks and transactions findable;
      traversals and export are exact; undoing a delta inverts it, and the
      delta a rollback undoes is empty; a query in chunks reads the blocks of a
      tag through, and a search finds the first.
    - Deltas (CardanoModel and the entity files): every delta is undone
      exactly, also after its trip through the log, and keeps its entity
      within its type.
    - Epoch close (RatifyRule, Settlement, Enactment, Resume, Boundary,
      RewardMap, Shards): the engine computes the RATIFY rule and its
      enactments are sound, order-independent and prune exactly the siblings;
      the boundary enacts what the engine enacted; rewards and MIRs are
      conserved; sharded rewards are the unsharded ones; shards partition the
      accounts and count once; an interrupted close is resumed, except when it
      stops after its last shard.
    - Epoch open (Opening): an opening rotates every account and every pool
      exactly once, moves the epoch, the nonces and the cursor, gives the pots
      that the flows of the ended epoch imply, closes and opens eras, seeds
      Conway governance, and touches no other row;
      it is resumed wherever it stops; its global pass cannot run twice; the
      AVVM outputs leave the UTxO set, the index and the pots together.
    - Reward update (RewardMap, RewardUpdate): the sharded update stores the
      rewards of the unsharded computation, in whatever order pools and
      delegators are visited; it is resumed wherever it stops and can be
      repeated.
    - Genesis: the first pots account for the whole supply, and an interrupted
      genesis is repaired by running it again.
    - Money and parameters (Pots, Rewards, PParams, Forks, Eras, EpochValue):
      the exact change of the supply at a boundary and when it is conserved, bounds of the reward formulas, refinement of
      parameter sets and epoch values to finite maps and histories, slot and
      epoch lookups that agree with the calendar of the eras, termination of the forced fork walk.
    - The mempool (Mempool, RedbMempool, Submit): no double spending among
      transactions flagged valid, the two
      backends agree, transactions finalize or drop at their thresholds, what a
      rollback does to them, paging of the finalized log.

    ** Fuel and bounds

    Loops over lists are structural.  [walk_parents] is bounded by the number
    of proposals, as the code bounds it, and decides descent within that
    bound; [chunks_from] and [utf8_valid] have the length of the list as fuel; [read_pages] is
    given one step more than the length of the log, and reads it all; the
    chunked queries take one step more than there are slots; the
    drain loops take a fuel that the theorems show to be enough (six steps for
    one block); [force_pparams_version] walks at most the distance between
    the versions.

    ** Not modelled

    The decoding and traversal of blocks, which [pallas] does (Roll takes the
    deltas of a batch as given, Crawl computes them from the traversed block);
    the archive beyond the rows a boundary writes and its interface; the database backends; the HTTP, gRPC and
    Ouroboros servers, snapshots, and the node binary: they are I/O, glue, or
    mappings to third-party formats.  Logging and timing are left out
    everywhere, database errors are left out of the backends. *)

From stdpp Require Export base gmap sets strings numbers list.
From Stdlib Require Import Lia.
Open Scope Z_scope.

(** ** Panicking computations

    A Rust function that may panic ([expect], [unwrap], [assert!],
    [unreachable!], an arithmetic overflow in a checked build) is a
    computation in [run]: it returns a value or panics.  Rust [Result]s are
    ordinary data below that layer. *)

Inductive run (A : Type) : Type :=
| Ret (a : A)
| Panic.
Arguments Ret {A} a.
Arguments Panic {A}.

#[export] Instance run_ret : MRet run := fun _ a => Ret a.
#[export] Instance run_bind : MBind run := fun _ _ f m =>
  match m with Ret a => f a | Panic => Panic end.

(** [opt.expect(..)] / [opt.unwrap()]. *)
Definition expect {A} (o : option A) : run A :=
  match o with Some a => Ret a | None => Panic end.

(** [assert!(b)]. *)
Definition assert_ (b : bool) : run unit := if b then Ret tt else Panic.

(** A left fold in [run], the shape of a Rust [for] loop that may panic. *)
Fixpoint run_foldl {A B} (f : A -> B -> run A) (a : A) (l : list B) : run A :=
  match l with
  | [] => Ret a
  | b :: l' => a' ← f a b; run_foldl f a' l'
  end.

(** ** Build configuration

    Three compile-time switches change what the code does: the cargo feature
    [strict], and the profile switches [overflow-checks] and
    [debug-assertions] (off in release builds, on in debug builds).  Every
    definition is given for all their values and every theorem holds for all
    of them. *)

Class BuildCfg := {
  strict : bool;
  overflow_checks : bool;
  debug_assertions : bool;
}.

Definition cfg_release : BuildCfg :=
  {| strict := false; overflow_checks := false; debug_assertions := false |}.
Definition cfg_debug : BuildCfg :=
  {| strict := false; overflow_checks := true; debug_assertions := true |}.
Definition cfg_strict : BuildCfg :=
  {| strict := true; overflow_checks := true; debug_assertions := true |}.

(** [debug_assert!(b)]. *)
Definition debug_assert `{BuildCfg} (b : bool) : run unit :=
  if debug_assertions then assert_ b else Ret tt.

(** ** Machine integers

    A [uN] is a [Z]; [is_u N] is the range its type guarantees. *)

Definition is_u (w x : Z) : Prop := 0 ≤ x < 2 ^ w.
Abbreviation is_u8 := (is_u 8).
Abbreviation is_u16 := (is_u 16).
Abbreviation is_u32 := (is_u 32).
Abbreviation is_u64 := (is_u 64).
Abbreviation is_u128 := (is_u 128).

Definition u_max (w : Z) : Z := 2 ^ w - 1.

#[export] Instance is_u_dec w x : Decision (is_u w x).
Proof. unfold is_u. apply _. Defined.

(** The result of a native [+], [-], [*] whose mathematical value is [r]: it
    panics on overflow when overflow checks are on and wraps otherwise. *)
Definition native `{BuildCfg} (w r : Z) : run Z :=
  if decide (is_u w r) then Ret r
  else if overflow_checks then Panic else Ret (r mod 2 ^ w).

Definition uadd `{BuildCfg} (w a b : Z) : run Z := native w (a + b).
Definition usub `{BuildCfg} (w a b : Z) : run Z := native w (a - b).
Definition umul `{BuildCfg} (w a b : Z) : run Z := native w (a * b).

(** Integer division and remainder panic on a zero divisor in every build. *)
Definition udiv (a b : Z) : run Z := if b =? 0 then Panic else Ret (a / b).
Definition urem (a b : Z) : run Z := if b =? 0 then Panic else Ret (a mod b).

(** A cast [x as uN] keeps the low bits. *)
Definition as_u (w x : Z) : Z := x mod 2 ^ w.

Definition saturating_add (w a b : Z) : Z := Z.min (a + b) (u_max w).
Definition saturating_sub (w a b : Z) : Z := Z.max 0 (a - b).

(** The macro [add!]. *)
Definition add_ `{BuildCfg} (w a b : Z) : run Z :=
  if strict then (if a + b <? 2 ^ w then Ret (a + b) else Panic)
  else Ret (saturating_add w a b).

(** The macro [sub!]. *)
Definition sub_ `{BuildCfg} (w a b : Z) : run Z :=
  if strict then (if b <=? a then Ret (a - b) else Panic)
  else Ret (saturating_sub w a b).

#[global] Arguments is_u : simpl never.
#[global] Arguments native : simpl never.
#[global] Arguments u_max : simpl never.
#[global] Arguments udiv : simpl never.
#[global] Arguments urem : simpl never.
#[global] Arguments as_u : simpl never.
#[global] Arguments uadd : simpl never.
#[global] Arguments usub : simpl never.
#[global] Arguments umul : simpl never.
#[global] Arguments add_ : simpl never.
#[global] Arguments sub_ : simpl never.
#[global] Arguments saturating_add : simpl never.
#[global] Arguments saturating_sub : simpl never.

(** ** Byte strings and hashes

    A byte is a [Z] below 256; a byte slice, array or vector is a list of
    them, compared in the lexicographic order Rust derives for slices and
    arrays. *)

Abbreviation bytes := (list Z) (only parsing).
Abbreviation Hash28 := (list Z) (only parsing).
Abbreviation Hash32 := (list Z) (only parsing).

Definition bytes_ok (l : bytes) : Prop := Forall is_u8 l.

Fixpoint bytes_cmp (a b : bytes) : comparison :=
  match a, b with
  | [], [] => Eq
  | [], _ :: _ => Lt
  | _ :: _, [] => Gt
  | x :: a', y :: b' =>
      match x ?= y with Eq => bytes_cmp a' b' | c => c end
  end.

Definition bytes_lt (a b : bytes) : bool :=
  match bytes_cmp a b with Lt => true | _ => false end.
Definition bytes_le (a b : bytes) : bool :=
  match bytes_cmp a b with Gt => false | _ => true end.

(** Big-endian encoding of an unsigned integer on [n] bytes
    ([to_be_bytes] / [from_be_bytes]). *)
Fixpoint to_be_bytes (n : nat) (x : Z) : bytes :=
  match n with
  | O => []
  | S n' => to_be_bytes n' (x / 256) ++ [x mod 256]
  end.

Definition from_be_bytes (l : bytes) : Z :=
  foldl (fun acc b => acc * 256 + b) 0 l.

(** ** Record update

    [r <| f := v |>] is the record [r] with field [f] replaced: the Rust
    assignment [r.f = v]. *)

Class Eta (R : Type) := eta : R -> R.
Class Setter {R T : Type} (proj : R -> T) := upd : (T -> T) -> R -> R.
Arguments upd {R T} proj {_} _ _.

Ltac build_setter proj :=
  let f := fresh "f" in
  let r := fresh "r" in
  intros f r;
  let e := eval hnf in (eta r) in
  lazymatch (eval pattern (proj r) in e) with
  | ?g _ => let b := eval cbv beta in (g (f (proj r))) in exact b
  end.

#[export] Hint Extern 0 (Setter ?p) => (unfold Setter; build_setter p) : typeclass_instances.

Notation "r <| p := v |>" := (upd p (fun _ => v) r)
  (at level 1, p at next level, left associativity, format "r  <| p  :=  v |>").

(** [r.f = op(r.f)] where [op] may panic. *)
Definition upd_m {R T} (proj : R -> T) `{!Setter proj} (op : T -> run T) (r : R) : run R :=
  x ← op (proj r); Ret (r <| proj := x |>).

(** ** Lemmas on panicking computations *)

Lemma Ret_inj {A} (a b : A) : Ret a = Ret b -> a = b.
Proof. by intros [= ->]. Qed.

Lemma bind_Ret {A B} (m : run A) (f : A -> run B) b :
  m ≫= f = Ret b <-> exists a, m = Ret a /\ f a = Ret b.
Proof. destruct m; cbn; naive_solver. Qed.

Lemma expect_Ret {A} (o : option A) a : expect o = Ret a <-> o = Some a.
Proof. destruct o; cbn; naive_solver. Qed.

Lemma debug_assert_holds `{BuildCfg} b : b = true -> debug_assert b = Ret tt.
Proof. intros ->. unfold debug_assert. by case_match. Qed.

Lemma assert_Ret b u : assert_ b = Ret u <-> b = true.
Proof. destruct b, u; cbn; naive_solver. Qed.

Lemma run_foldl_app {A B} (f : A -> B -> run A) a l1 l2 :
  run_foldl f a (l1 ++ l2) = run_foldl f a l1 ≫= fun a' => run_foldl f a' l2.
Proof.
  revert a; induction l1 as [|b l1 IH]; intros a; cbn; [done|].
  destruct (f a b); cbn; auto.
Qed.

Lemma run_foldl_fmap {A B C} (f : A -> B -> run A) (g : C -> B) a l :
  run_foldl f a (g <$> l) = run_foldl (fun a x => f a (g x)) a l.
Proof. revert a; induction l as [|x l IH]; intros a; cbn; [done|]. destruct (f a (g x)); [apply IH|done]. Qed.

Lemma filter_all {A} (P : A -> Prop) `{!forall x, Decision (P x)} (l : list A) :
  (forall x, x ∈ l -> P x) -> filter P l = l.
Proof.
  induction l as [|x l IH]; intros Hl; [done|]. rewrite filter_cons_True by (apply Hl; left; done).
  f_equal. apply IH. intros. apply Hl. by right.
Qed.

Lemma filter_none {A} (P : A -> Prop) `{!forall x, Decision (P x)} (l : list A) :
  (forall x, x ∈ l -> ~ P x) -> filter P l = [].
Proof.
  induction l as [|x l IH]; intros Hl; [done|]. rewrite filter_cons_False by (apply Hl; left; done).
  apply IH. intros. apply Hl. by right.
Qed.

Lemma filter_of_fmap {A B} (f : A -> B) (P : B -> Prop) `{!forall x, Decision (P x)} (l : list A) :
  filter P (f <$> l) = f <$> filter (fun x => P (f x)) l.
Proof.
  induction l as [|x l IH]; [done|]. rewrite fmap_cons. destruct (decide (P (f x))) as [Hx|Hx].
  - by rewrite !filter_cons_True, IH.
  - by rewrite !filter_cons_False, IH.
Qed.

Lemma mjoin_snoc {A} (ls : list (list A)) l : mjoin (ls ++ [l]) = mjoin ls ++ l.
Proof.
  induction ls as [|x ls IH]; [by cbn; rewrite app_nil_r|].
  change (mjoin ((x :: ls) ++ [l])) with (x ++ mjoin (ls ++ [l])). rewrite IH. apply app_assoc.
Qed.

Lemma if_bool_decide_iff {A} (P Q : Prop) `{!Decision P, !Decision Q} (x y : A) :
  (P <-> Q) -> (if bool_decide P then x else y) = (if bool_decide Q then x else y).
Proof. intros H. by rewrite (bool_decide_ext P Q H). Qed.

(** ** Lemmas on machine arithmetic *)

Lemma is_u_0 w : 0 ≤ w -> is_u w 0.
Proof. intros. unfold is_u. pose proof (Z.pow_pos_nonneg 2 w). lia. Qed.

Lemma native_range `{BuildCfg} w r x : 0 ≤ w -> native w r = Ret x -> is_u w x.
Proof.
  intros Hw. unfold native. destruct (decide (is_u w r)); [naive_solver|].
  destruct overflow_checks; intros [= <-].
  apply Z.mod_pos_bound, Z.pow_pos_nonneg; lia.
Qed.

Lemma native_exact `{BuildCfg} w r : is_u w r -> native w r = Ret r.
Proof. intros. unfold native. by rewrite decide_True. Qed.

Lemma uadd_exact `{BuildCfg} w a b : is_u w (a + b) -> uadd w a b = Ret (a + b).
Proof. apply native_exact. Qed.

Lemma usub_exact `{BuildCfg} w a b : is_u w (a - b) -> usub w a b = Ret (a - b).
Proof. apply native_exact. Qed.

Lemma umul_exact `{BuildCfg} w a b : is_u w (a * b) -> umul w a b = Ret (a * b).
Proof. apply native_exact. Qed.

Lemma udiv_exact a b : b ≠ 0 -> udiv a b = Ret (a / b).
Proof. intros. unfold udiv. by rewrite (proj2 (Z.eqb_neq b 0)). Qed.

Lemma as_u_small w x : is_u w x -> as_u w x = x.
Proof. intros. unfold as_u. by apply Z.mod_small. Qed.

(** Whether the build traps or wraps, a native subtraction undoes a native
    addition that returned. *)
Lemma usub_uadd `{BuildCfg} w x c y :
  uadd w x c = Ret y -> 0 ≤ w -> is_u w x -> is_u w c -> usub w y c = Ret x.
Proof.
  intros E Hw Hx Hc. revert E. unfold uadd, usub, native.
  pose proof (Z.pow_pos_nonneg 2 w ltac:(lia) Hw) as Hp.
  destruct (decide (is_u w (x + c))) as [Hs|Hs].
  - intros [= <-]. replace (x + c - c) with x by lia. by rewrite decide_True.
  - destruct overflow_checks eqn:Ho; intros [= <-].
    assert (Hm : (x + c) mod 2 ^ w = x + c - 2 ^ w).
    { symmetry. apply (Z.mod_unique _ _ 1); unfold is_u in *; lia. }
    rewrite Hm. rewrite decide_False; [|unfold is_u in *; lia].
    f_equal. symmetry. apply (Z.mod_unique _ _ (-1)); unfold is_u in *; lia.
Qed.

Lemma add_range `{BuildCfg} w a b x :
  is_u w a -> is_u w b -> add_ w a b = Ret x -> is_u w x.
Proof.
  unfold add_, saturating_add, u_max, is_u. intros Ha Hb.
  destruct strict; [destruct (Z.ltb_spec (a + b) (2 ^ w))|]; intros [= <-]; lia.
Qed.

Lemma sub_range `{BuildCfg} w a b x :
  is_u w a -> is_u w b -> sub_ w a b = Ret x -> is_u w x.
Proof.
  unfold sub_, saturating_sub, is_u. intros Ha Hb.
  destruct strict; [destruct (Z.leb_spec b a)|]; intros [= <-]; lia.
Qed.

Lemma add_exact `{BuildCfg} w a b : a + b < 2 ^ w -> add_ w a b = Ret (a + b).
Proof.
  intros Hs. unfold add_, saturating_add, u_max.
  rewrite (proj2 (Z.ltb_lt _ _) Hs), Z.min_l by lia. by destruct strict.
Qed.

Lemma sub_exact `{BuildCfg} w a b : b ≤ a -> sub_ w a b = Ret (a - b).
Proof.
  intros Hs. unfold sub_, saturating_sub.
  rewrite (proj2 (Z.leb_le _ _) Hs), Z.max_r by lia. by destruct strict.
Qed.

(** Below the ceiling a saturating increment is undone by a saturating
    decrement. *)
Lemma saturating_sub_add w a b :
  0 ≤ a -> a + b ≤ u_max w -> saturating_sub w (saturating_add w a b) b = a.
Proof. unfold saturating_sub, saturating_add. lia. Qed.

(** ** Lemmas on bytes *)

Lemma length_to_be_bytes n x : length (to_be_bytes n x) = n.
Proof. revert x; induction n as [|n IH]; intros x; cbn; [done|]. rewrite length_app, IH. cbn. lia. Qed.

Lemma to_be_bytes_ok n x : bytes_ok (to_be_bytes n x).
Proof.
  revert x; induction n as [|n IH]; intros x; cbn; [constructor|].
  apply Forall_app; split; [apply IH|]. constructor; [|constructor].
  unfold is_u. pose proof (Z.mod_pos_bound x 256). lia.
Qed.

Lemma from_be_bytes_app l b : from_be_bytes (l ++ [b]) = from_be_bytes l * 256 + b.
Proof. unfold from_be_bytes. by rewrite foldl_app. Qed.

Lemma from_to_be_bytes n x :
  0 ≤ x < 2 ^ (8 * Z.of_nat n) -> from_be_bytes (to_be_bytes n x) = x.
Proof.
  revert x; induction n as [|n IH]; intros x Hx.
  - cbn in *. change (2 ^ (8 * Z.of_nat 0)) with 1 in Hx. unfold from_be_bytes. cbn. lia.
  - cbn [to_be_bytes]. rewrite from_be_bytes_app, IH.
    + pose proof (Z.div_mod x 256). lia.
    + replace (8 * Z.of_nat (S n)) with (8 + 8 * Z.of_nat n) in Hx by lia.
      rewrite Z.pow_add_r in Hx by lia. change (2 ^ 8) with 256 in Hx.
      split; [apply Z.div_pos; lia|]. apply Z.div_lt_upper_bound; lia.
Qed.

Lemma bytes_cmp_refl a : bytes_cmp a a = Eq.
Proof. induction a as [|x a IH]; cbn; [done|]. by rewrite Z.compare_refl. Qed.

Lemma bytes_cmp_eq a b : bytes_cmp a b = Eq <-> a = b.
Proof.
  split; [|intros ->; apply bytes_cmp_refl].
  revert b; induction a as [|x a IH]; intros [|y b]; cbn; try done.
  destruct (Z.compare_spec x y) as [->| |]; try done. intros H. f_equal. auto.
Qed.

Lemma bytes_cmp_antisym a b : bytes_cmp b a = CompOpp (bytes_cmp a b).
Proof.
  revert b; induction a as [|x a IH]; intros [|y b]; cbn; try done.
  rewrite (Z.compare_antisym x y). destruct (x ?= y); cbn; auto.
Qed.

Lemma bytes_cmp_app a b c d : length a = length b ->
  bytes_cmp (a ++ c) (b ++ d) =
  match bytes_cmp a b with Eq => bytes_cmp c d | o => o end.
Proof.
  revert b; induction a as [|x a IH]; intros [|y b] Hl; try done.
  cbn in *. destruct (x ?= y); auto.
Qed.

Lemma bytes_cmp_lt_trans a b c :
  bytes_cmp a b = Lt -> bytes_cmp b c = Lt -> bytes_cmp a c = Lt.
Proof.
  revert b c; induction a as [|x a IH]; intros [|y b] [|z c]; cbn; try done.
  destruct (Z.compare_spec x y) as [->|Hxy|Hxy]; try done.
  - destruct (y ?= z); try done. apply IH.
  - intros _. destruct (Z.compare_spec y z) as [->|Hyz|Hyz]; try done.
    + intros _. by rewrite (proj2 (Z.compare_lt_iff x z) Hxy).
    + intros _. by rewrite (proj2 (Z.compare_lt_iff x z)) by lia.
Qed.

Lemma bytes_le_spec a b : bytes_le a b = true <-> a = b \/ bytes_cmp a b = Lt.
Proof.
  unfold bytes_le. rewrite <- (bytes_cmp_eq a b). destruct (bytes_cmp a b); naive_solver.
Qed.

Lemma bytes_le_trans a b c : bytes_le a b = true -> bytes_le b c = true -> bytes_le a c = true.
Proof.
  rewrite !bytes_le_spec. intros [->|H1] [<-|H2]; auto. right. by eapply bytes_cmp_lt_trans.
Qed.

Lemma bytes_le_total a b : bytes_le a b = true \/ bytes_le b a = true.
Proof.
  unfold bytes_le. rewrite (bytes_cmp_antisym a b). destruct (bytes_cmp a b); cbn; auto.
Qed.

Lemma bytes_lt_le a b : bytes_lt a b = negb (bytes_le b a).
Proof.
  unfold bytes_lt, bytes_le. rewrite (bytes_cmp_antisym a b). by destruct (bytes_cmp a b).
Qed.

(** Zeroes are the least byte string of their length. *)
Lemma zeroes_least h : bytes_ok h -> h ≠ replicate (length h) 0 ->
  bytes_cmp (replicate (length h) 0) h = Lt.
Proof.
  induction 1 as [|x h Hx Hh IH]; cbn [bytes_cmp length replicate]; [naive_solver|]. intros Hn.
  unfold is_u in Hx.
  destruct (Z.compare_spec 0 x) as [<-| |]; [|done|lia].
  apply IH. intros E. apply Hn. by f_equal.
Qed.

Lemma zeroes_le n h : bytes_ok h -> length h = n -> bytes_le (replicate n 0) h = true.
Proof.
  intros Hh <-. apply bytes_le_spec. destruct (decide (h = replicate (length h) 0)) as [E|Hn].
  - left. by rewrite <- E.
  - right. by apply zeroes_least.
Qed.

(** The order of the rows of a map with byte keys. *)
Definition fst_le {V} (a b : bytes * V) : Prop := bytes_le a.1 b.1 = true.

#[export] Instance fst_le_dec {V} (a b : bytes * V) : Decision (fst_le a b).
Proof. unfold fst_le. apply _. Defined.

#[export] Instance fst_le_trans {V} : Transitive (fst_le (V := V)).
Proof. intros a b c. apply bytes_le_trans. Qed.

#[export] Instance fst_le_total {V} : Total (fst_le (V := V)).
Proof. intros a b. apply bytes_le_total. Qed.

(** ** Automation *)

Lemma uadd_range `{BuildCfg} w a b x : 0 ≤ w -> uadd w a b = Ret x -> is_u w x.
Proof. apply native_range. Qed.

Lemma usub_range `{BuildCfg} w a b x : 0 ≤ w -> usub w a b = Ret x -> is_u w x.
Proof. apply native_range. Qed.

Lemma umul_range `{BuildCfg} w a b x : 0 ≤ w -> umul w a b = Ret x -> is_u w x.
Proof. apply native_range. Qed.

(** The range of an integer that a machine operation returned. *)
Ltac u_range :=
  lazymatch goal with
  | H : add_ _ _ _ = Ret ?x |- is_u _ ?x => apply add_range in H; [exact H| |]; u_range
  | H : sub_ _ _ _ = Ret ?x |- is_u _ ?x => apply sub_range in H; [exact H| |]; u_range
  | H : uadd _ _ _ = Ret ?x |- is_u _ ?x => apply uadd_range in H; [exact H|lia]
  | H : usub _ _ _ = Ret ?x |- is_u _ ?x => apply usub_range in H; [exact H|lia]
  | H : umul _ _ _ = Ret ?x |- is_u _ ?x => apply umul_range in H; [exact H|lia]
  | |- is_u _ 0 => apply is_u_0; lia
  | |- is_u _ _ => assumption
  end.

(** Splits the conjunctions of the goal without unfolding [is_u]. *)
Ltac conj_split := repeat match goal with |- _ /\ _ => split end.

(** The database of the development: ranges, and the well-formedness lemmas
    of the components. *)
Create HintDb dolos.
#[export] Hint Extern 2 (is_u _ _) => u_range : dolos.
#[export] Hint Extern 3 (_ /\ _) => split : dolos.

(** Inverts every hypothesis saying that a panicking computation returned. *)
Ltac run_inv :=
  repeat match goal with
  | H : Ret _ = Ret _ |- _ => apply Ret_inj in H; subst
  | H : Panic = Ret _ |- _ => discriminate H
  | H : mret _ = Ret _ |- _ => unfold mret, run_ret in H
  | H : mbind _ _ = Ret _ |- _ =>
      let a := fresh "a" in let E := fresh "E" in
      apply bind_Ret in H as (a & E & H)
  | H : expect _ = Ret _ |- _ => apply expect_Ret in H
  | H : assert_ _ = Ret _ |- _ => apply assert_Ret in H
  | H : Some _ = Some _ |- _ => injection H as H; subst
  | H : None = Some _ |- _ => discriminate H
  | H : Some _ = None |- _ => discriminate H
  | H : (_, _) = (_, _) |- _ => injection H as H; subst
  | H : ?x = Some _ |- _ => is_var x; subst x
  | H : prod _ _ |- _ => destruct H
  | H : unit |- _ => destruct H
  end.
