(* ===== verification/Lists.v ===== *)
(** * Sums, stable sorts and chains

    The list functions of the Rust standard library that the boundary passes
    share: [Iterator::sum] as a loop of native additions, [sort_by] as a stable
    insertion sort, with the facts the components use about them. *)

From Stdlib Require Import Lia Sorted.
From stdpp Require Import sorting.
From S2P Require Import Prelude.

(** ** Mathematical sums *)

Definition Zsum {A} (f : A -> Z) (l : list A) : Z := foldr (fun x acc => f x + acc) 0 l.

Section Zsum.
Context {A : Type}.
Implicit Types (f g : A -> Z) (l : list A).

Lemma Zsum_cons f x l : Zsum f (x :: l) = f x + Zsum f l.
Proof. done. Qed.

Lemma Zsum_one f x : Zsum f [x] = f x.
Proof. cbn. lia. Qed.

Lemma Zsum_app f l1 l2 : Zsum f (l1 ++ l2) = Zsum f l1 + Zsum f l2.
Proof. induction l1 as [|x l1 IH]; cbn; [done|]. fold (Zsum f (l1 ++ l2)) (Zsum f l1). lia. Qed.

Lemma Zsum_nonneg f l : (forall x, x ∈ l -> 0 ≤ f x) -> 0 ≤ Zsum f l.
Proof.
  induction l as [|x l IH]; intros Hf; [done|]. rewrite Zsum_cons.
  specialize (Hf x) as Hx. specialize (IH (fun y Hy => Hf y ltac:(by right))).
  specialize (Hx ltac:(left)). lia.
Qed.

Lemma Zsum_ext f g l : (forall x, x ∈ l -> f x = g x) -> Zsum f l = Zsum g l.
Proof.
  induction l as [|x l IH]; intros Hf; [done|]. rewrite !Zsum_cons, (Hf x) by left.
  rewrite IH; [done|]. intros y Hy. apply Hf. by right.
Qed.

Lemma Zsum_le f g l : (forall x, x ∈ l -> f x ≤ g x) -> Zsum f l ≤ Zsum g l.
Proof.
  induction l as [|x l IH]; intros Hf; [done|]. rewrite !Zsum_cons.
  specialize (Hf x ltac:(left)) as Hx. specialize (IH (fun y Hy => Hf y ltac:(by right))). lia.
Qed.

Lemma Zsum_add f g l : Zsum (fun x => f x + g x) l = Zsum f l + Zsum g l.
Proof. induction l as [|x l IH]; [done|]. rewrite !Zsum_cons, IH. lia. Qed.

Lemma Zsum_zero l : Zsum (fun _ => 0) l = 0.
Proof. induction l as [|x l IH]; [done|]. by rewrite Zsum_cons. Qed.

Lemma Zsum_fmap {B} (g : B -> A) f (l : list B) : Zsum f (g <$> l) = Zsum (fun x => f (g x)) l.
Proof. induction l as [|x l IH]; [done|]. by rewrite fmap_cons, !Zsum_cons, IH. Qed.

#[export] Instance Zsum_perm f : Proper (Permutation ==> eq) (Zsum f).
Proof. induction 1; rewrite ?Zsum_cons; lia. Qed.

Lemma Zsum_elem f l x : (forall y, y ∈ l -> 0 ≤ f y) -> x ∈ l -> f x ≤ Zsum f l.
Proof.
  intros Hf Hx. apply list_elem_of_split in Hx as (l1 & l2 & ->).
  rewrite Zsum_app, Zsum_cons.
  assert (0 ≤ Zsum f l1) by (apply Zsum_nonneg; intros; apply Hf; set_solver).
  assert (0 ≤ Zsum f l2) by (apply Zsum_nonneg; intros; apply Hf; set_solver). lia.
Qed.

End Zsum.

(** ** Loops of native additions

    [it.map(f).sum::<uN>()], and a loop that adds to two counters. *)

Definition run_sum `{BuildCfg} {A} (w : Z) (f : A -> Z) (l : list A) : run Z :=
  run_foldl (fun acc x => uadd w acc (f x)) 0 l.

Section loops.
Context `{BuildCfg} {A : Type}.
Implicit Types (f g : A -> Z) (l : list A).

(** Without overflow a loop that adds [f x] to its counter computes the sum,
    whatever the build. *)
Lemma run_foldl_add (step : Z -> A -> run Z) w f l acc :
  (forall a x, x ∈ l -> is_u w (a + f x) -> step a x = Ret (a + f x)) ->
  (forall x, x ∈ l -> 0 ≤ f x) -> 0 ≤ acc -> acc + Zsum f l < 2 ^ w ->
  run_foldl step acc l = Ret (acc + Zsum f l).
Proof.
  revert acc; induction l as [|x l IH]; intros acc Hs Hf Ha Hb; cbn [run_foldl].
  - cbn. f_equal. lia.
  - rewrite Zsum_cons in *. pose proof (Hf x ltac:(left)).
    assert (0 ≤ Zsum f l) by (apply Zsum_nonneg; intros; apply Hf; by right).
    rewrite Hs; [|left|unfold is_u; lia]. cbn. rewrite IH.
    + f_equal. lia.
    + intros. apply Hs; [by right|done].
    + intros. apply Hf. by right.
    + lia.
    + lia.
Qed.

Lemma run_sum_exact w f l :
  (forall x, x ∈ l -> 0 ≤ f x) -> Zsum f l < 2 ^ w -> run_sum w f l = Ret (Zsum f l).
Proof.
  intros Hf Hb. unfold run_sum. rewrite (run_foldl_add _ w f); [done| |done|done|done].
  intros. by apply uadd_exact.
Qed.

Lemma run_foldl_add2 (step : Z * Z -> A -> run (Z * Z)) w f g l y t :
  (forall y t x, x ∈ l -> is_u w (y + f x) -> is_u w (t + g x) -> step (y, t) x = Ret (y + f x, t + g x)) ->
  (forall x, x ∈ l -> 0 ≤ f x) -> (forall x, x ∈ l -> 0 ≤ g x) -> 0 ≤ y -> 0 ≤ t ->
  y + Zsum f l < 2 ^ w -> t + Zsum g l < 2 ^ w ->
  run_foldl step (y, t) l = Ret (y + Zsum f l, t + Zsum g l).
Proof.
  revert y t; induction l as [|x l IH]; intros y t Hs Hf Hg Hy Ht By Bt; cbn [run_foldl].
  - cbn. f_equal. f_equal; lia.
  - rewrite !Zsum_cons in *. pose proof (Hf x ltac:(left)). pose proof (Hg x ltac:(left)).
    assert (0 ≤ Zsum f l) by (apply Zsum_nonneg; intros; apply Hf; by right).
    assert (0 ≤ Zsum g l) by (apply Zsum_nonneg; intros; apply Hg; by right).
    rewrite Hs; [|left|unfold is_u; lia..]. cbn. rewrite IH; try lia.
    + f_equal. f_equal; lia.
    + intros. apply Hs; [by right|done..].
    + intros. apply Hf. by right.
    + intros. apply Hg. by right.
Qed.

End loops.

(** ** Stable sorting

    [slice::sort_by]: an insertion sort that keeps the order of elements that
    compare equal. *)

Fixpoint insert_cmp {A} (cmp : A -> A -> comparison) (x : A) (l : list A) : list A :=
  match l with
  | [] => [x]
  | y :: l' => match cmp x y with Gt => y :: insert_cmp cmp x l' | _ => x :: y :: l' end
  end.

Definition sort_by {A} (cmp : A -> A -> comparison) (l : list A) : list A := foldr (insert_cmp cmp) [] l.

Section sorting.
Context {A : Type} (cmp : A -> A -> comparison).

Definition cmp_le (x y : A) : Prop := cmp x y ≠ Gt.

Lemma insert_cmp_perm x l : insert_cmp cmp x l ≡ₚ x :: l.
Proof.
  induction l as [|y l IH]; [done|]. cbn. destruct (cmp x y); try done.
  rewrite IH. apply perm_swap.
Qed.

Lemma sort_by_perm l : sort_by cmp l ≡ₚ l.
Proof. induction l as [|x l IH]; [done|]. cbn. by rewrite insert_cmp_perm, IH. Qed.

Context (cmp_flip : forall x y, cmp y x = CompOpp (cmp x y)).
Context (cmp_trans : forall x y z, cmp_le x y -> cmp_le y z -> cmp_le x z).

Lemma insert_cmp_sorted x l : StronglySorted cmp_le l -> StronglySorted cmp_le (insert_cmp cmp x l).
Proof.
  induction 1 as [|y l Hs IH Hf]; cbn; [repeat constructor|].
  destruct (cmp x y) eqn:E.
  1,2: constructor; [by constructor|]; constructor; [by unfold cmp_le; rewrite E|];
       eapply Forall_impl; [done|]; intros z Hz; eapply cmp_trans; [|done]; by unfold cmp_le; rewrite E.
  constructor; [done|]. rewrite insert_cmp_perm. constructor; [|done].
  unfold cmp_le. by rewrite cmp_flip, E.
Qed.

Lemma sort_by_sorted l : StronglySorted cmp_le (sort_by cmp l).
Proof. induction l as [|x l IH]; cbn; [constructor|by apply insert_cmp_sorted]. Qed.

(** Two sorted permutations agree when elements that compare equal are
    equal. *)
Lemma sorted_unique l1 l2 :
  (forall x y, x ∈ l1 -> y ∈ l1 -> cmp x y = Eq -> x = y) ->
  StronglySorted cmp_le l1 -> StronglySorted cmp_le l2 -> l1 ≡ₚ l2 -> l1 = l2.
Proof.
  revert l2; induction l1 as [|x l1 IH]; intros l2 He Hs1 Hs2 Hp.
  - by apply Permutation_nil_l in Hp.
  - destruct l2 as [|y l2]; [symmetry in Hp; by apply Permutation_nil_l in Hp|].
    apply StronglySorted_inv in Hs1 as [Hs1 Hf1]. apply StronglySorted_inv in Hs2 as [Hs2 Hf2].
    rewrite Forall_forall in Hf1, Hf2.
    assert (x = y) as ->.
    { assert (x ∈ y :: l2) as Hx by (rewrite <- Hp; left).
      assert (y ∈ x :: l1) as Hy by (rewrite Hp; left).
      apply elem_of_cons in Hx as [->|Hx]; [done|]. apply elem_of_cons in Hy as [->|Hy]; [done|].
      apply He; [left|by right|]. specialize (Hf1 y Hy). specialize (Hf2 x Hx).
      unfold cmp_le in *. rewrite cmp_flip in Hf2. by destruct (cmp x y). }
    f_equal. apply IH; [|done..|by apply Permutation_cons_inv in Hp].
    intros a b Ha Hb. apply He; by right.
Qed.

Lemma sort_by_of_perm l1 l2 :
  (forall x y, x ∈ l1 -> y ∈ l1 -> cmp x y = Eq -> x = y) -> l1 ≡ₚ l2 ->
  sort_by cmp l1 = sort_by cmp l2.
Proof.
  intros He Hp. apply sorted_unique; [|apply sort_by_sorted..|].
  - intros x y. rewrite !sort_by_perm. apply He.
  - by rewrite !sort_by_perm.
Qed.

End sorting.

(** *** Lawful comparisons

    A comparison that is a strict total order, and the ways the code builds
    one: on a field, and field by field. *)

Class CmpLaws {A : Type} (cmp : A -> A -> comparison) : Prop := {
  cmp_laws_flip : forall x y, cmp y x = CompOpp (cmp x y);
  cmp_laws_eq : forall x y, cmp x y = Eq -> x = y;
  cmp_laws_trans : forall x y z, cmp x y = Lt -> cmp y z = Lt -> cmp x z = Lt;
}.

(** [Ordering::then]. *)
Definition then_with (a b : comparison) : comparison := match a with Eq => b | _ => a end.

Definition lex_cmp {A B} (c1 : A -> A -> comparison) (c2 : B -> B -> comparison) (x y : A * B) : comparison :=
  then_with (c1 (fst x) (fst y)) (c2 (snd x) (snd y)).

Section cmp_laws.
Context {A B : Type} (c1 : A -> A -> comparison) (c2 : B -> B -> comparison).

Lemma cmp_laws_refl `{!CmpLaws c1} x : c1 x x = Eq.
Proof. pose proof (cmp_laws_flip x x) as H. by destruct (c1 x x). Qed.

Lemma cmp_laws_le_trans `{!CmpLaws c1} x y z : cmp_le c1 x y -> cmp_le c1 y z -> cmp_le c1 x z.
Proof.
  unfold cmp_le. intros H1 H2.
  destruct (c1 x y) eqn:E1; [|destruct (c1 y z) eqn:E2|done].
  - by apply cmp_laws_eq in E1 as ->.
  - apply cmp_laws_eq in E2 as <-. by rewrite E1.
  - by rewrite (cmp_laws_trans _ _ _ E1 E2).
  - done.
Qed.

#[export] Instance lex_laws `{!CmpLaws c1, !CmpLaws c2} : CmpLaws (lex_cmp c1 c2).
Proof.
  split; unfold lex_cmp; intros [a b] [a' b']; cbn.
  - rewrite (cmp_laws_flip (cmp := c1) a a'), (cmp_laws_flip (cmp := c2) b b'). by destruct (c1 a a').
  - destruct (c1 a a') eqn:E; cbn; [|done..]. apply cmp_laws_eq in E as ->.
    by intros ->%cmp_laws_eq.
  - intros [a'' b'']. cbn. destruct (c1 a a') eqn:E1; cbn; [|destruct (c1 a' a'') eqn:E2; cbn|done].
    + apply cmp_laws_eq in E1 as ->. destruct (c1 a' a''); cbn; [|done..]. apply cmp_laws_trans.
    + apply cmp_laws_eq in E2 as <-. by rewrite E1.
    + intros _ _. by rewrite (cmp_laws_trans _ _ _ E1 E2).
    + done.
Qed.

Lemma on_laws `{!CmpLaws c1} (f : B -> A) : (forall x y, f x = f y -> x = y) -> CmpLaws (fun x y => c1 (f x) (f y)).
Proof.
  intros Hf. split.
  - intros x y. apply cmp_laws_flip.
  - intros x y E%cmp_laws_eq. by apply Hf.
  - intros x y z. apply cmp_laws_trans.
Qed.

(** Sorting by a lawful comparison. *)
Lemma lawful_sorted `{!CmpLaws c1} l : StronglySorted (cmp_le c1) (sort_by c1 l).
Proof. apply sort_by_sorted; [apply cmp_laws_flip|apply cmp_laws_le_trans]. Qed.

End cmp_laws.

(** Sorted lists without repetition are strictly sorted. *)
Lemma strict_sorted {A} (c : A -> A -> comparison) `{!CmpLaws c} l :
  StronglySorted (cmp_le c) l -> NoDup l -> StronglySorted (fun x y => c x y = Lt) l.
Proof.
  induction 1 as [|x l Hs IH Hf]; [constructor|]. intros [Hn Hd]%NoDup_cons. constructor; [by apply IH|].
  rewrite Forall_forall in Hf |- *. intros y Hy. specialize (Hf y Hy). unfold cmp_le in Hf.
  destruct (c x y) eqn:E; [|done..]. apply cmp_laws_eq in E as ->. done.
Qed.

Lemma sorted_list_filter {A} (R : A -> A -> Prop) (p : A -> bool) l :
  StronglySorted R l -> StronglySorted R (List.filter p l).
Proof.
  induction 1 as [|x l Hs IH Hf]; cbn; [constructor|]. destruct (p x); [|done]. constructor; [done|].
  rewrite Forall_forall in Hf |- *. intros y [Hy _]%list_elem_of_In%filter_In. by apply Hf, list_elem_of_In.
Qed.

Lemma list_filter_all {A} (p : A -> bool) l : (forall x, x ∈ l -> p x = true) -> List.filter p l = l.
Proof.
  induction l as [|x l IH]; cbn; [done|]. intros Hp. rewrite Hp by left. f_equal. apply IH. intros y Hy. apply Hp. by right.
Qed.

(** Sorted runs in a sorted order. *)
Lemma sorted_bind {A B} (Q : A -> A -> Prop) (R : B -> B -> Prop) (f : A -> list B) l :
  StronglySorted Q l -> (forall a, StronglySorted R (f a)) ->
  (forall a a' b b', Q a a' -> b ∈ f a -> b' ∈ f a' -> R b b') -> StronglySorted R (l ≫= f).
Proof.
  intros Hl Hf Hr. induction Hl as [|a l Hs IH Ha]; [constructor|]. rewrite bind_cons.
  apply StronglySorted_app_2; [|apply Hf|done].
  intros b b' Hb (a' & Hb' & Ha')%list_elem_of_bind. rewrite Forall_forall in Ha. eauto.
Qed.

#[export] Instance Z_cmp_laws : CmpLaws Z.compare.
Proof.
  split; [intros; apply Z.compare_antisym|intros; by apply Z.compare_eq_iff|].
  intros x y z. rewrite !Z.compare_lt_iff. lia.
Qed.

#[export] Instance bytes_cmp_laws : CmpLaws bytes_cmp.
Proof.
  split; [intros; apply bytes_cmp_antisym|intros x y; by apply bytes_cmp_eq|apply bytes_cmp_lt_trans].
Qed.

(** ** Lists without repetition *)

Lemma NoDup_fmap_inj {A B} (f : A -> B) (l : list A) x y :
  NoDup (f <$> l) -> x ∈ l -> y ∈ l -> f x = f y -> x = y.
Proof.
  induction l as [|z l IH]; [by intros _ ?%not_elem_of_nil|].
  rewrite fmap_cons. intros [Hz Hd]%NoDup_cons Hx Hy E.
  apply elem_of_cons in Hx as [->|Hx]; apply elem_of_cons in Hy as [->|Hy]; [done| | |by apply IH].
  - destruct Hz. rewrite E. by apply list_elem_of_fmap_2.
  - destruct Hz. rewrite <- E. by apply list_elem_of_fmap_2.
Qed.

(** A loop that may add the key of each element to a set. *)
Lemma elem_of_foldl_collect {A K} `{Countable K} (step : gset K -> A -> gset K) (P : A -> Prop) (f : A -> K)
    (l : list A) (s : gset K) k :
  (forall s x, x ∈ l -> k ∈ step s x <-> k ∈ s \/ P x /\ f x = k) ->
  k ∈ foldl step s l <-> k ∈ s \/ exists x, x ∈ l /\ P x /\ f x = k.
Proof.
  revert s. induction l as [|x l IH]; intros s Hs; cbn.
  - split; [by left|]. intros [?|(x & Hx & _)]; [done|]. by apply not_elem_of_nil in Hx.
  - rewrite IH by (intros; apply Hs; by right). rewrite (Hs s x) by left. split.
    + intros [[?|?]|(y & ? & ?)]; [by left|right; exists x; split; [left|done]|right; exists y; split; [by right|done]].
    + intros [?|(y & [->|Hy]%elem_of_cons & ?)]; [by left; left|by left; right|right; by exists y].
Qed.

(** ** Loops that may panic *)

(** [iter().filter_map(f).collect()]. *)
Fixpoint run_filter_map {A B} (f : A -> run (option B)) (l : list A) : run (list B) :=
  match l with
  | [] => Ret []
  | x :: l' => y ← f x; ys ← run_filter_map f l'; Ret (match y with Some y => y :: ys | None => ys end)
  end.

(** The results of computations, one after the other. *)
Fixpoint run_concat {A} (l : list (run (list A))) : run (list A) :=
  match l with
  | [] => Ret []
  | m :: l' => x ← m; xs ← run_concat l'; Ret (x ++ xs)
  end.

(** [slice::chunks(n)]. *)
Fixpoint chunks_from {A} (fuel n : nat) (l : list A) : list (list A) :=
  match fuel, l with
  | O, _ | _, [] => []
  | S fuel', _ => take n l :: chunks_from fuel' n (drop n l)
  end.

Definition chunks_of {A} (n : nat) (l : list A) : list (list A) := chunks_from (length l) n l.

Lemma chunks_from_concat {A} fuel n (l : list A) :
  (0 < n)%nat -> (length l ≤ fuel)%nat -> mjoin (chunks_from fuel n l) = l.
Proof.
  intros Hn. revert l. induction fuel as [|fuel IH]; intros l Hl.
  - by destruct l; [|cbn in Hl; lia].
  - destruct l as [|x l]; [done|]. change (take n (x :: l) ++ mjoin (chunks_from fuel n (drop n (x :: l))) = x :: l).
    rewrite IH; [apply take_drop|]. rewrite length_drop. cbn in *. lia.
Qed.

Lemma run_filter_map_app {A B} (f : A -> run (option B)) l1 l2 :
  run_filter_map f (l1 ++ l2) = (x ← run_filter_map f l1; y ← run_filter_map f l2; Ret (x ++ y)).
Proof.
  induction l1 as [|a l1 IH]; cbn; [by destruct (run_filter_map f l2)|].
  destruct (f a) as [y|]; [|done]. cbn. rewrite IH. destruct (run_filter_map f l1); [|done]. cbn.
  destruct (run_filter_map f l2); [|done]. cbn. by destruct y.
Qed.

(** Splitting a list in chunks does not change what a loop over it computes. *)
Lemma run_chunks {A B} (f : A -> run (option B)) n l :
  (0 < n)%nat -> run_concat (run_filter_map f <$> chunks_of n l) = run_filter_map f l.
Proof.
  intros Hn. rewrite <- (chunks_from_concat (length l) n l Hn) at 2 by done. unfold chunks_of.
  induction (chunks_from (length l) n l) as [|c cs IH]; [done|]. cbn [fmap list_fmap run_concat].
  change (mjoin (c :: cs)) with (c ++ mjoin cs). rewrite run_filter_map_app, IH. done.
Qed.

Lemma run_filter_map_perm {A B} (f : A -> run (option B)) l l' r :
  l ≡ₚ l' -> run_filter_map f l = Ret r -> exists r', run_filter_map f l' = Ret r' /\ r ≡ₚ r'.
Proof.
  intros Hp. revert r. induction Hp as [|x l l' _ IH|x y l|l1 l2 l3 _ IH1 _ IH2]; intros r E.
  - eauto.
  - cbn in E |- *. destruct (f x) as [z|]; [|done]. cbn in E |- *. destruct (run_filter_map f l) as [zs|]; [|done].
    cbn in E. apply Ret_inj in E as <-. destruct (IH zs eq_refl) as (zs' & -> & Hz). eexists. split; [done|].
    destruct z; by rewrite Hz.
  - cbn in E |- *. destruct (f x) as [z|]; [|by destruct (f y)]. destruct (f y) as [w|]; [|done]. cbn in E |- *.
    destruct (run_filter_map f l) as [zs|]; [|done]. cbn in E |- *. apply Ret_inj in E as <-. eexists. split; [done|].
    destruct z, w; try done. apply perm_swap.
  - destruct (IH1 r E) as (r2 & H2 & P2). destruct (IH2 r2 H2) as (r3 & H3 & P3). exists r3. split; [done|]. by rewrite P2.
Qed.

(** What a loop yields is yielded by its elements, in their order. *)
Lemma run_filter_map_sublist {A B} (f : A -> run (option B)) (g : B -> A) l r :
  (forall x y, f x = Ret (Some y) -> g y = x) -> run_filter_map f l = Ret r -> g <$> r `sublist_of` l.
Proof.
  intros Hg. revert r. induction l as [|x l IH]; intros r E; cbn in E; [by apply Ret_inj in E as <-|].
  destruct (f x) as [y|] eqn:Hx; [|done]. cbn in E. destruct (run_filter_map f l) as [ys|]; [|done]. cbn in E.
  apply Ret_inj in E as <-. specialize (IH ys eq_refl). destruct y as [y|]; cbn.
  - rewrite (Hg x y Hx). by constructor.
  - by constructor.
Qed.

Lemma bool_filter_perm {A} (p : A -> bool) l l' : l ≡ₚ l' -> List.filter p l ≡ₚ List.filter p l'.
Proof.
  induction 1 as [|x l l' _ IH|x y l|l1 l2 l3 _ IH1 _ IH2]; cbn; [done| | |by rewrite IH1].
  - destruct (p x); by rewrite IH.
  - destruct (p x), (p y); try done. apply perm_swap.
Qed.

#[export] Instance bool_filter_Permutation {A} (p : A -> bool) : Proper ((≡ₚ) ==> (≡ₚ)) (List.filter p).
Proof. intros l l'. apply bool_filter_perm. Qed.

Lemma elem_of_bool_filter {A} (p : A -> bool) l x : x ∈ List.filter p l <-> x ∈ l /\ p x = true.
Proof. rewrite !list_elem_of_In. apply filter_In. Qed.

Lemma bool_filter_sublist {A} (p : A -> bool) l : List.filter p l `sublist_of` l.
Proof. induction l as [|x l IH]; cbn; [done|]. destruct (p x); by constructor. Qed.

(** A loop over the elements a test keeps computes what the whole loop keeps,
    when the test is known from the element alone. *)
Lemma run_filter_map_filter {A B} (f g : A -> run (option B)) (p : A -> bool) (q : B -> bool) l r :
  (forall x, x ∈ l -> p x = true -> g x = f x) ->
  (forall x y, x ∈ l -> f x = Ret (Some y) -> q y = p x) ->
  run_filter_map f l = Ret r ->
  run_filter_map g (List.filter p l) = Ret (List.filter q r).
Proof.
  revert r. induction l as [|x l IH]; intros r Hg Hq E; cbn in *; [by injection E as <-|].
  destruct (f x) as [y|] eqn:Ef; [|done]. cbn in E.
  destruct (run_filter_map f l) as [ys|] eqn:El; [|done]. cbn in E. injection E as <-.
  specialize (IH ys (fun z Hz => Hg z ltac:(by right)) (fun z w Hz => Hq z w ltac:(by right)) eq_refl).
  destruct (p x) eqn:Ep; cbn.
  - rewrite (Hg x ltac:(left) Ep), Ef. cbn. rewrite IH. cbn. destruct y as [y|]; [|done]. cbn.
    by rewrite (Hq x y ltac:(left) Ef), Ep.
  - rewrite IH. destruct y as [y|]; [|done]. cbn. by rewrite (Hq x y ltac:(left) Ef), Ep.
Qed.

(** ** Replayed logs

    A view of a state that every operation either overwrites or leaves alone:
    what it holds after a log is the last value the log writes. *)

Section replay.
Context {X O A : Type} (exec : X -> O -> X) (view : X -> A) (effect : O -> option A).
Hypothesis effects : forall x o, view (exec x o) = default (view x) (effect o).

Definition last_effect (ops : list O) : option A :=
  foldl (fun acc o => match effect o with Some a => Some a | None => acc end) None ops.

Lemma last_effect_app p q :
  last_effect (p ++ q) = match last_effect q with Some a => Some a | None => last_effect p end.
Proof.
  unfold last_effect. rewrite foldl_app. generalize (foldl (fun acc o => match effect o with Some a => Some a | None => acc end) None p) as acc.
  intros acc. induction q as [|o q IH] using rev_ind; [done|]. rewrite !foldl_app. cbn. by destruct (effect o).
Qed.

Lemma view_log x ops : view (foldl exec x ops) = default (view x) (last_effect ops).
Proof.
  induction ops as [|o ops IH] using rev_ind; [done|]. rewrite foldl_app, last_effect_app. cbn. rewrite effects, IH.
  unfold last_effect at 2. cbn. by destruct (effect o).
Qed.

(** Replaying a log over the result of a prefix of it changes nothing. *)
Lemma view_replay x p q : view (foldl exec (foldl exec x p) (p ++ q)) = view (foldl exec x (p ++ q)).
Proof.
  rewrite !view_log, last_effect_app. destruct (last_effect q); [done|]. by destruct (last_effect p).
Qed.

End replay.
