(* ===== verification/Types.v ===== *)
(** * Ledger primitives and entity keys

    The ledger data types the state model stores (from the [pallas] crates, as
    the sources construct and match them), the external functions the code
    calls on them, and the entity keys of [crates/core/src/state.rs]. *)

From S2P Require Import Prelude.

(** ** Ledger primitives *)

Abbreviation Epoch := Z (only parsing).
Abbreviation BlockSlot := Z (only parsing).
Abbreviation TxOrder := Z (only parsing).
Abbreviation Lovelace := Z (only parsing).
Abbreviation PoolHash := (list Z) (only parsing).

Inductive StakeCredential :=
| AddrKeyhash (h : Hash28)
| ScriptHash (h : Hash28).

Inductive DRep :=
| DRepKey (h : Hash28)
| DRepScript (h : Hash28)
| DRepAbstain
| DRepNoConfidence.

Inductive Vote := VNo | VYes | VAbstain.

Inductive Voter :=
| VoterCCKey (h : Hash28)
| VoterCCScript (h : Hash28)
| VoterDRepKey (h : Hash28)
| VoterDRepScript (h : Hash28)
| VoterStakePoolKey (h : Hash28).

Record Anchor := { url : string; content_hash : Hash32 }.
Record GovActionId := { transaction_id : Hash32; action_index : Z }.
Record RationalNumber := { numerator : Z; denominator : Z }.
Record PoolMetadata := { pm_url : string; pm_hash : Hash32 }.

Inductive Relay :=
| SingleHostAddr (port : option Z) (ipv4 ipv6 : option bytes)
| SingleHostName (port : option Z) (dns : string)
| MultiHostName (dns : string).

Inductive NonceVariant := NeutralNonce | NonceValue.
Record Nonce := { variant : NonceVariant; nonce_hash : option Hash32 }.
Record ExUnits := { mem : Z; steps : Z }.
Record ExUnitPrices := { mem_price : RationalNumber; step_price : RationalNumber }.

Record PoolVotingThresholds := {
  pv_motion_no_confidence : RationalNumber;
  pv_committee_normal : RationalNumber;
  pv_committee_no_confidence : RationalNumber;
  pv_hard_fork_initiation : RationalNumber;
  pv_security_voting_threshold : RationalNumber;
}.

Record DRepVotingThresholds := {
  dv_motion_no_confidence : RationalNumber;
  dv_committee_normal : RationalNumber;
  dv_committee_no_confidence : RationalNumber;
  dv_update_constitution : RationalNumber;
  dv_hard_fork_initiation : RationalNumber;
  dv_pp_network_group : RationalNumber;
  dv_pp_economic_group : RationalNumber;
  dv_pp_technical_group : RationalNumber;
  dv_pp_governance_group : RationalNumber;
  dv_treasury_withdrawal : RationalNumber;
}.

#[export] Instance StakeCredential_eq_dec : EqDecision StakeCredential.
Proof. solve_decision. Defined.
#[export] Instance DRep_eq_dec : EqDecision DRep.
Proof. solve_decision. Defined.
#[export] Instance Vote_eq_dec : EqDecision Vote.
Proof. solve_decision. Defined.
#[export] Instance GovActionId_eq_dec : EqDecision GovActionId.
Proof. solve_decision. Defined.

#[export] Instance StakeCredential_countable : Countable StakeCredential.
Proof.
  refine (inj_countable'
    (fun c => match c with AddrKeyhash h => inl h | ScriptHash h => inr h end)
    (fun s => match s with inl h => AddrKeyhash h | inr h => ScriptHash h end) _).
  by intros [].
Defined.

#[export] Instance DRep_countable : Countable DRep.
Proof.
  refine (inj_countable'
    (fun c => match c with
              | DRepKey h => inl (inl h) | DRepScript h => inl (inr h)
              | DRepAbstain => inr true | DRepNoConfidence => inr false end)
    (fun s => match s with
              | inl (inl h) => DRepKey h | inl (inr h) => DRepScript h
              | inr true => DRepAbstain | inr false => DRepNoConfidence end) _).
  by intros [].
Defined.

(** ** External functions

    What the model calls in crates that are not part of the repository:
    [minicbor::to_vec] on a stake credential, the Blake2b-256 hasher, the two
    nonce derivations of [pallas::crypto::nonce], [chrono]'s RFC 3339 parser, the
    [hex] decoder and the conversion of a slice to a 32-byte hash; an [option]
    result is [None] where the function fails or panics. *)

Class Pallas := {
  cbor_cred : StakeCredential -> bytes;
  blake2b_256 : bytes -> Hash32;
  generate_rolling_nonce : Hash32 -> bytes -> Hash32;
  generate_epoch_nonce : Hash32 -> Hash32 -> option bytes -> Hash32;
  rfc3339_timestamp : string -> option Z;
  hex_decode : string -> option bytes;
  hash32_from_slice : bytes -> option Hash32;
}.

(** A concrete instance, used to evaluate the model on concrete inputs: the
    credential encoding is the documented CBOR layout, the hashes are simple
    mixing functions. *)
Definition demo_pallas : Pallas := {|
  cbor_cred c :=
    match c with
    | AddrKeyhash h => [0x82; 0x00; 0x58; 0x1c] ++ h
    | ScriptHash h => [0x82; 0x01; 0x58; 0x1c] ++ h
    end;
  blake2b_256 b := take 32 (b ++ replicate 32 7);
  generate_rolling_nonce n v := take 32 (v ++ n);
  generate_epoch_nonce c t x := take 32 (default [] x ++ t ++ c);
  rfc3339_timestamp _ := Some 1506203091;
  hex_decode _ := Some (replicate 32 3);
  hash32_from_slice b := if (length b =? 32)%nat then Some b else None;
|}.

(** ** Entity keys (core/src/state.rs) *)

Definition KEY_SIZE : nat := 32.

(** [EntityKey([u8; 32])]: the 32 bytes. *)
Abbreviation EntityKey := (list Z) (only parsing).

(** [impl From<&[u8]> for EntityKey]: truncate, then pad with zeroes. *)
Definition entity_key_from (value : bytes) : EntityKey :=
  let len := Nat.min (length value) KEY_SIZE in
  take len value ++ replicate (KEY_SIZE - len) 0.

(** [EntityKey::full_range]: a half-open range. *)
Definition full_range : EntityKey * EntityKey :=
  (replicate KEY_SIZE 0, replicate KEY_SIZE 255).

(** [impl From<EntityKey> for Hash<HASH_SIZE>]. *)
Definition hash_from_key (size : nat) (k : EntityKey) : bytes := take size k.

(** [NsKey(Namespace, EntityKey)]. *)
Abbreviation NsKey := (string * list Z)%type (only parsing).

Definition ns_key_from (ns : string) (value : bytes) : NsKey :=
  (ns, entity_key_from value).

Definition key_in_range (r : EntityKey * EntityKey) (k : EntityKey) : bool :=
  bytes_le (fst r) k && bytes_lt k (snd r).

(** ** Lemmas on keys *)

Lemma length_entity_key_from v : length (entity_key_from v) = KEY_SIZE.
Proof.
  unfold entity_key_from, KEY_SIZE. rewrite length_app, length_take, length_replicate. lia.
Qed.

Lemma entity_key_from_exact v : length v = KEY_SIZE -> entity_key_from v = v.
Proof.
  intros Hl. unfold entity_key_from. rewrite Hl, Nat.min_id, Nat.sub_diag. cbn.
  rewrite app_nil_r. apply take_ge. unfold KEY_SIZE in *. lia.
Qed.

Lemma entity_key_from_long v : (KEY_SIZE ≤ length v)%nat -> entity_key_from v = take KEY_SIZE v.
Proof.
  intros Hl. unfold entity_key_from. rewrite Nat.min_r, Nat.sub_diag by done. cbn.
  apply app_nil_r.
Qed.

(** Two keys agree exactly when the byte strings agree on their first 32
    bytes, the shorter ones being padded with zeroes. *)
Lemma entity_key_from_inj_len u v :
  length u = length v -> (length u ≤ KEY_SIZE)%nat ->
  entity_key_from u = entity_key_from v -> u = v.
Proof.
  intros Hl Hk. unfold entity_key_from. rewrite <- Hl, Nat.min_l by done.
  intros H. apply app_inj_1 in H as [H _]; [|rewrite !length_take; lia].
  rewrite !take_ge in H by lia. done.
Qed.
