(* ===== verification/ChainPoint.v ===== *)
(** * Chain points (core/src/point.rs)

    A position on the chain: the origin, a slot, or a block.  The WAL keys its
    rows by the forty-byte encoding of a point, so the byte order of the
    encodings has to be the order of the points. *)

From S2P Require Import Prelude Types.
Open Scope Z_scope.

Module ChainPoint.

Inductive t :=
| Origin
| Slot (s : BlockSlot)
| Specific (s : BlockSlot) (h : Hash32).

#[global] Instance t_eq_dec : EqDecision t.
Proof. solve_decision. Defined.

Definition slot (p : t) : BlockSlot :=
  match p with Origin => 0 | Slot s => s | Specific s _ => s end.

Definition hash (p : t) : option Hash32 :=
  match p with Specific _ h => Some h | _ => None end.

Definition is_fully_defined (p : t) : bool :=
  match p with
  | Origin => true
  | Specific _ h => negb (bool_decide (h = replicate 32 0))
  | Slot _ => false
  end.

(** [PartialEq::eq]: a block point also equals the bare slot it is at. *)
Definition eq (self other : t) : bool :=
  match self, other with
  | Specific l0 l1, Specific r0 r1 => (l0 =? r0) && bool_decide (l1 = r1)
  | Slot l0, Slot r0 => l0 =? r0
  | Origin, Origin => true
  | Specific l0 _, Slot r0 => l0 =? r0
  | _, _ => false
  end.

(** The order [Option<Hash>] derives: [None] first. *)
Definition hash_cmp (l r : option Hash32) : comparison :=
  match l, r with
  | None, None => Eq
  | None, Some _ => Lt
  | Some _, None => Gt
  | Some a, Some b => bytes_cmp a b
  end.

(** [Ord::cmp]. *)
Definition cmp (self other : t) : comparison :=
  let l_slot := slot self in
  let r_slot := slot other in
  if negb (l_slot =? r_slot) then l_slot ?= r_slot
  else hash_cmp (hash self) (hash other).

Definition into_bytes (p : t) : bytes :=
  to_be_bytes 8 (slot p) ++ default (replicate 32 0) (hash p).

Definition ORIGIN_BYTES : bytes := replicate 40 0.

Definition from_bytes (value : bytes) : t :=
  if bool_decide (value = ORIGIN_BYTES) then Origin
  else Specific (from_be_bytes (take 8 value)) (drop 8 value).

(** What the types guarantee: a [u64] slot and a 32-byte hash. *)
Definition wf (p : t) : Prop :=
  is_u64 (slot p) /\
  match hash p with Some h => length h = 32%nat /\ bytes_ok h | None => True end.

(** ** Lemmas *)

(** The fixed-width big-endian encoding preserves the order of integers. *)
Lemma to_be_bytes_cmp n x y :
  0 ≤ x < 2 ^ (8 * Z.of_nat n) -> 0 ≤ y < 2 ^ (8 * Z.of_nat n) ->
  bytes_cmp (to_be_bytes n x) (to_be_bytes n y) = (x ?= y).
Proof.
  revert x y; induction n as [|n IH]; intros x y Hx Hy.
  - change (2 ^ (8 * Z.of_nat 0)) with 1 in *.
    replace x with 0 by lia. by replace y with 0 by lia.
  - replace (8 * Z.of_nat (S n)) with (8 + 8 * Z.of_nat n) in * by lia.
    rewrite Z.pow_add_r in * by lia. change (2 ^ 8) with 256 in *.
    cbn [to_be_bytes]. rewrite bytes_cmp_app by (by rewrite !length_to_be_bytes).
    rewrite IH by (split; [apply Z.div_pos; lia|apply Z.div_lt_upper_bound; lia]).
    pose proof (Z.div_mod x 256). pose proof (Z.div_mod y 256).
    pose proof (Z.mod_pos_bound x 256). pose proof (Z.mod_pos_bound y 256).
    destruct (Z.compare_spec (x / 256) (y / 256)); cbn.
    + destruct (Z.compare_spec (x mod 256) (y mod 256)); symmetry;
        [apply Z.compare_eq_iff|apply Z.compare_lt_iff|apply Z.compare_gt_iff]; lia.
    + symmetry. apply Z.compare_lt_iff. lia.
    + symmetry. apply Z.compare_gt_iff. lia.
Qed.

Lemma slot_bytes_cmp p q : wf p -> wf q ->
  bytes_cmp (to_be_bytes 8 (slot p)) (to_be_bytes 8 (slot q)) = (slot p ?= slot q).
Proof. intros [Hp _] [Hq _]. by apply to_be_bytes_cmp. Qed.

Lemma hash_bytes_cmp p q : wf p -> wf q ->
  hash p ≠ Some (replicate 32 0) -> hash q ≠ Some (replicate 32 0) ->
  bytes_cmp (default (replicate 32 0) (hash p)) (default (replicate 32 0) (hash q)) =
  hash_cmp (hash p) (hash q).
Proof.
  intros [_ Hp] [_ Hq] Np Nq.
  assert (Hz : forall h, length h = 32%nat /\ bytes_ok h -> Some h ≠ Some (replicate 32 0) ->
            bytes_cmp (replicate 32 0) h = Lt).
  { intros h [Hl Hb] Hn. rewrite <- Hl. apply zeroes_least; [done|]. rewrite Hl. congruence. }
  destruct (hash p) as [a|], (hash q) as [b|]; cbn [default hash_cmp]; auto using bytes_cmp_refl.
  by rewrite bytes_cmp_antisym, Hz.
Qed.

Lemma into_bytes_cmp p q : wf p -> wf q ->
  hash p ≠ Some (replicate 32 0) -> hash q ≠ Some (replicate 32 0) ->
  bytes_cmp (into_bytes p) (into_bytes q) = cmp p q.
Proof.
  intros Hp Hq Np Nq. unfold into_bytes, cmp.
  rewrite bytes_cmp_app by (by rewrite !length_to_be_bytes).
  rewrite slot_bytes_cmp by done. rewrite hash_bytes_cmp by done.
  destruct (Z.compare_spec (slot p) (slot q)) as [->|Hs|Hs].
  - by rewrite Z.eqb_refl.
  - by rewrite (proj2 (Z.eqb_neq _ _)) by lia.
  - by rewrite (proj2 (Z.eqb_neq _ _)) by lia.
Qed.

Lemma into_bytes_specific s h : wf (Specific s h) ->
  (s, h) ≠ (0, replicate 32 0) -> from_bytes (into_bytes (Specific s h)) = Specific s h.
Proof.
  intros [Hs [Hl Hb]] Hn. unfold from_bytes, into_bytes; cbn [slot hash default] in *.
  assert (Hf : from_be_bytes (to_be_bytes 8 s) = s) by (by apply from_to_be_bytes).
  rewrite bool_decide_false.
  - rewrite take_app_length', drop_app_length' by (by rewrite length_to_be_bytes).
    by rewrite Hf.
  - intros E. change ORIGIN_BYTES with (to_be_bytes 8 0 ++ replicate 32 0) in E.
    apply app_inj_1 in E as [E1 E2]; [|by rewrite !length_to_be_bytes].
    apply Hn. f_equal; [|done]. rewrite <- Hf, E1. reflexivity.
Qed.

(** A point whose encoding identifies it. *)
Definition canonical (p : t) : Prop := from_bytes (into_bytes p) = p.

Lemma eq_refl p : eq p p = true.
Proof. destruct p; cbn; rewrite ?Z.eqb_refl, ?bool_decide_true by done; done. Qed.

Lemma canonical_not_slot s : ~ canonical (Slot s).
Proof. unfold canonical, from_bytes. by case_bool_decide. Qed.

(** Against a canonical point the comparison is equality. *)
Lemma eq_canonical p q : canonical q -> eq p q = true -> p = q.
Proof.
  intros Hq. destruct q as [|s'|s' h'].
  - by destruct p.
  - by destruct (canonical_not_slot s').
  - destruct p as [|s|s h]; cbn [eq]; [discriminate..|].
    intros [->%Z.eqb_eq Hh]%andb_true_iff. apply bool_decide_eq_true in Hh as ->. done.
Qed.

(** Encoding a point and decoding it is the identity on the origin and on
    every block other than the all-zero one; a bare slot comes back as the block with
    the zero hash, which no intersection accepts, and slot zero as the origin. *)
Theorem point_roundtrip p : wf p ->
  from_bytes (into_bytes p) =
  match p with
  | Origin => Origin
  | Slot s => if s =? 0 then Origin else Specific s (replicate 32 0)
  | Specific s h =>
      if bool_decide (s = 0 /\ h = replicate 32 0) then Origin else Specific s h
  end.
Proof.
  intros Hp. destruct p as [|s|s h]; [reflexivity| |].
  - destruct (Z.eqb_spec s 0) as [->|Hs]; [reflexivity|].
    apply (into_bytes_specific s (replicate 32 0)); [|naive_solver].
    destruct Hp. split; [done|]. cbn. repeat constructor; done.
  - case_bool_decide as Hz; [destruct Hz as [-> ->]; reflexivity|].
    apply into_bytes_specific; [done|naive_solver].
Qed.

Lemma point_roundtrip_witness :
  from_bytes (into_bytes (Specific 77 (replicate 32 9))) = Specific 77 (replicate 32 9).
Proof.
  apply (point_roundtrip (Specific 77 (replicate 32 9))).
  split; [done|]. split; [done|]. repeat constructor; done.
Defined.

(** The byte order of the encodings, which is the order of the rows of the
    WAL, is the order of the points, provided no hash is all zeroes. *)
Theorem point_order p q :
  wf p -> wf q -> hash p ≠ Some (replicate 32 0) -> hash q ≠ Some (replicate 32 0) ->
  bytes_cmp (into_bytes p) (into_bytes q) = cmp p q.
Proof. apply into_bytes_cmp. Qed.

Lemma point_order_witness :
  bytes_cmp (into_bytes (Slot 300)) (into_bytes (Specific 300 (replicate 32 9))) = Lt.
Proof.
  apply (point_order (Slot 300) (Specific 300 (replicate 32 9)));
    try (split; [done|]); try done. split; [done|]. repeat constructor; done.
Defined.

End ChainPoint.
