(* ===== verification/EpochValue.v ===== *)
(** * Epoch-versioned values (cardano/src/model/epoch_value.rs)

    [EpochValue<T>] keeps the value of a ledger quantity at the current epoch
    (live), the one scheduled for the next epoch, and the snapshots of the last
    three epochs (mark, set, go).  The theorems relate the ring of slots to an
    abstract history of the value, one entry per epoch. *)

From S2P Require Import Prelude Types.

(** [&mut] accessors are modelled as the current value paired with the
    function that writes a new value back. *)

Inductive EpochPosition :=
| Genesis
| EpochAt (e : Epoch).

Module EpochPos.

Definition mark (p : EpochPosition) : option Epoch :=
  match p with
  | EpochAt e => if 1 <=? e then Some (e - 1) else None
  | Genesis => None
  end.

Definition set (p : EpochPosition) : option Epoch :=
  match p with
  | EpochAt e => if 2 <=? e then Some (e - 2) else None
  | Genesis => None
  end.

Definition go (p : EpochPosition) : option Epoch :=
  match p with
  | EpochAt e => if 3 <=? e then Some (e - 3) else None
  | Genesis => None
  end.

(** [impl PartialEq<Epoch> for EpochPosition]. *)
Definition eqb (p : EpochPosition) (other : Epoch) : bool :=
  match p with
  | Genesis => false
  | EpochAt e => e =? other
  end.

(** [impl Add<Epoch> for EpochPosition]. *)
Definition add `{BuildCfg} (p : EpochPosition) (other : Epoch) : run EpochPosition :=
  match p with
  | Genesis =>
      if other =? 0 then Ret Genesis
      else e ← usub 64 other 1; Ret (EpochAt e)
  | EpochAt current => e ← uadd 64 current other; Ret (EpochAt e)
  end.

End EpochPos.

(** [trait TransitionDefault]. *)
Class TransitionDefault (T : Type) := next_value : option T -> run (option T).

Module EpochValue.

Record t {T : Type} := mk {
  f_epoch : EpochPosition;
  f_next : option T;
  f_live : option T;
  f_mark : option T;
  f_set : option T;
  f_go : option T;
}.
Arguments t : clear implicits.
Arguments mk {T}.

#[global] Instance eta_t {T} : Eta (t T) := fun r =>
  mk (f_epoch r) (f_next r) (f_live r) (f_mark r) (f_set r) (f_go r).

Section ops.
Context {T : Type} `{BuildCfg}.

Definition new (epoch : Epoch) : t T :=
  mk (EpochAt epoch) None None None None None.

Definition with_live (epoch : Epoch) (live : T) : t T :=
  mk (EpochAt epoch) None (Some live) None None None.

Definition with_scheduled (epoch : Epoch) (next : T) : t T :=
  mk (EpochAt epoch) (Some next) None None None None.

Definition with_genesis (live : T) : t T :=
  mk (EpochAt 0) None (Some live) (Some live) None None.

Definition epoch (v : t T) : option Epoch :=
  match f_epoch v with Genesis => None | EpochAt e => Some e end.

Definition is_at_epoch (v : t T) (e : Epoch) : bool := bool_decide (epoch v = Some e).

Definition live (v : t T) : option T := f_live v.
Definition go (v : t T) : option T := f_go v.
Definition set (v : t T) : option T := f_set v.
Definition mark (v : t T) : option T := f_mark v.
Definition next (v : t T) : option T := f_next v.

Definition unwrap_live (v : t T) : run T := expect (f_live v).

Definition unwrap_live_mut (v : t T) : run (T * (T -> t T)) :=
  l ← expect (f_live v);
  Ret (l, fun l' => v <| f_live := Some l' |>).

(** The strict-mode assertion [assert_eq!(self.epoch, epoch)]. *)
Definition strict_epoch (v : t T) (e : Epoch) : run unit :=
  if strict then assert_ (EpochPos.eqb (f_epoch v) e) else Ret tt.

Definition schedule (v : t T) (current_epoch : Epoch) (next : option T) : run (t T) :=
  _ ← strict_epoch v current_epoch;
  Ret (v <| f_next := next |>).

Definition live_mut (v : t T) (e : Epoch) : run (option T * (option T -> t T)) :=
  _ ← strict_epoch v e;
  _ ← assert_ (bool_decide (f_next v = None));
  Ret (f_live v, fun l' => v <| f_live := l' |>).

Definition reset (v : t T) (live : option T) : t T := v <| f_live := live |>.

Definition replace (v : t T) (live : T) (e : Epoch) : run (t T) :=
  _ ← strict_epoch v e;
  Ret (v <| f_live := Some live |>).

Definition transition (v : t T) (next_epoch : Epoch) : run (t T) :=
  _ ← (if strict
       then p ← EpochPos.add (f_epoch v) 1; assert_ (EpochPos.eqb p next_epoch)
       else Ret tt);
  let v := v <| f_go := f_set v |> in
  let v := v <| f_set := f_mark v |> in
  let v := v <| f_mark := f_live v |> in
  let v := v <| f_live := f_next v |> <| f_next := None |> in
  p ← EpochPos.add (f_epoch v) 1;
  Ret (v <| f_epoch := p |>).

Definition snapshot_at (v : t T) (ending_epoch : Epoch) : option T :=
  if EpochPos.eqb (f_epoch v) ending_epoch then f_live v
  else if bool_decide (EpochPos.mark (f_epoch v) = Some ending_epoch) then f_mark v
  else if bool_decide (EpochPos.set (f_epoch v) = Some ending_epoch) then f_set v
  else if bool_decide (EpochPos.go (f_epoch v) = Some ending_epoch) then f_go v
  else None.

(** [Err] carries the epoch of [ChainError::EpochValueVersionNotFound]. *)
Definition try_snapshot_at (v : t T) (e : Epoch) : T + Epoch :=
  match snapshot_at v e with Some value => inl value | None => inr e end.

Context `{TransitionDefault T}.

Definition scheduled_or_default (v : t T) : run (T * (T -> t T)) :=
  nx ← (match f_next v with
        | None => next_value (f_live v)
        | Some x => Ret (Some x)
        end);
  x ← expect nx;
  Ret (x, fun x' => v <| f_next := Some x' |>).

(** A call of [scheduled_or_default] whose result is dropped. *)
Definition ensure_scheduled (v : t T) : run (t T) :=
  r ← scheduled_or_default v; Ret (snd r (fst r)).

Definition default_transition (v : t T) (next_epoch : Epoch) : run (t T) :=
  v' ← (match f_next v with
        | None => nx ← next_value (f_live v); Ret (v <| f_next := nx |>)
        | Some _ => Ret v
        end);
  transition v' next_epoch.

End ops.

(** Writing through [live_mut] and then writing the old value back. *)
Lemma live_mut_write_back {T} `{BuildCfg} (v : t T) e l put x :
  live_mut v e = Ret (l, put) ->
  f_live v = l /\
  exists put', live_mut (put x) e = Ret (x, put') /\ put' l = v.
Proof.
  unfold live_mut. intros E. apply bind_Ret in E as ([] & Es & E).
  apply bind_Ret in E as ([] & En & E). run_inv. split; [done|].
  unfold strict_epoch in *. cbn. rewrite Es. cbn. apply bool_decide_eq_true in En.
  rewrite bool_decide_eq_true_2 by done. cbn. eexists; split; [reflexivity|].
  by destruct v.
Qed.

(** ** Well-formedness: every slot satisfies [P], the position is a [u64] *)

Section wf.
Context {T : Type} `{BuildCfg} (P : T -> Prop).

Definition slot_wf (o : option T) : Prop := match o with Some x => P x | None => True end.

Definition wf (v : t T) : Prop :=
  match f_epoch v with Genesis => True | EpochAt e => is_u64 e end /\
  slot_wf (f_next v) /\ slot_wf (f_live v) /\
  slot_wf (f_mark v) /\ slot_wf (f_set v) /\ slot_wf (f_go v).

Lemma wf_new e : is_u64 e -> wf (new e).
Proof. unfold wf; cbn; tauto. Qed.

Lemma wf_with_live e x : is_u64 e -> P x -> wf (with_live e x).
Proof. unfold wf; cbn; tauto. Qed.

Lemma wf_unwrap_live v x f : wf v -> unwrap_live_mut v = Ret (x, f) -> P x.
Proof.
  intros (_ & _ & Hl & _) E. unfold unwrap_live_mut in E.
  destruct (f_live v) as [l|]; cbn in E; by run_inv.
Qed.

Lemma wf_live v x : wf v -> f_live v = Some x -> P x.
Proof. intros (_ & _ & Hl & _) E. by rewrite E in Hl. Qed.

Lemma wf_put_live v x f x' : wf v -> unwrap_live_mut v = Ret (x, f) -> P x' -> wf (f x').
Proof.
  intros Hv E Hx. unfold unwrap_live_mut in E. run_inv.
  unfold wf in *; cbn; tauto.
Qed.

Lemma wf_set_live v o : wf v -> slot_wf o -> wf (v <| f_live := o |>).
Proof. unfold wf; cbn; tauto. Qed.

Lemma wf_set_next v o : wf v -> slot_wf o -> wf (v <| f_next := o |>).
Proof. unfold wf; cbn; tauto. Qed.

Lemma wf_replace v x e v' : replace v x e = Ret v' -> wf v -> P x -> wf v'.
Proof. intros E Hv Hx. unfold replace in E. run_inv. by apply wf_set_live. Qed.

Lemma wf_schedule v o e v' : schedule v e o = Ret v' -> wf v -> slot_wf o -> wf v'.
Proof. intros E Hv Hx. unfold schedule in E. run_inv. by apply wf_set_next. Qed.

Lemma wf_transition v e v' : wf v -> transition v e = Ret v' -> wf v'.
Proof.
  intros (Hp & Hn & Hl & Hm & Hs & Hg) E. unfold transition in E.
  apply bind_Ret in E as ([] & _ & E). cbn in E. apply bind_Ret in E as (p & Ep & E).
  run_inv. refine (conj _ _); [|cbn; tauto]. destruct (f_epoch v); cbn in Ep |- *.
  - unfold usub in Ep. rewrite native_exact in Ep by done. by run_inv.
  - apply bind_Ret in Ep as (q & Eq & Ep). run_inv. by eapply (native_range 64).
Qed.

Context `{TransitionDefault T}.
Context (next_wf : forall o x, slot_wf o -> next_value o = Ret x -> slot_wf x).

Lemma wf_default_transition v e v' : wf v -> default_transition v e = Ret v' -> wf v'.
Proof.
  intros Hv E. unfold default_transition in E. apply bind_Ret in E as (w & Ew & E).
  eapply wf_transition; [|done]. destruct (f_next v); run_inv; [done|].
  apply wf_set_next; [done|]. eapply next_wf; [|done]. apply Hv.
Qed.

Lemma wf_scheduled v x f :
  wf v -> scheduled_or_default v = Ret (x, f) -> P x /\ forall x', P x' -> wf (f x').
Proof.
  intros Hv E. unfold scheduled_or_default in E. run_inv. split.
  - assert (slot_wf (Some x)) as Hx; [|done]. destruct (f_next v) eqn:En; run_inv.
    + rewrite <- En. apply Hv.
    + eapply next_wf; [|done]. apply Hv.
  - intros x' Hx'. by apply (wf_set_next v (Some x')).
Qed.

End wf.

(** ** The abstract history

    [represents v n hist]: [v] is at epoch [n] and its slots are the entries
    of [hist] for the epochs [n], [n-1], [n-2] and [n-3] that exist. *)

Section history.
Context {T : Type} `{BuildCfg}.

Definition represents (v : t T) (n : Epoch) (hist : Epoch -> option T) : Prop :=
  f_epoch v = EpochAt n /\ 0 ≤ n /\
  f_live v = hist n /\
  (1 ≤ n -> f_mark v = hist (n - 1)) /\
  (2 ≤ n -> f_set v = hist (n - 2)) /\
  (3 ≤ n -> f_go v = hist (n - 3)).

(** Only the last four epochs can be read. *)
Definition in_window (n k : Epoch) : bool := (0 <=? k) && (n - 3 <=? k) && (k <=? n).

Lemma snapshot_at_represents v n hist k :
  represents v n hist ->
  snapshot_at v k = if in_window n k then hist k else None.
Proof.
  intros (He & Hn & Hl & Hm & Hs & Hg). unfold snapshot_at, in_window.
  rewrite He. cbn [EpochPos.eqb EpochPos.mark EpochPos.set EpochPos.go].
  repeat case_match; subst; repeat case_bool_decide; simplify_eq;
    rewrite ?Z.eqb_eq, ?Z.eqb_neq, ?andb_true_iff, ?andb_false_iff,
      ?Z.leb_le, ?Z.leb_gt in *;
    try lia; try (exfalso; lia); try congruence;
    try (rewrite Hm by lia; f_equal; lia);
    try (rewrite Hs by lia; f_equal; lia);
    try (rewrite Hg by lia; f_equal; lia).
  all: try (exfalso; assert (k = n ∨ k = n - 1 ∨ k = n - 2 ∨ k = n - 3) by lia;
            naive_solver lia).
Qed.

(** The history once the value moves to epoch [n + 1]: the scheduled value
    becomes the entry of the new epoch, the past is unchanged. *)
Definition extend (n : Epoch) (next : option T) (hist : Epoch -> option T) : Epoch -> option T :=
  fun k => if k =? n + 1 then next else hist k.

Lemma transition_represents v n hist v' e :
  n + 1 < 2 ^ 64 -> represents v n hist -> transition v e = Ret v' ->
  represents v' (n + 1) (extend n (f_next v) hist) /\ f_next v' = None.
Proof.
  intros Hb (He & Hn & Hl & Hm & Hs & Hg) Ht. unfold transition in Ht.
  apply bind_Ret in Ht as ([] & _ & Ht). cbn in Ht. rewrite He in Ht. cbn in Ht.
  unfold uadd in Ht. rewrite native_exact in Ht by (unfold is_u; lia). cbn in Ht.
  injection Ht as <-. unfold represents, extend. cbn.
  repeat split; intros; try lia;
    repeat (rewrite ?Z.eqb_refl; match goal with
      | |- context [?a =? ?b] => replace (a =? b) with false by (symmetry; apply Z.eqb_neq; lia)
      end); auto.
  - by rewrite Z.eqb_refl.
  - rewrite Hl. f_equal; lia.
  - rewrite Hm by lia. f_equal; lia.
  - rewrite Hs by lia. f_equal; lia.
Qed.

Lemma transition_returns v n hist :
  n + 1 < 2 ^ 64 -> represents v n hist -> exists v', transition v (n + 1) = Ret v'.
Proof.
  intros Hb (He & Hn & _). unfold transition.
  assert (Ep : EpochPos.add (f_epoch v) 1 = Ret (EpochAt (n + 1))).
  { rewrite He. cbn. unfold uadd. by rewrite native_exact by (unfold is_u; lia). }
  rewrite Ep. destruct strict; cbn; rewrite ?Z.eqb_refl, Ep; cbn; by eexists.
Qed.

Lemma represents_schedule v n hist x :
  represents v n hist -> exists v', schedule v n x = Ret v' /\ f_next v' = x /\ represents v' n hist.
Proof.
  intros Hr. assert (He : f_epoch v = EpochAt n) by apply Hr. unfold schedule, strict_epoch.
  rewrite He. cbn. rewrite Z.eqb_refl. eexists. split; [by destruct strict|]. split; [done|].
  by destruct v.
Qed.

(** A run of epochs: what is scheduled for each next epoch, and the rotation. *)
Fixpoint rotate (v : t T) (n : Epoch) (scheduled : list (option T)) : run (t T) :=
  match scheduled with
  | [] => Ret v
  | x :: rest => v ← schedule v n x; v ← transition v (n + 1); rotate v (n + 1) rest
  end.

(** The history after the run. *)
Fixpoint extend_all (n : Epoch) (scheduled : list (option T)) (hist : Epoch -> option T) :
    Epoch -> option T :=
  match scheduled with
  | [] => hist
  | x :: rest => extend_all (n + 1) rest (extend n x hist)
  end.

Lemma rotate_represents xs : forall v n hist,
  n + Z.of_nat (length xs) < 2 ^ 64 -> represents v n hist ->
  exists v', rotate v n xs = Ret v' /\ represents v' (n + Z.of_nat (length xs)) (extend_all n xs hist).
Proof.
  induction xs as [|x xs IH]; intros v n hist Hb Hr; cbn [length rotate extend_all] in *.
  - exists v. by rewrite Z.add_0_r.
  - destruct (represents_schedule v n hist x Hr) as (v1 & -> & Hx & Hr1). cbn [mbind run_bind].
    destruct (transition_returns v1 n hist) as [v2 E2]; [lia|done|]. rewrite E2. cbn [mbind run_bind].
    apply (transition_represents v1 n hist) in E2 as [Hr2 _]; [|lia|done]. rewrite Hx in Hr2.
    destruct (IH v2 (n + 1) _ ltac:(lia) Hr2) as (v' & -> & Hr').
    exists v'. split; [done|]. by replace (n + Z.of_nat (S (length xs))) with
      (n + 1 + Z.of_nat (length xs)) by lia.
Qed.

Lemma extend_all_lookup xs : forall n hist k,
  extend_all n xs hist k =
    if (n <? k) && (k <=? n + Z.of_nat (length xs))
    then mjoin (xs !! Z.to_nat (k - n - 1)) else hist k.
Proof.
  induction xs as [|x xs IH]; intros n hist k; cbn [length extend_all].
  - destruct (Z.ltb_spec n k), (Z.leb_spec k (n + Z.of_nat 0)); try done. lia.
  - rewrite IH. unfold extend.
    destruct (Z.ltb_spec (n + 1) k), (Z.ltb_spec n k), (Z.eqb_spec k (n + 1)),
      (Z.leb_spec k (n + 1 + Z.of_nat (length xs))), (Z.leb_spec k (n + Z.of_nat (S (length xs))));
      try lia; cbn; try done.
    + replace (Z.to_nat (k - n - 1)) with (S (Z.to_nat (k - (n + 1) - 1))) by lia. done.
    + by replace (Z.to_nat (k - n - 1)) with 0%nat by lia.
Qed.

(** C36: an epoch value is a sliding window on its history.  Starting at epoch
    0 and scheduling one value per epoch, the rotations never panic, and [snapshot_at k]
    answers the value that was live in epoch [k] for the last four epochs and nothing for the
    others. *)
Theorem snapshots_refine_history (x0 : T) (xs : list (option T)) :
  Z.of_nat (length xs) < 2 ^ 64 ->
  exists v, rotate (with_live 0 x0) 0 xs = Ret v /\
    forall k, snapshot_at v k =
      if in_window (Z.of_nat (length xs)) k then mjoin ((Some x0 :: xs) !! Z.to_nat k) else None.
Proof.
  intros Hb.
  destruct (rotate_represents xs (with_live 0 x0) 0 (fun k => if k =? 0 then Some x0 else None))
    as (v & E & Hr); [lia|by unfold represents; cbn; repeat split; intros; lia|].
  exists v. split; [done|]. intros k. rewrite (snapshot_at_represents _ _ _ _ Hr). cbn [Z.add].
  destruct (in_window _ k) eqn:Ew; [|done].
  unfold in_window in Ew. rewrite !andb_true_iff, !Z.leb_le in Ew.
  rewrite extend_all_lookup. destruct (Z.ltb_spec 0 k), (Z.leb_spec k (0 + Z.of_nat (length xs)));
    try lia; cbn [andb].
  - replace (Z.to_nat k) with (S (Z.to_nat (k - 0 - 1))) by lia. done.
  - by replace k with 0 by lia.
Qed.

End history.

Lemma snapshots_refine_history_witness :
  exists v : t Z, @rotate _ cfg_strict (with_live 0 10) 0 [Some 11; Some 12; None; Some 14] = Ret v /\
    forall k, snapshot_at v k =
      if in_window 4 k then mjoin ([Some 10; Some 11; Some 12; None; Some 14] !! Z.to_nat k) else None.
Proof.
  apply (@snapshots_refine_history Z cfg_strict 10 [Some 11; Some 12; None; Some 14]). cbn. lia.
Defined.

End EpochValue.

#[export] Hint Resolve EpochValue.wf_replace EpochValue.wf_schedule EpochValue.wf_new
  EpochValue.wf_with_live : dolos.
#[export] Hint Extern 1 (EpochValue.slot_wf _ _) => exact I : dolos.

(** A transition of a value whose default is to keep the live one. *)
Lemma wf_copy_transition {T} `{BuildCfg} (P : T -> Prop) v v' e :
  EpochValue.wf P v ->
  @EpochValue.default_transition T _ (fun c => Ret c) v e = Ret v' -> EpochValue.wf P v'.
Proof.
  intros Hv E. eapply EpochValue.wf_default_transition; [|exact Hv|exact E].
  intros o x Ho [= <-]. exact Ho.
Qed.

(** Unfolds the accessors whose result is a value and its write-back. *)
Ltac ev_unfold :=
  unfold EpochValue.unwrap_live_mut, EpochValue.live_mut, EpochValue.replace,
    EpochValue.schedule, EpochValue.reset, EpochValue.scheduled_or_default,
    EpochValue.unwrap_live, EpochValue.live, EpochValue.next, EpochValue.strict_epoch in *.
