(* ===== verification/EntityDelta.v ===== *)
(** * The entity-delta interface (core/src/state.rs)

    [trait EntityDelta]: a delta names the entity it changes, applies its
    change (recording what it needs for a later undo) and undoes it.  The class
    [ReversibleDelta] states the contract the rollback machinery relies on;
    each delta of the model discharges it, and the theorems about batches and
    rollbacks are proved against it. *)

From S2P Require Import Prelude Types.

(** What an entity type gives: its namespace and the ranges its machine
    integers have by their types. *)
Class Entity (E : Type) := {
  NS : string;
  entity_wf : E -> Prop;
}.
Arguments NS E {_}.

Definition opt_wf {E} `{Entity E} (e : option E) : Prop :=
  match e with Some x => entity_wf x | None => True end.

(** [trait EntityDelta]: [apply] takes [&mut self], so it also returns the
    delta with its undo information. *)
Class EntityDelta (D E : Type) := {
  key : D -> NsKey;
  apply : D -> option E -> run (D * option E);
  undo : D -> option E -> run (option E);
}.
#[global] Hint Mode EntityDelta + - : typeclass_instances.

(** The contract.  [admissible d e] is what a delta may assume when it is
    applied to [e]: it is as its constructor left it, its integers are in
    range, and what the chain guarantees about [e]. *)
Class ReversibleDelta (D E : Type) `{!Entity E} `{!EntityDelta D E} := {
  admissible : D -> option E -> Prop;
  key_namespace : forall d : D, fst (key d) = NS E;
  apply_key : forall (d d' : D) (e e' : option E),
    apply d e = Ret (d', e') -> key d' = key d;
  apply_wf : forall (d d' : D) (e e' : option E),
    admissible d e -> opt_wf e -> apply d e = Ret (d', e') -> opt_wf e';
  undo_apply : forall (d d' : D) (e e' : option E),
    admissible d e -> opt_wf e -> apply d e = Ret (d', e') -> undo d' e' = Ret e;
}.
#[global] Hint Mode ReversibleDelta + - - - : typeclass_instances.

(** The two panicking ways of reaching the entity. *)

(** [entity.as_mut().expect(..)] followed by writing the entity back. *)
Abbreviation existing := expect.

(** [entity.get_or_insert_with(f)]. *)
Definition get_or_insert {E} (e : option E) (d : E) : E := default d e.

(** [entity.is_none()]. *)
Definition is_none {A} (o : option A) : bool :=
  match o with None => true | Some _ => false end.

(** ** Automation for the contract *)

(** Splits every [match] on which a hypothesis saying that [apply] returned is
    blocked, and inverts the returns. *)
Ltac run_split :=
  repeat (run_inv; cbn in *; match goal with
  | H : context [match ?x with _ => _ end] |- _ =>
      lazymatch x with context [match _ with _ => _ end] => fail | _ => idtac end;
      lazymatch type of H with _ = Ret _ => idtac end;
      destruct x eqn:?
  end); run_inv; cbn in *.

(** The round trip of a delta whose undo information is a copy of what [apply]
    overwrites: once the entity is split into its fields both sides compute to
    the same record. *)
Ltac undo_solve :=
  run_split; simplify_eq/=; first [done | repeat case_match; simplify_eq/=; done].
