(* ===== verification/Eras.v ===== *)
(** * Eras (cardano/src/model/eras.rs, cardano/src/eras.rs)

    Era summaries and the chain summary that maps slots to epochs and wall
    clock time. *)

From S2P Require Import Prelude Types.

(** [EraProtocol(u16)], compared as its number. *)
Abbreviation EraProtocol := Z (only parsing).

Definition is_shelley_or_later (p : EraProtocol) : bool := 2 <=? p.

(** [impl From<EraProtocol> for EntityKey]. *)
Definition era_protocol_key (p : EraProtocol) : EntityKey := entity_key_from (to_be_bytes 2 p).

(** [impl From<EntityKey> for EraProtocol]. *)
Definition era_protocol_of_key (k : EntityKey) : EraProtocol := from_be_bytes (take 2 k).

Module EraTransition.

Record t := mk {
  prev_version : EraProtocol;
  new_version : EraProtocol;
}.

Definition entering_shelley (x : t) : bool := (prev_version x <? 2) && (new_version x =? 2).
Definition entering_allegra (x : t) : bool := (prev_version x =? 2) && (new_version x =? 3).
Definition entering_conway (x : t) : bool := (prev_version x <? 9) && (9 <=? new_version x).

End EraTransition.

Module EraBoundary.

Record t := mk {
  epoch : Z;
  slot : Z;
  timestamp : Z;
}.

End EraBoundary.

Module EraSummary.

Record t := mk {
  start : EraBoundary.t;
  end_ : option EraBoundary.t;
  epoch_length : Z;
  slot_length : Z;
  protocol : Z;
}.

#[global] Instance eta_t : Eta t := fun r =>
  mk (start r) (end_ r) (epoch_length r) (slot_length r) (protocol r).

Section ops.
Context `{BuildCfg}.

Definition slot_epoch (e : t) (slot : Z) : run (Epoch * Z) :=
  if slot <? EraBoundary.slot (start e) then Panic
  else
    era_slot ← usub 64 slot (EraBoundary.slot (start e));
    era_epoch ← udiv era_slot (epoch_length e);
    epoch ← uadd 64 (EraBoundary.epoch (start e)) era_epoch;
    consumed ← umul 64 era_epoch (epoch_length e);
    epoch_slot ← usub 64 era_slot consumed;
    Ret (epoch, as_u 32 epoch_slot).

Definition slot_time (e : t) (slot : Z) : run Z :=
  delta ← usub 64 slot (EraBoundary.slot (start e));
  secs ← umul 64 delta (slot_length e);
  uadd 64 (EraBoundary.timestamp (start e)) secs.

Definition epoch_start (e : t) (epoch : Z) : run BlockSlot :=
  delta ← usub 64 epoch (EraBoundary.epoch (start e));
  slots ← umul 64 delta (epoch_length e);
  uadd 64 (EraBoundary.slot (start e)) slots.

Definition define_end (e : t) (at_epoch : Z) : run t :=
  epoch_delta ← usub 64 at_epoch (EraBoundary.epoch (start e));
  slot_delta ← umul 64 epoch_delta (epoch_length e);
  end_slot ← uadd 64 (EraBoundary.slot (start e)) slot_delta;
  second_delta ← umul 64 slot_delta (slot_length e);
  end_timestamp ← uadd 64 (EraBoundary.timestamp (start e)) second_delta;
  let boundary := {|
    EraBoundary.epoch := at_epoch;
    EraBoundary.slot := end_slot;
    EraBoundary.timestamp := end_timestamp;
  |} in
  Ret (e <| end_ := Some boundary |>).

End ops.

End EraSummary.

Definition MS_PER_SECOND : Z := 1000.

(** [pallas::..::SlotConfig], as the code builds it. *)
Record SlotConfig := {
  sc_slot_length : Z;
  zero_slot : Z;
  zero_time : Z;
}.

Module ChainSummary.

Record t := mk {
  past : list EraSummary.t;
  protocols : list Z;
  edge_ : option EraSummary.t;
}.

#[global] Instance eta_t : Eta t := fun r => mk (past r) (protocols r) (edge_ r).

Definition default_ : t := mk [] [] None.

Section ops.
Context `{BuildCfg}.

(** [iter().find(|e| ..)] with a predicate that may panic on an era without an
    end. *)
Fixpoint find_run {A} (f : A -> run bool) (l : list A) : run (option A) :=
  match l with
  | [] => Ret None
  | x :: l' => b ← f x; if (b : bool) then Ret (Some x) else find_run f l'
  end.

Definition edge (c : t) : run EraSummary.t := expect (edge_ c).

(** [slot >= e.start.slot && e.end.as_ref().unwrap().slot > slot]. *)
Definition contains_slot (slot : Z) (e : EraSummary.t) : run bool :=
  if EraBoundary.slot (EraSummary.start e) <=? slot then
    b ← expect (EraSummary.end_ e); Ret (slot <? EraBoundary.slot b)
  else Ret false.

Definition contains_epoch (epoch : Z) (e : EraSummary.t) : run bool :=
  if EraBoundary.epoch (EraSummary.start e) <=? epoch then
    b ← expect (EraSummary.end_ e); Ret (epoch <? EraBoundary.epoch b)
  else Ret false.

Definition era_for_slot (c : t) (slot : Z) : run EraSummary.t :=
  e ← edge c;
  if EraBoundary.slot (EraSummary.start e) <=? slot then Ret e
  else r ← find_run (contains_slot slot) (past c); expect r.

Definition protocol_and_era_for_epoch (c : t) (epoch : Z) : run (Z * EraSummary.t) :=
  e ← edge c;
  if EraBoundary.epoch (EraSummary.start e) <=? epoch then
    p ← expect (list.last (protocols c)); Ret (p, e)
  else
    r ← find_run (fun x => contains_epoch epoch (snd x)) (zip (protocols c) (past c));
    expect r.

Definition era_for_epoch (c : t) (epoch : Z) : run EraSummary.t :=
  r ← protocol_and_era_for_epoch c epoch; Ret (snd r).

Definition slot_epoch (c : t) (slot : Z) : run (Epoch * Z) :=
  era ← era_for_slot c slot; EraSummary.slot_epoch era slot.

Definition epoch_start (c : t) (epoch : Z) : run BlockSlot :=
  era ← era_for_epoch c epoch; EraSummary.epoch_start era epoch.

Definition slot_time (c : t) (slot : Z) : run Z :=
  era ← era_for_slot c slot; EraSummary.slot_time era slot.

Definition to_pallas_slot_config (c : t) : run SlotConfig :=
  e ← edge c;
  l ← umul 64 (EraSummary.slot_length e) MS_PER_SECOND;
  z ← umul 64 (EraBoundary.timestamp (EraSummary.start e)) MS_PER_SECOND;
  Ret {| sc_slot_length := l; zero_slot := EraBoundary.slot (EraSummary.start e); zero_time := z |}.

Definition append_era (c : t) (protocol : Z) (era : EraSummary.t) : t :=
  let past' := match edge_ c with Some e => past c ++ [e] | None => past c end in
  mk past' (protocols c ++ [protocol]) (Some era).

Definition first (c : t) : run EraSummary.t :=
  match past c with era :: _ => Ret era | [] => edge c end.

Definition iter_all (c : t) : run (list EraSummary.t) :=
  e ← edge c; Ret (past c ++ [e]).

Definition iter_past (c : t) : list EraSummary.t := past c.

Definition iter_past_with_protocol (c : t) : list (Z * EraSummary.t) := zip (protocols c) (past c).

Fixpoint first_start (f : Z -> bool) (l : list (Z * EraSummary.t)) : option Z :=
  match l with
  | [] => None
  | (p, era) :: l' =>
      if f p then Some (EraBoundary.epoch (EraSummary.start era)) else first_start f l'
  end.

Definition first_shelley_epoch (c : t) : run Z :=
  match first_start (fun p => p =? 2) (iter_past_with_protocol c) with
  | Some epoch => Ret epoch
  | None =>
      match list.last (protocols c) with
      | Some last =>
          if last =? 2 then e ← edge c; Ret (EraBoundary.epoch (EraSummary.start e)) else Ret 0
      | None => Ret 0
      end
  end.

Definition first_epoch_with_protocol (c : t) (protocol : Z) : run (option Z) :=
  match first_start (fun p => protocol <=? p) (iter_past_with_protocol c) with
  | Some epoch => Ret (Some epoch)
  | None =>
      match list.last (protocols c) with
      | Some last =>
          if protocol <=? last
          then e ← edge c; Ret (Some (EraBoundary.epoch (EraSummary.start e)))
          else Ret None
      | None => Ret None
      end
  end.

Definition first_conway_epoch (c : t) : run (option Z) := first_epoch_with_protocol c 9.
Definition first_mary_epoch (c : t) : run (option Z) := first_epoch_with_protocol c 4.

(** [load_era_summary]: the era entities in key order. *)
Definition load_era_summary (eras : list (EntityKey * EraSummary.t)) : t :=
  foldl (fun chain x => append_era chain (era_protocol_of_key (fst x)) (snd x)) default_ eras.

(** ** Linked eras

    Each era ends where the next one starts, a whole number of its epochs
    later. *)

Fixpoint linked_from (b : EraBoundary.t) (eras : list EraSummary.t) (last : EraSummary.t) : Prop :=
  match eras with
  | [] => EraSummary.start last = b /\ 0 < EraSummary.epoch_length last
  | e :: rest =>
      EraSummary.start e = b /\ 0 < EraSummary.epoch_length e /\
      exists b', EraSummary.end_ e = Some b' /\
        EraBoundary.epoch b ≤ EraBoundary.epoch b' /\
        EraBoundary.slot b' = EraBoundary.slot b +
          (EraBoundary.epoch b' - EraBoundary.epoch b) * EraSummary.epoch_length e /\
        linked_from b' rest last
  end.

(** The chain starts at epoch 0 and slot 0, and every era has its protocol. *)
Definition linked (c : t) : Prop :=
  exists e b, edge_ c = Some e /\ EraBoundary.epoch b = 0 /\ EraBoundary.slot b = 0 /\
    linked_from b (past c) e /\ length (protocols c) = S (length (past c)).

(** An epoch never starts before the slot of its number. *)
Lemma linked_edge b eras e :
  linked_from b eras e -> EraBoundary.epoch b ≤ EraBoundary.slot b ->
  EraBoundary.epoch b ≤ EraBoundary.epoch (EraSummary.start e) ≤ EraBoundary.slot (EraSummary.start e) /\
  0 < EraSummary.epoch_length e.
Proof.
  revert b; induction eras as [|e0 eras IH]; intros b Hl Hb.
  - destruct Hl as [-> ?]. lia.
  - destruct Hl as (_ & Hlen & b' & _ & Hle & Hs & Hl). apply IH in Hl; [lia|nia].
Qed.

(** ** The calendar

    What the eras say of time, without their boundaries' slots: the length of
    each epoch, and the slot where it begins, the sum of the lengths of the
    epochs before it. *)

Fixpoint length_from (eras : list EraSummary.t) (last : EraSummary.t) (epoch : Z) : Z :=
  match eras with
  | [] => EraSummary.epoch_length last
  | e :: rest =>
      match EraSummary.end_ e with
      | Some b => if epoch <? EraBoundary.epoch b then EraSummary.epoch_length e else length_from rest last epoch
      | None => 0
      end
  end.

Definition length_of (c : t) (epoch : Z) : Z :=
  match edge_ c with Some e => length_from (past c) e epoch | None => 0 end.

Fixpoint begins (c : t) (n : nat) : Z :=
  match n with O => 0 | S n => begins c n + length_of c (Z.of_nat n) end.

(** The same, from the boundaries. *)
Fixpoint begins_from (b : EraBoundary.t) (eras : list EraSummary.t) (last : EraSummary.t) (epoch : Z) : Z :=
  match eras with
  | [] => EraBoundary.slot b + (epoch - EraBoundary.epoch b) * EraSummary.epoch_length last
  | e :: rest =>
      match EraSummary.end_ e with
      | Some b' =>
          if epoch <? EraBoundary.epoch b'
          then EraBoundary.slot b + (epoch - EraBoundary.epoch b) * EraSummary.epoch_length e
          else begins_from b' rest last epoch
      | None => 0
      end
  end.

Lemma begins_from_first b eras e : linked_from b eras e -> begins_from b eras e (EraBoundary.epoch b) = EraBoundary.slot b.
Proof.
  revert b. induction eras as [|e0 eras IH]; intros b Hl; cbn; [lia|].
  destruct Hl as (_ & _ & b' & -> & Hle & Hs & Hl). destruct (Z.ltb_spec (EraBoundary.epoch b) (EraBoundary.epoch b')); [lia|].
  assert (Heq : EraBoundary.epoch b' = EraBoundary.epoch b) by lia. rewrite <- Heq at 1. rewrite IH by done. nia.
Qed.

Lemma begins_from_next b eras e epoch :
  linked_from b eras e -> EraBoundary.epoch b ≤ epoch ->
  begins_from b eras e (epoch + 1) = begins_from b eras e epoch + length_from eras e epoch.
Proof.
  revert b. induction eras as [|e0 eras IH]; intros b Hl He; cbn; [lia|].
  destruct Hl as (_ & _ & b' & -> & Hle & Hs & Hl). destruct (Z.ltb_spec epoch (EraBoundary.epoch b')) as [Hin|Hout].
  - destruct (Z.ltb_spec (epoch + 1) (EraBoundary.epoch b')); [lia|].
    assert (Heq : epoch + 1 = EraBoundary.epoch b') by lia. rewrite Heq, begins_from_first, Hs by done. nia.
  - rewrite (proj2 (Z.ltb_ge _ _)) by lia. apply IH; [done|lia].
Qed.

(** On a linked summary both agree. *)
Lemma begins_linked c e b n :
  edge_ c = Some e -> EraBoundary.epoch b = 0 -> EraBoundary.slot b = 0 -> linked_from b (past c) e ->
  begins c n = begins_from b (past c) e (Z.of_nat n).
Proof.
  intros Ee He Hs Hl. induction n as [|n IH].
  - transitivity (EraBoundary.slot b); [done|]. change (Z.of_nat 0) with 0. rewrite <- He. by rewrite begins_from_first.
  - rewrite Nat2Z.inj_succ, <- Z.add_1_r, begins_from_next by (done || lia). cbn. rewrite IH. unfold length_of. by rewrite Ee.
Qed.

Lemma length_from_pos b eras e epoch : linked_from b eras e -> 0 < length_from eras e epoch.
Proof.
  revert b. induction eras as [|e0 eras IH]; intros b Hl; cbn; [by destruct Hl|].
  destruct Hl as (_ & Hlen & b' & -> & _ & _ & Hl). case_match; [done|by eapply IH].
Qed.

Lemma begins_mono c n m : linked c -> (n ≤ m)%nat -> begins c n + Z.of_nat (m - n) ≤ begins c m.
Proof.
  intros (e & b & Ee & _ & _ & Hl & _) Hnm. induction Hnm as [|m Hnm IH]; [by rewrite Nat.sub_diag, Z.add_0_r|].
  cbn [begins]. unfold length_of. rewrite Ee. pose proof (length_from_pos _ _ _ (Z.of_nat m) Hl). lia.
Qed.

(** The epoch of a slot is the only one whose span holds it. *)
Lemma begins_unique c n m i j :
  linked c -> 0 ≤ i < length_of c (Z.of_nat n) -> 0 ≤ j < length_of c (Z.of_nat m) ->
  begins c n + i = begins c m + j -> n = m /\ i = j.
Proof.
  intros Hl Hi Hj E. assert (~ (n < m)%nat) as Hnm.
  { intros Hlt. pose proof (begins_mono c (S n) m Hl Hlt) as Hm. cbn in Hm. lia. }
  assert (~ (m < n)%nat) as Hmn.
  { intros Hlt. pose proof (begins_mono c (S m) n Hl Hlt) as Hm. cbn in Hm. lia. }
  assert (n = m) as -> by lia. split; [done|lia].
Qed.

(** The era that contains a slot, found by slot and by any of its epochs. *)
Lemma find_era b (eras : list EraSummary.t) e (ps : list Z) slot :
  linked_from b eras e -> 0 ≤ EraBoundary.epoch b ≤ EraBoundary.slot b ->
  (length eras ≤ length ps)%nat ->
  EraBoundary.slot b ≤ slot < EraBoundary.slot (EraSummary.start e) ->
  exists x b' p,
    find_run (contains_slot slot) eras = Ret (Some x) /\
    0 < EraSummary.epoch_length x /\ EraSummary.end_ x = Some b' /\
    EraBoundary.epoch b ≤ EraBoundary.epoch (EraSummary.start x) ≤
      EraBoundary.slot (EraSummary.start x) /\
    EraBoundary.slot (EraSummary.start x) ≤ slot < EraBoundary.slot b' /\
    EraBoundary.slot b' = EraBoundary.slot (EraSummary.start x) +
      (EraBoundary.epoch b' - EraBoundary.epoch (EraSummary.start x)) * EraSummary.epoch_length x /\
    EraBoundary.epoch b' ≤ EraBoundary.epoch (EraSummary.start e) /\
    forall epoch, EraBoundary.epoch (EraSummary.start x) ≤ epoch < EraBoundary.epoch b' ->
      find_run (fun y => contains_epoch epoch (snd y)) (zip ps eras) = Ret (Some (p, x)) /\
      length_from eras e epoch = EraSummary.epoch_length x /\
      begins_from b eras e epoch = EraBoundary.slot (EraSummary.start x) +
        (epoch - EraBoundary.epoch (EraSummary.start x)) * EraSummary.epoch_length x.
Proof.
  revert b ps; induction eras as [|e0 eras IH]; intros b ps Hl Hb Hps Hs.
  { destruct Hl as [E _]. rewrite E in Hs. lia. }
  destruct Hl as (Es & Hlen & b' & Ee & Hle & Hsl & Hl). destruct ps as [|p ps]; [cbn in Hps; lia|].
  assert (Hcs : contains_slot slot e0 = Ret (slot <? EraBoundary.slot b')).
  { unfold contains_slot. rewrite Es, Ee, (proj2 (Z.leb_le _ _)) by lia. done. }
  assert (Hce : forall n, EraBoundary.epoch b ≤ n ->
            contains_epoch n e0 = Ret (n <? EraBoundary.epoch b')).
  { intros n Hn. unfold contains_epoch. rewrite Es, Ee, (proj2 (Z.leb_le _ _)) by lia. done. }
  assert (Hb' : 0 ≤ EraBoundary.epoch b' ≤ EraBoundary.slot b') by nia.
  cbn [find_run zip zip_with]. rewrite Hcs. cbn [mbind run_bind].
  destruct (Z.ltb_spec slot (EraBoundary.slot b')) as [Hin|Hout].
  - exists e0, b', p. rewrite Es. pose proof (linked_edge _ _ _ Hl ltac:(lia)) as [? _].
    conj_split; try done; try lia. intros epoch He. cbn [snd length_from begins_from]. rewrite Ee, Hce by lia.
    cbn [mbind run_bind]. by rewrite (proj2 (Z.ltb_lt _ _)) by lia.
  - destruct (IH b' ps Hl Hb' ltac:(cbn in Hps; lia) ltac:(lia))
      as (x & bx & px & Hf & Hx1 & Hx2 & Hx3 & Hx4 & Hx5 & Hx6 & Hfe).
    exists x, bx, px. conj_split; try done; try lia. intros epoch He. cbn [snd length_from begins_from].
    rewrite Ee, Hce by lia. cbn [mbind run_bind].
    rewrite (proj2 (Z.ltb_ge _ _)) by lia. by apply Hfe.
Qed.

(** Inside its era a slot splits into an epoch and an offset. *)
Lemma era_slot_epoch x slot :
  0 ≤ EraBoundary.epoch (EraSummary.start x) ≤ EraBoundary.slot (EraSummary.start x) ->
  EraBoundary.slot (EraSummary.start x) ≤ slot < 2 ^ 64 ->
  0 < EraSummary.epoch_length x ≤ 2 ^ 32 ->
  let n := (slot - EraBoundary.slot (EraSummary.start x)) / EraSummary.epoch_length x in
  let r := (slot - EraBoundary.slot (EraSummary.start x)) mod EraSummary.epoch_length x in
  EraSummary.slot_epoch x slot = Ret (EraBoundary.epoch (EraSummary.start x) + n, r) /\
  EraSummary.epoch_start x (EraBoundary.epoch (EraSummary.start x) + n) = Ret (slot - r) /\
  0 ≤ r < EraSummary.epoch_length x /\ 0 ≤ n.
Proof.
  intros He Hs Hl n r. set (d := slot - EraBoundary.slot (EraSummary.start x)) in *.
  set (len := EraSummary.epoch_length x) in *.
  assert (Hdm : d = len * n + r) by (apply Z.div_mod; lia).
  assert (Hr : 0 ≤ r < len) by (apply Z.mod_pos_bound; lia).
  assert (Hn : 0 ≤ n) by (apply Z.div_pos; lia).
  assert (Hle : n ≤ d) by nia.
  unfold EraSummary.slot_epoch, EraSummary.epoch_start.
  rewrite (proj2 (Z.ltb_ge _ _)) by lia.
  rewrite usub_exact by (unfold is_u; lia). cbn [mbind run_bind]. fold d len.
  rewrite udiv_exact by lia. cbn [mbind run_bind]. fold n.
  rewrite uadd_exact by (unfold is_u; lia). cbn [mbind run_bind].
  rewrite umul_exact by (unfold is_u; nia). cbn [mbind run_bind].
  rewrite usub_exact by (unfold is_u; nia). cbn [mbind run_bind].
  rewrite as_u_small by (unfold is_u; nia).
  replace (d - n * len) with r by lia.
  rewrite usub_exact by (unfold is_u; lia). cbn [mbind run_bind].
  replace (EraBoundary.epoch (EraSummary.start x) + n - EraBoundary.epoch (EraSummary.start x))
    with n by lia.
  rewrite umul_exact by (unfold is_u; nia). cbn [mbind run_bind].
  rewrite uadd_exact by (unfold is_u; nia).
  conj_split; [done| |lia..]. f_equal. unfold d in Hdm. lia.
Qed.

(** From the start of the edge on the calendar is the edge's. *)
Lemma edge_calendar b eras e epoch :
  linked_from b eras e -> EraBoundary.epoch (EraSummary.start e) ≤ epoch ->
  length_from eras e epoch = EraSummary.epoch_length e /\
  begins_from b eras e epoch = EraBoundary.slot (EraSummary.start e) +
    (epoch - EraBoundary.epoch (EraSummary.start e)) * EraSummary.epoch_length e.
Proof.
  revert b. induction eras as [|e0 eras IH]; intros b Hl He; cbn.
  - by destruct Hl as [-> _].
  - destruct Hl as (_ & _ & b' & -> & _ & _ & Hl). assert (EraBoundary.epoch b' ≤ EraBoundary.epoch (EraSummary.start e)) as Hb.
    { clear -Hl. revert b' Hl. induction eras as [|e1 eras IH]; intros b' Hl; [by destruct Hl as [-> _]|].
      destruct Hl as (_ & _ & b1 & _ & Hle & _ & Hl). apply IH in Hl. lia. }
    rewrite (proj2 (Z.ltb_ge _ _)) by lia. by apply IH.
Qed.

(** A slot of an era whose epochs are those of the calendar. *)
Lemma slot_in_era c e b x slot :
  edge_ c = Some e -> EraBoundary.epoch b = 0 -> EraBoundary.slot b = 0 -> linked_from b (past c) e ->
  0 ≤ EraBoundary.epoch (EraSummary.start x) ≤ EraBoundary.slot (EraSummary.start x) ->
  EraBoundary.slot (EraSummary.start x) ≤ slot < 2 ^ 64 -> 0 < EraSummary.epoch_length x ≤ 2 ^ 32 ->
  let epoch := EraBoundary.epoch (EraSummary.start x) +
    (slot - EraBoundary.slot (EraSummary.start x)) / EraSummary.epoch_length x in
  length_from (past c) e epoch = EraSummary.epoch_length x /\
  begins_from b (past c) e epoch = EraBoundary.slot (EraSummary.start x) +
    (epoch - EraBoundary.epoch (EraSummary.start x)) * EraSummary.epoch_length x ->
  exists n offset, EraSummary.slot_epoch x slot = Ret (Z.of_nat n, offset) /\ 0 ≤ offset < length_of c (Z.of_nat n) /\
    slot = begins c n + offset /\ Z.of_nat n = epoch /\ EraSummary.epoch_start x (Z.of_nat n) = Ret (begins c n).
Proof.
  intros Ee He0 Hs0 Hl Hst Hs Hlen epoch [H5 H6]. destruct (era_slot_epoch x slot Hst Hs Hlen) as (H1 & H2 & H3 & H4).
  pose proof (Z.div_mod (slot - EraBoundary.slot (EraSummary.start x)) (EraSummary.epoch_length x) ltac:(lia)) as Hdm.
  fold epoch in H1, H2. exists (Z.to_nat epoch), ((slot - EraBoundary.slot (EraSummary.start x)) mod EraSummary.epoch_length x).
  assert (Hn : Z.of_nat (Z.to_nat epoch) = epoch) by (apply Z2Nat.id; unfold epoch; lia).
  rewrite (begins_linked c e b), Hn, H6 by done. unfold length_of. rewrite Ee, H5.
  conj_split; [done|lia..|unfold epoch; lia|done|]. rewrite H2. f_equal. unfold epoch. lia.
Qed.

(** Every slot is in the span of the epoch the lookup returns. *)
Lemma slot_in_epoch c slot :
  linked c -> is_u64 slot ->
  (forall e, e ∈ past c \/ edge_ c = Some e -> EraSummary.epoch_length e ≤ 2 ^ 32) ->
  exists n offset,
    slot_epoch c slot = Ret (Z.of_nat n, offset) /\ 0 ≤ offset < length_of c (Z.of_nat n) /\
    slot = begins c n + offset /\ epoch_start c (Z.of_nat n) = Ret (begins c n).
Proof.
  intros (e & b & Ee & He0 & Hs0 & Hl & Hps) Hu Hlen. unfold is_u in Hu.
  pose proof (linked_edge _ _ _ Hl ltac:(lia)) as [Hedge Hpos].
  unfold slot_epoch, epoch_start, era_for_epoch, protocol_and_era_for_epoch, era_for_slot, edge.
  rewrite Ee. cbn [expect mbind run_bind].
  destruct (Z.leb_spec (EraBoundary.slot (EraSummary.start e)) slot) as [Hin|Hout].
  - assert (Hn : 0 ≤ (slot - EraBoundary.slot (EraSummary.start e)) / EraSummary.epoch_length e) by (apply Z.div_pos; lia).
    destruct (slot_in_era c e b e slot) as (m & off & Hm1 & Hm2 & Hm3 & Hm4 & Hm5); [done..|lia|lia| | |].
    { split; [lia|by apply Hlen; right]. }
    { apply edge_calendar; [done|lia]. }
    exists m, off. split; [exact Hm1|]. split; [exact Hm2|]. split; [exact Hm3|]. rewrite (proj2 (Z.leb_le _ _)) by lia.
    destruct (list.last (protocols c)) eqn:Elast; [exact Hm5|]. apply last_None in Elast. by rewrite Elast in Hps.
  - destruct (find_era b (past c) e (protocols c) slot Hl) as
      (x & b' & p & Hf & Hx1 & Hx2 & Hx3 & Hx4 & Hx5 & Hx6 & Hfe); [lia..|].
    assert (Hmem : x ∈ past c).
    { clear -Hf. induction (past c) as [|y l IH]; [done|]. cbn in Hf.
      destruct (contains_slot slot y) as [[]|]; cbn in Hf; [injection Hf as ->; by left| |done].
      right. auto. }
    rewrite Hf. cbn [expect mbind run_bind].
    assert (Hn : 0 ≤ (slot - EraBoundary.slot (EraSummary.start x)) / EraSummary.epoch_length x <
      EraBoundary.epoch b' - EraBoundary.epoch (EraSummary.start x)).
    { split; [apply Z.div_pos; lia|apply Z.div_lt_upper_bound; lia]. }
    destruct (slot_in_era c e b x slot) as (m & off & Hm1 & Hm2 & Hm3 & Hm4 & Hm5); [done..|lia|lia| | |].
    { split; [lia|apply Hlen; by left]. }
    { apply Hfe. lia. }
    exists m, off. split; [exact Hm1|]. split; [exact Hm2|]. split; [exact Hm3|]. rewrite (proj2 (Z.leb_gt _ _)) by lia.
    rewrite (proj1 (Hfe (Z.of_nat m) ltac:(lia))). exact Hm5.
Qed.

(** C35: on a linked chain summary the lookups agree with the calendar of its
    eras and are inverse to each other: every slot is sent to the one epoch
    whose span holds it and to its offset in that span; every epoch that
    begins at a 64-bit slot starts where the lengths of the epochs before it
    put it; and looking up any slot of an epoch's span, its first one
    included, gives back that epoch and the offset. *)
Theorem slot_epoch_roundtrip c :
  linked c ->
  (forall e, e ∈ past c \/ edge_ c = Some e -> EraSummary.epoch_length e ≤ 2 ^ 32) ->
  (forall slot, is_u64 slot -> exists n offset,
     slot_epoch c slot = Ret (Z.of_nat n, offset) /\ 0 ≤ offset < length_of c (Z.of_nat n) /\
     slot = begins c n + offset) /\
  (forall n, is_u64 (begins c n) ->
     epoch_start c (Z.of_nat n) = Ret (begins c n) /\ slot_epoch c (begins c n) = Ret (Z.of_nat n, 0)) /\
  (forall n offset, 0 ≤ offset < length_of c (Z.of_nat n) -> is_u64 (begins c n + offset) ->
     slot_epoch c (begins c n + offset) = Ret (Z.of_nat n, offset)).
Proof.
  intros Hl Hlen.
  assert (Hpos : forall n, 0 < length_of c (Z.of_nat n)).
  { intros n. destruct Hl as (e & b & Ee & _ & _ & Hl & _). unfold length_of. rewrite Ee. by eapply length_from_pos. }
  assert (Hspan : forall n offset, 0 ≤ offset < length_of c (Z.of_nat n) -> is_u64 (begins c n + offset) ->
    slot_epoch c (begins c n + offset) = Ret (Z.of_nat n, offset) /\ epoch_start c (Z.of_nat n) = Ret (begins c n)).
  { intros n offset Ho Hu. destruct (slot_in_epoch c _ Hl Hu Hlen) as (m & j & Hs & Hj & E & He).
    destruct (begins_unique c n m offset j Hl Ho Hj E) as [-> ->]. done. }
  conj_split.
  - intros slot Hu. destruct (slot_in_epoch c slot Hl Hu Hlen) as (n & j & ? & ? & ? & _). by exists n, j.
  - intros n Hu. specialize (Hpos n). destruct (Hspan n 0) as [H1 H2]; [lia|by rewrite Z.add_0_r|]. rewrite Z.add_0_r in H1. done.
  - intros n offset Ho Hu. by apply Hspan.
Qed.

Lemma linked_from_snoc b eras e b' new :
  linked_from b eras e -> EraSummary.end_ e = Some b' ->
  EraBoundary.epoch (EraSummary.start e) ≤ EraBoundary.epoch b' ->
  EraBoundary.slot b' = EraBoundary.slot (EraSummary.start e) +
    (EraBoundary.epoch b' - EraBoundary.epoch (EraSummary.start e)) * EraSummary.epoch_length e ->
  EraSummary.start new = b' -> 0 < EraSummary.epoch_length new ->
  linked_from b (eras ++ [e]) new.
Proof.
  intros Hl He Hle Hs Hn Hlen. revert b Hl; induction eras as [|e0 eras IH]; intros b Hl; cbn.
  - destruct Hl as [Eb Hpos]. rewrite Eb in *. conj_split; [done|done|]. by exists b'.
  - destruct Hl as (E0 & Hp & b0 & Ee0 & Hle0 & Hs0 & Hl). conj_split; [done|done|].
    exists b0. conj_split; try done. by apply IH.
Qed.

(** Closing the edge era at an epoch and appending the era that starts at
    that boundary keeps the summary linked, as long as the boundary fits its
    machine integers. *)
Theorem append_era_linked c e e' at_epoch protocol new b :
  linked c -> edge_ c = Some e ->
  EraBoundary.epoch (EraSummary.start e) ≤ at_epoch -> is_u64 at_epoch ->
  is_u64 (EraBoundary.slot (EraSummary.start e) +
          (at_epoch - EraBoundary.epoch (EraSummary.start e)) * EraSummary.epoch_length e) ->
  EraSummary.define_end e at_epoch = Ret e' -> EraSummary.end_ e' = Some b ->
  EraSummary.start new = b -> 0 < EraSummary.epoch_length new ->
  linked (append_era (c <| edge_ := Some e' |>) protocol new).
Proof.
  intros (e0 & b0 & Ee & He0 & Hs0 & Hl & Hps) Ee' Hle Hu Hslot Hd Hend Hst Hlen.
  assert (e0 = e) as -> by congruence. clear Ee'.
  pose proof (linked_edge _ _ _ Hl ltac:(lia)) as [Hedge Hpos]. unfold is_u in *.
  unfold EraSummary.define_end in Hd. rewrite usub_exact in Hd by (unfold is_u; lia).
  cbn [mbind run_bind] in Hd. rewrite umul_exact in Hd by (unfold is_u; nia).
  cbn [mbind run_bind] in Hd. rewrite uadd_exact in Hd by (unfold is_u; lia).
  cbn [mbind run_bind] in Hd. apply bind_Ret in Hd as (secs & _ & Hd).
  apply bind_Ret in Hd as (ts & _ & Hd). injection Hd as <-.
  pose proof Hend as Hb. cbn in Hb. injection Hb as Hb.
  exists new, b0. conj_split; [done|done|done| |cbn; rewrite !length_app, Hps; cbn; lia].
  cbn. apply (linked_from_snoc _ _ _ b); try done; [|by rewrite <- Hb..].
  clear -Hl. revert b0 Hl. induction (past c) as [|x l IH]; intros b0 Hl; cbn in *; [done|].
  destruct Hl as (? & ? & b' & ? & ? & ? & Hl). conj_split; [done|done|].
  exists b'. conj_split; try done. by apply IH.
Qed.
End ops.

End ChainSummary.

(** The first two eras of mainnet. *)
Module Mainnet.

Definition byron_end : EraBoundary.t := EraBoundary.mk 208 4492800 1596059091.
Definition byron : EraSummary.t :=
  EraSummary.mk (EraBoundary.mk 0 0 1506203091) (Some byron_end) 21600 20 0.
Definition shelley : EraSummary.t := EraSummary.mk byron_end None 432000 1 2.
Definition chain : ChainSummary.t := ChainSummary.mk [byron] [0; 2] (Some shelley).

End Mainnet.

#[local] Instance mainnet_cfg : BuildCfg := cfg_release.

(** The first slot of epoch 209, the second one of Shelley. *)
Lemma slot_epoch_roundtrip_witness :
  ChainSummary.begins Mainnet.chain 209 = 4924800 /\
  ChainSummary.epoch_start Mainnet.chain 209 = Ret 4924800 /\
  ChainSummary.slot_epoch Mainnet.chain 5000000 = Ret (209, 75200).
Proof.
  assert (E : ChainSummary.begins Mainnet.chain 209 = 4924800) by (vm_compute; reflexivity).
  destruct (ChainSummary.slot_epoch_roundtrip Mainnet.chain) as (_ & Hs & Ho).
  - exists Mainnet.shelley, (EraBoundary.mk 0 0 1506203091). conj_split; try done.
    cbn. conj_split; [done|lia|]. exists Mainnet.byron_end. cbn. conj_split; try done; lia.
  - intros e [He|[= <-]]; [|cbn; lia]. cbn in He. apply list_elem_of_singleton in He as ->. cbn. lia.
  - specialize (Hs 209%nat). specialize (Ho 209%nat 75200). rewrite E in Hs, Ho.
    split; [exact E|]. split; [apply Hs; done|]. apply Ho; [|done]. vm_compute. split; [discriminate|reflexivity].
Defined.

Lemma append_era_linked_witness :
  ChainSummary.linked
    (ChainSummary.append_era
      (ChainSummary.mk [] [0] (Some Mainnet.byron)) 2 Mainnet.shelley).
Proof.
  apply (ChainSummary.append_era_linked
           (ChainSummary.mk [] [0] (Some (Mainnet.byron <| EraSummary.end_ := None |>)))
           (Mainnet.byron <| EraSummary.end_ := None |>) Mainnet.byron 208 2 Mainnet.shelley
           Mainnet.byron_end); try done.
  exists (Mainnet.byron <| EraSummary.end_ := None |>), (EraBoundary.mk 0 0 1506203091). by conj_split.
Defined.
