(* ===== verification/PParams.v ===== *)
(** * Protocol parameters (cardano/src/model/pparams.rs)

    The set of protocol parameters: a vector with at most one value of each
    kind, its getters and its merge. *)

From S2P Require Import Prelude Types EpochValue Eras.

(** ** The defaults of cardano/src/pallas_extras.rs *)

Definition default_rational_number : RationalNumber := {| numerator := 0; denominator := 1 |}.

Definition default_pool_voting_thresholds : PoolVotingThresholds := {|
  pv_motion_no_confidence := default_rational_number;
  pv_committee_normal := default_rational_number;
  pv_committee_no_confidence := default_rational_number;
  pv_hard_fork_initiation := default_rational_number;
  pv_security_voting_threshold := default_rational_number;
|}.

Definition default_drep_voting_thresholds : DRepVotingThresholds := {|
  dv_motion_no_confidence := default_rational_number;
  dv_committee_normal := default_rational_number;
  dv_committee_no_confidence := default_rational_number;
  dv_hard_fork_initiation := default_rational_number;
  dv_pp_network_group := default_rational_number;
  dv_pp_economic_group := default_rational_number;
  dv_pp_technical_group := default_rational_number;
  dv_treasury_withdrawal := default_rational_number;
  dv_update_constitution := default_rational_number;
  dv_pp_governance_group := default_rational_number;
|}.

Definition default_nonce : Nonce := {| variant := NeutralNonce; nonce_hash := None |}.
Definition default_ex_units : ExUnits := {| mem := 0; steps := 0 |}.
Definition default_ex_unit_prices : ExUnitPrices :=
  {| mem_price := default_rational_number; step_price := default_rational_number |}.

Record CostModels := {
  plutus_v1 : option (list Z);
  plutus_v2 : option (list Z);
  plutus_v3 : option (list Z);
  unknown : gmap Z (list Z);
}.

Definition default_cost_models : CostModels :=
  {| plutus_v1 := None; plutus_v2 := None; plutus_v3 := None; unknown := ∅ |}.

Module PParamKind.

Inductive t :=
| SystemStart
| EpochLength
| SlotLength
| MinFeeA
| MinFeeB
| MaxBlockBodySize
| MaxTransactionSize
| MaxBlockHeaderSize
| KeyDeposit
| PoolDeposit
| DesiredNumberOfStakePools
| ProtocolVersion
| MinUtxoValue
| MinPoolCost
| ExpansionRate
| TreasuryGrowthRate
| MaximumEpoch
| PoolPledgeInfluence
| DecentralizationConstant
| ExtraEntropy
| AdaPerUtxoByte
| ExecutionCosts
| MaxTxExUnits
| MaxBlockExUnits
| MaxValueSize
| CollateralPercentage
| MaxCollateralInputs
| PoolVotingThresholds
| DrepVotingThresholds
| MinCommitteeSize
| CommitteeTermLimit
| GovernanceActionValidityPeriod
| GovernanceActionDeposit
| DrepDeposit
| DrepInactivityPeriod
| MinFeeRefScriptCostPerByte
| CostModelsPlutusV1
| CostModelsPlutusV2
| CostModelsPlutusV3
| CostModelsUnknown.

(** The discriminants. *)
Definition index (k : t) : Z :=
  match k with
  | SystemStart => 0
  | EpochLength => 1
  | SlotLength => 2
  | MinFeeA => 3
  | MinFeeB => 4
  | MaxBlockBodySize => 5
  | MaxTransactionSize => 6
  | MaxBlockHeaderSize => 7
  | KeyDeposit => 8
  | PoolDeposit => 9
  | DesiredNumberOfStakePools => 10
  | ProtocolVersion => 11
  | MinUtxoValue => 12
  | MinPoolCost => 13
  | ExpansionRate => 14
  | TreasuryGrowthRate => 15
  | MaximumEpoch => 16
  | PoolPledgeInfluence => 17
  | DecentralizationConstant => 18
  | ExtraEntropy => 19
  | AdaPerUtxoByte => 20
  | ExecutionCosts => 21
  | MaxTxExUnits => 22
  | MaxBlockExUnits => 23
  | MaxValueSize => 24
  | CollateralPercentage => 25
  | MaxCollateralInputs => 26
  | PoolVotingThresholds => 27
  | DrepVotingThresholds => 28
  | MinCommitteeSize => 29
  | CommitteeTermLimit => 30
  | GovernanceActionValidityPeriod => 31
  | GovernanceActionDeposit => 32
  | DrepDeposit => 33
  | DrepInactivityPeriod => 34
  | MinFeeRefScriptCostPerByte => 35
  | CostModelsPlutusV1 => 36
  | CostModelsPlutusV2 => 37
  | CostModelsPlutusV3 => 38
  | CostModelsUnknown => 39
  end.

Definition of_index (n : Z) : option t :=
  match n with
  | 0 => Some SystemStart
  | 1 => Some EpochLength
  | 2 => Some SlotLength
  | 3 => Some MinFeeA
  | 4 => Some MinFeeB
  | 5 => Some MaxBlockBodySize
  | 6 => Some MaxTransactionSize
  | 7 => Some MaxBlockHeaderSize
  | 8 => Some KeyDeposit
  | 9 => Some PoolDeposit
  | 10 => Some DesiredNumberOfStakePools
  | 11 => Some ProtocolVersion
  | 12 => Some MinUtxoValue
  | 13 => Some MinPoolCost
  | 14 => Some ExpansionRate
  | 15 => Some TreasuryGrowthRate
  | 16 => Some MaximumEpoch
  | 17 => Some PoolPledgeInfluence
  | 18 => Some DecentralizationConstant
  | 19 => Some ExtraEntropy
  | 20 => Some AdaPerUtxoByte
  | 21 => Some ExecutionCosts
  | 22 => Some MaxTxExUnits
  | 23 => Some MaxBlockExUnits
  | 24 => Some MaxValueSize
  | 25 => Some CollateralPercentage
  | 26 => Some MaxCollateralInputs
  | 27 => Some PoolVotingThresholds
  | 28 => Some DrepVotingThresholds
  | 29 => Some MinCommitteeSize
  | 30 => Some CommitteeTermLimit
  | 31 => Some GovernanceActionValidityPeriod
  | 32 => Some GovernanceActionDeposit
  | 33 => Some DrepDeposit
  | 34 => Some DrepInactivityPeriod
  | 35 => Some MinFeeRefScriptCostPerByte
  | 36 => Some CostModelsPlutusV1
  | 37 => Some CostModelsPlutusV2
  | 38 => Some CostModelsPlutusV3
  | 39 => Some CostModelsUnknown
  | _ => None
  end.

Lemma of_index_index k : of_index (index k) = Some k.
Proof. by destruct k. Qed.

#[global] Instance eq_dec : EqDecision t.
Proof.
  intros a b. destruct (decide (index a = index b)) as [E|E].
  - left. apply (inj Some). by rewrite <- !of_index_index, E.
  - right. congruence.
Defined.

End PParamKind.

Module PParamValue.

Inductive t :=
| SystemStart (x : Z)
| EpochLength (x : Z)
| SlotLength (x : Z)
| MinFeeA (x : Z)
| MinFeeB (x : Z)
| MaxBlockBodySize (x : Z)
| MaxTransactionSize (x : Z)
| MaxBlockHeaderSize (x : Z)
| KeyDeposit (x : Z)
| PoolDeposit (x : Z)
| DesiredNumberOfStakePools (x : Z)
| ProtocolVersion (x : Z * Z)
| MinUtxoValue (x : Z)
| MinPoolCost (x : Z)
| ExpansionRate (x : RationalNumber)
| TreasuryGrowthRate (x : RationalNumber)
| MaximumEpoch (x : Z)
| PoolPledgeInfluence (x : RationalNumber)
| DecentralizationConstant (x : RationalNumber)
| ExtraEntropy (x : Nonce)
| AdaPerUtxoByte (x : Z)
| ExecutionCosts (x : ExUnitPrices)
| MaxTxExUnits (x : ExUnits)
| MaxBlockExUnits (x : ExUnits)
| MaxValueSize (x : Z)
| CollateralPercentage (x : Z)
| MaxCollateralInputs (x : Z)
| PoolVotingThresholds (x : PoolVotingThresholds)
| DrepVotingThresholds (x : DRepVotingThresholds)
| MinCommitteeSize (x : Z)
| CommitteeTermLimit (x : Z)
| GovernanceActionValidityPeriod (x : Z)
| GovernanceActionDeposit (x : Z)
| DrepDeposit (x : Z)
| DrepInactivityPeriod (x : Z)
| MinFeeRefScriptCostPerByte (x : RationalNumber)
| CostModelsPlutusV1 (x : list Z)
| CostModelsPlutusV2 (x : list Z)
| CostModelsPlutusV3 (x : list Z)
| CostModelsUnknown (x : gmap Z (list Z)).

Definition kind (v : t) : PParamKind.t :=
  match v with
  | SystemStart _ => PParamKind.SystemStart
  | EpochLength _ => PParamKind.EpochLength
  | SlotLength _ => PParamKind.SlotLength
  | MinFeeA _ => PParamKind.MinFeeA
  | MinFeeB _ => PParamKind.MinFeeB
  | MaxBlockBodySize _ => PParamKind.MaxBlockBodySize
  | MaxTransactionSize _ => PParamKind.MaxTransactionSize
  | MaxBlockHeaderSize _ => PParamKind.MaxBlockHeaderSize
  | KeyDeposit _ => PParamKind.KeyDeposit
  | PoolDeposit _ => PParamKind.PoolDeposit
  | DesiredNumberOfStakePools _ => PParamKind.DesiredNumberOfStakePools
  | ProtocolVersion _ => PParamKind.ProtocolVersion
  | MinUtxoValue _ => PParamKind.MinUtxoValue
  | MinPoolCost _ => PParamKind.MinPoolCost
  | ExpansionRate _ => PParamKind.ExpansionRate
  | TreasuryGrowthRate _ => PParamKind.TreasuryGrowthRate
  | MaximumEpoch _ => PParamKind.MaximumEpoch
  | PoolPledgeInfluence _ => PParamKind.PoolPledgeInfluence
  | DecentralizationConstant _ => PParamKind.DecentralizationConstant
  | ExtraEntropy _ => PParamKind.ExtraEntropy
  | AdaPerUtxoByte _ => PParamKind.AdaPerUtxoByte
  | ExecutionCosts _ => PParamKind.ExecutionCosts
  | MaxTxExUnits _ => PParamKind.MaxTxExUnits
  | MaxBlockExUnits _ => PParamKind.MaxBlockExUnits
  | MaxValueSize _ => PParamKind.MaxValueSize
  | CollateralPercentage _ => PParamKind.CollateralPercentage
  | MaxCollateralInputs _ => PParamKind.MaxCollateralInputs
  | PoolVotingThresholds _ => PParamKind.PoolVotingThresholds
  | DrepVotingThresholds _ => PParamKind.DrepVotingThresholds
  | MinCommitteeSize _ => PParamKind.MinCommitteeSize
  | CommitteeTermLimit _ => PParamKind.CommitteeTermLimit
  | GovernanceActionValidityPeriod _ => PParamKind.GovernanceActionValidityPeriod
  | GovernanceActionDeposit _ => PParamKind.GovernanceActionDeposit
  | DrepDeposit _ => PParamKind.DrepDeposit
  | DrepInactivityPeriod _ => PParamKind.DrepInactivityPeriod
  | MinFeeRefScriptCostPerByte _ => PParamKind.MinFeeRefScriptCostPerByte
  | CostModelsPlutusV1 _ => PParamKind.CostModelsPlutusV1
  | CostModelsPlutusV2 _ => PParamKind.CostModelsPlutusV2
  | CostModelsPlutusV3 _ => PParamKind.CostModelsPlutusV3
  | CostModelsUnknown _ => PParamKind.CostModelsUnknown
  end.

(** [PParamKind::default_value]. *)
Definition default_value (k : PParamKind.t) : t :=
  match k with
  | PParamKind.SystemStart => SystemStart 0
  | PParamKind.EpochLength => EpochLength 0
  | PParamKind.SlotLength => SlotLength 0
  | PParamKind.MinFeeA => MinFeeA 0
  | PParamKind.MinFeeB => MinFeeB 0
  | PParamKind.MaxBlockBodySize => MaxBlockBodySize 0
  | PParamKind.MaxTransactionSize => MaxTransactionSize 0
  | PParamKind.MaxBlockHeaderSize => MaxBlockHeaderSize 0
  | PParamKind.KeyDeposit => KeyDeposit 0
  | PParamKind.PoolDeposit => PoolDeposit 0
  | PParamKind.DesiredNumberOfStakePools => DesiredNumberOfStakePools 0
  | PParamKind.ProtocolVersion => ProtocolVersion (0, 0)
  | PParamKind.MinUtxoValue => MinUtxoValue 0
  | PParamKind.MinPoolCost => MinPoolCost 0
  | PParamKind.ExpansionRate => ExpansionRate default_rational_number
  | PParamKind.TreasuryGrowthRate => TreasuryGrowthRate default_rational_number
  | PParamKind.MaximumEpoch => MaximumEpoch 0
  | PParamKind.PoolPledgeInfluence => PoolPledgeInfluence default_rational_number
  | PParamKind.DecentralizationConstant => DecentralizationConstant default_rational_number
  | PParamKind.ExtraEntropy => ExtraEntropy default_nonce
  | PParamKind.AdaPerUtxoByte => AdaPerUtxoByte 0
  | PParamKind.ExecutionCosts => ExecutionCosts default_ex_unit_prices
  | PParamKind.MaxTxExUnits => MaxTxExUnits default_ex_units
  | PParamKind.MaxBlockExUnits => MaxBlockExUnits default_ex_units
  | PParamKind.MaxValueSize => MaxValueSize 0
  | PParamKind.CollateralPercentage => CollateralPercentage 0
  | PParamKind.MaxCollateralInputs => MaxCollateralInputs 0
  | PParamKind.PoolVotingThresholds => PoolVotingThresholds default_pool_voting_thresholds
  | PParamKind.DrepVotingThresholds => DrepVotingThresholds default_drep_voting_thresholds
  | PParamKind.MinCommitteeSize => MinCommitteeSize 0
  | PParamKind.CommitteeTermLimit => CommitteeTermLimit 0
  | PParamKind.GovernanceActionValidityPeriod => GovernanceActionValidityPeriod 0
  | PParamKind.GovernanceActionDeposit => GovernanceActionDeposit 0
  | PParamKind.DrepDeposit => DrepDeposit 0
  | PParamKind.DrepInactivityPeriod => DrepInactivityPeriod 0
  | PParamKind.MinFeeRefScriptCostPerByte => MinFeeRefScriptCostPerByte default_rational_number
  | PParamKind.CostModelsPlutusV1 => CostModelsPlutusV1 (default [] (plutus_v1 default_cost_models))
  | PParamKind.CostModelsPlutusV2 => CostModelsPlutusV2 (default [] (plutus_v2 default_cost_models))
  | PParamKind.CostModelsPlutusV3 => CostModelsPlutusV3 (default [] (plutus_v3 default_cost_models))
  | PParamKind.CostModelsUnknown => CostModelsUnknown (unknown default_cost_models)
  end.

Lemma kind_default k : kind (default_value k) = k.
Proof. by destruct k. Qed.

End PParamValue.

Module PParamsSet.

Record t := mk { values : list PParamValue.t }.

Definition default_ : t := mk [].

(** [iter().find(|value| value.kind() == kind)]. *)
Fixpoint find_kind (l : list PParamValue.t) (k : PParamKind.t) : option PParamValue.t :=
  match l with
  | [] => None
  | v :: l' => if decide (PParamValue.kind v = k) then Some v else find_kind l' k
  end.

Definition get (p : t) (k : PParamKind.t) : option PParamValue.t := find_kind (values p) k.

(** Writing through [get_mut]: the first value of the kind is replaced. *)
Fixpoint replace_kind (l : list PParamValue.t) (v : PParamValue.t) : list PParamValue.t :=
  match l with
  | [] => []
  | w :: l' =>
      if decide (PParamValue.kind w = PParamValue.kind v) then v :: l' else w :: replace_kind l' v
  end.

Definition set (p : t) (value : PParamValue.t) : t :=
  match get p (PParamValue.kind value) with
  | Some _ => mk (replace_kind (values p) value)
  | None => mk (values p ++ [value])
  end.

Definition with_ (p : t) (value : PParamValue.t) : t := set p value.

Definition clear (p : t) (k : PParamKind.t) : t :=
  mk (filter (fun x => PParamValue.kind x ≠ k) (values p)).

Definition merge (p other : t) : t := foldl set p (values other).

Definition get_or_default (p : t) (k : PParamKind.t) : PParamValue.t :=
  default (PParamValue.default_value k) (get p k).

Definition len (p : t) : Z := Z.of_nat (length (values p)).
Definition is_empty (p : t) : bool := match values p with [] => true | _ => false end.

#[global] Instance transition_default : TransitionDefault t := fun current => Ret current.

(** ** The getters of the macro [pgetter!]

    [proj] is the pattern [PParamValue::$kind(x)]. *)

Definition pgetter {A} (k : PParamKind.t) (proj : PParamValue.t -> option A) (p : t) : run (option A) :=
  match get p k with
  | None => Ret None
  | Some value => match proj value with Some x => Ret (Some x) | None => Panic end
  end.

Definition pgetter_or_default {A} (k : PParamKind.t) (proj : PParamValue.t -> option A) (p : t) : run A :=
  expect (proj (get_or_default p k)).

Definition as_system_start (v : PParamValue.t) :=
  match v with PParamValue.SystemStart x => Some x | _ => None end.
Definition system_start := pgetter PParamKind.SystemStart as_system_start.
Definition system_start_or_default := pgetter_or_default PParamKind.SystemStart as_system_start.

Definition as_epoch_length (v : PParamValue.t) :=
  match v with PParamValue.EpochLength x => Some x | _ => None end.
Definition epoch_length := pgetter PParamKind.EpochLength as_epoch_length.
Definition epoch_length_or_default := pgetter_or_default PParamKind.EpochLength as_epoch_length.

Definition as_slot_length (v : PParamValue.t) :=
  match v with PParamValue.SlotLength x => Some x | _ => None end.
Definition slot_length := pgetter PParamKind.SlotLength as_slot_length.
Definition slot_length_or_default := pgetter_or_default PParamKind.SlotLength as_slot_length.

Definition as_min_fee_a (v : PParamValue.t) :=
  match v with PParamValue.MinFeeA x => Some x | _ => None end.
Definition min_fee_a := pgetter PParamKind.MinFeeA as_min_fee_a.
Definition min_fee_a_or_default := pgetter_or_default PParamKind.MinFeeA as_min_fee_a.

Definition as_min_fee_b (v : PParamValue.t) :=
  match v with PParamValue.MinFeeB x => Some x | _ => None end.
Definition min_fee_b := pgetter PParamKind.MinFeeB as_min_fee_b.
Definition min_fee_b_or_default := pgetter_or_default PParamKind.MinFeeB as_min_fee_b.

Definition as_max_block_body_size (v : PParamValue.t) :=
  match v with PParamValue.MaxBlockBodySize x => Some x | _ => None end.
Definition max_block_body_size := pgetter PParamKind.MaxBlockBodySize as_max_block_body_size.
Definition max_block_body_size_or_default := pgetter_or_default PParamKind.MaxBlockBodySize as_max_block_body_size.

Definition as_max_transaction_size (v : PParamValue.t) :=
  match v with PParamValue.MaxTransactionSize x => Some x | _ => None end.
Definition max_transaction_size := pgetter PParamKind.MaxTransactionSize as_max_transaction_size.
Definition max_transaction_size_or_default := pgetter_or_default PParamKind.MaxTransactionSize as_max_transaction_size.

Definition as_max_block_header_size (v : PParamValue.t) :=
  match v with PParamValue.MaxBlockHeaderSize x => Some x | _ => None end.
Definition max_block_header_size := pgetter PParamKind.MaxBlockHeaderSize as_max_block_header_size.
Definition max_block_header_size_or_default := pgetter_or_default PParamKind.MaxBlockHeaderSize as_max_block_header_size.

Definition as_key_deposit (v : PParamValue.t) :=
  match v with PParamValue.KeyDeposit x => Some x | _ => None end.
Definition key_deposit := pgetter PParamKind.KeyDeposit as_key_deposit.
Definition key_deposit_or_default := pgetter_or_default PParamKind.KeyDeposit as_key_deposit.

Definition as_pool_deposit (v : PParamValue.t) :=
  match v with PParamValue.PoolDeposit x => Some x | _ => None end.
Definition pool_deposit := pgetter PParamKind.PoolDeposit as_pool_deposit.
Definition pool_deposit_or_default := pgetter_or_default PParamKind.PoolDeposit as_pool_deposit.

Definition as_desired_number_of_stake_pools (v : PParamValue.t) :=
  match v with PParamValue.DesiredNumberOfStakePools x => Some x | _ => None end.
Definition desired_number_of_stake_pools := pgetter PParamKind.DesiredNumberOfStakePools as_desired_number_of_stake_pools.
Definition desired_number_of_stake_pools_or_default := pgetter_or_default PParamKind.DesiredNumberOfStakePools as_desired_number_of_stake_pools.

Definition as_protocol_version (v : PParamValue.t) :=
  match v with PParamValue.ProtocolVersion x => Some x | _ => None end.
Definition protocol_version := pgetter PParamKind.ProtocolVersion as_protocol_version.
Definition protocol_version_or_default := pgetter_or_default PParamKind.ProtocolVersion as_protocol_version.

Definition as_min_utxo_value (v : PParamValue.t) :=
  match v with PParamValue.MinUtxoValue x => Some x | _ => None end.
Definition min_utxo_value := pgetter PParamKind.MinUtxoValue as_min_utxo_value.
Definition min_utxo_value_or_default := pgetter_or_default PParamKind.MinUtxoValue as_min_utxo_value.

Definition as_min_pool_cost (v : PParamValue.t) :=
  match v with PParamValue.MinPoolCost x => Some x | _ => None end.
Definition min_pool_cost := pgetter PParamKind.MinPoolCost as_min_pool_cost.
Definition min_pool_cost_or_default := pgetter_or_default PParamKind.MinPoolCost as_min_pool_cost.

Definition as_expansion_rate (v : PParamValue.t) :=
  match v with PParamValue.ExpansionRate x => Some x | _ => None end.
Definition expansion_rate := pgetter PParamKind.ExpansionRate as_expansion_rate.
Definition expansion_rate_or_default := pgetter_or_default PParamKind.ExpansionRate as_expansion_rate.

Definition as_treasury_growth_rate (v : PParamValue.t) :=
  match v with PParamValue.TreasuryGrowthRate x => Some x | _ => None end.
Definition treasury_growth_rate := pgetter PParamKind.TreasuryGrowthRate as_treasury_growth_rate.
Definition treasury_growth_rate_or_default := pgetter_or_default PParamKind.TreasuryGrowthRate as_treasury_growth_rate.

Definition as_maximum_epoch (v : PParamValue.t) :=
  match v with PParamValue.MaximumEpoch x => Some x | _ => None end.
Definition maximum_epoch := pgetter PParamKind.MaximumEpoch as_maximum_epoch.
Definition maximum_epoch_or_default := pgetter_or_default PParamKind.MaximumEpoch as_maximum_epoch.

Definition as_pool_pledge_influence (v : PParamValue.t) :=
  match v with PParamValue.PoolPledgeInfluence x => Some x | _ => None end.
Definition pool_pledge_influence := pgetter PParamKind.PoolPledgeInfluence as_pool_pledge_influence.
Definition pool_pledge_influence_or_default := pgetter_or_default PParamKind.PoolPledgeInfluence as_pool_pledge_influence.

Definition as_decentralization_constant (v : PParamValue.t) :=
  match v with PParamValue.DecentralizationConstant x => Some x | _ => None end.
Definition decentralization_constant := pgetter PParamKind.DecentralizationConstant as_decentralization_constant.
Definition decentralization_constant_or_default := pgetter_or_default PParamKind.DecentralizationConstant as_decentralization_constant.

Definition as_extra_entropy (v : PParamValue.t) :=
  match v with PParamValue.ExtraEntropy x => Some x | _ => None end.
Definition extra_entropy := pgetter PParamKind.ExtraEntropy as_extra_entropy.
Definition extra_entropy_or_default := pgetter_or_default PParamKind.ExtraEntropy as_extra_entropy.

Definition as_ada_per_utxo_byte (v : PParamValue.t) :=
  match v with PParamValue.AdaPerUtxoByte x => Some x | _ => None end.
Definition ada_per_utxo_byte := pgetter PParamKind.AdaPerUtxoByte as_ada_per_utxo_byte.
Definition ada_per_utxo_byte_or_default := pgetter_or_default PParamKind.AdaPerUtxoByte as_ada_per_utxo_byte.

Definition as_cost_models_plutus_v1 (v : PParamValue.t) :=
  match v with PParamValue.CostModelsPlutusV1 x => Some x | _ => None end.
Definition cost_models_plutus_v1 := pgetter PParamKind.CostModelsPlutusV1 as_cost_models_plutus_v1.
Definition cost_models_plutus_v1_or_default := pgetter_or_default PParamKind.CostModelsPlutusV1 as_cost_models_plutus_v1.

Definition as_cost_models_plutus_v2 (v : PParamValue.t) :=
  match v with PParamValue.CostModelsPlutusV2 x => Some x | _ => None end.
Definition cost_models_plutus_v2 := pgetter PParamKind.CostModelsPlutusV2 as_cost_models_plutus_v2.
Definition cost_models_plutus_v2_or_default := pgetter_or_default PParamKind.CostModelsPlutusV2 as_cost_models_plutus_v2.

Definition as_cost_models_plutus_v3 (v : PParamValue.t) :=
  match v with PParamValue.CostModelsPlutusV3 x => Some x | _ => None end.
Definition cost_models_plutus_v3 := pgetter PParamKind.CostModelsPlutusV3 as_cost_models_plutus_v3.
Definition cost_models_plutus_v3_or_default := pgetter_or_default PParamKind.CostModelsPlutusV3 as_cost_models_plutus_v3.

Definition as_cost_models_unknown (v : PParamValue.t) :=
  match v with PParamValue.CostModelsUnknown x => Some x | _ => None end.
Definition cost_models_unknown := pgetter PParamKind.CostModelsUnknown as_cost_models_unknown.
Definition cost_models_unknown_or_default := pgetter_or_default PParamKind.CostModelsUnknown as_cost_models_unknown.

Definition as_execution_costs (v : PParamValue.t) :=
  match v with PParamValue.ExecutionCosts x => Some x | _ => None end.
Definition execution_costs := pgetter PParamKind.ExecutionCosts as_execution_costs.
Definition execution_costs_or_default := pgetter_or_default PParamKind.ExecutionCosts as_execution_costs.

Definition as_max_tx_ex_units (v : PParamValue.t) :=
  match v with PParamValue.MaxTxExUnits x => Some x | _ => None end.
Definition max_tx_ex_units := pgetter PParamKind.MaxTxExUnits as_max_tx_ex_units.
Definition max_tx_ex_units_or_default := pgetter_or_default PParamKind.MaxTxExUnits as_max_tx_ex_units.

Definition as_max_block_ex_units (v : PParamValue.t) :=
  match v with PParamValue.MaxBlockExUnits x => Some x | _ => None end.
Definition max_block_ex_units := pgetter PParamKind.MaxBlockExUnits as_max_block_ex_units.
Definition max_block_ex_units_or_default := pgetter_or_default PParamKind.MaxBlockExUnits as_max_block_ex_units.

Definition as_max_value_size (v : PParamValue.t) :=
  match v with PParamValue.MaxValueSize x => Some x | _ => None end.
Definition max_value_size := pgetter PParamKind.MaxValueSize as_max_value_size.
Definition max_value_size_or_default := pgetter_or_default PParamKind.MaxValueSize as_max_value_size.

Definition as_collateral_percentage (v : PParamValue.t) :=
  match v with PParamValue.CollateralPercentage x => Some x | _ => None end.
Definition collateral_percentage := pgetter PParamKind.CollateralPercentage as_collateral_percentage.
Definition collateral_percentage_or_default := pgetter_or_default PParamKind.CollateralPercentage as_collateral_percentage.

Definition as_max_collateral_inputs (v : PParamValue.t) :=
  match v with PParamValue.MaxCollateralInputs x => Some x | _ => None end.
Definition max_collateral_inputs := pgetter PParamKind.MaxCollateralInputs as_max_collateral_inputs.
Definition max_collateral_inputs_or_default := pgetter_or_default PParamKind.MaxCollateralInputs as_max_collateral_inputs.

Definition as_pool_voting_thresholds (v : PParamValue.t) :=
  match v with PParamValue.PoolVotingThresholds x => Some x | _ => None end.
Definition pool_voting_thresholds := pgetter PParamKind.PoolVotingThresholds as_pool_voting_thresholds.
Definition pool_voting_thresholds_or_default := pgetter_or_default PParamKind.PoolVotingThresholds as_pool_voting_thresholds.

Definition as_drep_voting_thresholds (v : PParamValue.t) :=
  match v with PParamValue.DrepVotingThresholds x => Some x | _ => None end.
Definition drep_voting_thresholds := pgetter PParamKind.DrepVotingThresholds as_drep_voting_thresholds.
Definition drep_voting_thresholds_or_default := pgetter_or_default PParamKind.DrepVotingThresholds as_drep_voting_thresholds.

Definition as_min_committee_size (v : PParamValue.t) :=
  match v with PParamValue.MinCommitteeSize x => Some x | _ => None end.
Definition min_committee_size := pgetter PParamKind.MinCommitteeSize as_min_committee_size.
Definition min_committee_size_or_default := pgetter_or_default PParamKind.MinCommitteeSize as_min_committee_size.

Definition as_committee_term_limit (v : PParamValue.t) :=
  match v with PParamValue.CommitteeTermLimit x => Some x | _ => None end.
Definition committee_term_limit := pgetter PParamKind.CommitteeTermLimit as_committee_term_limit.
Definition committee_term_limit_or_default := pgetter_or_default PParamKind.CommitteeTermLimit as_committee_term_limit.

Definition as_governance_action_validity_period (v : PParamValue.t) :=
  match v with PParamValue.GovernanceActionValidityPeriod x => Some x | _ => None end.
Definition governance_action_validity_period := pgetter PParamKind.GovernanceActionValidityPeriod as_governance_action_validity_period.
Definition governance_action_validity_period_or_default := pgetter_or_default PParamKind.GovernanceActionValidityPeriod as_governance_action_validity_period.

Definition as_governance_action_deposit (v : PParamValue.t) :=
  match v with PParamValue.GovernanceActionDeposit x => Some x | _ => None end.
Definition governance_action_deposit := pgetter PParamKind.GovernanceActionDeposit as_governance_action_deposit.
Definition governance_action_deposit_or_default := pgetter_or_default PParamKind.GovernanceActionDeposit as_governance_action_deposit.

Definition as_drep_deposit (v : PParamValue.t) :=
  match v with PParamValue.DrepDeposit x => Some x | _ => None end.
Definition drep_deposit := pgetter PParamKind.DrepDeposit as_drep_deposit.
Definition drep_deposit_or_default := pgetter_or_default PParamKind.DrepDeposit as_drep_deposit.

Definition as_drep_inactivity_period (v : PParamValue.t) :=
  match v with PParamValue.DrepInactivityPeriod x => Some x | _ => None end.
Definition drep_inactivity_period := pgetter PParamKind.DrepInactivityPeriod as_drep_inactivity_period.
Definition drep_inactivity_period_or_default := pgetter_or_default PParamKind.DrepInactivityPeriod as_drep_inactivity_period.

Definition as_min_fee_ref_script_cost_per_byte (v : PParamValue.t) :=
  match v with PParamValue.MinFeeRefScriptCostPerByte x => Some x | _ => None end.
Definition min_fee_ref_script_cost_per_byte := pgetter PParamKind.MinFeeRefScriptCostPerByte as_min_fee_ref_script_cost_per_byte.
Definition min_fee_ref_script_cost_per_byte_or_default := pgetter_or_default PParamKind.MinFeeRefScriptCostPerByte as_min_fee_ref_script_cost_per_byte.

(** [as u16]: the low 16 bits. *)
Definition protocol_major (p : t) : run (option Z) :=
  v ← protocol_version p;
  Ret (option_map (fun x => fst x mod 2 ^ 16) v).

Definition protocol_major_or_default (p : t) : run Z :=
  v ← protocol_major p;
  Ret (default 0 v).

Definition SHELLEY_PROTOCOL : Z := 2.

Definition is_byron (p : t) : run bool :=
  v ← protocol_major_or_default p;
  Ret (v <? SHELLEY_PROTOCOL).

Definition k := desired_number_of_stake_pools.
Definition a0 := pool_pledge_influence.
Definition tau := treasury_growth_rate.
Definition rho := expansion_rate.
Definition d := decentralization_constant.

Definition cost_models_for_script_languages (p : t) : run CostModels :=
  v1 ← cost_models_plutus_v1 p;
  v2 ← cost_models_plutus_v2 p;
  v3 ← cost_models_plutus_v3 p;
  u ← cost_models_unknown_or_default p;
  Ret {| plutus_v1 := v1; plutus_v2 := v2; plutus_v3 := v3; unknown := u |}.

(** The macro [ensure_pparam!]: [Err] carries the name of the parameter. *)
Definition ensure {A} (name : string) (getter : t -> run (option A)) (p : t) : run (A + string) :=
  v ← getter p;
  Ret (match v with Some x => inl x | None => inr name end).

Definition ensure_system_start := ensure "system_start" system_start.
Definition ensure_slot_length := ensure "slot_length" slot_length.
Definition ensure_d := ensure "d" d.
Definition ensure_rho := ensure "rho" rho.
Definition ensure_tau := ensure "tau" tau.
Definition ensure_k := ensure "k" k.
Definition ensure_a0 := ensure "a0" a0.
Definition ensure_epoch_length := ensure "epoch_length" epoch_length.
Definition ensure_drep_inactivity_period := ensure "drep_inactivity_period" drep_inactivity_period.
Definition ensure_key_deposit := ensure "key_deposit" key_deposit.
Definition ensure_pool_deposit := ensure "pool_deposit" pool_deposit.
Definition ensure_governance_action_validity_period := ensure "governance_action_validity_period" governance_action_validity_period.
Definition ensure_protocol_version := ensure "protocol_version" protocol_version.
Definition ensure_protocol_major := ensure "protocol_major" protocol_major.

(** At most one value of each kind. *)
Definition wf (p : t) : Prop := NoDup (map PParamValue.kind (values p)).

(** ** Lemmas *)

Lemma find_kind_kind l k v : find_kind l k = Some v -> PParamValue.kind v = k.
Proof. induction l as [|w l IH]; cbn; [done|]. case_decide; naive_solver. Qed.

Lemma find_kind_None l k : find_kind l k = None <-> k ∉ map PParamValue.kind l.
Proof.
  induction l as [|w l IH]; cbn; [split; [intros _ H; inversion H|done]|].
  rewrite not_elem_of_cons. case_decide; naive_solver.
Qed.

Lemma find_kind_app l l' k :
  find_kind (l ++ l') k = match find_kind l k with Some v => Some v | None => find_kind l' k end.
Proof. induction l as [|w l IH]; cbn; [done|]. by case_decide. Qed.

Lemma find_replace l v k :
  find_kind l (PParamValue.kind v) ≠ None ->
  find_kind (replace_kind l v) k =
    if decide (PParamValue.kind v = k) then Some v else find_kind l k.
Proof.
  induction l as [|w l IH]; cbn; [done|]. intros Hw. repeat case_decide; cbn;
    repeat case_decide; naive_solver congruence.
Qed.

Lemma map_replace l v :
  map PParamValue.kind (replace_kind l v) = map PParamValue.kind l.
Proof. induction l as [|w l IH]; cbn; [done|]. case_decide; cbn; congruence. Qed.

Lemma get_set p v k :
  get (set p v) k = if decide (PParamValue.kind v = k) then Some v else get p k.
Proof.
  unfold get, set. destruct (get p _) eqn:E; unfold get in E; cbn.
  - apply find_replace. by rewrite E.
  - rewrite find_kind_app. cbn. case_decide as Hk; [by rewrite <- Hk, E|].
    fold (get p k). by destruct (get p k).
Qed.

Lemma wf_set p v : wf p -> wf (set p v).
Proof.
  unfold wf, set. intros Hp. destruct (get p _) eqn:E; cbn; [by rewrite map_replace|].
  rewrite map_app. apply NoDup_app. split; [done|]. cbn. split; [|apply NoDup_singleton].
  apply find_kind_None in E. set_solver.
Qed.

Lemma wf_default : wf default_.
Proof. constructor. Qed.

Lemma wf_merge p q : wf p -> wf (merge p q).
Proof.
  unfold merge. generalize (values q) as l. intros l; revert p.
  induction l as [|v l IH]; intros p Hp; cbn; [done|]. by apply IH, wf_set.
Qed.

Lemma get_foldl_set l p k :
  NoDup (map PParamValue.kind l) ->
  get (foldl set p l) k = match find_kind l k with Some v => Some v | None => get p k end.
Proof.
  revert p; induction l as [|v l IH]; intros p Hl; cbn; [done|].
  apply NoDup_cons in Hl as [Hv Hl]. rewrite IH, get_set by done.
  case_decide as Hk; [|done]. subst k. apply find_kind_None in Hv. by rewrite Hv.
Qed.

Lemma get_merge p q k :
  wf q -> get (merge p q) k = match get q k with Some v => Some v | None => get p k end.
Proof. apply get_foldl_set. Qed.

Lemma get_clear p k k' :
  get (clear p k) k' = if decide (k = k') then None else get p k'.
Proof.
  unfold get, clear. cbn. induction (values p) as [|v l IH]; [by case_decide|].
  rewrite filter_cons. cbn. repeat case_decide; cbn; repeat case_decide; naive_solver congruence.
Qed.

Lemma wf_clear p k : wf p -> wf (clear p k).
Proof.
  unfold wf, clear. cbn [values]. induction (values p) as [|v l IH]; [done|].
  cbn [map]. intros [Hv Hl]%NoDup_cons. rewrite filter_cons. case_decide; cbn; [|auto].
  apply NoDup_cons; split; [|auto]. intros Hin. apply Hv.
  apply list_elem_of_In, in_map_iff in Hin as (w & Hw & Hin).
  rewrite <- Hw. apply list_elem_of_In, in_map.
  apply list_elem_of_In in Hin. apply list_elem_of_filter in Hin as [_ Hin].
  by apply list_elem_of_In.
Qed.

(** No getter panics: a value found under a kind has that kind's shape. *)
Lemma pgetter_total {A} k (proj : PParamValue.t -> option A) p :
  (forall v, PParamValue.kind v = k -> exists x, proj v = Some x) ->
  exists r, pgetter k proj p = Ret r.
Proof.
  intros Hp. unfold pgetter. destruct (get p k) as [v|] eqn:E; [|eauto].
  apply find_kind_kind in E. destruct (Hp v E) as [x ->]. eauto.
Qed.

Lemma pgetter_or_default_total {A} k (proj : PParamValue.t -> option A) p :
  (forall v, PParamValue.kind v = k -> exists x, proj v = Some x) ->
  exists r, pgetter_or_default k proj p = Ret r.
Proof.
  intros Hp. unfold pgetter_or_default, get_or_default.
  destruct (get p k) as [v|] eqn:E; cbn.
  - apply find_kind_kind in E. destruct (Hp v E) as [x ->]. by exists x.
  - destruct (Hp _ (PParamValue.kind_default k)) as [x ->]. by exists x.
Qed.

Lemma protocol_version_get p :
  protocol_version p = Ret (match get p PParamKind.ProtocolVersion with
                            | Some (PParamValue.ProtocolVersion x) => Some x
                            | _ => None
                            end).
Proof.
  unfold protocol_version, pgetter. destruct (get p _) as [v|] eqn:E; [|done].
  apply find_kind_kind in E. by destruct v.
Qed.

Lemma protocol_version_set p v :
  protocol_version (set p v) =
    match v with
    | PParamValue.ProtocolVersion x => Ret (Some x)
    | _ => protocol_version p
    end.
Proof. rewrite !protocol_version_get, get_set. by destruct v. Qed.

Lemma protocol_major_total p : exists r, protocol_major p = Ret r.
Proof. unfold protocol_major. rewrite protocol_version_get. cbn. eauto. Qed.

End PParamsSet.

#[export] Hint Resolve PParamsSet.wf_set PParamsSet.wf_merge PParamsSet.wf_default
  PParamsSet.wf_clear : dolos.

(** [impl EpochValue<PParamsSet>]. *)
Definition era_transition (v : EpochValue.t PParamsSet.t) : run (option EraTransition.t) :=
  live ← EpochValue.unwrap_live v;
  original ← PParamsSet.protocol_major_or_default live;
  update ← (match EpochValue.next v with
            | Some p => PParamsSet.protocol_major p
            | None => Ret None
            end);
  Ret (match update with
       | None => None
       | Some update =>
           if original =? update then None
           else Some {| EraTransition.prev_version := original;
                        EraTransition.new_version := update |}
       end).

(** ** Properties *)

(** C37: a parameter set is a finite map from parameter kinds to values.  No
    sequence of [set], [merge] and [clear] ever leaves two values of one kind, and reading a
    kind after each gives what the map operation of that name gives; [merge] gives precedence
    to the update. *)
Theorem pparams_refine_map p q v k :
  PParamsSet.wf p -> PParamsSet.wf q ->
  PParamsSet.wf (PParamsSet.set p v) /\ PParamsSet.wf (PParamsSet.merge p q) /\
  PParamsSet.wf (PParamsSet.clear p k) /\
  (forall k', PParamsSet.get (PParamsSet.set p v) k' =
     if decide (PParamValue.kind v = k') then Some v else PParamsSet.get p k') /\
  (forall k', PParamsSet.get (PParamsSet.merge p q) k' =
     match PParamsSet.get q k' with Some w => Some w | None => PParamsSet.get p k' end) /\
  (forall k', PParamsSet.get (PParamsSet.clear p k) k' =
     if decide (k = k') then None else PParamsSet.get p k').
Proof.
  intros Hp Hq. conj_split; auto with dolos.
  - intros k'. apply PParamsSet.get_set.
  - intros k'. by apply PParamsSet.get_merge.
  - intros k'. apply PParamsSet.get_clear.
Qed.

Lemma pparams_refine_map_witness :
  let p := PParamsSet.set PParamsSet.default_ (PParamValue.MinFeeA 44) in
  let q := PParamsSet.set PParamsSet.default_ (PParamValue.MinFeeA 45) in
  PParamsSet.wf p /\ PParamsSet.get (PParamsSet.merge p q) PParamKind.MinFeeA = Some (PParamValue.MinFeeA 45).
Proof.
  intros p q.
  assert (Hp : PParamsSet.wf p) by (by apply NoDup_singleton).
  assert (Hq : PParamsSet.wf q) by (by apply NoDup_singleton).
  destruct (pparams_refine_map p q (PParamValue.MinFeeA 44) PParamKind.MinFeeA Hp Hq)
    as (_ & _ & _ & _ & Hm & _).
  split; [exact Hp|]. rewrite Hm. reflexivity.
Defined.
