(* ===== verification/Forks.v ===== *)
(** * Protocol parameter migrations (cardano/src/forks.rs)

    The parameters of each era from the genesis files, the hard-fork
    migrations between protocol versions and the protocol constants. *)

From Stdlib Require Import SpecFloat.
From S2P Require Import Prelude Types EpochValue Eras PParams.

(** ** Genesis files

    The fields of the [pallas] genesis configurations that the code reads.  An
    [f32] is what [Ratio::<i64>::approximate_float] observes of it, and the
    active slot coefficient, which the code computes with, is its IEEE value. *)

Abbreviation F32 := (option (Z * Z)) (only parsing).

Record ByronGenesis := {
  start_time : Z;
  slot_duration : Z;
  fee_multiplier : Z;
  fee_summand : Z;
  max_block_size : Z;
  byron_max_tx_size : Z;
  max_header_size : Z;
  protocol_k : Z;
  avvm_distr : list (string * Z);
  non_avvm_balances : list (string * Z);
}.

Record ExtraEntropy := { ee_tag : NonceVariant; ee_hash : option string }.

Inductive ConfigCredential := ConfigKeyHash (x : string) | ConfigScriptHash (x : string).

Record ConfigRewardAccount := { ra_network : string; ra_credential : ConfigCredential }.

Record ConfigPool := {
  cfg_public_key : string;
  cfg_vrf : string;
  cfg_pledge : Z;
  cfg_cost : Z;
  cfg_margin : RationalNumber;
  cfg_reward_account : ConfigRewardAccount;
}.

Record Staking := {
  st_pools : option (list (string * ConfigPool));
  st_stake : option (list (string * string));
}.

Record ShelleyGenesis := {
  system_start : option string;
  g_epoch_length : option Z;
  g_slot_length : option Z;
  g_protocol_version : Z * Z;
  max_block_body_size : Z;
  max_tx_size : Z;
  max_block_header_size : Z;
  key_deposit : Z;
  min_utxo_value : Z;
  min_fee_a : Z;
  min_fee_b : Z;
  pool_deposit : Z;
  n_opt : Z;
  min_pool_cost : Z;
  g_rho : RationalNumber;
  g_tau : RationalNumber;
  e_max : Z;
  g_a0 : RationalNumber;
  decentralisation_param : RationalNumber;
  extra_entropy : ExtraEntropy;
  active_slots_coeff : option spec_float;
  max_lovelace_supply : option Z;
  initial_funds : option (list (string * Z));
  staking : option Staking;
  shelley_network_magic : option Z;
  shelley_network_id : option string;
}.

Inductive Language := LangPlutusV1 | LangPlutusV2.

#[export] Instance Language_eq_dec : EqDecision Language.
Proof. solve_decision. Defined.

Record AlonzoGenesis := {
  lovelace_per_utxo_word : Z;
  execution_prices : ExUnitPrices;
  max_tx_ex_units : ExUnits;
  max_block_ex_units : ExUnits;
  max_value_size : Z;
  collateral_percentage : Z;
  max_collateral_inputs : Z;
  cost_models : list (Language * list Z);
}.

Record ConwayPoolThresholds := {
  cp_motion_no_confidence : F32;
  cp_committee_normal : F32;
  cp_committee_no_confidence : F32;
  cp_hard_fork_initiation : F32;
  cp_pp_security_group : F32;
}.

Record ConwayDRepThresholds := {
  cd_motion_no_confidence : F32;
  cd_committee_normal : F32;
  cd_committee_no_confidence : F32;
  cd_update_to_constitution : F32;
  cd_hard_fork_initiation : F32;
  cd_pp_network_group : F32;
  cd_pp_economic_group : F32;
  cd_pp_technical_group : F32;
  cd_pp_gov_group : F32;
  cd_treasury_withdrawal : F32;
}.

Record ConwayConstitution := {
  cc_anchor_url : string;
  cc_anchor_data_hash : string;
  cc_script : option string;
}.

Record ConwayCommittee := {
  cc_members : list (string * Z);
  cc_threshold : RationalNumber;
}.

Record ConwayGenesis := {
  plutus_v3_cost_model : list Z;
  pool_voting_thresholds : ConwayPoolThresholds;
  d_rep_voting_thresholds : ConwayDRepThresholds;
  committee_min_size : Z;
  committee_max_term_length : Z;
  gov_action_lifetime : Z;
  gov_action_deposit : Z;
  d_rep_deposit : Z;
  d_rep_activity : Z;
  min_fee_ref_script_cost_per_byte : Z;
  constitution_file : ConwayConstitution;
  committee_file : ConwayCommittee;
}.

Record Genesis := {
  byron : ByronGenesis;
  shelley : ShelleyGenesis;
  alonzo : AlonzoGenesis;
  conway : ConwayGenesis;
  shelley_hash : Hash32;
  force_protocol : option Z;
}.

(** [utils::float_to_rational]. *)
Definition float_to_rational (x : F32) : run RationalNumber :=
  r ← expect x;
  Ret {| numerator := as_u 64 (fst r); denominator := as_u 64 (snd r) |}.

Definition from_config_nonce `{Pallas} (config : ExtraEntropy) : run Nonce :=
  hash ← (match ee_hash config with
          | Some x =>
              bytes ← expect (hex_decode x);
              h ← expect (hash32_from_slice bytes);
              Ret (Some h)
          | None => Ret None
          end);
  Ret {| variant := ee_tag config; nonce_hash := hash |}.

Definition from_config_exunits (config : ExUnits) : ExUnits :=
  {| mem := mem config; steps := steps config |}.

(** [filter(|(k, _)| k == language).map(..).next()]. *)
Fixpoint from_alonzo_cost_models_map (config : list (Language * list Z)) (language : Language) : option (list Z) :=
  match config with
  | [] => None
  | (k, v) :: rest =>
      if decide (k = language) then Some v else from_alonzo_cost_models_map rest language
  end.

Definition from_conway_pool_voting_thresholds (config : ConwayPoolThresholds) : run PoolVotingThresholds :=
  a ← float_to_rational (cp_motion_no_confidence config);
  b ← float_to_rational (cp_committee_normal config);
  c ← float_to_rational (cp_committee_no_confidence config);
  d ← float_to_rational (cp_hard_fork_initiation config);
  e ← float_to_rational (cp_pp_security_group config);
  Ret {|
    pv_motion_no_confidence := a;
    pv_committee_normal := b;
    pv_committee_no_confidence := c;
    pv_hard_fork_initiation := d;
    pv_security_voting_threshold := e;
  |}.

Definition from_conway_drep_voting_thresholds (config : ConwayDRepThresholds) : run DRepVotingThresholds :=
  a ← float_to_rational (cd_motion_no_confidence config);
  b ← float_to_rational (cd_committee_normal config);
  c ← float_to_rational (cd_committee_no_confidence config);
  d ← float_to_rational (cd_update_to_constitution config);
  e ← float_to_rational (cd_hard_fork_initiation config);
  f ← float_to_rational (cd_pp_network_group config);
  g ← float_to_rational (cd_pp_economic_group config);
  h ← float_to_rational (cd_pp_technical_group config);
  i ← float_to_rational (cd_pp_gov_group config);
  j ← float_to_rational (cd_treasury_withdrawal config);
  Ret {|
    dv_motion_no_confidence := a;
    dv_committee_normal := b;
    dv_committee_no_confidence := c;
    dv_update_constitution := d;
    dv_hard_fork_initiation := e;
    dv_pp_network_group := f;
    dv_pp_economic_group := g;
    dv_pp_technical_group := h;
    dv_pp_governance_group := i;
    dv_treasury_withdrawal := j;
  |}.

Definition FIVE_DAYS_IN_SECONDS : Z := 5 * 24 * 60 * 60.

(** A chain of [.with(..)]. *)
Definition with_all (p : PParamsSet.t) (l : list PParamValue.t) : PParamsSet.t :=
  foldl PParamsSet.with_ p l.

Section migrations.
Context `{Pallas}.

Definition from_byron_genesis (g : ByronGenesis) : run PParamsSet.t :=
  let slot_length_in_secs := slot_duration g / 1000 in
  epoch_length ← udiv FIVE_DAYS_IN_SECONDS slot_length_in_secs;
  Ret (with_all PParamsSet.default_ [
    PParamValue.ProtocolVersion (0, 0);
    PParamValue.SystemStart (start_time g);
    PParamValue.SlotLength slot_length_in_secs;
    PParamValue.EpochLength epoch_length;
    PParamValue.MinFeeA (fee_multiplier g);
    PParamValue.MinFeeB (fee_summand g);
    PParamValue.MaxBlockBodySize (max_block_size g);
    PParamValue.MaxTransactionSize (byron_max_tx_size g);
    PParamValue.MaxBlockHeaderSize (max_header_size g)]).

Definition from_shelley_genesis (g : ShelleyGenesis) : run PParamsSet.t :=
  start ← expect (system_start g);
  ts ← expect (rfc3339_timestamp start);
  let epoch_length := default 0 (g_epoch_length g) in
  let slot_length := default 0 (g_slot_length g) in
  nonce ← from_config_nonce (extra_entropy g);
  Ret (with_all PParamsSet.default_ [
    PParamValue.SystemStart (as_u 64 ts);
    PParamValue.ProtocolVersion (g_protocol_version g);
    PParamValue.EpochLength epoch_length;
    PParamValue.SlotLength slot_length;
    PParamValue.MaxBlockBodySize (max_block_body_size g);
    PParamValue.MaxTransactionSize (max_tx_size g);
    PParamValue.MaxBlockHeaderSize (max_block_header_size g);
    PParamValue.KeyDeposit (key_deposit g);
    PParamValue.MinUtxoValue (min_utxo_value g);
    PParamValue.MinFeeA (min_fee_a g);
    PParamValue.MinFeeB (min_fee_b g);
    PParamValue.PoolDeposit (pool_deposit g);
    PParamValue.DesiredNumberOfStakePools (n_opt g);
    PParamValue.MinPoolCost (min_pool_cost g);
    PParamValue.ExpansionRate (g_rho g);
    PParamValue.TreasuryGrowthRate (g_tau g);
    PParamValue.MaximumEpoch (e_max g);
    PParamValue.PoolPledgeInfluence (g_a0 g);
    PParamValue.DecentralizationConstant (decentralisation_param g);
    PParamValue.ExtraEntropy nonce]).

Definition into_alonzo (previous : PParamsSet.t) (g : AlonzoGenesis) : PParamsSet.t :=
  let set := with_all previous [
    PParamValue.ProtocolVersion (5, 0);
    PParamValue.AdaPerUtxoByte (lovelace_per_utxo_word g);
    PParamValue.ExecutionCosts (execution_prices g);
    PParamValue.MaxTxExUnits (from_config_exunits (max_tx_ex_units g));
    PParamValue.MaxBlockExUnits (from_config_exunits (max_block_ex_units g));
    PParamValue.MaxValueSize (max_value_size g);
    PParamValue.CollateralPercentage (collateral_percentage g);
    PParamValue.MaxCollateralInputs (max_collateral_inputs g)] in
  match from_alonzo_cost_models_map (cost_models g) LangPlutusV1 with
  | Some v1 => PParamsSet.with_ set (PParamValue.CostModelsPlutusV1 v1)
  | None => set
  end.

Definition into_babbage (previous : PParamsSet.t) (g : AlonzoGenesis) : run PParamsSet.t :=
  word ← PParamsSet.ada_per_utxo_byte previous;
  let ada_per_utxo_byte := default 0 word / 8 in
  let set := with_all previous [
    PParamValue.ProtocolVersion (7, 0);
    PParamValue.AdaPerUtxoByte ada_per_utxo_byte] in
  Ret (match from_alonzo_cost_models_map (cost_models g) LangPlutusV2 with
       | Some v2 => PParamsSet.with_ set (PParamValue.CostModelsPlutusV2 v2)
       | None => set
       end).

Definition into_conway (previous : PParamsSet.t) (g : ConwayGenesis) : run PParamsSet.t :=
  pool_thresholds ← from_conway_pool_voting_thresholds (pool_voting_thresholds g);
  drep_thresholds ← from_conway_drep_voting_thresholds (d_rep_voting_thresholds g);
  Ret (with_all previous [
    PParamValue.ProtocolVersion (9, 0);
    PParamValue.CostModelsPlutusV3 (plutus_v3_cost_model g);
    PParamValue.PoolVotingThresholds pool_thresholds;
    PParamValue.DrepVotingThresholds drep_thresholds;
    PParamValue.MinCommitteeSize (committee_min_size g);
    PParamValue.CommitteeTermLimit (committee_max_term_length g);
    PParamValue.GovernanceActionValidityPeriod (gov_action_lifetime g);
    PParamValue.GovernanceActionDeposit (gov_action_deposit g);
    PParamValue.DrepDeposit (d_rep_deposit g);
    PParamValue.DrepInactivityPeriod (d_rep_activity g);
    PParamValue.MinFeeRefScriptCostPerByte
      {| numerator := min_fee_ref_script_cost_per_byte g; denominator := 1 |}]).

Definition intra_era_hardfork (current : PParamsSet.t) (target : Z) : PParamsSet.t :=
  PParamsSet.with_ current (PParamValue.ProtocolVersion (target, 0)).

Definition migrate_pparams_version (from to : Z) (current : PParamsSet.t) (g : Genesis) : run PParamsSet.t :=
  match from, to with
  | 0, 1 => Ret (intra_era_hardfork current to)
  | 1, 2 => from_shelley_genesis (shelley g)
  | 2, 3 => Ret (intra_era_hardfork current to)
  | 3, 4 => Ret (intra_era_hardfork current to)
  | 4, 5 => Ret (into_alonzo current (alonzo g))
  | 5, 6 => Ret (intra_era_hardfork current to)
  | 6, 7 => into_babbage current (alonzo g)
  | 7, 8 => Ret (intra_era_hardfork current to)
  | 8, 9 => into_conway current (conway g)
  | 9, 10 => Ret (intra_era_hardfork current to)
  | 10, 11 => Ret (intra_era_hardfork current to)
  | _, _ => Panic
  end.

(** [for from in from..to]; the loop variable is below [to <= u16::MAX], so
    [from + 1] does not overflow. *)
Definition force_pparams_version (initial : PParamsSet.t) (g : Genesis) (from to : Z) : run PParamsSet.t :=
  run_foldl (fun pparams from => migrate_pparams_version from (from + 1) pparams g)
    initial (seqZ from (to - from)).

Record ProtocolConstants := { pc_epoch_length : Z; pc_slot_length : Z }.

Definition protocol_constants (version : Z) (g : Genesis) : run ProtocolConstants :=
  if version <? 2 then
    let slot_length_in_secs := slot_duration (byron g) / 1000 in
    epoch_length ← udiv FIVE_DAYS_IN_SECONDS slot_length_in_secs;
    Ret {| pc_epoch_length := epoch_length; pc_slot_length := slot_length_in_secs |}
  else
    Ret {| pc_epoch_length := default 0 (g_epoch_length (shelley g));
           pc_slot_length := default 0 (g_slot_length (shelley g)) |}.

End migrations.

(** ** Lemmas *)

Lemma wf_with_all l p : PParamsSet.wf p -> PParamsSet.wf (with_all p l).
Proof.
  revert p; induction l as [|v l IH]; intros p Hp; cbn; [done|]. by apply IH, PParamsSet.wf_set.
Qed.

(** The version of a chain of [.with(..)] is that of its last version value. *)
Lemma version_with_all l p :
  PParamsSet.protocol_version (with_all p l) =
    match find (fun v => match v with PParamValue.ProtocolVersion _ => true | _ => false end) (rev l) with
    | Some (PParamValue.ProtocolVersion x) => Ret (Some x)
    | _ => PParamsSet.protocol_version p
    end.
Proof.
  induction l as [|v l IH] using rev_ind; [done|]. unfold with_all. rewrite foldl_app, rev_app_distr.
  cbn. unfold PParamsSet.with_ at 1. rewrite PParamsSet.protocol_version_set.
  destruct v; cbn; try apply IH; done.
Qed.

Section migration_lemmas.
Context `{Pallas}.

Lemma version_with_one p v :
  PParamsSet.protocol_version (PParamsSet.with_ p v) =
    match v with
    | PParamValue.ProtocolVersion x => Ret (Some x)
    | _ => PParamsSet.protocol_version p
    end.
Proof. apply PParamsSet.protocol_version_set. Qed.

Lemma wf_into_alonzo p g : PParamsSet.wf p -> PParamsSet.wf (into_alonzo p g).
Proof.
  intros Hp. unfold into_alonzo. case_match; [apply PParamsSet.wf_set|]; by apply wf_with_all.
Qed.

Lemma wf_into_babbage p g p' : PParamsSet.wf p -> into_babbage p g = Ret p' -> PParamsSet.wf p'.
Proof.
  intros Hp E. unfold into_babbage in E. apply bind_Ret in E as (w & _ & E). apply Ret_inj in E as <-.
  case_match; [apply PParamsSet.wf_set|]; by apply (wf_with_all [_; _]).
Qed.

Lemma wf_into_conway p g p' : PParamsSet.wf p -> into_conway p g = Ret p' -> PParamsSet.wf p'.
Proof.
  intros Hp E. unfold into_conway in E. apply bind_Ret in E as (a & _ & E).
  apply bind_Ret in E as (b & _ & E). apply Ret_inj in E as <-. by apply wf_with_all.
Qed.

Lemma wf_from_shelley g p' : from_shelley_genesis g = Ret p' -> PParamsSet.wf p'.
Proof.
  intros E. unfold from_shelley_genesis in E. cbv zeta in E. apply bind_Ret in E as (a & _ & E).
  apply bind_Ret in E as (b & _ & E). apply bind_Ret in E as (c & _ & E). apply Ret_inj in E as <-.
  apply wf_with_all, PParamsSet.wf_default.
Qed.

(** The eleven migrations there are. *)
Lemma migrate_cases from to p g p' :
  migrate_pparams_version from to p g = Ret p' ->
  to = from + 1 /\ 0 ≤ from ≤ 10 /\
  (from = 1 /\ from_shelley_genesis (shelley g) = Ret p' \/
   from = 4 /\ p' = into_alonzo p (alonzo g) \/
   from = 6 /\ into_babbage p (alonzo g) = Ret p' \/
   from = 8 /\ into_conway p (conway g) = Ret p' \/
   from ∈ [0; 2; 3; 5; 7; 9; 10] /\ p' = intra_era_hardfork p to).
Proof.
  intros E. unfold migrate_pparams_version in E.
  repeat (case_match; try done); subst; (split; [done|split; [lia|]]);
    try apply Ret_inj in E as <-; try tauto; do 4 right; (split; [set_solver|done]).
Qed.

Lemma wf_migrate from to p g p' :
  PParamsSet.wf p -> migrate_pparams_version from to p g = Ret p' -> PParamsSet.wf p'.
Proof.
  intros Hp (_ & _ & [[_ E]|[[_ ->]|[[_ E]|[[_ E]|[_ ->]]]]])%migrate_cases.
  - by eapply wf_from_shelley.
  - by apply wf_into_alonzo.
  - by eapply wf_into_babbage.
  - by eapply wf_into_conway.
  - by apply PParamsSet.wf_set.
Qed.

(** A migration lands on its target version (out of Byron, on the version of
    the Shelley genesis). *)
Lemma migrate_version from to p g p' :
  fst (g_protocol_version (shelley g)) = 2 ->
  migrate_pparams_version from to p g = Ret p' ->
  PParamsSet.protocol_major p' = Ret (Some to).
Proof.
  intros Hg (-> & Hr & Hc)%migrate_cases. unfold PParamsSet.protocol_major.
  destruct Hc as [[-> E]|[[-> ->]|[[-> E]|[[-> E]|[_ ->]]]]].
  - unfold from_shelley_genesis in E. cbv zeta in E. apply bind_Ret in E as (a & _ & E).
    apply bind_Ret in E as (b & _ & E). apply bind_Ret in E as (c & _ & E). apply Ret_inj in E as <-.
    rewrite version_with_all. cbn. by rewrite Hg.
  - unfold into_alonzo. case_match; rewrite ?version_with_one, version_with_all; done.
  - unfold into_babbage in E. apply bind_Ret in E as (w & _ & E). apply Ret_inj in E as <-.
    case_match; rewrite ?version_with_one, version_with_all; done.
  - unfold into_conway in E. apply bind_Ret in E as (a & _ & E).
    apply bind_Ret in E as (b & _ & E). apply Ret_inj in E as <-. by rewrite version_with_all.
  - unfold intra_era_hardfork. rewrite version_with_one. cbn.
    rewrite Z.mod_small by lia. done.
Qed.

End migration_lemmas.

(** ** Properties *)

(** The genesis files a migration can be computed from: the Shelley start
    parses, its entropy decodes, the Conway thresholds have rational
    approximations, and the Shelley genesis is for version 2. *)
Definition genesis_ok `{Pallas} (g : Genesis) : Prop :=
  (exists s ts, system_start (shelley g) = Some s /\ rfc3339_timestamp s = Some ts) /\
  (match ee_hash (extra_entropy (shelley g)) with
   | None => True
   | Some x => exists b h, hex_decode x = Some b /\ hash32_from_slice b = Some h
   end) /\
  fst (g_protocol_version (shelley g)) = 2 /\
  (let c := pool_voting_thresholds (conway g) in
   Forall is_Some [cp_motion_no_confidence c; cp_committee_normal c; cp_committee_no_confidence c;
                   cp_hard_fork_initiation c; cp_pp_security_group c]) /\
  (let c := d_rep_voting_thresholds (conway g) in
   Forall is_Some [cd_motion_no_confidence c; cd_committee_normal c; cd_committee_no_confidence c;
                   cd_update_to_constitution c; cd_hard_fork_initiation c; cd_pp_network_group c;
                   cd_pp_economic_group c; cd_pp_technical_group c; cd_pp_gov_group c;
                   cd_treasury_withdrawal c]).

Section migration_total.
Context `{Pallas}.

Lemma from_shelley_returns g : genesis_ok g -> exists p, from_shelley_genesis (shelley g) = Ret p.
Proof.
  intros ((s & ts & Hs & Ht) & He & _). unfold from_shelley_genesis. rewrite Hs. cbn. rewrite Ht. cbn.
  unfold from_config_nonce. destruct (ee_hash _) as [x|]; [|by eexists].
  destruct He as (b & h & Hb & Hh). rewrite Hb. cbn. rewrite Hh. by eexists.
Qed.

Lemma into_babbage_returns p g : exists p', into_babbage p g = Ret p'.
Proof.
  unfold into_babbage, PParamsSet.ada_per_utxo_byte.
  destruct (PParamsSet.pgetter_total PParamKind.AdaPerUtxoByte PParamsSet.as_ada_per_utxo_byte p)
    as [r Hr].
  - intros v Hv. destruct v; try discriminate. by eexists.
  - rewrite Hr. by eexists.
Qed.

Lemma into_conway_returns p g : genesis_ok g -> exists p', into_conway p (conway g) = Ret p'.
Proof.
  intros (_ & _ & _ & Hp & Hd). cbv zeta in Hp, Hd. rewrite !Forall_cons in Hp. rewrite !Forall_cons in Hd.
  repeat match goal with H : _ /\ _ |- _ => destruct H end.
  unfold into_conway, from_conway_pool_voting_thresholds, from_conway_drep_voting_thresholds,
    float_to_rational.
  repeat match goal with Hs : is_Some ?o |- context [expect ?o] => destruct Hs as [? ->]; cbn end.
  by eexists.
Qed.

Lemma migrate_returns from p g :
  genesis_ok g -> 0 ≤ from ≤ 10 -> exists p', migrate_pparams_version from (from + 1) p g = Ret p'.
Proof.
  intros Hg Hf.
  assert (Hc : from ∈ [0; 1; 2; 3; 4; 5; 6; 7; 8; 9; 10]).
  { rewrite !elem_of_cons. lia. }
  rewrite !elem_of_cons, elem_of_nil in Hc. destruct_or! Hc; subst;
    cbn -[from_shelley_genesis into_babbage into_conway into_alonzo]; try (by eexists);
    try done.
  - by apply from_shelley_returns.
  - apply into_babbage_returns.
  - by apply into_conway_returns.
Qed.

Lemma force_steps (k : nat) : forall from p g,
  genesis_ok g -> PParamsSet.wf p -> PParamsSet.protocol_major p = Ret (Some from) ->
  0 ≤ from -> from + Z.of_nat k ≤ 11 ->
  exists p', force_pparams_version p g from (from + Z.of_nat k) = Ret p' /\ PParamsSet.wf p' /\
    PParamsSet.protocol_major p' = Ret (Some (from + Z.of_nat k)).
Proof.
  unfold force_pparams_version.
  induction k as [|k IH]; intros from p g Hg Hw Hv H0 Hk.
  - rewrite Z.add_0_r, Z.sub_diag. by exists p.
  - replace (from + Z.of_nat (S k) - from) with (Z.succ (Z.of_nat k)) by lia.
    rewrite seqZ_cons by lia. cbn [run_foldl].
    destruct (migrate_returns from p g Hg ltac:(lia)) as [p1 E1]. rewrite E1. cbn [mbind run_bind].
    destruct (IH (from + 1) p1 g Hg) as (p' & E' & Hw' & Hv');
      [by eapply wf_migrate|eapply migrate_version; [apply Hg|done]|lia|lia|].
    replace (from + 1 + Z.of_nat k - (from + 1)) with (Z.pred (Z.succ (Z.of_nat k))) in E' by lia.
    replace (from + Z.of_nat (S k)) with (from + 1 + Z.of_nat k) by lia.
    exists p'. by rewrite <- Z.add_1_r.
Qed.

(** Forcing a protocol version walks the hard forks one by one and lands
    on the requested version.  From any version the code knows to any later one up to 11 the
    migration returns a well-formed parameter set whose major version is the target. *)
Theorem force_reaches_version p g from to :
  genesis_ok g -> PParamsSet.wf p -> PParamsSet.protocol_major p = Ret (Some from) ->
  0 ≤ from ≤ to -> to ≤ 11 ->
  exists p', force_pparams_version p g from to = Ret p' /\ PParamsSet.wf p' /\
    PParamsSet.protocol_major p' = Ret (Some to).
Proof.
  intros Hg Hw Hv Hf Ht. replace to with (from + Z.of_nat (Z.to_nat (to - from))) by lia.
  apply force_steps; [done..|lia|lia].
Qed.

End migration_total.

(** A small genesis to evaluate the migrations on. *)
Definition demo_genesis : Genesis :=
  let z := Build_RationalNumber 0 1 in
  let u := Build_ExUnits 0 0 in
  let h : F32 := Some (1, 2) in
  {| byron := Build_ByronGenesis 1506203091 20000 43 155381 2000000 4096 2000000 2160 [] [];
     shelley := {|
       system_start := Some "2017-09-23T21:44:51Z"; g_epoch_length := Some 432000;
       g_slot_length := Some 1; g_protocol_version := (2, 0); max_block_body_size := 65536;
       max_tx_size := 16384; max_block_header_size := 1100; key_deposit := 2000000;
       min_utxo_value := 1000000; min_fee_a := 44; min_fee_b := 155381; pool_deposit := 500000000;
       n_opt := 150; min_pool_cost := 340000000; g_rho := z; g_tau := z; e_max := 18; g_a0 := z;
       decentralisation_param := z;
       extra_entropy := {| ee_tag := NeutralNonce; ee_hash := None |};
       active_slots_coeff := Some (S754_finite false 13421773 (-28));
       max_lovelace_supply := Some 45000000000000000; initial_funds := None; staking := None;
       shelley_network_magic := Some 764824073; shelley_network_id := Some "Mainnet" |};
     alonzo := {|
       lovelace_per_utxo_word := 34482; execution_prices := Build_ExUnitPrices z z;
       max_tx_ex_units := u; max_block_ex_units := u; max_value_size := 5000;
       collateral_percentage := 150; max_collateral_inputs := 3; cost_models := [] |};
     conway := {|
       plutus_v3_cost_model := []; committee_min_size := 7; committee_max_term_length := 146;
       pool_voting_thresholds := Build_ConwayPoolThresholds h h h h h;
       d_rep_voting_thresholds := Build_ConwayDRepThresholds h h h h h h h h h h;
       gov_action_lifetime := 6; gov_action_deposit := 100000000000; d_rep_deposit := 500000000;
       d_rep_activity := 20; min_fee_ref_script_cost_per_byte := 15;
       constitution_file := {| cc_anchor_url := "ipfs://constitution"; cc_script := None;
         cc_anchor_data_hash := "0000000000000000000000000000000000000000000000000000000000000000" |};
       committee_file := {| cc_members := []; cc_threshold := Build_RationalNumber 2 3 |} |};
     shelley_hash := replicate 32 5;
     force_protocol := None |}.

Lemma force_reaches_version_witness :
  let p := PParamsSet.set PParamsSet.default_ (PParamValue.ProtocolVersion (0, 0)) in
  exists p', @force_pparams_version demo_pallas p demo_genesis 0 10 = Ret p' /\ PParamsSet.wf p' /\
    PParamsSet.protocol_major p' = Ret (Some 10).
Proof.
  intros p. apply (@force_reaches_version demo_pallas p demo_genesis 0 10).
  - unfold genesis_ok. cbn. conj_split; [by eexists _, _|done|done| |];
      repeat (constructor; [by eexists|]); constructor.
  - by apply NoDup_singleton.
  - reflexivity.
  - lia.
  - lia.
Defined.
