(* ===== verification/Ratio.v ===== *)
(** * Exact rationals (the macros of cardano/src/math_macros.rs)

    [BigRational] is an exact rational that is always in normal form; the code
    only adds, multiplies, divides, compares and floors them, and each of these
    respects equality of rationals, so a ratio is a [Q]. *)

From S2P Require Import Prelude.
From Stdlib Require Export QArith Qround Qminmax.
From Stdlib Require Import Lqa.
Open Scope Z_scope.

Abbreviation Ratio := Q (only parsing).

(** [ratio!(n, d)]: [BigRational::new] panics on a zero denominator. *)
Definition ratio (n d : Z) : run Ratio :=
  match d with
  | Z0 => Panic
  | Zpos p => Ret (n # p)
  | Zneg p => Ret (- n # p)
  end.

(** [ratio!(x)]. *)
Definition ratio_int (x : Z) : Ratio := x # 1.

(** [a / b] panics when [b] is zero. *)
Definition rdiv (a b : Ratio) : run Ratio :=
  if Qeq_bool b 0 then Panic else Ret (a / b)%Q.

(** [floor_int!(x, u64)]: the floor must fit the type. *)
Definition floor_int (w : Z) (x : Ratio) : run Z :=
  if decide (is_u w (Qfloor x)) then Ret (Qfloor x) else Panic.

(** [std::cmp::min]. *)
Definition rmin (a b : Ratio) : Ratio := if Qle_bool a b then a else b.

(** [a < b] and [a >= b] on ratios. *)
Definition rltb (a b : Ratio) : bool := negb (Qle_bool b a).

#[global] Arguments ratio : simpl never.
#[global] Arguments rdiv : simpl never.
#[global] Arguments floor_int : simpl never.
#[global] Arguments Qfloor : simpl never.

(** ** Lemmas *)

Lemma ratio_pos n d q : 0 < d -> ratio n d = Ret q -> (q == inject_Z n / inject_Z d)%Q.
Proof.
  intros Hd. unfold ratio. destruct d; try lia. intros [= <-]. by rewrite Qmake_Qdiv.
Qed.

Lemma ratio_ret n d : 0 < d -> exists q, ratio n d = Ret q.
Proof. intros. unfold ratio. destruct d; try lia; eauto. Qed.

Lemma ratio_pos_or n d q : 0 ≤ d -> ratio n d = Ret q -> 0 < d.
Proof. intros Hd. unfold ratio. destruct d; try lia; done. Qed.

Lemma rdiv_Ret a b q : rdiv a b = Ret q -> q = (a / b)%Q /\ ~ (b == 0)%Q.
Proof.
  unfold rdiv. destruct (Qeq_bool b 0) eqn:E; [done|]. intros [= <-].
  split; [done|]. intros Hb. apply Qeq_bool_iff in Hb. congruence.
Qed.

Lemma rdiv_ret a b : ~ (b == 0)%Q -> rdiv a b = Ret (a / b)%Q.
Proof.
  intros Hb. unfold rdiv. destruct (Qeq_bool b 0) eqn:E; [|done].
  apply Qeq_bool_iff in E. done.
Qed.

Lemma floor_int_Ret w x n : floor_int w x = Ret n -> n = Qfloor x /\ is_u w n.
Proof. unfold floor_int. case_decide; [|done]. by intros [= <-]. Qed.

Lemma floor_int_ret w x : (0 <= x)%Q -> (x < inject_Z (2 ^ w))%Q -> floor_int w x = Ret (Qfloor x).
Proof.
  intros H0 H1. unfold floor_int. rewrite decide_True; [done|]. unfold is_u. split.
  - change 0 with (Qfloor 0). by apply Qfloor_resp_le.
  - rewrite Zlt_Qlt. eapply Qle_lt_trans; [apply Qfloor_le|done].
Qed.

Lemma floor_int_in w x : is_u w (Qfloor x) -> floor_int w x = Ret (Qfloor x).
Proof. intros. unfold floor_int. by rewrite decide_True. Qed.

Lemma floor_int_le w x n : floor_int w x = Ret n -> (inject_Z n <= x)%Q.
Proof. intros [-> _]%floor_int_Ret. apply Qfloor_le. Qed.

Lemma rmin_le_l a b : (rmin a b <= a)%Q.
Proof.
  unfold rmin. destruct (Qle_bool a b) eqn:E; [apply Qle_refl|].
  destruct (Qlt_le_dec b a); [by apply Qlt_le_weak|]. apply Qle_bool_iff in q. congruence.
Qed.

Lemma rmin_le_r a b : (rmin a b <= b)%Q.
Proof. unfold rmin. destruct (Qle_bool a b) eqn:E; [by apply Qle_bool_iff|apply Qle_refl]. Qed.

Lemma rmin_glb c a b : (c <= a)%Q -> (c <= b)%Q -> (c <= rmin a b)%Q.
Proof. unfold rmin. by destruct (Qle_bool a b). Qed.

Lemma rltb_true a b : rltb a b = true <-> (a < b)%Q.
Proof.
  unfold rltb. rewrite negb_true_iff. split.
  - intros E. apply Qnot_le_lt. intros H. apply Qle_bool_iff in H. congruence.
  - intros H. destruct (Qle_bool b a) eqn:E; [|done]. apply Qle_bool_iff in E.
    exfalso. by apply (Qlt_not_le a b).
Qed.

(** The floor of a ratio between 0 and an integer. *)
Lemma Qfloor_between x n : (0 <= x)%Q -> (x <= ratio_int n)%Q -> 0 ≤ Qfloor x ≤ n.
Proof.
  intros H0 Hn. split; [apply (Qfloor_resp_le 0 x H0)|].
  rewrite <- (Qfloor_Z n). by apply Qfloor_resp_le.
Qed.

Lemma ratio_int_nonneg n : 0 ≤ n -> (0 <= ratio_int n)%Q.
Proof. intros Hn. rewrite (Zle_Qle 0) in Hn. exact Hn. Qed.

(** A non-negative quotient times a non-negative bound. *)
Lemma Qmult_unit_le u x : (0 <= x)%Q -> (u <= 1)%Q -> (u * x <= x)%Q.
Proof. intros. nra. Qed.
