(* ===== verification/Pots.v ===== *)
(** * The ADA pots (cardano/src/pots.rs)

    The pots of the ledger, the incentives of an epoch and the boundary
    arithmetic that moves ADA between the pots. *)

From S2P Require Import Prelude Types Ratio.
From Stdlib Require Import Lqa.
Open Scope Z_scope.

Module Pots.

Record t := mk {
  reserves : Z;
  treasury : Z;
  utxos : Z;
  rewards : Z;
  fees : Z;
  pool_count : Z;
  account_count : Z;
  deposit_per_pool : Z;
  deposit_per_account : Z;
  nominal_deposits : Z;
  drep_deposits : Z;
  proposal_deposits : Z;
}.

#[global] Instance eta_t : Eta t := fun r =>
  mk (reserves r) (treasury r) (utxos r) (rewards r) (fees r) (pool_count r) (account_count r)
     (deposit_per_pool r) (deposit_per_account r) (nominal_deposits r) (drep_deposits r)
     (proposal_deposits r).

Definition default_ : t := mk 0 0 0 0 0 0 0 0 0 0 0 0.

Section ops.
Context `{BuildCfg}.

Definition stake_deposits (p : t) : run Lovelace :=
  pool_deposits ← umul 64 (deposit_per_pool p) (pool_count p);
  account_deposits ← umul 64 (deposit_per_account p) (account_count p);
  uadd 64 pool_deposits account_deposits.

Definition obligations (p : t) : run Lovelace :=
  stake ← stake_deposits p;
  x ← uadd 64 (nominal_deposits p) stake;
  x ← uadd 64 x (drep_deposits p);
  uadd 64 x (proposal_deposits p).

Definition max_supply (p : t) : run Lovelace :=
  x ← uadd 64 (reserves p) (treasury p);
  x ← uadd 64 x (utxos p);
  x ← uadd 64 x (rewards p);
  x ← uadd 64 x (fees p);
  o ← obligations p;
  uadd 64 x o.

Definition circulating (p : t) : run Lovelace :=
  x ← max_supply p; usub 64 x (reserves p).

Definition is_consistent (p : t) (expected_max_supply : Lovelace) : run bool :=
  x ← max_supply p; Ret (x =? expected_max_supply).

End ops.

(** The amount of ADA the pots account for, as a mathematical integer. *)
Definition supply (p : t) : Z :=
  reserves p + treasury p + utxos p + rewards p + fees p +
  (nominal_deposits p + (deposit_per_pool p * pool_count p +
     deposit_per_account p * account_count p) + drep_deposits p + proposal_deposits p).

Definition wf (p : t) : Prop :=
  is_u64 (reserves p) /\
  is_u64 (treasury p) /\
  is_u64 (utxos p) /\
  is_u64 (rewards p) /\
  is_u64 (fees p) /\
  is_u64 (pool_count p) /\
  is_u64 (account_count p) /\
  is_u64 (deposit_per_pool p) /\
  is_u64 (deposit_per_account p) /\
  is_u64 (nominal_deposits p) /\
  is_u64 (drep_deposits p) /\
  is_u64 (proposal_deposits p).

End Pots.

Module EpochIncentives.

Record t := mk {
  total : Z;
  treasury_tax : Z;
  available_rewards : Z;
  used_fees : Z;
}.

#[global] Instance eta_t : Eta t := fun r =>
  mk (total r) (treasury_tax r) (available_rewards r) (used_fees r).

Definition default_ : t := mk 0 0 0 0.

Definition wf (i : t) : Prop :=
  is_u64 (total i) /\ is_u64 (treasury_tax i) /\
  is_u64 (available_rewards i) /\ is_u64 (used_fees i).

End EpochIncentives.

Module PotDelta.

Record t := mk {
  produced_utxos : Z;
  consumed_utxos : Z;
  gathered_fees : Z;
  new_accounts : Z;
  removed_accounts : Z;
  pool_deposit_count : Z;
  pool_refund_count : Z;
  pool_invalid_refund_count : Z;
  withdrawals : Z;
  effective_rewards : Z;
  unspendable_to_treasury : Z;
  unspendable_to_reserves : Z;
  drep_deposits : Z;
  proposal_deposits : Z;
  drep_refunds : Z;
  proposal_refunds : Z;
  treasury_donations : Z;
  proposal_invalid_refunds : Z;
  deposit_per_account : option Z;
  deposit_per_pool : option Z;
  protocol_version : Z;
  reserve_mirs : Z;
  mark_protocol_version : Z;
  avvm_reclamation : Z;
  treasury_mirs : Z;
  treasury_withdrawals : Z;
}.

#[global] Instance eta_t : Eta t := fun r =>
  mk (produced_utxos r) (consumed_utxos r) (gathered_fees r) (new_accounts r) (removed_accounts
     r) (pool_deposit_count r) (pool_refund_count r) (pool_invalid_refund_count r) (withdrawals
     r) (effective_rewards r) (unspendable_to_treasury r) (unspendable_to_reserves r)
     (drep_deposits r) (proposal_deposits r) (drep_refunds r) (proposal_refunds r)
     (treasury_donations r) (proposal_invalid_refunds r) (deposit_per_account r)
     (deposit_per_pool r) (protocol_version r) (reserve_mirs r) (mark_protocol_version r)
     (avvm_reclamation r) (treasury_mirs r) (treasury_withdrawals r).

Definition neutral (protocol_version mark_protocol_version : Z) : t := {|
  protocol_version := protocol_version;
  mark_protocol_version := mark_protocol_version;
  produced_utxos := 0;
  consumed_utxos := 0;
  gathered_fees := 0;
  new_accounts := 0;
  removed_accounts := 0;
  pool_deposit_count := 0;
  pool_refund_count := 0;
  pool_invalid_refund_count := 0;
  withdrawals := 0;
  effective_rewards := 0;
  unspendable_to_treasury := 0;
  unspendable_to_reserves := 0;
  drep_deposits := 0;
  proposal_deposits := 0;
  drep_refunds := 0;
  proposal_refunds := 0;
  treasury_donations := 0;
  proposal_invalid_refunds := 0;
  deposit_per_account := None;
  deposit_per_pool := None;
  reserve_mirs := 0;
  avvm_reclamation := 0;
  treasury_mirs := 0;
  treasury_withdrawals := 0;
|}.

Section ops.
Context `{BuildCfg}.

Definition consumed_incentives (d : t) : run Lovelace :=
  uadd 64 (effective_rewards d) (unspendable_to_treasury d).

Definition incentives_back_to_treasury (d : t) : Lovelace := unspendable_to_treasury d.

Definition total_unspendable (d : t) : run Lovelace :=
  uadd 64 (unspendable_to_treasury d) (unspendable_to_reserves d).

End ops.

(** The ranges of the integers of the delta. *)
Definition wf (d : t) : Prop :=
  is_u64 (produced_utxos d) /\
  is_u64 (consumed_utxos d) /\
  is_u64 (gathered_fees d) /\
  is_u64 (new_accounts d) /\
  is_u64 (removed_accounts d) /\
  is_u64 (pool_deposit_count d) /\
  is_u64 (pool_refund_count d) /\
  is_u64 (pool_invalid_refund_count d) /\
  is_u64 (withdrawals d) /\
  is_u64 (effective_rewards d) /\
  is_u64 (unspendable_to_treasury d) /\
  is_u64 (unspendable_to_reserves d) /\
  is_u64 (drep_deposits d) /\
  is_u64 (proposal_deposits d) /\
  is_u64 (drep_refunds d) /\
  is_u64 (proposal_refunds d) /\
  is_u64 (treasury_donations d) /\
  is_u64 (proposal_invalid_refunds d) /\
  is_u64 (reserve_mirs d) /\
  is_u64 (avvm_reclamation d) /\
  is_u64 (treasury_mirs d) /\
  is_u64 (treasury_withdrawals d) /\
  match deposit_per_account d with Some x => is_u64 x | None => True end /\
  match deposit_per_pool d with Some x => is_u64 x | None => True end.

End PotDelta.

Section formulas.
Context `{BuildCfg}.

(** [f] is the active slot coefficient, an [f32]; what the code observes of it
    is [Rational64::approximate_float(f)], [None] when it has no
    approximation. *)
Definition calculate_eta (minted_blocks : Z) (d : Ratio) (f : option (Z * Z)) (epoch_length : Z) : run Ratio :=
  let one := ratio_int 1 in
  d_threshold ← ratio 8 10;
  if Qle_bool d_threshold d then Ret one
  else
    f ← expect f;
    f ← ratio (fst f) (snd f);
    let epoch_length := ratio_int epoch_length in
    let expected_blocks := (f * epoch_length)%Q in
    let expected_non_obft_blocks := (expected_blocks * (one - d))%Q in
    let minted_blocks := ratio_int minted_blocks in
    eta ← rdiv minted_blocks expected_non_obft_blocks;
    Ret (rmin one eta).

Definition epoch_incentives (reserves fee_ss : Z) (rho tau eta : Ratio) : run EpochIncentives.t :=
  let reserves := ratio_int reserves in
  let incentives_q := (eta * rho * reserves)%Q in
  delta_r1 ← floor_int 64 incentives_q;
  reward_pot ← uadd 64 fee_ss delta_r1;
  treasury_tax ← floor_int 64 (tau * ratio_int reward_pot)%Q;
  available_rewards ← usub 64 reward_pot treasury_tax;
  Ret {|
    EpochIncentives.total := delta_r1;
    EpochIncentives.treasury_tax := treasury_tax;
    EpochIncentives.available_rewards := available_rewards;
    EpochIncentives.used_fees := fee_ss;
  |}.

(** The neutral values of the concepts that do not apply to Byron. *)
Definition byron_neutral (pots : Pots.t) : Pots.t :=
  let pots := pots <| Pots.deposit_per_pool := 0 |> in
  let pots := pots <| Pots.deposit_per_account := 0 |> in
  let pots := pots <| Pots.treasury := 0 |> in
  let pots := pots <| Pots.fees := 0 |> in
  let pots := pots <| Pots.rewards := 0 |> in
  let pots := pots <| Pots.pool_count := 0 |> in
  let pots := pots <| Pots.account_count := 0 |> in
  let pots := pots <| Pots.drep_deposits := 0 |> in
  let pots := pots <| Pots.proposal_deposits := 0 |> in
  pots.

Definition apply_byron_delta (pots : Pots.t) (_ : EpochIncentives.t) (delta : PotDelta.t) : run Pots.t :=
  let pots := byron_neutral pots in
  pots ← upd_m Pots.utxos (fun x => add_ 64 x (PotDelta.produced_utxos delta)) pots;
  pots ← upd_m Pots.utxos (fun x => sub_ 64 x (PotDelta.consumed_utxos delta)) pots;
  pots ← upd_m Pots.reserves (fun x => sub_ 64 x (PotDelta.produced_utxos delta)) pots;
  pots ← upd_m Pots.reserves (fun x => add_ 64 x (PotDelta.consumed_utxos delta)) pots;
  Ret pots.

(** The deposit parameters in force after the boundary. *)
Definition update_params (pots : Pots.t) (delta : PotDelta.t) : Pots.t :=
  let pots := match PotDelta.deposit_per_pool delta with
              | Some new => pots <| Pots.deposit_per_pool := new |> | None => pots end in
  match PotDelta.deposit_per_account delta with
  | Some new => pots <| Pots.deposit_per_account := new |> | None => pots end.

Definition apply_shelley_delta (pots : Pots.t) (incentives : EpochIncentives.t) (delta : PotDelta.t) : run Pots.t :=
  used_rewards ← PotDelta.consumed_incentives delta;
  returned_rewards ← sub_ 64 (EpochIncentives.available_rewards incentives) used_rewards;
  let pots := update_params pots delta in
  pots ← upd_m Pots.reserves (fun x => sub_ 64 x (EpochIncentives.total incentives)) pots;
  pots ← upd_m Pots.reserves (fun x => sub_ 64 x (PotDelta.reserve_mirs delta)) pots;
  pots ← upd_m Pots.reserves (fun x => add_ 64 x (returned_rewards)) pots;
  pots ← upd_m Pots.treasury (fun x => add_ 64 x (EpochIncentives.treasury_tax incentives)) pots;
  pots ← upd_m Pots.treasury (fun x => add_ 64 x (PotDelta.incentives_back_to_treasury delta)) pots;
  invalid ← umul 64 (PotDelta.pool_invalid_refund_count delta) (Pots.deposit_per_pool pots);
  pots ← upd_m Pots.treasury (fun x => add_ 64 x (invalid)) pots;
  pots ← upd_m Pots.treasury (fun x => add_ 64 x (PotDelta.proposal_invalid_refunds delta)) pots;
  pots ← upd_m Pots.treasury (fun x => add_ 64 x (PotDelta.treasury_donations delta)) pots;
  pots ← upd_m Pots.treasury (fun x => sub_ 64 x (PotDelta.treasury_mirs delta)) pots;
  pots ← upd_m Pots.treasury (fun x => sub_ 64 x (PotDelta.treasury_withdrawals delta)) pots;
  pots ← upd_m Pots.fees (fun x => sub_ 64 x (EpochIncentives.used_fees incentives)) pots;
  pots ← upd_m Pots.fees (fun x => add_ 64 x (PotDelta.gathered_fees delta)) pots;
  pots ← upd_m Pots.rewards (fun x => add_ 64 x (PotDelta.effective_rewards delta)) pots;
  pots ← upd_m Pots.rewards (fun x => sub_ 64 x (PotDelta.withdrawals delta)) pots;
  refunds ← umul 64 (PotDelta.pool_refund_count delta) (Pots.deposit_per_pool pots);
  pots ← upd_m Pots.rewards (fun x => add_ 64 x (refunds)) pots;
  pots ← upd_m Pots.rewards (fun x => add_ 64 x (PotDelta.proposal_refunds delta)) pots;
  pots ← upd_m Pots.rewards (fun x => add_ 64 x (PotDelta.reserve_mirs delta)) pots;
  pots ← upd_m Pots.rewards (fun x => add_ 64 x (PotDelta.treasury_mirs delta)) pots;
  pots ← upd_m Pots.rewards (fun x => add_ 64 x (PotDelta.treasury_withdrawals delta)) pots;
  pots ← upd_m Pots.utxos (fun x => add_ 64 x (PotDelta.produced_utxos delta)) pots;
  pots ← upd_m Pots.utxos (fun x => sub_ 64 x (PotDelta.consumed_utxos delta)) pots;
  pots ← upd_m Pots.utxos (fun x => sub_ 64 x (PotDelta.avvm_reclamation delta)) pots;
  pots ← upd_m Pots.reserves (fun x => add_ 64 x (PotDelta.avvm_reclamation delta)) pots;
  pots ← upd_m Pots.pool_count (fun x => add_ 64 x (PotDelta.pool_deposit_count delta)) pots;
  pots ← upd_m Pots.pool_count (fun x => sub_ 64 x (PotDelta.pool_refund_count delta)) pots;
  pots ← upd_m Pots.pool_count (fun x => sub_ 64 x (PotDelta.pool_invalid_refund_count delta)) pots;
  pots ← upd_m Pots.account_count (fun x => add_ 64 x (PotDelta.new_accounts delta)) pots;
  pots ← upd_m Pots.account_count (fun x => sub_ 64 x (PotDelta.removed_accounts delta)) pots;
  pots ← upd_m Pots.drep_deposits (fun x => add_ 64 x (PotDelta.drep_deposits delta)) pots;
  pots ← upd_m Pots.drep_deposits (fun x => sub_ 64 x (PotDelta.drep_refunds delta)) pots;
  pots ← upd_m Pots.proposal_deposits (fun x => add_ 64 x (PotDelta.proposal_deposits delta)) pots;
  pots ← upd_m Pots.proposal_deposits (fun x => sub_ 64 x (PotDelta.proposal_refunds delta)) pots;
  pots ← upd_m Pots.proposal_deposits (fun x => sub_ 64 x (PotDelta.proposal_invalid_refunds delta)) pots;
  Ret pots.

Definition apply_delta (pots : Pots.t) (incentives : EpochIncentives.t) (delta : PotDelta.t) : run Pots.t :=
  if PotDelta.protocol_version delta <=? 1 then apply_byron_delta pots incentives delta
  else apply_shelley_delta pots incentives delta.

End formulas.

(** ** The known transitions of the sources' unit tests *)

Definition preview_epoch_1 : Pots.t := {|
  Pots.reserves := 14991000000000000; Pots.treasury := 9000000000000;
  Pots.fees := 437793; Pots.utxos := 29999998493562207; Pots.rewards := 0;
  Pots.pool_count := 3; Pots.account_count := 3;
  Pots.deposit_per_pool := 500000000; Pots.deposit_per_account := 2000000;
  Pots.nominal_deposits := 0; Pots.drep_deposits := 0; Pots.proposal_deposits := 0;
|}.

Definition preview_delta_1 : PotDelta.t :=
  (PotDelta.neutral 6 6) <| PotDelta.deposit_per_pool := Some 500000000 |>
                       <| PotDelta.deposit_per_account := Some 2000000 |>.

Example known_transition_preview_epoch_1 :
  (i ← @epoch_incentives cfg_strict (Pots.reserves preview_epoch_1) 437793 (3 # 1000) (20 # 100) 1;
   p ← @apply_delta cfg_strict preview_epoch_1 i preview_delta_1;
   s ← @Pots.max_supply cfg_strict p;
   Ret (Pots.reserves p, Pots.treasury p, Pots.fees p, Pots.rewards p, s))
  = Ret (14982005400350235, 17994600087558, 0, 0, 45000000000000000).
Proof. vm_compute. reflexivity. Qed.

(** ** Lemmas *)

(** What the boundary's transactions and certificates add to and take from
    the pots: both sides are equal when every transaction balances. *)
Definition balanced (p : Pots.t) (d : PotDelta.t) : Prop :=
  PotDelta.produced_utxos d + PotDelta.gathered_fees d + PotDelta.treasury_donations d +
  PotDelta.new_accounts d * Pots.deposit_per_account p +
  PotDelta.pool_deposit_count d * Pots.deposit_per_pool p +
  PotDelta.drep_deposits d + PotDelta.proposal_deposits d =
  PotDelta.consumed_utxos d + PotDelta.withdrawals d +
  PotDelta.removed_accounts d * Pots.deposit_per_account p + PotDelta.drep_refunds d.

(** The incentives split what they take: [total + used_fees] goes to the
    treasury and to the rewards. *)
Definition split_exactly (i : EpochIncentives.t) : Prop :=
  EpochIncentives.total i + EpochIncentives.used_fees i =
  EpochIncentives.treasury_tax i + EpochIncentives.available_rewards i.

(** The delta keeps the deposit parameters. *)
Definition same_deposits (p : Pots.t) (d : PotDelta.t) : Prop :=
  default (Pots.deposit_per_pool p) (PotDelta.deposit_per_pool d) = Pots.deposit_per_pool p /\
  default (Pots.deposit_per_account p) (PotDelta.deposit_per_account d) = Pots.deposit_per_account p.

Lemma byron_neutral_eq p :
  byron_neutral p =
    Pots.mk (Pots.reserves p) 0 (Pots.utxos p) 0 0 0 0 0 0 (Pots.nominal_deposits p) 0 0.
Proof. by destruct p. Qed.

(** The pots of a chain that never left Byron. *)
Definition byron_pots (p : Pots.t) : Prop :=
  Pots.treasury p = 0 /\ Pots.fees p = 0 /\ Pots.rewards p = 0 /\
  Pots.pool_count p = 0 /\ Pots.account_count p = 0 /\
  Pots.drep_deposits p = 0 /\ Pots.proposal_deposits p = 0.

Lemma max_supply_exact `{BuildCfg} p :
  Pots.wf p -> Pots.supply p < 2 ^ 64 -> Pots.max_supply p = Ret (Pots.supply p).
Proof.
  unfold Pots.wf, Pots.supply, is_u. intros Hw Hs.
  assert (0 ≤ Pots.deposit_per_pool p * Pots.pool_count p) by nia.
  assert (0 ≤ Pots.deposit_per_account p * Pots.account_count p) by nia.
  unfold Pots.max_supply, Pots.obligations, Pots.stake_deposits.
  repeat first
    [ rewrite (uadd_exact 64 _ _) by (unfold is_u; lia); cbn [mbind run_bind]
    | rewrite (umul_exact 64 _ _) by (unfold is_u; lia); cbn [mbind run_bind] ].
  done.
Qed.

(** ** Incentives *)

(** With parameters in the unit interval the incentives are always computed,
    at most the reserves are taken, and what is taken is split exactly. *)
Lemma epoch_incentives_spec `{BuildCfg} reserves fee_ss rho tau eta :
  0 ≤ reserves -> 0 ≤ fee_ss -> reserves + fee_ss < 2 ^ 64 ->
  (0 <= rho <= 1)%Q -> (0 <= tau <= 1)%Q -> (0 <= eta <= 1)%Q ->
  exists i, epoch_incentives reserves fee_ss rho tau eta = Ret i /\
    0 ≤ EpochIncentives.total i ≤ reserves /\ split_exactly i /\
    EpochIncentives.used_fees i = fee_ss /\
    0 ≤ EpochIncentives.treasury_tax i ≤ EpochIncentives.total i + fee_ss /\
    0 ≤ EpochIncentives.available_rewards i.
Proof.
  intros Hr Hf Hs [Hrho1 Hrho2] [Ht1 Ht2] [He1 He2]. unfold epoch_incentives. cbv zeta.
  pose proof (ratio_int_nonneg _ Hr) as Hrq.
  assert (Heq : (0 <= eta * rho <= 1)%Q) by nra.
  assert (Hfl : 0 ≤ Qfloor (eta * rho * ratio_int reserves) ≤ reserves)
    by (apply Qfloor_between; nra).
  set (q := (eta * rho * ratio_int reserves)%Q) in *.
  rewrite (floor_int_in 64 q) by (unfold is_u; lia). cbn [mbind run_bind].
  rewrite uadd_exact by (unfold is_u; lia). cbn [mbind run_bind].
  set (pot := fee_ss + Qfloor q) in *.
  assert (Hp : 0 ≤ pot < 2 ^ 64) by lia.
  pose proof (ratio_int_nonneg pot ltac:(lia)) as Hpq.
  assert (Htax : 0 ≤ Qfloor (tau * ratio_int pot) ≤ pot) by (apply Qfloor_between; nra).
  rewrite floor_int_in by (unfold is_u; lia). cbn [mbind run_bind].
  rewrite usub_exact by (unfold is_u; lia). cbn [mbind run_bind].
  eexists; split; [reflexivity|]. unfold split_exactly. cbn. lia.
Qed.

Lemma calculate_eta_bounds `{BuildCfg} minted d fn fd len eta :
  0 ≤ minted -> 0 ≤ fn -> 0 < fd -> 0 ≤ len ->
  calculate_eta minted d (Some (fn, fd)) len = Ret eta -> (0 <= eta <= 1)%Q.
Proof.
  intros Hm Hfn Hfd Hl E. unfold calculate_eta in E. cbn -[rmin] in E.
  apply bind_Ret in E as (th & Eth & E). injection Eth as <-.
  destruct (Qle_bool (8 # 10) d) eqn:Ed; [injection E as <-; unfold ratio_int; lra|].
  assert (Hd : (d < 8 # 10)%Q) by (apply rltb_true; unfold rltb; by rewrite Ed).
  apply bind_Ret in E as (f & Ef & E). apply bind_Ret in E as (eta' & [-> Hne]%rdiv_Ret & E).
  injection E as <-. split; [|apply rmin_le_l].
  apply rmin_glb; [unfold ratio_int; lra|].
  assert (0 <= f)%Q as Ha.
  { apply ratio_pos in Ef; [|done]. rewrite Ef. apply Qle_shift_div_l.
    - change 0%Q with (inject_Z 0). by rewrite <- Zlt_Qlt.
    - rewrite Qmult_0_l. change 0%Q with (inject_Z 0). by rewrite <- Zle_Qle. }
  pose proof (ratio_int_nonneg _ Hl) as Hl'. pose proof (ratio_int_nonneg _ Hm) as Hm'.
  set (x := (f * ratio_int len * (ratio_int 1 - d))%Q) in *.
  assert (0 <= x)%Q.
  { unfold x. assert (0 <= f * ratio_int len)%Q by nra. unfold ratio_int in *. nra. }
  apply Qle_shift_div_l; [|lra].
  destruct (Qlt_le_dec 0 x) as [?|Hx]; [done|]. exfalso. apply Hne. lra.
Qed.

Lemma calculate_eta_ret `{BuildCfg} minted d fn fd len :
  0 < fn -> 0 < fd -> 0 < len ->
  exists eta, calculate_eta minted d (Some (fn, fd)) len = Ret eta.
Proof.
  intros Hfn Hfd Hl. unfold calculate_eta. cbv zeta.
  change (ratio 8 10) with (Ret (8 # 10)%Q). cbn [mbind run_bind expect fst snd].
  destruct (Qle_bool (8 # 10) d) eqn:Ed; [by eexists|].
  assert (Hd : (d < 8 # 10)%Q) by (apply rltb_true; unfold rltb; by rewrite Ed).
  destruct (ratio_ret fn fd) as [f Ef]; [done|]. rewrite Ef. cbn [mbind run_bind].
  apply ratio_pos in Ef; [|done].
  rewrite rdiv_ret; [by eexists|].
  assert (0 < f)%Q.
  { rewrite Ef. apply Qlt_shift_div_l; rewrite ?Qmult_0_l; change 0%Q with (inject_Z 0);
      by rewrite <- Zlt_Qlt. }
  assert (0 < ratio_int len)%Q by (unfold ratio_int, Qlt; cbn; lia).
  assert (0 < f * ratio_int len)%Q by (by apply Qmult_lt_0_compat).
  assert (0 < ratio_int 1 - d)%Q by (unfold ratio_int; lra).
  pose proof (Qmult_lt_0_compat (f * ratio_int len) (ratio_int 1 - d)). lra.
Qed.

(** ** The boundary in closed form *)

(** The deposit parameters in force after the boundary. *)
Definition new_pool_deposit (p : Pots.t) (d : PotDelta.t) : Z :=
  default (Pots.deposit_per_pool p) (PotDelta.deposit_per_pool d).
Definition new_account_deposit (p : Pots.t) (d : PotDelta.t) : Z :=
  default (Pots.deposit_per_account p) (PotDelta.deposit_per_account d).

(** The ledger's equations for the pots after a Shelley boundary, over the
    integers: one sum per pot, in no particular order. *)
Definition boundary_pots (p : Pots.t) (i : EpochIncentives.t) (d : PotDelta.t) : Pots.t :=
  let unused := EpochIncentives.available_rewards i
                - (PotDelta.effective_rewards d + PotDelta.unspendable_to_treasury d) in
  let dep := new_pool_deposit p d in
  {|
    Pots.reserves := Pots.reserves p - EpochIncentives.total i - PotDelta.reserve_mirs d
      + unused + PotDelta.avvm_reclamation d;
    Pots.treasury := Pots.treasury p + EpochIncentives.treasury_tax i
      + PotDelta.unspendable_to_treasury d + PotDelta.pool_invalid_refund_count d * dep
      + PotDelta.proposal_invalid_refunds d + PotDelta.treasury_donations d
      - PotDelta.treasury_mirs d - PotDelta.treasury_withdrawals d;
    Pots.utxos := Pots.utxos p + PotDelta.produced_utxos d - PotDelta.consumed_utxos d
      - PotDelta.avvm_reclamation d;
    Pots.rewards := Pots.rewards p + PotDelta.effective_rewards d - PotDelta.withdrawals d
      + PotDelta.pool_refund_count d * dep + PotDelta.proposal_refunds d
      + PotDelta.reserve_mirs d + PotDelta.treasury_mirs d + PotDelta.treasury_withdrawals d;
    Pots.fees := Pots.fees p - EpochIncentives.used_fees i + PotDelta.gathered_fees d;
    Pots.pool_count := Pots.pool_count p + PotDelta.pool_deposit_count d
      - PotDelta.pool_refund_count d - PotDelta.pool_invalid_refund_count d;
    Pots.account_count := Pots.account_count p + PotDelta.new_accounts d
      - PotDelta.removed_accounts d;
    Pots.deposit_per_pool := dep;
    Pots.deposit_per_account := new_account_deposit p d;
    Pots.nominal_deposits := Pots.nominal_deposits p;
    Pots.drep_deposits := Pots.drep_deposits p + PotDelta.drep_deposits d - PotDelta.drep_refunds d;
    Pots.proposal_deposits := Pots.proposal_deposits p + PotDelta.proposal_deposits d
      - PotDelta.proposal_refunds d - PotDelta.proposal_invalid_refunds d;
  |}.

(** Every pot can pay what the boundary takes from it, and what flows through
    each pot fits a machine word. *)
Definition solvent (p : Pots.t) (i : EpochIncentives.t) (d : PotDelta.t) : Prop :=
  let dep := new_pool_deposit p d in
  (PotDelta.effective_rewards d + PotDelta.unspendable_to_treasury d
     ≤ EpochIncentives.available_rewards i) /\
  (EpochIncentives.total i + PotDelta.reserve_mirs d ≤ Pots.reserves p) /\
  (PotDelta.treasury_mirs d + PotDelta.treasury_withdrawals d
     ≤ Pots.treasury p + EpochIncentives.treasury_tax i) /\
  (EpochIncentives.used_fees i ≤ Pots.fees p) /\
  (PotDelta.withdrawals d ≤ Pots.rewards p + PotDelta.effective_rewards d) /\
  (PotDelta.consumed_utxos d + PotDelta.avvm_reclamation d
     ≤ Pots.utxos p + PotDelta.produced_utxos d) /\
  (PotDelta.pool_refund_count d + PotDelta.pool_invalid_refund_count d
     ≤ Pots.pool_count p + PotDelta.pool_deposit_count d) /\
  (PotDelta.removed_accounts d ≤ Pots.account_count p + PotDelta.new_accounts d) /\
  (PotDelta.drep_refunds d ≤ Pots.drep_deposits p + PotDelta.drep_deposits d) /\
  (PotDelta.proposal_refunds d + PotDelta.proposal_invalid_refunds d
     ≤ Pots.proposal_deposits p + PotDelta.proposal_deposits d) /\
  Forall (fun x => x < 2 ^ 64)
    [ Pots.reserves p + EpochIncentives.available_rewards i + PotDelta.avvm_reclamation d;
      Pots.treasury p + EpochIncentives.treasury_tax i + PotDelta.unspendable_to_treasury d
        + PotDelta.pool_invalid_refund_count d * dep + PotDelta.proposal_invalid_refunds d
        + PotDelta.treasury_donations d;
      Pots.fees p + PotDelta.gathered_fees d;
      Pots.rewards p + PotDelta.effective_rewards d + PotDelta.pool_refund_count d * dep
        + PotDelta.proposal_refunds d + PotDelta.reserve_mirs d + PotDelta.treasury_mirs d
        + PotDelta.treasury_withdrawals d;
      Pots.utxos p + PotDelta.produced_utxos d;
      Pots.pool_count p + PotDelta.pool_deposit_count d;
      Pots.account_count p + PotDelta.new_accounts d;
      Pots.drep_deposits p + PotDelta.drep_deposits d;
      Pots.proposal_deposits p + PotDelta.proposal_deposits d ].

Lemma bind_exact {A B} (m : run A) (k : A -> run B) a r :
  m = Ret a -> (forall x, x = a -> k x = r) -> m ≫= k = r.
Proof. intros -> E. by apply E. Qed.

Lemma bind_upd {R T B} (proj : R -> T) `{!Setter proj} (op : T -> run T) (k : R -> run B) q x r :
  op (proj q) = Ret x -> (forall q', q' = q <| proj := x |> -> k q' = r) -> upd_m proj op q ≫= k = r.
Proof. intros E1 E2. unfold upd_m. rewrite E1. by apply E2. Qed.

(** One machine operation of the boundary, computed exactly. *)
Ltac exact_step :=
  first [eapply bind_upd | eapply bind_exact];
  [ cbv beta;
    first [ apply add_exact; cbn; lia | apply sub_exact; cbn; lia
          | apply uadd_exact; unfold is_u; cbn; lia | apply umul_exact; unfold is_u; cbn; lia ]
  | let q := fresh "q" in let E := fresh "E" in intros q E; cbn in E; subst q ].

Lemma update_params_eq p d :
  update_params p d =
    p <| Pots.deposit_per_pool := new_pool_deposit p d |>
      <| Pots.deposit_per_account := new_account_deposit p d |>.
Proof.
  unfold update_params, new_pool_deposit, new_account_deposit.
  by destruct p, (PotDelta.deposit_per_pool d), (PotDelta.deposit_per_account d).
Qed.

(** The sequence of updates is the closed form, in every build. *)
Lemma shelley_closed_form `{BuildCfg} p i d :
  Pots.wf p -> EpochIncentives.wf i -> PotDelta.wf d -> solvent p i d ->
  apply_shelley_delta p i d = Ret (boundary_pots p i d).
Proof.
  intros Hp Hi Hd Hs.
  assert (Hdep : 0 ≤ new_pool_deposit p d).
  { unfold new_pool_deposit, Pots.wf, PotDelta.wf, is_u in *.
    destruct (PotDelta.deposit_per_pool d); cbn; lia. }
  unfold apply_shelley_delta, PotDelta.consumed_incentives, PotDelta.incentives_back_to_treasury.
  rewrite update_params_eq. unfold solvent, boundary_pots in *. cbv zeta in *.
  generalize dependent (new_pool_deposit p d). intros dep Hs Hdep.
  generalize (new_account_deposit p d). intros dea.
  unfold Pots.wf, EpochIncentives.wf, PotDelta.wf, is_u in *.
  rewrite !Forall_cons, Forall_nil in Hs.
  destruct p, i, d. cbn in Hp, Hi, Hd, Hs.
  assert (0 ≤ pool_invalid_refund_count * dep) by nia.
  assert (0 ≤ pool_refund_count * dep) by nia.
  cbv zeta. repeat exact_step. reflexivity.
Qed.

(** What a Shelley boundary adds to the supply: what its transactions create
    out of balance, what the incentives split beyond what they take, and the
    change in value of the deposits held when the parameters change. *)
Definition supply_drift (p : Pots.t) (i : EpochIncentives.t) (d : PotDelta.t) : Z :=
  let pool := new_pool_deposit p d in
  let account := new_account_deposit p d in
  (PotDelta.produced_utxos d + PotDelta.gathered_fees d + PotDelta.treasury_donations d
     + PotDelta.new_accounts d * account + PotDelta.pool_deposit_count d * pool
     + PotDelta.drep_deposits d + PotDelta.proposal_deposits d
   - (PotDelta.consumed_utxos d + PotDelta.withdrawals d + PotDelta.removed_accounts d * account
     + PotDelta.drep_refunds d))
  + (EpochIncentives.treasury_tax i + EpochIncentives.available_rewards i
     - (EpochIncentives.total i + EpochIncentives.used_fees i))
  + ((pool - Pots.deposit_per_pool p) * Pots.pool_count p
     + (account - Pots.deposit_per_account p) * Pots.account_count p).

Lemma boundary_drift p i d : Pots.supply (boundary_pots p i d) = Pots.supply p + supply_drift p i d.
Proof. unfold Pots.supply, supply_drift, boundary_pots. cbn. lia. Qed.

Lemma drift_zero p i d : split_exactly i -> same_deposits p d -> balanced p d -> supply_drift p i d = 0.
Proof.
  unfold split_exactly, same_deposits, balanced, supply_drift, new_pool_deposit, new_account_deposit.
  intros Hi [Hp Ha] Hb. rewrite Hp, Ha. lia.
Qed.

Lemma boundary_supply p i d :
  split_exactly i -> same_deposits p d -> balanced p d ->
  Pots.supply (boundary_pots p i d) = Pots.supply p.
Proof. intros. rewrite boundary_drift, drift_zero by done. lia. Qed.

(** What Byron, which knows no pots but the reserves and the UTxO, writes off. *)
Definition non_byron (p : Pots.t) : Z :=
  Pots.treasury p + Pots.rewards p + Pots.fees p + Pots.drep_deposits p + Pots.proposal_deposits p
  + (Pots.deposit_per_pool p * Pots.pool_count p + Pots.deposit_per_account p * Pots.account_count p).

(** Byron mints nothing and has no pots but the reserves and the UTxO. *)
Definition byron_boundary (p : Pots.t) (d : PotDelta.t) : Pots.t :=
  byron_neutral p
    <| Pots.utxos := Pots.utxos p + PotDelta.produced_utxos d - PotDelta.consumed_utxos d |>
    <| Pots.reserves := Pots.reserves p - PotDelta.produced_utxos d + PotDelta.consumed_utxos d |>.

Definition byron_solvent (p : Pots.t) (d : PotDelta.t) : Prop :=
  PotDelta.consumed_utxos d ≤ Pots.utxos p + PotDelta.produced_utxos d < 2 ^ 64 /\
  PotDelta.produced_utxos d ≤ Pots.reserves p /\
  Pots.reserves p - PotDelta.produced_utxos d + PotDelta.consumed_utxos d < 2 ^ 64.

Lemma byron_closed_form `{BuildCfg} p i d :
  byron_solvent p d -> apply_byron_delta p i d = Ret (byron_boundary p d).
Proof.
  intros Hs. unfold apply_byron_delta, byron_boundary, byron_solvent in *.
  rewrite byron_neutral_eq. cbv zeta. repeat exact_step. reflexivity.
Qed.

Lemma byron_boundary_supply p d : Pots.supply (byron_boundary p d) = Pots.supply p - non_byron p.
Proof. unfold byron_boundary, Pots.supply, non_byron. rewrite byron_neutral_eq. cbn. lia. Qed.

Lemma byron_keeps_nothing p : byron_pots p -> non_byron p = 0.
Proof. unfold byron_pots, non_byron. intros (-> & -> & -> & -> & -> & -> & ->). lia. Qed.

(** ** Properties *)

(** C21: what closing an epoch does to the pots and to the ADA supply.
    Whenever the pots can pay what the boundary takes from them, and with no
    other condition, [apply_delta] returns, in every build, the pots the
    closed form gives, one sum per pot.  The supply then changes by exactly the
    imbalance of the transactions, the imbalance of the split of the incentives
    and the change in value of the deposits held (in Byron: by the pots that do
    not exist there).  So it is conserved when the epoch's transactions
    balance, the incentives are split exactly and the deposit parameters are
    unchanged (in Byron: when only the reserves and the UTxO pot are filled). *)
Theorem boundary_conserves_supply `{BuildCfg} p i d :
  Pots.wf p -> EpochIncentives.wf i -> PotDelta.wf d ->
  (if PotDelta.protocol_version d <=? 1 then byron_solvent p d else solvent p i d) ->
  exists p', apply_delta p i d = Ret p' /\
    p' = (if PotDelta.protocol_version d <=? 1 then byron_boundary p d else boundary_pots p i d) /\
    Pots.supply p' = Pots.supply p
      + (if PotDelta.protocol_version d <=? 1 then - non_byron p else supply_drift p i d) /\
    ((if PotDelta.protocol_version d <=? 1 then byron_pots p
      else split_exactly i /\ same_deposits p d /\ balanced p d) -> Pots.supply p' = Pots.supply p).
Proof.
  intros Hp Hi Hd. unfold apply_delta. destruct (_ <=? 1); intros Hs.
  - exists (byron_boundary p d). rewrite byron_boundary_supply. split; [by apply byron_closed_form|].
    split; [done|]. split; [lia|]. intros ->%byron_keeps_nothing. lia.
  - exists (boundary_pots p i d). rewrite boundary_drift. split; [by apply shelley_closed_form|].
    split; [done|]. split; [done|]. intros (Hi' & Hsd & Hb). rewrite <- boundary_drift. by apply boundary_supply.
Qed.

(** C34: the monetary expansion is total and sound: for parameters in the unit
    interval and a positive expected block count, the epoch's incentives are
    computed, take at most the reserves, and are split exactly between the
    treasury and the available rewards. *)
Theorem incentives_sound `{BuildCfg} minted d fn fd len reserves fee_ss rho tau :
  0 ≤ minted -> 0 < fn -> 0 < fd -> 0 < len -> (0 <= d <= 1)%Q ->
  0 ≤ reserves -> 0 ≤ fee_ss -> reserves + fee_ss < 2 ^ 64 ->
  (0 <= rho <= 1)%Q -> (0 <= tau <= 1)%Q ->
  exists eta i, calculate_eta minted d (Some (fn, fd)) len = Ret eta /\ (0 <= eta <= 1)%Q /\
    epoch_incentives reserves fee_ss rho tau eta = Ret i /\
    EpochIncentives.wf i /\ EpochIncentives.total i ≤ reserves /\ split_exactly i /\
    EpochIncentives.used_fees i = fee_ss.
Proof.
  intros Hm Hfn Hfd Hl Hd Hr Hf Hs Hrho Htau.
  destruct (calculate_eta_ret minted d fn fd len) as [eta He]; [done..|].
  pose proof (calculate_eta_bounds minted d fn fd len eta ltac:(lia) ltac:(lia) Hfd ltac:(lia) He) as Hb.
  destruct (epoch_incentives_spec reserves fee_ss rho tau eta) as (i & Ei & Ht & Hsp & Hu & Htx & Ha);
    [done..|].
  exists eta, i. split; [done|]. split; [done|]. split; [done|].
  unfold split_exactly, EpochIncentives.wf, is_u in *. lia.
Qed.

(** The first boundary of the preview network. *)
Lemma boundary_conserves_supply_witness :
  exists p', @apply_delta cfg_release preview_epoch_1 (EpochIncentives.mk 44973000000000 8994600087558 35978400350235 437793) preview_delta_1 = Ret p' /\
    Pots.supply p' = 45000000000000000.
Proof.
  destruct (@boundary_conserves_supply cfg_release preview_epoch_1
    (EpochIncentives.mk 44973000000000 8994600087558 35978400350235 437793) preview_delta_1)
    as (p' & E & _ & _ & Hs).
  - unfold Pots.wf, is_u. cbn. lia.
  - unfold EpochIncentives.wf, is_u. cbn. lia.
  - unfold PotDelta.wf, is_u. cbn. lia.
  - unfold solvent. cbn. rewrite !Forall_cons, Forall_nil. lia.
  - exists p'. split; [exact E|]. rewrite Hs; [reflexivity|].
    unfold split_exactly, same_deposits, balanced. cbn. lia.
Defined.

Lemma incentives_sound_witness :
  exists eta i, calculate_eta 4298 0 (Some (1, 20)) 86400 = Ret eta /\ (0 <= eta <= 1)%Q /\
    @epoch_incentives cfg_release 14991000000000000 437793 (3 # 1000) (2 # 10) eta = Ret i /\
    EpochIncentives.wf i /\ EpochIncentives.total i ≤ 14991000000000000 /\ split_exactly i /\
    EpochIncentives.used_fees i = 437793.
Proof.
  apply (@incentives_sound cfg_release 4298 0 1 20 86400 14991000000000000 437793); lia || lra.
Defined.
