(* ===== verification/Rewards.v ===== *)
(** * Reward formulas (cardano/src/rewards/formulas.rs)

    The pool and delegator reward formulas of the ledger, on exact rationals
    floored to lovelace. *)

From S2P Require Import Prelude Ratio.
From Stdlib Require Import Lqa.
Open Scope Z_scope.

Section formulas.
Context `{BuildCfg}.

(** Calculate the maximal rewards for a pool. *)
Definition pool_maximal_rewards (r : Ratio) (nopt : Z) (a0 relative_stake relative_pledge : Ratio) : run Z :=
  z0 ← ratio 1 nopt;
  let s := rmin relative_stake z0 in
  let p := rmin relative_pledge z0 in
  op ← rdiv (z0 - s)%Q z0;
  let op := (p * op)%Q in
  let op := (s - op)%Q in
  op ← rdiv op z0;
  let op := (p * a0 * op)%Q in
  let op := (s + op)%Q in
  share ← rdiv r (ratio_int 1 + a0)%Q;
  floor_int 64 (share * op)%Q.

Definition delegator_reward (pool_rewards member_stake pool_stake total_stake fixed_cost : Z)
    (margin_cost : Ratio) : run Z :=
  if pool_rewards <=? fixed_cost then Ret 0
  else
    member_relative_stake ← ratio member_stake total_stake;
    after_cost ← sub_ 64 pool_rewards fixed_cost;
    pool_relative_stake ← ratio pool_stake total_stake;
    out ← rdiv ((ratio_int 1 - margin_cost) * ratio_int after_cost * member_relative_stake)%Q
            pool_relative_stake;
    floor_int 64 out.

Definition pool_apparent_performance (d : Ratio) (pool_blocks epoch_blocks pool_stake total_active_stake : Z) :
    run Ratio :=
  if total_active_stake =? 0 then Ret (ratio_int 0)
  else
    sigma_a ← ratio pool_stake total_active_stake;
    if Qeq_bool sigma_a (ratio_int 0) then Ret (ratio_int 0)
    else
      beta ← ratio pool_blocks (Z.max epoch_blocks 1);
      eight_tenths ← ratio 4 5;
      if rltb d eight_tenths then rdiv beta sigma_a else Ret (ratio_int 1).

Definition pool_rewards (epoch_rewards circulating_supply active_stake pool_stake declared_pledge
    live_pledge nopt : Z) (a0 d : Ratio) (pool_blocks epoch_blocks : Z) : run Z :=
  if live_pledge <? declared_pledge then Ret 0
  else
    relative_stake ← ratio pool_stake circulating_supply;
    relative_pledge ← ratio declared_pledge circulating_supply;
    optimal ← pool_maximal_rewards (ratio_int epoch_rewards) nopt a0 relative_stake relative_pledge;
    pbar ← pool_apparent_performance d pool_blocks epoch_blocks pool_stake active_stake;
    floor_int 64 (ratio_int optimal * pbar)%Q.

Definition pool_operator_share (pool_rewards fixed_cost : Z) (margin_cost : Ratio)
    (pool_stake live_pledge circulating_supply : Z) : run Z :=
  let c := fixed_cost in
  if pool_rewards <=? c then Ret pool_rewards
  else
    after_cost ← sub_ 64 pool_rewards c;
    s ← ratio live_pledge circulating_supply;
    theta ← ratio pool_stake circulating_supply;
    s_over_sigma ← rdiv s theta;
    let one := ratio_int 1 in
    let m := margin_cost in
    let term := (m + (one - m) * s_over_sigma)%Q in
    variable ← floor_int 64 (ratio_int after_cost * term)%Q;
    uadd 64 c variable.

(** ** Lemmas *)

Lemma ratio_eq n d : 0 < d -> exists q, ratio n d = Ret q /\ (q == inject_Z n / inject_Z d)%Q.
Proof.
  intros Hd. destruct (ratio_ret n d Hd) as [q E]. exists q. split; [done|]. by apply ratio_pos.
Qed.

Lemma inject_pos d : 0 < d -> (0 < inject_Z d)%Q.
Proof. intros Hd. by rewrite Zlt_Qlt in Hd. Qed.

Lemma inject_nonneg d : 0 ≤ d -> (0 <= inject_Z d)%Q.
Proof. intros Hd. by rewrite Zle_Qle in Hd. Qed.

(** The stake ratios over a common denominator. *)
Lemma ratio_of_ratios a b c qa qb :
  0 < b -> 0 < c -> (qa == inject_Z a / inject_Z c)%Q -> (qb == inject_Z b / inject_Z c)%Q ->
  exists q, rdiv qa qb = Ret q /\ (q == inject_Z a / inject_Z b)%Q.
Proof.
  intros Hb Hc Ea Eb. pose proof (inject_pos b Hb) as Hb'. pose proof (inject_pos c Hc) as Hc'.
  assert (Hn : ~ (qb == 0)%Q).
  { intros E. rewrite Eb in E.
    assert (0 < inject_Z b / inject_Z c)%Q as Hp by (by apply Qlt_shift_div_l; rewrite ?Qmult_0_l).
    rewrite E in Hp. by apply Qlt_irrefl in Hp. }
  rewrite rdiv_ret by done. eexists. split; [done|]. rewrite Ea, Eb. field. split; lra.
Qed.

(** A floor of a product with a fraction of the unit interval. *)
Lemma floor_share n u : 0 ≤ n < 2 ^ 64 -> (0 <= u)%Q -> (u <= 1)%Q ->
  exists v, floor_int 64 (ratio_int n * u)%Q = Ret v /\ 0 ≤ v ≤ n /\ (inject_Z v <= inject_Z n * u)%Q.
Proof.
  intros Hn H0 H1. pose proof (inject_nonneg n ltac:(lia)) as Hn'.
  assert (Hb : 0 ≤ Qfloor (ratio_int n * u)%Q ≤ n).
  { apply Qfloor_between; unfold ratio_int; fold (inject_Z n); nra. }
  rewrite floor_int_in by (unfold is_u; lia). eexists. split; [done|]. split; [done|].
  apply Qfloor_le.
Qed.

(** The operator takes its cost and a share of the rest. *)
Lemma operator_share_bounds rewards cost m pool_stake pledge supply :
  is_u64 rewards -> is_u64 cost -> (0 <= m)%Q -> (m <= 1)%Q ->
  0 < pool_stake -> 0 ≤ pledge ≤ pool_stake -> 0 < supply ->
  exists op, pool_operator_share rewards cost m pool_stake pledge supply = Ret op /\
    0 ≤ op ≤ rewards /\ Z.min cost rewards ≤ op /\
    (cost < rewards ->
     (inject_Z op <= inject_Z cost + inject_Z (rewards - cost) *
        (m + (1 - m) * (inject_Z pledge / inject_Z pool_stake)))%Q).
Proof.
  intros Hr Hc Hm0 Hm1 Hp Hpl Hs. unfold is_u in *. unfold pool_operator_share.
  destruct (Z.leb_spec rewards cost) as [Hle|Hlt].
  { exists rewards. split; [done|]. split; [lia|]. split; [lia|lia]. }
  rewrite sub_exact by lia. cbn [mbind run_bind].
  destruct (ratio_eq pledge supply Hs) as (s & -> & Es). cbn [mbind run_bind].
  destruct (ratio_eq pool_stake supply Hs) as (th & -> & Et). cbn [mbind run_bind].
  destruct (ratio_of_ratios _ _ _ _ _ Hp Hs Es Et) as (q & -> & Eq). cbn [mbind run_bind].
  pose proof (inject_pos pool_stake Hp) as Hp'.
  assert (Hq : (0 <= q)%Q /\ (q <= 1)%Q).
  { rewrite Eq. split.
    - apply Qle_shift_div_l; [done|]. rewrite Qmult_0_l. apply inject_nonneg. lia.
    - apply Qle_shift_div_r; [done|]. rewrite Qmult_1_l, <- Zle_Qle. lia. }
  destruct Hq as [Hq0 Hq1].
  destruct (floor_share (rewards - cost) (m + (ratio_int 1 - m) * q)%Q) as (v & -> & Hv & Hvq);
    [lia|unfold ratio_int; nra|unfold ratio_int; nra|].
  cbn [mbind run_bind]. rewrite uadd_exact by (unfold is_u; lia).
  exists (cost + v). split; [done|]. split; [lia|]. split; [lia|]. intros _.
  rewrite inject_Z_plus, <- Eq. unfold ratio_int in Hvq. lra.
Qed.

(** A delegator takes its part of the rest. *)
Lemma delegator_reward_bounds rewards stake pool_stake total cost m :
  is_u64 rewards -> is_u64 cost -> (0 <= m)%Q -> (m <= 1)%Q ->
  0 < pool_stake -> 0 ≤ stake ≤ pool_stake -> 0 < total ->
  exists v, delegator_reward rewards stake pool_stake total cost m = Ret v /\
    0 ≤ v /\ (rewards ≤ cost -> v = 0) /\
    (cost < rewards ->
     (inject_Z v <= inject_Z (rewards - cost) * ((1 - m) * (inject_Z stake / inject_Z pool_stake)))%Q).
Proof.
  intros Hr Hc Hm0 Hm1 Hp Hst Ht. unfold is_u in *. unfold delegator_reward.
  destruct (Z.leb_spec rewards cost) as [Hle|Hlt].
  { exists 0. split; [done|]. split; [lia|]. split; [done|lia]. }
  destruct (ratio_eq stake total Ht) as (s & -> & Es). cbn [mbind run_bind].
  rewrite sub_exact by lia. cbn [mbind run_bind].
  destruct (ratio_eq pool_stake total Ht) as (th & -> & Et). cbn [mbind run_bind].
  destruct (ratio_of_ratios _ _ _ _ _ Hp Ht Es Et) as (q & Ed & Eq).
  apply rdiv_Ret in Ed as [Ed Hn]. rewrite rdiv_ret by done. cbn [mbind run_bind].
  pose proof (inject_pos pool_stake Hp) as Hp'.
  assert (Hq : (0 <= q)%Q /\ (q <= 1)%Q).
  { rewrite Eq. split.
    - apply Qle_shift_div_l; [done|]. rewrite Qmult_0_l. apply inject_nonneg. lia.
    - apply Qle_shift_div_r; [done|]. rewrite Qmult_1_l, <- Zle_Qle. lia. }
  destruct Hq as [Hq0 Hq1].
  set (x := ((ratio_int 1 - m) * ratio_int (rewards - cost) * s / th)%Q).
  assert (Ex : (x == ratio_int (rewards - cost) * ((1 - m) * q))%Q).
  { unfold x. rewrite Ed. unfold ratio_int. field. done. }
  pose proof (inject_nonneg (rewards - cost) ltac:(lia)) as Hn'.
  assert (Hb : 0 ≤ Qfloor x ≤ rewards - cost).
  { assert (Hu : (0 <= (1 - m) * q)%Q /\ ((1 - m) * q <= 1)%Q) by (split; nra).
    apply Qfloor_between; rewrite Ex; unfold ratio_int; fold (inject_Z (rewards - cost));
      [apply Qmult_le_0_compat; [exact Hn'|apply Hu]|].
    rewrite Qmult_comm. apply Qmult_unit_le; [exact Hn'|apply Hu]. }
  rewrite floor_int_in by (unfold is_u; lia). eexists. split; [done|]. split; [lia|].
  split; [lia|]. intros _. rewrite <- Eq. unfold ratio_int in Ex. fold (inject_Z (rewards - cost)) in Ex.
  rewrite <- Ex. apply Qfloor_le.
Qed.

(** *** The members of a pool *)

Definition sum (l : list Z) : Z := foldr Z.add 0 l.

Lemma members_bound rewards pool_stake total cost m stakes :
  is_u64 rewards -> is_u64 cost -> (0 <= m)%Q -> (m <= 1)%Q -> 0 < pool_stake -> 0 < total ->
  Forall (fun t => 0 ≤ t) stakes -> sum stakes ≤ pool_stake ->
  exists vs, Forall2 (fun t v => delegator_reward rewards t pool_stake total cost m = Ret v) stakes vs /\
    Forall (fun v => 0 ≤ v) vs /\ (rewards ≤ cost -> sum vs = 0) /\
    (cost < rewards ->
     (inject_Z (sum vs) <=
        inject_Z (rewards - cost) * ((1 - m) * (inject_Z (sum stakes) / inject_Z pool_stake)))%Q).
Proof.
  intros Hr Hc Hm0 Hm1 Hp Ht. induction stakes as [|t stakes IH]; intros Hnn Hsum.
  { exists []. split; [constructor|]. split; [constructor|]. split; [done|]. intros _.
    cbn [sum foldr]. unfold Qdiv. rewrite Qmult_0_l, !Qmult_0_r. apply Qle_refl. }
  apply Forall_cons in Hnn as [Ht0 Hnn]. cbn [sum foldr] in Hsum. fold (sum stakes) in Hsum.
  assert (Hs0 : 0 ≤ sum stakes).
  { clear -Hnn. induction Hnn; cbn; [lia|]. fold (sum l). lia. }
  destruct IH as (vs & Hvs & Hv0 & Hz & Hle); [done|lia|].
  destruct (delegator_reward_bounds rewards t pool_stake total cost m) as (v & Hv & Hvn & Hvz & Hvle);
    [done..|lia|done|].
  exists (v :: vs). split; [by constructor|]. split; [by constructor|]. cbn [sum foldr].
  fold (sum vs) (sum stakes). split; [intros; rewrite Hvz, Hz by done; done|].
  intros Hlt. specialize (Hle Hlt). specialize (Hvle Hlt).
  rewrite !inject_Z_plus. unfold Qdiv in *. lra.
Qed.

(** C39: a pool never pays out more than it earned: its operator and its
    members' rewards are all computed without panicking, are non-negative, and add
    up to at most the pool's rewards, whenever the owners' pledge and the members'
    stakes are within the pool's stake and the margin is a unit fraction. *)
Theorem pool_payout_bounded rewards cost m pool_stake pledge supply total stakes :
  is_u64 rewards -> is_u64 cost -> (0 <= m)%Q -> (m <= 1)%Q ->
  0 < pool_stake -> 0 < supply -> 0 < total -> 0 ≤ pledge ->
  Forall (fun t => 0 ≤ t) stakes -> pledge + sum stakes ≤ pool_stake ->
  exists op vs,
    pool_operator_share rewards cost m pool_stake pledge supply = Ret op /\
    Forall2 (fun t v => delegator_reward rewards t pool_stake total cost m = Ret v) stakes vs /\
    0 ≤ op /\ Forall (fun v => 0 ≤ v) vs /\ op + sum vs ≤ rewards.
Proof.
  intros Hr Hc Hm0 Hm1 Hp Hs Ht Hpl Hnn Hsum.
  assert (Hs0 : 0 ≤ sum stakes).
  { clear -Hnn. induction Hnn; cbn; [lia|]. fold (sum l). lia. }
  destruct (operator_share_bounds rewards cost m pool_stake pledge supply)
    as (op & Hop & Hopb & _ & Hople); [done..|lia|done|].
  destruct (members_bound rewards pool_stake total cost m stakes)
    as (vs & Hvs & Hv0 & Hz & Hle); [done..|lia|].
  exists op, vs. conj_split; [done|done|lia|done|].
  destruct (Z.le_gt_cases rewards cost) as [Hrc|Hrc]; [rewrite Hz by done; lia|].
  specialize (Hople ltac:(lia)). specialize (Hle ltac:(lia)).
  rewrite Zle_Qle, inject_Z_plus.
  assert (Hn : (0 <= inject_Z (rewards - cost))%Q) by (apply inject_nonneg; lia).
  assert (Hcut : (inject_Z pledge / inject_Z pool_stake + inject_Z (sum stakes) / inject_Z pool_stake <= 1)%Q).
  { pose proof (inject_pos pool_stake Hp) as Hp'.
    assert (E : (inject_Z pledge / inject_Z pool_stake + inject_Z (sum stakes) / inject_Z pool_stake ==
                 inject_Z (pledge + sum stakes) / inject_Z pool_stake)%Q)
      by (rewrite inject_Z_plus; field; lra).
    rewrite E. apply Qle_shift_div_r; [done|]. rewrite Qmult_1_l, <- Zle_Qle. lia. }
  set (a := (inject_Z pledge / inject_Z pool_stake)%Q) in *.
  set (b := (inject_Z (sum stakes) / inject_Z pool_stake)%Q) in *.
  assert (Hu : (m + (1 - m) * (a + b) <= 1)%Q) by nra.
  assert (Hall : (inject_Z (rewards - cost) * (m + (1 - m) * (a + b)) <= inject_Z (rewards - cost))%Q).
  { rewrite Qmult_comm. by apply Qmult_unit_le. }
  assert (Er : (inject_Z rewards == inject_Z cost + inject_Z (rewards - cost))%Q).
  { rewrite <- inject_Z_plus. by replace (cost + (rewards - cost)) with rewards by lia. }
  rewrite Er. lra.
Qed.

Lemma rmin_mono a b z : (a <= b)%Q -> (rmin a z <= rmin b z)%Q.
Proof.
  intros Hab. apply rmin_glb; [|apply rmin_le_r]. eapply Qle_trans; [apply rmin_le_l|done].
Qed.

Lemma unit_div a b : (0 < b)%Q -> (0 <= a)%Q -> (a <= b)%Q ->
  (0 <= a / b)%Q /\ (a / b <= 1)%Q.
Proof.
  intros Hb H0 H1. split.
  - apply Qle_shift_div_l; [done|]. by rewrite Qmult_0_l.
  - apply Qle_shift_div_r; [done|]. by rewrite Qmult_1_l.
Qed.

(** The optimal rewards of a pool are computed without panicking and are at
    most the rewards of the epoch, for every saturation parameter and pledge
    influence, as long as the pledge is part of the pool's stake. *)
Theorem maximal_rewards_bounded r nopt a0 relative_stake relative_pledge :
  is_u64 r -> 0 < nopt -> (0 <= a0)%Q ->
  (0 <= relative_pledge)%Q -> (relative_pledge <= relative_stake)%Q ->
  exists v, pool_maximal_rewards (ratio_int r) nopt a0 relative_stake relative_pledge = Ret v /\ 0 ≤ v ≤ r.
Proof.
  intros Hr Hn Ha Hp0 Hps. unfold pool_maximal_rewards.
  destruct (ratio_eq 1 nopt Hn) as (z & -> & Ez). cbn [mbind run_bind].
  assert (Hz : (0 < z)%Q /\ (z <= 1)%Q).
  { rewrite Ez. pose proof (inject_pos nopt Hn) as Hn'. split.
    - apply Qlt_shift_div_l; [done|]. by rewrite Qmult_0_l.
    - apply Qle_shift_div_r; [done|]. rewrite Qmult_1_l, <- Zle_Qle. lia. }
  destruct Hz as [Hz0 Hz1]. set (s := rmin relative_stake z). set (p := rmin relative_pledge z).
  assert (Hsp : (0 <= p)%Q /\ (p <= s)%Q /\ (s <= z)%Q).
  { split; [apply rmin_glb; lra|]. split; [by apply rmin_mono|apply rmin_le_r]. }
  destruct Hsp as (Hp & Hle & Hsz). clearbody s p.
  rewrite (rdiv_ret _ z) by (intros ?; lra). cbn [mbind run_bind]. set (o := ((z - s) / z)%Q).
  destruct (unit_div (z - s) z) as [Ho0 Ho1]; [lra..|]. fold o in Ho0, Ho1. clearbody o.
  rewrite (rdiv_ret _ z) by (intros ?; lra). cbn [mbind run_bind]. set (y := ((s - p * o) / z)%Q).
  destruct (unit_div (s - p * o) z) as [Hy0 Hy1]; [lra|nra|nra|]. fold y in Hy0, Hy1. clearbody y.
  rewrite rdiv_ret by (unfold ratio_int; intros ?; lra). cbn [mbind run_bind].
  assert (H1 : (ratio_int 1 == 1)%Q) by reflexivity.
  destruct (unit_div (s + p * a0 * y) (ratio_int 1 + a0)) as [Hu0 Hu1].
  - lra.
  - assert (0 <= p * a0 * y)%Q by (repeat apply Qmult_le_0_compat; lra).
    lra.
  - assert (Hpa : (0 <= p * a0)%Q /\ (p * a0 <= a0)%Q)
      by (split; [apply Qmult_le_0_compat|apply Qmult_unit_le]; lra).
    assert (p * a0 * y <= p * a0)%Q by (rewrite Qmult_comm; apply Qmult_unit_le; lra).
    lra.
  - set (u := ((s + p * a0 * y) / (ratio_int 1 + a0))%Q) in *.
    assert (Eu : (ratio_int r / (ratio_int 1 + a0) * (s + p * a0 * y) == ratio_int r * u)%Q).
    { unfold u. field. intros ?. lra. }
    pose proof (inject_nonneg r ltac:(unfold is_u in Hr; lia)) as Hr'.
    assert (Hb : 0 ≤ Qfloor (ratio_int r / (ratio_int 1 + a0) * (s + p * a0 * y))%Q ≤ r).
    { apply Qfloor_between; rewrite Eu; [by apply Qmult_le_0_compat|].
      rewrite Qmult_comm. by apply Qmult_unit_le. }
    rewrite floor_int_in by (unfold is_u in *; lia). eexists. by split.
Qed.

End formulas.

Section witnesses.
#[local] Instance rewards_cfg : BuildCfg := cfg_release.

Lemma pool_payout_bounded_witness :
  exists op vs,
    pool_operator_share 1000000000 340000000 (1 # 20) 5000 1000 45000000 = Ret op /\
    Forall2 (fun t v => delegator_reward 1000000000 t 5000 45000000 340000000 (1 # 20) = Ret v)
      [1500; 2500] vs /\
    0 ≤ op /\ Forall (fun v => 0 ≤ v) vs /\ op + sum vs ≤ 1000000000.
Proof.
  apply (pool_payout_bounded 1000000000 340000000 (1 # 20) 5000 1000 45000000 45000000 [1500; 2500]);
    try done. repeat constructor; lia.
Defined.

Lemma maximal_rewards_bounded_witness :
  exists v, pool_maximal_rewards (ratio_int 35730783712305) 150 (3 # 10) (1 # 500) (1 # 10000) = Ret v /\
    0 ≤ v ≤ 35730783712305.
Proof.
  apply (maximal_rewards_bounded 35730783712305 150 (3 # 10) (1 # 500) (1 # 10000)); done.
Defined.

End witnesses.
