(* ===== verification/Accounts.v ===== *)
(** * Accounts (cardano/src/model/accounts.rs)

    The stake accounts of the ledger state and the fifteen deltas that change
    them.  Every delta discharges the [ReversibleDelta] contract. *)

From S2P Require Import Prelude Types EpochValue EntityDelta Eras.

Module Stake.

Record t := mk {
  utxo_sum : Z;
  rewards_sum : Z;
  withdrawals_sum : Z;
  utxo_sum_at_pointer_addresses : Z;
}.

#[global] Instance eta_t : Eta t := fun r =>
  mk (utxo_sum r) (rewards_sum r) (withdrawals_sum r) (utxo_sum_at_pointer_addresses r).

(** [Default::default()]. *)
Definition default_ : t := mk 0 0 0 0.

Definition total `{BuildCfg} (s : t) : run Z :=
  out ← add_ 64 (utxo_sum s) (rewards_sum s);
  sub_ 64 out (withdrawals_sum s).

Definition total_pre_conway `{BuildCfg} (s : t) : run Z :=
  out ← add_ 64 (utxo_sum s) (utxo_sum_at_pointer_addresses s);
  out ← add_ 64 out (rewards_sum s);
  sub_ 64 out (withdrawals_sum s).

Definition total_for_era `{BuildCfg} (s : t) (era : EraProtocol) : run Z :=
  if era <? 9 then total_pre_conway s else total s.

Definition withdrawable `{BuildCfg} (s : t) : run Z :=
  sub_ 64 (rewards_sum s) (withdrawals_sum s).

#[global] Instance transition_default : TransitionDefault t := fun current => Ret current.

Definition wf (s : t) : Prop :=
  is_u64 (utxo_sum s) /\ is_u64 (rewards_sum s) /\
  is_u64 (withdrawals_sum s) /\ is_u64 (utxo_sum_at_pointer_addresses s).

Lemma stake_wf_default : wf default_.
Proof. unfold wf, is_u; cbn; lia. Qed.

End Stake.

Inductive PoolDelegation :=
| PoolDelegated (pool : PoolHash)
| PoolNotDelegated.

Inductive DRepDelegation :=
| DRepDelegated (drep : DRep)
| DRepNotDelegated.

#[global] Instance PoolDelegation_transition : TransitionDefault PoolDelegation :=
  fun current => Ret current.
#[global] Instance DRepDelegation_transition : TransitionDefault DRepDelegation :=
  fun current => Ret current.

Module AccountState.

Record t := mk {
  registered_at : option Z;
  stake : EpochValue.t Stake.t;
  pool : EpochValue.t PoolDelegation;
  drep : EpochValue.t DRepDelegation;
  vote_delegated_at : option (BlockSlot * TxOrder);
  deregistered_at : option Z;
  credential : StakeCredential;
  retired_pool : option PoolHash;
}.

#[global] Instance eta_t : Eta t := fun r =>
  mk (registered_at r) (stake r) (pool r) (drep r) (vote_delegated_at r)
     (deregistered_at r) (credential r) (retired_pool r).

Definition new (epoch : Epoch) (credential : StakeCredential) : t := {|
  credential := credential;
  registered_at := None;
  stake := EpochValue.with_live epoch Stake.default_;
  pool := EpochValue.new epoch;
  drep := EpochValue.new epoch;
  vote_delegated_at := None;
  deregistered_at := None;
  retired_pool := None;
|}.

Definition live_stake `{BuildCfg} (a : t) : run Z :=
  match EpochValue.live (stake a) with Some x => Stake.total x | None => Ret 0 end.

Definition active_stake `{BuildCfg} (a : t) : run Z :=
  match EpochValue.go (stake a) with Some x => Stake.total x | None => Ret 0 end.

Definition is_registered (a : t) : bool :=
  match registered_at a, deregistered_at a with
  | Some _, None => true
  | Some start, Some end_ => end_ <=? start
  | None, _ => false
  end.

Definition is_registered_at (a : t) (slot : Z) : bool :=
  match registered_at a, deregistered_at a with
  | None, None => false
  | None, Some dereg => slot <? dereg
  | Some reg, None => reg <=? slot
  | Some reg, Some dereg => (reg <=? slot) && (slot <? dereg)
  end.

Definition delegated_pool_at (a : t) (epoch : Epoch) : option PoolHash :=
  match EpochValue.snapshot_at (pool a) epoch with
  | Some (PoolDelegated p) => Some p
  | _ => None
  end.

Definition delegated_pool_live (a : t) : option PoolHash :=
  match EpochValue.live (pool a) with
  | Some (PoolDelegated p) => Some p
  | _ => None
  end.

Definition delegated_drep_at (a : t) (epoch : Epoch) : option DRep :=
  match EpochValue.snapshot_at (drep a) epoch with
  | Some (DRepDelegated d) => Some d
  | _ => None
  end.

(** Integers are in range and at most one of the two registration marks is
    set: a registration clears the deregistration and conversely. *)
Definition wf (a : t) : Prop :=
  EpochValue.wf Stake.wf (stake a) /\
  EpochValue.wf (fun _ => True) (pool a) /\
  EpochValue.wf (fun _ => True) (drep a) /\
  (registered_at a = None \/ deregistered_at a = None).

#[global] Instance entity : Entity t := {| NS := "accounts"; entity_wf := wf |}.

Lemma account_wf_new e c : is_u64 e -> wf (new e c).
Proof.
  intros. unfold wf; split_and!; cbn;
    auto using EpochValue.wf_with_live, EpochValue.wf_new, Stake.stake_wf_default.
Qed.

End AccountState.

(** The key of an account named by its credential. *)
Definition account_key `{Pallas} (c : StakeCredential) : NsKey :=
  ns_key_from (NS AccountState.t) (cbor_cred c).

(** [get_or_insert_with(|| AccountState::new(..))] keeps well-formedness. *)
Lemma wf_get_or_insert_account e c ep :
  opt_wf e -> is_u64 ep -> AccountState.wf (get_or_insert e (AccountState.new ep c)).
Proof. destruct e; cbn; auto using AccountState.account_wf_new. Qed.

(** Writing the live stake of an account back keeps it well formed. *)
Lemma wf_account_stake a v :
  AccountState.wf a -> EpochValue.wf Stake.wf v -> AccountState.wf (a <| AccountState.stake := v |>).
Proof. unfold AccountState.wf; cbn; tauto. Qed.

Lemma wf_account_live_stake a s s' put :
  AccountState.wf a -> EpochValue.unwrap_live_mut (AccountState.stake a) = Ret (s, put) ->
  (Stake.wf s -> Stake.wf s') -> AccountState.wf (a <| AccountState.stake := put s' |>).
Proof.
  intros Ha E Hs. apply wf_account_stake; [done|].
  eapply EpochValue.wf_put_live; [apply Ha|done|].
  apply Hs. by eapply EpochValue.wf_unwrap_live; [apply Ha|].
Qed.

Lemma wf_account_scheduled_stake `{BuildCfg} a s s' put :
  AccountState.wf a -> EpochValue.scheduled_or_default (AccountState.stake a) = Ret (s, put) ->
  (Stake.wf s -> Stake.wf s') -> AccountState.wf (a <| AccountState.stake := put s' |>).
Proof.
  intros Ha E Hs. apply wf_account_stake; [done|].
  edestruct (EpochValue.wf_scheduled Stake.wf) as [? Hp]; [|apply Ha|exact E|by apply Hp, Hs].
  intros o x Ho [= <-]. exact Ho.
Qed.

(** Splits an optional account into its fields, those of its stake included. *)
Ltac split_account e := destruct e as [[? [] [] []]|]; cbn in *.

Module ControlledAmountInc.

Record t := mk {
  cred : StakeCredential;
  is_pointer : bool;
  amount : Z;
  epoch : Epoch;
  was_new : bool;
  prev_stake_live : option Stake.t;
}.

#[global] Instance eta_t : Eta t := fun r =>
  mk (cred r) (is_pointer r) (amount r) (epoch r) (was_new r) (prev_stake_live r).

Definition new (cred : StakeCredential) (is_pointer : bool) (amount : Z) (epoch : Epoch) : t :=
  mk cred is_pointer amount epoch false None.

Section delta.
Context `{BuildCfg, Pallas}.

Definition key (d : t) : NsKey := account_key (cred d).

Definition apply (d : t) (e : option AccountState.t) : run (t * option AccountState.t) :=
  let d := d <| was_new := is_none e |> in
  let entity := get_or_insert e (AccountState.new (epoch d) (cred d)) in
  '(stake, put) ← EpochValue.unwrap_live_mut (AccountState.stake entity);
  let d := d <| prev_stake_live := Some stake |> in
  stake' ←
    (if is_pointer d then
       x ← add_ 64 (Stake.utxo_sum_at_pointer_addresses stake) (amount d);
       Ret (stake <| Stake.utxo_sum_at_pointer_addresses := x |>)
     else
       x ← add_ 64 (Stake.utxo_sum stake) (amount d);
       Ret (stake <| Stake.utxo_sum := x |>));
  Ret (d, Some (entity <| AccountState.stake := put stake' |>)).

Definition undo (d : t) (e : option AccountState.t) : run (option AccountState.t) :=
  if was_new d then Ret None
  else
    entity ← existing e;
    '(_, put) ← EpochValue.unwrap_live_mut (AccountState.stake entity);
    prev ← expect (prev_stake_live d);
    Ret (Some (entity <| AccountState.stake := put prev |>)).

#[global] Instance delta : EntityDelta t AccountState.t :=
  {| EntityDelta.key := key; EntityDelta.apply := apply; EntityDelta.undo := undo |}.

#[global] Program Instance reversible : ReversibleDelta t AccountState.t :=
  {| admissible d _ := is_u64 (amount d) /\ is_u64 (epoch d) |}.
Next Obligation. done. Qed.
Next Obligation. intros d d' e e' E. cbn in E. unfold apply in E. by run_split. Qed.
Next Obligation.
  intros d d' e e' Ha Hw E. cbn in *. unfold apply in E.
  destruct Ha as [Ha He].
  pose proof (wf_get_or_insert_account e (cred d) (epoch d) Hw He) as Hn.
  run_split; (eapply wf_account_live_stake; [done..|]); unfold Stake.wf; cbn;
    intros; destruct_and?; eauto with dolos.
Qed.
Next Obligation.
  intros d d' e e' Ha Hw E. cbn in *. unfold apply, undo in *. ev_unfold. split_account e; undo_solve.
Qed.

End delta.
End ControlledAmountInc.

Module ControlledAmountDec.

Record t := mk {
  cred : StakeCredential;
  is_pointer : bool;
  amount : Z;
  prev_stake_live : option Stake.t;
}.

#[global] Instance eta_t : Eta t := fun r =>
  mk (cred r) (is_pointer r) (amount r) (prev_stake_live r).

Definition new (cred : StakeCredential) (is_pointer : bool) (amount : Z) : t :=
  mk cred is_pointer amount None.

Section delta.
Context `{BuildCfg, Pallas}.

Definition key (d : t) : NsKey := account_key (cred d).

Definition apply (d : t) (e : option AccountState.t) : run (t * option AccountState.t) :=
  entity ← existing e;
  '(stake, put) ← EpochValue.unwrap_live_mut (AccountState.stake entity);
  let d := d <| prev_stake_live := Some stake |> in
  stake' ←
    (if is_pointer d then
       x ← sub_ 64 (Stake.utxo_sum_at_pointer_addresses stake) (amount d);
       Ret (stake <| Stake.utxo_sum_at_pointer_addresses := x |>)
     else
       x ← sub_ 64 (Stake.utxo_sum stake) (amount d);
       Ret (stake <| Stake.utxo_sum := x |>));
  Ret (d, Some (entity <| AccountState.stake := put stake' |>)).

Definition undo (d : t) (e : option AccountState.t) : run (option AccountState.t) :=
  entity ← existing e;
  '(_, put) ← EpochValue.unwrap_live_mut (AccountState.stake entity);
  prev ← expect (prev_stake_live d);
  Ret (Some (entity <| AccountState.stake := put prev |>)).

#[global] Instance delta : EntityDelta t AccountState.t :=
  {| EntityDelta.key := key; EntityDelta.apply := apply; EntityDelta.undo := undo |}.

#[global] Program Instance reversible : ReversibleDelta t AccountState.t :=
  {| admissible d _ := is_u64 (amount d) |}.
Next Obligation. done. Qed.
Next Obligation. intros d d' e e' E. cbn in E. unfold apply in E. by run_split. Qed.
Next Obligation.
  intros d d' e e' Ha Hw E. cbn in *. unfold apply in E.
  run_split; (eapply wf_account_live_stake; [done..|]); unfold Stake.wf; cbn;
    intros; destruct_and?; eauto with dolos.
Qed.
Next Obligation.
  intros d d' e e' Ha Hw E. cbn in *. unfold apply, undo in *. ev_unfold. split_account e; undo_solve.
Qed.

End delta.
End ControlledAmountDec.

Module StakeRegistration.

Record t := mk {
  cred : StakeCredential;
  slot : Z;
  epoch : Epoch;
  deposit : Z;
  was_new : bool;
  prev_registered_at : option Z;
  prev_deregistered_at : option Z;
}.

#[global] Instance eta_t : Eta t := fun r =>
  mk (cred r) (slot r) (epoch r) (deposit r) (was_new r) (prev_registered_at r)
     (prev_deregistered_at r).

Definition new (cred : StakeCredential) (slot : Z) (epoch : Epoch) (deposit : Z) : t :=
  mk cred slot epoch deposit false None None.

Section delta.
Context `{BuildCfg, Pallas}.

Definition key (d : t) : NsKey := account_key (cred d).

Definition apply (d : t) (e : option AccountState.t) : run (t * option AccountState.t) :=
  let d := d <| was_new := is_none e |> in
  let entity := get_or_insert e (AccountState.new (epoch d) (cred d)) in
  let d := d <| prev_registered_at := AccountState.registered_at entity |>
             <| prev_deregistered_at := AccountState.deregistered_at entity |> in
  Ret (d, Some (entity <| AccountState.registered_at := Some (slot d) |>
                       <| AccountState.deregistered_at := None |>)).

Definition undo (d : t) (e : option AccountState.t) : run (option AccountState.t) :=
  if was_new d then Ret None
  else
    entity ← existing e;
    Ret (Some (entity <| AccountState.registered_at := prev_registered_at d |>
                      <| AccountState.deregistered_at := prev_deregistered_at d |>)).

#[global] Instance delta : EntityDelta t AccountState.t :=
  {| EntityDelta.key := key; EntityDelta.apply := apply; EntityDelta.undo := undo |}.

#[global] Program Instance reversible : ReversibleDelta t AccountState.t :=
  {| admissible d _ := is_u64 (slot d) /\ is_u64 (epoch d) |}.
Next Obligation. done. Qed.
Next Obligation. intros d d' e e' E. cbn in E. unfold apply in E. by run_split. Qed.
Next Obligation.
  intros d d' e e' Ha Hw E. cbn in *. unfold apply in E.
  destruct Ha as [Ha He].
  pose proof (wf_get_or_insert_account e (cred d) (epoch d) Hw He) as Hn.
  run_split. unfold AccountState.wf in *; cbn in *; tauto.
Qed.
Next Obligation.
  intros d d' e e' Ha Hw E. cbn in *. unfold apply, undo in *. ev_unfold. split_account e; undo_solve.
Qed.

End delta.
End StakeRegistration.

Module StakeDelegation.

Record t := mk {
  cred : StakeCredential;
  pool : Hash28;
  epoch : Epoch;
  prev_pool : option (EpochValue.t PoolDelegation);
  prev_retired_pool : option PoolHash;
}.

#[global] Instance eta_t : Eta t := fun r =>
  mk (cred r) (pool r) (epoch r) (prev_pool r) (prev_retired_pool r).

Definition new (cred : StakeCredential) (pool : Hash28) (epoch : Epoch) : t :=
  mk cred pool epoch None None.

Section delta.
Context `{BuildCfg, Pallas}.

Definition key (d : t) : NsKey := account_key (cred d).

Definition apply (d : t) (e : option AccountState.t) : run (t * option AccountState.t) :=
  entity ← existing e;
  let d := d <| prev_pool := Some (AccountState.pool entity) |>
             <| prev_retired_pool := AccountState.retired_pool entity |> in
  pool' ← EpochValue.replace (AccountState.pool entity) (PoolDelegated (pool d)) (epoch d);
  Ret (d, Some (entity <| AccountState.pool := pool' |>
                       <| AccountState.retired_pool := None |>)).

Definition undo (d : t) (e : option AccountState.t) : run (option AccountState.t) :=
  entity ← existing e;
  prev ← expect (prev_pool d);
  Ret (Some (entity <| AccountState.pool := prev |>
                    <| AccountState.retired_pool := prev_retired_pool d |>)).

#[global] Instance delta : EntityDelta t AccountState.t :=
  {| EntityDelta.key := key; EntityDelta.apply := apply; EntityDelta.undo := undo |}.

#[global] Program Instance reversible : ReversibleDelta t AccountState.t :=
  {| admissible _ _ := True |}.
Next Obligation. done. Qed.
Next Obligation. intros d d' e e' E. cbn in E. unfold apply in E. by run_split. Qed.
Next Obligation.
  intros d d' e e' Ha Hw E. cbn in *. unfold apply in E.
  run_split. destruct Hw as (? & ? & ? & ?). unfold AccountState.wf; cbn. eauto 8 with dolos.
Qed.
Next Obligation.
  intros d d' e e' Ha Hw E. cbn in *. unfold apply, undo in *. ev_unfold. split_account e; undo_solve.
Qed.

End delta.
End StakeDelegation.

Module VoteDelegation.

Record t := mk {
  cred : StakeCredential;
  drep : DRep;
  vote_delegated_at : BlockSlot * TxOrder;
  epoch : Epoch;
  prev_drep : option (EpochValue.t DRepDelegation);
  prev_vote_delegated_at : option (BlockSlot * TxOrder);
}.

#[global] Instance eta_t : Eta t := fun r =>
  mk (cred r) (drep r) (vote_delegated_at r) (epoch r) (prev_drep r) (prev_vote_delegated_at
     r).

Definition new (cred : StakeCredential) (drep : DRep) (slot : BlockSlot) (order : TxOrder)
    (epoch : Epoch) : t :=
  mk cred drep (slot, order) epoch None None.

Section delta.
Context `{BuildCfg, Pallas}.

Definition key (d : t) : NsKey := account_key (cred d).

Definition apply (d : t) (e : option AccountState.t) : run (t * option AccountState.t) :=
  entity ← existing e;
  let d := d <| prev_drep := Some (AccountState.drep entity) |>
             <| prev_vote_delegated_at := AccountState.vote_delegated_at entity |> in
  let entity := entity <| AccountState.vote_delegated_at := Some (vote_delegated_at d) |> in
  drep' ← EpochValue.replace (AccountState.drep entity) (DRepDelegated (drep d)) (epoch d);
  Ret (d, Some (entity <| AccountState.drep := drep' |>)).

Definition undo (d : t) (e : option AccountState.t) : run (option AccountState.t) :=
  entity ← existing e;
  let entity := entity <| AccountState.vote_delegated_at := prev_vote_delegated_at d |> in
  prev ← expect (prev_drep d);
  Ret (Some (entity <| AccountState.drep := prev |>)).

#[global] Instance delta : EntityDelta t AccountState.t :=
  {| EntityDelta.key := key; EntityDelta.apply := apply; EntityDelta.undo := undo |}.

#[global] Program Instance reversible : ReversibleDelta t AccountState.t :=
  {| admissible _ _ := True |}.
Next Obligation. done. Qed.
Next Obligation. intros d d' e e' E. cbn in E. unfold apply in E. by run_split. Qed.
Next Obligation.
  intros d d' e e' Ha Hw E. cbn in *. unfold apply in E.
  run_split. destruct Hw as (? & ? & ? & ?). unfold AccountState.wf; cbn. eauto 8 with dolos.
Qed.
Next Obligation.
  intros d d' e e' Ha Hw E. cbn in *. unfold apply, undo in *. ev_unfold. split_account e; undo_solve.
Qed.

End delta.
End VoteDelegation.

Module StakeDeregistration.

Record t := mk {
  cred : StakeCredential;
  slot : Z;
  epoch : Epoch;
  prev_registered_at : option Z;
  prev_deregistered_at : option Z;
  prev_pool : option (EpochValue.t PoolDelegation);
  prev_drep : option (EpochValue.t DRepDelegation);
  prev_retired_pool : option PoolHash;
}.

#[global] Instance eta_t : Eta t := fun r =>
  mk (cred r) (slot r) (epoch r) (prev_registered_at r) (prev_deregistered_at r) (prev_pool r)
     (prev_drep r) (prev_retired_pool r).

Definition new (cred : StakeCredential) (slot : Z) (epoch : Epoch) : t :=
  mk cred slot epoch None None None None None.

Section delta.
Context `{BuildCfg, Pallas}.

Definition key (d : t) : NsKey := account_key (cred d).

Definition apply (d : t) (e : option AccountState.t) : run (t * option AccountState.t) :=
  entity ← existing e;
  let d := d <| prev_registered_at := AccountState.registered_at entity |>
             <| prev_deregistered_at := AccountState.deregistered_at entity |>
             <| prev_pool := Some (AccountState.pool entity) |>
             <| prev_drep := Some (AccountState.drep entity) |>
             <| prev_retired_pool := AccountState.retired_pool entity |> in
  let entity := entity <| AccountState.registered_at := None |>
                       <| AccountState.deregistered_at := Some (slot d) |> in
  pool' ← EpochValue.replace (AccountState.pool entity) PoolNotDelegated (epoch d);
  let entity := entity <| AccountState.pool := pool' |>
                       <| AccountState.retired_pool := None |> in
  drep' ← EpochValue.replace (AccountState.drep entity) DRepNotDelegated (epoch d);
  Ret (d, Some (entity <| AccountState.drep := drep' |>)).

Definition undo (d : t) (e : option AccountState.t) : run (option AccountState.t) :=
  entity ← existing e;
  let entity := entity <| AccountState.registered_at := prev_registered_at d |>
                       <| AccountState.deregistered_at := prev_deregistered_at d |> in
  pool' ← expect (prev_pool d);
  drep' ← expect (prev_drep d);
  Ret (Some (entity <| AccountState.pool := pool' |>
                    <| AccountState.drep := drep' |>
                    <| AccountState.retired_pool := prev_retired_pool d |>)).

#[global] Instance delta : EntityDelta t AccountState.t :=
  {| EntityDelta.key := key; EntityDelta.apply := apply; EntityDelta.undo := undo |}.

#[global] Program Instance reversible : ReversibleDelta t AccountState.t :=
  {| admissible _ _ := True |}.
Next Obligation. done. Qed.
Next Obligation. intros d d' e e' E. cbn in E. unfold apply in E. by run_split. Qed.
Next Obligation.
  intros d d' e e' Ha Hw E. cbn in *. unfold apply in E.
  run_split. destruct Hw as (? & ? & ? & ?). unfold AccountState.wf; cbn. eauto 8 with dolos.
Qed.
Next Obligation.
  intros d d' e e' Ha Hw E. cbn in *. unfold apply, undo in *. ev_unfold. split_account e; undo_solve.
Qed.

End delta.
End StakeDeregistration.

Module WithdrawalInc.

Record t := mk {
  cred : StakeCredential;
  amount : Z;
  prev_stake_live : option Stake.t;
}.

#[global] Instance eta_t : Eta t := fun r =>
  mk (cred r) (amount r) (prev_stake_live r).

Definition new (cred : StakeCredential) (amount : Z) : t :=
  mk cred amount None.

Section delta.
Context `{BuildCfg, Pallas}.

Definition key (d : t) : NsKey := account_key (cred d).

Definition apply (d : t) (e : option AccountState.t) : run (t * option AccountState.t) :=
  entity ← existing e;
  '(stake, put) ← EpochValue.unwrap_live_mut (AccountState.stake entity);
  let d := d <| prev_stake_live := Some stake |> in
  x ← add_ 64 (Stake.withdrawals_sum stake) (amount d);
  Ret (d, Some (entity <| AccountState.stake := put (stake <| Stake.withdrawals_sum := x |>) |>)).

Definition undo (d : t) (e : option AccountState.t) : run (option AccountState.t) :=
  entity ← existing e;
  '(_, put) ← EpochValue.unwrap_live_mut (AccountState.stake entity);
  prev ← expect (prev_stake_live d);
  Ret (Some (entity <| AccountState.stake := put prev |>)).

#[global] Instance delta : EntityDelta t AccountState.t :=
  {| EntityDelta.key := key; EntityDelta.apply := apply; EntityDelta.undo := undo |}.

#[global] Program Instance reversible : ReversibleDelta t AccountState.t :=
  {| admissible d _ := is_u64 (amount d) |}.
Next Obligation. done. Qed.
Next Obligation. intros d d' e e' E. cbn in E. unfold apply in E. by run_split. Qed.
Next Obligation.
  intros d d' e e' Ha Hw E. cbn in *. unfold apply in E.
  run_split; (eapply wf_account_live_stake; [done..|]); unfold Stake.wf; cbn;
    intros; destruct_and?; eauto with dolos.
Qed.
Next Obligation.
  intros d d' e e' Ha Hw E. cbn in *. unfold apply, undo in *. ev_unfold. split_account e; undo_solve.
Qed.

End delta.
End WithdrawalInc.

Module PoolDelegatorRetire.

Record t := mk {
  delegator : EntityKey;
  epoch : Epoch;
  prev_pool : option (EpochValue.t PoolDelegation);
  prev_retired_pool : option PoolHash;
}.

#[global] Instance eta_t : Eta t := fun r =>
  mk (delegator r) (epoch r) (prev_pool r) (prev_retired_pool r).

Definition new (delegator : EntityKey) (epoch : Epoch) : t :=
  mk delegator epoch None None.

Section delta.
Context `{BuildCfg, Pallas}.

Definition key (d : t) : NsKey := (NS AccountState.t, delegator d).

Definition apply (d : t) (e : option AccountState.t) : run (t * option AccountState.t) :=
  entity ← existing e;
  let d := d <| prev_pool := Some (AccountState.pool entity) |>
             <| prev_retired_pool := AccountState.retired_pool entity |> in
  let prev_pool_live := EpochValue.live (AccountState.pool entity) in
  pool' ← EpochValue.schedule (AccountState.pool entity) (epoch d) (Some PoolNotDelegated);
  let entity := entity <| AccountState.pool := pool' |> in
  match prev_pool_live with
  | Some (PoolDelegated pool) =>
      Ret (d, Some (entity <| AccountState.retired_pool := Some pool |>))
  | _ => Panic
  end.

Definition undo (d : t) (e : option AccountState.t) : run (option AccountState.t) :=
  entity ← existing e;
  prev ← expect (prev_pool d);
  Ret (Some (entity <| AccountState.pool := prev |>
                    <| AccountState.retired_pool := prev_retired_pool d |>)).

#[global] Instance delta : EntityDelta t AccountState.t :=
  {| EntityDelta.key := key; EntityDelta.apply := apply; EntityDelta.undo := undo |}.

#[global] Program Instance reversible : ReversibleDelta t AccountState.t :=
  {| admissible _ _ := True |}.
Next Obligation. done. Qed.
Next Obligation. intros d d' e e' E. cbn in E. unfold apply in E. by run_split. Qed.
Next Obligation.
  intros d d' e e' Ha Hw E. cbn in *. unfold apply in E.
  run_split. destruct Hw as (? & ? & ? & ?). unfold AccountState.wf; cbn. eauto 8 with dolos.
Qed.
Next Obligation.
  intros d d' e e' Ha Hw E. cbn in *. unfold apply, undo in *. ev_unfold. split_account e; undo_solve.
Qed.

End delta.
End PoolDelegatorRetire.

Module DRepDelegatorDrop.

Record t := mk {
  delegator : EntityKey;
  epoch : Epoch;
  prev_drep : option (EpochValue.t DRepDelegation);
}.

#[global] Instance eta_t : Eta t := fun r =>
  mk (delegator r) (epoch r) (prev_drep r).

Definition new (delegator : EntityKey) (epoch : Epoch) : t :=
  mk delegator epoch None.

Section delta.
Context `{BuildCfg, Pallas}.

Definition key (d : t) : NsKey := (NS AccountState.t, delegator d).

Definition apply (d : t) (e : option AccountState.t) : run (t * option AccountState.t) :=
  entity ← existing e;
  let d := d <| prev_drep := Some (AccountState.drep entity) |> in
  drep' ← EpochValue.schedule (AccountState.drep entity) (epoch d) (Some DRepNotDelegated);
  Ret (d, Some (entity <| AccountState.drep := drep' |>)).

Definition undo (d : t) (e : option AccountState.t) : run (option AccountState.t) :=
  entity ← existing e;
  prev ← expect (prev_drep d);
  Ret (Some (entity <| AccountState.drep := prev |>)).

#[global] Instance delta : EntityDelta t AccountState.t :=
  {| EntityDelta.key := key; EntityDelta.apply := apply; EntityDelta.undo := undo |}.

#[global] Program Instance reversible : ReversibleDelta t AccountState.t :=
  {| admissible _ _ := True |}.
Next Obligation. done. Qed.
Next Obligation. intros d d' e e' E. cbn in E. unfold apply in E. by run_split. Qed.
Next Obligation.
  intros d d' e e' Ha Hw E. cbn in *. unfold apply in E.
  run_split. destruct Hw as (? & ? & ? & ?). unfold AccountState.wf; cbn. eauto 8 with dolos.
Qed.
Next Obligation.
  intros d d' e e' Ha Hw E. cbn in *. unfold apply, undo in *. ev_unfold. split_account e; undo_solve.
Qed.

End delta.
End DRepDelegatorDrop.

Module TreasuryWithdrawal.

Record t := mk {
  account : StakeCredential;
  amount : Z;
  prev_stake_live : option Stake.t;
}.

#[global] Instance eta_t : Eta t := fun r =>
  mk (account r) (amount r) (prev_stake_live r).

Definition new (account : StakeCredential) (amount : Z) : t :=
  mk account amount None.

Section delta.
Context `{BuildCfg, Pallas}.

Definition key (d : t) : NsKey := account_key (account d).

Definition apply (d : t) (e : option AccountState.t) : run (t * option AccountState.t) :=
  entity ← existing e;
  '(stake, put) ← EpochValue.unwrap_live_mut (AccountState.stake entity);
  let d := d <| prev_stake_live := Some stake |> in
  x ← add_ 64 (Stake.rewards_sum stake) (amount d);
  Ret (d, Some (entity <| AccountState.stake := put (stake <| Stake.rewards_sum := x |>) |>)).

Definition undo (d : t) (e : option AccountState.t) : run (option AccountState.t) :=
  entity ← existing e;
  '(_, put) ← EpochValue.unwrap_live_mut (AccountState.stake entity);
  prev ← expect (prev_stake_live d);
  Ret (Some (entity <| AccountState.stake := put prev |>)).

#[global] Instance delta : EntityDelta t AccountState.t :=
  {| EntityDelta.key := key; EntityDelta.apply := apply; EntityDelta.undo := undo |}.

#[global] Program Instance reversible : ReversibleDelta t AccountState.t :=
  {| admissible d _ := is_u64 (amount d) |}.
Next Obligation. done. Qed.
Next Obligation. intros d d' e e' E. cbn in E. unfold apply in E. by run_split. Qed.
Next Obligation.
  intros d d' e e' Ha Hw E. cbn in *. unfold apply in E.
  run_split; (eapply wf_account_live_stake; [done..|]); unfold Stake.wf; cbn;
    intros; destruct_and?; eauto with dolos.
Qed.
Next Obligation.
  intros d d' e e' Ha Hw E. cbn in *. unfold apply, undo in *. ev_unfold. split_account e; undo_solve.
Qed.

End delta.
End TreasuryWithdrawal.

Module PoolDepositRefund.

Record t := mk {
  pool_deposit : Z;
  account : StakeCredential;
  prev_stake : option (EpochValue.t Stake.t);
}.

#[global] Instance eta_t : Eta t := fun r =>
  mk (pool_deposit r) (account r) (prev_stake r).

Definition new (pool_deposit : Z) (account : StakeCredential) : t :=
  mk pool_deposit account None.

Section delta.
Context `{BuildCfg, Pallas}.

Definition key (d : t) : NsKey := account_key (account d).

Definition apply (d : t) (e : option AccountState.t) : run (t * option AccountState.t) :=
  entity ← existing e;
  let d := d <| prev_stake := Some (AccountState.stake entity) |> in
  '(stake, put) ← EpochValue.scheduled_or_default (AccountState.stake entity);
  x ← uadd 64 (Stake.rewards_sum stake) (pool_deposit d);
  Ret (d, Some (entity <| AccountState.stake := put (stake <| Stake.rewards_sum := x |>) |>)).

Definition undo (d : t) (e : option AccountState.t) : run (option AccountState.t) :=
  entity ← existing e;
  prev ← expect (prev_stake d);
  Ret (Some (entity <| AccountState.stake := prev |>)).

#[global] Instance delta : EntityDelta t AccountState.t :=
  {| EntityDelta.key := key; EntityDelta.apply := apply; EntityDelta.undo := undo |}.

#[global] Program Instance reversible : ReversibleDelta t AccountState.t :=
  {| admissible d _ := is_u64 (pool_deposit d) |}.
Next Obligation. done. Qed.
Next Obligation. intros d d' e e' E. cbn in E. unfold apply in E. by run_split. Qed.
Next Obligation.
  intros d d' e e' Ha Hw E. cbn in *. unfold apply in E.
  run_split. eapply wf_account_scheduled_stake; [done..|].
  unfold Stake.wf; cbn; intros; destruct_and?; eauto with dolos.
Qed.
Next Obligation.
  intros d d' e e' Ha Hw E. cbn in *. unfold apply, undo in *. ev_unfold. split_account e; undo_solve.
Qed.

End delta.
End PoolDepositRefund.

Module ProposalDepositRefund.

Record t := mk {
  proposal_deposit : Z;
  account : StakeCredential;
  prev_stake : option (EpochValue.t Stake.t);
}.

#[global] Instance eta_t : Eta t := fun r =>
  mk (proposal_deposit r) (account r) (prev_stake r).

Definition new (proposal_deposit : Z) (account : StakeCredential) : t :=
  mk proposal_deposit account None.

Section delta.
Context `{BuildCfg, Pallas}.

Definition key (d : t) : NsKey := account_key (account d).

Definition apply (d : t) (e : option AccountState.t) : run (t * option AccountState.t) :=
  entity ← existing e;
  let d := d <| prev_stake := Some (AccountState.stake entity) |> in
  '(stake, put) ← EpochValue.scheduled_or_default (AccountState.stake entity);
  x ← uadd 64 (Stake.rewards_sum stake) (proposal_deposit d);
  Ret (d, Some (entity <| AccountState.stake := put (stake <| Stake.rewards_sum := x |>) |>)).

Definition undo (d : t) (e : option AccountState.t) : run (option AccountState.t) :=
  entity ← existing e;
  prev ← expect (prev_stake d);
  Ret (Some (entity <| AccountState.stake := prev |>)).

#[global] Instance delta : EntityDelta t AccountState.t :=
  {| EntityDelta.key := key; EntityDelta.apply := apply; EntityDelta.undo := undo |}.

#[global] Program Instance reversible : ReversibleDelta t AccountState.t :=
  {| admissible d _ := is_u64 (proposal_deposit d) |}.
Next Obligation. done. Qed.
Next Obligation. intros d d' e e' E. cbn in E. unfold apply in E. by run_split. Qed.
Next Obligation.
  intros d d' e e' Ha Hw E. cbn in *. unfold apply in E.
  run_split. eapply wf_account_scheduled_stake; [done..|].
  unfold Stake.wf; cbn; intros; destruct_and?; eauto with dolos.
Qed.
Next Obligation.
  intros d d' e e' Ha Hw E. cbn in *. unfold apply, undo in *. ev_unfold. split_account e; undo_solve.
Qed.

End delta.
End ProposalDepositRefund.

Module AssignRewards.

Record t := mk {
  account : EntityKey;
  reward : Z;
  prev_stake_live : option Stake.t;
}.

#[global] Instance eta_t : Eta t := fun r =>
  mk (account r) (reward r) (prev_stake_live r).

Definition new (account : EntityKey) (reward : Z) : t :=
  mk account reward None.

Section delta.
Context `{BuildCfg, Pallas}.

Definition key (d : t) : NsKey := (NS AccountState.t, account d).

Definition apply (d : t) (e : option AccountState.t) : run (t * option AccountState.t) :=
  entity ← existing e;
  '(stake, put) ← EpochValue.unwrap_live_mut (AccountState.stake entity);
  let d := d <| prev_stake_live := Some stake |> in
  x ← add_ 64 (Stake.rewards_sum stake) (reward d);
  Ret (d, Some (entity <| AccountState.stake := put (stake <| Stake.rewards_sum := x |>) |>)).

Definition undo (d : t) (e : option AccountState.t) : run (option AccountState.t) :=
  entity ← existing e;
  '(_, put) ← EpochValue.unwrap_live_mut (AccountState.stake entity);
  prev ← expect (prev_stake_live d);
  Ret (Some (entity <| AccountState.stake := put prev |>)).

#[global] Instance delta : EntityDelta t AccountState.t :=
  {| EntityDelta.key := key; EntityDelta.apply := apply; EntityDelta.undo := undo |}.

#[global] Program Instance reversible : ReversibleDelta t AccountState.t :=
  {| admissible d _ := is_u64 (reward d) |}.
Next Obligation. done. Qed.
Next Obligation. intros d d' e e' E. cbn in E. unfold apply in E. by run_split. Qed.
Next Obligation.
  intros d d' e e' Ha Hw E. cbn in *. unfold apply in E.
  run_split; (eapply wf_account_live_stake; [done..|]); unfold Stake.wf; cbn;
    intros; destruct_and?; eauto with dolos.
Qed.
Next Obligation.
  intros d d' e e' Ha Hw E. cbn in *. unfold apply, undo in *. ev_unfold. split_account e; undo_solve.
Qed.

End delta.
End AssignRewards.

Module AccountTransition.

Record t := mk {
  account : EntityKey;
  next_epoch : Epoch;
  prev_stake : option (EpochValue.t Stake.t);
  prev_pool : option (EpochValue.t PoolDelegation);
  prev_drep : option (EpochValue.t DRepDelegation);
}.

#[global] Instance eta_t : Eta t := fun r =>
  mk (account r) (next_epoch r) (prev_stake r) (prev_pool r) (prev_drep r).

Definition new (account : EntityKey) (next_epoch : Epoch) : t :=
  mk account next_epoch None None None.

Section delta.
Context `{BuildCfg, Pallas}.

Definition key (d : t) : NsKey := (NS AccountState.t, account d).

Definition apply (d : t) (e : option AccountState.t) : run (t * option AccountState.t) :=
  entity ← existing e;
  let d := d <| prev_stake := Some (AccountState.stake entity) |>
             <| prev_pool := Some (AccountState.pool entity) |>
             <| prev_drep := Some (AccountState.drep entity) |> in
  stake' ← EpochValue.default_transition (AccountState.stake entity) (next_epoch d);
  pool' ← EpochValue.default_transition (AccountState.pool entity) (next_epoch d);
  drep' ← EpochValue.default_transition (AccountState.drep entity) (next_epoch d);
  Ret (d, Some (entity <| AccountState.stake := stake' |>
                       <| AccountState.pool := pool' |>
                       <| AccountState.drep := drep' |>)).

Definition undo (d : t) (e : option AccountState.t) : run (option AccountState.t) :=
  entity ← existing e;
  stake' ← expect (prev_stake d);
  pool' ← expect (prev_pool d);
  drep' ← expect (prev_drep d);
  Ret (Some (entity <| AccountState.stake := stake' |>
                    <| AccountState.pool := pool' |>
                    <| AccountState.drep := drep' |>)).

#[global] Instance delta : EntityDelta t AccountState.t :=
  {| EntityDelta.key := key; EntityDelta.apply := apply; EntityDelta.undo := undo |}.

#[global] Program Instance reversible : ReversibleDelta t AccountState.t :=
  {| admissible _ _ := True |}.
Next Obligation. done. Qed.
Next Obligation. intros d d' e e' E. cbn in E. unfold apply in E. by run_split. Qed.
Next Obligation.
  intros d d' e e' Ha Hw E. cbn in *. unfold apply in E.
  run_split. destruct Hw as (Hs & Hp & Hd & Hr). unfold AccountState.wf; cbn.
  split_and!; [| | |exact Hr]; by eapply wf_copy_transition.
Qed.
Next Obligation.
  intros d d' e e' Ha Hw E. cbn in *. unfold apply, undo in *.  destruct e as [[]|]; undo_solve.
Qed.

End delta.
End AccountTransition.
