(* ===== verification/Pools.v ===== *)
(** * Stake pools (cardano/src/model/pools.rs)

    Pool parameters, the epoch-specific pool snapshot and the five pool
    deltas. *)

From S2P Require Import Prelude Types EpochValue EntityDelta.

(** [pallas_extras::MultiEraPoolRegistration]. *)
Module MultiEraPoolRegistration.

Record t := mk {
  operator : Hash28;
  vrf_keyhash : Hash32;
  pledge : Z;
  cost : Z;
  margin : RationalNumber;
  reward_account : bytes;
  pool_owners : list Hash28;
  relays : list Relay;
  pool_metadata : option PoolMetadata;
}.

End MultiEraPoolRegistration.

Module PoolParams.

Record t := mk {
  vrf_keyhash : Hash32;
  pledge : Z;
  cost : Z;
  margin : RationalNumber;
  reward_account : bytes;
  pool_owners : list Hash28;
  relays : list Relay;
  pool_metadata : option PoolMetadata;
}.

(** [impl From<MultiEraPoolRegistration> for PoolParams]. *)
Definition from (cert : MultiEraPoolRegistration.t) : t := {|
  vrf_keyhash := MultiEraPoolRegistration.vrf_keyhash cert;
  pledge := MultiEraPoolRegistration.pledge cert;
  cost := MultiEraPoolRegistration.cost cert;
  margin := MultiEraPoolRegistration.margin cert;
  reward_account := MultiEraPoolRegistration.reward_account cert;
  pool_owners := MultiEraPoolRegistration.pool_owners cert;
  relays := MultiEraPoolRegistration.relays cert;
  pool_metadata := MultiEraPoolRegistration.pool_metadata cert;
|}.

End PoolParams.

Module PoolSnapshot.

Record t := mk {
  is_retired : bool;
  blocks_minted : Z;
  params : PoolParams.t;
  is_new : bool;
}.

#[global] Instance eta_t : Eta t := fun r =>
  mk (is_retired r) (blocks_minted r) (params r) (is_new r).

#[global] Instance transition_default : TransitionDefault t := fun current =>
  current ← expect current;
  Ret (Some {|
    is_retired := is_retired current;
    params := params current;
    blocks_minted := 0;
    is_new := false;
  |}).

Definition wf (s : t) : Prop := is_u32 (blocks_minted s).

Lemma snapshot_next_wf o x :
  EpochValue.slot_wf wf o -> next_value o = Ret x -> EpochValue.slot_wf wf x.
Proof. destruct o; intros _ [= <-]. cbn. unfold wf. cbn. by apply is_u_0. Qed.

End PoolSnapshot.

Module PoolState.

Record t := mk {
  operator : PoolHash;
  snapshot : EpochValue.t PoolSnapshot.t;
  blocks_minted_total : Z;
  register_slot : Z;
  retiring_epoch : option Z;
  deposit : Z;
}.

#[global] Instance eta_t : Eta t := fun r =>
  mk (operator r) (snapshot r) (blocks_minted_total r) (register_slot r) (retiring_epoch r)
     (deposit r).

Definition wf (p : t) : Prop :=
  EpochValue.wf PoolSnapshot.wf (snapshot p) /\
  is_u32 (blocks_minted_total p) /\ is_u64 (register_slot p) /\ is_u64 (deposit p).

#[global] Instance entity : Entity t := {| NS := "pools"; entity_wf := wf |}.

End PoolState.

Definition pool_key (operator : PoolHash) : NsKey := ns_key_from (NS PoolState.t) operator.

(** Replacing the snapshot of a pool keeps it well formed. *)
Lemma wf_pool_snapshot p v :
  PoolState.wf p -> EpochValue.wf PoolSnapshot.wf v ->
  PoolState.wf (p <| PoolState.snapshot := v |>).
Proof. unfold PoolState.wf; cbn; tauto. Qed.

Ltac split_pool e := destruct e as [[? []]|]; cbn in *.

Module PoolRegistration.

Record t := mk {
  cert : MultiEraPoolRegistration.t;
  slot : BlockSlot;
  epoch : Epoch;
  pool_deposit : Z;
  was_new : bool;
  prev_snapshot : option (EpochValue.t PoolSnapshot.t);
  prev_retiring_epoch : option Z;
}.

#[global] Instance eta_t : Eta t := fun r =>
  mk (cert r) (slot r) (epoch r) (pool_deposit r) (was_new r) (prev_snapshot r)
     (prev_retiring_epoch r).

Definition new (cert : MultiEraPoolRegistration.t) (slot : BlockSlot) (epoch : Epoch)
    (pool_deposit : Z) : t :=
  mk cert slot epoch pool_deposit false None None.

Section delta.
Context `{BuildCfg, Pallas}.

Definition key (d : t) : NsKey := pool_key (MultiEraPoolRegistration.operator (cert d)).

Definition apply (d : t) (e : option PoolState.t) : run (t * option PoolState.t) :=
  match e with
  | Some entity =>
      let d := d <| prev_snapshot := Some (PoolState.snapshot entity) |>
                 <| prev_retiring_epoch := PoolState.retiring_epoch entity |> in
      current ← EpochValue.unwrap_live (PoolState.snapshot entity);
      snapshot' ←
        (if PoolSnapshot.is_retired current then
           EpochValue.replace (PoolState.snapshot entity)
             {| PoolSnapshot.is_retired := false;
                PoolSnapshot.is_new := true;
                PoolSnapshot.blocks_minted := PoolSnapshot.blocks_minted current;
                PoolSnapshot.params := PoolParams.from (cert d) |}
             (epoch d)
         else
           EpochValue.schedule (PoolState.snapshot entity) (epoch d)
             (Some {| PoolSnapshot.is_retired := false;
                      PoolSnapshot.is_new := false;
                      PoolSnapshot.blocks_minted := 0;
                      PoolSnapshot.params := PoolParams.from (cert d) |}));
      Ret (d, Some (entity <| PoolState.snapshot := snapshot' |>
                           <| PoolState.retiring_epoch := None |>))
  | None =>
      let d := d <| was_new := true |> in
      let snapshot :=
        {| PoolSnapshot.is_retired := false;
           PoolSnapshot.blocks_minted := 0;
           PoolSnapshot.params := PoolParams.from (cert d);
           PoolSnapshot.is_new := true |} in
      Ret (d, Some {|
        PoolState.register_slot := slot d;
        PoolState.operator := MultiEraPoolRegistration.operator (cert d);
        PoolState.snapshot := EpochValue.with_live (epoch d) snapshot;
        PoolState.blocks_minted_total := 0;
        PoolState.retiring_epoch := None;
        PoolState.deposit := pool_deposit d;
      |})
  end.

Definition undo (d : t) (e : option PoolState.t) : run (option PoolState.t) :=
  if was_new d then Ret None
  else
    entity ← existing e;
    prev ← expect (prev_snapshot d);
    Ret (Some (entity <| PoolState.snapshot := prev |>
                      <| PoolState.retiring_epoch := prev_retiring_epoch d |>)).

#[global] Instance delta : EntityDelta t PoolState.t :=
  {| EntityDelta.key := key; EntityDelta.apply := apply; EntityDelta.undo := undo |}.

#[global] Program Instance reversible : ReversibleDelta t PoolState.t :=
  {| admissible d _ := was_new d = false /\ is_u64 (slot d) /\ is_u64 (epoch d) /\ is_u64 (pool_deposit d) |}.
Next Obligation. done. Qed.
Next Obligation. intros d d' e e' E. cbn in E. unfold apply in E. by run_split. Qed.
Next Obligation.
  intros d d' e e' Ha Hw E. cbn in *. unfold apply in E.
  destruct Ha as (_ & ? & ? & ?). destruct e as [p|]; cbn in *.
  - destruct Hw as (Hs & ? & ? & ?). run_split; unfold PoolState.wf; cbn.
    all: split_and!; try done.
    + eapply EpochValue.wf_replace; [done..|].
      unfold EpochValue.unwrap_live in *. run_inv.
      exact (EpochValue.wf_live _ _ _ Hs E0).
    + eapply EpochValue.wf_schedule; [done..|]. by apply is_u_0.
  - run_inv. unfold PoolState.wf; cbn. split_and!; try done; by apply is_u_0.
Qed.
Next Obligation.
  intros d d' e e' [Hn _] Hw E. cbn in *. unfold apply, undo in *. ev_unfold.
  split_pool e; run_split; rewrite ?Hn; undo_solve.
Qed.

End delta.
End PoolRegistration.

Module MintedBlocksInc.

Record t := mk {
  operator : Hash28;
  count : Z;
  epoch : Epoch;
}.

#[global] Instance eta_t : Eta t := fun r =>
  mk (operator r) (count r) (epoch r).

(** A plain struct literal in the sources. *)
Definition new (operator : Hash28) (count : Z) (epoch : Epoch) : t := mk operator count epoch.

(** What the WAL gives back: [epoch] is [#[serde(skip)]], so it decodes to 0. *)
Definition wal_decode (d : t) : t := mk (operator d) (count d) 0.

Section delta.
Context `{BuildCfg, Pallas}.

Definition key (d : t) : NsKey := pool_key (operator d).

Definition apply (d : t) (e : option PoolState.t) : run (t * option PoolState.t) :=
  match e with
  | Some entity =>
      _ ← assert_ (EpochValue.is_at_epoch (PoolState.snapshot entity) (epoch d));
      total ← uadd 32 (PoolState.blocks_minted_total entity) (count d);
      '(live, put) ← EpochValue.unwrap_live_mut (PoolState.snapshot entity);
      minted ← uadd 32 (PoolSnapshot.blocks_minted live) (count d);
      Ret (d, Some (entity <| PoolState.blocks_minted_total := total |>
                           <| PoolState.snapshot := put (live <| PoolSnapshot.blocks_minted := minted |>) |>))
  | None => Ret (d, None)
  end.

Definition undo (d : t) (e : option PoolState.t) : run (option PoolState.t) :=
  match e with
  | Some entity =>
      total ← usub 32 (PoolState.blocks_minted_total entity) (count d);
      '(live, put) ← EpochValue.unwrap_live_mut (PoolState.snapshot entity);
      minted ← usub 32 (PoolSnapshot.blocks_minted live) (count d);
      Ret (Some (entity <| PoolState.blocks_minted_total := total |>
                        <| PoolState.snapshot := put (live <| PoolSnapshot.blocks_minted := minted |>) |>))
  | None => Ret None
  end.

#[global] Instance delta : EntityDelta t PoolState.t :=
  {| EntityDelta.key := key; EntityDelta.apply := apply; EntityDelta.undo := undo |}.

#[global] Program Instance reversible : ReversibleDelta t PoolState.t :=
  {| admissible d _ := is_u32 (count d) |}.
Next Obligation. done. Qed.
Next Obligation. intros d d' e e' E. cbn in E. unfold apply in E. by run_split. Qed.
Next Obligation.
  intros d d' e e' Ha Hw E. cbn in *. unfold apply in E.
  destruct e as [p|]; run_split; [|done]. destruct Hw as (Hs & ? & ? & ?).
  unfold PoolState.wf; cbn; split_and!; [|by eauto with dolos|done|done].
  eapply EpochValue.wf_put_live; [done..|]. unfold PoolSnapshot.wf; cbn. eauto with dolos.
Qed.
Next Obligation.
  intros d d' e e' Ha Hw E. cbn in *. unfold apply, undo in *. ev_unfold.
  destruct e as [[? [? ? live ? ? ?]]|]; cbn in *; [|by run_inv].
  destruct Hw as ((_ & _ & Hl & _) & Ht & _). run_split.
  rewrite (usub_uadd _ _ _ _ E1), (usub_uadd _ _ _ _ E2) by done. cbn.
  by destruct a2.
Qed.

End delta.
End MintedBlocksInc.

Module PoolDeRegistration.

Record t := mk {
  operator : Hash28;
  epoch : Z;
  prev_retiring_epoch : option Z;
  prev_deposit : option Z;
}.

#[global] Instance eta_t : Eta t := fun r =>
  mk (operator r) (epoch r) (prev_retiring_epoch r) (prev_deposit r).

Definition new (operator : Hash28) (epoch : Z) : t :=
  mk operator epoch None None.

Section delta.
Context `{BuildCfg, Pallas}.

Definition key (d : t) : NsKey := pool_key (operator d).

Definition apply (d : t) (e : option PoolState.t) : run (t * option PoolState.t) :=
  match e with
  | Some entity =>
      let d := d <| prev_retiring_epoch := PoolState.retiring_epoch entity |>
                 <| prev_deposit := Some (PoolState.deposit entity) |> in
      Ret (d, Some (entity <| PoolState.retiring_epoch := Some (epoch d) |>
                           <| PoolState.deposit := 0 |>))
  | None => Ret (d, None)
  end.

Definition undo (d : t) (e : option PoolState.t) : run (option PoolState.t) :=
  match e with
  | Some entity =>
      Ret (Some (entity <| PoolState.retiring_epoch := prev_retiring_epoch d |>
                        <| PoolState.deposit := default 0 (prev_deposit d) |>))
  | None => Ret None
  end.

#[global] Instance delta : EntityDelta t PoolState.t :=
  {| EntityDelta.key := key; EntityDelta.apply := apply; EntityDelta.undo := undo |}.

#[global] Program Instance reversible : ReversibleDelta t PoolState.t :=
  {| admissible _ _ := True |}.
Next Obligation. done. Qed.
Next Obligation. intros d d' e e' E. cbn in E. unfold apply in E. by run_split. Qed.
Next Obligation.
  intros d d' e e' Ha Hw E. cbn in *. unfold apply in E.
  destruct e as [p|]; run_split; [|done]. destruct Hw as (? & ? & ? & ?).
  unfold PoolState.wf; cbn; split_and!; eauto with dolos.
Qed.
Next Obligation.
  intros d d' e e' Ha Hw E. cbn in *. unfold apply, undo in *. ev_unfold. split_pool e; undo_solve.
Qed.

End delta.
End PoolDeRegistration.

Module PoolWrapUp.

Record t := mk {
  pool_hash : PoolHash;
  prev_snapshot : option (EpochValue.t PoolSnapshot.t);
}.

#[global] Instance eta_t : Eta t := fun r =>
  mk (pool_hash r) (prev_snapshot r).

Definition new (pool_hash : PoolHash) : t :=
  mk pool_hash None.

Section delta.
Context `{BuildCfg, Pallas}.

Definition key (d : t) : NsKey := pool_key (pool_hash d).

Definition apply (d : t) (e : option PoolState.t) : run (t * option PoolState.t) :=
  entity ← existing e;
  let d := d <| prev_snapshot := Some (PoolState.snapshot entity) |> in
  '(snapshot, put) ← EpochValue.scheduled_or_default (PoolState.snapshot entity);
  Ret (d, Some (entity <| PoolState.snapshot := put (snapshot <| PoolSnapshot.is_retired := true |>) |>)).

Definition undo (d : t) (e : option PoolState.t) : run (option PoolState.t) :=
  entity ← existing e;
  prev ← expect (prev_snapshot d);
  Ret (Some (entity <| PoolState.snapshot := prev |>)).

#[global] Instance delta : EntityDelta t PoolState.t :=
  {| EntityDelta.key := key; EntityDelta.apply := apply; EntityDelta.undo := undo |}.

#[global] Program Instance reversible : ReversibleDelta t PoolState.t :=
  {| admissible _ _ := True |}.
Next Obligation. done. Qed.
Next Obligation. intros d d' e e' E. cbn in E. unfold apply in E. by run_split. Qed.
Next Obligation.
  intros d d' e e' Ha Hw E. cbn in *. unfold apply in E.
  run_split. apply wf_pool_snapshot; [done|].
  edestruct (EpochValue.wf_scheduled PoolSnapshot.wf) as [Hp Hput];
    [apply PoolSnapshot.snapshot_next_wf|apply Hw|done|]. by apply Hput.
Qed.
Next Obligation.
  intros d d' e e' Ha Hw E. cbn in *. unfold apply, undo in *. destruct e as [[]|]; undo_solve.
Qed.

End delta.
End PoolWrapUp.

Module PoolTransition.

Record t := mk {
  pool : EntityKey;
  next_epoch : Epoch;
  prev_snapshot : option (EpochValue.t PoolSnapshot.t);
}.

#[global] Instance eta_t : Eta t := fun r =>
  mk (pool r) (next_epoch r) (prev_snapshot r).

Definition new (pool : EntityKey) (next_epoch : Epoch) : t :=
  mk pool next_epoch None.

Section delta.
Context `{BuildCfg, Pallas}.

Definition key (d : t) : NsKey := (NS PoolState.t, pool d).

Definition apply (d : t) (e : option PoolState.t) : run (t * option PoolState.t) :=
  entity ← existing e;
  let d := d <| prev_snapshot := Some (PoolState.snapshot entity) |> in
  snapshot' ← EpochValue.default_transition (PoolState.snapshot entity) (next_epoch d);
  Ret (d, Some (entity <| PoolState.snapshot := snapshot' |>)).

Definition undo (d : t) (e : option PoolState.t) : run (option PoolState.t) :=
  entity ← existing e;
  prev ← expect (prev_snapshot d);
  Ret (Some (entity <| PoolState.snapshot := prev |>)).

#[global] Instance delta : EntityDelta t PoolState.t :=
  {| EntityDelta.key := key; EntityDelta.apply := apply; EntityDelta.undo := undo |}.

#[global] Program Instance reversible : ReversibleDelta t PoolState.t :=
  {| admissible _ _ := True |}.
Next Obligation. done. Qed.
Next Obligation. intros d d' e e' E. cbn in E. unfold apply in E. by run_split. Qed.
Next Obligation.
  intros d d' e e' Ha Hw E. cbn in *. unfold apply in E.
  run_split. apply wf_pool_snapshot; [done|].
  eapply EpochValue.wf_default_transition; [apply PoolSnapshot.snapshot_next_wf|apply Hw|done].
Qed.
Next Obligation.
  intros d d' e e' Ha Hw E. cbn in *. unfold apply, undo in *. destruct e as [[]|]; undo_solve.
Qed.

End delta.
End PoolTransition.
