(* ===== verification/DReps.v ===== *)
(** * Delegated representatives (cardano/src/model/dreps.rs)

    DRep rows, their epoch-based expiry and the eight DRep deltas. *)

From S2P Require Import Prelude Types EntityDelta.

Definition DREP_KEY_PREFIX : Z := 34.
Definition DREP_SCRIPT_PREFIX : Z := 35.

Definition drep_to_entity_key (value : DRep) : EntityKey :=
  let bytes :=
    match value with
    | DRepKey key => [DREP_KEY_PREFIX] ++ key
    | DRepScript key => [DREP_SCRIPT_PREFIX] ++ key
    | DRepAbstain => [0]
    | DRepNoConfidence => [1]
    end in
  entity_key_from bytes.

Module DRepExpiry.

Record t := mk {
  current : Epoch;
  updated_in : Epoch;
  prev : option Epoch;
}.

#[global] Instance eta_t : Eta t := fun r =>
  mk (current r) (updated_in r) (prev r).

Definition new (value epoch : Epoch) : t := mk value epoch None.

Definition set (x : t) (value epoch : Epoch) : t :=
  let x := if negb (updated_in x =? epoch)
           then x <| prev := Some (current x) |> <| updated_in := epoch |>
           else x in
  x <| current := value |>.

Definition as_of (x : t) (epoch : Epoch) : option Epoch :=
  if updated_in x <=? epoch then Some (current x) else prev x.

Definition wf (x : t) : Prop := is_u64 (current x) /\ is_u64 (updated_in x).

Lemma expiry_wf_set x v e : wf x -> is_u64 v -> is_u64 e -> wf (set x v e).
Proof. unfold set, wf. destruct (negb _); cbn; tauto. Qed.

(** ** The history of writes

    [writes] lists the writes (epoch, value), newest first. *)

(** The value the writes leave at the end of epoch [k]. *)
Fixpoint value_at (writes : list (Epoch * Epoch)) (k : Epoch) : option Epoch :=
  match writes with
  | [] => None
  | (e, v) :: older => if e <=? k then Some v else value_at older k
  end.

(** Writes happen in chain order: no write is of an earlier epoch than an
    older one. *)
Fixpoint chain_order (writes : list (Epoch * Epoch)) : Prop :=
  match writes with
  | (e, _) :: (((e', _) :: _) as older) => e' ≤ e /\ chain_order older
  | _ => True
  end.

(** The row after the writes. *)
Fixpoint replay (writes : list (Epoch * Epoch)) : option t :=
  match writes with
  | [] => None
  | (e, v) :: older =>
      Some (match replay older with None => new v e | Some x => set x v e end)
  end.

Lemma value_at_head_epoch writes e v k :
  chain_order ((e, v) :: writes) -> e ≤ k ->
  value_at ((e, v) :: writes) k = Some v.
Proof. cbn. intros _ Hk. by rewrite (proj2 (Z.leb_le e k) Hk). Qed.

(** What a row holds of its history: the newest write, and the value at the
    end of the epoch before it. *)
Lemma replay_inv writes e v :
  chain_order ((e, v) :: writes) ->
  exists x, replay ((e, v) :: writes) = Some x /\ current x = v /\ updated_in x = e /\
    prev x = value_at ((e, v) :: writes) (e - 1).
Proof.
  revert e v; induction writes as [|[e' v'] older IH]; intros e v Hc.
  - eexists; split; [reflexivity|]. cbn. repeat split.
    by rewrite (proj2 (Z.leb_gt e (e - 1))) by lia.
  - destruct Hc as [He Hc]. destruct (IH e' v' Hc) as (x & Hx & Hcur & Hup & Hprev).
    eexists; split; [cbn in Hx |- *; injection Hx as Hx; by rewrite Hx|]. unfold set. rewrite Hup.
    destruct (Z.eqb_spec e' e) as [->|Hne]; cbn.
    + repeat split; [done|]. rewrite Hprev. cbn.
      by rewrite !(proj2 (Z.leb_gt e (e - 1))) by lia.
    + repeat split. rewrite (proj2 (Z.leb_gt e (e - 1))) by lia.
      rewrite (proj2 (Z.leb_le e' (e - 1))) by lia. by rewrite Hcur.
Qed.

End DRepExpiry.

(** The order of [(BlockSlot, TxOrder)]. *)
Definition slot_order_lt (a b : BlockSlot * TxOrder) : bool :=
  (fst a <? fst b) || ((fst a =? fst b) && (snd a <? snd b)).

Module DRepState.

Record t := mk {
  registered_at : option (BlockSlot * TxOrder);
  voting_power : Z;
  last_active_slot : option Z;
  unregistered_at : option (BlockSlot * TxOrder);
  expired : bool;
  deposit : Z;
  identifier : DRep;
  anchor : option Anchor;
  expiry : option DRepExpiry.t;
}.

#[global] Instance eta_t : Eta t := fun r =>
  mk (registered_at r) (voting_power r) (last_active_slot r) (unregistered_at r) (expired r)
     (deposit r) (identifier r) (anchor r) (expiry r).

Definition new (identifier : DRep) : t := {|
  registered_at := None;
  voting_power := 0;
  last_active_slot := None;
  unregistered_at := None;
  expired := false;
  deposit := 0;
  identifier := identifier;
  anchor := None;
  expiry := None;
|}.

Definition is_unregistered (d : t) : bool :=
  match registered_at d, unregistered_at d with
  | Some registered_at, Some unregistered_at => slot_order_lt registered_at unregistered_at
  | _, None => false
  | None, Some _ => false
  end.

Definition wf (d : t) : Prop :=
  is_u64 (voting_power d) /\ is_u64 (deposit d) /\
  match expiry d with Some x => DRepExpiry.wf x | None => True end.

#[global] Instance entity : Entity t := {| NS := "dreps"; entity_wf := wf |}.

Lemma drep_wf_new i : wf (new i).
Proof. unfold wf; cbn. eauto with dolos. Qed.

End DRepState.

Lemma wf_get_or_insert_drep e i : opt_wf e -> DRepState.wf (get_or_insert e (DRepState.new i)).
Proof. destruct e; cbn; auto using DRepState.drep_wf_new. Qed.

Ltac split_drep e := destruct e as [[]|]; cbn in *.

Module DRepRegistration.

Record t := mk {
  drep : DRep;
  slot : BlockSlot;
  txorder : TxOrder;
  deposit : Z;
  anchor : option Anchor;
  was_new : bool;
  prev_registered_at : option (BlockSlot * TxOrder);
  prev_voting_power : Z;
  prev_deposit : Z;
}.

#[global] Instance eta_t : Eta t := fun r =>
  mk (drep r) (slot r) (txorder r) (deposit r) (anchor r) (was_new r) (prev_registered_at r)
     (prev_voting_power r) (prev_deposit r).

Definition new (drep : DRep) (slot : BlockSlot) (txorder : TxOrder) (deposit : Z) (anchor :
    option Anchor) : t :=
  mk drep slot txorder deposit anchor false None 0 0.

Section delta.
Context `{BuildCfg, Pallas}.

Definition key (d : t) : NsKey := (NS DRepState.t, drep_to_entity_key (drep d)).

Definition apply (d : t) (e : option DRepState.t) : run (t * option DRepState.t) :=
  let d := d <| was_new := is_none e |> in
  let entity := get_or_insert e (DRepState.new (drep d)) in
  let d := d <| prev_registered_at := DRepState.registered_at entity |>
             <| prev_voting_power := DRepState.voting_power entity |>
             <| prev_deposit := DRepState.deposit entity |> in
  Ret (d, Some (entity <| DRepState.registered_at := Some (slot d, txorder d) |>
                       <| DRepState.voting_power := deposit d |>
                       <| DRepState.deposit := deposit d |>)).

Definition undo (d : t) (e : option DRepState.t) : run (option DRepState.t) :=
  if was_new d then Ret None
  else
    entity ← existing e;
    Ret (Some (entity <| DRepState.registered_at := prev_registered_at d |>
                      <| DRepState.voting_power := prev_voting_power d |>
                      <| DRepState.deposit := prev_deposit d |>)).

#[global] Instance delta : EntityDelta t DRepState.t :=
  {| EntityDelta.key := key; EntityDelta.apply := apply; EntityDelta.undo := undo |}.

#[global] Program Instance reversible : ReversibleDelta t DRepState.t :=
  {| admissible d _ := is_u64 (deposit d) |}.
Next Obligation. done. Qed.
Next Obligation. intros d d' e e' E. cbn in E. unfold apply in E. by run_split. Qed.
Next Obligation.
  intros d d' e e' Ha Hw E. cbn in *. unfold apply in E.
  pose proof (wf_get_or_insert_drep e (drep d) Hw) as (? & ? & ?).
  run_split. unfold DRepState.wf; cbn. destruct_and?. eauto with dolos.
Qed.
Next Obligation.
  intros d d' e e' Ha Hw E. cbn in *. unfold apply, undo in *. split_drep e; undo_solve.
Qed.

End delta.
End DRepRegistration.

Module DRepUnRegistration.

Record t := mk {
  drep : DRep;
  slot : BlockSlot;
  txorder : TxOrder;
  prev_voting_power : option Z;
  prev_deposit : option Z;
  prev_unregistered_at : option (BlockSlot * TxOrder);
}.

#[global] Instance eta_t : Eta t := fun r =>
  mk (drep r) (slot r) (txorder r) (prev_voting_power r) (prev_deposit r) (prev_unregistered_at
     r).

Definition new (drep : DRep) (slot : BlockSlot) (txorder : TxOrder) : t :=
  mk drep slot txorder None None None.

Section delta.
Context `{BuildCfg, Pallas}.

Definition key (d : t) : NsKey := (NS DRepState.t, drep_to_entity_key (drep d)).

Definition apply (d : t) (e : option DRepState.t) : run (t * option DRepState.t) :=
  entity ← existing e;
  let d := d <| prev_voting_power := Some (DRepState.voting_power entity) |>
             <| prev_unregistered_at := DRepState.unregistered_at entity |>
             <| prev_deposit := Some (DRepState.deposit entity) |> in
  Ret (d, Some (entity <| DRepState.voting_power := 0 |>
                       <| DRepState.unregistered_at := Some (slot d, txorder d) |>
                       <| DRepState.deposit := 0 |>)).

Definition undo (d : t) (e : option DRepState.t) : run (option DRepState.t) :=
  state ← existing e;
  Ret (Some (state <| DRepState.voting_power := default 0 (prev_voting_power d) |>
                   <| DRepState.unregistered_at := prev_unregistered_at d |>
                   <| DRepState.deposit := default 0 (prev_deposit d) |>)).

#[global] Instance delta : EntityDelta t DRepState.t :=
  {| EntityDelta.key := key; EntityDelta.apply := apply; EntityDelta.undo := undo |}.

#[global] Program Instance reversible : ReversibleDelta t DRepState.t :=
  {| admissible _ _ := True |}.
Next Obligation. done. Qed.
Next Obligation. intros d d' e e' E. cbn in E. unfold apply in E. by run_split. Qed.
Next Obligation.
  intros d d' e e' Ha Hw E. cbn in *. unfold apply in E.
  run_split. destruct Hw as (? & ? & ?). unfold DRepState.wf; cbn. eauto with dolos.
Qed.
Next Obligation.
  intros d d' e e' Ha Hw E. cbn in *. unfold apply, undo in *. split_drep e; undo_solve.
Qed.

End delta.
End DRepUnRegistration.

Module DRepActivity.

Record t := mk {
  drep : DRep;
  slot : Z;
  previous_last_active_slot : option Z;
  was_new : bool;
}.

#[global] Instance eta_t : Eta t := fun r =>
  mk (drep r) (slot r) (previous_last_active_slot r) (was_new r).

Definition new (drep : DRep) (slot : Z) : t :=
  mk drep slot None false.

Section delta.
Context `{BuildCfg, Pallas}.

Definition key (d : t) : NsKey := (NS DRepState.t, drep_to_entity_key (drep d)).

Definition apply (d : t) (e : option DRepState.t) : run (t * option DRepState.t) :=
  let d := d <| was_new := is_none e |> in
  let entity := get_or_insert e (DRepState.new (drep d)) in
  let d := d <| previous_last_active_slot := DRepState.last_active_slot entity |> in
  Ret (d, Some (entity <| DRepState.last_active_slot := Some (slot d) |>)).

Definition undo (d : t) (e : option DRepState.t) : run (option DRepState.t) :=
  if was_new d then Ret None
  else
    match e with
    | Some state =>
        Ret (Some (state <| DRepState.last_active_slot := previous_last_active_slot d |>))
    | None => Ret None
    end.

#[global] Instance delta : EntityDelta t DRepState.t :=
  {| EntityDelta.key := key; EntityDelta.apply := apply; EntityDelta.undo := undo |}.

#[global] Program Instance reversible : ReversibleDelta t DRepState.t :=
  {| admissible _ _ := True |}.
Next Obligation. done. Qed.
Next Obligation. intros d d' e e' E. cbn in E. unfold apply in E. by run_split. Qed.
Next Obligation.
  intros d d' e e' Ha Hw E. cbn in *. unfold apply in E.
  pose proof (wf_get_or_insert_drep e (drep d) Hw) as (? & ? & ?).
  run_split. unfold DRepState.wf; cbn. destruct_and?. eauto with dolos.
Qed.
Next Obligation.
  intros d d' e e' Ha Hw E. cbn in *. unfold apply, undo in *. split_drep e; undo_solve.
Qed.

End delta.
End DRepActivity.

Module DRepAnchorUpdate.

Record t := mk {
  drep : DRep;
  anchor : option Anchor;
  was_new : bool;
  prev_anchor : option Anchor;
}.

#[global] Instance eta_t : Eta t := fun r =>
  mk (drep r) (anchor r) (was_new r) (prev_anchor r).

Definition new (drep : DRep) (anchor : option Anchor) : t :=
  mk drep anchor false None.

Section delta.
Context `{BuildCfg, Pallas}.

Definition key (d : t) : NsKey := (NS DRepState.t, drep_to_entity_key (drep d)).

Definition apply (d : t) (e : option DRepState.t) : run (t * option DRepState.t) :=
  let d := d <| was_new := is_none e |> in
  let entity := get_or_insert e (DRepState.new (drep d)) in
  let d := d <| prev_anchor := DRepState.anchor entity |> in
  Ret (d, Some (entity <| DRepState.anchor := anchor d |>)).

Definition undo (d : t) (e : option DRepState.t) : run (option DRepState.t) :=
  if was_new d then Ret None
  else
    match e with
    | Some state => Ret (Some (state <| DRepState.anchor := prev_anchor d |>))
    | None => Ret None
    end.

#[global] Instance delta : EntityDelta t DRepState.t :=
  {| EntityDelta.key := key; EntityDelta.apply := apply; EntityDelta.undo := undo |}.

#[global] Program Instance reversible : ReversibleDelta t DRepState.t :=
  {| admissible _ _ := True |}.
Next Obligation. done. Qed.
Next Obligation. intros d d' e e' E. cbn in E. unfold apply in E. by run_split. Qed.
Next Obligation.
  intros d d' e e' Ha Hw E. cbn in *. unfold apply in E.
  pose proof (wf_get_or_insert_drep e (drep d) Hw) as (? & ? & ?).
  run_split. unfold DRepState.wf; cbn. destruct_and?. eauto with dolos.
Qed.
Next Obligation.
  intros d d' e e' Ha Hw E. cbn in *. unfold apply, undo in *. split_drep e; undo_solve.
Qed.

End delta.
End DRepAnchorUpdate.

Module DRepExpiration.

Record t := mk {
  drep_id : EntityKey;
  prev_expired : bool;
}.

#[global] Instance eta_t : Eta t := fun r =>
  mk (drep_id r) (prev_expired r).

Definition new (drep_id : EntityKey) : t :=
  mk drep_id false.

Section delta.
Context `{BuildCfg, Pallas}.

Definition key (d : t) : NsKey := (NS DRepState.t, drep_id d).

Definition apply (d : t) (e : option DRepState.t) : run (t * option DRepState.t) :=
  entity ← existing e;
  let d := d <| prev_expired := DRepState.expired entity |> in
  Ret (d, Some (entity <| DRepState.expired := true |>)).

Definition undo (d : t) (e : option DRepState.t) : run (option DRepState.t) :=
  match e with
  | Some state => Ret (Some (state <| DRepState.expired := prev_expired d |>))
  | None => Ret None
  end.

#[global] Instance delta : EntityDelta t DRepState.t :=
  {| EntityDelta.key := key; EntityDelta.apply := apply; EntityDelta.undo := undo |}.

#[global] Program Instance reversible : ReversibleDelta t DRepState.t :=
  {| admissible _ _ := True |}.
Next Obligation. done. Qed.
Next Obligation. intros d d' e e' E. cbn in E. unfold apply in E. by run_split. Qed.
Next Obligation.
  intros d d' e e' Ha Hw E. cbn in *. unfold apply in E.
  run_split. destruct Hw as (? & ? & ?). unfold DRepState.wf; cbn. eauto with dolos.
Qed.
Next Obligation.
  intros d d' e e' Ha Hw E. cbn in *. unfold apply, undo in *. split_drep e; undo_solve.
Qed.

End delta.
End DRepExpiration.

Module DRepExpiryUpdate.

Record t := mk {
  drep : DRep;
  expiry : Epoch;
  epoch : Epoch;
  only_if_registered : bool;
  applied : bool;
  was_new : bool;
  prev_expiry : option DRepExpiry.t;
  prev_expired : bool;
}.

#[global] Instance eta_t : Eta t := fun r =>
  mk (drep r) (expiry r) (epoch r) (only_if_registered r) (applied r) (was_new r) (prev_expiry
     r) (prev_expired r).

Definition new (drep : DRep) (expiry : Epoch) (epoch : Epoch) (only_if_registered : bool) : t
    :=
  mk drep expiry epoch only_if_registered false false None false.

Section delta.
Context `{BuildCfg, Pallas}.

Definition key (d : t) : NsKey := (NS DRepState.t, drep_to_entity_key (drep d)).

Definition apply (d : t) (e : option DRepState.t) : run (t * option DRepState.t) :=
  let registered :=
    match e with
    | Some state =>
        negb (is_none (DRepState.registered_at state)) && negb (DRepState.is_unregistered state)
    | None => false
    end in
  if only_if_registered d && negb registered then
    Ret (d <| applied := false |> <| was_new := false |>, e)
  else
    let d := d <| was_new := is_none e |> in
    let entity := get_or_insert e (DRepState.new (drep d)) in
    let d := d <| prev_expiry := DRepState.expiry entity |>
               <| prev_expired := DRepState.expired entity |> in
    let expiry' :=
      match DRepState.expiry entity with
      | Some x => DRepExpiry.set x (expiry d) (epoch d)
      | None => DRepExpiry.new (expiry d) (epoch d)
      end in
    Ret (d <| applied := true |>,
         Some (entity <| DRepState.expiry := Some expiry' |> <| DRepState.expired := false |>)).

Definition undo (d : t) (e : option DRepState.t) : run (option DRepState.t) :=
  if negb (applied d) then Ret e
  else if was_new d then Ret None
  else
    match e with
    | Some state =>
        Ret (Some (state <| DRepState.expiry := prev_expiry d |>
                         <| DRepState.expired := prev_expired d |>))
    | None => Ret None
    end.

#[global] Instance delta : EntityDelta t DRepState.t :=
  {| EntityDelta.key := key; EntityDelta.apply := apply; EntityDelta.undo := undo |}.

#[global] Program Instance reversible : ReversibleDelta t DRepState.t :=
  {| admissible d _ := is_u64 (expiry d) /\ is_u64 (epoch d) |}.
Next Obligation. done. Qed.
Next Obligation.
  intros d d' e e' E. cbn in E. unfold apply in E. destruct (only_if_registered d && _); by run_inv.
Qed.
Next Obligation.
  intros d d' e e' Ha Hw E. cbn in *. unfold apply in E.
  destruct Ha as [Hx He]. pose proof (wf_get_or_insert_drep e (drep d) Hw) as (? & ? & Hn).
  destruct (only_if_registered d && _); run_inv; [done|]. unfold DRepState.wf; cbn in *.
  split_and!; try done. destruct (DRepState.expiry _); [by apply DRepExpiry.expiry_wf_set|by split].
Qed.
Next Obligation.
  intros d d' e e' Ha Hw E. cbn in *. unfold apply, undo in *.
  destruct (only_if_registered d && _); run_inv; cbn; [done|]. by split_drep e.
Qed.

End delta.
End DRepExpiryUpdate.

Module DRepDormancyRelease.

Record t := mk {
  drep_id : EntityKey;
  dormant_epochs : Z;
  epoch : Epoch;
  applied : bool;
  prev_expiry : option DRepExpiry.t;
}.

#[global] Instance eta_t : Eta t := fun r =>
  mk (drep_id r) (dormant_epochs r) (epoch r) (applied r) (prev_expiry r).

Definition new (drep_id : EntityKey) (dormant_epochs : Z) (epoch : Epoch) : t :=
  mk drep_id dormant_epochs epoch false None.

Section delta.
Context `{BuildCfg, Pallas}.

Definition key (d : t) : NsKey := (NS DRepState.t, drep_id d).

Definition apply (d : t) (e : option DRepState.t) : run (t * option DRepState.t) :=
  let d := d <| applied := false |> in
  match e with
  | None => Ret (d, e)
  | Some state =>
      if DRepState.is_unregistered state then Ret (d, e)
      else
        match DRepState.expiry state with
        | None => Ret (d, e)
        | Some expiry =>
            actual ← uadd 64 (DRepExpiry.current expiry) (dormant_epochs d);
            if actual <? epoch d then Ret (d, e)
            else
              let d := d <| prev_expiry := Some expiry |> in
              let expiry := DRepExpiry.set expiry actual (epoch d) in
              Ret (d <| applied := true |>,
                   Some (state <| DRepState.expiry := Some expiry |>))
        end
  end.

Definition undo (d : t) (e : option DRepState.t) : run (option DRepState.t) :=
  if negb (applied d) then Ret e
  else
    match e with
    | Some state => Ret (Some (state <| DRepState.expiry := prev_expiry d |>))
    | None => Ret None
    end.

#[global] Instance delta : EntityDelta t DRepState.t :=
  {| EntityDelta.key := key; EntityDelta.apply := apply; EntityDelta.undo := undo |}.

#[global] Program Instance reversible : ReversibleDelta t DRepState.t :=
  {| admissible d _ := is_u64 (epoch d) |}.
Next Obligation. done. Qed.
Next Obligation. intros d d' e e' E. cbn in E. unfold apply in E. by run_split. Qed.
Next Obligation.
  intros d d' e e' Ha Hw E. cbn in *. unfold apply in E.
  run_split; try done. destruct Hw as (? & ? & Hx). unfold DRepState.wf; cbn.
  split_and!; try done. rewrite Heqo0 in Hx || rewrite Heqo in Hx. apply DRepExpiry.expiry_wf_set; eauto with dolos.
Qed.
Next Obligation.
  intros d d' e e' Ha Hw E. cbn in *. unfold apply, undo in *.
  destruct e as [s|]; run_split; try done. destruct s; cbn in *; by subst.
Qed.

End delta.
End DRepDormancyRelease.

Module DRepPowerUpdate.

Record t := mk {
  drep_id : EntityKey;
  power : Z;
  prev_power : Z;
}.

#[global] Instance eta_t : Eta t := fun r =>
  mk (drep_id r) (power r) (prev_power r).

Definition new (drep_id : EntityKey) (power : Z) : t :=
  mk drep_id power 0.

Section delta.
Context `{BuildCfg, Pallas}.

Definition key (d : t) : NsKey := (NS DRepState.t, drep_id d).

Definition apply (d : t) (e : option DRepState.t) : run (t * option DRepState.t) :=
  entity ← existing e;
  let d := d <| prev_power := DRepState.voting_power entity |> in
  Ret (d, Some (entity <| DRepState.voting_power := power d |>)).

Definition undo (d : t) (e : option DRepState.t) : run (option DRepState.t) :=
  entity ← existing e;
  Ret (Some (entity <| DRepState.voting_power := prev_power d |>)).

#[global] Instance delta : EntityDelta t DRepState.t :=
  {| EntityDelta.key := key; EntityDelta.apply := apply; EntityDelta.undo := undo |}.

#[global] Program Instance reversible : ReversibleDelta t DRepState.t :=
  {| admissible d _ := is_u64 (power d) |}.
Next Obligation. done. Qed.
Next Obligation. intros d d' e e' E. cbn in E. unfold apply in E. by run_split. Qed.
Next Obligation.
  intros d d' e e' Ha Hw E. cbn in *. unfold apply in E.
  run_split. destruct Hw as (? & ? & ?). unfold DRepState.wf; cbn. eauto with dolos.
Qed.
Next Obligation.
  intros d d' e e' Ha Hw E. cbn in *. unfold apply, undo in *. split_drep e; undo_solve.
Qed.

End delta.
End DRepPowerUpdate.

(** ** Properties *)

(** Reading a DRep's expiry as of a boundary sees exactly the writes of
    the epochs up to it: after any sequence of refreshes in chain order, the row answers, for
    every epoch from the one before its newest write on, the value of the last write at or
    before that epoch, and nothing written later. *)
Theorem expiry_as_of_history writes e v k :
  DRepExpiry.chain_order ((e, v) :: writes) -> e - 1 ≤ k ->
  exists x, DRepExpiry.replay ((e, v) :: writes) = Some x /\
    DRepExpiry.as_of x k = DRepExpiry.value_at ((e, v) :: writes) k.
Proof.
  intros Hc Hk. destruct (DRepExpiry.replay_inv writes e v Hc) as (x & Hx & Hcur & Hup & Hprev).
  exists x. split; [done|]. unfold DRepExpiry.as_of. rewrite Hup, Hcur.
  destruct (Z.leb_spec e k).
  - by rewrite DRepExpiry.value_at_head_epoch.
  - rewrite Hprev. by replace k with (e - 1) by lia.
Qed.

Lemma expiry_as_of_history_witness :
  exists x, DRepExpiry.replay [(12, 33); (12, 32); (10, 30)] = Some x /\
    DRepExpiry.as_of x 11 = DRepExpiry.value_at [(12, 33); (12, 32); (10, 30)] 11.
Proof.
  apply (expiry_as_of_history [(12, 32); (10, 30)] 12 33 11).
  - cbn. lia.
  - lia.
Defined.

(** The identifiers the ledger produces: key and script hashes of 28 bytes. *)
Definition drep_ok (d : DRep) : Prop :=
  match d with
  | DRepKey h | DRepScript h => length h = 28%nat
  | DRepAbstain | DRepNoConfidence => True
  end.

(** C40: two DReps share a row only if they are the same DRep: the prefixed and
    padded keys of the key, script and predefined DReps never collide. *)
Theorem drep_key_injective d1 d2 :
  drep_ok d1 -> drep_ok d2 -> drep_to_entity_key d1 = drep_to_entity_key d2 -> d1 = d2.
Proof.
  intros H1 H2 E. assert (Hh : head (drep_to_entity_key d1) = head (drep_to_entity_key d2)) by (by rewrite E).
  unfold drep_to_entity_key, entity_key_from in E, Hh.
  destruct d1 as [h1|h1| |], d2 as [h2|h2| |]; cbn in H1, H2, E, Hh; try discriminate; try done.
  all: injection E as E; rewrite !take_ge in E by (cbn; lia); f_equal.
  all: by apply app_inj_1 in E as [E _]; [|lia].
Qed.

Lemma drep_key_injective_witness : DRepKey (replicate 28 7) = DRepKey (replicate 28 7).
Proof. apply (drep_key_injective (DRepKey (replicate 28 7)) (DRepKey (replicate 28 7))); reflexivity. Defined.
