(* ===== verification/Datums.v ===== *)
(** * Witness datums (cardano/src/model/datums.rs)

    Reference-counted datums and their two deltas. *)

From S2P Require Import Prelude Types EntityDelta.

Definition DATUM_NS : string := "datums".

Module DatumState.

Record t := mk {
  refcount : Z;
  bytes_ : bytes;
}.

#[global] Instance eta_t : Eta t := fun r =>
  mk (refcount r) (bytes_ r).

Definition new (b : bytes) : t := mk 1 b.

(** Stored datums are referenced. *)
Definition wf (s : t) : Prop := is_u64 (refcount s) /\ 1 ≤ refcount s.

#[global] Instance entity : Entity t := {| NS := "datums"; entity_wf := wf |}.

End DatumState.

Module DatumRefIncrement.

Record t := mk {
  datum_hash : Hash32;
  datum_bytes : bytes;
  was_new : bool;
}.

#[global] Instance eta_t : Eta t := fun r =>
  mk (datum_hash r) (datum_bytes r) (was_new r).

Definition new (datum_hash : Hash32) (datum_bytes : bytes) : t :=
  mk datum_hash datum_bytes false.

Section delta.
Context `{BuildCfg, Pallas}.

Definition key (d : t) : NsKey := ns_key_from DATUM_NS (datum_hash d).

Definition apply (d : t) (e : option DatumState.t) : run (t * option DatumState.t) :=
  match e with
  | Some state =>
      let d := d <| was_new := false |> in
      Ret (d, Some (state <| DatumState.refcount := saturating_add 64 (DatumState.refcount state) 1 |>))
  | None =>
      let d := d <| was_new := true |> in
      Ret (d, Some (DatumState.new (datum_bytes d)))
  end.

Definition undo (d : t) (e : option DatumState.t) : run (option DatumState.t) :=
  if was_new d then Ret None
  else
    match e with
    | Some state =>
        Ret (Some (state <| DatumState.refcount := saturating_sub 64 (DatumState.refcount state) 1 |>))
    | None => Ret None
    end.

(** The count is below the ceiling at which the increment saturates. *)
Definition below_max (e : option DatumState.t) : Prop :=
  match e with Some s => DatumState.refcount s < u_max 64 | None => True end.

#[global] Instance delta : EntityDelta t DatumState.t :=
  {| EntityDelta.key := key; EntityDelta.apply := apply; EntityDelta.undo := undo |}.

#[global] Program Instance reversible : ReversibleDelta t DatumState.t :=
  {| admissible _ e := below_max e |}.
Next Obligation. done. Qed.
Next Obligation. intros d d' e e' E. cbn in E. unfold apply in E. by run_split. Qed.
Next Obligation.
  intros d d' e e' Ha Hw E. cbn in *. unfold apply in E.
  destruct e as [s|]; run_inv; cbn in *; unfold DatumState.wf, is_u in *; cbn; [|lia].
  unfold saturating_add, u_max in *. lia.
Qed.
Next Obligation.
  intros d d' e e' Ha Hw E. cbn in *. unfold apply, undo in *.
  destruct e as [[c b]|]; run_inv; cbn in *; [|done].
  rewrite saturating_sub_add by (unfold DatumState.wf, is_u in Hw; cbn in Hw; lia). done.
Qed.

End delta.
End DatumRefIncrement.

Module DatumRefDecrement.

Record t := mk {
  datum_hash : Hash32;
  prev_state : option DatumState.t;
}.

#[global] Instance eta_t : Eta t := fun r =>
  mk (datum_hash r) (prev_state r).

Definition new (datum_hash : Hash32) : t :=
  mk datum_hash None.

Section delta.
Context `{BuildCfg, Pallas}.

Definition key (d : t) : NsKey := ns_key_from DATUM_NS (datum_hash d).

Definition apply (d : t) (e : option DatumState.t) : run (t * option DatumState.t) :=
  match e with
  | Some state =>
      let d := d <| prev_state := Some state |> in
      if DatumState.refcount state <=? 1 then Ret (d, None)
      else
        x ← usub 64 (DatumState.refcount state) 1;
        Ret (d, Some (state <| DatumState.refcount := x |>))
  | None => Ret (d, None)
  end.

Definition undo (d : t) (e : option DatumState.t) : run (option DatumState.t) :=
  Ret (prev_state d).

#[global] Instance delta : EntityDelta t DatumState.t :=
  {| EntityDelta.key := key; EntityDelta.apply := apply; EntityDelta.undo := undo |}.

#[global] Program Instance reversible : ReversibleDelta t DatumState.t :=
  {| admissible d _ := prev_state d = None |}.
Next Obligation. done. Qed.
Next Obligation. intros d d' e e' E. cbn in E. unfold apply in E. by run_split. Qed.
Next Obligation.
  intros d d' e e' Ha Hw E. cbn in *. unfold apply in E.
  destruct e as [s|]; [|by run_inv]. destruct (Z.leb_spec (DatumState.refcount s) 1); [by run_inv|].
  destruct Hw as [Hu Hp]. unfold usub in E.
  rewrite native_exact in E by (unfold is_u in *; lia). cbn in E. run_inv.
  cbn. unfold DatumState.wf, is_u in *; cbn. lia.
Qed.
Next Obligation.
  intros d d' e e' Ha Hw E. cbn in *. unfold apply, undo in *.
  destruct e as [s|]; run_split; by rewrite ?Ha.
Qed.

End delta.
End DatumRefDecrement.
