(* ===== verification/Assets.v ===== *)
(** * Native assets (cardano/src/model/assets.rs)

    Mint statistics of native assets and their two deltas. *)

From S2P Require Import Prelude Types EntityDelta.

(** ** [i128] and its big-endian bytes *)

Definition is_i128 (x : Z) : Prop := - 2 ^ 127 ≤ x < 2 ^ 127.

Definition i128_from_be_bytes (b : bytes) : Z :=
  let u := from_be_bytes b in if u <? 2 ^ 127 then u else u - 2 ^ 128.

Definition i128_to_be_bytes (x : Z) : bytes := to_be_bytes 16 (x mod 2 ^ 128).

Definition i128_saturating_add (a b : Z) : Z := Z.max (- 2 ^ 127) (Z.min (a + b) (2 ^ 127 - 1)).

Lemma i128_roundtrip x : is_i128 x -> i128_from_be_bytes (i128_to_be_bytes x) = x.
Proof.
  intros Hx. unfold i128_from_be_bytes, i128_to_be_bytes, is_i128 in *.
  rewrite from_to_be_bytes by (apply Z.mod_pos_bound; lia).
  destruct (Z.le_gt_cases 0 x).
  - rewrite Z.mod_small by lia. by rewrite (proj2 (Z.ltb_lt x (2 ^ 127))) by lia.
  - rewrite <- (Z.mod_unique x (2 ^ 128) (-1) (x + 2 ^ 128)) by lia.
    rewrite (proj2 (Z.ltb_ge (x + 2 ^ 128) (2 ^ 127))) by lia. lia.
Qed.

Module AssetState.

Record t := mk {
  quantity_bytes : bytes;
  initial_tx : option Hash32;
  initial_slot : option Z;
  mint_tx_count : Z;
  metadata_tx : option Hash32;
}.

#[global] Instance eta_t : Eta t := fun r =>
  mk (quantity_bytes r) (initial_tx r) (initial_slot r) (mint_tx_count r) (metadata_tx r).

(** [Default::default()]. *)
Definition default_ : t := mk (replicate 16 0) None None 0 None.

Definition add_quantity (a : t) (value : Z) : t :=
  let old := i128_from_be_bytes (quantity_bytes a) in
  a <| quantity_bytes := i128_to_be_bytes (i128_saturating_add old value) |>.

Definition quantity (a : t) : Z := i128_from_be_bytes (quantity_bytes a).

Definition wf (a : t) : Prop := length (quantity_bytes a) = 16%nat /\ is_u64 (mint_tx_count a).

#[global] Instance entity : Entity t := {| NS := "assets"; entity_wf := wf |}.

Lemma quantity_add a v :
  quantity (add_quantity a v) = i128_saturating_add (quantity a) v.
Proof.
  unfold quantity, add_quantity. cbn. apply i128_roundtrip.
  unfold is_i128, i128_saturating_add. lia.
Qed.

Lemma asset_wf_default : wf default_.
Proof. split; [done|]. by apply is_u_0. Qed.

End AssetState.

Lemma wf_get_or_insert_asset e : opt_wf e -> AssetState.wf (get_or_insert e AssetState.default_).
Proof. destruct e; cbn; auto using AssetState.asset_wf_default. Qed.

Definition asset_key `{Pallas} (policy : Hash28) (asset : bytes) : NsKey :=
  ns_key_from (NS AssetState.t) (blake2b_256 (policy ++ asset)).

Module MintStatsUpdate.

Record t := mk {
  policy : Hash28;
  asset : bytes;
  quantity : Z;
  seen_in_tx : Hash32;
  seen_in_slot : Z;
  was_new : bool;
  prev_quantity_bytes : bytes;
  prev_initial_slot : option Z;
  prev_initial_tx : option Hash32;
}.

#[global] Instance eta_t : Eta t := fun r =>
  mk (policy r) (asset r) (quantity r) (seen_in_tx r) (seen_in_slot r) (was_new r)
     (prev_quantity_bytes r) (prev_initial_slot r) (prev_initial_tx r).

Definition new (policy : Hash28) (asset : bytes) (quantity : Z) (seen_in_tx : Hash32)
    (seen_in_slot : Z) : t :=
  mk policy asset quantity seen_in_tx seen_in_slot false (replicate 16 0) None None.

Section delta.
Context `{BuildCfg, Pallas}.

Definition key (d : t) : NsKey := asset_key (policy d) (asset d).

Definition apply (d : t) (e : option AssetState.t) : run (t * option AssetState.t) :=
  let d := d <| was_new := is_none e |> in
  let entity := get_or_insert e AssetState.default_ in
  let d := d <| prev_quantity_bytes := AssetState.quantity_bytes entity |>
             <| prev_initial_slot := AssetState.initial_slot entity |>
             <| prev_initial_tx := AssetState.initial_tx entity |> in
  let entity := AssetState.add_quantity entity (quantity d) in
  count ← uadd 64 (AssetState.mint_tx_count entity) 1;
  let entity := entity <| AssetState.mint_tx_count := count |> in
  if seen_in_slot d <? default (u_max 64) (AssetState.initial_slot entity) then
    Ret (d, Some (entity <| AssetState.initial_slot := Some (seen_in_slot d) |>
                         <| AssetState.initial_tx := Some (seen_in_tx d) |>))
  else Ret (d, Some entity).

Definition undo (d : t) (e : option AssetState.t) : run (option AssetState.t) :=
  if was_new d then Ret None
  else
    entity ← existing e;
    let entity := entity <| AssetState.quantity_bytes := prev_quantity_bytes d |> in
    count ← usub 64 (AssetState.mint_tx_count entity) 1;
    Ret (Some (entity <| AssetState.mint_tx_count := count |>
                      <| AssetState.initial_slot := prev_initial_slot d |>
                      <| AssetState.initial_tx := prev_initial_tx d |>)).

#[global] Instance delta : EntityDelta t AssetState.t :=
  {| EntityDelta.key := key; EntityDelta.apply := apply; EntityDelta.undo := undo |}.

#[global] Program Instance reversible : ReversibleDelta t AssetState.t :=
  {| admissible _ _ := True |}.
Next Obligation. done. Qed.
Next Obligation.
  intros d d' e e' E. cbn in E. unfold apply in E. run_inv. destruct (_ <? _); by run_inv.
Qed.
Next Obligation.
  intros d d' e e' Ha Hw E. cbn in *. unfold apply in E.
  pose proof (wf_get_or_insert_asset e Hw) as [Hl Hc]. run_inv.
  destruct (_ <? _); run_inv; (split; [apply length_to_be_bytes|]); cbn; eauto with dolos.
Qed.
Next Obligation.
  intros d d' e e' Ha Hw E. cbn in *. unfold apply, undo in *. run_inv.
  destruct e as [[q i s c m]|]; cbn in *; [|destruct (_ <? _); by run_inv]. destruct Hw as [_ Hc]; cbn in Hc.
  destruct (_ <? _); run_inv; cbn; by rewrite (usub_uadd _ _ _ _ E0) by done.
Qed.

End delta.
End MintStatsUpdate.

Module MetadataTxUpdate.

Record t := mk {
  policy : Hash28;
  asset : bytes;
  metadata_tx : Hash32;
  was_new : bool;
  prev_metadata_tx : option Hash32;
}.

#[global] Instance eta_t : Eta t := fun r =>
  mk (policy r) (asset r) (metadata_tx r) (was_new r) (prev_metadata_tx r).

Definition new (policy : Hash28) (asset : bytes) (metadata_tx : Hash32) : t :=
  mk policy asset metadata_tx false None.

Section delta.
Context `{BuildCfg, Pallas}.

Definition key (d : t) : NsKey := asset_key (policy d) (asset d).

Definition apply (d : t) (e : option AssetState.t) : run (t * option AssetState.t) :=
  let d := d <| was_new := is_none e |> in
  let entity := get_or_insert e AssetState.default_ in
  let d := d <| prev_metadata_tx := AssetState.metadata_tx entity |> in
  Ret (d, Some (entity <| AssetState.metadata_tx := Some (metadata_tx d) |>)).

Definition undo (d : t) (e : option AssetState.t) : run (option AssetState.t) :=
  if was_new d then Ret None
  else
    entity ← existing e;
    Ret (Some (entity <| AssetState.metadata_tx := prev_metadata_tx d |>)).

#[global] Instance delta : EntityDelta t AssetState.t :=
  {| EntityDelta.key := key; EntityDelta.apply := apply; EntityDelta.undo := undo |}.

#[global] Program Instance reversible : ReversibleDelta t AssetState.t :=
  {| admissible _ _ := True |}.
Next Obligation. done. Qed.
Next Obligation. intros d d' e e' E. cbn in E. unfold apply in E. by run_split. Qed.
Next Obligation.
  intros d d' e e' Ha Hw E. cbn in *. unfold apply in E.
  pose proof (wf_get_or_insert_asset e Hw) as [? ?]. run_inv. by split.
Qed.
Next Obligation.
  intros d d' e e' Ha Hw E. cbn in *. unfold apply, undo in *. destruct e as [[]|]; by run_inv.
Qed.

End delta.
End MetadataTxUpdate.
