(* ===== verification/Pending.v ===== *)
(** * Pending rewards and MIRs (cardano/src/model/pending.rs)

    The queues between the reward update, the block roll and the epoch
    boundary, and their four deltas. *)

From S2P Require Import Prelude Types EntityDelta.

Definition credential_to_key `{Pallas} (cred : StakeCredential) : EntityKey :=
  entity_key_from (cbor_cred cred).

(** [iter().map(|(_, v)| v).sum::<u64>()]. *)
Definition sum_rewards `{BuildCfg} (l : list (PoolHash * Z)) : run Z :=
  run_foldl (fun acc x => uadd 64 acc (snd x)) 0 l.

Module PendingRewardState.

Record t := mk {
  credential : StakeCredential;
  is_spendable : bool;
  as_leader : list (PoolHash * Z);
  as_delegator : list (PoolHash * Z);
}.

#[global] Instance eta_t : Eta t := fun r =>
  mk (credential r) (is_spendable r) (as_leader r) (as_delegator r).

Definition total_value `{BuildCfg} (s : t) : run Z :=
  a ← sum_rewards (as_leader s);
  b ← sum_rewards (as_delegator s);
  uadd 64 a b.

Definition into_log_entries (s : t) : list (PoolHash * Z * bool) :=
  map (fun x => (fst x, snd x, true)) (as_leader s) ++
  map (fun x => (fst x, snd x, false)) (as_delegator s).

Definition wf (s : t) : Prop :=
  Forall (fun x => is_u64 (snd x)) (as_leader s) /\
  Forall (fun x => is_u64 (snd x)) (as_delegator s).

#[global] Instance entity : Entity t := {| NS := "pending_rewards"; entity_wf := wf |}.

End PendingRewardState.

Module PendingMirState.

Record t := mk {
  credential : StakeCredential;
  from_reserves : Z;
  from_treasury : Z;
}.

#[global] Instance eta_t : Eta t := fun r =>
  mk (credential r) (from_reserves r) (from_treasury r).

Definition total_value `{BuildCfg} (s : t) : run Z := uadd 64 (from_reserves s) (from_treasury s).

Definition wf (s : t) : Prop := is_u64 (from_reserves s) /\ is_u64 (from_treasury s).

#[global] Instance entity : Entity t := {| NS := "pending_mirs"; entity_wf := wf |}.

End PendingMirState.

Module EnqueueReward.

Record t := mk {
  credential : StakeCredential;
  is_spendable : bool;
  as_leader : list (PoolHash * Z);
  as_delegator : list (PoolHash * Z);
  prev : option PendingRewardState.t;
}.

#[global] Instance eta_t : Eta t := fun r =>
  mk (credential r) (is_spendable r) (as_leader r) (as_delegator r) (prev r).

Definition new (credential : StakeCredential) (is_spendable : bool) (as_leader : list (PoolHash
    * Z)) (as_delegator : list (PoolHash * Z)) : t :=
  mk credential is_spendable as_leader as_delegator None.

Section delta.
Context `{BuildCfg, Pallas}.

Definition key (d : t) : NsKey := (NS PendingRewardState.t, credential_to_key (credential d)).

Definition apply (d : t) (e : option PendingRewardState.t) : run (t * option PendingRewardState.t) :=
  let d := d <| prev := e |> in
  Ret (d, Some {|
    PendingRewardState.credential := credential d;
    PendingRewardState.is_spendable := is_spendable d;
    PendingRewardState.as_leader := as_leader d;
    PendingRewardState.as_delegator := as_delegator d;
  |}).

Definition undo (d : t) (e : option PendingRewardState.t) : run (option PendingRewardState.t) :=
  Ret (prev d).

#[global] Instance delta : EntityDelta t PendingRewardState.t :=
  {| EntityDelta.key := key; EntityDelta.apply := apply; EntityDelta.undo := undo |}.

#[global] Program Instance reversible : ReversibleDelta t PendingRewardState.t :=
  {| admissible d _ := Forall (fun x => is_u64 (snd x)) (as_leader d) /\
    Forall (fun x => is_u64 (snd x)) (as_delegator d) |}.
Next Obligation. done. Qed.
Next Obligation. intros d d' e e' E. cbn in E. unfold apply in E. by run_split. Qed.
Next Obligation.
  intros d d' e e' Ha Hw E. cbn in *. unfold apply in E.
  run_inv. exact Ha.
Qed.
Next Obligation.
  intros d d' e e' Ha Hw E. cbn in *. unfold apply, undo in *. by run_inv.
Qed.

End delta.
End EnqueueReward.

Module DequeueReward.

Record t := mk {
  credential : StakeCredential;
  prev : option PendingRewardState.t;
}.

#[global] Instance eta_t : Eta t := fun r =>
  mk (credential r) (prev r).

Definition new (credential : StakeCredential) : t :=
  mk credential None.

Section delta.
Context `{BuildCfg, Pallas}.

Definition key (d : t) : NsKey := (NS PendingRewardState.t, credential_to_key (credential d)).

Definition apply (d : t) (e : option PendingRewardState.t) : run (t * option PendingRewardState.t) :=
  Ret (d <| prev := e |>, None).

Definition undo (d : t) (e : option PendingRewardState.t) : run (option PendingRewardState.t) :=
  Ret (prev d).

#[global] Instance delta : EntityDelta t PendingRewardState.t :=
  {| EntityDelta.key := key; EntityDelta.apply := apply; EntityDelta.undo := undo |}.

#[global] Program Instance reversible : ReversibleDelta t PendingRewardState.t :=
  {| admissible _ _ := True |}.
Next Obligation. done. Qed.
Next Obligation. intros d d' e e' E. cbn in E. unfold apply in E. by run_split. Qed.
Next Obligation.
  intros d d' e e' Ha Hw E. cbn in *. unfold apply in E.
  by run_inv.
Qed.
Next Obligation.
  intros d d' e e' Ha Hw E. cbn in *. unfold apply, undo in *. by run_inv.
Qed.

End delta.
End DequeueReward.

Module EnqueueMir.

Record t := mk {
  credential : StakeCredential;
  from_reserves : Z;
  from_treasury : Z;
  overwrite : bool;
  prev : option PendingMirState.t;
}.

#[global] Instance eta_t : Eta t := fun r =>
  mk (credential r) (from_reserves r) (from_treasury r) (overwrite r) (prev r).

Definition new (credential : StakeCredential) (from_reserves : Z) (from_treasury : Z)
    (overwrite : bool) : t :=
  mk credential from_reserves from_treasury overwrite None.

Definition from_reserves_ (credential : StakeCredential) (amount : Z) (overwrite : bool) : t :=
  new credential amount 0 overwrite.

Definition from_treasury_ (credential : StakeCredential) (amount : Z) (overwrite : bool) : t :=
  new credential 0 amount overwrite.

Section delta.
Context `{BuildCfg, Pallas}.

Definition key (d : t) : NsKey := (NS PendingMirState.t, credential_to_key (credential d)).

Definition apply (d : t) (e : option PendingMirState.t) : run (t * option PendingMirState.t) :=
  let d := d <| prev := e |> in
  let fresh := {|
    PendingMirState.credential := credential d;
    PendingMirState.from_reserves := from_reserves d;
    PendingMirState.from_treasury := from_treasury d;
  |} in
  if overwrite d then Ret (d, Some fresh)
  else
    match e with
    | Some existing =>
        r ← uadd 64 (PendingMirState.from_reserves existing) (from_reserves d);
        t ← uadd 64 (PendingMirState.from_treasury existing) (from_treasury d);
        Ret (d, Some (existing <| PendingMirState.from_reserves := r |>
                               <| PendingMirState.from_treasury := t |>))
    | None => Ret (d, Some fresh)
    end.

Definition undo (d : t) (e : option PendingMirState.t) : run (option PendingMirState.t) :=
  Ret (prev d).

#[global] Instance delta : EntityDelta t PendingMirState.t :=
  {| EntityDelta.key := key; EntityDelta.apply := apply; EntityDelta.undo := undo |}.

#[global] Program Instance reversible : ReversibleDelta t PendingMirState.t :=
  {| admissible d _ := is_u64 (from_reserves d) /\ is_u64 (from_treasury d) |}.
Next Obligation. done. Qed.
Next Obligation. intros d d' e e' E. cbn in E. unfold apply in E. by run_split. Qed.
Next Obligation.
  intros d d' e e' Ha Hw E. cbn in *. unfold apply in E.
  run_split; try exact Ha. unfold PendingMirState.wf; cbn. eauto with dolos.
Qed.
Next Obligation.
  intros d d' e e' Ha Hw E. cbn in *. unfold apply, undo in *. by run_split.
Qed.

End delta.
End EnqueueMir.

Module DequeueMir.

Record t := mk {
  credential : StakeCredential;
  prev : option PendingMirState.t;
}.

#[global] Instance eta_t : Eta t := fun r =>
  mk (credential r) (prev r).

Definition new (credential : StakeCredential) : t :=
  mk credential None.

Section delta.
Context `{BuildCfg, Pallas}.

Definition key (d : t) : NsKey := (NS PendingMirState.t, credential_to_key (credential d)).

Definition apply (d : t) (e : option PendingMirState.t) : run (t * option PendingMirState.t) :=
  Ret (d <| prev := e |>, None).

Definition undo (d : t) (e : option PendingMirState.t) : run (option PendingMirState.t) :=
  Ret (prev d).

#[global] Instance delta : EntityDelta t PendingMirState.t :=
  {| EntityDelta.key := key; EntityDelta.apply := apply; EntityDelta.undo := undo |}.

#[global] Program Instance reversible : ReversibleDelta t PendingMirState.t :=
  {| admissible _ _ := True |}.
Next Obligation. done. Qed.
Next Obligation. intros d d' e e' E. cbn in E. unfold apply in E. by run_split. Qed.
Next Obligation.
  intros d d' e e' Ha Hw E. cbn in *. unfold apply in E.
  by run_inv.
Qed.
Next Obligation.
  intros d d' e e' Ha Hw E. cbn in *. unfold apply, undo in *. by run_inv.
Qed.

End delta.
End DequeueMir.
