(* ===== verification/Epochs.v ===== *)
(** * The epoch state (cardano/src/model/epochs.rs)

    Nonces, rolling and end-of-epoch statistics, the shard cursors of the
    epoch-boundary pipelines, the singleton epoch entity and its thirteen
    deltas. *)

From S2P Require Import Prelude Types EpochValue EntityDelta Eras PParams Forks Ratio Pots.
Open Scope Z_scope.
#[local] Obligation Tactic := idtac.

Definition CURRENT_EPOCH_KEY : bytes := [48].

Module Nonces.

Record t := mk {
  active : Hash32;
  evolving : Hash32;
  candidate : Hash32;
  tail : option Hash32;
}.

#[global] Instance eta_t : Eta t := fun r =>
  mk (active r) (evolving r) (candidate r) (tail r).

Definition bootstrap (shelley_hash : Hash32) : t :=
  mk shelley_hash shelley_hash shelley_hash None.

Definition roll `{Pallas} (n : t) (update_candidate : bool) (nonce_vrf_output : bytes)
    (tail : option Hash32) : t :=
  let evolving' := generate_rolling_nonce (evolving n) nonce_vrf_output in
  {| active := active n;
     evolving := evolving';
     candidate := if update_candidate then evolving' else candidate n;
     tail := tail |}.

Definition sweep `{Pallas} (n : t) (previous_tail : option Hash32) (extra_entropy : option bytes) : t :=
  {| active := match previous_tail with
               | Some tail => generate_epoch_nonce (candidate n) tail extra_entropy
               | None => candidate n
               end;
     candidate := evolving n;
     evolving := evolving n;
     tail := tail n |}.

End Nonces.

Module RollingStats.

Record t := mk {
  produced_utxos : Z;
  consumed_utxos : Z;
  gathered_fees : Z;
  new_accounts : Z;
  removed_accounts : Z;
  withdrawals : Z;
  registered_pools : gset PoolHash;
  blocks_minted : Z;
  drep_deposits : Z;
  proposal_deposits : Z;
  drep_refunds : Z;
  proposal_refunds_ : Z;
  treasury_donations : Z;
  reserve_mirs : Z;
  non_overlay_blocks_minted : Z;
  treasury_mirs : Z;
  tx_count : Z;
  output : Z;
  first_block_slot : Z;
  last_block_slot : Z;
}.

#[global] Instance eta_t : Eta t := fun r =>
  mk (produced_utxos r) (consumed_utxos r) (gathered_fees r) (new_accounts r) (removed_accounts
     r) (withdrawals r) (registered_pools r) (blocks_minted r) (drep_deposits r)
     (proposal_deposits r) (drep_refunds r) (proposal_refunds_ r) (treasury_donations r)
     (reserve_mirs r) (non_overlay_blocks_minted r) (treasury_mirs r) (tx_count r) (output r)
     (first_block_slot r) (last_block_slot r).

Definition default_ : t :=
  mk 0 0 0 0 0 0 ∅ 0 0 0 0 0 0 0 0 0 0 0 0 0.

#[global] Instance transition_default : TransitionDefault t := fun _ => Ret (Some default_).

Definition wf (s : t) : Prop :=
  is_u 64 (produced_utxos s) /\
  is_u 64 (consumed_utxos s) /\
  is_u 64 (gathered_fees s) /\
  is_u 64 (new_accounts s) /\
  is_u 64 (removed_accounts s) /\
  is_u 64 (withdrawals s) /\
  is_u 32 (blocks_minted s) /\
  is_u 64 (drep_deposits s) /\
  is_u 64 (proposal_deposits s) /\
  is_u 64 (drep_refunds s) /\
  is_u 64 (proposal_refunds_ s) /\
  is_u 64 (treasury_donations s) /\
  is_u 64 (reserve_mirs s) /\
  is_u 32 (non_overlay_blocks_minted s) /\
  is_u 64 (treasury_mirs s) /\
  is_u 64 (tx_count s) /\
  is_u 128 (output s) /\
  is_u 64 (first_block_slot s) /\
  is_u 64 (last_block_slot s).

Lemma rolling_wf_default : wf default_.
Proof. unfold wf; cbn. split_and!; by apply is_u_0. Qed.

Lemma next_value_wf o x :
  EpochValue.slot_wf wf o -> next_value o = Ret x -> EpochValue.slot_wf wf x.
Proof. intros _ [= <-]. exact rolling_wf_default. Qed.

End RollingStats.

Module EndStats.

Record t := mk {
  pool_deposit_count : Z;
  pool_refund_count : Z;
  pool_invalid_refund_count : Z;
  epoch_incentives : EpochIncentives.t;
  effective_rewards : Z;
  unspendable_to_treasury : Z;
  unspendable_to_reserves : Z;
  treasury_mirs : Z;
  reserve_mirs : Z;
  invalid_treasury_mirs : Z;
  invalid_reserve_mirs : Z;
  treasury_withdrawals : Z;
  invalid_treasury_withdrawals : Z;
  proposal_invalid_refunds : Z;
  proposal_refunds : Z;
  drep_deposits_ : Z;
  drep_refunds_ : Z;
}.

#[global] Instance eta_t : Eta t := fun r =>
  mk (pool_deposit_count r) (pool_refund_count r) (pool_invalid_refund_count r)
     (epoch_incentives r) (effective_rewards r) (unspendable_to_treasury r)
     (unspendable_to_reserves r) (treasury_mirs r) (reserve_mirs r) (invalid_treasury_mirs r)
     (invalid_reserve_mirs r) (treasury_withdrawals r) (invalid_treasury_withdrawals r)
     (proposal_invalid_refunds r) (proposal_refunds r) (drep_deposits_ r) (drep_refunds_ r).

Definition default_ : t :=
  mk 0 0 0 EpochIncentives.default_ 0 0 0 0 0 0 0 0 0 0 0 0 0.

(** The accumulators the sharded reward distribution writes. *)
Definition wf (s : t) : Prop :=
  is_u64 (effective_rewards s) /\ is_u64 (unspendable_to_treasury s) /\
  is_u64 (unspendable_to_reserves s).

Lemma end_wf_default : wf default_.
Proof. unfold wf; cbn. split_and!; by apply is_u_0. Qed.

End EndStats.

Module ShardProgress.

Record t := mk {
  committed : Z;
  total : Z;
}.

Definition default_ : t := mk 0 0.

(** The cursor is within the boundary's shard count. *)
Definition wf (p : t) : Prop := 1 ≤ committed p ≤ total p /\ is_u32 (total p).

End ShardProgress.

Module EpochState.

Record t := mk {
  number : Epoch;
  initial_pots : Pots.t;
  rolling : EpochValue.t RollingStats.t;
  pparams : EpochValue.t PParamsSet.t;
  largest_stable_slot : BlockSlot;
  previous_nonce_tail : option Hash32;
  nonces : option Nonces.t;
  end_ : option EndStats.t;
  incentives : option EpochIncentives.t;
  ewrap_progress : option ShardProgress.t;
  estart_progress : option ShardProgress.t;
  rupd_progress : option ShardProgress.t;
}.

#[global] Instance eta_t : Eta t := fun r =>
  mk (number r) (initial_pots r) (rolling r) (pparams r) (largest_stable_slot r)
     (previous_nonce_tail r) (nonces r) (end_ r) (incentives r) (ewrap_progress r)
     (estart_progress r) (rupd_progress r).

Definition default_ : t := {|
  number := 0;
  initial_pots := Pots.default_;
  rolling := EpochValue.new 0;
  pparams := EpochValue.new 0;
  largest_stable_slot := 0;
  previous_nonce_tail := None;
  nonces := None;
  end_ := None;
  incentives := None;
  ewrap_progress := None;
  estart_progress := None;
  rupd_progress := None;
|}.

Definition opt {A} (P : A -> Prop) (o : option A) : Prop :=
  match o with Some x => P x | None => True end.

(** Integers are in range, the parameters have one value per kind, and each
    cursor is within its shard count. *)
Definition wf (s : t) : Prop :=
  is_u64 (number s) /\
  EpochValue.wf RollingStats.wf (rolling s) /\
  EpochValue.wf PParamsSet.wf (pparams s) /\
  opt EndStats.wf (end_ s) /\
  opt ShardProgress.wf (ewrap_progress s) /\
  opt ShardProgress.wf (estart_progress s) /\
  opt ShardProgress.wf (rupd_progress s).

#[global] Instance entity : Entity t := {| NS := "epochs"; entity_wf := wf |}.

(** [SingletonEntity::ns_key]. *)
Definition ns_key : NsKey := (NS t, entity_key_from CURRENT_EPOCH_KEY).

End EpochState.

Lemma wf_rolling_scheduled `{BuildCfg} v x f :
  EpochValue.wf RollingStats.wf v -> EpochValue.scheduled_or_default v = Ret (x, f) ->
  EpochValue.wf RollingStats.wf (f x).
Proof.
  intros Hv E. edestruct (EpochValue.wf_scheduled RollingStats.wf) as [Hx Hf];
    [apply RollingStats.next_value_wf|done..|]. by apply Hf.
Qed.

Lemma wf_pparams_scheduled `{BuildCfg} v x f :
  EpochValue.wf PParamsSet.wf v -> EpochValue.scheduled_or_default v = Ret (x, f) ->
  PParamsSet.wf x /\ forall x', PParamsSet.wf x' -> EpochValue.wf PParamsSet.wf (f x').
Proof.
  intros Hv E. eapply EpochValue.wf_scheduled; [|done..]. intros o y Ho [= <-]. exact Ho.
Qed.

Lemma wf_rolling_transition `{BuildCfg} v e v' :
  EpochValue.wf RollingStats.wf v -> EpochValue.default_transition v e = Ret v' ->
  EpochValue.wf RollingStats.wf v'.
Proof. intros. eapply EpochValue.wf_default_transition; [apply RollingStats.next_value_wf|done..]. Qed.

Ltac split_epoch e := destruct e as [[]|]; cbn in *.

(** Splits the well-formedness of an epoch state and rebuilds it field by
    field. *)
Ltac epoch_wf Hw :=
  destruct Hw as (? & ? & ? & ? & ? & ? & ?); unfold EpochState.wf, EpochState.opt in *; cbn in *;
  split_and!; try done.

Lemma wf_epoch_rolling s v :
  EpochState.wf s -> EpochValue.wf RollingStats.wf v ->
  EpochState.wf (s <| EpochState.rolling := v |>).
Proof. unfold EpochState.wf; cbn; tauto. Qed.

Lemma wf_get_or_insert_stats v :
  EpochValue.wf RollingStats.wf v ->
  RollingStats.wf (get_or_insert (EpochValue.f_live v) RollingStats.default_).
Proof.
  intros (_ & _ & Hl & _). destruct (EpochValue.f_live v); [exact Hl|apply RollingStats.rolling_wf_default].
Qed.

(** Undoes every native addition whose result a subtraction of the goal
    starts from. *)
Ltac rewrite_undo :=
  repeat match goal with
  | H : uadd ?w ?x ?c = Ret ?y |- context [usub ?w ?y ?c] =>
      rewrite (usub_uadd w x c y H) by first [done | u_range | lia]; cbn
  end.

(** [i64::unsigned_abs]. *)
Definition unsigned_abs (x : Z) : Z := Z.abs x.

Module EpochStatsUpdate.

Record t := mk {
  epoch : Epoch;
  block_fees : Z;
  utxo_delta : Z;
  new_accounts : Z;
  removed_accounts : Z;
  withdrawals : Z;
  registered_pools : gset PoolHash;
  drep_deposits : Z;
  proposal_deposits : Z;
  drep_refunds : Z;
  treasury_donations : Z;
  reserve_mirs : Z;
  treasury_mirs : Z;
  non_overlay_blocks_minted : Z;
  tx_count : Z;
  output : Z;
  block_slot : Z;
  was_new : bool;
  prev_registered_pools : gset PoolHash;
  prev_first_block_slot : Z;
  prev_last_block_slot : Z;
}.

#[global] Instance eta_t : Eta t := fun r =>
  mk (epoch r) (block_fees r) (utxo_delta r) (new_accounts r) (removed_accounts r) (withdrawals
     r) (registered_pools r) (drep_deposits r) (proposal_deposits r) (drep_refunds r)
     (treasury_donations r) (reserve_mirs r) (treasury_mirs r) (non_overlay_blocks_minted r)
     (tx_count r) (output r) (block_slot r) (was_new r) (prev_registered_pools r)
     (prev_first_block_slot r) (prev_last_block_slot r).

Definition new (epoch : Epoch) (block_fees : Z) (utxo_delta : Z) (new_accounts : Z)
    (removed_accounts : Z) (withdrawals : Z) (registered_pools : gset PoolHash) (drep_deposits
    : Z) (proposal_deposits : Z) (drep_refunds : Z) (treasury_donations : Z) (reserve_mirs : Z)
    (treasury_mirs : Z) (non_overlay_blocks_minted : Z) (tx_count : Z) (output : Z) (block_slot
    : Z) : t :=
  mk epoch block_fees utxo_delta new_accounts removed_accounts withdrawals registered_pools
     drep_deposits proposal_deposits drep_refunds treasury_donations reserve_mirs treasury_mirs
     non_overlay_blocks_minted tx_count output block_slot false ∅ 0 0.

Section delta.
Context `{BuildCfg, Pallas}.

(** The integers of the delta are in range. *)
Definition in_range (d : t) : Prop :=
  is_u 64 (block_fees d) /\
  is_u 64 (new_accounts d) /\
  is_u 64 (removed_accounts d) /\
  is_u 64 (withdrawals d) /\
  is_u 64 (drep_deposits d) /\
  is_u 64 (proposal_deposits d) /\
  is_u 64 (drep_refunds d) /\
  is_u 64 (treasury_donations d) /\
  is_u 64 (reserve_mirs d) /\
  is_u 64 (treasury_mirs d) /\
  is_u 32 (non_overlay_blocks_minted d) /\
  is_u 64 (tx_count d) /\
  is_u 128 (output d) /\
  is_u 64 (block_slot d) /\
  is_u64 (unsigned_abs (utxo_delta d)).

(** The statistics of the epoch with one more block. *)
Definition add_block (d : t) (stats : RollingStats.t) : run RollingStats.t :=
  blocks ← uadd 32 (RollingStats.blocks_minted stats) 1;
  produced ← (if 0 <? utxo_delta d then uadd 64 (RollingStats.produced_utxos stats) (unsigned_abs (utxo_delta d))
              else Ret (RollingStats.produced_utxos stats));
  consumed ← (if 0 <? utxo_delta d then Ret (RollingStats.consumed_utxos stats)
              else uadd 64 (RollingStats.consumed_utxos stats) (unsigned_abs (utxo_delta d)));
  x_gathered_fees ← uadd 64 (RollingStats.gathered_fees stats) (block_fees d);
  x_new_accounts ← uadd 64 (RollingStats.new_accounts stats) (new_accounts d);
  x_removed_accounts ← uadd 64 (RollingStats.removed_accounts stats) (removed_accounts d);
  x_withdrawals ← uadd 64 (RollingStats.withdrawals stats) (withdrawals d);
  x_proposal_deposits ← uadd 64 (RollingStats.proposal_deposits stats) (proposal_deposits d);
  x_drep_deposits ← uadd 64 (RollingStats.drep_deposits stats) (drep_deposits d);
  x_drep_refunds ← uadd 64 (RollingStats.drep_refunds stats) (drep_refunds d);
  x_treasury_donations ← uadd 64 (RollingStats.treasury_donations stats) (treasury_donations d);
  x_reserve_mirs ← uadd 64 (RollingStats.reserve_mirs stats) (reserve_mirs d);
  x_treasury_mirs ← uadd 64 (RollingStats.treasury_mirs stats) (treasury_mirs d);
  x_non_overlay_blocks_minted ← uadd 32 (RollingStats.non_overlay_blocks_minted stats) (non_overlay_blocks_minted d);
  x_tx_count ← uadd 64 (RollingStats.tx_count stats) (tx_count d);
  x_output ← uadd 128 (RollingStats.output stats) (output d);
  Ret {|
    RollingStats.produced_utxos := produced;
    RollingStats.consumed_utxos := consumed;
    RollingStats.gathered_fees := x_gathered_fees;
    RollingStats.new_accounts := x_new_accounts;
    RollingStats.removed_accounts := x_removed_accounts;
    RollingStats.withdrawals := x_withdrawals;
    RollingStats.registered_pools := RollingStats.registered_pools stats ∪ registered_pools d;
    RollingStats.blocks_minted := blocks;
    RollingStats.drep_deposits := x_drep_deposits;
    RollingStats.proposal_deposits := x_proposal_deposits;
    RollingStats.drep_refunds := x_drep_refunds;
    RollingStats.proposal_refunds_ := RollingStats.proposal_refunds_ stats;
    RollingStats.treasury_donations := x_treasury_donations;
    RollingStats.reserve_mirs := x_reserve_mirs;
    RollingStats.non_overlay_blocks_minted := x_non_overlay_blocks_minted;
    RollingStats.treasury_mirs := x_treasury_mirs;
    RollingStats.tx_count := x_tx_count;
    RollingStats.output := x_output;
    RollingStats.first_block_slot := if RollingStats.first_block_slot stats =? 0 then block_slot d
                                      else RollingStats.first_block_slot stats;
    RollingStats.last_block_slot := block_slot d;
  |}.

(** The statistics of the epoch with the block taken back. *)
Definition remove_block (d : t) (stats : RollingStats.t) : run RollingStats.t :=
  blocks ← usub 32 (RollingStats.blocks_minted stats) 1;
  produced ← (if 0 <? utxo_delta d then usub 64 (RollingStats.produced_utxos stats) (unsigned_abs (utxo_delta d))
              else Ret (RollingStats.produced_utxos stats));
  consumed ← (if 0 <? utxo_delta d then Ret (RollingStats.consumed_utxos stats)
              else usub 64 (RollingStats.consumed_utxos stats) (unsigned_abs (utxo_delta d)));
  x_gathered_fees ← usub 64 (RollingStats.gathered_fees stats) (block_fees d);
  x_new_accounts ← usub 64 (RollingStats.new_accounts stats) (new_accounts d);
  x_removed_accounts ← usub 64 (RollingStats.removed_accounts stats) (removed_accounts d);
  x_withdrawals ← usub 64 (RollingStats.withdrawals stats) (withdrawals d);
  x_proposal_deposits ← usub 64 (RollingStats.proposal_deposits stats) (proposal_deposits d);
  x_drep_deposits ← usub 64 (RollingStats.drep_deposits stats) (drep_deposits d);
  x_drep_refunds ← usub 64 (RollingStats.drep_refunds stats) (drep_refunds d);
  x_treasury_donations ← usub 64 (RollingStats.treasury_donations stats) (treasury_donations d);
  x_reserve_mirs ← usub 64 (RollingStats.reserve_mirs stats) (reserve_mirs d);
  x_treasury_mirs ← usub 64 (RollingStats.treasury_mirs stats) (treasury_mirs d);
  x_non_overlay_blocks_minted ← usub 32 (RollingStats.non_overlay_blocks_minted stats) (non_overlay_blocks_minted d);
  x_tx_count ← usub 64 (RollingStats.tx_count stats) (tx_count d);
  x_output ← usub 128 (RollingStats.output stats) (output d);
  Ret {|
    RollingStats.produced_utxos := produced;
    RollingStats.consumed_utxos := consumed;
    RollingStats.gathered_fees := x_gathered_fees;
    RollingStats.new_accounts := x_new_accounts;
    RollingStats.removed_accounts := x_removed_accounts;
    RollingStats.withdrawals := x_withdrawals;
    RollingStats.registered_pools := prev_registered_pools d;
    RollingStats.blocks_minted := blocks;
    RollingStats.drep_deposits := x_drep_deposits;
    RollingStats.proposal_deposits := x_proposal_deposits;
    RollingStats.drep_refunds := x_drep_refunds;
    RollingStats.proposal_refunds_ := RollingStats.proposal_refunds_ stats;
    RollingStats.treasury_donations := x_treasury_donations;
    RollingStats.reserve_mirs := x_reserve_mirs;
    RollingStats.non_overlay_blocks_minted := x_non_overlay_blocks_minted;
    RollingStats.treasury_mirs := x_treasury_mirs;
    RollingStats.tx_count := x_tx_count;
    RollingStats.output := x_output;
    RollingStats.first_block_slot := prev_first_block_slot d;
    RollingStats.last_block_slot := prev_last_block_slot d;
  |}.

Lemma wf_add_block d s s' :
  in_range d -> RollingStats.wf s -> add_block d s = Ret s' -> RollingStats.wf s'.
Proof.
  intros (?&?&?&?&?&?&?&?&?&?&?&?&?&?&?) Hs E. unfold add_block in E. run_inv.
  unfold RollingStats.wf in *; cbn. destruct_and!.
  destruct (0 <? utxo_delta d); run_inv; split_and!; try u_range; by destruct (_ =? 0).
Qed.

Lemma remove_add_block d s s' :
  in_range d -> RollingStats.wf s ->
  prev_registered_pools d = RollingStats.registered_pools s ->
  prev_first_block_slot d = RollingStats.first_block_slot s ->
  prev_last_block_slot d = RollingStats.last_block_slot s ->
  add_block d s = Ret s' -> remove_block d s' = Ret s.
Proof.
  intros (?&?&?&?&?&?&?&?&?&?&?&?&?&?&?) Hs Hp Hf Hl E. unfold add_block in E. run_inv.
  unfold RollingStats.wf in Hs. destruct_and!. unfold remove_block. cbn.
  rewrite Hp, Hf, Hl. rewrite_undo.
  destruct (0 <? utxo_delta d); run_inv; cbn; rewrite_undo; by destruct s.
Qed.

Definition key (d : t) : NsKey := EpochState.ns_key.

Definition apply (d : t) (e : option EpochState.t) : run (t * option EpochState.t) :=
  entity ← existing e;
  '(live_slot, put) ← EpochValue.live_mut (EpochState.rolling entity) (epoch d);
  let d := d <| was_new := is_none live_slot |> in
  let stats := get_or_insert live_slot RollingStats.default_ in
  let d := d <| prev_registered_pools := RollingStats.registered_pools stats |>
             <| prev_first_block_slot := RollingStats.first_block_slot stats |>
             <| prev_last_block_slot := RollingStats.last_block_slot stats |> in
  stats' ← add_block d stats;
  Ret (d, Some (entity <| EpochState.rolling := put (Some stats') |>)).

Definition undo (d : t) (e : option EpochState.t) : run (option EpochState.t) :=
  entity ← existing e;
  '(live_slot, put) ← EpochValue.live_mut (EpochState.rolling entity) (epoch d);
  if was_new d then Ret (Some (entity <| EpochState.rolling := put None |>))
  else
    stats ← expect live_slot;
    stats' ← remove_block d stats;
    Ret (Some (entity <| EpochState.rolling := put (Some stats') |>)).

#[global] Instance delta : EntityDelta t EpochState.t :=
  {| EntityDelta.key := key; EntityDelta.apply := apply; EntityDelta.undo := undo |}.

#[global] Program Instance reversible : ReversibleDelta t EpochState.t :=
  {| admissible d _ := in_range d |}.
Next Obligation. done. Qed.
Next Obligation. reflexivity. Qed.
Next Obligation.
  intros d d' e e' Ha Hw E. cbn in *. unfold apply in E.
  run_inv. apply wf_epoch_rolling; [done|]. unfold EpochValue.live_mut in *. run_inv.
  apply EpochValue.wf_set_live; [apply Hw|]. eapply wf_add_block; [| |done]; [done|].
  by apply wf_get_or_insert_stats, Hw.
Qed.
Next Obligation.
  intros d d' e e' Ha Hw E. cbn in *. unfold apply in E. run_inv.
  destruct Hw as (_ & Hr & _). destruct (EpochValue.live_mut_write_back _ _ _ _ (Some a0) E1)
    as (Hl & put' & E' & Hput).
  unfold undo. cbn. rewrite E'. cbn. destruct o as [s|]; cbn in *; [|by rewrite Hput; destruct a].
  assert (RollingStats.wf s) by (by eapply EpochValue.wf_live).
  erewrite remove_add_block by done. cbn. rewrite Hput. by destruct a.
Qed.

End delta.
End EpochStatsUpdate.

Module NoncesUpdate.

Record t := mk {
  slot : Z;
  tail : option Hash32;
  nonce_vrf_output : bytes;
  previous : option Nonces.t;
}.

#[global] Instance eta_t : Eta t := fun r =>
  mk (slot r) (tail r) (nonce_vrf_output r) (previous r).

Definition new (slot : Z) (tail : option Hash32) (nonce_vrf_output : bytes) : t :=
  mk slot tail nonce_vrf_output None.

Section delta.
Context `{BuildCfg, Pallas}.

Definition key (d : t) : NsKey := EpochState.ns_key.

Definition apply (d : t) (e : option EpochState.t) : run (t * option EpochState.t) :=
  match e with
  | None => Ret (d, None)
  | Some entity =>
      match EpochState.nonces entity with
      | Some nonces =>
          let d := d <| previous := Some nonces |> in
          Ret (d, Some (entity <| EpochState.nonces :=
            Some (Nonces.roll nonces (slot d <? EpochState.largest_stable_slot entity)
                    (nonce_vrf_output d) (tail d)) |>))
      | None => Ret (d, e)
      end
  end.

Definition undo (d : t) (e : option EpochState.t) : run (option EpochState.t) :=
  match e with
  | None => Ret None
  | Some entity =>
      if is_none (previous d) then Ret e
      else Ret (Some (entity <| EpochState.nonces := previous d |>))
  end.

#[global] Instance delta : EntityDelta t EpochState.t :=
  {| EntityDelta.key := key; EntityDelta.apply := apply; EntityDelta.undo := undo |}.

#[global] Program Instance reversible : ReversibleDelta t EpochState.t :=
  {| admissible d _ := previous d = None |}.
Next Obligation. done. Qed.
Next Obligation. reflexivity. Qed.
Next Obligation.
  intros d d' e e' Ha Hw E. cbn in *. unfold apply in E.
  destruct e as [s|]; run_split; done.
Qed.
Next Obligation.
  intros d d' e e' Ha Hw E. cbn in *. unfold apply, undo in *.
  destruct e as [s|]; run_split; rewrite ?Ha; cbn; try done. destruct s; cbn in *; by subst.
Qed.

End delta.
End NoncesUpdate.

Module PParamsUpdate.

Record t := mk {
  to_update : PParamsSet.t;
  prev_pparams : option (EpochValue.t PParamsSet.t);
}.

#[global] Instance eta_t : Eta t := fun r =>
  mk (to_update r) (prev_pparams r).

Definition new (to_update : PParamsSet.t) : t :=
  mk to_update None.

Section delta.
Context `{BuildCfg, Pallas}.

Definition key (d : t) : NsKey := EpochState.ns_key.

Definition apply (d : t) (e : option EpochState.t) : run (t * option EpochState.t) :=
  entity ← existing e;
  let d := d <| prev_pparams := Some (EpochState.pparams entity) |> in
  '(next, put) ← EpochValue.scheduled_or_default (EpochState.pparams entity);
  Ret (d, Some (entity <| EpochState.pparams := put (PParamsSet.merge next (to_update d)) |>)).

Definition undo (d : t) (e : option EpochState.t) : run (option EpochState.t) :=
  entity ← existing e;
  prev ← expect (prev_pparams d);
  Ret (Some (entity <| EpochState.pparams := prev |>)).

#[global] Instance delta : EntityDelta t EpochState.t :=
  {| EntityDelta.key := key; EntityDelta.apply := apply; EntityDelta.undo := undo |}.

#[global] Program Instance reversible : ReversibleDelta t EpochState.t :=
  {| admissible _ _ := True |}.
Next Obligation. done. Qed.
Next Obligation. intros d d' e e' E. cbn in E. unfold apply in E. by run_split. Qed.
Next Obligation.
  intros d d' e e' Ha Hw E. cbn in *. unfold apply in E.
  run_split. assert (Hp := Hw). epoch_wf Hw. edestruct wf_pparams_scheduled as [Hx Hf]; [|done|]; [apply Hp|].
  by apply Hf, PParamsSet.wf_merge.
Qed.
Next Obligation.
  intros d d' e e' Ha Hw E. cbn in *. unfold apply, undo in *. split_epoch e; undo_solve.
Qed.

End delta.
End PParamsUpdate.

(** The legacy variant, kept for the WAL. *)
Module EpochWrapUp.

Record t := mk {
  stats : EndStats.t;
  prev_rolling : option (EpochValue.t RollingStats.t);
  prev_pparams : option (EpochValue.t PParamsSet.t);
  prev_end : option EndStats.t;
}.

#[global] Instance eta_t : Eta t := fun r =>
  mk (stats r) (prev_rolling r) (prev_pparams r) (prev_end r).

Definition new (stats : EndStats.t) : t :=
  mk stats None None None.

Section delta.
Context `{BuildCfg, Pallas}.

Definition key (d : t) : NsKey := EpochState.ns_key.

Definition apply (d : t) (e : option EpochState.t) : run (t * option EpochState.t) :=
  entity ← existing e;
  let d := d <| prev_rolling := Some (EpochState.rolling entity) |>
             <| prev_pparams := Some (EpochState.pparams entity) |>
             <| prev_end := EpochState.end_ entity |> in
  rolling' ← EpochValue.ensure_scheduled (EpochState.rolling entity);
  pparams' ← EpochValue.ensure_scheduled (EpochState.pparams entity);
  Ret (d, Some (entity <| EpochState.rolling := rolling' |>
                       <| EpochState.pparams := pparams' |>
                       <| EpochState.end_ := Some (stats d) |>)).

Definition undo (d : t) (e : option EpochState.t) : run (option EpochState.t) :=
  entity ← existing e;
  rolling' ← expect (prev_rolling d);
  pparams' ← expect (prev_pparams d);
  Ret (Some (entity <| EpochState.rolling := rolling' |>
                    <| EpochState.pparams := pparams' |>
                    <| EpochState.end_ := prev_end d |>)).

#[global] Instance delta : EntityDelta t EpochState.t :=
  {| EntityDelta.key := key; EntityDelta.apply := apply; EntityDelta.undo := undo |}.

#[global] Program Instance reversible : ReversibleDelta t EpochState.t :=
  {| admissible d _ := EndStats.wf (stats d) |}.
Next Obligation. done. Qed.
Next Obligation. intros d d' e e' E. cbn in E. unfold apply in E. by run_split. Qed.
Next Obligation.
  intros d d' e e' Ha Hw E. cbn in *. unfold apply in E.
  run_inv. unfold EpochValue.ensure_scheduled in *. run_inv. epoch_wf Hw.
  - by eapply wf_rolling_scheduled.
  - cbn. edestruct wf_pparams_scheduled as [Hx Hf]; [done..|]. by apply Hf.
Qed.
Next Obligation.
  intros d d' e e' Ha Hw E. cbn in *. unfold apply, undo in *. split_epoch e; undo_solve.
Qed.

End delta.
End EpochWrapUp.

(** The second legacy variant: it clears [ewrap_progress]. *)
Module EpochWrapUpV2.

Record t := mk {
  stats : EndStats.t;
  prev_rolling : option (EpochValue.t RollingStats.t);
  prev_pparams : option (EpochValue.t PParamsSet.t);
  prev_end : option EndStats.t;
  prev_ewrap_progress : option ShardProgress.t;
}.

#[global] Instance eta_t : Eta t := fun r =>
  mk (stats r) (prev_rolling r) (prev_pparams r) (prev_end r) (prev_ewrap_progress r).

Definition new (stats : EndStats.t) : t :=
  mk stats None None None None.

Section delta.
Context `{BuildCfg, Pallas}.

Definition key (d : t) : NsKey := EpochState.ns_key.

Definition apply (d : t) (e : option EpochState.t) : run (t * option EpochState.t) :=
  entity ← existing e;
  let d := d <| prev_rolling := Some (EpochState.rolling entity) |>
             <| prev_pparams := Some (EpochState.pparams entity) |>
             <| prev_end := EpochState.end_ entity |>
             <| prev_ewrap_progress := EpochState.ewrap_progress entity |> in
  rolling' ← EpochValue.ensure_scheduled (EpochState.rolling entity);
  pparams' ← EpochValue.ensure_scheduled (EpochState.pparams entity);
  Ret (d, Some (entity <| EpochState.rolling := rolling' |>
                       <| EpochState.pparams := pparams' |>
                       <| EpochState.end_ := Some (stats d) |>
                       <| EpochState.ewrap_progress := None |>)).

Definition undo (d : t) (e : option EpochState.t) : run (option EpochState.t) :=
  entity ← existing e;
  rolling' ← expect (prev_rolling d);
  pparams' ← expect (prev_pparams d);
  Ret (Some (entity <| EpochState.rolling := rolling' |>
                    <| EpochState.pparams := pparams' |>
                    <| EpochState.end_ := prev_end d |>
                    <| EpochState.ewrap_progress := prev_ewrap_progress d |>)).

#[global] Instance delta : EntityDelta t EpochState.t :=
  {| EntityDelta.key := key; EntityDelta.apply := apply; EntityDelta.undo := undo |}.

#[global] Program Instance reversible : ReversibleDelta t EpochState.t :=
  {| admissible d _ := EndStats.wf (stats d) |}.
Next Obligation. done. Qed.
Next Obligation. intros d d' e e' E. cbn in E. unfold apply in E. by run_split. Qed.
Next Obligation.
  intros d d' e e' Ha Hw E. cbn in *. unfold apply in E.
  run_inv. unfold EpochValue.ensure_scheduled in *. run_inv. epoch_wf Hw.
  - by eapply wf_rolling_scheduled.
  - cbn. edestruct wf_pparams_scheduled as [Hx Hf]; [done..|]. by apply Hf.
Qed.
Next Obligation.
  intros d d' e e' Ha Hw E. cbn in *. unfold apply, undo in *. split_epoch e; undo_solve.
Qed.

End delta.
End EpochWrapUpV2.

(** The live variant: it leaves [ewrap_progress] alone. *)
Module EpochWrapUpV3.

Record t := mk {
  stats : EndStats.t;
  prev_rolling : option (EpochValue.t RollingStats.t);
  prev_pparams : option (EpochValue.t PParamsSet.t);
  prev_end : option EndStats.t;
}.

#[global] Instance eta_t : Eta t := fun r =>
  mk (stats r) (prev_rolling r) (prev_pparams r) (prev_end r).

Definition new (stats : EndStats.t) : t :=
  mk stats None None None.

Section delta.
Context `{BuildCfg, Pallas}.

Definition key (d : t) : NsKey := EpochState.ns_key.

Definition apply (d : t) (e : option EpochState.t) : run (t * option EpochState.t) :=
  entity ← existing e;
  let d := d <| prev_rolling := Some (EpochState.rolling entity) |>
             <| prev_pparams := Some (EpochState.pparams entity) |>
             <| prev_end := EpochState.end_ entity |> in
  rolling' ← EpochValue.ensure_scheduled (EpochState.rolling entity);
  pparams' ← EpochValue.ensure_scheduled (EpochState.pparams entity);
  Ret (d, Some (entity <| EpochState.rolling := rolling' |>
                       <| EpochState.pparams := pparams' |>
                       <| EpochState.end_ := Some (stats d) |>)).

Definition undo (d : t) (e : option EpochState.t) : run (option EpochState.t) :=
  entity ← existing e;
  rolling' ← expect (prev_rolling d);
  pparams' ← expect (prev_pparams d);
  Ret (Some (entity <| EpochState.rolling := rolling' |>
                    <| EpochState.pparams := pparams' |>
                    <| EpochState.end_ := prev_end d |>)).

#[global] Instance delta : EntityDelta t EpochState.t :=
  {| EntityDelta.key := key; EntityDelta.apply := apply; EntityDelta.undo := undo |}.

#[global] Program Instance reversible : ReversibleDelta t EpochState.t :=
  {| admissible d _ := EndStats.wf (stats d) |}.
Next Obligation. done. Qed.
Next Obligation. intros d d' e e' E. cbn in E. unfold apply in E. by run_split. Qed.
Next Obligation.
  intros d d' e e' Ha Hw E. cbn in *. unfold apply in E.
  run_inv. unfold EpochValue.ensure_scheduled in *. run_inv. epoch_wf Hw.
  - by eapply wf_rolling_scheduled.
  - cbn. edestruct wf_pparams_scheduled as [Hx Hf]; [done..|]. by apply Hf.
Qed.
Next Obligation.
  intros d d' e e' Ha Hw E. cbn in *. unfold apply, undo in *. split_epoch e; undo_solve.
Qed.

End delta.
End EpochWrapUpV3.

(** The cursor after a shard. *)
Lemma progress_next `{BuildCfg} i n total :
  uadd 32 i 1 = Ret n -> 0 ≤ i < total -> is_u32 total -> ShardProgress.wf (ShardProgress.mk n total).
Proof.
  intros E Hi Ht. unfold ShardProgress.wf, is_u in *. cbn in *.
  rewrite uadd_exact in E by (unfold is_u; lia). run_inv. lia.
Qed.

Module EWrapProgress.

Record t := mk {
  effective_delta : Z;
  unspendable_to_treasury_delta : Z;
  unspendable_to_reserves_delta : Z;
  completed_shard_index : Z;
  total_shards : Z;
  applied : bool;
  prev_ewrap_progress : option ShardProgress.t;
}.

#[global] Instance eta_t : Eta t := fun r =>
  mk (effective_delta r) (unspendable_to_treasury_delta r) (unspendable_to_reserves_delta r)
     (completed_shard_index r) (total_shards r) (applied r) (prev_ewrap_progress r).

Definition new (effective_delta : Z) (unspendable_to_treasury_delta : Z)
    (unspendable_to_reserves_delta : Z) (completed_shard_index : Z) (total_shards : Z) : t :=
  mk effective_delta unspendable_to_treasury_delta unspendable_to_reserves_delta
     completed_shard_index total_shards false None.

Section delta.
Context `{BuildCfg, Pallas}.

Definition key (d : t) : NsKey := EpochState.ns_key.

Definition apply (d : t) (e : option EpochState.t) : run (t * option EpochState.t) :=
  entity ← existing e;
  let stored := EpochState.ewrap_progress entity in
  let expected := match stored with Some p => ShardProgress.committed p | None => 0 end in
  if completed_shard_index d <? expected then Ret (d, e)
  else if expected <? completed_shard_index d then Ret (d, e)
  else if match stored with
          | Some p => negb (ShardProgress.total p =? total_shards d)
          | None => false
          end then Ret (d, e)
  else
    end_ ← expect (EpochState.end_ entity);
    let d := d <| prev_ewrap_progress := EpochState.ewrap_progress entity |> in
    x ← uadd 64 (EndStats.effective_rewards end_) (effective_delta d);
    y ← uadd 64 (EndStats.unspendable_to_treasury end_) (unspendable_to_treasury_delta d);
    z ← uadd 64 (EndStats.unspendable_to_reserves end_) (unspendable_to_reserves_delta d);
    let end_ := end_ <| EndStats.effective_rewards := x |>
                     <| EndStats.unspendable_to_treasury := y |>
                     <| EndStats.unspendable_to_reserves := z |> in
    next ← uadd 32 (completed_shard_index d) 1;
    Ret (d <| applied := true |>,
         Some (entity <| EpochState.end_ := Some end_ |>
                      <| EpochState.ewrap_progress := Some (ShardProgress.mk next (total_shards d)) |>)).

Definition undo (d : t) (e : option EpochState.t) : run (option EpochState.t) :=
  if negb (applied d) then Ret e
  else
    entity ← existing e;
    end_ ← expect (EpochState.end_ entity);
    x ← usub 64 (EndStats.effective_rewards end_) (effective_delta d);
    y ← usub 64 (EndStats.unspendable_to_treasury end_) (unspendable_to_treasury_delta d);
    z ← usub 64 (EndStats.unspendable_to_reserves end_) (unspendable_to_reserves_delta d);
    let end_ := end_ <| EndStats.effective_rewards := x |>
                     <| EndStats.unspendable_to_treasury := y |>
                     <| EndStats.unspendable_to_reserves := z |> in
    Ret (Some (entity <| EpochState.end_ := Some end_ |>
                      <| EpochState.ewrap_progress := prev_ewrap_progress d |>)).

#[global] Instance delta : EntityDelta t EpochState.t :=
  {| EntityDelta.key := key; EntityDelta.apply := apply; EntityDelta.undo := undo |}.

#[global] Program Instance reversible : ReversibleDelta t EpochState.t :=
  {| admissible d _ := applied d = false /\ 0 ≤ completed_shard_index d < total_shards d /\ is_u32 (total_shards d) /\
    is_u64 (effective_delta d) /\ is_u64 (unspendable_to_treasury_delta d) /\
    is_u64 (unspendable_to_reserves_delta d) |}.
Next Obligation. done. Qed.
Next Obligation. reflexivity. Qed.
Next Obligation.
  intros d d' e e' Ha Hw E. cbn in *. unfold apply in E.
  destruct e as [s|]; [cbn in *|done]. repeat (case_match; [by run_inv|]). run_inv. epoch_wf Hw.
  - repeat case_match; simplify_eq; unfold EndStats.wf in *; cbn; destruct_and?; eauto with dolos.
  - cbn. eapply progress_next; [done|apply Ha..].
Qed.
Next Obligation.
  intros d d' e e' Ha Hw E. cbn in *. unfold apply, undo in *. destruct e as [s|]; [cbn in *|done].
  destruct Ha as (Hf & Ha). repeat (case_match; [run_inv; by rewrite Hf|]). run_inv. cbn.
  destruct Hw as (_ & _ & _ & Hw & _). destruct s as [? ? ? ? ? ? ? [[]|]]; cbn in *; [|done].
  simplify_eq. destruct Hw as (? & ? & ?); cbn in *. destruct_and!. rewrite_undo. done.
Qed.

End delta.
End EWrapProgress.

Module EStartProgress.

Record t := mk {
  completed_shard_index : Z;
  total_shards : Z;
  applied : bool;
  prev_estart_progress : option ShardProgress.t;
}.

#[global] Instance eta_t : Eta t := fun r =>
  mk (completed_shard_index r) (total_shards r) (applied r) (prev_estart_progress r).

Definition new (completed_shard_index : Z) (total_shards : Z) : t :=
  mk completed_shard_index total_shards false None.

Section delta.
Context `{BuildCfg, Pallas}.

Definition key (d : t) : NsKey := EpochState.ns_key.

Definition apply (d : t) (e : option EpochState.t) : run (t * option EpochState.t) :=
  entity ← existing e;
  let stored := EpochState.estart_progress entity in
  let expected := match stored with Some p => ShardProgress.committed p | None => 0 end in
  if completed_shard_index d <? expected then Ret (d, e)
  else if expected <? completed_shard_index d then Ret (d, e)
  else if match stored with
          | Some p => negb (ShardProgress.total p =? total_shards d)
          | None => false
          end then Ret (d, e)
  else
    let d := d <| prev_estart_progress := EpochState.estart_progress entity |> in
    next ← uadd 32 (completed_shard_index d) 1;
    Ret (d <| applied := true |>,
         Some (entity <| EpochState.estart_progress := Some (ShardProgress.mk next (total_shards d)) |>)).

Definition undo (d : t) (e : option EpochState.t) : run (option EpochState.t) :=
  if negb (applied d) then Ret e
  else
    entity ← existing e;
    Ret (Some (entity <| EpochState.estart_progress := prev_estart_progress d |>)).

#[global] Instance delta : EntityDelta t EpochState.t :=
  {| EntityDelta.key := key; EntityDelta.apply := apply; EntityDelta.undo := undo |}.

#[global] Program Instance reversible : ReversibleDelta t EpochState.t :=
  {| admissible d _ := applied d = false /\ 0 ≤ completed_shard_index d < total_shards d /\ is_u32 (total_shards d) |}.
Next Obligation. done. Qed.
Next Obligation. reflexivity. Qed.
Next Obligation.
  intros d d' e e' Ha Hw E. cbn in *. unfold apply in E.
  destruct e as [s|]; [cbn in *|done]. repeat (case_match; [by run_inv|]). run_inv. epoch_wf Hw.
  cbn. eapply progress_next; [done|apply Ha..].
Qed.
Next Obligation.
  intros d d' e e' Ha Hw E. cbn in *. unfold apply, undo in *. destruct e as [s|]; [cbn in *|done].
  destruct Ha as (Hf & Ha). repeat (case_match; [run_inv; by rewrite Hf|]). run_inv. cbn.
  by destruct s.
Qed.

End delta.
End EStartProgress.

Module RupdProgress.

Record t := mk {
  completed_shard_index : Z;
  total_shards : Z;
  applied : bool;
  prev_rupd_progress : option ShardProgress.t;
}.

#[global] Instance eta_t : Eta t := fun r =>
  mk (completed_shard_index r) (total_shards r) (applied r) (prev_rupd_progress r).

Definition new (completed_shard_index : Z) (total_shards : Z) : t :=
  mk completed_shard_index total_shards false None.

Section delta.
Context `{BuildCfg, Pallas}.

Definition key (d : t) : NsKey := EpochState.ns_key.

Definition apply (d : t) (e : option EpochState.t) : run (t * option EpochState.t) :=
  entity ← existing e;
  let stored := EpochState.rupd_progress entity in
  let expected := match stored with Some p => ShardProgress.committed p | None => 0 end in
  if completed_shard_index d <? expected then Ret (d, e)
  else if expected <? completed_shard_index d then Ret (d, e)
  else if match stored with
          | Some p => negb (ShardProgress.total p =? total_shards d)
          | None => false
          end then Ret (d, e)
  else
    let d := d <| prev_rupd_progress := EpochState.rupd_progress entity |> in
    next ← uadd 32 (completed_shard_index d) 1;
    Ret (d <| applied := true |>,
         Some (entity <| EpochState.rupd_progress := Some (ShardProgress.mk next (total_shards d)) |>)).

Definition undo (d : t) (e : option EpochState.t) : run (option EpochState.t) :=
  if negb (applied d) then Ret e
  else
    entity ← existing e;
    Ret (Some (entity <| EpochState.rupd_progress := prev_rupd_progress d |>)).

#[global] Instance delta : EntityDelta t EpochState.t :=
  {| EntityDelta.key := key; EntityDelta.apply := apply; EntityDelta.undo := undo |}.

#[global] Program Instance reversible : ReversibleDelta t EpochState.t :=
  {| admissible d _ := applied d = false /\ 0 ≤ completed_shard_index d < total_shards d /\ is_u32 (total_shards d) |}.
Next Obligation. done. Qed.
Next Obligation. reflexivity. Qed.
Next Obligation.
  intros d d' e e' Ha Hw E. cbn in *. unfold apply in E.
  destruct e as [s|]; [cbn in *|done]. repeat (case_match; [by run_inv|]). run_inv. epoch_wf Hw.
  cbn. eapply progress_next; [done|apply Ha..].
Qed.
Next Obligation.
  intros d d' e e' Ha Hw E. cbn in *. unfold apply, undo in *. destruct e as [s|]; [cbn in *|done].
  destruct Ha as (Hf & Ha). repeat (case_match; [run_inv; by rewrite Hf|]). run_inv. cbn.
  by destruct s.
Qed.

End delta.
End RupdProgress.

Module NonceTransition.

Record t := mk {
  next_nonce : option Nonces.t;
  next_slot : BlockSlot;
  prev_previous_nonce_tail : option Hash32;
  prev_nonces : option Nonces.t;
  prev_largest_stable_slot : BlockSlot;
}.

#[global] Instance eta_t : Eta t := fun r =>
  mk (next_nonce r) (next_slot r) (prev_previous_nonce_tail r) (prev_nonces r)
     (prev_largest_stable_slot r).

Definition new (next_nonce : option Nonces.t) (next_slot : BlockSlot) : t :=
  mk next_nonce next_slot None None 0.

Section delta.
Context `{BuildCfg, Pallas}.

Definition key (d : t) : NsKey := EpochState.ns_key.

Definition apply (d : t) (e : option EpochState.t) : run (t * option EpochState.t) :=
  entity ← existing e;
  let d := d <| prev_previous_nonce_tail := EpochState.previous_nonce_tail entity |>
             <| prev_nonces := EpochState.nonces entity |>
             <| prev_largest_stable_slot := EpochState.largest_stable_slot entity |> in
  let tail := match EpochState.nonces entity with Some n => Nonces.tail n | None => None end in
  Ret (d, Some (entity <| EpochState.previous_nonce_tail := tail |>
                       <| EpochState.nonces := next_nonce d |>
                       <| EpochState.largest_stable_slot := next_slot d |>)).

Definition undo (d : t) (e : option EpochState.t) : run (option EpochState.t) :=
  entity ← existing e;
  Ret (Some (entity <| EpochState.previous_nonce_tail := prev_previous_nonce_tail d |>
                    <| EpochState.nonces := prev_nonces d |>
                    <| EpochState.largest_stable_slot := prev_largest_stable_slot d |>)).

#[global] Instance delta : EntityDelta t EpochState.t :=
  {| EntityDelta.key := key; EntityDelta.apply := apply; EntityDelta.undo := undo |}.

#[global] Program Instance reversible : ReversibleDelta t EpochState.t :=
  {| admissible _ _ := True |}.
Next Obligation. done. Qed.
Next Obligation. reflexivity. Qed.
Next Obligation.
  intros d d' e e' Ha Hw E. cbn in *. unfold apply in E.
  run_inv. done.
Qed.
Next Obligation.
  intros d d' e e' Ha Hw E. cbn in *. unfold apply, undo in *. run_inv. by destruct a.
Qed.

End delta.
End NonceTransition.

(** [debug_assert!(new_pots.is_consistent(initial_pots.max_supply()))]. *)
Definition check_pots `{BuildCfg} (new_pots initial_pots : Pots.t) : run unit :=
  if debug_assertions then
    supply ← Pots.max_supply initial_pots;
    b ← Pots.is_consistent new_pots supply;
    assert_ b
  else Ret tt.

(** The parameter migration of an era transition, written to the live slot. *)
Definition migrate_live `{BuildCfg, Pallas} (pparams : EpochValue.t PParamsSet.t)
    (era_transition : option EraTransition.t) (genesis : option Genesis) : run (EpochValue.t PParamsSet.t) :=
  match era_transition with
  | None => Ret pparams
  | Some transition =>
      '(current, put) ← EpochValue.unwrap_live_mut pparams;
      genesis ← expect genesis;
      current' ← migrate_pparams_version (EraTransition.prev_version transition)
                   (EraTransition.new_version transition) current genesis;
      Ret (put current')
  end.

Lemma wf_migrate_live `{BuildCfg, Pallas} v tr g v' :
  EpochValue.wf PParamsSet.wf v -> migrate_live v tr g = Ret v' -> EpochValue.wf PParamsSet.wf v'.
Proof.
  intros Hv E. destruct tr as [tr|]; cbn in E; [|by run_inv].
  apply bind_Ret in E as ([c put] & Eu & E). run_inv.
  eapply EpochValue.wf_put_live; [done..|]. eapply wf_migrate; [|done].
  by eapply EpochValue.wf_unwrap_live.
Qed.

(** The legacy variant, kept for the WAL. *)
Module EpochTransition.

Record t := mk {
  new_epoch : Epoch;
  new_pots : Pots.t;
  era_transition : option EraTransition.t;
  genesis : option Genesis;
  prev_number : Epoch;
  prev_initial_pots : option Pots.t;
  prev_rolling : option (EpochValue.t RollingStats.t);
  prev_pparams : option (EpochValue.t PParamsSet.t);
}.

#[global] Instance eta_t : Eta t := fun r =>
  mk (new_epoch r) (new_pots r) (era_transition r) (genesis r) (prev_number r)
     (prev_initial_pots r) (prev_rolling r) (prev_pparams r).

Definition new (new_epoch : Epoch) (new_pots : Pots.t) (era_transition : option
    EraTransition.t) (genesis : option Genesis) : t :=
  mk new_epoch new_pots era_transition genesis 0 None None None.

(** What the WAL gives back: [genesis] is [#[serde(skip)]]. *)
Definition wal_decode (d : t) : t := d <| genesis := None |>.

Section delta.
Context `{BuildCfg, Pallas}.

Definition key (d : t) : NsKey := EpochState.ns_key.

Definition apply (d : t) (e : option EpochState.t) : run (t * option EpochState.t) :=
  entity ← existing e;
  _ ← check_pots (new_pots d) (EpochState.initial_pots entity);
  let d := d <| prev_number := EpochState.number entity |>
             <| prev_initial_pots := Some (EpochState.initial_pots entity) |>
             <| prev_rolling := Some (EpochState.rolling entity) |>
             <| prev_pparams := Some (EpochState.pparams entity) |> in
  rolling' ← EpochValue.default_transition (EpochState.rolling entity) (new_epoch d);
  pparams' ← EpochValue.default_transition (EpochState.pparams entity) (new_epoch d);
  pparams'' ← migrate_live pparams' (era_transition d) (genesis d);
  Ret (d, Some (entity <| EpochState.number := new_epoch d |>
                       <| EpochState.initial_pots := new_pots d |>
                       <| EpochState.rolling := rolling' |>
                       <| EpochState.pparams := pparams'' |>)).

Definition undo (d : t) (e : option EpochState.t) : run (option EpochState.t) :=
  entity ← existing e;
  rolling' ← expect (prev_rolling d);
  pparams' ← expect (prev_pparams d);
  pots' ← expect (prev_initial_pots d);
  Ret (Some (entity <| EpochState.rolling := rolling' |>
                    <| EpochState.pparams := pparams' |>
                    <| EpochState.number := prev_number d |>
                    <| EpochState.initial_pots := pots' |>)).

#[global] Instance delta : EntityDelta t EpochState.t :=
  {| EntityDelta.key := key; EntityDelta.apply := apply; EntityDelta.undo := undo |}.

#[global] Program Instance reversible : ReversibleDelta t EpochState.t :=
  {| admissible d _ := is_u64 (new_epoch d) |}.
Next Obligation. done. Qed.
Next Obligation. reflexivity. Qed.
Next Obligation.
  intros d d' e e' Ha Hw E. cbn in *. unfold apply in E.
  run_inv. epoch_wf Hw.
  - by eapply wf_rolling_transition.
  - eapply wf_migrate_live; [|done]. by eapply wf_copy_transition.
Qed.
Next Obligation.
  intros d d' e e' Ha Hw E. cbn in *. unfold apply, undo in *. run_inv. by destruct a.
Qed.

End delta.
End EpochTransition.

(** The live variant: it opens the new epoch's [end] and resets the cursors. *)
Module EpochTransitionV2.

Record t := mk {
  new_epoch : Epoch;
  new_pots : Pots.t;
  era_transition : option EraTransition.t;
  genesis : option Genesis;
  prev_number : Epoch;
  prev_initial_pots : option Pots.t;
  prev_rolling : option (EpochValue.t RollingStats.t);
  prev_pparams : option (EpochValue.t PParamsSet.t);
  prev_end : option EndStats.t;
  prev_ewrap_progress : option ShardProgress.t;
  prev_estart_progress : option ShardProgress.t;
  prev_rupd_progress : option ShardProgress.t;
}.

#[global] Instance eta_t : Eta t := fun r =>
  mk (new_epoch r) (new_pots r) (era_transition r) (genesis r) (prev_number r)
     (prev_initial_pots r) (prev_rolling r) (prev_pparams r) (prev_end r) (prev_ewrap_progress
     r) (prev_estart_progress r) (prev_rupd_progress r).

Definition new (new_epoch : Epoch) (new_pots : Pots.t) (era_transition : option
    EraTransition.t) (genesis : option Genesis) : t :=
  mk new_epoch new_pots era_transition genesis 0 None None None None None None None.

(** What the WAL gives back: [genesis] is [#[serde(skip)]]. *)
Definition wal_decode (d : t) : t := d <| genesis := None |>.

Section delta.
Context `{BuildCfg, Pallas}.

Definition key (d : t) : NsKey := EpochState.ns_key.

Definition apply (d : t) (e : option EpochState.t) : run (t * option EpochState.t) :=
  entity ← existing e;
  _ ← check_pots (new_pots d) (EpochState.initial_pots entity);
  let d := d <| prev_number := EpochState.number entity |>
             <| prev_initial_pots := Some (EpochState.initial_pots entity) |>
             <| prev_rolling := Some (EpochState.rolling entity) |>
             <| prev_pparams := Some (EpochState.pparams entity) |>
             <| prev_end := EpochState.end_ entity |>
             <| prev_ewrap_progress := EpochState.ewrap_progress entity |>
             <| prev_estart_progress := EpochState.estart_progress entity |>
             <| prev_rupd_progress := EpochState.rupd_progress entity |> in
  rolling' ← EpochValue.default_transition (EpochState.rolling entity) (new_epoch d);
  pparams' ← EpochValue.default_transition (EpochState.pparams entity) (new_epoch d);
  pparams'' ← migrate_live pparams' (era_transition d) (genesis d);
  Ret (d, Some (entity <| EpochState.number := new_epoch d |>
                       <| EpochState.initial_pots := new_pots d |>
                       <| EpochState.rolling := rolling' |>
                       <| EpochState.pparams := pparams'' |>
                       <| EpochState.end_ := Some EndStats.default_ |>
                       <| EpochState.ewrap_progress := None |>
                       <| EpochState.estart_progress := None |>
                       <| EpochState.rupd_progress := None |>)).

Definition undo (d : t) (e : option EpochState.t) : run (option EpochState.t) :=
  entity ← existing e;
  rolling' ← expect (prev_rolling d);
  pparams' ← expect (prev_pparams d);
  pots' ← expect (prev_initial_pots d);
  Ret (Some (entity <| EpochState.rolling := rolling' |>
                    <| EpochState.pparams := pparams' |>
                    <| EpochState.number := prev_number d |>
                    <| EpochState.initial_pots := pots' |>
                    <| EpochState.end_ := prev_end d |>
                    <| EpochState.ewrap_progress := prev_ewrap_progress d |>
                    <| EpochState.estart_progress := prev_estart_progress d |>
                    <| EpochState.rupd_progress := prev_rupd_progress d |>)).

#[global] Instance delta : EntityDelta t EpochState.t :=
  {| EntityDelta.key := key; EntityDelta.apply := apply; EntityDelta.undo := undo |}.

#[global] Program Instance reversible : ReversibleDelta t EpochState.t :=
  {| admissible d _ := is_u64 (new_epoch d) |}.
Next Obligation. done. Qed.
Next Obligation. reflexivity. Qed.
Next Obligation.
  intros d d' e e' Ha Hw E. cbn in *. unfold apply in E.
  run_inv. epoch_wf Hw.
  - by eapply wf_rolling_transition.
  - eapply wf_migrate_live; [|done]. by eapply wf_copy_transition.
Qed.
Next Obligation.
  intros d d' e e' Ha Hw E. cbn in *. unfold apply, undo in *. run_inv. by destruct a.
Qed.

End delta.
End EpochTransitionV2.

Module SetEpochIncentives.

Record t := mk {
  incentives : EpochIncentives.t;
  prev_incentives : option EpochIncentives.t;
}.

#[global] Instance eta_t : Eta t := fun r =>
  mk (incentives r) (prev_incentives r).

Definition new (incentives : EpochIncentives.t) : t :=
  mk incentives None.

Section delta.
Context `{BuildCfg, Pallas}.

Definition key (d : t) : NsKey := EpochState.ns_key.

Definition apply (d : t) (e : option EpochState.t) : run (t * option EpochState.t) :=
  entity ← existing e;
  let d := d <| prev_incentives := EpochState.incentives entity |> in
  Ret (d, Some (entity <| EpochState.incentives := Some (incentives d) |>)).

Definition undo (d : t) (e : option EpochState.t) : run (option EpochState.t) :=
  entity ← existing e;
  Ret (Some (entity <| EpochState.incentives := prev_incentives d |>)).

#[global] Instance delta : EntityDelta t EpochState.t :=
  {| EntityDelta.key := key; EntityDelta.apply := apply; EntityDelta.undo := undo |}.

#[global] Program Instance reversible : ReversibleDelta t EpochState.t :=
  {| admissible _ _ := True |}.
Next Obligation. done. Qed.
Next Obligation. intros d d' e e' E. cbn in E. unfold apply in E. by run_split. Qed.
Next Obligation.
  intros d d' e e' Ha Hw E. cbn in *. unfold apply in E.
  run_inv. done.
Qed.
Next Obligation.
  intros d d' e e' Ha Hw E. cbn in *. unfold apply, undo in *. run_inv. by destruct a.
Qed.

End delta.
End SetEpochIncentives.
