(* ===== verification/Proposals.v ===== *)
(** * Governance proposals (cardano/src/model/proposals.rs)

    Governance actions, the append-only vote histories, the life cycle of a
    proposal and the four proposal deltas. *)

From S2P Require Import Prelude Types EntityDelta Eras PParams.
#[local] Obligation Tactic := idtac.

Inductive ProposalAction :=
| ParamChange (update : PParamsSet.t)
| HardFork (version : Z * Z)
| TreasuryWithdrawalAction (withdrawals : list (StakeCredential * Z))
| Other
| NoConfidence
| UpdateCommittee (to_remove : list StakeCredential) (to_add : list (StakeCredential * Epoch))
    (threshold : RationalNumber)
| NewConstitution (anchor : Anchor) (guardrail_script : option Hash28)
| Info.

Inductive GovPurpose :=
| PPParamUpdate
| PHardFork
| PCommittee
| PConstitution.

#[export] Instance GovPurpose_eq_dec : EqDecision GovPurpose.
Proof. solve_decision. Defined.

(** [ProposalAction::purpose]. *)
Definition action_purpose (a : ProposalAction) : option GovPurpose :=
  match a with
  | ParamChange _ => Some PPParamUpdate
  | HardFork _ => Some PHardFork
  | NoConfidence | UpdateCommittee _ _ _ => Some PCommittee
  | NewConstitution _ _ => Some PConstitution
  | TreasuryWithdrawalAction _ | Info | Other => None
  end.

(** [Vec<(BlockSlot, Vote)>]: newest last. *)
Abbreviation VoteHistory := (list (Z * Vote)) (only parsing).

(** ** Slot-stamped histories

    The maps of append-only histories that the votes and the committee
    authorizations share. *)

(** [history.iter().rev().find(|(at, _)| at <= slot)]. *)
Definition last_as_of {A} (history : list (BlockSlot * A)) (slot : BlockSlot) : option A :=
  option_map snd (List.find (fun x => fst x <=? slot) (rev history)).

(** [map.entry(key).or_default().push(x)], and whether the entry was created. *)
Definition history_push {K A} `{Countable K} (m : gmap K (list A)) (key : K) (x : A) : bool * gmap K (list A) :=
  (is_none (m !! key), <[key := default [] (m !! key) ++ [x]]> m).

Definition history_pop {K A} `{Countable K} (m : gmap K (list A)) (key : K) (created : bool) : gmap K (list A) :=
  let m := match m !! key with Some history => <[key := removelast history]> m | None => m end in
  if created then delete key m else m.

Definition votes_as_of {K} `{Countable K} (votes : gmap K VoteHistory) (slot : BlockSlot) : gmap K Vote :=
  omap (fun history => last_as_of history slot) votes.

Lemma history_pop_push {K A} `{Countable K} (m : gmap K (list A)) key x :
  history_pop (snd (history_push m key x)) key (fst (history_push m key x)) = m.
Proof.
  unfold history_push, history_pop. cbn. rewrite lookup_insert_eq, insert_insert_eq, removelast_last.
  destruct (m !! key) as [h|] eqn:E; cbn; [by apply insert_id|by apply delete_insert_id].
Qed.

(** A later event does not change an earlier as-of read; an event at or before
    the cutoff becomes the effective one. *)
Lemma last_as_of_app {A} (h : list (BlockSlot * A)) at_ x slot :
  last_as_of (h ++ [(at_, x)]) slot = if at_ <=? slot then Some x else last_as_of h slot.
Proof. unfold last_as_of. rewrite rev_app_distr. cbn. by destruct (at_ <=? slot). Qed.

Module ProposalState.

Record t := mk {
  slot : BlockSlot;
  tx : Hash32;
  idx : Z;
  action : ProposalAction;
  max_epoch : option Epoch;
  ratified_epoch : option Epoch;
  canceled_epoch : option Epoch;
  deposit : option Lovelace;
  reward_account : option StakeCredential;
  proposed_in : option Epoch;
  parent : option GovActionId;
  purpose : option GovPurpose;
  anchor : option Anchor;
  cc_votes : gmap StakeCredential VoteHistory;
  drep_votes : gmap StakeCredential VoteHistory;
  spo_votes : gmap PoolHash VoteHistory;
}.

#[global] Instance eta_t : Eta t := fun r =>
  mk (slot r) (tx r) (idx r) (action r) (max_epoch r) (ratified_epoch r) (canceled_epoch r)
     (deposit r) (reward_account r) (proposed_in r) (parent r) (purpose r) (anchor r) (cc_votes
     r) (drep_votes r) (spo_votes r).

Definition build_entity_key (tx : Hash32) (idx : Z) : EntityKey :=
  entity_key_from (to_be_bytes 4 idx ++ tx).

Definition key (p : t) : EntityKey := build_entity_key (tx p) (idx p).

Definition gov_action_id (p : t) : GovActionId :=
  {| transaction_id := tx p; action_index := idx p |}.

(** [vote_history_mut] followed by a push: whether the entry was created, and
    the proposal with the vote. *)
Definition vote_history_push (p : t) (voter : Voter) (x : BlockSlot * Vote) : bool * t :=
  match voter with
  | VoterCCKey hash =>
      let r := history_push (cc_votes p) (AddrKeyhash hash) x in (fst r, p <| cc_votes := snd r |>)
  | VoterCCScript hash =>
      let r := history_push (cc_votes p) (ScriptHash hash) x in (fst r, p <| cc_votes := snd r |>)
  | VoterDRepKey hash =>
      let r := history_push (drep_votes p) (AddrKeyhash hash) x in (fst r, p <| drep_votes := snd r |>)
  | VoterDRepScript hash =>
      let r := history_push (drep_votes p) (ScriptHash hash) x in (fst r, p <| drep_votes := snd r |>)
  | VoterStakePoolKey hash =>
      let r := history_push (spo_votes p) hash x in (fst r, p <| spo_votes := snd r |>)
  end.

Definition vote_history_pop (p : t) (voter : Voter) (created : bool) : t :=
  match voter with
  | VoterCCKey hash => p <| cc_votes := history_pop (cc_votes p) (AddrKeyhash hash) created |>
  | VoterCCScript hash => p <| cc_votes := history_pop (cc_votes p) (ScriptHash hash) created |>
  | VoterDRepKey hash => p <| drep_votes := history_pop (drep_votes p) (AddrKeyhash hash) created |>
  | VoterDRepScript hash => p <| drep_votes := history_pop (drep_votes p) (ScriptHash hash) created |>
  | VoterStakePoolKey hash => p <| spo_votes := history_pop (spo_votes p) hash created |>
  end.

Definition cc_votes_as_of (p : t) (slot : BlockSlot) := votes_as_of (cc_votes p) slot.
Definition drep_votes_as_of (p : t) (slot : BlockSlot) := votes_as_of (drep_votes p) slot.
Definition spo_votes_as_of (p : t) (slot : BlockSlot) := votes_as_of (spo_votes p) slot.

(** [opt.is_some_and(f)] where [f] may panic. *)
Definition is_some_and {A} (o : option A) (f : A -> run bool) : run bool :=
  match o with Some x => f x | None => Ret false end.

Section lifecycle.
Context `{BuildCfg}.

Definition is_unresolved_at_close (p : t) (epoch : Epoch) : run bool :=
  a ← is_some_and (ratified_epoch p) (fun ratified => Ret (ratified <? epoch));
  if (a : bool) then Ret false
  else
    b ← is_some_and (canceled_epoch p) (fun canceled => Ret (canceled <=? epoch));
    if (b : bool) then Ret false
    else
      c ← is_some_and (max_epoch p) (fun max => m ← uadd 64 max 1; Ret (m <? epoch));
      if (c : bool) then Ret false else Ret true.

Definition expires_at (p : t) : run (option Epoch) :=
  match max_epoch p with Some x => y ← uadd 64 x 1; Ret (Some y) | None => Ret None end.

Definition has_expired (p : t) (current_epoch : Epoch) : run bool :=
  e ← expires_at p;
  Ret (match e with Some x => x <=? current_epoch | None => false end).

Definition was_enacted (p : t) (current_epoch : Epoch) : run bool :=
  match ratified_epoch p with
  | Some ratified_epoch => r ← uadd 64 ratified_epoch 1; Ret (r <? current_epoch)
  | None => Ret false
  end.

Definition was_canceled (p : t) (current_epoch : Epoch) : bool :=
  match canceled_epoch p with
  | Some canceled_epoch => canceled_epoch <? current_epoch
  | None => false
  end.

Definition is_active (p : t) (current_epoch : Epoch) : run bool :=
  enacted ← was_enacted p current_epoch;
  if (enacted : bool) then Ret false
  else if was_canceled p current_epoch then Ret false
  else
    e ← expires_at p;
    match e with
    | Some expires_at => x ← uadd 64 expires_at 1; Ret (current_epoch <=? x)
    | None => Ret true
    end.

End lifecycle.

Definition opt_u64 (o : option Z) : Prop := match o with Some x => is_u64 x | None => True end.

Definition wf (p : t) : Prop :=
  opt_u64 (max_epoch p) /\ opt_u64 (ratified_epoch p) /\ opt_u64 (canceled_epoch p) /\
  opt_u64 (deposit p) /\ opt_u64 (proposed_in p).

#[global] Instance entity : Entity t := {| NS := "proposals"; entity_wf := wf |}.

Lemma vote_pop_push p voter x :
  vote_history_pop (snd (vote_history_push p voter x)) voter (fst (vote_history_push p voter x)) = p.
Proof.
  destruct p, voter; unfold vote_history_pop, vote_history_push; cbn -[history_pop history_push];
    by rewrite history_pop_push.
Qed.

Lemma wf_vote_push p voter x : wf p -> wf (snd (vote_history_push p voter x)).
Proof. by destruct voter. Qed.

End ProposalState.

Definition proposal_key (tx : Hash32) (idx : Z) : NsKey :=
  (NS ProposalState.t, ProposalState.build_entity_key tx idx).

(** The legacy creation delta, kept for the WAL. *)
Module NewProposal.

Record t := mk {
  slot : BlockSlot;
  tx : Hash32;
  idx : Z;
  action : ProposalAction;
  deposit : option Lovelace;
  reward_account : option StakeCredential;
  validity_period : option Z;
  current_epoch : Epoch;
  network_magic : Z;
  protocol : Z;
  prev : option ProposalState.t;
}.

#[global] Instance eta_t : Eta t := fun r =>
  mk (slot r) (tx r) (idx r) (action r) (deposit r) (reward_account r) (validity_period r)
     (current_epoch r) (network_magic r) (protocol r) (prev r).

Definition new (slot : BlockSlot) (tx : Hash32) (idx : Z) (action : ProposalAction) (deposit :
    option Lovelace) (reward_account : option StakeCredential) (validity_period : option Z)
    (current_epoch : Epoch) (network_magic : Z) (protocol : Z) : t :=
  mk slot tx idx action deposit reward_account validity_period current_epoch network_magic
     protocol None.

Section delta.
Context `{BuildCfg, Pallas}.

Definition key (d : t) : NsKey := proposal_key (tx d) (idx d).

Definition apply (d : t) (e : option ProposalState.t) : run (t * option ProposalState.t) :=
  let d := d <| prev := e |> in
  max_epoch ← (match validity_period d with
               | Some x => m ← uadd 64 (current_epoch d) x; Ret (Some m)
               | None => Ret None
               end);
  Ret (d, Some {|
    ProposalState.slot := slot d;
    ProposalState.tx := tx d;
    ProposalState.idx := idx d;
    ProposalState.action := action d;
    ProposalState.reward_account := reward_account d;
    ProposalState.deposit := deposit d;
    ProposalState.max_epoch := max_epoch;
    ProposalState.ratified_epoch := None;
    ProposalState.canceled_epoch := None;
    ProposalState.proposed_in := Some (current_epoch d);
    ProposalState.parent := None;
    ProposalState.purpose := None;
    ProposalState.anchor := None;
    ProposalState.cc_votes := ∅;
    ProposalState.drep_votes := ∅;
    ProposalState.spo_votes := ∅;
  |}).

Definition undo (d : t) (e : option ProposalState.t) : run (option ProposalState.t) :=
  Ret (prev d).

#[global] Instance delta : EntityDelta t ProposalState.t :=
  {| EntityDelta.key := key; EntityDelta.apply := apply; EntityDelta.undo := undo |}.

#[global] Program Instance reversible : ReversibleDelta t ProposalState.t :=
  {| admissible d _ := is_u64 (current_epoch d) /\ ProposalState.opt_u64 (deposit d) |}.
Next Obligation. done. Qed.
Next Obligation. intros d d' e e' E. cbn in E. unfold apply in E. by run_inv. Qed.
Next Obligation.
  intros d d' e e' Ha Hw E. cbn in *. unfold apply in E.
  run_inv. destruct Ha. unfold ProposalState.wf; cbn. split_and!; try done.
  destruct (validity_period d); run_inv; cbn; [u_range|done].
Qed.
Next Obligation.
  intros d d' e e' Ha Hw E. cbn in *. unfold apply, undo in *. by run_inv.
Qed.

End delta.
End NewProposal.

Module NewProposalV2.

Record t := mk {
  slot : BlockSlot;
  tx : Hash32;
  idx : Z;
  action : ProposalAction;
  deposit : option Lovelace;
  reward_account : option StakeCredential;
  validity_period : option Z;
  current_epoch : Epoch;
  network_magic : Z;
  protocol : Z;
  parent : option GovActionId;
  purpose : option GovPurpose;
  anchor : option Anchor;
  prev : option ProposalState.t;
}.

#[global] Instance eta_t : Eta t := fun r =>
  mk (slot r) (tx r) (idx r) (action r) (deposit r) (reward_account r) (validity_period r)
     (current_epoch r) (network_magic r) (protocol r) (parent r) (purpose r) (anchor r) (prev
     r).

Definition new (slot : BlockSlot) (tx : Hash32) (idx : Z) (action : ProposalAction) (deposit :
    option Lovelace) (reward_account : option StakeCredential) (validity_period : option Z)
    (current_epoch : Epoch) (network_magic : Z) (protocol : Z) (parent : option GovActionId)
    (purpose : option GovPurpose) (anchor : option Anchor) : t :=
  mk slot tx idx action deposit reward_account validity_period current_epoch network_magic
     protocol parent purpose anchor None.

Section delta.
Context `{BuildCfg, Pallas}.

Definition key (d : t) : NsKey := proposal_key (tx d) (idx d).

Definition apply (d : t) (e : option ProposalState.t) : run (t * option ProposalState.t) :=
  let d := d <| prev := e |> in
  max_epoch ← (match validity_period d with
               | Some x => m ← uadd 64 (current_epoch d) x; Ret (Some m)
               | None => Ret None
               end);
  Ret (d, Some {|
    ProposalState.slot := slot d;
    ProposalState.tx := tx d;
    ProposalState.idx := idx d;
    ProposalState.action := action d;
    ProposalState.reward_account := reward_account d;
    ProposalState.deposit := deposit d;
    ProposalState.max_epoch := max_epoch;
    ProposalState.ratified_epoch := None;
    ProposalState.canceled_epoch := None;
    ProposalState.proposed_in := Some (current_epoch d);
    ProposalState.parent := parent d;
    ProposalState.purpose := purpose d;
    ProposalState.anchor := anchor d;
    ProposalState.cc_votes := ∅;
    ProposalState.drep_votes := ∅;
    ProposalState.spo_votes := ∅;
  |}).

Definition undo (d : t) (e : option ProposalState.t) : run (option ProposalState.t) :=
  Ret (prev d).

#[global] Instance delta : EntityDelta t ProposalState.t :=
  {| EntityDelta.key := key; EntityDelta.apply := apply; EntityDelta.undo := undo |}.

#[global] Program Instance reversible : ReversibleDelta t ProposalState.t :=
  {| admissible d _ := is_u64 (current_epoch d) /\ ProposalState.opt_u64 (deposit d) |}.
Next Obligation. done. Qed.
Next Obligation. intros d d' e e' E. cbn in E. unfold apply in E. by run_inv. Qed.
Next Obligation.
  intros d d' e e' Ha Hw E. cbn in *. unfold apply in E.
  run_inv. destruct Ha. unfold ProposalState.wf; cbn. split_and!; try done.
  destruct (validity_period d); run_inv; cbn; [u_range|done].
Qed.
Next Obligation.
  intros d d' e e' Ha Hw E. cbn in *. unfold apply, undo in *. by run_inv.
Qed.

End delta.
End NewProposalV2.

Module VoteCast.

Record t := mk {
  proposal_tx : Hash32;
  proposal_idx : Z;
  voter : Voter;
  vote : Vote;
  slot : BlockSlot;
  applied : bool;
  created_entry : bool;
}.

#[global] Instance eta_t : Eta t := fun r =>
  mk (proposal_tx r) (proposal_idx r) (voter r) (vote r) (slot r) (applied r) (created_entry
     r).

Definition new (proposal_tx : Hash32) (proposal_idx : Z) (voter : Voter) (vote : Vote) (slot :
    BlockSlot) : t :=
  mk proposal_tx proposal_idx voter vote slot false false.

Section delta.
Context `{BuildCfg, Pallas}.

Definition key (d : t) : NsKey := proposal_key (proposal_tx d) (proposal_idx d).

Definition apply (d : t) (e : option ProposalState.t) : run (t * option ProposalState.t) :=
  match e with
  | None => Ret (d <| applied := false |> <| created_entry := false |>, None)
  | Some state =>
      let r := ProposalState.vote_history_push state (voter d) (slot d, vote d) in
      Ret (d <| applied := true |> <| created_entry := fst r |>, Some (snd r))
  end.

Definition undo (d : t) (e : option ProposalState.t) : run (option ProposalState.t) :=
  if negb (applied d) then Ret e
  else
    match e with
    | None => Ret None
    | Some state =>
        Ret (Some (ProposalState.vote_history_pop state (voter d) (created_entry d)))
    end.

#[global] Instance delta : EntityDelta t ProposalState.t :=
  {| EntityDelta.key := key; EntityDelta.apply := apply; EntityDelta.undo := undo |}.

#[global] Program Instance reversible : ReversibleDelta t ProposalState.t :=
  {| admissible _ _ := True |}.
Next Obligation. done. Qed.
Next Obligation. intros d d' e e' E. cbn in E. unfold apply in E. destruct e; by run_inv. Qed.
Next Obligation.
  intros d d' e e' Ha Hw E. cbn in *. unfold apply in E.
  destruct e; run_inv; cbn; [by apply ProposalState.wf_vote_push|done].
Qed.
Next Obligation.
  intros d d' e e' Ha Hw E. cbn in *. unfold apply, undo in *.
  destruct e as [p|]; run_inv; cbn -[ProposalState.vote_history_pop ProposalState.vote_history_push]; [|done].
  by rewrite ProposalState.vote_pop_push.
Qed.

End delta.
End VoteCast.

Inductive ProposalOutcome :=
| Enacted
| Expired
| PrunedSibling.

Module ProposalResolved.

Record t := mk {
  tx : Hash32;
  idx : Z;
  outcome : ProposalOutcome;
  closing_epoch : Epoch;
  prev : option (option Epoch * option Epoch);
}.

#[global] Instance eta_t : Eta t := fun r =>
  mk (tx r) (idx r) (outcome r) (closing_epoch r) (prev r).

Definition new (tx : Hash32) (idx : Z) (outcome : ProposalOutcome) (closing_epoch : Epoch) : t
    :=
  mk tx idx outcome closing_epoch None.

Section delta.
Context `{BuildCfg, Pallas}.

Definition key (d : t) : NsKey := proposal_key (tx d) (idx d).

Definition apply (d : t) (e : option ProposalState.t) : run (t * option ProposalState.t) :=
  match e with
  | None => Ret (d, None)
  | Some state =>
      let d := d <| prev := Some (ProposalState.ratified_epoch state, ProposalState.canceled_epoch state) |> in
      match outcome d with
      | Enacted => Ret (d, Some (state <| ProposalState.ratified_epoch := Some (closing_epoch d) |>))
      | Expired | PrunedSibling =>
          c ← uadd 64 (closing_epoch d) 1;
          Ret (d, Some (state <| ProposalState.canceled_epoch := Some c |>))
      end
  end.

Definition undo (d : t) (e : option ProposalState.t) : run (option ProposalState.t) :=
  match e, prev d with
  | Some state, Some (ratified, canceled) =>
      Ret (Some (state <| ProposalState.ratified_epoch := ratified |>
                       <| ProposalState.canceled_epoch := canceled |>))
  | _, _ => Ret e
  end.

#[global] Instance delta : EntityDelta t ProposalState.t :=
  {| EntityDelta.key := key; EntityDelta.apply := apply; EntityDelta.undo := undo |}.

#[global] Program Instance reversible : ReversibleDelta t ProposalState.t :=
  {| admissible d _ := is_u64 (closing_epoch d) |}.
Next Obligation. done. Qed.
Next Obligation. intros d d' e e' E. cbn in E. unfold apply in E. by run_split. Qed.
Next Obligation.
  intros d d' e e' Ha Hw E. cbn in *. unfold apply in E.
  destruct e as [p|]; [|by run_inv]. destruct Hw as (? & ? & ? & ? & ?).
  run_split; unfold ProposalState.wf; cbn; split_and!; try done; u_range.
Qed.
Next Obligation.
  intros d d' e e' Ha Hw E. cbn in *. unfold apply, undo in *.
  destruct e as [p|]; run_split; try done; by destruct p.
Qed.

End delta.
End ProposalResolved.
