(* ===== verification/Gov.v ===== *)
(** * The governance singleton (cardano/src/model/gov.rs)

    The enacted constitution and committee, the committee authorizations, the
    lineage roots, the dormant-epoch counter, the boundary stake distributions
    and the eleven deltas that change them. *)

From S2P Require Import Prelude Types EntityDelta Eras PParams Proposals.
#[local] Obligation Tactic := idtac.

Definition GOV_STATE_KEY : bytes := [48].

Record Constitution := {
  c_anchor : Anchor;
  c_guardrail_script : option Hash28;
}.

Record Committee := {
  members : gmap StakeCredential Epoch;
  c_threshold : RationalNumber;
}.

Inductive CommitteeAuthorization :=
| HotCredential (hot : StakeCredential)
| Resigned (anchor : option Anchor).

(** [Vec<(BlockSlot, CommitteeAuthorization)>]: newest last. *)
Abbreviation AuthHistory := (list (Z * CommitteeAuthorization)) (only parsing).

Module GovDistr.

Record t := mk {
  closing_epoch : Epoch;
  committed_shards : Z;
  total_shards : Z;
  drep_distr : gmap DRep Z;
  pool_distr : gmap PoolHash Z;
  pool_total : Z;
}.

#[global] Instance eta_t : Eta t := fun r =>
  mk (closing_epoch r) (committed_shards r) (total_shards r) (drep_distr r) (pool_distr r)
     (pool_total r).

Definition new (closing_epoch : Epoch) (total_shards : Z) : t :=
  mk closing_epoch 0 total_shards ∅ ∅ 0.

Definition is_complete_for (d : t) (epoch : Epoch) : bool :=
  (closing_epoch d =? epoch) && (committed_shards d =? total_shards d).

Definition wf (d : t) : Prop :=
  0 ≤ committed_shards d ≤ total_shards d /\ is_u32 (total_shards d) /\
  map_Forall (fun _ x => is_u64 x) (drep_distr d) /\
  map_Forall (fun _ x => is_u64 x) (pool_distr d) /\ is_u64 (pool_total d).

Lemma distr_wf_new e n : is_u32 n -> wf (new e n).
Proof.
  intros Hn. unfold wf; cbn. unfold is_u in *. split_and!; try lia; apply map_Forall_empty.
Qed.

End GovDistr.

(** [for (k, w) in delta { *base.entry(k).or_default() += w }]: the keys of
    [delta] are distinct, so the order of the loop does not matter. *)
Definition merge_weights `{BuildCfg} {K} `{Countable K} (base delta : gmap K Z) : run (gmap K Z) :=
  run_foldl (fun m kw => x ← uadd 64 (default 0 (m !! fst kw)) (snd kw); Ret (<[fst kw := x]> m))
    base (map_to_list delta).

Lemma merge_weights_wf `{BuildCfg} {K} `{Countable K} (base delta m : gmap K Z) :
  map_Forall (fun _ x => is_u64 x) base -> merge_weights base delta = Ret m ->
  map_Forall (fun _ x => is_u64 x) m.
Proof.
  unfold merge_weights. generalize (map_to_list delta) as l. intros l. revert base.
  induction l as [|[k w] l IH]; intros base Hb E; cbn in E; [by run_inv|].
  apply bind_Ret in E as (b & Eb & E). run_inv. eapply IH; [|done].
  apply map_Forall_insert_2; [u_range|done].
Qed.

Module GovRoots.

Record t := mk {
  pparam_update : option GovActionId;
  hard_fork : option GovActionId;
  committee : option GovActionId;
  constitution : option GovActionId;
}.

#[global] Instance eta_t : Eta t := fun r =>
  mk (pparam_update r) (hard_fork r) (committee r) (constitution r).

Definition default_ : t := mk None None None None.

Definition root (r : t) (purpose : GovPurpose) : option GovActionId :=
  match purpose with
  | PPParamUpdate => pparam_update r
  | PHardFork => hard_fork r
  | PCommittee => committee r
  | PConstitution => constitution r
  end.

(** Writing through [root_mut]. *)
Definition set_root (r : t) (purpose : GovPurpose) (x : option GovActionId) : t :=
  match purpose with
  | PPParamUpdate => r <| pparam_update := x |>
  | PHardFork => r <| hard_fork := x |>
  | PCommittee => r <| committee := x |>
  | PConstitution => r <| constitution := x |>
  end.

Lemma root_set_root r p q x :
  root (set_root r p x) q = if decide (p = q) then x else root r q.
Proof. by destruct p, q. Qed.

Lemma set_root_root r p x : set_root (set_root r p x) p (root r p) = r.
Proof. by destruct r, p. Qed.

End GovRoots.

Module GovState.

Record t := mk {
  constitution : option Constitution;
  committee : option Committee;
  committee_auths : gmap StakeCredential AuthHistory;
  prev_gov_action_ids : GovRoots.t;
  num_dormant_epochs : Z;
  active_since : option Epoch;
  distr : option GovDistr.t;
  prev_distr : option GovDistr.t;
}.

#[global] Instance eta_t : Eta t := fun r =>
  mk (constitution r) (committee r) (committee_auths r) (prev_gov_action_ids r)
     (num_dormant_epochs r) (active_since r) (distr r) (prev_distr r).

Definition default_ : t := mk None None ∅ GovRoots.default_ 0 None None None.

Definition seed_genesis (g : t) (constitution_ : Constitution) (committee_ : Committee)
    (active_since_ : Epoch) : t :=
  g <| constitution := Some constitution_ |>
    <| committee := Some committee_ |>
    <| active_since := Some active_since_ |>.

Definition committee_auth (g : t) (cold : StakeCredential) : option CommitteeAuthorization :=
  match committee_auths g !! cold with
  | Some history => option_map snd (list.last history)
  | None => None
  end.

Definition committee_auth_as_of (g : t) (cold : StakeCredential) (slot : BlockSlot) : option CommitteeAuthorization :=
  match committee_auths g !! cold with
  | Some history => last_as_of history slot
  | None => None
  end.

Definition opt_distr (o : option GovDistr.t) : Prop :=
  match o with Some d => GovDistr.wf d | None => True end.

Definition wf (g : t) : Prop :=
  is_u64 (num_dormant_epochs g) /\ opt_distr (distr g) /\ opt_distr (prev_distr g).

#[global] Instance entity : Entity t := {| NS := "gov"; entity_wf := wf |}.

(** [SingletonEntity::ns_key]. *)
Definition ns_key : NsKey := (NS t, entity_key_from GOV_STATE_KEY).

End GovState.

Ltac split_gov e := destruct e as [[]|]; cbn in *.

Module GovGenesisInit.

Record t := mk {
  constitution : Constitution;
  committee : Committee;
  epoch : Epoch;
  prev_constitution : option Constitution;
  prev_committee : option Committee;
  prev_active_since : option Epoch;
}.

#[global] Instance eta_t : Eta t := fun r =>
  mk (constitution r) (committee r) (epoch r) (prev_constitution r) (prev_committee r)
     (prev_active_since r).

Definition new (constitution : Constitution) (committee : Committee) (epoch : Epoch) : t :=
  mk constitution committee epoch None None None.

Section delta.
Context `{BuildCfg, Pallas}.

Definition key (d : t) : NsKey := GovState.ns_key.

Definition apply (d : t) (e : option GovState.t) : run (t * option GovState.t) :=
  state ← existing e;
  let d := d <| prev_constitution := GovState.constitution state |>
             <| prev_committee := GovState.committee state |>
             <| prev_active_since := GovState.active_since state |> in
  Ret (d, Some (GovState.seed_genesis state (constitution d) (committee d) (epoch d))).

Definition undo (d : t) (e : option GovState.t) : run (option GovState.t) :=
  state ← existing e;
  Ret (Some (state <| GovState.constitution := prev_constitution d |>
                   <| GovState.committee := prev_committee d |>
                   <| GovState.active_since := prev_active_since d |>)).

#[global] Instance delta : EntityDelta t GovState.t :=
  {| EntityDelta.key := key; EntityDelta.apply := apply; EntityDelta.undo := undo |}.

#[global] Program Instance reversible : ReversibleDelta t GovState.t :=
  {| admissible _ _ := True |}.
Next Obligation. done. Qed.
Next Obligation. reflexivity. Qed.
Next Obligation.
  intros d d' e e' Ha Hw E. cbn in *. unfold apply in E.
  by run_split.
Qed.
Next Obligation.
  intros d d' e e' Ha Hw E. cbn in *. unfold apply, undo in *. split_gov e; undo_solve.
Qed.

End delta.
End GovGenesisInit.

(** The helper [push_auth]: whether the history was created, and the state. *)
Definition push_auth (e : option GovState.t) (cold : StakeCredential) (slot : BlockSlot)
    (auth : CommitteeAuthorization) : run (bool * option GovState.t) :=
  state ← existing e;
  let r := history_push (GovState.committee_auths state) cold (slot, auth) in
  Ret (fst r, Some (state <| GovState.committee_auths := snd r |>)).

Definition pop_auth (e : option GovState.t) (cold : StakeCredential) (created : bool) : run (option GovState.t) :=
  state ← existing e;
  Ret (Some (state <| GovState.committee_auths :=
    history_pop (GovState.committee_auths state) cold created |>)).

Lemma pop_push_auth e cold slot auth b e' :
  push_auth e cold slot auth = Ret (b, e') -> pop_auth e' cold b = Ret e.
Proof.
  unfold push_auth, pop_auth. intros E. apply bind_Ret in E as (a & ->%expect_Ret & E).
  apply Ret_inj, pair_equal_spec in E as [<- <-]. cbn -[history_pop history_push].
  rewrite history_pop_push. by destruct a.
Qed.

Lemma wf_push_auth e cold slot auth b e' :
  opt_wf e -> push_auth e cold slot auth = Ret (b, e') -> opt_wf e'.
Proof. unfold push_auth. intros Hw E. by run_inv. Qed.

Module CommitteeAuth.

Record t := mk {
  cold : StakeCredential;
  hot : StakeCredential;
  slot : BlockSlot;
  created_entry : bool;
}.

#[global] Instance eta_t : Eta t := fun r =>
  mk (cold r) (hot r) (slot r) (created_entry r).

Definition new (cold : StakeCredential) (hot : StakeCredential) (slot : BlockSlot) : t :=
  mk cold hot slot false.

Section delta.
Context `{BuildCfg, Pallas}.

Definition key (d : t) : NsKey := GovState.ns_key.

Definition apply (d : t) (e : option GovState.t) : run (t * option GovState.t) :=
  '(created, e') ← push_auth e (cold d) (slot d) (HotCredential (hot d));
  Ret (d <| created_entry := created |>, e').

Definition undo (d : t) (e : option GovState.t) : run (option GovState.t) :=
  pop_auth e (cold d) (created_entry d).

#[global] Instance delta : EntityDelta t GovState.t :=
  {| EntityDelta.key := key; EntityDelta.apply := apply; EntityDelta.undo := undo |}.

#[global] Program Instance reversible : ReversibleDelta t GovState.t :=
  {| admissible _ _ := True |}.
Next Obligation. done. Qed.
Next Obligation. reflexivity. Qed.
Next Obligation.
  intros d d' e e' Ha Hw E. cbn in *. unfold apply in E.
  run_inv. by eapply wf_push_auth.
Qed.
Next Obligation.
  intros d d' e e' Ha Hw E. cbn in *. unfold apply, undo in *. run_inv. cbn.
  by eapply pop_push_auth.
Qed.

End delta.
End CommitteeAuth.

Module CommitteeResign.

Record t := mk {
  cold : StakeCredential;
  anchor : option Anchor;
  slot : BlockSlot;
  created_entry : bool;
}.

#[global] Instance eta_t : Eta t := fun r =>
  mk (cold r) (anchor r) (slot r) (created_entry r).

Definition new (cold : StakeCredential) (anchor : option Anchor) (slot : BlockSlot) : t :=
  mk cold anchor slot false.

Section delta.
Context `{BuildCfg, Pallas}.

Definition key (d : t) : NsKey := GovState.ns_key.

Definition apply (d : t) (e : option GovState.t) : run (t * option GovState.t) :=
  '(created, e') ← push_auth e (cold d) (slot d) (Resigned (anchor d));
  Ret (d <| created_entry := created |>, e').

Definition undo (d : t) (e : option GovState.t) : run (option GovState.t) :=
  pop_auth e (cold d) (created_entry d).

#[global] Instance delta : EntityDelta t GovState.t :=
  {| EntityDelta.key := key; EntityDelta.apply := apply; EntityDelta.undo := undo |}.

#[global] Program Instance reversible : ReversibleDelta t GovState.t :=
  {| admissible _ _ := True |}.
Next Obligation. done. Qed.
Next Obligation. reflexivity. Qed.
Next Obligation.
  intros d d' e e' Ha Hw E. cbn in *. unfold apply in E.
  run_inv. by eapply wf_push_auth.
Qed.
Next Obligation.
  intros d d' e e' Ha Hw E. cbn in *. unfold apply, undo in *. run_inv. cbn.
  by eapply pop_push_auth.
Qed.

End delta.
End CommitteeResign.

Inductive CommitteeChange :=
| ChangeNoConfidence
| ChangeUpdate (to_remove : list StakeCredential) (to_add : list (StakeCredential * Epoch))
    (threshold : RationalNumber).

(** The committee an update enacts. *)
Definition update_committee (committee : option Committee) (to_remove : list StakeCredential)
    (to_add : list (StakeCredential * Epoch)) (threshold : RationalNumber) : Committee :=
  let m := match committee with Some c => members c | None => ∅ end in
  let m := foldl (fun m cold => delete cold m) m to_remove in
  let m := foldl (fun m x => <[fst x := snd x]> m) m to_add in
  {| members := m; c_threshold := threshold |}.

Module CommitteeUpdate.

Record t := mk {
  change : CommitteeChange;
  prev : option Committee;
}.

#[global] Instance eta_t : Eta t := fun r =>
  mk (change r) (prev r).

Definition no_confidence : t := mk ChangeNoConfidence None.

Definition update (to_remove : list StakeCredential) (to_add : list (StakeCredential * Epoch))
    (threshold : RationalNumber) : t :=
  mk (ChangeUpdate to_remove to_add threshold) None.

Section delta.
Context `{BuildCfg, Pallas}.

Definition key (d : t) : NsKey := GovState.ns_key.

Definition apply (d : t) (e : option GovState.t) : run (t * option GovState.t) :=
  state ← existing e;
  let d := d <| prev := GovState.committee state |> in
  let committee' :=
    match change d with
    | ChangeNoConfidence => None
    | ChangeUpdate to_remove to_add threshold =>
        Some (update_committee (GovState.committee state) to_remove to_add threshold)
    end in
  Ret (d, Some (state <| GovState.committee := committee' |>)).

Definition undo (d : t) (e : option GovState.t) : run (option GovState.t) :=
  state ← existing e;
  Ret (Some (state <| GovState.committee := prev d |>)).

#[global] Instance delta : EntityDelta t GovState.t :=
  {| EntityDelta.key := key; EntityDelta.apply := apply; EntityDelta.undo := undo |}.

#[global] Program Instance reversible : ReversibleDelta t GovState.t :=
  {| admissible _ _ := True |}.
Next Obligation. done. Qed.
Next Obligation. reflexivity. Qed.
Next Obligation.
  intros d d' e e' Ha Hw E. cbn in *. unfold apply in E.
  by run_inv.
Qed.
Next Obligation.
  intros d d' e e' Ha Hw E. cbn in *. unfold apply, undo in *. run_inv. by destruct a.
Qed.

End delta.
End CommitteeUpdate.

Module ConstitutionUpdate.

Record t := mk {
  constitution : Constitution;
  prev : option Constitution;
}.

#[global] Instance eta_t : Eta t := fun r =>
  mk (constitution r) (prev r).

Definition new (constitution : Constitution) : t :=
  mk constitution None.

Section delta.
Context `{BuildCfg, Pallas}.

Definition key (d : t) : NsKey := GovState.ns_key.

Definition apply (d : t) (e : option GovState.t) : run (t * option GovState.t) :=
  state ← existing e;
  let d := d <| prev := GovState.constitution state |> in
  Ret (d, Some (state <| GovState.constitution := Some (constitution d) |>)).

Definition undo (d : t) (e : option GovState.t) : run (option GovState.t) :=
  state ← existing e;
  Ret (Some (state <| GovState.constitution := prev d |>)).

#[global] Instance delta : EntityDelta t GovState.t :=
  {| EntityDelta.key := key; EntityDelta.apply := apply; EntityDelta.undo := undo |}.

#[global] Program Instance reversible : ReversibleDelta t GovState.t :=
  {| admissible _ _ := True |}.
Next Obligation. done. Qed.
Next Obligation. reflexivity. Qed.
Next Obligation.
  intros d d' e e' Ha Hw E. cbn in *. unfold apply in E.
  by run_split.
Qed.
Next Obligation.
  intros d d' e e' Ha Hw E. cbn in *. unfold apply, undo in *. split_gov e; undo_solve.
Qed.

End delta.
End ConstitutionUpdate.

Module GovRootsUpdate.

Record t := mk {
  purpose : GovPurpose;
  action : GovActionId;
  prev : option GovActionId;
}.

#[global] Instance eta_t : Eta t := fun r =>
  mk (purpose r) (action r) (prev r).

Definition new (purpose : GovPurpose) (action : GovActionId) : t :=
  mk purpose action None.

Section delta.
Context `{BuildCfg, Pallas}.

Definition key (d : t) : NsKey := GovState.ns_key.

Definition apply (d : t) (e : option GovState.t) : run (t * option GovState.t) :=
  state ← existing e;
  let roots := GovState.prev_gov_action_ids state in
  let d := d <| prev := GovRoots.root roots (purpose d) |> in
  Ret (d, Some (state <| GovState.prev_gov_action_ids :=
    GovRoots.set_root roots (purpose d) (Some (action d)) |>)).

Definition undo (d : t) (e : option GovState.t) : run (option GovState.t) :=
  state ← existing e;
  Ret (Some (state <| GovState.prev_gov_action_ids :=
    GovRoots.set_root (GovState.prev_gov_action_ids state) (purpose d) (prev d) |>)).

#[global] Instance delta : EntityDelta t GovState.t :=
  {| EntityDelta.key := key; EntityDelta.apply := apply; EntityDelta.undo := undo |}.

#[global] Program Instance reversible : ReversibleDelta t GovState.t :=
  {| admissible _ _ := True |}.
Next Obligation. done. Qed.
Next Obligation. reflexivity. Qed.
Next Obligation.
  intros d d' e e' Ha Hw E. cbn in *. unfold apply in E.
  by run_inv.
Qed.
Next Obligation.
  intros d d' e e' Ha Hw E. cbn in *. unfold apply, undo in *. run_inv.
  cbn -[GovRoots.set_root GovRoots.root]. rewrite GovRoots.set_root_root. by destruct a.
Qed.

End delta.
End GovRootsUpdate.

Module GovDormancyReset.

Record t := mk {
  prev : Z;
}.

#[global] Instance eta_t : Eta t := fun r =>
  mk (prev r).

Definition new : t :=
  mk 0.

Section delta.
Context `{BuildCfg, Pallas}.

Definition key (d : t) : NsKey := GovState.ns_key.

Definition apply (d : t) (e : option GovState.t) : run (t * option GovState.t) :=
  state ← existing e;
  let d := d <| prev := GovState.num_dormant_epochs state |> in
  Ret (d, Some (state <| GovState.num_dormant_epochs := 0 |>)).

Definition undo (d : t) (e : option GovState.t) : run (option GovState.t) :=
  state ← existing e;
  Ret (Some (state <| GovState.num_dormant_epochs := prev d |>)).

#[global] Instance delta : EntityDelta t GovState.t :=
  {| EntityDelta.key := key; EntityDelta.apply := apply; EntityDelta.undo := undo |}.

#[global] Program Instance reversible : ReversibleDelta t GovState.t :=
  {| admissible _ _ := True |}.
Next Obligation. done. Qed.
Next Obligation. reflexivity. Qed.
Next Obligation.
  intros d d' e e' Ha Hw E. cbn in *. unfold apply in E.
  run_inv. destruct Hw as (? & ? & ?). cbn. unfold GovState.wf; cbn; eauto with dolos.
Qed.
Next Obligation.
  intros d d' e e' Ha Hw E. cbn in *. unfold apply, undo in *. split_gov e; undo_solve.
Qed.

End delta.
End GovDormancyReset.

Module GovDistrAccumulate.

Record t := mk {
  closing_epoch : Epoch;
  shard : Z;
  total_shards : Z;
  drep_distr : gmap DRep Z;
  pool_distr : gmap PoolHash Z;
  pool_total : Z;
  applied : bool;
  prev : option GovDistr.t;
}.

#[global] Instance eta_t : Eta t := fun r =>
  mk (closing_epoch r) (shard r) (total_shards r) (drep_distr r) (pool_distr r) (pool_total r)
     (applied r) (prev r).

Definition new (closing_epoch : Epoch) (shard : Z) (total_shards : Z) (drep_distr : gmap DRep
    Z) (pool_distr : gmap PoolHash Z) (pool_total : Z) : t :=
  mk closing_epoch shard total_shards drep_distr pool_distr pool_total false None.

Section delta.
Context `{BuildCfg, Pallas}.

(** The idempotency, ordering and consistency guards: [false] where the code
    returns early. *)
Definition accepts (d : t) (distr : option GovDistr.t) : bool :=
  match distr with
  | Some distr =>
      if GovDistr.closing_epoch distr =? closing_epoch d then
        if shard d <? GovDistr.committed_shards distr then false
        else if GovDistr.committed_shards distr <? shard d then false
        else if negb (GovDistr.total_shards distr =? total_shards d) then false
        else true
      else if closing_epoch d <? GovDistr.closing_epoch distr then false
      else if negb (shard d =? 0) then false
      else true
  | None => if negb (shard d =? 0) then false else true
  end.

Definition key (d : t) : NsKey := GovState.ns_key.

Definition apply (d : t) (e : option GovState.t) : run (t * option GovState.t) :=
  state ← existing e;
  if negb (accepts d (GovState.distr state)) then Ret (d, e)
  else
    let d := d <| prev := GovState.distr state |> in
    let distr :=
      match GovState.distr state with
      | Some distr =>
          if GovDistr.closing_epoch distr =? closing_epoch d then distr
          else GovDistr.new (closing_epoch d) (total_shards d)
      | None => GovDistr.new (closing_epoch d) (total_shards d)
      end in
    dreps ← merge_weights (GovDistr.drep_distr distr) (drep_distr d);
    pools ← merge_weights (GovDistr.pool_distr distr) (pool_distr d);
    total ← uadd 64 (GovDistr.pool_total distr) (pool_total d);
    committed ← uadd 32 (shard d) 1;
    let distr := distr <| GovDistr.drep_distr := dreps |>
                       <| GovDistr.pool_distr := pools |>
                       <| GovDistr.pool_total := total |>
                       <| GovDistr.committed_shards := committed |> in
    Ret (d <| applied := true |>, Some (state <| GovState.distr := Some distr |>)).

Definition undo (d : t) (e : option GovState.t) : run (option GovState.t) :=
  if negb (applied d) then Ret e
  else
    state ← existing e;
    Ret (Some (state <| GovState.distr := prev d |>)).

#[global] Instance delta : EntityDelta t GovState.t :=
  {| EntityDelta.key := key; EntityDelta.apply := apply; EntityDelta.undo := undo |}.

#[global] Program Instance reversible : ReversibleDelta t GovState.t :=
  {| admissible d _ := applied d = false /\ 0 ≤ shard d < total_shards d /\ is_u32 (total_shards d) |}.
Next Obligation. done. Qed.
Next Obligation. reflexivity. Qed.
Next Obligation.
  intros d d' e e' Ha Hw E. cbn in *. unfold apply in E.
  destruct e as [s|]; [cbn in *|done]. destruct (accepts d (GovState.distr s)) eqn:Hacc; cbn in E;
    [|by run_inv].
  destruct Ha as (_ & Hs & Ht). destruct Hw as (Hn & Hd & Hp). run_inv.
  set (base := match GovState.distr s with Some _ => _ | None => _ end) in *.
  assert (Hb : GovDistr.wf base /\ GovDistr.total_shards base = total_shards d).
  { unfold base, accepts in *. destruct (GovState.distr s) as [g|]; cbn in Hd;
      [destruct (GovDistr.closing_epoch g =? closing_epoch d) eqn:Ec|]; try (split; [by apply GovDistr.distr_wf_new|done]).
    split; [done|]. repeat case_match; try done. apply negb_false_iff, Z.eqb_eq in H3. done. }
  destruct Hb as [(? & ? & ? & ? & ?) Hbt]. cbn. unfold GovState.wf; cbn. unfold GovDistr.wf; cbn.
  rewrite (uadd_exact 32 (shard d) 1) in * by (unfold is_u in *; lia). run_inv.
  conj_split; try done; try lia; try u_range; by eapply merge_weights_wf.
Qed.
Next Obligation.
  intros d d' e e' (Hf & _) Hw E. cbn in *. unfold apply, undo in *. destruct e as [s|]; [cbn in *|done].
  destruct (accepts d (GovState.distr s)); cbn in E; run_inv; cbn; [by destruct s|by rewrite Hf].
Qed.

End delta.
End GovDistrAccumulate.

Module GovDormancyTick.

Record t := mk {
  prev : Z;
}.

#[global] Instance eta_t : Eta t := fun r =>
  mk (prev r).

Definition new : t :=
  mk 0.

Section delta.
Context `{BuildCfg, Pallas}.

Definition key (d : t) : NsKey := GovState.ns_key.

Definition apply (d : t) (e : option GovState.t) : run (t * option GovState.t) :=
  state ← existing e;
  let d := d <| prev := GovState.num_dormant_epochs state |> in
  n ← uadd 64 (GovState.num_dormant_epochs state) 1;
  Ret (d, Some (state <| GovState.num_dormant_epochs := n |>)).

Definition undo (d : t) (e : option GovState.t) : run (option GovState.t) :=
  state ← existing e;
  Ret (Some (state <| GovState.num_dormant_epochs := prev d |>)).

#[global] Instance delta : EntityDelta t GovState.t :=
  {| EntityDelta.key := key; EntityDelta.apply := apply; EntityDelta.undo := undo |}.

#[global] Program Instance reversible : ReversibleDelta t GovState.t :=
  {| admissible _ _ := True |}.
Next Obligation. done. Qed.
Next Obligation. reflexivity. Qed.
Next Obligation.
  intros d d' e e' Ha Hw E. cbn in *. unfold apply in E.
  run_inv. destruct Hw as (? & ? & ?). cbn. unfold GovState.wf; cbn; eauto with dolos.
Qed.
Next Obligation.
  intros d d' e e' Ha Hw E. cbn in *. unfold apply, undo in *. split_gov e; undo_solve.
Qed.

End delta.
End GovDormancyTick.

Module CommitteeGc.

Record t := mk {
  removed : gmap StakeCredential AuthHistory;
}.

#[global] Instance eta_t : Eta t := fun r =>
  mk (removed r).

Definition new : t :=
  mk ∅.

Section delta.
Context `{BuildCfg, Pallas}.

(** The histories of the committee's members, and the others. *)
Definition partition_auths (committee : option Committee) (auths : gmap StakeCredential AuthHistory) :
    gmap StakeCredential AuthHistory * gmap StakeCredential AuthHistory :=
  match committee with
  | Some c => (filter (fun x => is_Some (members c !! fst x)) auths,
               filter (fun x => ~ is_Some (members c !! fst x)) auths)
  | None => (∅, auths)
  end.

Lemma partition_auths_union c m : snd (partition_auths c m) ∪ fst (partition_auths c m) = m.
Proof.
  destruct c as [c|]; cbn; [|apply map_union_empty].
  rewrite map_union_comm; [apply map_filter_union_complement|].
  apply map_disjoint_sym, map_disjoint_filter_complement.
Qed.

Definition key (d : t) : NsKey := GovState.ns_key.

Definition apply (d : t) (e : option GovState.t) : run (t * option GovState.t) :=
  state ← existing e;
  let auths := GovState.committee_auths state in
  let kr := partition_auths (GovState.committee state) auths in
  Ret (d <| removed := snd kr |>, Some (state <| GovState.committee_auths := fst kr |>)).

Definition undo (d : t) (e : option GovState.t) : run (option GovState.t) :=
  state ← existing e;
  Ret (Some (state <| GovState.committee_auths := removed d ∪ GovState.committee_auths state |>)).

#[global] Instance delta : EntityDelta t GovState.t :=
  {| EntityDelta.key := key; EntityDelta.apply := apply; EntityDelta.undo := undo |}.

#[global] Program Instance reversible : ReversibleDelta t GovState.t :=
  {| admissible _ _ := True |}.
Next Obligation. done. Qed.
Next Obligation. reflexivity. Qed.
Next Obligation.
  intros d d' e e' Ha Hw E. cbn in *. unfold apply in E.
  by run_inv.
Qed.
Next Obligation.
  intros d d' e e' Ha Hw E. cbn in *. unfold apply, undo in *. run_inv. cbn -[partition_auths].
  rewrite partition_auths_union. by destruct a.
Qed.

End delta.
End CommitteeGc.

Module GovDistrRotate.

Record t := mk {
  closing_epoch : Epoch;
  prev : option GovDistr.t;
}.

#[global] Instance eta_t : Eta t := fun r =>
  mk (closing_epoch r) (prev r).

Definition new (closing_epoch : Epoch) : t :=
  mk closing_epoch None.

Section delta.
Context `{BuildCfg, Pallas}.

Definition key (d : t) : NsKey := GovState.ns_key.

Definition apply (d : t) (e : option GovState.t) : run (t * option GovState.t) :=
  state ← existing e;
  let d := d <| prev := GovState.prev_distr state |> in
  let rotated :=
    match GovState.distr state with
    | Some distr => if GovDistr.is_complete_for distr (closing_epoch d) then Some distr else None
    | None => None
    end in
  Ret (d, Some (state <| GovState.prev_distr := rotated |>)).

Definition undo (d : t) (e : option GovState.t) : run (option GovState.t) :=
  state ← existing e;
  Ret (Some (state <| GovState.prev_distr := prev d |>)).

#[global] Instance delta : EntityDelta t GovState.t :=
  {| EntityDelta.key := key; EntityDelta.apply := apply; EntityDelta.undo := undo |}.

#[global] Program Instance reversible : ReversibleDelta t GovState.t :=
  {| admissible _ _ := True |}.
Next Obligation. done. Qed.
Next Obligation. reflexivity. Qed.
Next Obligation.
  intros d d' e e' Ha Hw E. cbn in *. unfold apply in E.
  run_inv. destruct Hw as (? & Hd & ?). unfold GovState.wf; cbn. split_and!; try done.
  destruct (GovState.distr a); [|done]. by case_match.
Qed.
Next Obligation.
  intros d d' e e' Ha Hw E. cbn in *. unfold apply, undo in *. run_inv. by destruct a.
Qed.

End delta.
End GovDistrRotate.

Module GovDistrBoundaryCredit.

Record t := mk {
  closing_epoch : Epoch;
  credits : gmap DRep Z;
  applied : bool;
  prev : option GovDistr.t;
}.

#[global] Instance eta_t : Eta t := fun r =>
  mk (closing_epoch r) (credits r) (applied r) (prev r).

Definition new (closing_epoch : Epoch) (credits : gmap DRep Z) : t :=
  mk closing_epoch credits false None.

Section delta.
Context `{BuildCfg, Pallas}.

Definition key (d : t) : NsKey := GovState.ns_key.

Definition apply (d : t) (e : option GovState.t) : run (t * option GovState.t) :=
  state ← existing e;
  match GovState.distr state with
  | Some distr =>
      if GovDistr.is_complete_for distr (closing_epoch d) then
        let d := d <| prev := GovState.distr state |> in
        dreps ← merge_weights (GovDistr.drep_distr distr) (credits d);
        Ret (d <| applied := true |>,
             Some (state <| GovState.distr := Some (distr <| GovDistr.drep_distr := dreps |>) |>))
      else Ret (d, e)
  | None => Ret (d, e)
  end.

Definition undo (d : t) (e : option GovState.t) : run (option GovState.t) :=
  if negb (applied d) then Ret e
  else
    state ← existing e;
    Ret (Some (state <| GovState.distr := prev d |>)).

#[global] Instance delta : EntityDelta t GovState.t :=
  {| EntityDelta.key := key; EntityDelta.apply := apply; EntityDelta.undo := undo |}.

#[global] Program Instance reversible : ReversibleDelta t GovState.t :=
  {| admissible d _ := applied d = false |}.
Next Obligation. done. Qed.
Next Obligation. reflexivity. Qed.
Next Obligation.
  intros d d' e e' Ha Hw E. cbn in *. unfold apply in E.
  destruct e as [s|]; [cbn in *|done]. destruct (GovState.distr s) as [g|] eqn:Eg; [|by run_inv].
  case_match; [|by run_inv]. run_inv. destruct Hw as (? & Hd & ?). rewrite Eg in Hd.
  destruct Hd as (? & ? & ? & ? & ?). cbn. unfold GovState.wf; cbn. unfold GovDistr.wf; cbn.
  conj_split; try done; try lia. by eapply merge_weights_wf.
Qed.
Next Obligation.
  intros d d' e e' Hf Hw E. cbn in *. unfold apply, undo in *. destruct e as [s|]; [cbn in *|done].
  destruct (GovState.distr s) as [g|] eqn:Eg; [case_match|]; run_inv; cbn; rewrite ?Hf; try done.
  destruct s; cbn in *; by subst.
Qed.

End delta.
End GovDistrBoundaryCredit.
