(* ===== verification/Ratify.v ===== *)
(** * Ratification of governance actions (cardano/src/ewrap/ratify.rs)

    The pure engine that rules on the governance proposals at an epoch
    boundary: the thresholds and tallies of the three voting bodies, the
    structural checks, the run over the sorted proposals with its evolving
    enact-state, and the pruning of the siblings of the enacted actions. *)

From Stdlib Require Import Sorted.
From S2P Require Import Prelude Lists Types EntityDelta Eras PParams Proposals Gov.

#[export] Instance GovActionId_countable : Countable GovActionId.
Proof.
  refine (inj_countable' (fun i => (transaction_id i, action_index i))
                         (fun p => {| transaction_id := fst p; action_index := snd p |}) _).
  by intros [].
Defined.

#[export] Instance GovPurpose_countable : Countable GovPurpose.
Proof.
  refine (inj_countable'
    (fun p => match p with
              | PPParamUpdate => (false, false) | PHardFork => (false, true)
              | PCommittee => (true, false) | PConstitution => (true, true) end)
    (fun b => match b with
              | (false, false) => PPParamUpdate | (false, true) => PHardFork
              | (true, false) => PCommittee | (true, true) => PConstitution end) _).
  by intros [].
Defined.

(** ** The snapshot *)

Module RatifyProposal.

Record t := mk {
  key : EntityKey;
  id : GovActionId;
  action : ProposalAction;
  parent : option GovActionId;
  expires_after : Epoch;
  order : BlockSlot * Hash32 * Z;
  cc_votes : gmap StakeCredential Vote;
  drep_votes : gmap StakeCredential Vote;
  spo_votes : gmap PoolHash Vote;
}.

End RatifyProposal.

Inductive DefaultVote := DefaultNo | DefaultAbstain | DefaultNoConfidence.

Module RatifyInput.

Record t := mk {
  current_epoch : Epoch;
  pparams : PParamsSet.t;
  treasury : Z;
  committee : option Committee;
  roots : GovRoots.t;
  committee_auths : gmap StakeCredential CommitteeAuthorization;
  drep_distr : gmap DRep Z;
  pool_distr : gmap PoolHash Z;
  pool_total : Z;
  dreps : gmap StakeCredential (option Epoch);
  pool_default_votes : gmap PoolHash DefaultVote;
  proposals : list RatifyProposal.t;
}.

#[global] Instance eta_t : Eta t := fun r =>
  mk (current_epoch r) (pparams r) (treasury r) (committee r) (roots r) (committee_auths r) (drep_distr r)
     (pool_distr r) (pool_total r) (dreps r) (pool_default_votes r) (proposals r).

End RatifyInput.

Inductive Verdict := Accepted | Expired | Continuing.

#[export] Instance Verdict_eq_dec : EqDecision Verdict.
Proof. solve_decision. Defined.

Module Tallies.

Record t := mk {
  prev_action_ok : bool;
  committee_term_ok : bool;
  not_delayed : bool;
  withdrawal_ok : bool;
  cc : Z * Z;
  cc_threshold : option RationalNumber;
  cc_accepted : bool;
  drep : Z * Z;
  drep_threshold : option RationalNumber;
  drep_accepted : bool;
  spo : Z * Z * Z;
  spo_threshold : option RationalNumber;
  spo_accepted : bool;
}.

End Tallies.

Module ProposalRatification.

Record t := mk {
  key : EntityKey;
  id : GovActionId;
  verdict : Verdict;
  tallies : Tallies.t;
}.

End ProposalRatification.

Module RatifyOutcome.

Record t := mk {
  verdicts : list ProposalRatification.t;
  enacted : list GovActionId;
  roots : GovRoots.t;
  treasury : Z;
  delayed : bool;
}.

End RatifyOutcome.

(** The run's evolving enact-state. *)
Module RunState.

Record t := mk {
  pparams : PParamsSet.t;
  committee : option Committee;
  roots : GovRoots.t;
  treasury : Z;
  delayed : bool;
}.

#[global] Instance eta_t : Eta t := fun r =>
  mk (pparams r) (committee r) (roots r) (treasury r) (delayed r).

End RunState.

(** ** Priorities and parameter groups *)

Definition action_priority (action : ProposalAction) : Z :=
  match action with
  | NoConfidence => 0
  | UpdateCommittee _ _ _ => 1
  | NewConstitution _ _ => 2
  | HardFork _ => 3
  | ParamChange _ => 4
  | TreasuryWithdrawalAction _ => 5
  | Info => 6
  | Other => 7
  end.

Definition delaying_action (action : ProposalAction) : bool :=
  match action with
  | NoConfidence | UpdateCommittee _ _ _ | NewConstitution _ _ | HardFork _ => true
  | _ => false
  end.

Definition bootstrap_phase (pparams : PParamsSet.t) : run bool :=
  major ← PParamsSet.protocol_major_or_default pparams; Ret (major =? 9).

Inductive DRepGroup := GroupNetwork | GroupEconomic | GroupTechnical | GroupGovernance.

Definition pparam_drep_group (kind : PParamKind.t) : option DRepGroup :=
  match kind with
  | PParamKind.MinFeeA | PParamKind.MinFeeB | PParamKind.KeyDeposit | PParamKind.PoolDeposit
  | PParamKind.ExpansionRate | PParamKind.TreasuryGrowthRate | PParamKind.MinPoolCost
  | PParamKind.AdaPerUtxoByte | PParamKind.ExecutionCosts | PParamKind.MinFeeRefScriptCostPerByte =>
      Some GroupEconomic
  | PParamKind.MaxBlockBodySize | PParamKind.MaxTransactionSize | PParamKind.MaxBlockHeaderSize
  | PParamKind.MaxValueSize | PParamKind.MaxTxExUnits | PParamKind.MaxBlockExUnits
  | PParamKind.MaxCollateralInputs =>
      Some GroupNetwork
  | PParamKind.MaximumEpoch | PParamKind.DesiredNumberOfStakePools | PParamKind.PoolPledgeInfluence
  | PParamKind.CollateralPercentage | PParamKind.CostModelsPlutusV1 | PParamKind.CostModelsPlutusV2
  | PParamKind.CostModelsPlutusV3 | PParamKind.CostModelsUnknown =>
      Some GroupTechnical
  | PParamKind.PoolVotingThresholds | PParamKind.DrepVotingThresholds | PParamKind.MinCommitteeSize
  | PParamKind.CommitteeTermLimit | PParamKind.GovernanceActionValidityPeriod
  | PParamKind.GovernanceActionDeposit | PParamKind.DrepDeposit | PParamKind.DrepInactivityPeriod =>
      Some GroupGovernance
  | PParamKind.SystemStart | PParamKind.EpochLength | PParamKind.SlotLength
  | PParamKind.ProtocolVersion | PParamKind.MinUtxoValue | PParamKind.DecentralizationConstant
  | PParamKind.ExtraEntropy => None
  end.

Definition pparam_is_security (kind : PParamKind.t) : bool :=
  match kind with
  | PParamKind.MinFeeA | PParamKind.MinFeeB | PParamKind.MaxBlockBodySize
  | PParamKind.MaxTransactionSize | PParamKind.MaxBlockHeaderSize | PParamKind.AdaPerUtxoByte
  | PParamKind.MaxBlockExUnits | PParamKind.MaxValueSize | PParamKind.GovernanceActionDeposit
  | PParamKind.MinFeeRefScriptCostPerByte => true
  | _ => false
  end.

(** ** Thresholds *)

Definition zero_threshold : RationalNumber := {| numerator := 0; denominator := 1 |}.

Definition bootstrap_drep_thresholds : DRepVotingThresholds := {|
  dv_motion_no_confidence := zero_threshold;
  dv_committee_normal := zero_threshold;
  dv_committee_no_confidence := zero_threshold;
  dv_update_constitution := zero_threshold;
  dv_hard_fork_initiation := zero_threshold;
  dv_pp_network_group := zero_threshold;
  dv_pp_economic_group := zero_threshold;
  dv_pp_technical_group := zero_threshold;
  dv_pp_governance_group := zero_threshold;
  dv_treasury_withdrawal := zero_threshold;
|}.

(** The products are taken in [u128], where a product of two [u64] is exact. *)
Definition rational_gte (a b : RationalNumber) : bool :=
  numerator b * denominator a <=? numerator a * denominator b.

Definition ratio_meets (yes total : Z) (threshold : RationalNumber) : bool :=
  if numerator threshold =? 0 then true
  else if total =? 0 then false
  else numerator threshold * total <=? yes * denominator threshold.

Abbreviation Threshold := (option RationalNumber) (only parsing).

Section engine.
Context `{BuildCfg}.

Definition is_hot (auth : option CommitteeAuthorization) : bool :=
  match auth with Some (HotCredential _) => true | _ => false end.

(** [.filter(..).count() as u64]. *)
Definition active_committee_size (input : RatifyInput.t) (committee : Committee) : Z :=
  as_u 64 (Z.of_nat (length (filter (fun x : StakeCredential * Epoch =>
    (RatifyInput.current_epoch input <=? snd x) && is_hot (RatifyInput.committee_auths input !! fst x))
    (map_to_list (members committee))))).

Definition committee_threshold (input : RatifyInput.t) (r : RunState.t) (action : ProposalAction) :
    run Threshold :=
  match action with
  | NoConfidence | UpdateCommittee _ _ _ => Ret (Some zero_threshold)
  | Info | Other => Ret None
  | _ =>
      match RunState.committee r with
      | None => Ret None
      | Some committee =>
          min_size ← PParamsSet.min_committee_size_or_default (RunState.pparams r);
          bootstrap ← bootstrap_phase (RunState.pparams r);
          Ret (if bootstrap || (min_size <=? active_committee_size input committee)
               then Some (c_threshold committee) else None)
      end
  end.

Definition pparams_update_drep_threshold (thresholds : DRepVotingThresholds) (update : PParamsSet.t) :
    RationalNumber :=
  foldl (fun max value =>
    match pparam_drep_group (PParamValue.kind value) with
    | None => max
    | Some group =>
        let candidate :=
          match group with
          | GroupNetwork => dv_pp_network_group thresholds
          | GroupEconomic => dv_pp_economic_group thresholds
          | GroupTechnical => dv_pp_technical_group thresholds
          | GroupGovernance => dv_pp_governance_group thresholds
          end in
        if rational_gte candidate max then candidate else max
    end) zero_threshold (PParamsSet.values update).

Definition drep_threshold (r : RunState.t) (action : ProposalAction) : run Threshold :=
  bootstrap ← bootstrap_phase (RunState.pparams r);
  thresholds ←
    (if bootstrap : bool then Ret bootstrap_drep_thresholds
     else PParamsSet.drep_voting_thresholds_or_default (RunState.pparams r));
  Ret match action with
      | NoConfidence => Some (dv_motion_no_confidence thresholds)
      | UpdateCommittee _ _ _ =>
          Some match RunState.committee r with
               | Some _ => dv_committee_normal thresholds
               | None => dv_committee_no_confidence thresholds
               end
      | NewConstitution _ _ => Some (dv_update_constitution thresholds)
      | HardFork _ => Some (dv_hard_fork_initiation thresholds)
      | ParamChange update => Some (pparams_update_drep_threshold thresholds update)
      | TreasuryWithdrawalAction _ => Some (dv_treasury_withdrawal thresholds)
      | Info | Other => None
      end.

Definition spo_threshold (r : RunState.t) (action : ProposalAction) : run Threshold :=
  thresholds ← PParamsSet.pool_voting_thresholds_or_default (RunState.pparams r);
  Ret match action with
      | NoConfidence => Some (pv_motion_no_confidence thresholds)
      | UpdateCommittee _ _ _ =>
          Some match RunState.committee r with
               | Some _ => pv_committee_normal thresholds
               | None => pv_committee_no_confidence thresholds
               end
      | NewConstitution _ _ => Some zero_threshold
      | HardFork _ => Some (pv_hard_fork_initiation thresholds)
      | ParamChange update =>
          if existsb (fun value => pparam_is_security (PParamValue.kind value)) (PParamsSet.values update)
          then Some (pv_security_voting_threshold thresholds) else Some zero_threshold
      | TreasuryWithdrawalAction _ => Some zero_threshold
      | Info | Other => None
      end.

(** ** Tallies

    The loops run over ordered maps; the counters only add up, so the order
    does not matter. *)

Definition committee_tally (current_epoch : Epoch) (members : gmap StakeCredential Epoch)
    (auths : gmap StakeCredential CommitteeAuthorization) (votes : gmap StakeCredential Vote) :
    run (Z * Z) :=
  run_foldl (fun acc x =>
    let '(yes, total) := acc in
    let '(cold, expiry) := x in
    if expiry <? current_epoch then Ret (yes, total)
    else match auths !! cold with
         | Some (HotCredential hot) =>
             match votes !! hot with
             | None | Some VNo => total ← uadd 64 total 1; Ret (yes, total)
             | Some VAbstain => Ret (yes, total)
             | Some VYes => yes ← uadd 64 yes 1; total ← uadd 64 total 1; Ret (yes, total)
             end
         | _ => Ret (yes, total)
         end) (0, 0) (map_to_list members).

Definition drep_credential (drep : DRep) : option StakeCredential :=
  match drep with
  | DRepKey hash => Some (AddrKeyhash hash)
  | DRepScript hash => Some (ScriptHash hash)
  | DRepAbstain | DRepNoConfidence => None
  end.

Definition drep_tally (current_epoch : Epoch) (drep_distr : gmap DRep Z)
    (dreps : gmap StakeCredential (option Epoch)) (votes : gmap StakeCredential Vote)
    (is_no_confidence : bool) : run (Z * Z) :=
  run_foldl (fun acc x =>
    let '(yes, total) := acc in
    let '(drep, stake) := x in
    match drep_credential drep with
    | None =>
        match drep with
        | DRepNoConfidence =>
            yes ← (if is_no_confidence then uadd 64 yes stake else Ret yes);
            total ← uadd 64 total stake; Ret (yes, total)
        | _ => Ret (yes, total)
        end
    | Some cred =>
        match dreps !! cred with
        | None => Ret (yes, total)
        | Some expiry =>
            if match expiry with Some expiry => expiry <? current_epoch | None => false end
            then Ret (yes, total)
            else match votes !! cred with
                 | None | Some VNo => total ← uadd 64 total stake; Ret (yes, total)
                 | Some VAbstain => Ret (yes, total)
                 | Some VYes => yes ← uadd 64 yes stake; total ← uadd 64 total stake; Ret (yes, total)
                 end
        end
    end) (0, 0) (map_to_list drep_distr).

Definition is_hard_fork (action : ProposalAction) : bool :=
  match action with HardFork _ => true | _ => false end.
Definition is_no_confidence (action : ProposalAction) : bool :=
  match action with NoConfidence => true | _ => false end.

Definition spo_tally (pool_distr : gmap PoolHash Z) (votes : gmap PoolHash Vote)
    (default_votes : gmap PoolHash DefaultVote) (action : ProposalAction) (bootstrap : bool) :
    run (Z * Z) :=
  run_foldl (fun acc x =>
    let '(yes, abstain) := acc in
    let '(pool, stake) := x in
    match votes !! pool with
    | Some VYes => yes ← uadd 64 yes stake; Ret (yes, abstain)
    | Some VNo => Ret (yes, abstain)
    | Some VAbstain => abstain ← uadd 64 abstain stake; Ret (yes, abstain)
    | None =>
        if is_hard_fork action then Ret (yes, abstain)
        else if bootstrap then abstain ← uadd 64 abstain stake; Ret (yes, abstain)
        else match default_votes !! pool with
             | Some DefaultNoConfidence =>
                 if is_no_confidence action then yes ← uadd 64 yes stake; Ret (yes, abstain)
                 else Ret (yes, abstain)
             | Some DefaultAbstain => abstain ← uadd 64 abstain stake; Ret (yes, abstain)
             | _ => Ret (yes, abstain)
             end
    end) (0, 0) (map_to_list pool_distr).

(** ** Structural checks *)

Definition prev_action_as_expected (r : RunState.t) (proposal : RatifyProposal.t) : bool :=
  match action_purpose (RatifyProposal.action proposal) with
  | None => true
  | Some purpose =>
      bool_decide (RatifyProposal.parent proposal = GovRoots.root (RunState.roots r) purpose)
  end.

(** [all] stops at the first member past the limit; the limit itself is the
    same native addition for every member. *)
Fixpoint all_within (limit : run Z) (to_add : list (StakeCredential * Epoch)) : run bool :=
  match to_add with
  | [] => Ret true
  | (_, expiry) :: to_add' =>
      max ← limit;
      if expiry <=? max then all_within limit to_add' else Ret false
  end.

Definition valid_committee_term (r : RunState.t) (current_epoch : Epoch) (action : ProposalAction) :
    run bool :=
  match action with
  | UpdateCommittee _ to_add _ =>
      max_term ← PParamsSet.committee_term_limit_or_default (RunState.pparams r);
      all_within (uadd 64 current_epoch max_term) to_add
  | _ => Ret true
  end.

Definition withdrawal_can_withdraw (r : RunState.t) (action : ProposalAction) : run bool :=
  match action with
  | TreasuryWithdrawalAction withdrawals =>
      sum ← run_sum 128 snd withdrawals;
      Ret (sum <=? RunState.treasury r)
  | _ => Ret true
  end.

(** ** Enactment within the run *)

Definition enact_action (r : RunState.t) (action : ProposalAction) : run RunState.t :=
  match action with
  | ParamChange update => Ret (r <| RunState.pparams := PParamsSet.merge (RunState.pparams r) update |>)
  | HardFork version =>
      Ret (r <| RunState.pparams :=
             PParamsSet.set (RunState.pparams r) (PParamValue.ProtocolVersion version) |>)
  | TreasuryWithdrawalAction withdrawals =>
      sum ← run_sum 128 snd withdrawals;
      Ret (r <| RunState.treasury :=
             saturating_sub 64 (RunState.treasury r) (as_u 64 (Z.min sum (u_max 64))) |>)
  | NoConfidence => Ret (r <| RunState.committee := None |>)
  | UpdateCommittee to_remove to_add threshold =>
      Ret (r <| RunState.committee :=
             Some (update_committee (RunState.committee r) to_remove to_add threshold) |>)
  | NewConstitution _ _ | Info | Other => Ret r
  end.

Definition enact (r : RunState.t) (proposal : RatifyProposal.t) : run RunState.t :=
  r ← enact_action r (RatifyProposal.action proposal);
  Ret match action_purpose (RatifyProposal.action proposal) with
      | Some purpose =>
          r <| RunState.roots :=
            GovRoots.set_root (RunState.roots r) purpose (Some (RatifyProposal.id proposal)) |>
      | None => r
      end.

(** ** The run *)

(** The derived order of [(BlockSlot, Hash<32>, u32)]. *)
Definition order_cmp (a b : BlockSlot * Hash32 * Z) : comparison :=
  let '(slot, tx, idx) := a in
  let '(slot', tx', idx') := b in
  match slot ?= slot' with
  | Eq => match bytes_cmp tx tx' with Eq => idx ?= idx' | c => c end
  | c => c
  end.

Definition proposal_cmp (a b : RatifyProposal.t) : comparison :=
  match action_priority (RatifyProposal.action a) ?= action_priority (RatifyProposal.action b) with
  | Eq => order_cmp (RatifyProposal.order a) (RatifyProposal.order b)
  | c => c
  end.

(** The tallies and checks of one proposal against the run's state. *)
Definition tally_proposal (input : RatifyInput.t) (r : RunState.t) (proposal : RatifyProposal.t) :
    run Tallies.t :=
  let action := RatifyProposal.action proposal in
  let prev_action_ok := prev_action_as_expected r proposal in
  committee_term_ok ← valid_committee_term r (RatifyInput.current_epoch input) action;
  let not_delayed := negb (RunState.delayed r) in
  withdrawal_ok ← withdrawal_can_withdraw r action;
  cc_threshold ← committee_threshold input r action;
  cc ← match RunState.committee r with
       | Some committee =>
           committee_tally (RatifyInput.current_epoch input) (members committee)
             (RatifyInput.committee_auths input) (RatifyProposal.cc_votes proposal)
       | None => Ret (0, 0)
       end;
  let cc_accepted :=
    match cc_threshold with Some t => ratio_meets (fst cc) (snd cc) t | None => false end in
  drep_threshold ← drep_threshold r action;
  drep ← drep_tally (RatifyInput.current_epoch input) (RatifyInput.drep_distr input)
           (RatifyInput.dreps input) (RatifyProposal.drep_votes proposal) (is_no_confidence action);
  let drep_accepted :=
    match drep_threshold with Some t => ratio_meets (fst drep) (snd drep) t | None => false end in
  spo_threshold ← spo_threshold r action;
  bootstrap ← bootstrap_phase (RunState.pparams r);
  spo ← spo_tally (RatifyInput.pool_distr input) (RatifyProposal.spo_votes proposal)
          (RatifyInput.pool_default_votes input) action bootstrap;
  let spo_denominator := saturating_sub 64 (RatifyInput.pool_total input) (snd spo) in
  let spo_accepted :=
    match spo_threshold with Some t => ratio_meets (fst spo) spo_denominator t | None => false end in
  Ret (Tallies.mk prev_action_ok committee_term_ok not_delayed withdrawal_ok
         cc cc_threshold cc_accepted drep drep_threshold drep_accepted
         (fst spo, snd spo, spo_denominator) spo_threshold spo_accepted).

Definition accepted (t : Tallies.t) : bool :=
  Tallies.prev_action_ok t && Tallies.committee_term_ok t && Tallies.not_delayed t &&
  Tallies.withdrawal_ok t && Tallies.cc_accepted t && Tallies.spo_accepted t && Tallies.drep_accepted t.

(** One turn of the loop: the state of the run, the verdicts so far and the
    enacted actions so far. *)
Definition ratify_one (input : RatifyInput.t)
    (acc : RunState.t * list ProposalRatification.t * list GovActionId) (proposal : RatifyProposal.t) :
    run (RunState.t * list ProposalRatification.t * list GovActionId) :=
  let '(r, verdicts, enacted) := acc in
  tallies ← tally_proposal input r proposal;
  x ← (if accepted tallies then
         r ← enact r proposal;
         Ret (r <| RunState.delayed := delaying_action (RatifyProposal.action proposal) |>,
              enacted ++ [RatifyProposal.id proposal], Accepted)
       else if RatifyProposal.expires_after proposal <? RatifyInput.current_epoch input
       then Ret (r, enacted, Expired) else Ret (r, enacted, Continuing));
  let '(r, enacted, verdict) := x in
  Ret (r, verdicts ++ [ProposalRatification.mk (RatifyProposal.key proposal) (RatifyProposal.id proposal)
                         verdict tallies], enacted).

Definition initial_run (input : RatifyInput.t) : RunState.t :=
  RunState.mk (RatifyInput.pparams input) (RatifyInput.committee input) (RatifyInput.roots input)
    (RatifyInput.treasury input) false.

Definition ratify (input : RatifyInput.t) : run RatifyOutcome.t :=
  let ordered := sort_by proposal_cmp (RatifyInput.proposals input) in
  x ← run_foldl (ratify_one input) (initial_run input, [], []) ordered;
  let '(r, verdicts, enacted) := x in
  Ret (RatifyOutcome.mk verdicts enacted (RunState.roots r) (RunState.treasury r) (RunState.delayed r)).

End engine.

(** ** Pruning *)

(** [iter().map(|p| (&p.id, p)).collect::<BTreeMap>()]: a later proposal
    replaces an earlier one of the same id. *)
Definition index_by_id (proposals : list RatifyProposal.t) : gmap GovActionId RatifyProposal.t :=
  foldl (fun m p => <[RatifyProposal.id p := p]> m) ∅ proposals.

Definition last_enacted_of (by_id : gmap GovActionId RatifyProposal.t) (enacted : list GovActionId) :
    gmap GovPurpose GovActionId :=
  foldl (fun m id =>
    match by_id !! id with
    | Some proposal =>
        match action_purpose (RatifyProposal.action proposal) with
        | Some purpose => <[purpose := id]> m
        | None => m
        end
    | None => m
    end) ∅ enacted.

(** The parent walk; [remaining] is [proposals.len() - steps]. *)
Fixpoint walk_parents (by_id : gmap GovActionId RatifyProposal.t) (winner : GovActionId)
    (remaining : nat) (cursor : option GovActionId) : bool :=
  match cursor with
  | None => false
  | Some parent =>
      if bool_decide (parent = winner) then true
      else match remaining with
           | O => false
           | S remaining' =>
               walk_parents by_id winner remaining' (by_id !! parent ≫= RatifyProposal.parent)
           end
  end.

Definition pruned_by_enactment (proposals : list RatifyProposal.t) (enacted : list GovActionId) :
    gset EntityKey :=
  let by_id := index_by_id proposals in
  let enacted_set : gset GovActionId := list_to_set enacted in
  let last_enacted := last_enacted_of by_id enacted in
  foldl (fun pruned proposal =>
    if bool_decide (RatifyProposal.id proposal ∈ enacted_set) then pruned
    else match action_purpose (RatifyProposal.action proposal) with
         | None => pruned
         | Some purpose =>
             match last_enacted !! purpose with
             | None => pruned
             | Some winner =>
                 if walk_parents by_id winner (length proposals) (RatifyProposal.parent proposal)
                 then pruned else {[RatifyProposal.key proposal]} ∪ pruned
             end
         end) ∅ proposals.
