(* ===== verification/RatifyRule.v ===== *)
(** * The ratification rule (the contract of cardano/src/ewrap/ratify.rs)

    The Conway RATIFY rule as an abstract specification: every body is a list
    of ballots, an action is accepted when its lineage, its delay, its terms,
    its withdrawals and the three bodies agree, and the accepted actions are
    enacted one after the other.  The engine of [Ratify] is shown to implement
    the rule, and the consequences of the rule are drawn from it. *)

From Stdlib Require Import Sorted.
From S2P Require Import Prelude Lists Types EntityDelta Eras PParams Proposals Gov Ratify.

(** ** Ballots *)

(** The effective votes of a body, each with its weight. *)
Abbreviation ballots := (list (Vote * Z)) (only parsing).

Definition votes_for (v : Vote) (b : ballots) : Z :=
  Zsum (fun x => if decide (fst x = v) then snd x else 0) b.

(** The weight of the ballots that do not abstain. *)
Definition votes_cast (b : ballots) : Z := votes_for VYes b + votes_for VNo b.

Definition ballots_ok (b : ballots) : Prop := Forall (fun x => 0 ≤ snd x) b /\ Zsum snd b < 2 ^ 64.

(** A body accepts at a threshold of zero, or when it casts votes and the
    share of the yes votes reaches the threshold. *)
Definition carries (b : ballots) (threshold : RationalNumber) : Prop :=
  numerator threshold = 0 \/
  votes_cast b ≠ 0 /\ numerator threshold * votes_cast b ≤ votes_for VYes b * denominator threshold.

Ltac vote_cases := cbn; repeat case_decide; simplify_eq; lia.

Lemma votes_for_nonneg v b : Forall (fun x => 0 ≤ snd x) b -> 0 ≤ votes_for v b.
Proof.
  rewrite Forall_forall. intros Hb. apply Zsum_nonneg. intros x Hx.
  specialize (Hb x Hx). by destruct (decide (fst x = v)).
Qed.

Lemma votes_partition b : votes_for VYes b + votes_for VNo b + votes_for VAbstain b = Zsum snd b.
Proof.
  unfold votes_for. rewrite <- !Zsum_add. apply Zsum_ext. intros [[] w] _; vote_cases.
Qed.

Lemma ratio_meets_carries b t : ratio_meets (votes_for VYes b) (votes_cast b) t = true <-> carries b t.
Proof.
  unfold ratio_meets, carries. destruct (Z.eqb_spec (numerator t) 0); [naive_solver|].
  destruct (Z.eqb_spec (votes_cast b) 0); [naive_solver|]. rewrite Z.leb_le. naive_solver.
Qed.

(** ** The effective votes *)

(** Expired, resigned and unauthorized members abstain; an authorized member
    without a vote counts as no. *)
Definition cc_vote (e : Epoch) (auths : gmap StakeCredential CommitteeAuthorization)
    (votes : gmap StakeCredential Vote) (member : StakeCredential * Epoch) : Vote :=
  if decide (snd member < e) then VAbstain
  else match auths !! fst member with
       | Some (HotCredential hot) => default VNo (votes !! hot)
       | _ => VAbstain
       end.

Definition drep_vote (e : Epoch) (dreps : gmap StakeCredential (option Epoch))
    (votes : gmap StakeCredential Vote) (no_confidence : bool) (drep : DRep) : Vote :=
  match drep with
  | DRepAbstain => VAbstain
  | DRepNoConfidence => if no_confidence then VYes else VNo
  | DRepKey h | DRepScript h =>
      let cred := match drep with DRepScript _ => ScriptHash h | _ => AddrKeyhash h end in
      match dreps !! cred with
      | None => VAbstain
      | Some expiry => if decide (default e expiry < e) then VAbstain else default VNo (votes !! cred)
      end
  end.

Definition spo_vote (votes : gmap PoolHash Vote) (defaults : gmap PoolHash DefaultVote)
    (action : ProposalAction) (bootstrap : bool) (pool : PoolHash) : Vote :=
  match votes !! pool with
  | Some v => v
  | None =>
      match action, bootstrap, defaults !! pool with
      | HardFork _, _, _ => VNo
      | _, true, _ => VAbstain
      | _, false, Some DefaultAbstain => VAbstain
      | NoConfidence, false, Some DefaultNoConfidence => VYes
      | _, false, _ => VNo
      end
  end.

Section ballots.
Context (input : RatifyInput.t) (r : RunState.t) (p : RatifyProposal.t).

Definition cc_ballots : ballots :=
  match RunState.committee r with
  | Some c =>
      (fun m => (cc_vote (RatifyInput.current_epoch input) (RatifyInput.committee_auths input)
                   (RatifyProposal.cc_votes p) m, 1)) <$> map_to_list (members c)
  | None => []
  end.

Definition drep_ballots : ballots :=
  (fun x => (drep_vote (RatifyInput.current_epoch input) (RatifyInput.dreps input)
               (RatifyProposal.drep_votes p) (is_no_confidence (RatifyProposal.action p)) (fst x), snd x))
    <$> map_to_list (RatifyInput.drep_distr input).

Definition spo_ballots (bootstrap : bool) : ballots :=
  (fun x => (spo_vote (RatifyProposal.spo_votes p) (RatifyInput.pool_default_votes input)
               (RatifyProposal.action p) bootstrap (fst x), snd x))
    <$> map_to_list (RatifyInput.pool_distr input).

End ballots.

(** ** Tallies count ballots *)

Definition not_abstain (v : Vote) : bool := match v with VAbstain => false | _ => true end.
Definition is_abstain (v : Vote) : bool := match v with VAbstain => true | _ => false end.

Section tallies.
Context `{BuildCfg}.

(** Counting one ballot: the yes votes, and the votes of a second kind. *)
Definition count (second : Vote -> bool) (acc : Z * Z) (ballot : Vote * Z) : run (Z * Z) :=
  yes ← (if decide (fst ballot = VYes) then uadd 64 (fst acc) (snd ballot) else Ret (fst acc));
  other ← (if second (fst ballot) then uadd 64 (snd acc) (snd ballot) else Ret (snd acc));
  Ret (yes, other).

(** A loop that counts a ballot per turn computes the two totals. *)
Lemma tally_loop {A} (step : Z * Z -> A -> run (Z * Z)) (ballot : A -> Vote * Z)
    (second : Vote -> bool) (l : list A) :
  (forall acc x, x ∈ l -> step acc x = count second acc (ballot x)) ->
  ballots_ok (ballot <$> l) ->
  run_foldl step (0, 0) l =
    Ret (votes_for VYes (ballot <$> l), Zsum (fun x => if second (fst x) then snd x else 0) (ballot <$> l)).
Proof.
  intros Hs [Hw Hb]. rewrite Forall_fmap, Forall_forall in Hw. cbn in Hw.
  unfold votes_for. rewrite !Zsum_fmap in *.
  set (f := fun x => if decide (fst (ballot x) = VYes) then snd (ballot x) else 0).
  set (g := fun x => if second (fst (ballot x)) then snd (ballot x) else 0).
  assert (Hf : forall x, x ∈ l -> 0 ≤ f x ≤ snd (ballot x)).
  { intros x Hx. specialize (Hw x Hx). unfold f. cbn in *. destruct (decide _); lia. }
  assert (Hg : forall x, x ∈ l -> 0 ≤ g x ≤ snd (ballot x)).
  { intros x Hx. specialize (Hw x Hx). unfold g. cbn in *. destruct (second _); lia. }
  assert (Zsum f l ≤ Zsum (fun x => snd (ballot x)) l) by (apply Zsum_le; intros; by apply Hf).
  assert (Zsum g l ≤ Zsum (fun x => snd (ballot x)) l) by (apply Zsum_le; intros; by apply Hg).
  rewrite (run_foldl_add2 step 64 f g); try lia.
  - done.
  - intros y t x Hx Iy It. rewrite Hs by done. unfold count, f, g in *. cbn [fst snd].
    destruct (decide _), (second _); rewrite ?uadd_exact by done; cbn; rewrite ?Z.add_0_r; done.
  - intros. by apply Hf.
  - intros. by apply Hg.
Qed.

Lemma votes_cast_sum b : Zsum (fun x => if not_abstain (fst x) then snd x else 0) b = votes_cast b.
Proof. unfold votes_cast, votes_for. rewrite <- Zsum_add. apply Zsum_ext. intros [[] w] _; vote_cases. Qed.

Lemma votes_abstain_sum b : Zsum (fun x => if is_abstain (fst x) then snd x else 0) b = votes_for VAbstain b.
Proof. unfold votes_for. apply Zsum_ext. intros [[] w] _; vote_cases. Qed.

End tallies.

Section tally_specs.
Context `{BuildCfg} (input : RatifyInput.t) (r : RunState.t) (p : RatifyProposal.t).

Lemma committee_tally_counts c :
  RunState.committee r = Some c -> ballots_ok (cc_ballots input r p) ->
  committee_tally (RatifyInput.current_epoch input) (members c) (RatifyInput.committee_auths input)
    (RatifyProposal.cc_votes p) =
  Ret (votes_for VYes (cc_ballots input r p), votes_cast (cc_ballots input r p)).
Proof.
  unfold cc_ballots. intros ->. rewrite <- votes_cast_sum. apply tally_loop.
  intros [yes total] [cold expiry] _. unfold count, cc_vote; cbn [fst snd].
  destruct (Z.ltb_spec expiry (RatifyInput.current_epoch input)); case_decide; try lia; [done|].
  destruct (RatifyInput.committee_auths input !! cold) as [[hot|]|]; [|done..].
  by destruct (RatifyProposal.cc_votes p !! hot) as [[]|].
Qed.

Lemma drep_tally_counts :
  ballots_ok (drep_ballots input p) ->
  drep_tally (RatifyInput.current_epoch input) (RatifyInput.drep_distr input) (RatifyInput.dreps input)
    (RatifyProposal.drep_votes p) (is_no_confidence (RatifyProposal.action p)) =
  Ret (votes_for VYes (drep_ballots input p), votes_cast (drep_ballots input p)).
Proof.
  unfold drep_ballots. rewrite <- votes_cast_sum. apply tally_loop.
  intros [yes total] [drep stake] _. unfold count, drep_vote; cbn [fst snd].
  destruct drep as [h|h| |]; cbn [drep_credential]; [| |done|by destruct (is_no_confidence _)].
  all: destruct (RatifyInput.dreps input !! _) as [[expiry|]|]; cbn; [| |done].
  all: try (destruct (Z.ltb_spec expiry (RatifyInput.current_epoch input))); case_decide; try lia; try done.
  all: by destruct (RatifyProposal.drep_votes p !! _) as [[]|].
Qed.

Lemma spo_tally_counts bootstrap :
  ballots_ok (spo_ballots input p bootstrap) ->
  spo_tally (RatifyInput.pool_distr input) (RatifyProposal.spo_votes p)
    (RatifyInput.pool_default_votes input) (RatifyProposal.action p) bootstrap =
  Ret (votes_for VYes (spo_ballots input p bootstrap), votes_for VAbstain (spo_ballots input p bootstrap)).
Proof.
  unfold spo_ballots. rewrite <- votes_abstain_sum. apply tally_loop.
  intros [yes abstain] [pool stake] _. unfold count, spo_vote; cbn [fst snd].
  destruct (RatifyProposal.spo_votes p !! pool) as [[]|]; [done..|].
  by destruct (RatifyProposal.action p), bootstrap, (RatifyInput.pool_default_votes input !! pool) as [[]|].
Qed.

End tally_specs.

(** ** The rule *)

Definition withdrawn (a : ProposalAction) : Z :=
  match a with TreasuryWithdrawalAction ws => Zsum snd ws | _ => 0 end.

(** The members an action would add to the committee. *)
Definition added (a : ProposalAction) : list (StakeCredential * Epoch) :=
  match a with UpdateCommittee _ to_add _ => to_add | _ => [] end.

Section rule.
Context `{BuildCfg} (input : RatifyInput.t).

Definition body_carries (threshold : run (option RationalNumber)) (b : ballots) : Prop :=
  exists t, threshold = Ret (Some t) /\ carries b t.

(** The conditions under which an action is enacted. *)
Record accepts (r : RunState.t) (p : RatifyProposal.t) : Prop := {
  acc_lineage : forall purpose, action_purpose (RatifyProposal.action p) = Some purpose ->
    RatifyProposal.parent p = GovRoots.root (RunState.roots r) purpose;
  acc_terms : forall max_term, PParamsSet.committee_term_limit_or_default (RunState.pparams r) = Ret max_term ->
    Forall (fun m => snd m ≤ RatifyInput.current_epoch input + max_term) (added (RatifyProposal.action p));
  acc_delay : RunState.delayed r = false;
  acc_treasury : withdrawn (RatifyProposal.action p) ≤ RunState.treasury r;
  acc_committee : body_carries (committee_threshold input r (RatifyProposal.action p)) (cc_ballots input r p);
  acc_dreps : body_carries (drep_threshold r (RatifyProposal.action p)) (drep_ballots input p);
  acc_pools : forall bootstrap, bootstrap_phase (RunState.pparams r) = Ret bootstrap ->
    body_carries (spo_threshold r (RatifyProposal.action p)) (spo_ballots input p bootstrap);
}.

(** The state an enacted action leaves. *)
Definition enacted_state (r : RunState.t) (p : RatifyProposal.t) : RunState.t :=
  let a := RatifyProposal.action p in
  RunState.mk
    match a with
    | ParamChange update => PParamsSet.merge (RunState.pparams r) update
    | HardFork version => PParamsSet.set (RunState.pparams r) (PParamValue.ProtocolVersion version)
    | _ => RunState.pparams r
    end
    match a with
    | NoConfidence => None
    | UpdateCommittee to_remove to_add threshold =>
        Some (update_committee (RunState.committee r) to_remove to_add threshold)
    | _ => RunState.committee r
    end
    match action_purpose a with
    | Some purpose => GovRoots.set_root (RunState.roots r) purpose (Some (RatifyProposal.id p))
    | None => RunState.roots r
    end
    (RunState.treasury r - withdrawn a)
    (delaying_action a).

(** The run: each proposal in turn is enacted, expired or carried over. *)
Inductive ratifies : RunState.t -> list RatifyProposal.t -> list (RatifyProposal.t * Verdict) -> RunState.t -> Prop :=
| ratifies_done r : ratifies r [] [] r
| ratifies_accept r p ps vs r' :
    accepts r p -> ratifies (enacted_state r p) ps vs r' ->
    ratifies r (p :: ps) ((p, Accepted) :: vs) r'
| ratifies_expire r p ps vs r' :
    ~ accepts r p -> RatifyProposal.expires_after p < RatifyInput.current_epoch input ->
    ratifies r ps vs r' -> ratifies r (p :: ps) ((p, Expired) :: vs) r'
| ratifies_continue r p ps vs r' :
    ~ accepts r p -> RatifyInput.current_epoch input ≤ RatifyProposal.expires_after p ->
    ratifies r ps vs r' -> ratifies r (p :: ps) ((p, Continuing) :: vs) r'.

(** ** Inputs without overflow

    The stake of each distribution and the sizes the run handles fit their
    integers: what the ADA supply and the size of a ledger guarantee. *)

Definition limits_ok (u : PParamsSet.t) : Prop :=
  forall m, PParamValue.CommitteeTermLimit m ∈ PParamsSet.values u -> is_u64 (RatifyInput.current_epoch input + m).

Definition action_ok (a : ProposalAction) : Prop :=
  match a with
  | ParamChange u => limits_ok u
  | TreasuryWithdrawalAction ws => Forall (fun w => 0 ≤ snd w) ws /\ Zsum snd ws < 2 ^ 128
  | _ => True
  end.

Definition committee_size (c : option Committee) : Z :=
  match c with Some c => Z.of_nat (size (members c)) | None => 0 end.

Definition additions (ps : list RatifyProposal.t) : Z :=
  Zsum (fun p => Z.of_nat (length (added (RatifyProposal.action p)))) ps.

Definition stake_ok {K} `{Countable K} (m : gmap K Z) : Prop :=
  map_Forall (fun _ x => 0 ≤ x) m /\ Zsum snd (map_to_list m) < 2 ^ 64.

Record state_ok (r : RunState.t) (ps : list RatifyProposal.t) : Prop := {
  so_treasury : is_u64 (RunState.treasury r);
  so_limits : limits_ok (RunState.pparams r);
  so_committee : committee_size (RunState.committee r) + additions ps < 2 ^ 64;
  so_actions : Forall (fun p => action_ok (RatifyProposal.action p)) ps;
}.

Record input_ok : Prop := {
  io_epoch : is_u64 (RatifyInput.current_epoch input);
  io_dreps : stake_ok (RatifyInput.drep_distr input);
  io_pools : stake_ok (RatifyInput.pool_distr input);
  io_total : RatifyInput.pool_total input = Zsum snd (map_to_list (RatifyInput.pool_distr input));
  io_state : state_ok (initial_run input) (RatifyInput.proposals input);
}.

(** ** The getters of the run are total *)

Lemma bootstrap_phase_total pp : exists b, bootstrap_phase pp = Ret b.
Proof.
  unfold bootstrap_phase, PParamsSet.protocol_major_or_default.
  destruct (PParamsSet.protocol_major_total pp) as [m ->]. cbn. eauto.
Qed.

Lemma getter_total {A} k (proj : PParamValue.t -> option A) pp :
  (forall v, PParamValue.kind v = k -> is_Some (proj v)) ->
  exists x, PParamsSet.pgetter_or_default k proj pp = Ret x.
Proof. apply PParamsSet.pgetter_or_default_total. Qed.

Lemma term_limit_get pp :
  PParamsSet.committee_term_limit_or_default pp =
  Ret (match PParamsSet.get pp PParamKind.CommitteeTermLimit with
       | Some (PParamValue.CommitteeTermLimit m) => m
       | _ => 0
       end).
Proof.
  unfold PParamsSet.committee_term_limit_or_default, PParamsSet.pgetter_or_default, PParamsSet.get_or_default.
  destruct (PParamsSet.get pp _) as [v|] eqn:E; [|done].
  apply PParamsSet.find_kind_kind in E. by destruct v.
Qed.

Lemma find_kind_elem l k v : PParamsSet.find_kind l k = Some v -> v ∈ l.
Proof.
  induction l as [|w l IH]; cbn; [done|]. case_decide; [intros [= ->]; left|]. intros. right. by apply IH.
Qed.

Lemma set_values u v x : x ∈ PParamsSet.values (PParamsSet.set u v) -> x = v \/ x ∈ PParamsSet.values u.
Proof.
  unfold PParamsSet.set. destruct (PParamsSet.get u _); cbn; [|set_solver].
  induction (PParamsSet.values u) as [|w l IH]; cbn; [set_solver|]. case_decide; set_solver.
Qed.

Lemma thresholds_total r a :
  (exists t, committee_threshold input r a = Ret t) /\ (exists t, drep_threshold r a = Ret t) /\
  (exists t, spo_threshold r a = Ret t).
Proof.
  destruct (bootstrap_phase_total (RunState.pparams r)) as [b Eb].
  destruct (getter_total PParamKind.MinCommitteeSize PParamsSet.as_min_committee_size (RunState.pparams r))
    as [m Em]; [by intros []; naive_solver|].
  destruct (getter_total PParamKind.DrepVotingThresholds PParamsSet.as_drep_voting_thresholds (RunState.pparams r))
    as [d Ed]; [by intros []; naive_solver|].
  destruct (getter_total PParamKind.PoolVotingThresholds PParamsSet.as_pool_voting_thresholds (RunState.pparams r))
    as [q Eq]; [by intros []; naive_solver|].
  split_and!.
  - unfold committee_threshold, PParamsSet.min_committee_size_or_default. rewrite Eb, Em.
    destruct a, (RunState.committee r); cbn; eauto.
  - unfold drep_threshold, PParamsSet.drep_voting_thresholds_or_default. rewrite Eb, Ed.
    destruct b; cbn; eauto.
  - unfold spo_threshold, PParamsSet.pool_voting_thresholds_or_default. rewrite Eq. cbn. eauto.
Qed.

(** ** One turn *)

Context (Hin : input_ok).

Lemma stake_ballots_ok {K} `{Countable K} (m : gmap K Z) (vote : K -> Vote) :
  stake_ok m -> ballots_ok ((fun x => (vote (fst x), snd x)) <$> map_to_list m).
Proof.
  intros [Hm Hs]. split; [|by rewrite Zsum_fmap].
  apply Forall_fmap, Forall_forall. intros [k x] Hx. apply elem_of_map_to_list in Hx.
  apply (Hm k x Hx).
Qed.

Lemma cc_ballots_ok r p ps : state_ok r ps -> ballots_ok (cc_ballots input r p).
Proof.
  intros Hs. pose proof (so_committee _ _ Hs) as Hc. unfold cc_ballots. destruct (RunState.committee r) as [c|]; [|done].
  split; [by apply Forall_fmap, Forall_forall|]. rewrite Zsum_fmap. cbn in *.
  assert (Hlen : forall l : list (StakeCredential * Epoch), Zsum (fun _ => 1) l = Z.of_nat (length l)).
  { induction l as [|x l IH]; [done|]. rewrite Zsum_cons, IH. cbn. lia. }
  rewrite Hlen, length_map_to_list.
  assert (0 ≤ additions ps) by (apply Zsum_nonneg; lia). unfold committee_size in Hc. lia.
Qed.

Lemma all_within_spec max to_add :
  all_within (Ret max) to_add = Ret (bool_decide (Forall (fun m => snd m ≤ max) to_add)).
Proof.
  induction to_add as [|[c e] l IH]; [done|]. cbn. rewrite IH.
  destruct (Z.leb_spec e max); f_equal; [|symmetry; apply bool_decide_eq_false; inversion_clear 1; cbn in *; lia].
  apply bool_decide_ext. rewrite Forall_cons. cbn. naive_solver.
Qed.

Lemma term_check_spec r p ps :
  state_ok r ps ->
  exists b, valid_committee_term r (RatifyInput.current_epoch input) (RatifyProposal.action p) = Ret b /\
    (b = true <-> forall max_term,
       PParamsSet.committee_term_limit_or_default (RunState.pparams r) = Ret max_term ->
       Forall (fun m => snd m ≤ RatifyInput.current_epoch input + max_term) (added (RatifyProposal.action p))).
Proof.
  intros Hs. pose proof (so_limits _ _ Hs) as Hl. unfold valid_committee_term.
  destruct (RatifyProposal.action p) as [| | | | |to_remove to_add t| |]; cbn [added]; try by eexists.
  rewrite term_limit_get. cbn. unfold limits_ok in Hl.
  destruct (PParamsSet.get (RunState.pparams r) PParamKind.CommitteeTermLimit) as [v|] eqn:E.
  - apply PParamsSet.find_kind_kind in E as Hk. destruct v; try done.
    rewrite uadd_exact by (by eapply Hl, find_kind_elem). rewrite all_within_spec. eexists. split; [done|].
    rewrite bool_decide_eq_true. naive_solver.
  - rewrite uadd_exact by (rewrite Z.add_0_r; apply io_epoch, Hin). rewrite all_within_spec. eexists.
    split; [done|]. rewrite bool_decide_eq_true. naive_solver.
Qed.

Lemma lineage_check_spec r p :
  prev_action_as_expected r p = true <->
  forall purpose, action_purpose (RatifyProposal.action p) = Some purpose ->
    RatifyProposal.parent p = GovRoots.root (RunState.roots r) purpose.
Proof.
  unfold prev_action_as_expected. destruct (action_purpose _); [|naive_solver].
  rewrite bool_decide_eq_true. naive_solver.
Qed.

Lemma withdrawn_sum ws :
  action_ok (TreasuryWithdrawalAction ws) -> 0 ≤ Zsum snd ws /\ run_sum 128 snd ws = Ret (Zsum snd ws).
Proof.
  intros [Hw Hb]. rewrite Forall_forall in Hw. split; [by apply Zsum_nonneg|by apply run_sum_exact].
Qed.

Lemma withdrawal_check_spec r p :
  action_ok (RatifyProposal.action p) -> is_u64 (RunState.treasury r) ->
  exists b, withdrawal_can_withdraw r (RatifyProposal.action p) = Ret b /\
    (b = true <-> withdrawn (RatifyProposal.action p) ≤ RunState.treasury r).
Proof.
  intros Ha Ht. unfold withdrawal_can_withdraw.
  destruct (RatifyProposal.action p) as [| |ws| | | | |]; cbn [withdrawn];
    try (exists true; split; [done|]; split; [intros _; apply Ht|done]).
  destruct (withdrawn_sum ws Ha) as [_ ->]. cbn. eexists. split; [done|]. apply Z.leb_le.
Qed.

Lemma body_check b (t : option RationalNumber) yes total :
  yes = votes_for VYes b -> total = votes_cast b ->
  match t with Some t => ratio_meets yes total t | None => false end = true <->
  body_carries (Ret t) b.
Proof.
  intros -> ->. unfold body_carries. destruct t as [t|]; [|naive_solver].
  rewrite ratio_meets_carries. naive_solver.
Qed.

Lemma spo_denominator_cast p b :
  saturating_sub 64 (RatifyInput.pool_total input) (votes_for VAbstain (spo_ballots input p b)) =
  votes_cast (spo_ballots input p b).
Proof.
  rewrite (io_total Hin).
  assert (Hz : Zsum snd (map_to_list (RatifyInput.pool_distr input)) = Zsum snd (spo_ballots input p b)).
  { unfold spo_ballots. by rewrite Zsum_fmap. }
  destruct (stake_ballots_ok (RatifyInput.pool_distr input)
    (spo_vote (RatifyProposal.spo_votes p) (RatifyInput.pool_default_votes input) (RatifyProposal.action p) b)
    (io_pools Hin)) as [Hw _].
  fold (spo_ballots input p b) in Hw.
  pose proof (votes_partition (spo_ballots input p b)). rewrite Hz. unfold saturating_sub, votes_cast.
  pose proof (votes_for_nonneg VYes _ Hw). pose proof (votes_for_nonneg VNo _ Hw). lia.
Qed.

(** The tallies and checks decide the conditions of the rule. *)
Lemma tally_proposal_spec r p ps :
  state_ok r ps -> action_ok (RatifyProposal.action p) ->
  exists t, tally_proposal input r p = Ret t /\ (accepted t = true <-> accepts r p).
Proof.
  intros Hs Ha. unfold tally_proposal.
  destruct (term_check_spec r p ps Hs) as (b1 & -> & H1).
  destruct (withdrawal_check_spec r p Ha (so_treasury _ _ Hs)) as (b2 & -> & H2). cbn.
  destruct (thresholds_total r (RatifyProposal.action p)) as ((t1 & E1) & (t2 & E2) & (t3 & E3)).
  destruct (bootstrap_phase_total (RunState.pparams r)) as [bo Eb].
  rewrite E1, E2, E3, Eb. cbn.
  assert (Hcc : match RunState.committee r with
                | Some c => committee_tally (RatifyInput.current_epoch input) (members c)
                              (RatifyInput.committee_auths input) (RatifyProposal.cc_votes p)
                | None => Ret (0, 0)
                end = Ret (votes_for VYes (cc_ballots input r p), votes_cast (cc_ballots input r p))).
  { destruct (RunState.committee r) eqn:E; [|by unfold cc_ballots; rewrite E].
    apply committee_tally_counts; [done|]. by eapply cc_ballots_ok. }
  rewrite Hcc. cbn.
  rewrite drep_tally_counts by apply stake_ballots_ok, Hin. cbn.
  rewrite spo_tally_counts by apply stake_ballots_ok, Hin. cbn.
  eexists. split; [done|]. unfold accepted; cbn. rewrite !andb_true_iff, negb_true_iff.
  rewrite lineage_check_spec, H1, H2, !body_check by (done || apply spo_denominator_cast).
  split.
  - intros [[[[[[? ?] ?] ?] ?] ?] ?]. constructor; [done..|by rewrite E1|by rewrite E2|].
    intros bo' Eb'. rewrite Eb in Eb'. simplify_eq. by rewrite E3.
  - intros [? ? ? ? C D P]. rewrite E1 in C. rewrite E2 in D. specialize (P _ Eb). rewrite E3 in P. tauto.
Qed.

(** Enacting an accepted action leaves the state of the rule. *)
Lemma enact_spec r p :
  action_ok (RatifyProposal.action p) -> is_u64 (RunState.treasury r) -> accepts r p ->
  exists r', enact r p = Ret r' /\
    r' <| RunState.delayed := delaying_action (RatifyProposal.action p) |> = enacted_state r p.
Proof.
  intros Ha Ht Hacc. pose proof (acc_treasury _ _ Hacc) as Hw. unfold enact, enacted_state, enact_action.
  destruct (RatifyProposal.action p) as [| |ws| | | | |]; cbn in *;
    try (eexists; split; [done|]; rewrite Z.sub_0_r; by destruct r).
  destruct (withdrawn_sum ws Ha) as [Hp ->]. cbn. eexists. split; [done|].
  assert (saturating_sub 64 (RunState.treasury r) (as_u 64 (Z.min (Zsum snd ws) (u_max 64))) =
          RunState.treasury r - Zsum snd ws) as ->.
  { unfold saturating_sub, u_max. unfold is_u in Ht.
    rewrite Z.min_l, as_u_small by (unfold is_u; lia). lia. }
  by destruct r.
Qed.

Lemma update_committee_size c to_remove to_add t :
  committee_size (Some (update_committee c to_remove to_add t)) ≤ committee_size c + Z.of_nat (length to_add).
Proof.
  unfold committee_size, update_committee. cbn [members].
  set (m := match c with Some c => members c | None => ∅ end).
  assert (Hm : Z.of_nat (size m) = committee_size c) by (by destruct c).
  unfold committee_size in Hm. rewrite <- Hm. clear Hm. clearbody m.
  assert (Hr : (size (foldl (fun m cold => delete cold m) m to_remove) ≤ size m)%nat).
  { revert m. induction to_remove as [|x l IH]; intros m; cbn; [done|]. etrans; [apply IH|].
    rewrite map_size_delete. case_match; unfold id; lia. }
  assert (Ha : forall m0 : gmap StakeCredential Z, (size (foldl (fun m x => <[fst x := snd x]> m) m0 to_add) ≤ size m0 + length to_add)%nat).
  { induction to_add as [|x l IH]; intros m0; cbn; [lia|]. etrans; [apply IH|].
    rewrite map_size_insert. case_match; unfold id; lia. }
  specialize (Ha (foldl (fun m cold => delete cold m) m to_remove)). lia.
Qed.

Lemma state_ok_tail r p ps : state_ok r (p :: ps) -> state_ok r ps.
Proof.
  intros [? ? Hc Ha]. constructor; [done|done| |by inversion_clear Ha].
  unfold additions in *. rewrite Zsum_cons in Hc. lia.
Qed.

Lemma limits_ok_set u v :
  limits_ok u -> (forall m, v = PParamValue.CommitteeTermLimit m -> is_u64 (RatifyInput.current_epoch input + m)) ->
  limits_ok (PParamsSet.set u v).
Proof.
  intros Hu Hv m Hm. apply set_values in Hm as [<-|Hm]; [by apply Hv|by apply Hu].
Qed.

Lemma limits_ok_merge u v : limits_ok u -> limits_ok v -> limits_ok (PParamsSet.merge u v).
Proof.
  unfold PParamsSet.merge, limits_ok at 2. revert u.
  induction (PParamsSet.values v) as [|x l IH]; intros u Hu Hv; [done|]. cbn. apply IH.
  - apply limits_ok_set; [done|]. intros m ->. apply Hv. left.
  - intros m Hm. apply Hv. by right.
Qed.

Lemma state_ok_enacted r p ps :
  state_ok r (p :: ps) -> accepts r p -> state_ok (enacted_state r p) ps.
Proof.
  intros Hs Hacc. pose proof (state_ok_tail _ _ _ Hs) as [? Hl Hc Hps]. destruct Hs as [Ht _ Hc' Ha].
  apply Forall_cons in Ha as [Ha _]. pose proof (acc_treasury _ _ Hacc) as Hw.
  constructor; [| | |done].
  - assert (0 ≤ withdrawn (RatifyProposal.action p)).
    { destruct (RatifyProposal.action p); try done. by apply withdrawn_sum. }
    unfold is_u, enacted_state in *. cbn. lia.
  - unfold enacted_state; cbn. destruct (RatifyProposal.action p); try done.
    + by apply limits_ok_merge.
    + by apply limits_ok_set.
  - unfold enacted_state; cbn [RunState.committee]. unfold additions in *. rewrite Zsum_cons in Hc'.
    destruct (RatifyProposal.action p) as [| | | | |to_remove to_add t| |]; try lia.
    + assert (0 ≤ committee_size (RunState.committee r)) by (unfold committee_size; case_match; lia).
      cbn. lia.
    + pose proof (update_committee_size (RunState.committee r) to_remove to_add t). cbn [added] in Hc'. lia.
Qed.

(** ** The run *)

Definition verdict_of (x : ProposalRatification.t) : EntityKey * GovActionId * Verdict :=
  (ProposalRatification.key x, ProposalRatification.id x, ProposalRatification.verdict x).

Definition ruling (x : RatifyProposal.t * Verdict) : EntityKey * GovActionId * Verdict :=
  (RatifyProposal.key (fst x), RatifyProposal.id (fst x), snd x).

(** The proposals a run accepts, in order. *)
Definition accepted_of (vs : list (RatifyProposal.t * Verdict)) : list RatifyProposal.t :=
  fst <$> filter (fun x => snd x = Accepted) vs.

Lemma run_follows_rule ps r vs0 en0 :
  state_ok r ps ->
  exists vs r' vds, ratifies r ps vs r' /\
    run_foldl (ratify_one input) (r, vs0, en0) ps =
      Ret (r', vs0 ++ vds, en0 ++ (RatifyProposal.id <$> accepted_of vs)) /\
    verdict_of <$> vds = ruling <$> vs.
Proof.
  revert r vs0 en0. induction ps as [|p ps IH]; intros r vs0 en0 Hs.
  { exists [], r, []. cbn. rewrite !app_nil_r. split_and!; [constructor|done..]. }
  pose proof (so_actions _ _ Hs) as Ha. apply Forall_cons in Ha as [Ha _].
  destruct (tally_proposal_spec r p (p :: ps) Hs Ha) as (t & Et & Ht).
  cbn [run_foldl]. unfold ratify_one at 2. cbn beta iota. rewrite Et. cbn.
  destruct (accepted t) eqn:Eacc.
  - assert (Hacc : accepts r p) by (by apply Ht).
    destruct (enact_spec r p Ha (so_treasury _ _ Hs) Hacc) as (r1 & -> & E1). cbn.
    rewrite E1. destruct (IH (enacted_state r p)
      (vs0 ++ [ProposalRatification.mk (RatifyProposal.key p) (RatifyProposal.id p) Accepted t])
      (en0 ++ [RatifyProposal.id p])) as (vs & r' & vds & Hr & -> & Hv); [by apply state_ok_enacted|].
    eexists ((p, Accepted) :: vs), r', (_ :: vds). split; [by constructor|]. rewrite <- !app_assoc.
    split; [done|]. by rewrite !fmap_cons, Hv.
  - assert (Hn : ~ accepts r p) by (rewrite <- Ht; done).
    destruct (Z.ltb_spec (RatifyProposal.expires_after p) (RatifyInput.current_epoch input)); cbn.
    + destruct (IH r (vs0 ++ [ProposalRatification.mk (RatifyProposal.key p) (RatifyProposal.id p) Expired t]) en0)
        as (vs & r' & vds & Hr & -> & Hv); [by eapply state_ok_tail|].
      eexists ((p, Expired) :: vs), r', (_ :: vds). split; [by constructor|]. rewrite <- !app_assoc.
      split; [done|]. by rewrite !fmap_cons, Hv.
    + destruct (IH r (vs0 ++ [ProposalRatification.mk (RatifyProposal.key p) (RatifyProposal.id p) Continuing t]) en0)
        as (vs & r' & vds & Hr & -> & Hv); [by eapply state_ok_tail|].
      eexists ((p, Continuing) :: vs), r', (_ :: vds). split; [by constructor|]. rewrite <- !app_assoc.
      split; [done|]. by rewrite !fmap_cons, Hv.
Qed.

End rule.

(** ** The order of the run *)

Lemma order_cmp_flip a b : order_cmp b a = CompOpp (order_cmp a b).
Proof.
  destruct a as [[s t] i], b as [[s' t'] i']. cbn. rewrite (Z.compare_antisym s s').
  destruct (s ?= s'); cbn; [|done..]. rewrite (bytes_cmp_antisym t t').
  destruct (bytes_cmp t t'); cbn; [|done..]. apply Z.compare_antisym.
Qed.

Lemma order_cmp_eq a b : order_cmp a b = Eq -> a = b.
Proof.
  destruct a as [[s t] i], b as [[s' t'] i']. cbn.
  destruct (Z.compare_spec s s') as [->| |]; [|done..].
  destruct (bytes_cmp t t') eqn:E; [|done..]. apply bytes_cmp_eq in E as ->.
  destruct (Z.compare_spec i i') as [->| |]; done.
Qed.

Lemma order_cmp_trans a b c : order_cmp a b = Lt -> order_cmp b c = Lt -> order_cmp a c = Lt.
Proof.
  destruct a as [[s t] i], b as [[s' t'] i'], c as [[s'' t''] i'']. cbn.
  destruct (Z.compare_spec s s') as [->|H1|]; [| |done].
  - destruct (s' ?= s''); [|done..].
    destruct (bytes_cmp t t') eqn:E1; [| |done].
    + apply bytes_cmp_eq in E1 as ->. destruct (bytes_cmp t' t''); [|done..].
      rewrite !Z.compare_lt_iff. lia.
    + intros _. destruct (bytes_cmp t' t'') eqn:E2; [| |done].
      * apply bytes_cmp_eq in E2 as ->. by rewrite E1.
      * by rewrite (bytes_cmp_lt_trans _ _ _ E1 E2).
  - intros _. destruct (Z.compare_spec s' s'') as [<-|H2|]; [| |done].
    + by rewrite (proj2 (Z.compare_lt_iff s s') H1).
    + intros _. by rewrite (proj2 (Z.compare_lt_iff s s'') ltac:(lia)).
Qed.

Lemma proposal_cmp_flip a b : proposal_cmp b a = CompOpp (proposal_cmp a b).
Proof.
  unfold proposal_cmp. rewrite Z.compare_antisym. destruct (_ ?= _); cbn; [|done..]. apply order_cmp_flip.
Qed.

Lemma proposal_le_spec a b :
  cmp_le proposal_cmp a b <->
  action_priority (RatifyProposal.action a) < action_priority (RatifyProposal.action b) \/
  action_priority (RatifyProposal.action a) = action_priority (RatifyProposal.action b) /\
  (RatifyProposal.order a = RatifyProposal.order b \/ order_cmp (RatifyProposal.order a) (RatifyProposal.order b) = Lt).
Proof.
  unfold cmp_le, proposal_cmp. destruct (Z.compare_spec (action_priority (RatifyProposal.action a))
    (action_priority (RatifyProposal.action b))) as [E|E|E]; [|split; [by left|done]|split; [done|lia]].
  split.
  - intros Hc. right. split; [done|]. destruct (order_cmp _ _) eqn:Eo; [|by right|done].
    left. by apply order_cmp_eq.
  - intros [?|[_ [Ho|Ho]]]; [lia| |by rewrite Ho]. rewrite Ho.
    destruct (order_cmp _ _) eqn:Eo; [done..|]. pose proof (order_cmp_flip (RatifyProposal.order b) (RatifyProposal.order b)).
    by rewrite Eo in *.
Qed.

Lemma proposal_le_trans a b c :
  cmp_le proposal_cmp a b -> cmp_le proposal_cmp b c -> cmp_le proposal_cmp a c.
Proof.
  rewrite !proposal_le_spec. intros [H1|[H1 O1]] [H2|[H2 O2]]; [left; lia..|].
  right. split; [lia|]. destruct O1 as [->|O1]; [done|]. destruct O2 as [<-|O2]; [by right|].
  right. by eapply order_cmp_trans.
Qed.

(** ** Consequences of the rule *)

Section consequences.
Context `{BuildCfg} (input : RatifyInput.t).

(** Each accepted action follows the root the earlier ones left. *)
Fixpoint follows_lineage (roots : GovRoots.t) (ps : list RatifyProposal.t) : Prop :=
  match ps with
  | [] => True
  | p :: ps' =>
      match action_purpose (RatifyProposal.action p) with
      | None => follows_lineage roots ps'
      | Some purpose =>
          RatifyProposal.parent p = GovRoots.root roots purpose /\
          follows_lineage (GovRoots.set_root roots purpose (Some (RatifyProposal.id p))) ps'
      end
  end.

Definition roots_after (roots : GovRoots.t) (ps : list RatifyProposal.t) : GovRoots.t :=
  foldl (fun roots p =>
    match action_purpose (RatifyProposal.action p) with
    | Some purpose => GovRoots.set_root roots purpose (Some (RatifyProposal.id p))
    | None => roots
    end) roots ps.

Lemma accepted_of_cons p v vs :
  accepted_of ((p, v) :: vs) = match v with Accepted => p :: accepted_of vs | _ => accepted_of vs end.
Proof. unfold accepted_of. rewrite filter_cons. by destruct v. Qed.

Lemma rule_lineage r ps vs r' :
  ratifies input r ps vs r' ->
  follows_lineage (RunState.roots r) (accepted_of vs) /\
  RunState.roots r' = roots_after (RunState.roots r) (accepted_of vs).
Proof.
  induction 1 as [r|r p ps vs r' Hacc _ [IH1 IH2]|r p ps vs r' _ _ _ IH|r p ps vs r' _ _ _ IH];
    rewrite ?accepted_of_cons; try done.
  pose proof (acc_lineage _ _ _ Hacc) as Hl. cbn in *. rewrite IH2. clear IH2.
  destruct (action_purpose (RatifyProposal.action p)); naive_solver.
Qed.

Lemma rule_treasury r ps vs r' :
  ratifies input r ps vs r' ->
  RunState.treasury r' = RunState.treasury r - Zsum (fun p => withdrawn (RatifyProposal.action p)) (accepted_of vs).
Proof.
  induction 1 as [r|r p ps vs r' Hacc _ IH|r p ps vs r' _ _ _ IH|r p ps vs r' _ _ _ IH];
    rewrite ?accepted_of_cons, ?Zsum_cons; try done; [cbn; lia|]. cbn in IH. lia.
Qed.

Lemma rule_delayed r ps vs r' :
  ratifies input r ps vs r' -> RunState.delayed r = true -> accepted_of vs = [].
Proof.
  induction 1 as [r|r p ps vs r' Hacc _ IH|r p ps vs r' _ _ _ IH|r p ps vs r' _ _ _ IH];
    rewrite ?accepted_of_cons; intros Hd; auto.
  pose proof (acc_delay _ _ _ Hacc). congruence.
Qed.

(** The actions that can enact together. *)
Definition ordinary_action (a : ProposalAction) : Prop :=
  match a with ParamChange _ | TreasuryWithdrawalAction _ => True | _ => False end.

Lemma accepts_kind r p :
  accepts input r p ->
  delaying_action (RatifyProposal.action p) = true \/ ordinary_action (RatifyProposal.action p).
Proof.
  intros Hacc. destruct (acc_dreps _ _ _ Hacc) as (t & Et & _). revert Et. unfold drep_threshold.
  destruct (bootstrap_phase _) as [b|]; [|done]. cbn.
  destruct (if b then _ else _) as [th|]; [|done]. cbn.
  destruct (RatifyProposal.action p); cbn; auto; done.
Qed.

Lemma rule_accepted_of r ps vs r' p : ratifies input r ps vs r' -> p ∈ accepted_of vs -> p ∈ ps.
Proof. intros Hr Hp. induction Hr; rewrite ?accepted_of_cons in Hp; set_solver. Qed.

Lemma rule_kinds r ps vs r' :
  ratifies input r ps vs r' -> StronglySorted (cmp_le proposal_cmp) ps ->
  (exists p, accepted_of vs = [p] /\ delaying_action (RatifyProposal.action p) = true) \/
  Forall (fun p => ordinary_action (RatifyProposal.action p)) (accepted_of vs).
Proof.
  induction 1 as [r|r p ps vs r' Hacc Hr IH|r p ps vs r' _ _ _ IH|r p ps vs r' _ _ _ IH];
    intros Hs; rewrite ?accepted_of_cons; [by right| |apply StronglySorted_inv in Hs as [? _]; auto..].
  apply StronglySorted_inv in Hs as [Hs Hf].
  destruct (accepts_kind _ _ Hacc) as [Hd|Ho].
  - left. exists p. split; [|done]. f_equal. eapply rule_delayed; [done|]. done.
  - right. constructor; [done|]. destruct (IH Hs) as [(q & Eq & Hq)|IH']; [|done].
    assert (q ∈ ps) as Hin.
    { eapply rule_accepted_of; [done|]. rewrite Eq. left. }
    rewrite Forall_forall in Hf. specialize (Hf q Hin). apply proposal_le_spec in Hf.
    exfalso. destruct (RatifyProposal.action p), (RatifyProposal.action q); cbn in *; done || lia.
Qed.

Lemma rule_treasury_nonneg r ps vs r' :
  ratifies input r ps vs r' -> 0 ≤ RunState.treasury r -> 0 ≤ RunState.treasury r'.
Proof.
  induction 1 as [r|r p ps vs r' Hacc _ IH|r p ps vs r' _ _ _ IH|r p ps vs r' _ _ _ IH]; auto.
  intros _. apply IH. pose proof (acc_treasury _ _ _ Hacc). cbn. lia.
Qed.

(** The engine, as a run of the rule. *)
Lemma ratify_follows_rule :
  input_ok input ->
  exists ps vs r' vds,
    ps ≡ₚ RatifyInput.proposals input /\ StronglySorted (cmp_le proposal_cmp) ps /\
    ratifies input (initial_run input) ps vs r' /\
    ratify input = Ret (RatifyOutcome.mk vds (RatifyProposal.id <$> accepted_of vs)
                          (RunState.roots r') (RunState.treasury r') (RunState.delayed r')) /\
    verdict_of <$> vds = ruling <$> vs.
Proof.
  intros Hin. pose proof (sort_by_perm proposal_cmp (RatifyInput.proposals input)) as Hp.
  pose proof (sort_by_sorted proposal_cmp proposal_cmp_flip proposal_le_trans (RatifyInput.proposals input)) as Hs.
  assert (Hok : state_ok input (initial_run input) (sort_by proposal_cmp (RatifyInput.proposals input))).
  { destruct (io_state _ Hin) as [? ? Hc Ha]. constructor; [done|done| |by rewrite Hp].
    unfold additions in *. by rewrite Hp. }
  destruct (run_follows_rule input Hin _ _ [] [] Hok) as (vs & r' & vds & Hr & E & Hv).
  exists (sort_by proposal_cmp (RatifyInput.proposals input)), vs, r', vds.
  split_and!; [done..| |done]. unfold ratify. by rewrite E.
Qed.

End consequences.

(** ** The parent walk *)

Section lineage.
Context (by_id : gmap GovActionId RatifyProposal.t) (winner : GovActionId).

(** An action reaches the winner by following parents. *)
Inductive reaches : GovActionId -> Prop :=
| reaches_winner : reaches winner
| reaches_parent a p b :
    by_id !! a = Some p -> RatifyProposal.parent p = Some b -> reaches b -> reaches a.

(** The number of parents up to the winner. *)
Inductive hits : nat -> GovActionId -> Prop :=
| hits_0 : hits 0 winner
| hits_S n a p b :
    a ≠ winner -> by_id !! a = Some p -> RatifyProposal.parent p = Some b -> hits n b -> hits (S n) a.

Lemma reaches_hits a : reaches a -> exists n, hits n a.
Proof.
  induction 1 as [|a p b Ha Hp _ [n Hn]]; [by exists O; constructor|].
  destruct (decide (a = winner)) as [->|Hw]; [by exists O; constructor|]. exists (S n). by econstructor.
Qed.

Lemma hits_unique n m a : hits n a -> hits m a -> n = m.
Proof.
  intros Hn. revert m. induction Hn as [|n a p b Hw Ha Hp _ IH]; intros m Hm; inversion Hm; simplify_eq; [done|].
  f_equal. by apply IH.
Qed.

(** The path to the winner has no repetition, so it is no longer than the
    number of known actions. *)
Lemma hits_path n a :
  hits n a -> exists l, length l = n /\ NoDup l /\
    forall x, x ∈ l -> is_Some (by_id !! x) /\ exists m, hits m x /\ (1 ≤ m ≤ n)%nat.
Proof.
  induction 1 as [|n a p b Hw Ha Hp Hb IH]; [exists []; split_and!; [done|constructor|set_solver]|].
  destruct IH as (l & Hl & Hd & Hx). exists (a :: l). split_and!; [cbn; lia| |].
  - constructor; [|done]. intros Hin. destruct (Hx a Hin) as (_ & m & Hm & Hle).
    assert (Hn : hits (S n) a) by (by econstructor). pose proof (hits_unique _ _ _ Hm Hn). lia.
  - intros x [->|Hin]%elem_of_cons.
    + split; [by eexists|]. exists (S n). split; [by econstructor|lia].
    + destruct (Hx x Hin) as (? & m & ? & ?). split; [done|]. exists m. split; [done|lia].
Qed.

Lemma hits_bound n a : hits n a -> (n ≤ size by_id)%nat.
Proof.
  intros (l & <- & Hd & Hx)%hits_path.
  assert (Hs : (list_to_set l : gset GovActionId) ⊆ dom by_id).
  { intros x Hin. apply elem_of_dom, Hx. set_solver. }
  apply subseteq_size in Hs. by rewrite size_list_to_set, size_dom in Hs.
Qed.

Lemma walk_hits n a remaining : hits n a -> (n ≤ remaining)%nat -> walk_parents by_id winner remaining (Some a) = true.
Proof.
  intros Hn. revert remaining. induction Hn as [|n a p b Hw Ha Hp _ IH]; intros remaining Hr.
  - destruct remaining; cbn; by rewrite bool_decide_eq_true_2.
  - destruct remaining as [|remaining]; [lia|]. cbn. rewrite bool_decide_eq_false_2, Ha by done. cbn.
    rewrite Hp. apply IH. lia.
Qed.

Lemma walk_reaches remaining cursor :
  walk_parents by_id winner remaining cursor = true -> exists a, cursor = Some a /\ reaches a.
Proof.
  revert cursor. induction remaining as [|n IH]; intros [a|]; cbn; try done.
  - case_bool_decide; [|done]. subst. intros _. eexists. split; [done|constructor].
  - case_bool_decide; [subst; intros _; eexists; split; [done|constructor]|].
    intros (b & Hb & Hr)%IH. apply bind_Some in Hb as (p & Hp & Hpb). eexists. split; [done|].
    by econstructor.
Qed.

(** The bound of the walk is enough. *)
Lemma walk_spec remaining a :
  (size by_id ≤ remaining)%nat -> walk_parents by_id winner remaining (Some a) = true <-> reaches a.
Proof.
  intros Hb. split.
  - intros (b & [= ->] & Hr)%walk_reaches. done.
  - intros (n & Hn)%reaches_hits. eapply walk_hits; [done|]. apply hits_bound in Hn. lia.
Qed.

End lineage.

Lemma index_by_id_size ps : (size (index_by_id ps) ≤ length ps)%nat.
Proof.
  unfold index_by_id. assert (Hg : forall m : gmap GovActionId RatifyProposal.t,
    (size (foldl (fun m p => <[RatifyProposal.id p := p]> m) m ps) ≤ size m + length ps)%nat).
  { induction ps as [|p ps IH]; intros m; cbn; [lia|]. etrans; [apply IH|].
    rewrite map_size_insert. case_match; unfold id; lia. }
  specialize (Hg ∅). by rewrite map_size_empty in Hg.
Qed.

(** The purpose of a known action. *)
Definition purpose_of (by_id : gmap GovActionId RatifyProposal.t) (id : GovActionId) : option GovPurpose :=
  by_id !! id ≫= fun p => action_purpose (RatifyProposal.action p).

Lemma last_enacted_spec by_id enacted purpose :
  last_enacted_of by_id enacted !! purpose = last (filter (fun id => purpose_of by_id id = Some purpose) enacted).
Proof.
  unfold last_enacted_of. induction enacted as [|id l IH] using rev_ind; [done|].
  rewrite foldl_app, filter_app. cbn [foldl].
  destruct (decide (purpose_of by_id id = Some purpose)) as [Hp|Hp].
  - rewrite (filter_cons_True _ id) by done.
    rewrite filter_nil, last_snoc. apply bind_Some in Hp as (p & -> & ->). by rewrite lookup_insert_eq.
  - rewrite (filter_cons_False _ id) by done.
    rewrite filter_nil, app_nil_r, <- IH. unfold purpose_of in Hp. destruct (by_id !! id) as [p|]; [|done]. cbn in Hp.
    destruct (action_purpose _) as [q|]; [|done]. by rewrite lookup_insert_ne by congruence.
Qed.

(** ** Theorems *)

Section theorems.
Context `{BuildCfg}.

(** C4: On every input without overflow, and in every build, the engine returns the outcome of the
    RATIFY rule over the proposals in priority order: a verdict for every proposal, the accepted
    actions in the order they enact, and the roots, treasury and delay the enactments leave. *)
Theorem ratify_refines_rule (input : RatifyInput.t) :
  input_ok input ->
  exists ps vs r' out,
    ps ≡ₚ RatifyInput.proposals input /\ StronglySorted (cmp_le proposal_cmp) ps /\
    ratifies input (initial_run input) ps vs r' /\
    ratify input = Ret out /\
    verdict_of <$> RatifyOutcome.verdicts out = ruling <$> vs /\
    RatifyOutcome.enacted out = RatifyProposal.id <$> accepted_of vs /\
    RatifyOutcome.roots out = RunState.roots r' /\
    RatifyOutcome.treasury out = RunState.treasury r' /\
    RatifyOutcome.delayed out = RunState.delayed r'.
Proof.
  intros Hin. destruct (ratify_follows_rule input Hin) as (ps & vs & r' & vds & Hp & Hs & Hr & E & Hv).
  eexists ps, vs, r', _. rewrite E. by split_and!.
Qed.

(** The actions a run enacts form a chain in each lineage, starting at the root the boundary
    found and ending at the root it leaves; the treasury pays exactly what they withdraw, never more
    than it holds; and they are either one delaying action on its own, or parameter changes and
    treasury withdrawals only. *)
Theorem enacted_actions_sound (input : RatifyInput.t) (out : RatifyOutcome.t) :
  input_ok input -> ratify input = Ret out ->
  exists ps,
    RatifyOutcome.enacted out = RatifyProposal.id <$> ps /\
    (forall p, p ∈ ps -> p ∈ RatifyInput.proposals input) /\
    follows_lineage (RatifyInput.roots input) ps /\
    RatifyOutcome.roots out = roots_after (RatifyInput.roots input) ps /\
    RatifyOutcome.treasury out =
      RatifyInput.treasury input - Zsum (fun p => withdrawn (RatifyProposal.action p)) ps /\
    0 ≤ RatifyOutcome.treasury out /\
    ((exists p, ps = [p] /\ delaying_action (RatifyProposal.action p) = true) \/
     Forall (fun p => ordinary_action (RatifyProposal.action p)) ps).
Proof.
  intros Hin E. destruct (ratify_follows_rule input Hin) as (ps & vs & r' & vds & Hp & Hs & Hr & E' & Hv).
  rewrite E' in E. simplify_eq/=. destruct (rule_lineage _ _ _ _ _ Hr) as [Hl Hroots].
  exists (accepted_of vs). split_and!; [done| |done|done|by apply rule_treasury in Hr| |by eapply rule_kinds].
  - intros p Hpin. rewrite <- Hp. by eapply rule_accepted_of.
  - eapply rule_treasury_nonneg; [done|]. apply (so_treasury _ _ _ (io_state _ Hin)).
Qed.

(** The ruling does not depend on the order in which the proposals of the snapshot are listed. *)
Theorem ratify_order_irrelevant (input : RatifyInput.t) (ps : list RatifyProposal.t) :
  NoDup (RatifyProposal.order <$> RatifyInput.proposals input) -> ps ≡ₚ RatifyInput.proposals input ->
  ratify (input <| RatifyInput.proposals := ps |>) = ratify input.
Proof.
  intros Hd Hp. unfold ratify. cbn.
  rewrite (sort_by_of_perm proposal_cmp proposal_cmp_flip proposal_le_trans (RatifyInput.proposals input) ps);
    [done| |done].
  intros x y Hx Hy Hc. unfold proposal_cmp in Hc. destruct (_ ?= _); [|done..].
  apply order_cmp_eq in Hc. by eapply NoDup_fmap_inj.
Qed.

End theorems.

(** Enacting actions removes exactly the proposals of an enacted purpose that are neither
    enacted nor descendants, through declared parents, of the last enacted action of that purpose;
    the bounded walk decides that descent. *)
Theorem pruned_are_siblings (proposals : list RatifyProposal.t) (enacted : list GovActionId) (k : EntityKey) :
  let by_id := index_by_id proposals in
  (k ∈ pruned_by_enactment proposals enacted) <->
  exists p purpose winner,
    p ∈ proposals /\ RatifyProposal.key p = k /\ ~ (RatifyProposal.id p ∈ enacted) /\
    action_purpose (RatifyProposal.action p) = Some purpose /\
    last (filter (fun id => purpose_of by_id id = Some purpose) enacted) = Some winner /\
    ~ (exists a, RatifyProposal.parent p = Some a /\ reaches by_id winner a).
Proof.
  intros by_id. unfold pruned_by_enactment. fold by_id.
  rewrite (elem_of_foldl_collect _ (fun p => ~ (RatifyProposal.id p ∈ enacted) /\ exists purpose winner,
    action_purpose (RatifyProposal.action p) = Some purpose /\
    last (filter (fun id => purpose_of by_id id = Some purpose) enacted) = Some winner /\
    ~ (exists a, RatifyProposal.parent p = Some a /\ reaches by_id winner a)) RatifyProposal.key).
  { split; [|naive_solver]. intros [?|(p & ? & (? & purpose & winner & ?) & ?)]; [set_solver|].
    exists p, purpose, winner. tauto. }
  intros s p Hp. case_bool_decide as He; [set_solver|].
  destruct (action_purpose (RatifyProposal.action p)) as [purpose|]; [|naive_solver].
  rewrite last_enacted_spec. destruct (last _) as [winner|] eqn:El; [|naive_solver].
  assert (Hw : walk_parents by_id winner (length proposals) (RatifyProposal.parent p) = true <->
    exists a, RatifyProposal.parent p = Some a /\ reaches by_id winner a).
  { destruct (RatifyProposal.parent p) as [a|]; [|by destruct (length proposals); split; naive_solver].
    rewrite walk_spec by apply index_by_id_size. naive_solver. }
  destruct (walk_parents _ _ _ _).
  - split; [by left|]. intros [?|((_ & pu & w & ? & ? & Hn) & _)]; [done|]. simplify_eq. destruct Hn. by apply Hw.
  - rewrite elem_of_union, elem_of_singleton. split.
    + intros [->|?]; [|by left]. right. split; [|done]. split; [set_solver|]. exists purpose, winner.
      split_and!; [done..|]. intros Ha. by apply Hw in Ha.
    + intros [?|[_ <-]]; auto.
Qed.

(** ** A concrete boundary *)

Module RatifyDemo.

Definition half : RationalNumber := {| numerator := 1; denominator := 2 |}.
Definition cold : StakeCredential := AddrKeyhash (replicate 28 1).
Definition hot : StakeCredential := AddrKeyhash (replicate 28 2).
Definition voter : StakeCredential := AddrKeyhash (replicate 28 3).
Definition pool : PoolHash := replicate 28 4.
Definition action_id (n : Z) : GovActionId := {| transaction_id := replicate 32 n; action_index := 0 |}.

Definition proposal (n : Z) (action : ProposalAction) (parent : option GovActionId) : RatifyProposal.t :=
  RatifyProposal.mk (replicate 32 n) (action_id n) action parent 110 (n, replicate 32 n, 0)
    {[hot := VYes]} {[voter := VYes]} {[pool := VYes]}.

Definition pay (amount : Z) : ProposalAction := TreasuryWithdrawalAction [(voter, amount)].
Definition change (x : Z) : ProposalAction := ParamChange (PParamsSet.mk [PParamValue.KeyDeposit x]).

(** Two payments, the second more than what the first leaves, and two
    parameter changes, the second the child of the first. *)
Definition input : RatifyInput.t :=
  RatifyInput.mk 100
    (PParamsSet.mk [PParamValue.ProtocolVersion (10, 0); PParamValue.MinCommitteeSize 1]) 1000
    (Some {| members := {[cold := 200]}; c_threshold := half |}) GovRoots.default_
    {[cold := HotCredential hot]} {[DRepKey (replicate 28 3) := 50]} {[pool := 70]} 70
    {[voter := None]} ∅
    [proposal 4 (pay 600) None; proposal 3 (pay 700) None;
     proposal 2 (change 5) (Some (action_id 1)); proposal 1 (change 4) None].

Lemma input_is_ok : input_ok input.
Proof.
  constructor.
  - done.
  - split; [apply map_Forall_singleton; lia|done].
  - split; [apply map_Forall_singleton; lia|done].
  - done.
  - constructor; [done| |done|].
    + intros m Hm. cbn in Hm. set_solver.
    + unfold input; cbn [RatifyInput.proposals]. rewrite !Forall_cons. cbn. split_and!; try done; try (by apply Forall_singleton);
        intros m Hm; cbn in Hm; set_solver.
Qed.

Lemma ratify_refines_rule_witness :
  exists ps vs r' out,
    ps ≡ₚ RatifyInput.proposals input /\ StronglySorted (cmp_le proposal_cmp) ps /\
    ratifies input (initial_run input) ps vs r' /\
    ratify (H := cfg_debug) input = Ret out /\
    verdict_of <$> RatifyOutcome.verdicts out = ruling <$> vs /\
    RatifyOutcome.enacted out = RatifyProposal.id <$> accepted_of vs /\
    RatifyOutcome.roots out = RunState.roots r' /\
    RatifyOutcome.treasury out = RunState.treasury r' /\
    RatifyOutcome.delayed out = RunState.delayed r'.
Proof. exact (ratify_refines_rule (H := cfg_debug) input input_is_ok). Defined.

Definition outcome : RatifyOutcome.t :=
  match ratify (H := cfg_debug) input with
  | Ret out => out
  | Panic => RatifyOutcome.mk [] [] GovRoots.default_ 0 false
  end.

(** The first payment and both parameter changes are enacted, in priority
    order; the payment that no longer fits stays. *)
Lemma enacted_actions_sound_witness :
  RatifyOutcome.enacted outcome = action_id <$> [1; 2; 3] /\
  RatifyOutcome.treasury outcome = 300 /\
  exists ps, RatifyOutcome.enacted outcome = RatifyProposal.id <$> ps /\
    follows_lineage GovRoots.default_ ps.
Proof.
  split; [by vm_compute|]. split; [by vm_compute|].
  destruct (enacted_actions_sound (H := cfg_debug) input outcome input_is_ok ltac:(by vm_compute))
    as (ps & Hps & _ & Hl & _).
  exists ps. split; [exact Hps|exact Hl].
Defined.

Lemma ratify_order_irrelevant_witness :
  ratify (H := cfg_debug) (input <| RatifyInput.proposals := reverse (RatifyInput.proposals input) |>) =
  ratify (H := cfg_debug) input.
Proof.
  apply (ratify_order_irrelevant (H := cfg_debug) input (reverse (RatifyInput.proposals input))).
  - refine (bool_decide_unpack _ _). by vm_compute.
  - apply reverse_Permutation.
Defined.

End RatifyDemo.
