(* ===== verification/Boundary.v ===== *)
(** * The sharded epoch boundary

    The per-account work of a boundary is split in shards, each committed
    on its own; a node that stops in the middle resumes, and a shard may be
    delivered again.  The progress deltas of the epoch entity and the
    accumulator of the governance entity make the accumulation happen exactly
    once per shard, in order (cardano/src/model/epochs.rs, gov.rs). *)

From S2P Require Import Prelude Types EpochValue EntityDelta PParams Pots Epochs Gov.
Open Scope Z_scope.

(** ** Delivering shards *)

(** The cursor after the shards of a list are delivered: a shard counts when
    it is the next expected one. *)
Fixpoint advance (c : Z) (shards : list Z) : Z :=
  match shards with
  | [] => c
  | i :: rest => advance (if i =? c then c + 1 else c) rest
  end.

(** What the shards below [c] add up to. *)
Definition sum_below (f : Z -> Z) (c : Z) : Z := foldr Z.add 0 (f <$> seqZ 0 c).

Lemma sum_below_0 f : sum_below f 0 = 0.
Proof. done. Qed.

Lemma sum_below_succ f c : 0 ≤ c -> sum_below f (c + 1) = sum_below f c + f c.
Proof.
  intros Hc. unfold sum_below. rewrite seqZ_app, (seqZ_cons _ 1), (seqZ_nil _ (Z.pred 1)) by lia.
  assert (Hl : forall l a, foldr Z.add a l = foldr Z.add 0 l + a).
  { intros l a. induction l as [|x l IH]; cbn; lia. }
  rewrite fmap_app, foldr_app, Hl. cbn -[seqZ]. rewrite Z.add_0_l. lia.
Qed.

Lemma sum_below_mono f c n :
  (forall i, 0 ≤ i < n -> 0 ≤ f i) -> 0 ≤ c ≤ n -> 0 ≤ sum_below f c ≤ sum_below f n.
Proof.
  intros Hf Hc. split.
  - unfold sum_below. assert (Hall : Forall (fun x => 0 ≤ x) (f <$> seqZ 0 c)).
    { apply Forall_fmap, Forall_forall. intros i Hi. apply elem_of_seqZ in Hi. apply Hf. lia. }
    induction Hall; cbn; lia.
  - replace n with (c + Z.of_nat (Z.to_nat (n - c))) by lia.
    assert (Hk : c + Z.of_nat (Z.to_nat (n - c)) ≤ n) by lia. revert Hk.
    induction (Z.to_nat (n - c)) as [|k IH]; intros Hk; [by rewrite Z.add_0_r|].
    replace (c + Z.of_nat (S k)) with (c + Z.of_nat k + 1) by lia.
    rewrite sum_below_succ by lia. specialize (Hf (c + Z.of_nat k) ltac:(lia)).
    specialize (IH ltac:(lia)). lia.
Qed.

Lemma advance_bounds shards : forall c n,
  Forall (fun i => 0 ≤ i < n) shards -> 0 ≤ c ≤ n -> c ≤ advance c shards ≤ n.
Proof.
  induction shards as [|i rest IH]; intros c n Hall Hc; cbn; [lia|].
  apply Forall_cons in Hall as [Hi Hall]. destruct (Z.eqb_spec i c).
  - specialize (IH (c + 1) n Hall ltac:(lia)). lia.
  - by apply IH.
Qed.

(** A list that contains one pass over the shards in order completes them. *)
Lemma advance_complete shards n : forall c c',
  Forall (fun i => 0 ≤ i < n) shards -> sublist (seqZ c (n - c)) shards ->
  c ≤ c' ≤ n -> advance c' shards = n.
Proof.
  induction shards as [|i rest IH]; intros c c' Hall Hs Hc; cbn.
  - apply sublist_nil_r, (f_equal length) in Hs. rewrite length_seqZ in Hs. cbn in Hs. lia.
  - apply Forall_cons in Hall as [Hi Hall].
    apply sublist_cons_r in Hs as [Hs|(k & Hk & Hs)].
    + apply (IH c); [done..|]. destruct (Z.eqb_spec i c'); lia.
    + assert (Hcn : c < n).
      { destruct (decide (n ≤ c)); [|lia]. rewrite seqZ_nil in Hk by lia. done. }
      rewrite seqZ_cons in Hk by lia. injection Hk as Hic Hk.
      apply (IH (c + 1)); [done| |destruct (Z.eqb_spec i c'); lia].
      replace (n - (c + 1)) with (Z.pred (n - c)) by lia.
      change (c + 1) with (Z.succ c). by rewrite Hk.
Qed.

(** ** The rewards of the boundary *)

Section ewrap.
Context `{BuildCfg, Pallas}.
Variable n : Z.
Variables effective treasury reserves : Z -> Z.

(** The delta shard [i] emits. *)
Definition ewrap_delta (i : Z) : EWrapProgress.t :=
  EWrapProgress.new (effective i) (treasury i) (reserves i) i n.

(** Delivering shard [i]. *)
Definition deliver (e : option EpochState.t) (i : Z) : run (option EpochState.t) :=
  r ← EWrapProgress.apply (ewrap_delta i) e; Ret r.2.

(** The entity once the shards below [c] are in. *)
Definition with_shards (st : EpochState.t) (en : EndStats.t) (c : Z) : EpochState.t :=
  st <| EpochState.end_ := Some (
          en <| EndStats.effective_rewards := EndStats.effective_rewards en + sum_below effective c |>
             <| EndStats.unspendable_to_treasury :=
                  EndStats.unspendable_to_treasury en + sum_below treasury c |>
             <| EndStats.unspendable_to_reserves :=
                  EndStats.unspendable_to_reserves en + sum_below reserves c |>) |>
     <| EpochState.ewrap_progress := if c =? 0 then None else Some (ShardProgress.mk c n) |>.

(** The amounts are non-negative and their totals fit the accumulators. *)
Definition fits (en : EndStats.t) : Prop :=
  is_u32 n /\ EndStats.wf en /\
  (forall i, 0 ≤ i < n -> 0 ≤ effective i /\ 0 ≤ treasury i /\ 0 ≤ reserves i) /\
  EndStats.effective_rewards en + sum_below effective n < 2 ^ 64 /\
  EndStats.unspendable_to_treasury en + sum_below treasury n < 2 ^ 64 /\
  EndStats.unspendable_to_reserves en + sum_below reserves n < 2 ^ 64.

Lemma with_shards_0 st en :
  EpochState.end_ st = Some en -> EpochState.ewrap_progress st = None -> with_shards st en 0 = st.
Proof.
  intros He Hp. destruct st, en. cbn in *. subst. unfold with_shards. rewrite !sum_below_0. cbn.
  by rewrite !Z.add_0_r.
Qed.

Lemma deliver_step st en c i :
  fits en -> 0 ≤ c ≤ n -> 0 ≤ i < n ->
  deliver (Some (with_shards st en c)) i =
    Ret (Some (with_shards st en (if i =? c then c + 1 else c))).
Proof.
  intros (Hn & Hw & Hpos & Hx & Hy & Hz) Hc Hi. unfold deliver, EWrapProgress.apply.
  assert (Hexp : match EpochState.ewrap_progress (with_shards st en c) with
                 | Some p => ShardProgress.committed p | None => 0 end = c).
  { cbn. by destruct (Z.eqb_spec c 0). }
  assert (Htot : match EpochState.ewrap_progress (with_shards st en c) with
                 | Some p => negb (ShardProgress.total p =? n) | None => false end = false).
  { cbn. destruct (c =? 0); cbn; [done|]. by rewrite Z.eqb_refl. }
  cbn [existing mbind run_bind ewrap_delta EWrapProgress.new EWrapProgress.completed_shard_index
    EWrapProgress.total_shards]. cbv zeta. rewrite Hexp, Htot.
  destruct (Z.ltb_spec i c), (Z.ltb_spec c i), (Z.eqb_spec i c); try lia; try done. subst i.
  destruct (sum_below_mono effective (c + 1) n) as [Hx0 Hx1]; [intros; by apply Hpos|lia|].
  destruct (sum_below_mono treasury (c + 1) n) as [Hy0 Hy1]; [intros; by apply Hpos|lia|].
  destruct (sum_below_mono reserves (c + 1) n) as [Hz0 Hz1]; [intros; by apply Hpos|lia|].
  destruct (sum_below_mono effective c n) as [Hx2 _]; [intros; by apply Hpos|lia|].
  destruct (sum_below_mono treasury c n) as [Hy2 _]; [intros; by apply Hpos|lia|].
  destruct (sum_below_mono reserves c n) as [Hz2 _]; [intros; by apply Hpos|lia|].
  rewrite sum_below_succ in Hx1, Hy1, Hz1 by lia.
  destruct (Hpos c Hi) as (? & ? & ?). unfold EndStats.wf, is_u in *. cbn.
  rewrite !uadd_exact by (unfold is_u; lia). cbn.
  unfold with_shards. rewrite !sum_below_succ by lia.
  destruct (Z.eqb_spec (c + 1) 0); [lia|]. by rewrite !Z.add_assoc.
Qed.

Lemma deliver_all st en shards : forall c,
  fits en -> 0 ≤ c ≤ n -> Forall (fun i => 0 ≤ i < n) shards ->
  run_foldl deliver (Some (with_shards st en c)) shards =
    Ret (Some (with_shards st en (advance c shards))).
Proof.
  induction shards as [|i rest IH]; intros c Hf Hc Hall; [done|].
  apply Forall_cons in Hall as [Hi Hall]. cbn [run_foldl].
  rewrite (deliver_step st en c i) by done. cbn [mbind run_bind].
  apply IH; [done| |done]. destruct (Z.eqb_spec i c); lia.
Qed.

(** C28: the rewards of a boundary are accumulated exactly once per shard.
    However the shards are delivered, in any order, with repetitions (a crash between a commit
    and the work buffer, a resumed boundary), no delivery panics, and the epoch's accumulators
    hold the initial values plus the amounts of the shards up to the cursor, each counted once;
    a delivery that contains one pass over the shards in order ends with all of them. *)
Theorem ewrap_exactly_once st en shards :
  EpochState.end_ st = Some en -> EpochState.ewrap_progress st = None -> fits en -> 0 < n ->
  Forall (fun i => 0 ≤ i < n) shards ->
  run_foldl deliver (Some st) shards = Ret (Some (with_shards st en (advance 0 shards))) /\
  (sublist (seqZ 0 n) shards -> advance 0 shards = n).
Proof.
  intros He Hp Hf Hn Hall. split.
  - rewrite <- (with_shards_0 st en) at 1 by done. apply deliver_all; [done|lia|done].
  - intros Hs. apply (advance_complete shards n 0 0); [done| |lia]. by rewrite Z.sub_0_r.
Qed.

End ewrap.

(** Four shards: shard 2 arrives early and is dropped, shard 1 twice. *)
Lemma ewrap_exactly_once_witness :
  let st := EpochState.default_ <| EpochState.end_ := Some EndStats.default_ |> in
  let shards := [0; 2; 1; 1; 2; 3] in
  run_foldl (@deliver cfg_debug 4 (fun i => 10 * (i + 1)) (fun _ => 1) (fun _ => 0)) (Some st) shards =
    Ret (Some (with_shards 4 (fun i => 10 * (i + 1)) (fun _ => 1) (fun _ => 0) st EndStats.default_ 4)).
Proof.
  intros st shards.
  destruct (@ewrap_exactly_once cfg_debug 4 (fun i => 10 * (i + 1)) (fun _ => 1) (fun _ => 0)
              st EndStats.default_ shards) as [E Hc].
  - reflexivity.
  - reflexivity.
  - unfold fits, EndStats.wf, is_u. cbn. split_and!; first [lia | intros; lia | vm_compute; reflexivity].
  - lia.
  - repeat constructor; lia.
  - rewrite E. reflexivity.
Defined.

(** ** The stake distribution of the boundary *)

(** Adding up two weightings. *)
Definition add_weights {K} `{Countable K} (a b : gmap K Z) : gmap K Z :=
  union_with (fun x y => Some (x + y)) a b.

Lemma lookup_add_weights {K} `{Countable K} (a b : gmap K Z) k :
  add_weights a b !! k =
    match b !! k with Some w => Some (default 0 (a !! k) + w) | None => a !! k end.
Proof.
  unfold add_weights. rewrite lookup_union_with.
  by destruct (a !! k), (b !! k).
Qed.

(** Where no sum overflows, the loop adds the weightings up. *)
Lemma merge_weights_exact `{BuildCfg} {K} `{Countable K} (base delta : gmap K Z) :
  (forall k w, delta !! k = Some w -> is_u64 (default 0 (base !! k) + w)) ->
  merge_weights base delta = Ret (add_weights base delta).
Proof.
  intros Hr. unfold merge_weights.
  cut (forall (l : list (K * Z)) (base : gmap K Z), NoDup l.*1 ->
    (forall k w, (k, w) ∈ l -> is_u64 (default 0 (base !! k) + w)) ->
    exists m, run_foldl (fun m kw => x ← uadd 64 (default 0 (m !! fst kw)) (snd kw);
                           Ret (<[fst kw := x]> m)) base l = Ret m /\
      forall k, m !! k = match list_to_map (M := gmap K Z) l !! k with
                         | Some w => Some (default 0 (base !! k) + w) | None => base !! k end).
  { intros Hl. destruct (Hl (map_to_list delta) base (NoDup_fst_map_to_list delta)) as (m & -> & Hm).
    - intros k w Hk. apply Hr. by apply elem_of_map_to_list.
    - f_equal. apply map_eq. intros k. rewrite Hm, list_to_map_to_list. by rewrite lookup_add_weights. }
  clear. intros l. induction l as [|[k w] l IH]; intros base Hnd Hr; [by exists base|].
  cbn in Hnd. apply NoDup_cons in Hnd as [Hk Hnd].
  cbn. rewrite uadd_exact by (apply Hr; by left). cbn.
  destruct (IH (<[k := default 0 (base !! k) + w]> base) Hnd) as (m & -> & Hm).
  - intros k' w' Hi. rewrite lookup_insert_ne; [apply Hr; by right|]. intros <-. apply Hk.
    apply list_elem_of_fmap. by exists (k, w').
  - exists m. split; [done|]. intros k'. rewrite Hm. destruct (decide (k = k')) as [<-|Hn].
    + rewrite (not_elem_of_list_to_map_1 l k Hk). by rewrite !lookup_insert_eq.
    + by rewrite !lookup_insert_ne.
Qed.

Section distr.
Context `{BuildCfg, Pallas}.
Variables epoch n : Z.
Variable dreps : Z -> gmap DRep Z.
Variable pools : Z -> gmap PoolHash Z.
Variable totals : Z -> Z.

Definition distr_delta (i : Z) : GovDistrAccumulate.t :=
  GovDistrAccumulate.new epoch i n (dreps i) (pools i) (totals i).

Definition deliver_distr (e : option GovState.t) (i : Z) : run (option GovState.t) :=
  r ← GovDistrAccumulate.apply (distr_delta i) e; Ret r.2.

(** The weights of the shards below [c], added up. *)
Definition weights_below {K} `{Countable K} (f : Z -> gmap K Z) (c : Z) : gmap K Z :=
  foldl (fun acc i => add_weights acc (f i)) ∅ (seqZ 0 c).

Lemma weights_below_succ {K} `{Countable K} (f : Z -> gmap K Z) c :
  0 ≤ c -> weights_below f (c + 1) = add_weights (weights_below f c) (f c).
Proof.
  intros Hc. unfold weights_below.
  by rewrite seqZ_app, (seqZ_cons _ 1), (seqZ_nil _ (Z.pred 1)), foldl_app by lia.
Qed.

(** The entity once the shards below [c] are in: the accumulator of the
    previous boundary is replaced by shard 0. *)
Definition with_distr (st : GovState.t) (c : Z) : GovState.t :=
  if c =? 0 then st
  else st <| GovState.distr := Some {|
    GovDistr.closing_epoch := epoch; GovDistr.committed_shards := c; GovDistr.total_shards := n;
    GovDistr.drep_distr := weights_below dreps c; GovDistr.pool_distr := weights_below pools c;
    GovDistr.pool_total := sum_below totals c |} |>.

(** No accumulator of this boundary or of a later one. *)
Definition before_boundary (st : GovState.t) : Prop :=
  match GovState.distr st with
  | None => True
  | Some d => GovDistr.closing_epoch d < epoch
  end.

Definition distr_fits : Prop :=
  is_u32 n /\
  (forall i, 0 ≤ i < n -> 0 ≤ totals i) /\ sum_below totals n < 2 ^ 64 /\
  (forall c k w, 0 ≤ c < n -> dreps c !! k = Some w ->
     is_u64 (default 0 (weights_below dreps c !! k) + w)) /\
  (forall c k w, 0 ≤ c < n -> pools c !! k = Some w ->
     is_u64 (default 0 (weights_below pools c !! k) + w)).

Lemma distr_accepts st c i :
  before_boundary st -> 0 ≤ c -> 0 ≤ i ->
  GovDistrAccumulate.accepts (distr_delta i) (GovState.distr (with_distr st c)) = (i =? c).
Proof.
  intros Hb Hc Hi. unfold GovDistrAccumulate.accepts, with_distr, before_boundary in *. cbn.
  destruct (Z.eqb_spec c 0) as [->|Hn0].
  - destruct (GovState.distr st) as [d|]; [|by destruct (Z.eqb_spec i 0)].
    destruct (Z.eqb_spec (GovDistr.closing_epoch d) epoch); [lia|].
    destruct (Z.ltb_spec epoch (GovDistr.closing_epoch d)); [lia|]. by destruct (Z.eqb_spec i 0).
  - cbn. rewrite !Z.eqb_refl. cbn.
    destruct (Z.ltb_spec i c), (Z.ltb_spec c i), (Z.eqb_spec i c); lia || done.
Qed.

Lemma deliver_distr_step st c i :
  distr_fits -> before_boundary st -> 0 ≤ c ≤ n -> 0 ≤ i < n ->
  deliver_distr (Some (with_distr st c)) i =
    Ret (Some (with_distr st (if i =? c then c + 1 else c))).
Proof.
  intros (Hn & Ht & Hts & Hd & Hp) Hb Hc Hi.
  unfold deliver_distr, GovDistrAccumulate.apply. cbn [existing mbind run_bind].
  rewrite distr_accepts by (done || lia). destruct (Z.eqb_spec i c) as [->|]; [|done].
  cbn [negb]. cbv zeta.
  set (base := match GovState.distr (with_distr st c) with Some _ => _ | None => _ end).
  assert (Eb : base = {|
    GovDistr.closing_epoch := epoch; GovDistr.committed_shards := c; GovDistr.total_shards := n;
    GovDistr.drep_distr := weights_below dreps c; GovDistr.pool_distr := weights_below pools c;
    GovDistr.pool_total := sum_below totals c |}).
  { unfold base, with_distr, before_boundary in *. destruct (Z.eqb_spec c 0) as [->|].
    - destruct (GovState.distr st) as [d|]; [|done]. cbn.
      by destruct (Z.eqb_spec (GovDistr.closing_epoch d) epoch); [lia|].
    - cbn. by rewrite Z.eqb_refl. }
  rewrite Eb. cbn -[merge_weights uadd]. unfold is_u in Hn.
  rewrite !merge_weights_exact by (intros; eauto). cbn -[uadd].
  pose proof (sum_below_mono totals c n Ht ltac:(lia)) as [Hs0 _].
  pose proof (sum_below_mono totals (c + 1) n Ht ltac:(lia)) as [_ Hs1].
  rewrite sum_below_succ in Hs1 by lia. pose proof (Ht c ltac:(lia)).
  rewrite !uadd_exact by (unfold is_u; lia). cbn. unfold with_distr.
  rewrite !weights_below_succ, sum_below_succ by lia.
  destruct (Z.eqb_spec (c + 1) 0); [lia|]. by destruct (Z.eqb_spec c 0).
Qed.

Lemma deliver_distr_all st shards : forall c,
  distr_fits -> before_boundary st -> 0 ≤ c ≤ n -> Forall (fun i => 0 ≤ i < n) shards ->
  run_foldl deliver_distr (Some (with_distr st c)) shards =
    Ret (Some (with_distr st (advance c shards))).
Proof.
  induction shards as [|i rest IH]; intros c Hf Hb Hc Hall; [done|].
  apply Forall_cons in Hall as [Hi Hall]. cbn [run_foldl].
  rewrite (deliver_distr_step st c i) by done. cbn [mbind run_bind].
  apply IH; [done|done| |done]. destruct (Z.eqb_spec i c); lia.
Qed.

(** The governance stake distribution counts every shard exactly once.
    Shards delivered in any order and repeated leave an accumulator that holds, for every DRep
    and every pool, the sum of the weights of the shards up to the cursor; a delivery that
    contains a pass in order leaves the accumulator complete for the boundary's epoch. *)
Theorem gov_distr_exactly_once st shards :
  distr_fits -> before_boundary st -> 0 < n -> Forall (fun i => 0 ≤ i < n) shards ->
  exists st', run_foldl deliver_distr (Some st) shards = Ret (Some st') /\
    st' = with_distr st (advance 0 shards) /\
    (sublist (seqZ 0 n) shards -> exists d, GovState.distr st' = Some d /\
       GovDistr.is_complete_for d epoch = true /\
       GovDistr.drep_distr d = weights_below dreps n /\
       GovDistr.pool_distr d = weights_below pools n /\
       GovDistr.pool_total d = sum_below totals n).
Proof.
  intros Hf Hb Hn Hall. exists (with_distr st (advance 0 shards)). split; [|split; [done|]].
  - change (Some st) with (Some (with_distr st 0)). apply deliver_distr_all; [done|done|lia|done].
  - intros Hs. rewrite (advance_complete shards n 0 0); [|done|by rewrite Z.sub_0_r|lia].
    unfold with_distr. destruct (Z.eqb_spec n 0); [lia|]. eexists. split; [done|].
    unfold GovDistr.is_complete_for. cbn. by rewrite !Z.eqb_refl.
Qed.

End distr.

Lemma gov_distr_exactly_once_witness :
  let w i : gmap DRep Z := {[DRepAbstain := 10 * (i + 1)]} in
  exists st', run_foldl (@deliver_distr cfg_debug 7 2 w (fun _ => ∅) (fun _ => 3))
                (Some GovState.default_) [0; 0; 1] = Ret (Some st') /\
    exists d, GovState.distr st' = Some d /\ GovDistr.is_complete_for d 7 = true.
Proof.
  intros w.
  destruct (@gov_distr_exactly_once cfg_debug 7 2 w (fun _ => ∅) (fun _ => 3)
              GovState.default_ [0; 0; 1]) as (st' & E & _ & Hc).
  - unfold distr_fits, is_u. split; [lia|]. split; [intros; lia|].
    split; [vm_compute; reflexivity|]. split.
    + intros c k v Hr Hl. unfold w in Hl. apply lookup_singleton_Some in Hl as [<- <-].
      assert (Hcs : c = 0 \/ c = 1) by lia. destruct Hcs as [-> | ->]; vm_compute; split; congruence.
    + intros c k v Hr Hl. by rewrite lookup_empty in Hl.
  - exact I.
  - lia.
  - repeat constructor; lia.
  - exists st'. split; [exact E|]. destruct Hc as (d & Hd & Hcd & _).
    + apply (sublist_skip 0 [1] [0; 1]). apply sublist_cons. reflexivity.
    + by exists d.
Defined.

(** ** Closing the books *)

Section books.
Context `{BuildCfg}.

Lemma boundary_wf p i d :
  Pots.wf p -> EpochIncentives.wf i -> PotDelta.wf d -> solvent p i d -> Pots.wf (boundary_pots p i d).
Proof.
  unfold Pots.wf, EpochIncentives.wf, PotDelta.wf, solvent, boundary_pots, new_account_deposit.
  cbv zeta. rewrite !Forall_cons, Forall_nil.
  intros Hp Hi Hd Hs.
  assert (Hdep : is_u64 (new_pool_deposit p d)).
  { unfold new_pool_deposit. destruct (PotDelta.deposit_per_pool d); cbn; tauto. }
  assert (Hdea : is_u64 (default (Pots.deposit_per_account p) (PotDelta.deposit_per_account d))).
  { destruct (PotDelta.deposit_per_account d); cbn; tauto. }
  generalize dependent (new_pool_deposit p d). intros dep Hs Hdep.
  generalize dependent (default (Pots.deposit_per_account p) (PotDelta.deposit_per_account d)).
  intros dea Hdea. unfold is_u in *. destruct p, i, d. cbn in *.
  assert (0 ≤ pool_invalid_refund_count * dep) by nia.
  assert (0 ≤ pool_refund_count * dep) by nia.
  lia.
Qed.

Lemma check_pots_spec p' p :
  Pots.wf p' -> Pots.wf p -> Pots.supply p' < 2 ^ 64 -> Pots.supply p < 2 ^ 64 ->
  check_pots p' p =
    if debug_assertions && negb (Pots.supply p' =? Pots.supply p) then Panic else Ret tt.
Proof.
  intros Hw' Hw Hs' Hs. unfold check_pots. destruct debug_assertions; [|done].
  rewrite max_supply_exact by done. unfold Pots.is_consistent. cbn [mbind run_bind andb].
  rewrite max_supply_exact by done. cbn. by destruct (_ =? _).
Qed.

(** A Shelley boundary closes with consistent books.  The pots it computes
    are machine integers that pass the consistency assertion of the epoch transition, whatever
    the build; and in a build with debug assertions the transition to any other total panics. *)
Theorem boundary_passes_check p i d q :
  2 ≤ PotDelta.protocol_version d ->
  Pots.wf p -> EpochIncentives.wf i -> PotDelta.wf d -> Pots.supply p < 2 ^ 64 ->
  solvent p i d -> split_exactly i -> same_deposits p d -> balanced p d ->
  Pots.wf q -> Pots.supply q < 2 ^ 64 -> Pots.supply q ≠ Pots.supply p ->
  (exists p', apply_delta p i d = Ret p' /\ Pots.wf p' /\ check_pots p' p = Ret tt) /\
  (debug_assertions = true -> check_pots q p = Panic).
Proof.
  intros Hv Hp Hi Hd Hsup Hs Hi' Hsd Hb Hq Hqs Hne.
  pose proof (boundary_supply p i d Hi' Hsd Hb) as Hsu. split.
  - exists (boundary_pots p i d). unfold apply_delta.
    rewrite (proj2 (Z.leb_gt _ 1)) by lia. split; [by apply shelley_closed_form|].
    split; [by apply boundary_wf|]. rewrite check_pots_spec; [|by apply boundary_wf|done|lia|done].
    by rewrite Hsu, Z.eqb_refl, andb_false_r.
  - intros Hda. rewrite check_pots_spec by done. rewrite Hda. by destruct (Z.eqb_spec (Pots.supply q) (Pots.supply p)).
Qed.

End books.

Lemma boundary_passes_check_witness :
  exists p', @apply_delta cfg_debug preview_epoch_1
    (EpochIncentives.mk 44973000000000 8994600087558 35978400350235 437793) preview_delta_1 = Ret p' /\
    Pots.wf p' /\ @check_pots cfg_debug p' preview_epoch_1 = Ret tt.
Proof.
  apply (@boundary_passes_check cfg_debug preview_epoch_1
    (EpochIncentives.mk 44973000000000 8994600087558 35978400350235 437793) preview_delta_1
    Pots.default_).
  - cbn. lia.
  - unfold Pots.wf, is_u. cbn. lia.
  - unfold EpochIncentives.wf, is_u. cbn. lia.
  - unfold PotDelta.wf, is_u. cbn. lia.
  - reflexivity.
  - unfold solvent. cbn. rewrite !Forall_cons, Forall_nil. lia.
  - reflexivity.
  - split; reflexivity.
  - reflexivity.
  - unfold Pots.wf, is_u. cbn. lia.
  - reflexivity.
  - unfold Pots.supply. cbn. lia.
Defined.
