(* ===== verification/StateStore.v ===== *)
(** * The state store (core/src/state.rs, core/src/builtin/memory/state.rs)

    The writer's operation log and what committing it does, the interface a
    backend implements (the traits [StateStore] and [StateWriter]) with the
    in-memory backend as its instance, and the functions over chunks of deltas
    that roll-forward, crash recovery and rollback share. *)

From stdpp Require Import sorting.
From S2P Require Import Prelude Types ChainPoint EntityDelta.
Open Scope Z_scope.

(** [Result] below the panic layer, with its bind. *)
Inductive result (E A : Type) : Type :=
| Ok (a : A)
| Err (e : E).
Arguments Ok {E A} a.
Arguments Err {E A} e.

Definition rbind {E A B} (m : run (result E A)) (f : A -> run (result E B)) : run (result E B) :=
  match m with
  | Ret (Ok a) => f a
  | Ret (Err e) => Ret (Err e)
  | Panic => Panic
  end.

Notation "x ←? m ; k" := (rbind m (fun x => k))
  (at level 20, m at level 100, k at level 200, right associativity).

Lemma rbind_Ret {F A B} (m : run (result F A)) (f : A -> run (result F B)) r :
  rbind m f = Ret (Ok r) <-> exists a, m = Ret (Ok a) /\ f a = Ret (Ok r).
Proof. destruct m as [[a|e]|]; cbn; naive_solver. Qed.

Definition map_err {E F A} (f : E -> F) (r : result E A) : result F A :=
  match r with Ok a => Ok a | Err e => Err (f e) end.

Inductive StateError :=
| EntityDecodingError
| Unsupported (what : string)
| InputNotFound (r : list Z * Z).

Abbreviation TxHash := (list Z) (only parsing).
(** [TxoRef(TxHash, TxoIdx)]. *)
Abbreviation TxoRef := (list Z * Z)%type (only parsing).
(** [EraCbor(Era, Cbor)]. *)
Abbreviation EraCbor := (Z * list Z)%type (only parsing).
Abbreviation UtxoMap := (gmap (list Z * Z) (Z * list Z)) (only parsing).

Module UtxoSetDelta.

Record t := mk {
  produced_utxo : UtxoMap;
  consumed_utxo : UtxoMap;
  recovered_stxi : UtxoMap;
  undone_utxo : UtxoMap;
}.

Definition default_ : t := mk ∅ ∅ ∅ ∅.

End UtxoSetDelta.

(** ** Tables and the operation log *)

Record Tables (V : Type) := mkTables {
  cursor : option ChainPoint.t;
  entities : gmap NsKey V;
  utxos : UtxoMap;
}.
Arguments mkTables {V} cursor entities utxos.
Arguments cursor {V} _.
Arguments entities {V} _.
Arguments utxos {V} _.

Inductive Op (V : Type) :=
| SetCursor (p : ChainPoint.t)
| WriteEntity (ns : string) (key : EntityKey) (v : V)
| DeleteEntity (ns : string) (key : EntityKey)
| PutUtxo (r : TxoRef) (b : EraCbor)
| DeleteUtxo (r : TxoRef).
Arguments SetCursor {V} p.
Arguments WriteEntity {V} ns key v.
Arguments DeleteEntity {V} ns key.
Arguments PutUtxo {V} r b.
Arguments DeleteUtxo {V} r.

(** One operation of the loop in [MemoryStateWriter::commit]. *)
Definition exec {V} (t : Tables V) (op : Op V) : Tables V :=
  match op with
  | SetCursor p => mkTables (Some p) (entities t) (utxos t)
  | WriteEntity ns k v => mkTables (cursor t) (<[(ns, k) := v]> (entities t)) (utxos t)
  | DeleteEntity ns k => mkTables (cursor t) (delete (ns, k) (entities t)) (utxos t)
  | PutUtxo r b => mkTables (cursor t) (entities t) (<[r := b]> (utxos t))
  | DeleteUtxo r => mkTables (cursor t) (entities t) (delete r (utxos t))
  end.

Definition exec_all {V} (t : Tables V) (ops : list (Op V)) : Tables V := foldl exec t ops.

(** The log [apply_utxoset] records, in its order. *)
Definition utxoset_ops {V} (d : UtxoSetDelta.t) : list (Op V) :=
  ((fun p => PutUtxo p.1 p.2) <$> map_to_list (UtxoSetDelta.produced_utxo d)) ++
  ((fun p => PutUtxo p.1 p.2) <$> map_to_list (UtxoSetDelta.recovered_stxi d)) ++
  ((fun p => DeleteUtxo p.1) <$> map_to_list (UtxoSetDelta.consumed_utxo d)) ++
  ((fun p => DeleteUtxo p.1) <$> map_to_list (UtxoSetDelta.undone_utxo d)).

(** ** The backend interface

    [S] is the contents of a store, [W] an open writer.  A reader sees the
    tables; a writer's work is invisible until its commit, which applies the
    recorded operations in order. *)

Class StateStore (V S W : Type) := {
  read_cursor : S -> option ChainPoint.t;
  read_entities : S -> string -> list EntityKey -> list (option V);
  iter_entities : S -> string -> EntityKey * EntityKey -> list (EntityKey * V);
  get_utxos : S -> list TxoRef -> UtxoMap;
  start_writer : S -> W;
  set_cursor : W -> ChainPoint.t -> W;
  write_entity : W -> string -> EntityKey -> V -> W;
  delete_entity : W -> string -> EntityKey -> W;
  apply_utxoset : W -> UtxoSetDelta.t -> W;
  commit : W -> S -> S;
  (* the contract *)
  tables : S -> Tables V;
  pending : W -> list (Op V);
  read_cursor_spec : forall s, read_cursor s = cursor (tables s);
  read_entities_spec : forall s ns ks,
    read_entities s ns ks = (fun k => entities (tables s) !! (ns, k)) <$> ks;
  iter_entities_spec : forall s ns r k v,
    (k, v) ∈ iter_entities s ns r <->
    entities (tables s) !! (ns, k) = Some v /\ key_in_range r k = true;
  iter_entities_nodup : forall s ns r, NoDup (iter_entities s ns r).*1;
  iter_entities_sorted : forall s ns r, StronglySorted fst_le (iter_entities s ns r);
  get_utxos_spec : forall s rs r,
    get_utxos s rs !! r = if bool_decide (r ∈ rs) then utxos (tables s) !! r else None;
  start_writer_spec : forall s, pending (start_writer s) = [];
  set_cursor_spec : forall w p, pending (set_cursor w p) = pending w ++ [SetCursor p];
  write_entity_spec : forall w ns k v,
    pending (write_entity w ns k v) = pending w ++ [WriteEntity ns k v];
  delete_entity_spec : forall w ns k,
    pending (delete_entity w ns k) = pending w ++ [DeleteEntity ns k];
  apply_utxoset_spec : forall w d, pending (apply_utxoset w d) = pending w ++ utxoset_ops d;
  commit_spec : forall w s, tables (commit w s) = exec_all (tables s) (pending w);
}.

(** What an iterator gives is a function of the rows of the namespace. *)
Lemma sorted_rows_unique {V} (l1 l2 : list (bytes * V)) :
  StronglySorted fst_le l1 -> StronglySorted fst_le l2 -> NoDup l1.*1 -> NoDup l2.*1 ->
  (forall x, x ∈ l1 <-> x ∈ l2) -> l1 = l2.
Proof.
  revert l2. induction l1 as [|x l1 IH]; intros [|y l2] S1 S2 N1 N2 He; [done| | |].
  - exfalso. apply (not_elem_of_nil y), He. left.
  - exfalso. apply (not_elem_of_nil x), He. left.
  - cbn in N1, N2. apply NoDup_cons in N1 as [Hx N1]. apply NoDup_cons in N2 as [Hy N2].
    apply StronglySorted_inv in S1 as [S1 F1]. apply StronglySorted_inv in S2 as [S2 F2].
    assert (x = y) as ->.
    { assert (x ∈ y :: l2) as [E|Hx2]%elem_of_cons by (apply He; left); [done|].
      assert (y ∈ x :: l1) as [E|Hy1]%elem_of_cons by (apply He; left); [done|]. exfalso.
      rewrite Forall_forall in F1, F2. specialize (F1 _ Hy1). specialize (F2 _ Hx2). apply Hx, list_elem_of_fmap. exists y.
      split; [|done]. unfold fst_le in F1, F2. apply bytes_le_spec in F1 as [?|F1]; [done|].
      apply bytes_le_spec in F2 as [?|F2]; [done|]. rewrite bytes_cmp_antisym, F1 in F2. done. }
    f_equal. apply IH; try done. intros z. specialize (He z). rewrite !elem_of_cons in He.
    assert (forall l, y.1 ∉ l.*1 -> z ∈ l -> z ≠ y) as Hne by (intros l Hl Hz ->; apply Hl, list_elem_of_fmap; by exists y).
    split; intros Hz; [destruct (proj1 He (or_intror Hz)) as [->|]|destruct (proj2 He (or_intror Hz)) as [->|]]; try done.
    + by destruct (Hne l1 Hx Hz).
    + by destruct (Hne l2 Hy Hz).
Qed.

Lemma iter_entities_same {V S W} `{!StateStore V S W} (s s' : S) ns r :
  (forall k, entities (tables s) !! (ns, k) = entities (tables s') !! (ns, k)) ->
  iter_entities s ns r = iter_entities s' ns r.
Proof.
  intros He. apply sorted_rows_unique; [apply iter_entities_sorted..|apply iter_entities_nodup|apply iter_entities_nodup|].
  intros [k v]. by rewrite !iter_entities_spec, He.
Qed.

(** [MemoryStateStore]: the tables themselves; its writer is the log. *)
Module Memory.

(** [get_utxos]: the found references, collected into a map. *)
Definition get_utxos {V} (t : Tables V) (refs : list TxoRef) : UtxoMap :=
  list_to_map (omap (fun txo => (fun v => (txo, v)) <$> utxos t !! txo) refs).

Definition read_entities {V} (t : Tables V) (ns : string) (keys : list EntityKey) : list (option V) :=
  (fun key => entities t !! (ns, key)) <$> keys.

(** [iter_entities]: the entries of a namespace in a half-open key range, in key
    order; an inverted range is empty. *)
Definition iter_entities {V} (t : Tables V) (ns : string) (r : EntityKey * EntityKey) :
    list (EntityKey * V) :=
  if bytes_lt r.2 r.1 then []
  else merge_sort fst_le
         (omap (fun e : NsKey * V =>
            if bool_decide (e.1.1 = ns) && key_in_range r e.1.2 then Some (e.1.2, e.2) else None)
            (map_to_list (entities t))).

(** [iter_utxos]: the whole set. *)
Definition iter_utxos {V} (t : Tables V) : list (TxoRef * EraCbor) := map_to_list (utxos t).

(** [commit]: replays the log over the tables. *)
Definition commit {V} (ops : list (Op V)) (t : Tables V) : Tables V := exec_all t ops.

Lemma get_utxos_lookup {V} (t : Tables V) rs r :
  get_utxos t rs !! r = if bool_decide (r ∈ rs) then utxos t !! r else None.
Proof.
  unfold get_utxos. induction rs as [|a rs IH]; [done|]. cbn [omap list_omap].
  destruct (utxos t !! a) as [v|] eqn:E; cbn.
  - destruct (decide (r = a)) as [->|Hn].
    + rewrite lookup_insert_eq, bool_decide_true by (left; done). done.
    + rewrite lookup_insert_ne, IH by done.
      apply if_bool_decide_iff. rewrite elem_of_cons. naive_solver.
  - rewrite IH. destruct (decide (r = a)) as [->|Hn].
    + rewrite E. by destruct (bool_decide _), (bool_decide _).
    + apply if_bool_decide_iff. rewrite elem_of_cons. naive_solver.
Qed.

Lemma elem_of_iter {V} (t : Tables V) ns r k v :
  (k, v) ∈ iter_entities t ns r <-> entities t !! (ns, k) = Some v /\ key_in_range r k = true.
Proof.
  unfold iter_entities. destruct (bytes_lt r.2 r.1) eqn:Eb.
  - rewrite elem_of_nil. split; [done|]. intros [_ Hr]. unfold key_in_range in Hr.
    apply andb_true_iff in Hr as [H1 H2]. rewrite bytes_lt_le, negb_true_iff in Eb, H2.
    assert (H3 : bytes_le k r.2 = true).
    { destruct (bytes_le_total k r.2) as [|H']; [done|]. by rewrite H' in H2. }
    by rewrite (bytes_le_trans _ _ _ H1 H3) in Eb.
  - rewrite merge_sort_Permutation, list_elem_of_omap. split.
    + intros ([[n k'] v'] & Hm & He). apply elem_of_map_to_list in Hm. cbn in He.
      destruct (bool_decide (n = ns)) eqn:En; [|done]. apply bool_decide_eq_true in En as ->.
      destruct (key_in_range r k') eqn:Ek; [|done]. cbn in He. by injection He as <- <-.
    + intros [Hl Hr]. exists ((ns, k), v). split; [by apply elem_of_map_to_list|]. cbn.
      by rewrite bool_decide_true, Hr.
Qed.

(** The keys come out in order, each once. *)
Lemma iter_sorted {V} (t : Tables V) ns r :
  StronglySorted fst_le (iter_entities t ns r) /\ NoDup (iter_entities t ns r).*1.
Proof.
  unfold iter_entities. destruct (bytes_lt r.2 r.1); [split; constructor|].
  split; [apply (StronglySorted_merge_sort fst_le)|].
  rewrite merge_sort_Permutation. pose proof (NoDup_fst_map_to_list (entities t)) as Hnd.
  induction (map_to_list (entities t)) as [|[[n k] v] l IH]; [constructor|].
  cbn in Hnd. apply NoDup_cons in Hnd as [Hni Hnd]. cbn. destruct (bool_decide (n = ns)) eqn:En; [|by apply IH].
  destruct (key_in_range r k); [|by apply IH]. cbn. constructor; [|by apply IH].
  apply bool_decide_eq_true in En as ->. intros Hi. apply Hni.
  apply list_elem_of_fmap in Hi as ([k' v'] & -> & Hi). apply list_elem_of_omap in Hi as ([[n' k''] v''] & Hi & He).
  cbn in He. destruct (bool_decide (n' = ns)) eqn:En; [|done]. apply bool_decide_eq_true in En as ->.
  destruct (key_in_range r k''); [|done]. cbn in He. injection He as <- <-.
  apply list_elem_of_fmap. by exists ((ns, k''), v'').
Qed.

#[export] Program Instance store {V} : StateStore V (Tables V) (list (Op V)) := {|
  StateStore.read_cursor := cursor;
  StateStore.read_entities := read_entities;
  StateStore.iter_entities := iter_entities;
  StateStore.get_utxos := get_utxos;
  StateStore.start_writer _ := [];
  StateStore.set_cursor w p := w ++ [SetCursor p];
  StateStore.write_entity w ns k v := w ++ [WriteEntity ns k v];
  StateStore.delete_entity w ns k := w ++ [DeleteEntity ns k];
  StateStore.apply_utxoset w d := w ++ utxoset_ops d;
  StateStore.commit := commit;
  StateStore.tables t := t;
  StateStore.pending w := w;
|}.
Solve All Obligations with
  first [done | intros; apply elem_of_iter | intros; apply iter_sorted | intros; apply get_utxos_lookup].

End Memory.

(** ** Entity codecs

    [trait Entity]: the encoding of an entity gives its namespace and its
    stored value. *)

Class Codec (E V : Type) := {
  encode_entity : E -> string * V;
  decode_entity : string -> V -> option E;
  decode_encode : forall e, decode_entity (encode_entity e).1 (encode_entity e).2 = Some e;
  decode_namespace : forall ns v e, decode_entity ns v = Some e -> (encode_entity e).1 = ns;
}.
#[global] Hint Mode Codec ! - : typeclass_instances.

Abbreviation EntityMap E := (gmap (string * list Z) (option E)) (only parsing).

(** [chunk.iter().chunk_by(|key| key.0)]: runs of consecutive keys with the same
    namespace. *)
Fixpoint chunk_by_ns (chunk : list NsKey) : list (string * list EntityKey) :=
  match chunk with
  | [] => []
  | (ns, k) :: rest =>
      match chunk_by_ns rest with
      | (ns', ks) :: groups =>
          if bool_decide (ns = ns') then (ns, k :: ks) :: groups
          else (ns, [k]) :: (ns', ks) :: groups
      | [] => [(ns, [k])]
      end
  end.

Section chunks.
Context {E V S W D : Type} `{!Codec E V, !StateStore V S W}.

(** *** Typed access *)

(** [x.map(|v| E::decode_entity(ns, &v).map_err(..)).transpose()]. *)
Definition decode_opt (ns : string) (x : option V) : result StateError (option E) :=
  match x with
  | None => Ok None
  | Some v =>
      match decode_entity ns v with
      | Some e => Ok (Some e)
      | None => Err EntityDecodingError
      end
  end.

(** [try_collect] over a list of results. *)
Fixpoint try_collect {F A} (l : list (result F A)) : result F (list A) :=
  match l with
  | [] => Ok []
  | Ok a :: l' => match try_collect l' with Ok r => Ok (a :: r) | Err e => Err e end
  | Err e :: _ => Err e
  end.

Definition read_entities_typed (s : S) (ns : string) (keys : list EntityKey) :
    result StateError (list (option E)) :=
  try_collect (decode_opt ns <$> read_entities s ns keys).

Definition read_entity_typed (s : S) (ns : string) (key : EntityKey) :
    run (result StateError (option E)) :=
  raw ←? Ret (read_entities_typed s ns [key]);
  first ← expect (head raw);
  Ret (Ok first).

Definition save_entity_typed (w : W) (ns : string) (key : EntityKey) (e : option E) : W :=
  match e with
  | Some x => let (ns', raw) := encode_entity x in write_entity w ns' key raw
  | None => delete_entity w ns key
  end.

Definition save_entities (w : W) (m : EntityMap E) : W :=
  foldl (fun w p => save_entity_typed w p.1.1 p.1.2 p.2) w (map_to_list m).

(** *** Loading *)

(** One iteration of the loop over the namespace groups. *)
Definition load_group (s : S) (loaded : EntityMap E) (g : string * list EntityKey) :
    result StateError (EntityMap E) :=
  let (ns, keys) := g in
  match read_entities_typed s ns keys with
  | Ok decoded => Ok (foldl (fun acc kv => <[(ns, kv.1) := kv.2]> acc) loaded (zip keys decoded))
  | Err e => Err e
  end.

Fixpoint load_groups (s : S) (loaded : EntityMap E) (gs : list (string * list EntityKey)) :
    result StateError (EntityMap E) :=
  match gs with
  | [] => Ok loaded
  | g :: gs' => match load_group s loaded g with Ok l => load_groups s l gs' | Err e => Err e end
  end.

Definition load_entity_chunk (chunk : list NsKey) (s : S) : result StateError (EntityMap E) :=
  load_groups s ∅ (chunk_by_ns chunk).

Context `{!EntityDelta D E}.

Definition load_missing_entities (m : EntityMap E) (s : S) (deltas : list D) :
    result StateError (EntityMap E) :=
  let missing := filter (fun k => m !! k = None) (key <$> deltas) in
  match missing with
  | [] => Ok m
  | _ =>
      match load_entity_chunk missing s with
      | Ok loaded => Ok (loaded ∪ m)
      | Err e => Err e
      end
  end.

(** *** Applying and undoing *)

(** The body of the loop of [apply_delta_chunk]: the delta is updated in place. *)
Definition apply_in_place (acc : EntityMap E * list D) (d : D) : run (EntityMap E * list D) :=
  let (m, done) := acc in
  e ← expect (m !! key d);
  r ← apply d e;
  Ret (<[key d := r.2]> m, done ++ [r.1]).

Definition apply_delta_chunk (m : EntityMap E) (s : S) (deltas : list D) :
    run (result StateError (EntityMap E * list D)) :=
  m' ←? Ret (load_missing_entities m s deltas);
  r ← run_foldl apply_in_place (m', []) deltas;
  Ret (Ok r).

(** The body of the loop of [undo_delta_chunk]. *)
Definition undo_in_place (m : EntityMap E) (d : D) : run (EntityMap E) :=
  e ← expect (m !! key d);
  e' ← undo d e;
  Ret (<[key d := e']> m).

Definition undo_delta_chunk (m : EntityMap E) (s : S) (deltas : list D) :
    run (result StateError (EntityMap E)) :=
  m' ←? Ret (load_missing_entities m s deltas);
  r ← run_foldl undo_in_place m' (reverse deltas);
  Ret (Ok r).

(** ** Lemmas *)

(** What a reader of the store sees at a key, decoded. *)
Definition stored (s : S) (nk : NsKey) : result StateError (option E) :=
  decode_opt nk.1 (entities (tables s) !! nk).

(** Every record of the store decodes. *)
Definition decodable (s : S) : Prop := forall nk, exists e, stored s nk = Ok e.

(** What a caller holding the cache [m] sees. *)
Definition view (m : EntityMap E) (s : S) (nk : NsKey) : result StateError (option E) :=
  match m !! nk with Some e => Ok e | None => stored s nk end.

Lemma try_collect_Ok {F A} (f : A -> result F A) l :
  (forall a, a ∈ l -> f a = Ok a) -> try_collect (f <$> l) = Ok l.
Proof.
  induction l as [|a l IH]; intros H; [done|]. cbn.
  rewrite H by (left; done). rewrite IH; [done|]. intros. apply H. by right.
Qed.

(** The decoded value of a key, for a store whose records decode. *)
Definition read_or_none (s : S) (nk : NsKey) : option E :=
  match stored s nk with Ok e => e | Err _ => None end.

Lemma stored_read s nk : decodable s -> stored s nk = Ok (read_or_none s nk).
Proof. intros H. unfold read_or_none. by destruct (H nk) as [e ->]. Qed.

Lemma read_entities_typed_Ok s ns ks : decodable s ->
  read_entities_typed s ns ks = Ok ((fun k => read_or_none s (ns, k)) <$> ks).
Proof.
  intros Hd. unfold read_entities_typed. rewrite read_entities_spec.
  induction ks as [|k ks IH]; [done|]. cbn.
  pose proof (stored_read s (ns, k) Hd) as Hk. unfold stored in Hk. cbn in Hk. rewrite Hk.
  by rewrite IH.
Qed.

(** The flattening of the groups is the chunk. *)
Lemma chunk_by_ns_concat chunk :
  mjoin ((fun g => (fun k => (g.1, k)) <$> g.2) <$> chunk_by_ns chunk) = chunk.
Proof.
  induction chunk as [|[ns k] rest IH]; [done|]. cbn.
  destruct (chunk_by_ns rest) as [|[ns' ks] gs]; [by rewrite <- IH|].
  case_bool_decide as Hn; [destruct Hn|]; cbn; by rewrite <- IH.
Qed.

Lemma load_group_Ok s m ns ks : decodable s ->
  load_group s m (ns, ks) =
  Ok (foldl (fun acc k => <[(ns, k) := read_or_none s (ns, k)]> acc) m ks).
Proof.
  intros Hd. unfold load_group. rewrite read_entities_typed_Ok by done. f_equal.
  revert m; induction ks as [|k ks IH]; intros m; [done|]. cbn. apply IH.
Qed.

Lemma load_groups_Ok s m gs : decodable s ->
  load_groups s m gs =
  Ok (foldl (fun acc nk => <[nk := read_or_none s nk]> acc) m
        (mjoin ((fun g => (fun k => (g.1, k)) <$> g.2) <$> gs))).
Proof.
  intros Hd. revert m; induction gs as [|[ns ks] gs IH]; intros m; [done|].
  cbn [load_groups]. rewrite load_group_Ok by done. rewrite IH. f_equal. cbn.
  rewrite foldl_app. f_equal. clear.
  revert m; induction ks as [|k ks IH]; intros m; [done|]. cbn. apply IH.
Qed.

Lemma foldl_insert_lookup (f : NsKey -> option E) (l : list NsKey) (m : EntityMap E) (nk : NsKey) :
  foldl (fun acc k => <[k := f k]> acc) m l !! nk =
  if bool_decide (nk ∈ l) then Some (f nk) else m !! nk.
Proof.
  revert m; induction l as [|a l IH]; intros m; [done|]. cbn. rewrite IH.
  destruct (decide (nk ∈ l)) as [Hi|Hi].
  - rewrite !bool_decide_true; [done|by right|done].
  - rewrite (bool_decide_false (nk ∈ l)) by done. destruct (decide (nk = a)) as [->|Hn].
    + rewrite lookup_insert_eq, bool_decide_true; [done|by left].
    + rewrite lookup_insert_ne by done. rewrite bool_decide_false; [done|].
      rewrite elem_of_cons. naive_solver.
Qed.

(** Loading a chunk reads each of its keys, and only them. *)
Lemma load_entity_chunk_lookup chunk s : decodable s ->
  exists m, load_entity_chunk chunk s = Ok m /\
    forall nk, m !! nk = if bool_decide (nk ∈ chunk) then Some (read_or_none s nk) else None.
Proof.
  intros Hd. eexists. split; [by apply load_groups_Ok|]. intros nk.
  rewrite chunk_by_ns_concat. by rewrite foldl_insert_lookup, lookup_empty.
Qed.

(** Loading what is missing does not change what the caller sees, and brings
    in every key of the deltas. *)
Lemma load_missing_view m s deltas : decodable s ->
  exists m', load_missing_entities m s deltas = Ok m' /\
    (forall nk, view m' s nk = view m s nk) /\
    (forall d, d ∈ deltas -> is_Some (m' !! key d)) /\
    (forall nk, m' !! nk = None -> m !! nk = None).
Proof.
  intros Hd. unfold load_missing_entities.
  set (missing := filter _ _).
  assert (Hmem : forall d, d ∈ deltas -> m !! key d = None -> key d ∈ missing).
  { intros d Hi Hn. apply list_elem_of_filter. split; [done|]. by apply list_elem_of_fmap_2. }
  assert (Hnone : forall nk, nk ∈ missing -> m !! nk = None).
  { intros nk Hi. by apply list_elem_of_filter in Hi as []. }
  destruct missing as [|k ks] eqn:Em.
  - exists m. conj_split; try done. intros d Hi. destruct (m !! key d) eqn:Ek; [done|].
    apply Hmem in Ek; [|done]. by apply not_elem_of_nil in Ek.
  - rewrite <- Em in *. destruct (load_entity_chunk_lookup missing s Hd) as (l & -> & Hl).
    exists (l ∪ m). conj_split; [done| | |].
    + intros nk. unfold view. rewrite lookup_union, Hl. case_bool_decide as Hi.
      * rewrite (Hnone _ Hi). cbn. by rewrite stored_read.
      * by rewrite (left_id None _).
    + intros d Hi. rewrite lookup_union, Hl. case_bool_decide as Hm; [by destruct (m !! _)|].
      rewrite (left_id None _). destruct (m !! key d) eqn:Ek; [done|]. naive_solver.
    + intros nk. rewrite lookup_union. destruct (l !! nk), (m !! nk); done.
Qed.

(** Undoing, seen from one entity: the deltas of its key, in the order given. *)
Definition undo_seq (ds : list D) (e : option E) : run (option E) :=
  run_foldl (fun e d => undo d e) e ds.

(** Undoing a mixed list undoes, for each key, the deltas of that key. *)
Lemma undo_fold_pointwise (l : list D) (m : EntityMap E) (g : NsKey -> option E) :
  (forall d, d ∈ l -> is_Some (m !! key d)) ->
  (forall nk e, m !! nk = Some e -> undo_seq (filter (fun d => key d = nk) l) e = Ret (g nk)) ->
  exists m', run_foldl undo_in_place m l = Ret m' /\
    forall nk, m' !! nk = (fun _ => g nk) <$> m !! nk.
Proof.
  revert m; induction l as [|d l IH]; intros m Hk Hg.
  - exists m. split; [done|]. intros nk. destruct (m !! nk) as [e|] eqn:Ee; [|done].
    apply Hg in Ee. cbn in Ee. run_inv. done.
  - destruct (Hk d) as [e Ee]; [by left|]. cbn [run_foldl].
    replace (undo_in_place m d) with (e' ← undo d e; Ret (<[key d := e']> m))
      by (unfold undo_in_place; by rewrite Ee).
    pose proof (Hg _ _ Ee) as Hd.
    rewrite filter_cons_True in Hd by done. cbn in Hd. run_inv.
    destruct (undo d e) as [e1|] eqn:Eu; [|done]. run_inv. cbn.
    destruct (IH (<[key d := a]> m)) as (m' & Hm' & Hl).
    + intros d' Hd'. destruct (decide (key d' = key d)) as [->|Hn].
      * by rewrite lookup_insert_eq.
      * rewrite lookup_insert_ne by done. apply Hk. by right.
    + intros nk e2 He2. destruct (decide (nk = key d)) as [->|Hn].
      * rewrite lookup_insert_eq in He2. by simplify_eq.
      * rewrite lookup_insert_ne in He2 by done. apply Hg in He2.
        by rewrite filter_cons_False in He2 by done.
    + exists m'. split; [done|]. intros nk. rewrite Hl.
      destruct (decide (nk = key d)) as [->|Hn].
      * by rewrite lookup_insert_eq, Ee.
      * by rewrite lookup_insert_ne.
Qed.

(** What the caller sees after undoing a chunk, key by key. *)
Lemma undo_delta_chunk_view (m : EntityMap E) s (deltas : list D) (g : NsKey -> option E) :
  decodable s ->
  (forall nk e, view m s nk = Ok e ->
     undo_seq (filter (fun d => key d = nk) (reverse deltas)) e = Ret (g nk)) ->
  exists m', undo_delta_chunk m s deltas = Ret (Ok m') /\
    (forall nk, view m' s nk = Ok (g nk)) /\
    (forall nk, m' !! nk = None -> m !! nk = None).
Proof.
  intros Hd Hg. unfold undo_delta_chunk.
  destruct (load_missing_view m s deltas Hd) as (m1 & -> & Hv & Hk & Hs). cbn.
  destruct (undo_fold_pointwise (reverse deltas) m1 g) as (m2 & -> & H2).
  - intros d Hi. apply Hk. by apply elem_of_reverse.
  - intros nk e He. apply Hg. rewrite <- Hv. unfold view. by rewrite He.
  - exists m2. conj_split; [done| |].
    + intros nk. unfold view. rewrite H2. destruct (m1 !! nk) as [e|] eqn:E1; [done|]. cbn.
      assert (Hvn : view m s nk = stored s nk).
      { rewrite <- Hv. unfold view. by rewrite E1. }
      rewrite stored_read in Hvn |- * by done. apply Hg in Hvn.
      destruct (filter (fun d => key d = nk) (reverse deltas)) as [|d0 l] eqn:Ef.
      * apply Ret_inj in Hvn. by rewrite Hvn.
      * assert (Hi : d0 ∈ filter (fun d => key d = nk) (reverse deltas)) by (rewrite Ef; by left).
        apply list_elem_of_filter in Hi as [<- Hi]. rewrite elem_of_reverse in Hi.
        apply Hk in Hi. rewrite E1 in Hi. by destruct Hi.
    + intros nk. rewrite H2. intros Hn. apply Hs. by destruct (m1 !! nk).
Qed.

(** *** Saving *)

Definition well_keyed (m : EntityMap E) : Prop :=
  forall nk e, m !! nk = Some (Some e) -> (encode_entity e).1 = nk.1.

Lemma pending_save w (nk : NsKey) (e : option E) :
  (forall x, e = Some x -> (encode_entity x).1 = nk.1) ->
  pending (save_entity_typed w nk.1 nk.2 e) =
  pending w ++ [match e with
                | Some x => WriteEntity nk.1 nk.2 (encode_entity x).2
                | None => DeleteEntity nk.1 nk.2
                end].
Proof.
  intros H. destruct e as [x|]; cbn.
  - specialize (H x eq_refl). destruct (encode_entity x) as [ns raw]; cbn in *. subst.
    apply write_entity_spec.
  - apply delete_entity_spec.
Qed.

Lemma exec_all_app (t : Tables V) a b : exec_all t (a ++ b) = exec_all (exec_all t a) b.
Proof. unfold exec_all. apply foldl_app. Qed.

(** What saving a list of entities with distinct keys leaves in the tables. *)
Lemma save_list_tables (l : list (NsKey * option E)) w (t : Tables V) :
  NoDup l.*1 ->
  (forall nk x, (nk, Some x) ∈ l -> (encode_entity x).1 = nk.1) ->
  let w' := foldl (fun w p => save_entity_typed w p.1.1 p.1.2 p.2) w l in
  let t' := exec_all t (pending w') in
  let t0 := exec_all t (pending w) in
  cursor t' = cursor t0 /\ utxos t' = utxos t0 /\
  forall nk, entities t' !! nk =
    match list_to_map (M := gmap NsKey (option E)) l !! nk with
    | Some (Some x) => Some (encode_entity x).2
    | Some None => None
    | None => entities t0 !! nk
    end.
Proof.
  revert w; induction l as [|[nk e] l IH]; intros w Hnd Hns; [done|].
  cbn [foldl fst snd]. cbn in Hnd. apply NoDup_cons in Hnd as [Hni Hnd].
  specialize (IH (save_entity_typed w nk.1 nk.2 e) Hnd
                 ltac:(intros; apply Hns; by right)).
  cbn [foldl fst snd] in IH |- *. destruct IH as (Hc & Hu & He).
  rewrite pending_save in Hc, Hu, He by (intros x ->; apply Hns; by left).
  rewrite exec_all_app in Hc, Hu, He.
  conj_split; [rewrite Hc; by destruct e|rewrite Hu; by destruct e|].
  intros k. rewrite He. cbn. destruct (decide (k = nk)) as [->|Hn].
  - rewrite lookup_insert_eq, (not_elem_of_list_to_map_1 l nk Hni).
    destruct nk as [ns k], e; cbn; [by rewrite lookup_insert_eq|by rewrite lookup_delete_eq].
  - rewrite lookup_insert_ne by done. destruct (list_to_map l !! k) as [[]|]; try done.
    destruct nk as [ns k'], e; cbn; [by rewrite lookup_insert_ne|by rewrite lookup_delete_ne].
Qed.

Lemma save_entities_tables (m : EntityMap E) w (t : Tables V) :
  well_keyed m ->
  let t' := exec_all t (pending (save_entities w m)) in
  let t0 := exec_all t (pending w) in
  cursor t' = cursor t0 /\ utxos t' = utxos t0 /\
  forall nk, entities t' !! nk =
    match m !! nk with
    | Some (Some x) => Some (encode_entity x).2
    | Some None => None
    | None => entities t0 !! nk
    end.
Proof.
  intros Hk. destruct (save_list_tables (map_to_list m) w t) as (Hc & Hu & He).
  - apply NoDup_fst_map_to_list.
  - intros nk x Hi. apply elem_of_map_to_list in Hi. by apply Hk.
  - split; [exact Hc|split; [exact Hu|]]. intros nk. unfold save_entities. rewrite He.
    by rewrite list_to_map_to_list.
Qed.

End chunks.

Arguments decodable E {V S W _ _} s.
Arguments stored E {V S W _ _} s nk.
Arguments read_or_none E {V S W _ _} s nk.

(** ** The UTxO set after a delta *)

Section utxoset.
Context {V : Type}.

(** Puts at distinct references, in any order. *)
Lemma exec_puts (l : list (TxoRef * EraCbor)) (t : Tables V) :
  NoDup l.*1 ->
  exec_all t ((fun p => PutUtxo p.1 p.2) <$> l) =
  mkTables (cursor t) (entities t) (list_to_map l ∪ utxos t).
Proof.
  revert t; induction l as [|[r b] l IH]; intros t Hnd.
  - destruct t. unfold exec_all. cbn. by rewrite map_empty_union.
  - cbn in Hnd. apply NoDup_cons in Hnd as [Hni Hnd]. rewrite fmap_cons.
    change (exec_all t (PutUtxo r b :: ?l')) with (exec_all (exec t (PutUtxo r b)) l').
    unfold exec_all in *. cbn [foldl exec fst snd]. rewrite IH by done. cbn. f_equal.
    rewrite <- insert_union_l. rewrite insert_union_r; [done|].
    by apply not_elem_of_list_to_map_1.
Qed.

Lemma exec_deletes (l : list (TxoRef * EraCbor)) (t : Tables V) :
  exec_all t ((fun p => DeleteUtxo p.1) <$> l) =
  mkTables (cursor t) (entities t) (utxos t ∖ list_to_map l).
Proof.
  revert t; induction l as [|[r b] l IH]; intros t.
  - destruct t. unfold exec_all. cbn. by rewrite map_difference_empty.
  - unfold exec_all in *. cbn [fmap list_fmap foldl exec fst snd list_to_map foldr].
    rewrite IH. cbn. f_equal. apply map_eq. intros k. rewrite !lookup_difference.
    destruct (decide (k = r)) as [->|Hn].
    + rewrite lookup_insert_eq, lookup_delete_eq. by destruct (_ !! r).
    + by rewrite lookup_insert_ne, lookup_delete_ne.
Qed.

Lemma exec_utxoset (d : UtxoSetDelta.t) (t : Tables V) :
  exec_all t (utxoset_ops d) =
  mkTables (cursor t) (entities t)
    (((UtxoSetDelta.recovered_stxi d ∪ (UtxoSetDelta.produced_utxo d ∪ utxos t))
        ∖ UtxoSetDelta.consumed_utxo d) ∖ UtxoSetDelta.undone_utxo d).
Proof.
  unfold utxoset_ops. rewrite !exec_all_app.
  rewrite !exec_puts by apply NoDup_fst_map_to_list.
  rewrite !exec_deletes, !list_to_map_to_list. done.
Qed.

End utxoset.
