(* ===== verification/Shards.v ===== *)
(** * Account shards (cardano/src/shard.rs)

    The epoch boundary walks the credential-keyed entities shard by shard.  The
    shards partition the credential keys, so a walk over all of them visits
    every entity exactly once. *)

From S2P Require Import Prelude Types ChainPoint EntityDelta StateStore.
Open Scope Z_scope.

Definition PREFIX_SPACE : Z := 256.
Definition ACCOUNT_SHARDS : Z := 32.
Definition CRED_KEY_ARRAY_TAG : Z := 0x82.
Definition CRED_KEY_VARIANT_ADDRKEYHASH : Z := 0x00.
Definition CRED_KEY_VARIANT_SCRIPTHASH : Z := 0x01.
Definition CRED_KEY_BYTES_HEADER : Z * Z := (0x58, 0x1c).
Definition CRED_KEY_HASH_OFFSET : nat := 4.

(** [Ok(())] is [true]. *)
Definition validate_total_shards (total_shards : Z) : bool :=
  negb (total_shards =? 0) && (PREFIX_SPACE mod total_shards =? 0).

Section ranges.
Context `{BuildCfg}.

(** [start] and [end] are zeroed arrays whose first bytes are assigned. *)
Definition variant_range (variant shard_index total_shards : Z) : run (EntityKey * EntityKey) :=
  step ← udiv PREFIX_SPACE total_shards;
  lo ← umul 32 shard_index step;
  let start := entity_key_from
    ([CRED_KEY_ARRAY_TAG; variant; CRED_KEY_BYTES_HEADER.1; CRED_KEY_BYTES_HEADER.2; as_u 8 lo]
       ++ replicate 27 0) in
  next ← uadd 32 shard_index 1;
  if next =? total_shards then
    header ← uadd 8 CRED_KEY_BYTES_HEADER.2 1;
    Ret (start, entity_key_from
      ([CRED_KEY_ARRAY_TAG; variant; CRED_KEY_BYTES_HEADER.1; header; 0] ++ replicate 27 0))
  else
    hi ← umul 32 next step;
    Ret (start, entity_key_from
      ([CRED_KEY_ARRAY_TAG; variant; CRED_KEY_BYTES_HEADER.1; CRED_KEY_BYTES_HEADER.2; as_u 8 hi]
         ++ replicate 27 0)).

Definition shard_key_ranges (shard_index total_shards : Z) : run (list (EntityKey * EntityKey)) :=
  _ ← assert_ (validate_total_shards total_shards);
  _ ← assert_ (shard_index <? total_shards);
  a ← variant_range CRED_KEY_VARIANT_ADDRKEYHASH shard_index total_shards;
  b ← variant_range CRED_KEY_VARIANT_SCRIPTHASH shard_index total_shards;
  Ret [a; b].

End ranges.

(** ** Credential keys *)

Definition cred_variant (c : StakeCredential) : Z :=
  match c with
  | AddrKeyhash _ => CRED_KEY_VARIANT_ADDRKEYHASH
  | ScriptHash _ => CRED_KEY_VARIANT_SCRIPTHASH
  end.

Definition cred_hash (c : StakeCredential) : Hash28 :=
  match c with AddrKeyhash h | ScriptHash h => h end.

Definition cred_ok (c : StakeCredential) : Prop :=
  length (cred_hash c) = 28%nat /\ bytes_ok (cred_hash c).

(** The layout of an encoded credential, a Cardano-wide invariant. *)
Definition cbor_layout `{Pallas} : Prop :=
  forall c, cbor_cred c = [0x82; cred_variant c; 0x58; 0x1c] ++ cred_hash c.

Section partition.
Context `{BuildCfg, Pallas} (layout : cbor_layout).

(** The first byte of the hash of a credential. *)
Definition bucket (c : StakeCredential) : Z := default 0 (head (cred_hash c)).

Lemma bucket_byte c : cred_ok c -> 0 ≤ bucket c < 256.
Proof.
  intros [Hl Hb]. unfold bucket. destruct (cred_hash c) as [|x t]; [done|].
  inversion Hb as [|? ? Hx]; subst. exact Hx.
Qed.

Lemma valid_shards total : 0 < total -> validate_total_shards total = true ->
  0 < 256 / total /\ 256 / total * total = 256.
Proof.
  unfold validate_total_shards, PREFIX_SPACE. intros Ht [_ Hm]%andb_true_iff.
  apply Z.eqb_eq in Hm. pose proof (Z.div_mod 256 total). split; [|lia].
  assert (256 / total ≠ 0) by nia. pose proof (Z.div_pos 256 total). lia.
Qed.

(** A comparison of a credential key with a bound of its variant. *)
Lemma key_bound c header x :
  cred_ok c ->
  bytes_le (entity_key_from ([0x82; cred_variant c; 0x58; header; x] ++ replicate 27 0))
           (entity_key_from (cbor_cred c)) =
  ((header <? 0x1c) || (header =? 0x1c) && (x <=? bucket c)).
Proof.
  intros [Hl Hb]. rewrite layout. rewrite !entity_key_from_exact by (rewrite ?length_app, ?Hl; done).
  unfold bucket. destruct (cred_hash c) as [|y t]; [done|]. cbn in Hl.
  inversion Hb as [|? ? Hy Ht]; subst. cbn [app head default]. unfold bytes_le. cbn [bytes_cmp].
  rewrite !Z.compare_refl. unfold Z.ltb, Z.leb. rewrite Z.eqb_compare.
  destruct (header ?= 28) eqn:Eh; cbn; try done.
  destruct (x ?= y); try done.
  pose proof (zeroes_le 27 t Ht ltac:(lia)) as Hz. unfold bytes_le in Hz. exact Hz.
Qed.

(** The ranges of the other variant hold no key of this one. *)
Lemma key_other c v lo hi header :
  cred_ok c -> v ≠ cred_variant c ->
  key_in_range (entity_key_from ([0x82; v; 0x58; 0x1c; lo] ++ replicate 27 0),
                entity_key_from ([0x82; v; 0x58; header; hi] ++ replicate 27 0))
    (entity_key_from (cbor_cred c)) = false.
Proof.
  intros [Hl Hb] Hv. unfold key_in_range. cbn [fst snd]. rewrite layout.
  rewrite !entity_key_from_exact by (rewrite ?length_app, ?Hl; done).
  unfold bytes_le, bytes_lt. cbn [app bytes_cmp]. rewrite !Z.compare_refl.
  rewrite (Z.compare_antisym v). destruct (Z.compare_spec v (cred_variant c)); done.
Qed.

(** The range of a variant, in closed form. *)
Lemma variant_range_eq v i total :
  0 < total -> validate_total_shards total = true -> 0 ≤ i < total ->
  exists header hi,
    variant_range v i total =
      Ret (entity_key_from ([0x82; v; 0x58; 0x1c; i * (256 / total)] ++ replicate 27 0),
           entity_key_from ([0x82; v; 0x58; header; hi] ++ replicate 27 0)) /\
    ((i + 1 = total /\ header = 0x1d) \/
     (i + 1 < total /\ header = 0x1c /\ hi = (i + 1) * (256 / total))).
Proof.
  intros Ht Hv Hi. destruct (valid_shards total Ht Hv) as [Hs Hm].
  pose proof (Z.mul_le_mono_nonneg_r 1 (256 / total) total). assert (Hle : total ≤ 256) by lia.
  unfold variant_range, PREFIX_SPACE. rewrite udiv_exact by lia. cbn [mbind run_bind].
  rewrite umul_exact by (unfold is_u; nia). cbn [mbind run_bind].
  rewrite as_u_small by (unfold is_u; nia).
  rewrite (uadd_exact 32) by (unfold is_u; lia). cbn [mbind run_bind].
  destruct (Z.eqb_spec (i + 1) total) as [E|E].
  - rewrite (uadd_exact 8) by (unfold is_u; cbn; lia). cbn [mbind run_bind].
    exists 0x1d, 0. split; [done|by left].
  - rewrite umul_exact by (unfold is_u; nia). cbn [mbind run_bind].
    rewrite as_u_small by (unfold is_u; nia). do 2 eexists. split; [done|]. right. conj_split; [lia|done|done].
Qed.

(** A key is in the shard of its bucket, and in no other. *)
Lemma in_shard c i total :
  cred_ok c -> 0 < total -> validate_total_shards total = true -> 0 ≤ i < total ->
  exists a b, shard_key_ranges i total = Ret [a; b] /\
    (forall r, r ∈ [a; b] -> key_in_range r (entity_key_from (cbor_cred c)) = true ->
       i = bucket c / (256 / total)) /\
    (i = bucket c / (256 / total) ->
     key_in_range a (entity_key_from (cbor_cred c)) =
       negb (key_in_range b (entity_key_from (cbor_cred c)))).
Proof.
  intros Hc Ht Hv Hi. unfold shard_key_ranges. rewrite Hv, (proj2 (Z.ltb_lt i total)) by lia.
  cbn [assert_ mbind run_bind].
  destruct (variant_range_eq CRED_KEY_VARIANT_ADDRKEYHASH i total Ht Hv Hi) as (h0 & x0 & -> & Hh0).
  destruct (variant_range_eq CRED_KEY_VARIANT_SCRIPTHASH i total Ht Hv Hi) as (h1 & x1 & -> & Hh1). cbn [mbind run_bind].
  do 2 eexists. split; [done|]. destruct (valid_shards total Ht Hv) as [Hs Hm].
  pose proof (bucket_byte c Hc) as Hbk.
  assert (Hin : forall header hi,
    (i + 1 = total /\ header = 0x1d \/
     i + 1 < total /\ header = 0x1c /\ hi = (i + 1) * (256 / total)) ->
    key_in_range
      (entity_key_from ([0x82; cred_variant c; 0x58; 0x1c; i * (256 / total)] ++ replicate 27 0),
       entity_key_from ([0x82; cred_variant c; 0x58; header; hi] ++ replicate 27 0))
      (entity_key_from (cbor_cred c)) = (i =? bucket c / (256 / total))).
  { intros header hi Hh. unfold key_in_range. cbn [fst snd].
    rewrite bytes_lt_le, !key_bound by done.
    pose proof (Z.div_mod (bucket c) (256 / total)). pose proof (Z.mod_pos_bound (bucket c) (256 / total)).
    apply eq_true_iff_eq. rewrite andb_true_iff, negb_true_iff, Z.eqb_eq, orb_true_iff, orb_false_iff.
    rewrite !andb_true_iff, andb_false_iff, !Z.ltb_lt, !Z.ltb_ge, !Z.eqb_eq, Z.eqb_neq, !Z.leb_le, Z.leb_gt.
    destruct Hh as [[? ->]|(? & -> & ->)]; split; intros; [nia|..]; try nia.
    all: repeat split; try nia; try (right; nia); try (left; nia). }
  destruct c as [h|h]; cbn [cred_variant] in Hin.
  - pose proof (key_other (AddrKeyhash h) CRED_KEY_VARIANT_SCRIPTHASH (i * (256 / total)) x1 h1 Hc ltac:(done)) as Ho.
    split.
    + intros r Hr Hk. apply elem_of_cons in Hr as [->|Hr].
      * rewrite Hin in Hk by done. by apply Z.eqb_eq.
      * apply list_elem_of_singleton in Hr as ->. by rewrite Ho in Hk.
    + intros E. rewrite Ho. rewrite Hin by done.
      by apply Z.eqb_eq.
  - pose proof (key_other (ScriptHash h) CRED_KEY_VARIANT_ADDRKEYHASH (i * (256 / total)) x0 h0 Hc ltac:(done)) as Ho.
    split.
    + intros r Hr Hk. apply elem_of_cons in Hr as [->|Hr].
      * by rewrite Ho in Hk.
      * apply list_elem_of_singleton in Hr as ->.
        rewrite Hin in Hk by done. by apply Z.eqb_eq.
    + intros E. rewrite Ho. rewrite Hin by done.
      symmetry. apply negb_false_iff. by apply Z.eqb_eq.
Qed.


(** ** Walking the shards

    The loop of [compute_shard_deltas] over the ranges of a shard, on the
    in-memory store: the entities it visits. *)

Definition shard_entities {V} (t : Tables V) (ns : string) (shard_index total_shards : Z) :
    run (list (EntityKey * V)) :=
  ranges ← shard_key_ranges shard_index total_shards;
  Ret (ranges ≫= Memory.iter_entities t ns).

(** Every key of the namespace is the key of a credential. *)
Definition credential_keyed {V} (t : Tables V) (ns : string) : Prop :=
  forall k v, entities t !! (ns, k) = Some v -> exists c, cred_ok c /\ k = entity_key_from (cbor_cred c).

(** C31: the shards of a valid sharding factor partition the credential-keyed
    entities of a namespace: the walk of a shard never panics, visits only entities of
    the namespace and visits none twice, and every stored entity is visited
    by the walk of exactly one shard. *)
Theorem shards_partition {V} (t : Tables V) ns total :
  0 < total -> validate_total_shards total = true -> credential_keyed t ns ->
  (forall i, 0 ≤ i < total -> exists l, shard_entities t ns i total = Ret l /\ NoDup l.*1 /\
     forall k v, (k, v) ∈ l -> entities t !! (ns, k) = Some v) /\
  (forall k v, entities t !! (ns, k) = Some v ->
     exists i, 0 ≤ i < total /\ forall j, 0 ≤ j < total ->
       exists l, shard_entities t ns j total = Ret l /\ ((k, v) ∈ l <-> j = i)).
Proof.
  intros Ht Hv Hk. split.
  - intros i Hi. unfold shard_entities, shard_key_ranges. rewrite Hv, (proj2 (Z.ltb_lt i total)) by lia.
    cbn [assert_ mbind run_bind].
    destruct (variant_range_eq CRED_KEY_VARIANT_ADDRKEYHASH i total Ht Hv Hi) as (h0 & x0 & Ea & _).
    destruct (variant_range_eq CRED_KEY_VARIANT_SCRIPTHASH i total Ht Hv Hi) as (h1 & x1 & Eb & _).
    rewrite Ea, Eb. cbn [mbind run_bind]. eexists. split; [done|].
    cbn [mbind list_bind]. rewrite app_nil_r. split.
    + rewrite fmap_app. apply NoDup_app. conj_split; [apply Memory.iter_sorted| |apply Memory.iter_sorted].
      intros k Hka Hkb. apply list_elem_of_fmap in Hka as ([k1 v1] & -> & Hka).
      apply list_elem_of_fmap in Hkb as ([k2 v2] & E & Hkb). cbn in E. subst k2.
      apply Memory.elem_of_iter in Hka as [Hl Hra], Hkb as [_ Hrb].
      cbn [fst] in Hra, Hrb.
      destruct (Hk _ _ Hl) as (c & Hc & ->). destruct c as [h|h].
      * by rewrite key_other in Hrb.
      * by rewrite key_other in Hra.
    + intros k v Hi'. apply elem_of_app in Hi' as [Hi'|Hi']; by apply Memory.elem_of_iter in Hi' as [? _].
  - intros k v Hl. destruct (Hk _ _ Hl) as (c & Hc & ->).
    destruct (valid_shards total Ht Hv) as [Hs Hm]. pose proof (bucket_byte c Hc) as Hbk.
    set (i := bucket c / (256 / total)).
    assert (Hi : 0 ≤ i < total).
    { split; [apply Z.div_pos; lia|]. apply Z.div_lt_upper_bound; lia. }
    exists i. split; [done|]. intros j Hj.
    destruct (in_shard c j total Hc Ht Hv Hj) as (a & b & Er & Hin & Hone).
    unfold shard_entities. rewrite Er. cbn [mbind run_bind]. eexists. split; [done|].
    cbn [mbind list_bind]. rewrite app_nil_r, elem_of_app, !Memory.elem_of_iter. split.
    + intros [[_ Hr]|[_ Hr]]; eapply Hin; try exact Hr; [by left|right; by left].
    + intros ->. specialize (Hone eq_refl). fold i in Hone.
      destruct (key_in_range b _); [by right|left]. by rewrite Hone.
Qed.

End partition.

Section witness.
#[local] Instance shards_cfg : BuildCfg := cfg_debug.
#[local] Instance shards_pallas : Pallas := demo_pallas.

Definition demo_cred : StakeCredential := ScriptHash (replicate 28 200).
Definition demo_tables : Tables unit :=
  mkTables None {[("accounts", entity_key_from (cbor_cred demo_cred)) := tt]} ∅.

Lemma demo_layout : cbor_layout.
Proof. by intros []. Qed.

Lemma shards_partition_witness :
  (forall i, 0 ≤ i < ACCOUNT_SHARDS ->
     exists l, shard_entities demo_tables "accounts" i ACCOUNT_SHARDS = Ret l /\ NoDup l.*1 /\
     forall k v, (k, v) ∈ l -> entities demo_tables !! ("accounts", k) = Some v) /\
  (forall k v, entities demo_tables !! ("accounts", k) = Some v ->
     exists i, 0 ≤ i < ACCOUNT_SHARDS /\ forall j, 0 ≤ j < ACCOUNT_SHARDS ->
       exists l, shard_entities demo_tables "accounts" j ACCOUNT_SHARDS = Ret l /\
         ((k, v) ∈ l <-> j = i)).
Proof.
  apply (shards_partition demo_layout demo_tables "accounts" ACCOUNT_SHARDS).
  - done.
  - reflexivity.
  - intros k v Hl. exists demo_cred. split; [split; [done|repeat constructor; done]|].
    unfold demo_tables in Hl. cbn [entities] in Hl. apply lookup_singleton_Some in Hl as [E _].
    by injection E as <-.
Defined.

End witness.
