(* ===== verification/Indexes.v ===== *)
(** * The index store (core/src/indexes.rs, core/src/builtin/memory/index.rs)

    Tags and deltas of the cross-cutting indexes, and the in-memory store: the
    log of a writer and its commit, the lookups, and the record traversal a
    bulk export uses.  The UTxO filter index keeps logical keys; archive tags
    are kept under the hash of their key. *)

From Stdlib Require Import Ascii String Sorted.
From S2P Require Import Prelude Lists Types ChainPoint StateStore.
Open Scope Z_scope.

(** ** Tags and deltas (core/src/indexes.rs) *)

Record Tag := mkTag { dimension : string; tag_key : bytes }.

#[export] Instance Tag_eq_dec : EqDecision Tag.
Proof. solve_decision. Defined.

Record UtxoIndexDelta := mkUtxoIndexDelta {
  produced : list (TxoRef * list Tag);
  consumed : list (TxoRef * list Tag);
}.

Record ArchiveIndexDelta := mkArchiveIndexDelta {
  ad_slot : BlockSlot;
  ad_block_hash : bytes;
  ad_block_number : option Z;
  ad_tx_hashes : list bytes;
  ad_tags : list Tag;
}.

Record IndexDelta := mkIndexDelta {
  delta_cursor : ChainPoint.t;
  delta_utxo : UtxoIndexDelta;
  delta_archive : list ArchiveIndexDelta;
}.

(** [IndexDelta { cursor, ..Default::default() }]. *)
Definition empty_delta (cursor : ChainPoint.t) : IndexDelta :=
  mkIndexDelta cursor (mkUtxoIndexDelta [] []) [].

Inductive IndexError := CodecError.

Definition KEY_HASH_SIZE : nat := 8.
Definition VERBATIM_KEY_DIMENSION : string := "metadata".

(** [xxhash_rust::xxh3::xxh3_64]. *)
Class Xxh3 := { xxh3_64 : bytes -> Z }.

Definition key_hash `{Xxh3} (dimension : string) (key : bytes) : option bytes :=
  if bool_decide (dimension = VERBATIM_KEY_DIMENSION) then
    if bool_decide (length key = KEY_HASH_SIZE) then Some key else None
  else Some (to_be_bytes KEY_HASH_SIZE (xxh3_64 key)).

Record TagRecord := mkTagRecord { tr_dimension : string; tr_key_hash : bytes; tr_slot : BlockSlot }.

Inductive ExactKind := BlockHash | BlockNumber | TxHashKind.

#[export] Instance ExactKind_eq_dec : EqDecision ExactKind.
Proof. solve_decision. Defined.
#[export] Instance ExactKind_countable : Countable ExactKind.
Proof.
  refine (inj_countable' (fun k => match k with BlockHash => 0 | BlockNumber => 1 | TxHashKind => 2 end)
    (fun n => if n =? 0 then BlockHash else if n =? 1 then BlockNumber else TxHashKind) _).
  by intros [].
Defined.

Module ExactKind.

Definition ALL : list ExactKind := [BlockHash; BlockNumber; TxHashKind].

Definition as_str (k : ExactKind) : string :=
  match k with BlockHash => "block_hash" | BlockNumber => "block_num" | TxHashKind => "tx_hash" end.

Definition key_len (k : ExactKind) : nat :=
  match k with BlockHash | TxHashKind => 32 | BlockNumber => 8 end.

Definition from_str (s : string) : option ExactKind :=
  List.find (fun kind => bool_decide (as_str kind = s)) ALL.

(** The derived order: the order of the declaration. *)
Definition cmp (a b : ExactKind) : comparison :=
  match a, b with
  | BlockHash, BlockHash | BlockNumber, BlockNumber | TxHashKind, TxHashKind => Eq
  | BlockHash, _ | BlockNumber, TxHashKind => Lt
  | _, _ => Gt
  end.

End ExactKind.

Definition MAX_EXACT_KEY_LEN : nat := 32.

Module ExactRecord.

(** The key is private: [new] is the only way to a record. *)
Record t := mk { kind : ExactKind; padded : bytes; slot : BlockSlot }.

Definition new (kind : ExactKind) (key : bytes) (slot : BlockSlot) : result IndexError t :=
  if bool_decide (length key = ExactKind.key_len kind)
  then Ok (mk kind (key ++ replicate (MAX_EXACT_KEY_LEN - ExactKind.key_len kind) 0) slot)
  else Err CodecError.

Definition key (r : t) : bytes := take (ExactKind.key_len (kind r)) (padded r).

End ExactRecord.

Inductive IndexRecord :=
| RecordTag (r : TagRecord)
| RecordExact (r : ExactRecord.t).

(** ** The in-memory store (core/src/builtin/memory/index.rs) *)

Module MemoryIndex.

(** [exact_key]: the padded key, or nothing unless it has the width of its
    kind. *)
Definition exact_key (kind : ExactKind) (key : bytes) : option bytes :=
  if bool_decide (length key = ExactKind.key_len kind)
  then Some (key ++ replicate (MAX_EXACT_KEY_LEN - length key) 0)
  else None.

Record t := mk {
  cursor : option ChainPoint.t;
  utxo_tags : gmap (string * bytes) (gset TxoRef);
  archive_tags : gset (string * bytes * BlockSlot);
  exact : gmap (ExactKind * bytes) BlockSlot;
}.

Definition empty : t := mk None ∅ ∅ ∅.

Inductive Op :=
| SetCursor (p : ChainPoint.t)
| InsertUtxoTag (dimension : string) (key : bytes) (txo : TxoRef)
| RemoveUtxoTag (dimension : string) (key : bytes) (txo : TxoRef)
| InsertArchiveTag (tag : string * bytes * BlockSlot)
| RemoveArchiveTag (tag : string * bytes * BlockSlot)
| InsertExact (kind : ExactKind) (key : bytes) (slot : BlockSlot)
| RemoveExact (kind : ExactKind) (key : bytes).

(** One operation of the loop in [commit]. *)
Definition exec (s : t) (op : Op) : t :=
  match op with
  | SetCursor p => mk (Some p) (utxo_tags s) (archive_tags s) (exact s)
  | InsertUtxoTag d k txo =>
      mk (cursor s) (<[(d, k) := default ∅ (utxo_tags s !! (d, k)) ∪ {[txo]}]> (utxo_tags s))
        (archive_tags s) (exact s)
  | RemoveUtxoTag d k txo =>
      match utxo_tags s !! (d, k) with
      | Some set =>
          let set := set ∖ {[txo]} in
          mk (cursor s) (if bool_decide (set = ∅) then delete (d, k) (utxo_tags s) else <[(d, k) := set]> (utxo_tags s))
            (archive_tags s) (exact s)
      | None => s
      end
  | InsertArchiveTag tag => mk (cursor s) (utxo_tags s) (archive_tags s ∪ {[tag]}) (exact s)
  | RemoveArchiveTag tag => mk (cursor s) (utxo_tags s) (archive_tags s ∖ {[tag]}) (exact s)
  | InsertExact kind key slot => mk (cursor s) (utxo_tags s) (archive_tags s) (<[(kind, key) := slot]> (exact s))
  | RemoveExact kind key => mk (cursor s) (utxo_tags s) (archive_tags s) (delete (kind, key) (exact s))
  end.

Definition commit (ops : list Op) (s : t) : t := foldl exec s ops.

#[local] Arguments exec : simpl never.

Section writer.
Context `{Xxh3}.

Definition archive_tags_of (block : ArchiveIndexDelta) : list (string * bytes * BlockSlot) :=
  omap (fun tag => (fun hash => (dimension tag, hash, ad_slot block)) <$> key_hash (dimension tag) (tag_key tag))
    (ad_tags block).

(** The exact entries of a block: its hash, its transactions, its number; the
    first key with a wrong width ends the loop. *)
Definition exact_keys_of (block : ArchiveIndexDelta) : run (result IndexError (list (ExactKind * bytes))) :=
  let hash := if bool_decide (ad_block_hash block = []) then [] else [(BlockHash, ad_block_hash block)] in
  let txs := (fun h => (TxHashKind, h)) <$> ad_tx_hashes block in
  let hashes := (fun e => match exact_key (fst e) (snd e) with
                          | Some key => Ok (fst e, key)
                          | None => Err CodecError
                          end) <$> (hash ++ txs) in
  number ← match ad_block_number block with
           | Some n => key ← expect (exact_key BlockNumber (to_be_bytes 8 n)); Ret [(BlockNumber, key)]
           | None => Ret []
           end;
  Ret match try_collect hashes with Ok l => Ok (l ++ number) | Err e => Err e end.

Definition tag_ops (f : string -> bytes -> TxoRef -> Op) (l : list (TxoRef * list Tag)) : list Op :=
  l ≫= fun x => (fun tag => f (dimension tag) (tag_key tag) (fst x)) <$> snd x.

Fixpoint blocks_ops (entry : ExactKind * bytes -> BlockSlot -> Op) (tag : string * bytes * BlockSlot -> Op)
    (blocks : list ArchiveIndexDelta) : run (result IndexError (list Op)) :=
  match blocks with
  | [] => Ret (Ok [])
  | block :: rest =>
      keys ←? exact_keys_of block;
      ops ←? blocks_ops entry tag rest;
      Ret (Ok (((fun e => entry e (ad_slot block)) <$> keys) ++ (tag <$> archive_tags_of block) ++ ops))
  end.

(** [IndexWriter::apply]: what it appends to the log of the writer.  An error
    ends the caller, which drops the writer. *)
Definition apply (delta : IndexDelta) : run (result IndexError (list Op)) :=
  blocks ←? blocks_ops (fun e slot => InsertExact (fst e) (snd e) slot) InsertArchiveTag (delta_archive delta);
  Ret (Ok (tag_ops InsertUtxoTag (produced (delta_utxo delta)) ++
           tag_ops RemoveUtxoTag (consumed (delta_utxo delta)) ++
           blocks ++ [SetCursor (delta_cursor delta)])).

Definition undo (delta : IndexDelta) : run (result IndexError (list Op)) :=
  blocks ←? blocks_ops (fun e _ => RemoveExact (fst e) (snd e)) RemoveArchiveTag (reverse (delta_archive delta));
  Ret (Ok (tag_ops RemoveUtxoTag (produced (delta_utxo delta)) ++
           tag_ops InsertUtxoTag (consumed (delta_utxo delta)) ++ blocks)).

Fixpoint append_prehashed (records : list IndexRecord) : run (list Op) :=
  match records with
  | [] => Ret []
  | RecordTag tag :: rest =>
      ops ← append_prehashed rest;
      Ret (InsertArchiveTag (tr_dimension tag, tr_key_hash tag, tr_slot tag) :: ops)
  | RecordExact e :: rest =>
      key ← expect (exact_key (ExactRecord.kind e) (ExactRecord.key e));
      ops ← append_prehashed rest;
      Ret (InsertExact (ExactRecord.kind e) key (ExactRecord.slot e) :: ops)
  end.

(** [copy]: merges this store into the target. *)
Definition copy (source target : t) : t :=
  mk (match cursor source with Some c => Some c | None => cursor target end)
    (union_with (fun a b => Some (a ∪ b)) (utxo_tags target) (utxo_tags source))
    (archive_tags target ∪ archive_tags source)
    (exact source ∪ exact target).

(** ** Lookups *)

Definition utxos_by_tag (s : t) (dimension : string) (key : bytes) : gset TxoRef :=
  default ∅ (utxo_tags s !! (dimension, key)).

Definition slot_by_block_hash (s : t) (hash : bytes) : option BlockSlot :=
  key ← exact_key BlockHash hash; exact s !! (BlockHash, key).

Definition slot_by_block_number (s : t) (number : Z) : run (option BlockSlot) :=
  key ← expect (exact_key BlockNumber (to_be_bytes 8 number));
  Ret (exact s !! (BlockNumber, key)).

Definition slot_by_tx_hash (s : t) (hash : bytes) : option BlockSlot :=
  key ← exact_key TxHashKind hash; exact s !! (TxHashKind, key).

(** ** Traversal *)

(** A string as the bytes Rust compares. *)
Definition str_bytes (s : string) : bytes := (fun c => Z.of_nat (nat_of_ascii c)) <$> list_ascii_of_string s.

Definition dimension_cmp (a b : string) : comparison := bytes_cmp (str_bytes a) (str_bytes b).

(** The order of [(Cow<str>, KeyHash, BlockSlot)]. *)
Definition archive_tag_cmp : string * bytes * BlockSlot -> string * bytes * BlockSlot -> comparison :=
  lex_cmp (lex_cmp dimension_cmp bytes_cmp) Z.compare.

(** The set in its own order. *)
Definition sorted_tags (s : t) : list (string * bytes * BlockSlot) := sort_by archive_tag_cmp (elements (archive_tags s)).

Definition slots_by_tag (s : t) (dimension : string) (key : bytes) (start end_ : BlockSlot) :
    result IndexError (list BlockSlot) :=
  match key_hash dimension key with
  | None => Err CodecError
  | Some hash =>
      if end_ <? start then Ok []
      else Ok (snd <$> List.filter (fun x => bool_decide (fst x = (dimension, hash)) &&
                                             (start <=? snd x) && (snd x <=? end_)) (sorted_tags s))
  end.

(** [dimensions.sort_unstable(); dimensions.dedup()]. *)
Fixpoint dedup (l : list string) : list string :=
  match l with
  | a :: ((b :: _) as rest) => if bool_decide (a = b) then dedup rest else a :: dedup rest
  | _ => l
  end.

(** [slots.contains(slot)] of a half-open range. *)
Definition slot_in (slots : BlockSlot * BlockSlot) (slot : BlockSlot) : bool := (fst slots <=? slot) && (slot <? snd slots).

Definition iter_archive_tags (s : t) (dimensions : list string) (slots : BlockSlot * BlockSlot) : list TagRecord :=
  dedup (sort_by dimension_cmp dimensions) ≫= fun dimension =>
    (fun x : string * bytes * BlockSlot => mkTagRecord dimension x.1.2 x.2) <$>
      List.filter (fun x => bool_decide (x.1.1 = dimension) && slot_in slots x.2) (sorted_tags s).

(** The order of the keys of the map. *)
Definition exact_cmp (a b : ExactKind * bytes * BlockSlot) : comparison :=
  lex_cmp ExactKind.cmp bytes_cmp (fst a) (fst b).

Definition iter_exact_records (s : t) (slots : BlockSlot * BlockSlot) : result IndexError (list ExactRecord.t) :=
  try_collect ((fun x : ExactKind * bytes * BlockSlot => ExactRecord.new x.1.1 (take (ExactKind.key_len x.1.1) x.1.2) x.2) <$>
    List.filter (fun x => slot_in slots x.2) (sort_by exact_cmp (map_to_list (exact s)))).

(** ** The UTxO filter index *)

(** A reference is listed with a tag. *)
Definition in_tags (l : list (TxoRef * list Tag)) (d : string) (k : bytes) (r : TxoRef) : Prop :=
  exists tags, (r, tags) ∈ l /\ mkTag d k ∈ tags.

#[export] Instance in_tags_dec l d k r : Decision (in_tags l d k r).
Proof.
  refine (cast_if (decide (Exists (fun x => fst x = r /\ mkTag d k ∈ snd x) l))); unfold in_tags; rewrite Exists_exists in *.
  - destruct e as ([r' tags] & Hx & <- & Ht). eauto.
  - intros (tags & Hl & Ht). apply n. by exists (r, tags).
Defined.

(** No key is kept with an empty set. *)
Definition tidy (s : t) : Prop := forall dk refs, utxo_tags s !! dk = Some refs -> refs ≠ ∅.

Lemma by_tag_InsertUtxoTag s d k r d' k' r' :
  r ∈ utxos_by_tag (exec s (InsertUtxoTag d' k' r')) d k <-> (d', k', r') = (d, k, r) \/ r ∈ utxos_by_tag s d k.
Proof.
  unfold utxos_by_tag, exec. cbn. destruct (decide ((d', k') = (d, k))) as [[= -> ->]|Hn].
  - rewrite lookup_insert_eq. cbn. rewrite elem_of_union, elem_of_singleton. naive_solver.
  - rewrite lookup_insert_ne by done. naive_solver.
Qed.

Lemma by_tag_RemoveUtxoTag s d k r d' k' r' :
  r ∈ utxos_by_tag (exec s (RemoveUtxoTag d' k' r')) d k <-> (d', k', r') ≠ (d, k, r) /\ r ∈ utxos_by_tag s d k.
Proof.
  unfold utxos_by_tag, exec. cbn. destruct (utxo_tags s !! (d', k')) as [refs|] eqn:E; cbn.
  - destruct (decide ((d', k') = (d, k))) as [[= -> ->]|Hn].
    + rewrite E. cbn. case_bool_decide as He.
      * rewrite lookup_delete_eq. cbn. set_solver.
      * rewrite lookup_insert_eq. cbn. rewrite elem_of_difference, elem_of_singleton. naive_solver.
    + case_bool_decide; [rewrite lookup_delete_ne by done|rewrite lookup_insert_ne by done]; naive_solver.
  - split; [|naive_solver]. intros Hr. split; [|done]. intros [= -> -> ->]. by rewrite E in Hr.
Qed.

Lemma tidy_exec s op : tidy s -> tidy (exec s op).
Proof.
  intros Ht. unfold exec. destruct op; try exact Ht; cbn.
  - intros dk refs. cbn. rewrite lookup_insert_Some. intros [[<- <-]|[_ Hl]]; [|by apply (Ht dk)].
    set_solver.
  - destruct (utxo_tags s !! (dimension0, key)) as [refs|]; [|exact Ht]. intros dk x. cbn.
    case_bool_decide as He.
    + rewrite lookup_delete_Some. intros [_ Hl]. by apply (Ht dk).
    + rewrite lookup_insert_Some. intros [[<- <-]|[_ Hl]]; [done|by apply (Ht dk)].
Qed.

Lemma tidy_commit ops s : tidy s -> tidy (commit ops s).
Proof. unfold commit. revert s. induction ops; intros s Hs; [done|]. apply IHops. by apply tidy_exec. Qed.

(** A tidy index is its membership relation. *)
Lemma tidy_ext s s' :
  tidy s -> tidy s' -> (forall d k r, r ∈ utxos_by_tag s d k <-> r ∈ utxos_by_tag s' d k) -> utxo_tags s = utxo_tags s'.
Proof.
  intros Hs Hs' He. apply map_eq. intros [d k].
  assert (utxos_by_tag s d k = utxos_by_tag s' d k) as E by (apply set_eq; intros r; apply He).
  unfold utxos_by_tag in E.
  destruct (utxo_tags s !! (d, k)) as [a|] eqn:Ea, (utxo_tags s' !! (d, k)) as [b|] eqn:Eb; cbn in E; subst; try done.
  - by destruct (Hs _ _ Ea).
  - by destruct (Hs' _ _ Eb).
Qed.

Lemma commit_app ops1 ops2 s : commit (ops1 ++ ops2) s = commit ops2 (commit ops1 s).
Proof. apply foldl_app. Qed.

(** The tags of one reference. *)
Lemma by_tag_refs_insert tags r0 s d k r :
  r ∈ utxos_by_tag (commit ((fun tag => InsertUtxoTag (dimension tag) (tag_key tag) r0) <$> tags) s) d k <->
  (r = r0 /\ mkTag d k ∈ tags) \/ r ∈ utxos_by_tag s d k.
Proof.
  revert s. induction tags as [|[d' k'] tags IH]; intros s; cbn; [set_solver|].
  change (foldl exec ?s ?o) with (commit o s). rewrite IH, by_tag_InsertUtxoTag. rewrite elem_of_cons. naive_solver.
Qed.

Lemma by_tag_refs_remove tags r0 s d k r :
  r ∈ utxos_by_tag (commit ((fun tag => RemoveUtxoTag (dimension tag) (tag_key tag) r0) <$> tags) s) d k <->
  ~ (r = r0 /\ mkTag d k ∈ tags) /\ r ∈ utxos_by_tag s d k.
Proof.
  revert s. induction tags as [|[d' k'] tags IH]; intros s; cbn; [set_solver|].
  change (foldl exec ?s ?o) with (commit o s). rewrite IH, by_tag_RemoveUtxoTag. rewrite elem_of_cons. naive_solver.
Qed.

Lemma in_tags_cons r0 tags l d k r :
  in_tags ((r0, tags) :: l) d k r <-> (r = r0 /\ mkTag d k ∈ tags) \/ in_tags l d k r.
Proof. unfold in_tags. setoid_rewrite elem_of_cons. naive_solver. Qed.

Lemma by_tag_insert l s d k r :
  r ∈ utxos_by_tag (commit (tag_ops InsertUtxoTag l) s) d k <-> in_tags l d k r \/ r ∈ utxos_by_tag s d k.
Proof.
  revert s. induction l as [|[r0 tags] l IH]; intros s.
  - cbn. unfold in_tags. set_solver.
  - unfold tag_ops. rewrite bind_cons. fold (tag_ops InsertUtxoTag l). cbn [fst snd].
    rewrite commit_app, IH, by_tag_refs_insert, in_tags_cons. naive_solver.
Qed.

Lemma by_tag_remove l s d k r :
  r ∈ utxos_by_tag (commit (tag_ops RemoveUtxoTag l) s) d k <-> ~ in_tags l d k r /\ r ∈ utxos_by_tag s d k.
Proof.
  revert s. induction l as [|[r0 tags] l IH]; intros s.
  - cbn. unfold in_tags. set_solver.
  - unfold tag_ops. rewrite bind_cons. fold (tag_ops RemoveUtxoTag l). cbn [fst snd].
    rewrite commit_app, IH, by_tag_refs_remove, in_tags_cons. naive_solver.
Qed.

(** ** The archive index *)

Definition archive_op (op : Op) : Prop :=
  match op with InsertUtxoTag _ _ _ | RemoveUtxoTag _ _ _ => False | _ => True end.
Definition utxo_op (op : Op) : Prop :=
  match op with InsertUtxoTag _ _ _ | RemoveUtxoTag _ _ _ => True | _ => False end.

Lemma archive_ops_utxo ops s : Forall archive_op ops -> utxo_tags (commit ops s) = utxo_tags s.
Proof.
  unfold commit. intros Ho. revert s. induction Ho as [|op ops Hop _ IH]; intros s; [done|].
  cbn [foldl]. rewrite IH. by destruct op.
Qed.

(** Only [SetCursor] moves the cursor. *)
Lemma commit_keeps_cursor ops s :
  Forall (fun op => match op with SetCursor _ => False | _ => True end) ops -> cursor (commit ops s) = cursor s.
Proof.
  unfold commit. intros Ho. revert s. induction Ho as [|op ops Hop _ IH]; intros s; [done|].
  cbn [foldl]. rewrite IH. unfold exec. destruct op; try done. by destruct (_ !! _).
Qed.

Lemma utxo_ops_archive ops s :
  Forall utxo_op ops -> archive_tags (commit ops s) = archive_tags s /\ exact (commit ops s) = exact s.
Proof.
  unfold commit. intros Ho. revert s. induction Ho as [|op ops Hop _ IH]; intros s; [done|].
  cbn [foldl]. destruct (IH (exec s op)) as [-> ->]. unfold exec. destruct op; try done. by destruct (_ !! _).
Qed.

Lemma tag_ops_utxo f l : (forall d k r, utxo_op (f d k r)) -> Forall utxo_op (tag_ops f l).
Proof.
  intros Hf. apply Forall_forall. intros op Hop. apply list_elem_of_bind in Hop as (x & Hop & _).
  apply list_elem_of_fmap in Hop as (tag & -> & _). apply Hf.
Qed.

Definition has_tag (bs : list ArchiveIndexDelta) (x : string * bytes * BlockSlot) : Prop :=
  exists b, b ∈ bs /\ x ∈ archive_tags_of b.
Definition has_exact (bs : list ArchiveIndexDelta) (x : ExactKind * bytes) : Prop :=
  exists b ks, b ∈ bs /\ exact_keys_of b = Ret (Ok ks) /\ x ∈ ks.

Lemma blocks_ops_archive entry tag bs ops :
  (forall e slot, archive_op (entry e slot)) -> (forall x, archive_op (tag x)) ->
  blocks_ops entry tag bs = Ret (Ok ops) -> Forall archive_op ops.
Proof.
  intros He Ht. revert ops. induction bs as [|b bs IH]; intros ops Hb; cbn in Hb.
  { apply Ret_inj in Hb. injection Hb as <-. constructor. }
  apply rbind_Ret in Hb as (ks & Hk & Hb). apply rbind_Ret in Hb as (rest & Hr & Hb).
  apply Ret_inj in Hb. injection Hb as <-. rewrite !Forall_app. split; [|split; [|by apply IH]].
  - apply Forall_fmap, Forall_forall. intros e _. apply He.
  - apply Forall_fmap, Forall_forall. intros e _. apply Ht.
Qed.

(** Inserting and removing runs of entries. *)
Lemma commit_insert_tags l s :
  archive_tags (commit (InsertArchiveTag <$> l) s) = archive_tags s ∪ list_to_set l /\
  exact (commit (InsertArchiveTag <$> l) s) = exact s.
Proof.
  revert s. induction l as [|x l IH]; intros s; cbn; [split; [set_solver|done]|].
  change (foldl exec ?s ?o) with (commit o s). destruct (IH (exec s (InsertArchiveTag x))) as [-> ->].
  unfold exec. cbn. split; [set_solver|done].
Qed.

Lemma commit_remove_tags l s :
  archive_tags (commit (RemoveArchiveTag <$> l) s) = archive_tags s ∖ list_to_set l /\
  exact (commit (RemoveArchiveTag <$> l) s) = exact s.
Proof.
  revert s. induction l as [|x l IH]; intros s; cbn; [split; [set_solver|done]|].
  change (foldl exec ?s ?o) with (commit o s). destruct (IH (exec s (RemoveArchiveTag x))) as [-> ->].
  unfold exec. cbn. split; [set_solver|done].
Qed.

Lemma commit_insert_exact ks slot s :
  archive_tags (commit ((fun e => InsertExact (fst e) (snd e) slot) <$> ks) s) = archive_tags s /\
  forall kk, kk ∉ ks -> exact (commit ((fun e => InsertExact (fst e) (snd e) slot) <$> ks) s) !! kk = exact s !! kk.
Proof.
  revert s. induction ks as [|[kind key] ks IH]; intros s; cbn; [done|].
  change (foldl exec ?s ?o) with (commit o s). destruct (IH (exec s (InsertExact kind key slot))) as [-> He].
  split; [done|]. intros kk [Hn Hk]%not_elem_of_cons. rewrite He by done. unfold exec. cbn. by rewrite lookup_insert_ne.
Qed.

Lemma commit_remove_exact ks s :
  archive_tags (commit ((fun e => RemoveExact (fst e) (snd e)) <$> ks) s) = archive_tags s /\
  forall kk, exact (commit ((fun e => RemoveExact (fst e) (snd e)) <$> ks) s) !! kk =
    if bool_decide (kk ∈ ks) then None else exact s !! kk.
Proof.
  revert s. induction ks as [|[kind key] ks IH]; intros s; cbn; [done|].
  change (foldl exec ?s ?o) with (commit o s). destruct (IH (exec s (RemoveExact kind key))) as [-> He].
  split; [done|]. intros kk. rewrite He. unfold exec. cbn. case_bool_decide as Hk.
  - by rewrite bool_decide_true by (by right).
  - destruct (decide ((kind, key) = kk)) as [<-|Hn].
    + rewrite lookup_delete_eq, bool_decide_true; [done|left].
    + rewrite lookup_delete_ne, bool_decide_false; [done|set_solver|done].
Qed.

Lemma has_tag_cons b bs x : has_tag (b :: bs) x <-> x ∈ archive_tags_of b \/ has_tag bs x.
Proof. unfold has_tag. setoid_rewrite elem_of_cons. naive_solver. Qed.

Lemma has_exact_cons b bs ks x :
  exact_keys_of b = Ret (Ok ks) -> has_exact (b :: bs) x <-> x ∈ ks \/ has_exact bs x.
Proof.
  intros Hk. unfold has_exact. setoid_rewrite elem_of_cons. split.
  - intros (b' & ks' & [->|Hb] & Hk' & Hx); [left|right; eauto]. rewrite Hk in Hk'. by simplify_eq.
  - intros [Hx|(b' & ks' & Hb & Hk' & Hx)]; [exists b, ks|exists b', ks']; auto.
Qed.

Lemma has_exact_dec entry tag bs ops kk :
  blocks_ops entry tag bs = Ret (Ok ops) -> has_exact bs kk \/ ~ has_exact bs kk.
Proof.
  revert ops. induction bs as [|b bs IH]; intros ops Hb; cbn in Hb.
  { right. intros (? & ? & Hb' & _). by apply not_elem_of_nil in Hb'. }
  apply rbind_Ret in Hb as (ks & Hk & Hb). apply rbind_Ret in Hb as (rest & Hr & _).
  rewrite (has_exact_cons b bs ks) by done. destruct (IH rest Hr), (decide (kk ∈ ks)); tauto.
Qed.

Lemma blocks_insert bs ops s :
  blocks_ops (fun e slot => InsertExact (fst e) (snd e) slot) InsertArchiveTag bs = Ret (Ok ops) ->
  (forall x, x ∈ archive_tags (commit ops s) <-> has_tag bs x \/ x ∈ archive_tags s) /\
  (forall kk, ~ has_exact bs kk -> exact (commit ops s) !! kk = exact s !! kk).
Proof.
  revert s ops. induction bs as [|b bs IH]; intros s ops Hb; cbn in Hb.
  { apply Ret_inj in Hb. injection Hb as <-. split; [|done]. intros x. unfold has_tag. cbn. set_solver. }
  apply rbind_Ret in Hb as (ks & Hk & Hb). apply rbind_Ret in Hb as (rest & Hr & Hb).
  apply Ret_inj in Hb. injection Hb as <-. rewrite !commit_app.
  destruct (IH (commit (InsertArchiveTag <$> archive_tags_of b)
    (commit ((fun e => InsertExact (fst e) (snd e) (ad_slot b)) <$> ks) s)) rest Hr) as [Ha He].
  destruct (commit_insert_tags (archive_tags_of b)
    (commit ((fun e => InsertExact (fst e) (snd e) (ad_slot b)) <$> ks) s)) as [Ha' He'].
  destruct (commit_insert_exact ks (ad_slot b) s) as [Ha2 He2]. split.
  - intros x. rewrite Ha, Ha', Ha2, has_tag_cons, elem_of_union, elem_of_list_to_set. naive_solver.
  - intros kk Hn. rewrite (has_exact_cons b bs ks) in Hn by done. rewrite He, He', He2 by naive_solver. done.
Qed.

(** An entry all whose blocks have the same slot is found at that slot. *)
Lemma blocks_insert_found bs ops s kk slot :
  blocks_ops (fun e slot => InsertExact (fst e) (snd e) slot) InsertArchiveTag bs = Ret (Ok ops) ->
  (forall b ks, b ∈ bs -> exact_keys_of b = Ret (Ok ks) -> kk ∈ ks -> ad_slot b = slot) ->
  has_exact bs kk \/ exact s !! kk = Some slot -> exact (commit ops s) !! kk = Some slot.
Proof.
  revert s ops. induction bs as [|b bs IH]; intros s ops Hb Hall Hor; cbn in Hb.
  { apply Ret_inj in Hb. injection Hb as <-. destruct Hor as [(? & ? & Hb & _)|?]; [by apply not_elem_of_nil in Hb|done]. }
  apply rbind_Ret in Hb as (ks & Hk & Hb). apply rbind_Ret in Hb as (rest & Hr & Hb).
  apply Ret_inj in Hb. injection Hb as <-. rewrite !commit_app. eapply IH; [done| |].
  { intros b' ks' Hb' Hks' Hin. eapply Hall; [by right|done..]. }
  destruct (commit_insert_tags (archive_tags_of b)
    (commit ((fun e => InsertExact (fst e) (snd e) (ad_slot b)) <$> ks) s)) as [_ ->].
  rewrite (has_exact_cons b bs ks) in Hor by done. destruct (decide (kk ∈ ks)) as [Hin|Hn].
  - right. rewrite <- (Hall b ks) by (done || left). clear -Hin. revert s. induction ks as [|[kind key] ks IH]; intros s.
    { by apply not_elem_of_nil in Hin. }
    cbn. change (foldl exec ?s ?o) with (commit o s). destruct (decide (kk ∈ ks)) as [Hin'|Hn']; [by apply IH|].
    apply elem_of_cons in Hin as [->|Hin]; [|done].
    destruct (commit_insert_exact ks (ad_slot b) (exec s (InsertExact kind key (ad_slot b)))) as [_ ->]; [|done].
    unfold exec. cbn. by rewrite lookup_insert_eq.
  - destruct Hor as [[?|Hor]|Hor]; [done|by left|right].
    destruct (commit_insert_exact ks (ad_slot b) s) as [_ ->]; done.
Qed.

Lemma blocks_remove bs ops s :
  blocks_ops (fun e _ => RemoveExact (fst e) (snd e)) RemoveArchiveTag bs = Ret (Ok ops) ->
  (forall x, x ∈ archive_tags (commit ops s) <-> ~ has_tag bs x /\ x ∈ archive_tags s) /\
  (forall kk, has_exact bs kk \/ exact s !! kk = None -> exact (commit ops s) !! kk = None) /\
  (forall kk, ~ has_exact bs kk -> exact (commit ops s) !! kk = exact s !! kk).
Proof.
  revert s ops. induction bs as [|b bs IH]; intros s ops Hb; cbn in Hb.
  { apply Ret_inj in Hb. injection Hb as <-. unfold has_tag, has_exact. cbn. set_solver. }
  apply rbind_Ret in Hb as (ks & Hk & Hb). apply rbind_Ret in Hb as (rest & Hr & Hb).
  apply Ret_inj in Hb. injection Hb as <-. rewrite !commit_app.
  destruct (commit_remove_tags (archive_tags_of b)
    (commit ((fun e => RemoveExact (fst e) (snd e)) <$> ks) s)) as [Ha' He'].
  destruct (commit_remove_exact ks s) as [Ha2 He2].
  destruct (IH (commit (RemoveArchiveTag <$> archive_tags_of b)
    (commit ((fun e => RemoveExact (fst e) (snd e)) <$> ks) s)) rest Hr) as (Ha & Hh & He). split; [|split].
  - intros x. rewrite Ha, Ha', Ha2, has_tag_cons, elem_of_difference, elem_of_list_to_set. naive_solver.
  - intros kk Hx. rewrite (has_exact_cons b bs ks) in Hx by done. apply Hh.
    rewrite He', He2. case_bool_decide; naive_solver.
  - intros kk Hn. rewrite (has_exact_cons b bs ks) in Hn by done.
    rewrite He, He', He2, bool_decide_false by naive_solver. done.
Qed.

(** Blocks with well-sized hashes are logged. *)
Lemma blocks_ops_returns entry tag bs :
  Forall (fun b => exists ks, exact_keys_of b = Ret (Ok ks)) bs -> exists ops, blocks_ops entry tag bs = Ret (Ok ops).
Proof.
  induction 1 as [|b bs [ks Hk] _ [ops IH]]; cbn; [eauto|]. rewrite Hk. cbn. rewrite IH. cbn. eauto.
Qed.

Lemma exact_key_full kind k : length k = ExactKind.key_len kind -> ExactKind.key_len kind = MAX_EXACT_KEY_LEN -> exact_key kind k = Some k.
Proof.
  intros Hl Hm. unfold exact_key. rewrite bool_decide_true by done. rewrite Hl, Hm, Nat.sub_diag. cbn. by rewrite app_nil_r.
Qed.

Definition number_key (n : Z) : bytes := to_be_bytes 8 n ++ replicate 24 0.

Lemma exact_key_number n : exact_key BlockNumber (to_be_bytes 8 n) = Some (number_key n).
Proof. unfold exact_key. by rewrite bool_decide_true by apply length_to_be_bytes. Qed.

(** The entries of a block: its hash, its transactions and its number. *)
Lemma exact_keys_sized b n :
  length (ad_block_hash b) = 32%nat -> Forall (fun h => length h = 32%nat) (ad_tx_hashes b) -> ad_block_number b = Some n ->
  exact_keys_of b = Ret (Ok ((BlockHash, ad_block_hash b) :: ((fun h => (TxHashKind, h)) <$> ad_tx_hashes b) ++
                             [(BlockNumber, number_key n)])).
Proof.
  intros Hh Ht Hn. unfold exact_keys_of. rewrite Hn, exact_key_number. cbn [expect mbind run_bind].
  rewrite bool_decide_false by (by intros E; rewrite E in Hh). cbn [app fmap list_fmap fst snd].
  rewrite (exact_key_full BlockHash) by done. cbn [try_collect].
  assert (E : try_collect ((fun e => match exact_key (fst e) (snd e) with
      | Some key => Ok (fst e, key) | None => Err CodecError end) <$> ((fun h => (TxHashKind, h)) <$> ad_tx_hashes b)) =
    Ok ((fun h => (TxHashKind, h)) <$> ad_tx_hashes b)).
  { induction Ht as [|h l Hl _ IH]; [done|]. cbn [fmap list_fmap fst snd]. rewrite (exact_key_full TxHashKind) by done.
    cbn [try_collect]. by rewrite IH. }
  by rewrite E.
Qed.

(** ** Undo *)

Definition same_content (s s' : t) : Prop :=
  utxo_tags s = utxo_tags s' /\ archive_tags s = archive_tags s' /\ exact s = exact s'.

Lemma has_tag_reverse bs x : has_tag (reverse bs) x <-> has_tag bs x.
Proof. unfold has_tag. by setoid_rewrite elem_of_reverse. Qed.

Lemma has_exact_reverse bs x : has_exact (reverse bs) x <-> has_exact bs x.
Proof. unfold has_exact. by setoid_rewrite elem_of_reverse. Qed.

(** Undoing a delta gives the index back, whatever it held, when the delta
    was new to it: none of the tags of its produced outputs, all the tags of
    its consumed ones, and none of the entries of its blocks. *)
Theorem undo_inverts_apply s delta ops ops' :
  tidy s ->
  (forall d k r, in_tags (produced (delta_utxo delta)) d k r -> r ∉ utxos_by_tag s d k) ->
  (forall d k r, in_tags (consumed (delta_utxo delta)) d k r -> r ∈ utxos_by_tag s d k) ->
  (forall x, has_tag (delta_archive delta) x -> x ∉ archive_tags s) ->
  (forall kk, has_exact (delta_archive delta) kk -> exact s !! kk = None) ->
  apply delta = Ret (Ok ops) -> undo delta = Ret (Ok ops') ->
  same_content (commit ops' (commit ops s)) s.
Proof.
  intros Ht Hp Hc Hg Hx Ha Hu. unfold apply in Ha. unfold undo in Hu.
  apply rbind_Ret in Ha as (bo & Hb & Ha). apply Ret_inj in Ha. injection Ha as <-.
  apply rbind_Ret in Hu as (bo' & Hb' & Hu). apply Ret_inj in Hu. injection Hu as <-.
  rewrite !commit_app. set (s1 := commit (tag_ops InsertUtxoTag _) s).
  set (s2 := commit (tag_ops RemoveUtxoTag (consumed _)) s1). set (s3 := commit bo s2).
  set (s4 := commit [SetCursor _] s3). set (s5 := commit (tag_ops RemoveUtxoTag _) s4).
  set (s6 := commit (tag_ops InsertUtxoTag _) s5).
  assert (E3 : utxo_tags s4 = utxo_tags s2).
  { change (utxo_tags s3 = utxo_tags s2). apply archive_ops_utxo. by eapply blocks_ops_archive in Hb. }
  destruct (utxo_ops_archive (tag_ops InsertUtxoTag (produced (delta_utxo delta))) s) as [Ea1 Ee1]; [by apply tag_ops_utxo|].
  destruct (utxo_ops_archive (tag_ops RemoveUtxoTag (consumed (delta_utxo delta))) s1) as [Ea2 Ee2]; [by apply tag_ops_utxo|].
  destruct (utxo_ops_archive (tag_ops RemoveUtxoTag (produced (delta_utxo delta))) s4) as [Ea5 Ee5]; [by apply tag_ops_utxo|].
  destruct (utxo_ops_archive (tag_ops InsertUtxoTag (consumed (delta_utxo delta))) s5) as [Ea6 Ee6]; [by apply tag_ops_utxo|].
  destruct (blocks_insert _ _ s2 Hb) as [Bi Be]. destruct (blocks_remove _ _ s6 Hb') as (Ri & Rh & Rn).
  fold s1 in Ea1, Ee1. fold s2 in Ea2, Ee2. fold s5 in Ea5, Ee5. fold s6 in Ea6, Ee6. fold s3 in Bi, Be.
  split; [|split].
  - rewrite archive_ops_utxo by (by eapply blocks_ops_archive in Hb'). apply tidy_ext; [by repeat apply tidy_commit|done|].
    intros d k r. subst s6 s5. rewrite by_tag_insert, by_tag_remove. unfold utxos_by_tag at 1. rewrite E3.
    fold (utxos_by_tag s2 d k). subst s2 s1. rewrite by_tag_remove, by_tag_insert.
    specialize (Hp d k r). specialize (Hc d k r). clear -Hp Hc.
    destruct (decide (in_tags (consumed (delta_utxo delta)) d k r)); tauto.
  - apply set_eq. intros x. rewrite Ri, has_tag_reverse, Ea6, Ea5. change (archive_tags s4) with (archive_tags s3).
    rewrite Bi, Ea2, Ea1. specialize (Hg x). clear -Hg. tauto.
  - apply map_eq. intros kk. destruct (exact s !! kk) as [slot|] eqn:E.
    + assert (Hn : ~ has_exact (delta_archive delta) kk) by (intros Hk; by rewrite Hx in E).
      rewrite Rn by (by rewrite has_exact_reverse). rewrite Ee6, Ee5. change (exact s4) with (exact s3).
      by rewrite Be, Ee2, Ee1.
    + apply Rh. rewrite Ee6, Ee5. change (exact s4) with (exact s3). rewrite has_exact_reverse.
      destruct (exact s3 !! kk) as [slot|] eqn:E'; [left|by right].
      destruct (has_exact_dec _ _ _ _ kk Hb) as [Hn|Hn]; [done|]. rewrite Be, Ee2, Ee1 in E' by done. congruence.
Qed.

(** ** Traversal *)

Lemma str_bytes_inj a b : str_bytes a = str_bytes b -> a = b.
Proof.
  intros E. rewrite <- (string_of_list_ascii_of_string a), <- (string_of_list_ascii_of_string b). f_equal.
  unfold str_bytes in E. assert (Inj eq eq (fun c => Z.of_nat (nat_of_ascii c))).
  { intros x y Hxy. rewrite <- (ascii_nat_embedding x), <- (ascii_nat_embedding y). f_equal. lia. }
  by apply (inj (fmap _)) in E.
Qed.

#[export] Instance dimension_cmp_laws : CmpLaws dimension_cmp.
Proof. apply (on_laws bytes_cmp str_bytes str_bytes_inj). Qed.

#[export] Instance exact_kind_laws : CmpLaws ExactKind.cmp.
Proof. split; [by intros [] []|by intros [] []|by intros [] [] []]. Qed.

#[export] Instance archive_tag_laws : CmpLaws archive_tag_cmp.
Proof. apply _. Qed.

Lemma sorted_tags_strict s : StronglySorted (fun a b => archive_tag_cmp a b = Lt) (sorted_tags s).
Proof.
  apply strict_sorted; [apply _|apply lawful_sorted; apply _|].
  unfold sorted_tags. rewrite sort_by_perm. apply NoDup_elements.
Qed.

Lemma elem_of_sorted_tags s x : x ∈ sorted_tags s <-> x ∈ archive_tags s.
Proof. unfold sorted_tags. rewrite sort_by_perm. apply elem_of_elements. Qed.

Lemma dedup_spec l :
  StronglySorted (cmp_le dimension_cmp) l ->
  StronglySorted (fun a b => dimension_cmp a b = Lt) (dedup l) /\ forall x, x ∈ dedup l <-> x ∈ l.
Proof.
  induction 1 as [|a l Hs IH Hf]; [split; [constructor|done]|]. destruct l as [|b l]; [split; [repeat constructor|done]|].
  destruct IH as [IHs IHe]. change (dedup (a :: b :: l)) with (if bool_decide (a = b) then dedup (b :: l) else a :: dedup (b :: l)).
  case_bool_decide as E.
  - subst b. split; [done|]. intros x. rewrite IHe. set_solver.
  - split; [|intros x; rewrite (elem_of_cons (dedup _)), IHe; set_solver].
    constructor; [done|]. apply Forall_forall. intros x Hx%IHe.
    apply Forall_cons in Hf as [Hab _]. unfold cmp_le in Hab.
    destruct (dimension_cmp a b) eqn:Eab; [by apply cmp_laws_eq in Eab| |done].
    apply elem_of_cons in Hx as [->|Hx]; [done|].
    apply StronglySorted_inv in Hs as [_ Hb]. rewrite Forall_forall in Hb. specialize (Hb x Hx). unfold cmp_le in Hb.
    destruct (dimension_cmp b x) eqn:Ebx; [by apply cmp_laws_eq in Ebx as <-|by eapply cmp_laws_trans|done].
Qed.

Definition as_tag (r : TagRecord) : string * bytes * BlockSlot := (tr_dimension r, tr_key_hash r, tr_slot r).

Lemma elem_of_run s slots d x :
  x ∈ ((fun x : string * bytes * BlockSlot => mkTagRecord d x.1.2 x.2) <$>
       List.filter (fun x => bool_decide (x.1.1 = d) && slot_in slots x.2) (sorted_tags s)) <->
  tr_dimension x = d /\ as_tag x ∈ archive_tags s /\ slot_in slots (tr_slot x) = true.
Proof.
  rewrite list_elem_of_fmap. split.
  - intros ([[d' h] sl] & -> & [Hy Hp]%list_elem_of_In%filter_In). apply list_elem_of_In, elem_of_sorted_tags in Hy.
    apply andb_true_iff in Hp as [Hd Hs]. apply bool_decide_eq_true in Hd. cbn in Hd. by subst d'.
  - intros (Hd & Hx & Hs). exists (as_tag x). split; [destruct x; cbn in Hd; by subst|].
    apply list_elem_of_In, filter_In. split; [by apply list_elem_of_In, elem_of_sorted_tags|].
    apply andb_true_iff. split; [by apply bool_decide_eq_true|done].
Qed.

Lemma run_sorted d (l : list (string * bytes * BlockSlot)) :
  StronglySorted (fun a b => archive_tag_cmp a b = Lt) l -> Forall (fun x => x.1.1 = d) l ->
  StronglySorted (fun a b => archive_tag_cmp (as_tag a) (as_tag b) = Lt)
    ((fun x : string * bytes * BlockSlot => mkTagRecord d x.1.2 x.2) <$> l).
Proof.
  induction 1 as [|[[d0 h] sl] l _ IH Hf]; [constructor|]. intros [Hd0 Hd]%Forall_cons. cbn in Hd0. subst d0.
  constructor; [by apply IH|]. apply Forall_fmap. eapply Forall_impl; [by apply Forall_and; split; [exact Hf|exact Hd]|].
  intros [[d1 h1] sl1] [Hlt Hd1]. cbn in Hd1. by subst d1.
Qed.

Lemma traversal_sorted s dimensions slots :
  StronglySorted (fun a b => archive_tag_cmp (as_tag a) (as_tag b) = Lt) (iter_archive_tags s dimensions slots).
Proof.
  destruct (dedup_spec (sort_by dimension_cmp dimensions)) as [Hs _]; [apply lawful_sorted; apply _|].
  unfold iter_archive_tags. eapply sorted_bind; [exact Hs| |].
  - intros d. assert (Hr := sorted_list_filter _ (fun x => bool_decide (x.1.1 = d) && slot_in slots x.2) _ (sorted_tags_strict s)).
    apply run_sorted; [done|]. apply Forall_forall. intros x [_ Hx]%list_elem_of_In%filter_In.
    apply andb_true_iff in Hx as [Hx _]. by apply bool_decide_eq_true in Hx.
  - intros a a' b b' Hlt [Hb _]%elem_of_run [Hb' _]%elem_of_run. subst a a'.
    unfold archive_tag_cmp, lex_cmp, as_tag. cbn [fst snd]. by rewrite Hlt.
Qed.

Lemma elem_of_traversal s dimensions slots x :
  x ∈ iter_archive_tags s dimensions slots <->
  tr_dimension x ∈ dimensions /\ as_tag x ∈ archive_tags s /\ slot_in slots (tr_slot x) = true.
Proof.
  destruct (dedup_spec (sort_by dimension_cmp dimensions)) as [_ He]; [apply lawful_sorted; apply _|].
  unfold iter_archive_tags. rewrite list_elem_of_bind. setoid_rewrite elem_of_run. setoid_rewrite He.
  setoid_rewrite sort_by_perm. naive_solver.
Qed.

(** Slots queries read the same set. *)
Lemma elem_of_slots_by_tag s d key hash start end_ l slot :
  key_hash d key = Some hash -> slots_by_tag s d key start end_ = Ok l ->
  slot ∈ l <-> (d, hash, slot) ∈ archive_tags s /\ start ≤ slot ≤ end_.
Proof.
  intros Hk. unfold slots_by_tag. rewrite Hk. destruct (Z.ltb_spec end_ start) as [Hlt|Hge]; intros [= <-].
  - split; [by intros ?%not_elem_of_nil|lia].
  - rewrite list_elem_of_fmap. split.
    + intros ([[d' h] sl] & -> & [Hx Hp]%list_elem_of_In%filter_In). apply list_elem_of_In, elem_of_sorted_tags in Hx.
      rewrite !andb_true_iff, bool_decide_eq_true, !Z.leb_le in Hp. destruct Hp as [[[= -> ->] Hlo] Hhi]. split; [exact Hx|]. cbn in *. lia.
    + intros [Hx Hs]. exists (d, hash, slot). split; [done|]. apply list_elem_of_In, filter_In.
      split; [by apply list_elem_of_In, elem_of_sorted_tags|]. cbn [fst snd].
      rewrite !andb_true_iff, bool_decide_eq_true, !Z.leb_le. split; [split; [done|lia]|lia].
Qed.

(** The traversal of the archive tags gives each stored tag of the
    requested dimensions and slots exactly once, in the strict order of
    dimension, key hash and slot, whatever the order and repetitions of the
    requested dimensions; and a query for the slots of a tag agrees with it. *)
Theorem archive_traversal_exact s dimensions slots :
  StronglySorted (fun a b => archive_tag_cmp (as_tag a) (as_tag b) = Lt) (iter_archive_tags s dimensions slots) /\
  (forall x, x ∈ iter_archive_tags s dimensions slots <->
     tr_dimension x ∈ dimensions /\ as_tag x ∈ archive_tags s /\ slot_in slots (tr_slot x) = true) /\
  (forall d key hash l slot, d ∈ dimensions -> key_hash d key = Some hash ->
     slots_by_tag s d key (fst slots) (snd slots - 1) = Ok l ->
     slot ∈ l <-> mkTagRecord d hash slot ∈ iter_archive_tags s dimensions slots).
Proof.
  split; [apply traversal_sorted|]. split; [apply elem_of_traversal|].
  intros d key hash l slot Hd Hk Hl. rewrite (elem_of_slots_by_tag _ _ _ _ _ _ _ _ Hk Hl), elem_of_traversal. cbn.
  unfold slot_in. rewrite andb_true_iff, Z.leb_le, Z.ltb_lt. assert (slot ≤ snd slots - 1 <-> slot < snd slots) by lia. tauto.
Qed.

(** ** Export and import *)

(** Every exact key has the width of its kind, which [apply] and
    [append_prehashed] check. *)
Definition exact_wf (s : t) : Prop :=
  forall kind key slot, exact s !! (kind, key) = Some slot -> exists k, exact_key kind k = Some key.

Lemma exact_key_spec kind k key :
  exact_key kind k = Some key ->
  length k = ExactKind.key_len kind /\ take (ExactKind.key_len kind) key = k /\
  key = k ++ replicate (MAX_EXACT_KEY_LEN - ExactKind.key_len kind) 0.
Proof.
  unfold exact_key. case_bool_decide as Hl; [|done]. intros [= <-]. rewrite <- Hl. split; [done|].
  split; [by rewrite take_app_length|done].
Qed.

Lemma exact_record_of kind k key slot :
  exact_key kind k = Some key ->
  ExactRecord.new kind (take (ExactKind.key_len kind) key) slot = Ok (ExactRecord.mk kind key slot).
Proof.
  intros (Hl & Ht & Hk)%exact_key_spec. unfold ExactRecord.new. by rewrite Ht, bool_decide_true, <- Hk.
Qed.

Lemma record_key_exact kind k key slot :
  exact_key kind k = Some key -> exact_key kind (ExactRecord.key (ExactRecord.mk kind key slot)) = Some key.
Proof. intros Hk. pose proof (exact_key_spec _ _ _ Hk) as (_ & Ht & _). unfold ExactRecord.key. cbn. by rewrite Ht. Qed.

Definition to_record (x : ExactKind * bytes * BlockSlot) : ExactRecord.t := ExactRecord.mk x.1.1 x.1.2 x.2.

Lemma iter_exact_ok s slots :
  exact_wf s ->
  iter_exact_records s slots =
    Ok (to_record <$> List.filter (fun x => slot_in slots x.2) (sort_by exact_cmp (map_to_list (exact s)))).
Proof.
  intros Hw. unfold iter_exact_records. set (l := List.filter _ _).
  assert (Hl : Forall (fun x : ExactKind * bytes * BlockSlot => exists k, exact_key x.1.1 k = Some x.1.2) l).
  { apply Forall_forall. intros [[kind key] slot] [Hx _]%list_elem_of_In%filter_In. apply list_elem_of_In in Hx.
    rewrite sort_by_perm in Hx. apply elem_of_map_to_list in Hx. by apply (Hw _ _ slot). }
  clearbody l. induction Hl as [|[[kind key] slot] l [k Hk] _ IH]; [done|]. cbn in *.
  by rewrite (exact_record_of _ _ _ _ Hk), IH.
Qed.

Lemma append_tags tags rest ops :
  append_prehashed rest = Ret ops ->
  append_prehashed ((RecordTag <$> tags) ++ rest) = Ret ((InsertArchiveTag ∘ as_tag <$> tags) ++ ops).
Proof. intros Hr. induction tags as [|x tags IH]; cbn; [done|]. by rewrite IH. Qed.

Lemma append_exacts (l : list (ExactKind * bytes * BlockSlot)) :
  Forall (fun x => exists k, exact_key x.1.1 k = Some x.1.2) l ->
  append_prehashed (RecordExact ∘ to_record <$> l) = Ret ((fun x => InsertExact x.1.1 x.1.2 x.2) <$> l).
Proof.
  induction 1 as [|[[kind key] slot] l [k Hk] _ IH]; [done|]. cbn in Hk. cbn [fmap list_fmap append_prehashed compose].
  change (to_record (kind, key, slot)) with (ExactRecord.mk kind key slot). cbn [ExactRecord.kind].
  rewrite (record_key_exact kind k key slot Hk). cbn [mbind run_bind expect]. by rewrite IH.
Qed.

Lemma commit_insert_exacts (l : list (ExactKind * bytes * BlockSlot)) s :
  NoDup l.*1 ->
  commit ((fun x => InsertExact x.1.1 x.1.2 x.2) <$> l) s =
    mk (cursor s) (utxo_tags s) (archive_tags s) (list_to_map l ∪ exact s).
Proof.
  revert s. induction l as [|[[kind key] slot] l IH]; intros s Hd; cbn in *.
  { rewrite (left_id_L ∅ (∪)). by destruct s. }
  apply NoDup_cons in Hd as [Hn Hd]. change (foldl exec ?s ?o) with (commit o s). rewrite IH by done.
  unfold exec. cbn. f_equal. rewrite <- insert_union_l, insert_union_r; [done|].
  by apply not_elem_of_list_to_map_1.
Qed.

(** What a store exports, another imports: the records of the archive
    traversal and of the exact entries, appended to an empty store, rebuild
    the archive index of the source, while the cursor and the UTxO filters
    are left alone. *)
Theorem export_import_roundtrip s dimensions slots :
  exact_wf s ->
  (forall x, x ∈ archive_tags s -> x.1.1 ∈ dimensions /\ slot_in slots x.2 = true) ->
  (forall kk slot, exact s !! kk = Some slot -> slot_in slots slot = true) ->
  exists records ops,
    iter_exact_records s slots = Ok records /\
    append_prehashed ((RecordTag <$> iter_archive_tags s dimensions slots) ++ (RecordExact <$> records)) = Ret ops /\
    commit ops empty = mk None ∅ (archive_tags s) (exact s).
Proof.
  intros Hw Ht He. rewrite (iter_exact_ok s slots Hw).
  set (l := List.filter _ _). assert (Hp : l ≡ₚ map_to_list (exact s)).
  { etrans; [|apply (sort_by_perm exact_cmp)]. subst l. rewrite list_filter_all; [done|].
    intros [kk slot]. rewrite sort_by_perm, elem_of_map_to_list. apply He. }
  clearbody l. do 2 eexists. split; [done|]. split.
  - rewrite <- list_fmap_compose. apply append_tags, append_exacts. rewrite Hp. apply Forall_forall.
    intros [[kind key] slot] Hx%elem_of_map_to_list. by apply (Hw _ _ slot).
  - rewrite commit_app, list_fmap_compose.
    destruct (commit_insert_tags (as_tag <$> iter_archive_tags s dimensions slots) empty) as [Ha Hx].
    rewrite commit_insert_exacts by (rewrite Hp; apply NoDup_fst_map_to_list). rewrite Ha, Hx.
    rewrite archive_ops_utxo, commit_keeps_cursor by (by apply Forall_fmap, Forall_forall).
    cbn. f_equal.
    + rewrite (left_id_L ∅ (∪)). apply set_eq. intros x. rewrite elem_of_list_to_set, list_elem_of_fmap.
      setoid_rewrite elem_of_traversal. split.
      * by intros ([d h sl] & -> & _ & Hin & _).
      * intros Hin. destruct (Ht x Hin) as [Hd Hs]. destruct x as [[d h] sl]. by exists (mkTagRecord d h sl).
    + rewrite (right_id_L ∅ (∪)). rewrite <- (list_to_map_to_list (exact s)). apply list_to_map_proper; [|done].
      rewrite Hp. apply NoDup_fst_map_to_list.
Qed.

End writer.
End MemoryIndex.

(** ** A concrete store

    One output listed under a tag, and a block that spends it. *)
Module StoreDemo.
Import MemoryIndex.

Definition xxh3 : Xxh3 := {| xxh3_64 b := from_be_bytes b |}.
#[local] Existing Instance xxh3.

Definition old : TxoRef := ([1], 0).
Definition new : TxoRef := ([2], 0).
Definition store : t := mk None {[ ("address", [10]) := {[ old ]} ]} ∅ ∅.
Definition block : ArchiveIndexDelta :=
  mkArchiveIndexDelta 5 [] (Some 1) [] [mkTag "address" [10]; mkTag "metadata" [1]].
Definition delta : IndexDelta :=
  mkIndexDelta (ChainPoint.Slot 5)
    (mkUtxoIndexDelta [(new, [mkTag "address" [20]])] [(old, [mkTag "address" [10]])]) [block].
Definition log (r : run (result IndexError (list Op))) : list Op := match r with Ret (Ok l) => l | _ => [] end.
Definition indexed : t := commit (log (apply delta)) store.

(** The store after the block and its undo. *)
Lemma undo_inverts_apply_witness :
  same_content (commit (log (undo delta)) indexed) store /\ utxos_by_tag indexed "address" [20] = {[ new ]}.
Proof.
  split; [|vm_compute; reflexivity]. apply (undo_inverts_apply store delta).
  - intros dk refs Hl. cbn in Hl. apply lookup_singleton_Some in Hl as [<- <-]. apply non_empty_singleton_L.
  - intros d k r (tags & [= -> ->]%list_elem_of_singleton & [= -> ->]%list_elem_of_singleton).
    apply not_elem_of_empty.
  - intros d k r (tags & [= -> ->]%list_elem_of_singleton & [= -> ->]%list_elem_of_singleton).
    unfold utxos_by_tag. cbn. rewrite lookup_singleton_eq. by apply elem_of_singleton.
  - intros x _. apply not_elem_of_empty.
  - intros kk _. apply lookup_empty.
  - vm_compute. reflexivity.
  - vm_compute. reflexivity.
Defined.

(** An output produced and consumed by the same delta: the undo leaves it
    listed, although the store never held it before the delta. *)
Definition chained : IndexDelta :=
  mkIndexDelta ChainPoint.Origin
    (mkUtxoIndexDelta [(new, [mkTag "address" [20]])] [(new, [mkTag "address" [20]])]) [].

Example undo_keeps_chained_output :
  utxos_by_tag (commit (log (apply chained)) store) "address" [20] = ∅ /\
  utxos_by_tag (commit (log (undo chained)) (commit (log (apply chained)) store)) "address" [20] = {[ new ]}.
Proof. by vm_compute. Qed.

Lemma export_import_roundtrip_witness :
  exists records ops, iter_exact_records indexed (0, 10) = Ok records /\
    append_prehashed ((RecordTag <$> iter_archive_tags indexed ["address"; "stake"; "address"] (0, 10)) ++
                      (RecordExact <$> records)) = Ret ops /\
    commit ops empty = mk None ∅ {[ ("address", to_be_bytes 8 10, 5) ]} (exact indexed).
Proof.
  apply (export_import_roundtrip indexed ["address"; "stake"; "address"] (0, 10)).
  - intros kind key slot Hl. change (exact indexed) with
      (<[(BlockNumber, number_key 1) := 5]> (∅ : gmap (ExactKind * bytes) BlockSlot)) in Hl.
    apply lookup_insert_Some in Hl as [[[= <- <-] _]|[_ Hl]]; [|by rewrite lookup_empty in Hl].
    exists (to_be_bytes 8 1). vm_compute. reflexivity.
  - intros x Hx. change (archive_tags indexed) with (∅ ∪ {[ ("address", to_be_bytes 8 10, 5) ]} : gset (string * bytes * BlockSlot)) in Hx.
    apply elem_of_union in Hx as [Hx|Hx]; [by apply elem_of_empty in Hx|]. apply elem_of_singleton in Hx as ->. split; [left|done].
  - intros kk slot Hl. change (exact indexed) with
      (<[(BlockNumber, number_key 1) := 5]> (∅ : gmap (ExactKind * bytes) BlockSlot)) in Hl.
    apply lookup_insert_Some in Hl as [[_ <-]|[_ Hl]]; [done|]. by rewrite lookup_empty in Hl.
Defined.

End StoreDemo.
