(* ===== verification/Blocks.v ===== *)
(** * Blocks: the UTxO deltas and the continuity rules
    (cardano/src/utxoset.rs, cardano/src/consensus.rs)

    A decoded block is what the [pallas] traversal gives the code: its slot,
    its hash, the hash of its parent and its transactions with the outputs they produce
    and the inputs they consume. *)

From S2P Require Import Prelude Types ChainPoint StateStore Indexes.
Open Scope Z_scope.

Record Tx := {
  tx_hash : TxHash;
  produces : list (Z * EraCbor);
  consumes : list TxoRef;
}.

Record Block := {
  block_slot : BlockSlot;
  block_hash : Hash32;
  previous_hash : option Hash32;
  txs : list Tx;
}.

(** ** UTxO deltas (utxoset.rs) *)

Inductive BrokenInvariant :=
| MissingUtxo (r : TxoRef)
| BadBootstrap
| EpochBoundaryIncomplete (epoch : Epoch) (committed total : option Z).

(** [block.txs().into_iter().map(|tx| (tx.hash(), tx)).collect()]: a later
    transaction with the same hash replaces an earlier one. *)
Definition block_txs (b : Block) : gmap TxHash Tx :=
  list_to_map (reverse ((fun tx => (tx_hash tx, tx)) <$> txs b)).

(** The loop over [tx.produces()], inserting into a map. *)
Definition insert_produced (m : UtxoMap) (p : TxHash * Tx) : UtxoMap :=
  foldl (fun m (o : Z * EraCbor) => <[(p.1, as_u 32 o.1) := o.2]> m) m (produces p.2).

(** The reference of a consumed input: its hash and its index as a [u32]. *)
Definition input_ref (r : TxoRef) : TxoRef := (r.1, as_u 32 r.2).

Definition compute_block_dependencies (b : Block) (loaded : UtxoMap) : UtxoMap * list TxoRef :=
  let txs := map_to_list (block_txs b) in
  let loaded := foldl insert_produced loaded txs in
  let consumed := remove_dups (txs ≫= fun p => input_ref <$> consumes p.2) in
  (loaded, filter (fun r => loaded !! r = None) consumed).

(** The dependencies of every block of a batch, the loaded map growing along
    the way. *)
Fixpoint dependencies (bs : list Block) (loaded : UtxoMap) : UtxoMap * list TxoRef :=
  match bs with
  | [] => (loaded, [])
  | b :: rest =>
      let (loaded, refs) := compute_block_dependencies b loaded in
      let (loaded, more) := dependencies rest loaded in
      (loaded, refs ++ more)
  end.

(** The loop over [tx.consumes()] of both deltas: each input is looked up and
    inserted. *)
Fixpoint insert_consumed (loaded m : UtxoMap) (refs : list TxoRef) : result BrokenInvariant UtxoMap :=
  match refs with
  | [] => Ok m
  | r :: rest =>
      match loaded !! input_ref r with
      | Some body => insert_consumed loaded (<[input_ref r := body]> m) rest
      | None => Err (MissingUtxo (input_ref r))
      end
  end.

(** One transaction of [compute_apply_delta]. *)
Fixpoint apply_txs (loaded : UtxoMap) (d : UtxoSetDelta.t) (l : list (TxHash * Tx)) :
    result BrokenInvariant UtxoSetDelta.t :=
  match l with
  | [] => Ok d
  | p :: rest =>
      let produced := insert_produced (UtxoSetDelta.produced_utxo d) p in
      match insert_consumed loaded (UtxoSetDelta.consumed_utxo d) (consumes p.2) with
      | Ok consumed =>
          apply_txs loaded
            (UtxoSetDelta.mk produced consumed
               (UtxoSetDelta.recovered_stxi d) (UtxoSetDelta.undone_utxo d)) rest
      | Err e => Err e
      end
  end.

Definition compute_apply_delta (b : Block) (loaded : UtxoMap) : result BrokenInvariant UtxoSetDelta.t :=
  apply_txs loaded UtxoSetDelta.default_ (map_to_list (block_txs b)).

Definition compute_undo_delta (b : Block) (context : UtxoMap) : result BrokenInvariant UtxoSetDelta.t :=
  let txs := map_to_list (block_txs b) in
  let undone := foldl insert_produced ∅ txs in
  match insert_consumed context ∅ (txs ≫= fun p => consumes p.2) with
  | Ok recovered => Ok (UtxoSetDelta.mk ∅ ∅ recovered undone)
  | Err e => Err e
  end.

(** *** What the deltas are *)

(** The outputs a block produces, and the inputs it consumes. *)
Definition produced_of (b : Block) : UtxoMap := foldl insert_produced ∅ (map_to_list (block_txs b)).
Definition consumed_of (b : Block) : list TxoRef :=
  map_to_list (block_txs b) ≫= fun p => input_ref <$> consumes p.2.

(** The entries of [m] at the references [l]. *)
Definition restrict (m : UtxoMap) (l : list TxoRef) : UtxoMap := filter (fun kv => kv.1 ∈ l) m.

Lemma lookup_restrict m l r : restrict m l !! r = if bool_decide (r ∈ l) then m !! r else None.
Proof.
  unfold restrict. rewrite map_lookup_filter. destruct (m !! r); cbn;
    case_bool_decide; try done; [by rewrite option_guard_True|by rewrite option_guard_False].
Qed.

Lemma insert_consumed_Ok loaded m refs :
  (forall r, r ∈ refs -> is_Some (loaded !! input_ref r)) ->
  insert_consumed loaded m refs = Ok (restrict loaded (input_ref <$> refs) ∪ m).
Proof.
  revert m; induction refs as [|r refs IH]; intros m H; cbn.
  - f_equal. symmetry. apply map_eq. intros k. rewrite lookup_union, lookup_restrict.
    rewrite bool_decide_false by apply not_elem_of_nil. by destruct (m !! k).
  - destruct (H r) as [b Hb]; [by left|]. rewrite Hb. rewrite IH by (intros; apply H; by right).
    f_equal. apply map_eq. intros k. rewrite !lookup_union, !lookup_restrict.
    destruct (decide (k = input_ref r)) as [->|Hn].
    + rewrite Hb, lookup_insert_eq, (bool_decide_true (_ ∈ _ :: _)) by (by left).
      case_bool_decide; by destruct (m !! _).
    + rewrite lookup_insert_ne by done. f_equal. apply if_bool_decide_iff.
      rewrite elem_of_cons. naive_solver.
Qed.

Lemma insert_consumed_app loaded m a b :
  insert_consumed loaded m (a ++ b) =
  match insert_consumed loaded m a with Ok m' => insert_consumed loaded m' b | Err e => Err e end.
Proof. revert m; induction a as [|r a IH]; intros m; [done|]. cbn. by destruct (_ !! _). Qed.

Lemma insert_consumed_Err loaded m refs r :
  r ∈ refs -> loaded !! input_ref r = None -> exists e, insert_consumed loaded m refs = Err e.
Proof.
  intros Hr Hn. revert m Hr; induction refs as [|r' refs IH]; intros m Hr.
  - by apply not_elem_of_nil in Hr.
  - cbn. destruct (loaded !! input_ref r') eqn:E; [|eauto].
    apply elem_of_cons in Hr as [->|Hr]; [congruence|eauto].
Qed.

(** Applying transaction by transaction is inserting all the outputs and
    looking up all the inputs. *)
Lemma apply_txs_split loaded d l :
  apply_txs loaded d l =
  match insert_consumed loaded (UtxoSetDelta.consumed_utxo d) (l ≫= fun p => consumes p.2) with
  | Ok consumed =>
      Ok (UtxoSetDelta.mk (foldl insert_produced (UtxoSetDelta.produced_utxo d) l) consumed
            (UtxoSetDelta.recovered_stxi d) (UtxoSetDelta.undone_utxo d))
  | Err e => Err e
  end.
Proof.
  revert d; induction l as [|p l IH]; intros d; [by destruct d|].
  cbn. rewrite insert_consumed_app. destruct (insert_consumed _ _ _); [|done].
  by rewrite IH.
Qed.

Lemma consumed_of_refs b :
  consumed_of b = input_ref <$> (map_to_list (block_txs b) ≫= fun p => consumes p.2).
Proof.
  unfold consumed_of. induction (map_to_list _) as [|p l IH]; [done|].
  cbn. by rewrite IH, fmap_app.
Qed.

Lemma compute_apply_delta_Ok b loaded :
  (forall r, r ∈ consumed_of b -> is_Some (loaded !! r)) ->
  compute_apply_delta b loaded =
  Ok (UtxoSetDelta.mk (produced_of b) (restrict loaded (consumed_of b)) ∅ ∅).
Proof.
  intros H. unfold compute_apply_delta. rewrite apply_txs_split, insert_consumed_Ok.
  - cbn. rewrite (right_id_L ∅ (∪)). by rewrite consumed_of_refs.
  - intros r Hr. apply H. rewrite consumed_of_refs. by apply list_elem_of_fmap_2.
Qed.

Lemma compute_undo_delta_Ok b context :
  (forall r, r ∈ consumed_of b -> is_Some (context !! r)) ->
  compute_undo_delta b context =
  Ok (UtxoSetDelta.mk ∅ ∅ (restrict context (consumed_of b)) (produced_of b)).
Proof.
  intros H. unfold compute_undo_delta. rewrite insert_consumed_Ok.
  - cbn. rewrite (right_id_L ∅ (∪)). by rewrite consumed_of_refs.
  - intros r Hr. apply H. rewrite consumed_of_refs. by apply list_elem_of_fmap_2.
Qed.

Lemma compute_apply_delta_Err b loaded r :
  r ∈ consumed_of b -> loaded !! r = None -> exists e, compute_apply_delta b loaded = Err e.
Proof.
  rewrite consumed_of_refs. intros (r' & -> & Hr)%list_elem_of_fmap Hn.
  unfold compute_apply_delta. rewrite apply_txs_split.
  destruct (insert_consumed_Err loaded (UtxoSetDelta.consumed_utxo UtxoSetDelta.default_) _ r' Hr Hn)
    as [e ->]. eauto.
Qed.

(** *** The UTxO set along a chain of blocks *)

(** The set after a block. *)
Definition next_utxos (u : UtxoMap) (b : Block) : UtxoMap :=
  filter (fun kv => kv.1 ∉ consumed_of b) (produced_of b ∪ u).

(** Every input of every block is an output of the block or unspent before it. *)
Fixpoint inputs_available (u : UtxoMap) (bs : list Block) : Prop :=
  match bs with
  | [] => True
  | b :: rest =>
      (forall r, r ∈ consumed_of b -> is_Some (produced_of b !! r) \/ is_Some (u !! r)) /\
      inputs_available (next_utxos u b) rest
  end.

(** No reference is produced twice, nor is one of the set [u] produced again. *)
Fixpoint outputs_fresh (u : UtxoMap) (bs : list Block) : Prop :=
  match bs with
  | [] => True
  | b :: rest =>
      (forall r, is_Some (produced_of b !! r) ->
         u !! r = None /\ forall b', b' ∈ rest -> produced_of b' !! r = None) /\
      outputs_fresh u rest
  end.

Lemma lookup_next u b r :
  next_utxos u b !! r =
  if bool_decide (r ∈ consumed_of b) then None else (produced_of b ∪ u) !! r.
Proof.
  unfold next_utxos. rewrite map_lookup_filter. destruct ((produced_of b ∪ u) !! r) as [v|]; cbn.
  - case_bool_decide; [by rewrite option_guard_False by naive_solver|by rewrite option_guard_True].
  - by case_bool_decide.
Qed.

Lemma insert_produced_union m p : insert_produced m p = insert_produced ∅ p ∪ m.
Proof.
  unfold insert_produced. induction (produces p.2) as [|o l IH] using rev_ind; cbn.
  - by rewrite (left_id_L ∅ (∪)).
  - rewrite !foldl_app. cbn. rewrite IH. by rewrite insert_union_l.
Qed.

Lemma foldl_insert_produced m l :
  foldl insert_produced m l = foldl insert_produced ∅ l ∪ m.
Proof.
  induction l as [|p l IH] using rev_ind; cbn; [by rewrite (left_id_L ∅ (∪))|].
  rewrite !foldl_app. cbn. rewrite insert_produced_union, IH.
  rewrite (insert_produced_union (foldl _ _ _)). by rewrite (assoc_L (∪)).
Qed.

(** The loaded map after the dependencies of a batch: every output of the
    batch is in it, under the value its only producer gave it. *)
Lemma dependencies_loaded bs loaded : outputs_fresh ∅ bs ->
  forall r, (dependencies bs loaded).1 !! r =
    match head (omap (fun b => produced_of b !! r) bs) with
    | Some v => Some v
    | None => loaded !! r
    end.
Proof.
  revert loaded; induction bs as [|b bs IH]; intros loaded Hf r; [done|].
  destruct Hf as [Hb Hf]. cbn [dependencies]. unfold compute_block_dependencies.
  set (l1 := foldl insert_produced loaded _). destruct (dependencies bs l1) as [l2 more] eqn:E.
  cbn [fst]. specialize (IH l1 Hf r). rewrite E in IH. cbn [fst] in IH. rewrite IH.
  unfold l1. rewrite foldl_insert_produced. fold (produced_of b). rewrite lookup_union. cbn.
  destruct (produced_of b !! r) as [v|] eqn:Er; cbn.
  - destruct (Hb r) as [_ Hn]; [eauto|].
    assert (Ho : omap (fun b => produced_of b !! r) bs = []).
    { clear -Hn. induction bs as [|b' bs IH]; [done|]. cbn. rewrite Hn by (by left).
      apply IH. intros. apply Hn. by right. }
    rewrite Ho. cbn. by destruct (loaded !! r).
  - by rewrite (left_id_L None _).
Qed.

(** A consumed reference that no block produced is fetched from the store. *)
Lemma dependencies_refs bs loaded b r :
  b ∈ bs -> r ∈ consumed_of b -> (dependencies bs loaded).1 !! r = None ->
  r ∈ (dependencies bs loaded).2.
Proof.
  revert loaded; induction bs as [|b0 bs IH]; intros loaded Hb Hr Hn.
  { by apply not_elem_of_nil in Hb. }
  cbn [dependencies] in *. unfold compute_block_dependencies in *.
  set (l1 := foldl insert_produced loaded _) in *.
  specialize (IH l1). destruct (dependencies bs l1) as [l2 more] eqn:E. cbn in *.
  apply elem_of_app. apply elem_of_cons in Hb as [->|Hb]; [left|right; by apply IH].
  apply list_elem_of_filter. split; [|by apply elem_of_remove_dups].
  assert (Hmono : forall bs m r, m !! r <> None -> (dependencies bs m).1 !! r <> None).
  { clear. induction bs as [|b bs IH]; intros m r Hm; [done|]. cbn.
    unfold compute_block_dependencies. set (m1 := foldl insert_produced m _).
    specialize (IH m1 r). destruct (dependencies bs m1) as [m2 more]. apply IH. unfold m1.
    rewrite foldl_insert_produced, lookup_union. destruct (m !! r); [|done].
    by destruct (foldl insert_produced ∅ _ !! r). }
  destruct (l1 !! r) eqn:El; [|done].
  exfalso. apply (Hmono bs l1 r); [by rewrite El|]. by rewrite E.
Qed.

(** The inputs a batch resolves: its own outputs and what the store has. *)
Definition batch_inputs (u : UtxoMap) (bs : list Block) : UtxoMap :=
  restrict u (remove_dups (dependencies bs ∅).2) ∪ (dependencies bs ∅).1.

Lemma fresh_empty u bs : outputs_fresh u bs -> outputs_fresh ∅ bs.
Proof.
  induction bs as [|b bs IH]; [done|]. intros [Hb Hf]. split; [|by apply IH].
  intros r Hr. split; [apply lookup_empty|]. by apply Hb.
Qed.

Lemma fresh_not_in u bs b r :
  outputs_fresh u bs -> b ∈ bs -> is_Some (produced_of b !! r) -> u !! r = None.
Proof.
  induction bs as [|b0 bs IH]; intros Hf Hb Hr; [by apply not_elem_of_nil in Hb|].
  destruct Hf as [H0 Hf]. apply elem_of_cons in Hb as [->|Hb]; [by apply H0|by apply IH].
Qed.

(** The only producer of a reference. *)
Lemma fresh_producer u bs b r v :
  outputs_fresh u bs -> b ∈ bs -> produced_of b !! r = Some v ->
  head (omap (fun b => produced_of b !! r) bs) = Some v.
Proof.
  induction bs as [|b0 bs IH]; intros Hf Hb Hr; [by apply not_elem_of_nil in Hb|].
  destruct Hf as [H0 Hf]. cbn. apply elem_of_cons in Hb as [->|Hb]; [by rewrite Hr|].
  destruct (produced_of b0 !! r) eqn:E; [|by apply IH].
  destruct (H0 r) as [_ Hn]; [eauto|]. rewrite Hn in Hr by done. done.
Qed.

Lemma no_producer bs r :
  (forall b, b ∈ bs -> produced_of b !! r = None) ->
  head (omap (fun b => produced_of b !! r) bs) = None.
Proof.
  induction bs as [|b bs IH]; intros H; [done|]. cbn. rewrite H by (by left).
  apply IH. intros. apply H. by right.
Qed.

(** Where an unspent output comes from. *)
Lemma utxo_origin u bs r v :
  foldl next_utxos u bs !! r = Some v ->
  u !! r = Some v \/ exists b, b ∈ bs /\ produced_of b !! r = Some v.
Proof.
  induction bs as [|b bs IH] using rev_ind; [by left|]. rewrite foldl_app. cbn.
  rewrite lookup_next. case_bool_decide; [done|]. rewrite lookup_union_Some_raw.
  intros [Hp|[_ Hu]].
  - right. exists b. split; [|done]. apply elem_of_app. right. by left.
  - destruct (IH Hu) as [|(b' & Hb' & Hp)]; [by left|].
    right. exists b'. split; [|done]. apply elem_of_app. by left.
Qed.

Lemma available_at u pre b rest :
  inputs_available u (pre ++ b :: rest) ->
  forall r, r ∈ consumed_of b ->
    is_Some (produced_of b !! r) \/ is_Some (foldl next_utxos u pre !! r).
Proof.
  revert u; induction pre as [|b0 pre IH]; intros u [H0 Ha]; [exact H0|]. by apply IH.
Qed.

Lemma fresh_at u pre b rest r :
  outputs_fresh u (pre ++ b :: rest) -> is_Some (produced_of b !! r) ->
  foldl next_utxos u pre !! r = None.
Proof.
  intros Hf Hr. destruct (foldl next_utxos u pre !! r) as [v|] eqn:E; [|done].
  apply utxo_origin in E as [Hu|(b' & Hb' & Hp)].
  - rewrite (fresh_not_in u _ b r Hf) in Hu; [done| |done]. apply elem_of_app. right. by left.
  - exfalso. revert Hf Hb'. induction pre as [|b0 pre IH]; intros Hf Hb'.
    { by apply not_elem_of_nil in Hb'. }
    destruct Hf as [H0 Hf]. apply elem_of_cons in Hb' as [->|Hb']; [|by apply IH].
    destruct (H0 r) as [_ Hn]; [eauto|]. rewrite Hn in Hr; [by destruct Hr|].
    apply elem_of_app. right. by left.
Qed.

(** Every input of a block of the batch resolves to what it spends. *)
Lemma inputs_resolve u pre b rest r :
  let bs := pre ++ b :: rest in
  outputs_fresh u bs -> inputs_available u bs -> r ∈ consumed_of b ->
  exists v, batch_inputs u bs !! r = Some v /\
    (produced_of b !! r = Some v \/
     produced_of b !! r = None /\ foldl next_utxos u pre !! r = Some v).
Proof.
  intros bs Hf Ha Hr. pose proof (dependencies_loaded bs ∅ (fresh_empty _ _ Hf) r) as Hl.
  assert (Hb : b ∈ bs) by (apply elem_of_app; right; by left).
  assert (Hprod : forall b' v, b' ∈ bs -> produced_of b' !! r = Some v ->
            batch_inputs u bs !! r = Some v).
  { intros b' v Hb' Hp. unfold batch_inputs. rewrite lookup_union, lookup_restrict, Hl.
    rewrite (fresh_producer u bs b' r v Hf Hb' Hp), (fresh_not_in u bs b' r Hf Hb') by eauto.
    by case_bool_decide. }
  destruct (produced_of b !! r) as [v|] eqn:Ep.
  - exists v. split; [|by left]. by apply (Hprod b).
  - destruct (available_at u pre b rest Ha r Hr) as [Hs|[v Hv]]; [rewrite Ep in Hs; by destruct Hs|].
    exists v. split; [|by right]. destruct (utxo_origin u pre r v Hv) as [Hu|(b' & Hb' & Hp)].
    + assert (Hn : (dependencies bs ∅).1 !! r = None).
      { rewrite Hl, no_producer; [apply lookup_empty|]. intros b' Hb'.
        destruct (produced_of b' !! r) eqn:E'; [|done].
        rewrite (fresh_not_in u bs b' r Hf Hb') in Hu by eauto. done. }
      unfold batch_inputs. rewrite lookup_union, lookup_restrict, Hn.
      rewrite bool_decide_true, Hu; [done|].
      apply elem_of_remove_dups. by apply (dependencies_refs bs ∅ b).
    + apply (Hprod b'); [|done]. apply elem_of_app. by left.
Qed.

(** ** Continuity (consensus.rs) *)

Inductive ConsensusError :=
| BrokenContinuity (slot : BlockSlot) (expected got : Hash32)
| SlotNotIncreasing (slot tip_slot : BlockSlot).

Definition check_continuity (slot : BlockSlot) (prev_hash : option Hash32) (tip : ChainPoint.t) :
    result ConsensusError unit :=
  match prev_hash, ChainPoint.hash tip with
  | Some prev, Some tip_hash =>
      if bool_decide (prev = tip_hash) then Ok tt else Err (BrokenContinuity slot tip_hash prev)
  | _, _ => Ok tt
  end.

Definition check_slot_increase (slot : BlockSlot) (tip : ChainPoint.t) : result ConsensusError unit :=
  match tip with
  | ChainPoint.Origin => Ok tt
  | _ =>
      if ChainPoint.slot tip <=? slot then Ok tt
      else Err (SlotNotIncreasing slot (ChainPoint.slot tip))
  end.

Definition check_extension (tip : ChainPoint.t) (slot : BlockSlot) (prev_hash : option Hash32) :
    result ConsensusError unit :=
  match check_continuity slot prev_hash tip with
  | Ok _ => check_slot_increase slot tip
  | Err e => Err e
  end.

Module ChainFragment.

Record t := mk { tip : ChainPoint.t; pending : list ChainPoint.t }.

Inductive RollbackResult := Handled | OutOfScope (p : ChainPoint.t).

Definition start (p : ChainPoint.t) : t := mk p [].

Definition roll_forward (c : t) (p : ChainPoint.t) (prev_hash : option Hash32) :
    t * result ConsensusError ChainPoint.t :=
  match check_extension (tip c) (ChainPoint.slot p) prev_hash with
  | Ok _ => (mk p (pending c ++ [p]), Ok p)
  | Err e => (c, Err e)
  end.

(** [iter().position(|p| p == point)]. *)
Fixpoint position (l : list ChainPoint.t) (p : ChainPoint.t) : option nat :=
  match l with
  | [] => None
  | x :: l' => if ChainPoint.eq x p then Some 0%nat else S <$> position l' p
  end.

Definition roll_back (c : t) (p : ChainPoint.t) : t * RollbackResult :=
  match position (pending c) p with
  | Some pos => (mk p (take (pos + 1) (pending c)), Handled)
  | None => (mk p [], OutOfScope p)
  end.

Definition take_pending (c : t) : t * list ChainPoint.t := (mk (tip c) [], pending c).

End ChainFragment.

(** ** Errors of the chain logic (core/src/lib.rs)

    The variants the modelled code returns. *)
Inductive ChainError :=
| BrokenInv (e : BrokenInvariant)
| DecodingError
| CantReceiveBlock (raw : bytes)
| Consensus (e : ConsensusError)
| ChainState (e : StateError)
| ChainIndex (e : IndexError)
| GenesisFieldMissing (name : string)
| PParamsNotFound (name : string)
| NoActiveEpoch
| MissingGovState
| InvalidPoolParams
| InvalidProposalParams
| AddressDecoding
| PoolSnapshotLagging (pool : string) (pool_epoch : option Z) (current_epoch : Z).
