(* ===== verification/Metadata.v ===== *)
(** * Token metadata (cardano/src/cip25.rs, cardano/src/cip68.rs)

    The metadata standards the asset visitor and the query services apply: the
    CIP-25 metadata of a transaction and its validation, the CIP-67 labels of
    asset names and the conversion of CIP-68 datums to JSON.

    A Rust string is its bytes, as a [string] of characters below 256. *)

From stdpp Require Import pretty.
From Stdlib Require Import Ascii String.
From S2P Require Import Prelude Lists Types Hacks Indexes.
#[local] Set Warnings "-register-all".
Open Scope Z_scope.

(** ** What [pallas] and [serde_json] give *)

Inductive Metadatum :=
| MInt (x : Z)
| MBytes (b : bytes)
| MText (s : string)
| MArray (l : list Metadatum)
| MMap (l : list (Metadatum * Metadatum)).

Inductive BigInt := BigIntInt (x : Z) | BigUInt (b : bytes) | BigNInt (b : bytes).

Inductive PlutusData :=
| PConstr (tag : Z) (fields : list PlutusData)
| PMap (l : list (PlutusData * PlutusData))
| PBigInt (x : BigInt)
| PBoundedBytes (b : bytes)
| PArray (l : list PlutusData).

Inductive JsonValue :=
| JNull
| JBool (b : bool)
| JNumber (x : Z)
| JString (s : string)
| JArray (l : list JsonValue)
| JObject (m : gmap string JsonValue).

(** The checksum of the [crc] crate (CRC-8/SMBUS) and the CBOR encoding of
    plutus data; encoding into a vector does not fail. *)
Class MetadataCodecs := {
  crc8_smbus : bytes -> Z;
  cbor_plutus : PlutusData -> bytes;
}.

(** ** Strings *)

(** [as_bytes] is [str_bytes]; its inverse on bytes. *)
Definition from_bytes_unchecked (b : bytes) : string :=
  string_of_list_ascii ((fun x => ascii_of_nat (Z.to_nat x)) <$> b).

(** A continuation byte [0b10xxxxxx]. *)
Definition is_cont (x : Z) : bool := (128 <=? x) && (x <=? 191).

(** The well-formed sequences of [str::from_utf8], with fuel the length. *)
Fixpoint utf8_valid (fuel : nat) (b : bytes) : bool :=
  match fuel with
  | O => match b with [] => true | _ => false end
  | S fuel =>
      match b with
      | [] => true
      | x :: rest =>
          if x <=? 127 then utf8_valid fuel rest
          else if (194 <=? x) && (x <=? 223) then
            match rest with y :: rest => is_cont y && utf8_valid fuel rest | _ => false end
          else if (224 <=? x) && (x <=? 239) then
            match rest with
            | y :: z :: rest =>
                is_cont y && is_cont z &&
                (if x =? 224 then 160 <=? y else if x =? 237 then y <=? 159 else true) &&
                utf8_valid fuel rest
            | _ => false
            end
          else if (240 <=? x) && (x <=? 244) then
            match rest with
            | y :: z :: w :: rest =>
                is_cont y && is_cont z && is_cont w &&
                (if x =? 240 then 144 <=? y else if x =? 244 then y <=? 143 else true) &&
                utf8_valid fuel rest
            | _ => false
            end
          else false
      end
  end.

Definition from_utf8 (b : bytes) : option string :=
  if utf8_valid (length b) b then Some (from_bytes_unchecked b) else None.

Definition ascii_lower (c : ascii) : ascii :=
  let n := nat_of_ascii c in
  if ((65 <=? n) && (n <=? 90))%nat then ascii_of_nat (n + 32) else c.

Fixpoint eq_ignore_ascii_case (a b : string) : bool :=
  match a, b with
  | EmptyString, EmptyString => true
  | String x a, String y b => Ascii.eqb (ascii_lower x) (ascii_lower y) && eq_ignore_ascii_case a b
  | _, _ => false
  end.

(** [is_char_boundary]: an end of the string or the start of a character. *)
Definition is_char_boundary (s : string) (i : nat) : bool :=
  if (i =? 0)%nat || (i =? String.length s)%nat then true
  else match String.get i s with
       | Some c => negb (is_cont (Z.of_nat (nat_of_ascii c)))
       | None => false
       end.

(** [&s[a..b]]: panics outside the string or inside a character. *)
Definition str_slice (s : string) (a b : nat) : run string :=
  if (a <=? b)%nat && (b <=? String.length s)%nat && is_char_boundary s a && is_char_boundary s b
  then Ret (String.substring a (b - a) s) else Panic.

(** [format!("{:0nx}", x)] for a number of at most [n] digits. *)
Fixpoint hex_digits (n : nat) (x : Z) : string :=
  match n with
  | O => EmptyString
  | S n => String.append (hex_digits n (x / 16)) (String (hex_digit (x mod 16)) EmptyString)
  end.

(** [u32::from_str_radix(s, 16)] on a string of at most eight digits without
    a sign. *)
Fixpoint from_str_radix16 (acc : Z) (s : string) : option Z :=
  match s with
  | EmptyString => Some acc
  | String c s => match hex_value c with Some d => from_str_radix16 (acc * 16 + d) s | None => None end
  end.

(** ** CIP-25 *)

Definition CIP25_REQUIRED_KEYS : list string := ["name"; "image"]%string.
Definition CIP25_STRING_KEYS : list string := ["name"; "mediaType"]%string.
Definition CIP25_STRING_OR_STRING_ARRAY_KEYS : list string := ["image"; "description"]%string.
Definition CIP25_FILES_REQUIRED_KEYS : list string := ["name"; "mediaType"; "src"]%string.
Definition CIP25_FILES_STRING_KEYS : list string := ["name"; "mediaType"]%string.
Definition CIP25_FILES_STRING_OR_STRING_ARRAY_KEYS : list string := ["src"]%string.
Definition CIP25_METADATA_LABEL : Z := 721.

Inductive Cip25MetadataVersion := V1 | V2.

Definition cip25_key_in_list (l : list string) (key : string) : bool := bool_decide (key ∈ l).

Definition cip25_required_keys_present (metadata : gmap string JsonValue) : bool :=
  forallb (fun key => bool_decide (is_Some (metadata !! key))) CIP25_REQUIRED_KEYS.

Definition cip25_is_string (value : JsonValue) : bool := match value with JString _ => true | _ => false end.

Definition cip25_is_string_array (value : JsonValue) : bool :=
  match value with
  | JArray items => forallb (fun item => match item with JString _ => true | _ => false end) items
  | _ => false
  end.

Definition cip25_is_string_or_string_array (value : JsonValue) (allow_array : bool) : bool :=
  cip25_is_string value || (allow_array && cip25_is_string_array value).

(** One field of a file. *)
Definition cip25_file_field (allow_array : bool) (kv : string * JsonValue) : bool :=
  let (key, value) := kv in
  if cip25_key_in_list CIP25_FILES_STRING_KEYS key then cip25_is_string value
  else if cip25_key_in_list CIP25_FILES_STRING_OR_STRING_ARRAY_KEYS key
  then cip25_is_string_or_string_array value allow_array
  else true.

(** One item of [files]. *)
Definition cip25_file_is_valid (allow_array : bool) (item : JsonValue) : bool :=
  match item with
  | JObject map =>
      forallb (fun key => bool_decide (is_Some (map !! key))) CIP25_FILES_REQUIRED_KEYS &&
      forallb (cip25_file_field allow_array) (map_to_list map)
  | _ => false
  end.

Definition cip25_files_are_valid (value : JsonValue) (allow_array : bool) : bool :=
  match value with
  | JArray items => forallb (cip25_file_is_valid allow_array) items
  | _ => false
  end.

(** One field of the metadata. *)
Definition cip25_field (allow_string_array : bool) (kv : string * JsonValue) : bool :=
  let (key, value) := kv in
  if cip25_key_in_list CIP25_STRING_KEYS key then cip25_is_string value
  else if cip25_key_in_list CIP25_STRING_OR_STRING_ARRAY_KEYS key
  then cip25_is_string_or_string_array value allow_string_array
  else if bool_decide (key = "files"%string) then cip25_files_are_valid value allow_string_array
  else true.

Definition cip25_metadata_is_valid (metadata : gmap string JsonValue) (version : Cip25MetadataVersion) : bool :=
  if negb (cip25_required_keys_present metadata) then false
  else
    let allow_string_array := match version with V2 => true | V1 => false end in
    forallb (cip25_field allow_string_array) (map_to_list metadata).

(** [tx.metadata().find(label)] over the labelled metadata of a transaction. *)
Definition find_metadata (metadata : list (Z * Metadatum)) (label : Z) : option Metadatum :=
  snd <$> List.find (fun kv => fst kv =? label) metadata.

Definition cip25_metadata_for_tx (metadata : list (Z * Metadatum)) : option Metadatum :=
  find_metadata metadata CIP25_METADATA_LABEL.

Definition has_cip25_metadata (metadata : list (Z * Metadatum)) : bool :=
  match find_metadata metadata CIP25_METADATA_LABEL with Some _ => true | None => false end.

Definition key_matches_policy (key : Metadatum) (policy_bytes : bytes) (policy_hex : string) : bool :=
  match key with
  | MBytes b => bool_decide (b = policy_bytes)
  | MText text => eq_ignore_ascii_case text policy_hex
  | _ => false
  end.

Definition key_matches_asset (key : Metadatum) (asset_bytes : bytes) (asset_utf8 : option string)
    (asset_hex : string) : bool :=
  match key with
  | MBytes b => bool_decide (b = asset_bytes)
  | MText text =>
      match asset_utf8 with Some u => bool_decide (text = u) | None => false end ||
      eq_ignore_ascii_case text asset_hex
  | _ => false
  end.

Definition cip25_metadata_has_asset (metadata : Metadatum) (policy asset_name : bytes) : bool :=
  match metadata with
  | MMap policies =>
      let policy_hex := hex_encode policy in
      let asset_hex := hex_encode asset_name in
      let asset_utf8 := from_utf8 asset_name in
      match List.find (fun kv => key_matches_policy (fst kv) policy policy_hex) policies with
      | Some (_, MMap assets) =>
          existsb (fun kv => key_matches_asset (fst kv) asset_name asset_utf8 asset_hex) assets
      | _ => false
      end
  | _ => false
  end.

(** ** CIP-67 labels *)

Inductive CIP68Label := ReferenceNft | LabelNft | LabelFt | LabelRft.

Definition label_from_u32 (value : Z) : option CIP68Label :=
  if value =? 100 then Some ReferenceNft
  else if value =? 222 then Some LabelNft
  else if value =? 333 then Some LabelFt
  else if value =? 444 then Some LabelRft
  else None.

Definition label_to_u32 (l : CIP68Label) : Z :=
  match l with ReferenceNft => 100 | LabelNft => 222 | LabelFt => 333 | LabelRft => 444 end.

Inductive Cip68TokenStandard := Nft | Ft | Rft.

Definition standard_from_label (l : CIP68Label) : option Cip68TokenStandard :=
  match l with
  | LabelNft => Some Nft
  | LabelFt => Some Ft
  | LabelRft => Some Rft
  | ReferenceNft => None
  end.

Section labels.
Context `{Pallas, MetadataCodecs}.

Definition to_label (l : CIP68Label) : run string :=
  let number_hex := hex_digits 4 (label_to_u32 l) in
  bytes ← expect (hex_decode number_hex);
  let checksum := hex_digits 2 (crc8_smbus bytes) in
  Ret (String.append "0" (String.append number_hex (String.append checksum "0"))).

Definition starts_ends_with_zero (s : string) : bool :=
  match String.get 0 s, String.get (String.length s - 1) s with
  | Some a, Some b => Ascii.eqb a "0" && Ascii.eqb b "0"
  | _, _ => false
  end.

Definition parse_cip67_label_hex (label_hex : string) : run (option Z) :=
  if negb (String.length label_hex =? 8)%nat || negb (starts_ends_with_zero label_hex) then Ret None
  else
    number_hex ← str_slice label_hex 1 5;
    checksum_hex ← str_slice label_hex 5 7;
    match hex_decode number_hex with
    | None => Ret None
    | Some bytes =>
        let checksum := hex_digits 2 (crc8_smbus bytes) in
        if negb (eq_ignore_ascii_case checksum_hex checksum) then Ret None
        else Ret (from_str_radix16 0 number_hex)
    end.

Definition parse_cip67_label_from_asset_name (asset_name : bytes) : run (option Z) :=
  if (length asset_name <? 4)%nat then Ret None
  else parse_cip67_label_hex (hex_encode (take 4 asset_name)).

Definition cip_68_reference_asset (policy_id asset_name : string) :
    run (option (string * Cip68TokenStandard)) :=
  if (String.length asset_name <? 8)%nat then Ret None
  else
    label ← str_slice asset_name 0 8;
    number ← parse_cip67_label_hex label;
    match number with
    | None => Ret None
    | Some number =>
        asset_name_without_label_prefix ← str_slice asset_name 8 (String.length asset_name);
        match label_from_u32 number with
        | None => Ret None
        | Some label =>
            match standard_from_label label with
            | None => Ret None
            | Some standard =>
                reference_label ← to_label ReferenceNft;
                Ret (Some (String.append policy_id (String.append reference_label asset_name_without_label_prefix),
                           standard))
            end
        end
    end.

(** ** CIP-68 datums *)

Inductive PropertyKind := KBytestring | KNumber | KArray.

Inductive PropertyScheme := Scheme (kind : PropertyKind) (items : option (list (string * PropertyScheme))).

Definition bytestring_scheme : PropertyScheme := Scheme KBytestring None.
Definition number_scheme : PropertyScheme := Scheme KNumber None.
Definition array_scheme (items : list (string * PropertyScheme)) : PropertyScheme := Scheme KArray (Some items).

Definition FILES_ITEM_SCHEMA : list (string * PropertyScheme) :=
  [("name", bytestring_scheme); ("mediaType", bytestring_scheme); ("src", bytestring_scheme)]%string.

Definition map_schema_lookup (schema : list (string * PropertyScheme)) (key : string) : option PropertyScheme :=
  snd <$> List.find (fun kv => bool_decide (fst kv = key)) schema.

(** The arms of the match, as the table of each standard. *)
Definition standard_schema (standard : Cip68TokenStandard) : list (string * PropertyScheme) :=
  match standard with
  | Ft => [("name", bytestring_scheme); ("description", bytestring_scheme); ("ticker", bytestring_scheme);
           ("url", bytestring_scheme); ("logo", bytestring_scheme); ("decimals", number_scheme)]
  | Nft => [("name", bytestring_scheme); ("image", bytestring_scheme); ("mediaType", bytestring_scheme);
            ("description", bytestring_scheme); ("files", array_scheme FILES_ITEM_SCHEMA)]
  | Rft => [("name", bytestring_scheme); ("image", bytestring_scheme); ("mediaType", bytestring_scheme);
            ("description", bytestring_scheme); ("decimals", number_scheme);
            ("files", array_scheme FILES_ITEM_SCHEMA)]
  end%string.

Definition property_scheme_for_key (standard : Cip68TokenStandard) (key : string) : option PropertyScheme :=
  map_schema_lookup (standard_schema standard) key.

Definition encode_to_hex (value : PlutusData) : string := hex_encode (cbor_plutus value).

Definition to_utf8_or_hex (b : bytes) : string :=
  match from_utf8 b with Some s => s | None => hex_encode b end.

(** The chunks of an array of byte strings. *)
Fixpoint bytes_chunks (items : list PlutusData) : option bytes :=
  match items with
  | [] => Some []
  | PBoundedBytes b :: rest => match bytes_chunks rest with Some r => Some (b ++ r) | None => None end
  | _ => None
  end.

Definition convert_bytestring_value (value : PlutusData) : option JsonValue :=
  match value with
  | PBoundedBytes b => Some (JString (to_utf8_or_hex b))
  | PArray items => match bytes_chunks items with Some b => Some (JString (to_utf8_or_hex b)) | None => None end
  | _ => None
  end.

Definition convert_number_value (value : PlutusData) : option JsonValue :=
  match value with
  | PBigInt (BigIntInt x) => if (- 2 ^ 63 <=? x) && (x <? 2 ^ 63) then Some (JNumber x) else None
  | _ => None
  end.

(** The keys of an item: byte strings and integers. *)
Definition item_key (key : PlutusData) : option string :=
  match key with
  | PBoundedBytes b => Some (to_utf8_or_hex b)
  | PBigInt (BigIntInt x) => Some (pretty x)
  | _ => None
  end.

(** [convert_map_value], with the conversion of the values it calls back. *)
Definition convert_map_value (convert : PlutusData -> PropertyScheme -> option JsonValue)
    (schema : list (string * PropertyScheme)) : PlutusData -> option JsonValue :=
  let fix go (l : list (PlutusData * PlutusData)) (object : gmap string JsonValue) : option JsonValue :=
    match l with
    | [] => Some (JObject object)
    | (key, value) :: rest =>
        match item_key key with
        | None => None
        | Some key_str =>
            match map_schema_lookup schema key_str with
            | None => None
            | Some value_schema =>
                match convert value value_schema with
                | None => None
                | Some converted => go rest (<[key_str := converted]> object)
                end
            end
        end
    end in
  fun value => match value with PMap l => go l ∅ | _ => None end.

(** The items of an array, until one does not convert. *)
Definition convert_items (convert : PlutusData -> option JsonValue) : list PlutusData -> option (list JsonValue) :=
  fix go items :=
    match items with
    | [] => Some []
    | item :: rest =>
        match convert item with
        | None => None
        | Some value => match go rest with None => None | Some converted => Some (value :: converted) end
        end
    end.

Fixpoint convert_datum_value (value : PlutusData) (schema : PropertyScheme) {struct value} : option JsonValue :=
  let (kind, items) := schema in
  match kind with
  | KBytestring => convert_bytestring_value value
  | KNumber => convert_number_value value
  | KArray =>
      match value, items with
      | PArray l, Some items_schema =>
          match convert_items (convert_map_value convert_datum_value items_schema) l with
          | Some converted => Some (JArray converted)
          | None => None
          end
      | _, _ => None
      end
  end.

Definition convert_metadata_key (key : PlutusData) : string :=
  match key with
  | PBoundedBytes b => to_utf8_or_hex b
  | PBigInt (BigIntInt x) => pretty x
  | PBigInt (BigUInt b) => hex_encode b
  | PBigInt (BigNInt b) => hex_encode b
  | _ => encode_to_hex key
  end.

Definition parse_cip68_metadata_map (map : list (PlutusData * PlutusData)) (standard : Cip68TokenStandard) :
    gmap string JsonValue :=
  foldl (fun metadata kv =>
    let key_str := convert_metadata_key (fst kv) in
    match property_scheme_for_key standard key_str with
    | Some schema =>
        <[key_str := default (JString (encode_to_hex (snd kv))) (convert_datum_value (snd kv) schema)]> metadata
    | None => <[key_str := JString (encode_to_hex (snd kv))]> metadata
    end) ∅ map.

End labels.

(** ** Labels *)

Lemma eq_ignore_ascii_case_refl s : eq_ignore_ascii_case s s = true.
Proof. induction s as [|c s IH]; [done|]. cbn. by rewrite Ascii.eqb_refl, IH. Qed.

(** A hexadecimal digit is a character of its own. *)
Lemma hex_digit_boundary n : 0 ≤ n < 16 -> is_cont (Z.of_nat (nat_of_ascii (hex_digit n))) = false.
Proof.
  intros Hn. unfold hex_digit. rewrite nat_ascii_embedding by (destruct (n <? 10); lia).
  unfold is_cont. destruct (Z.ltb_spec n 10); apply andb_false_iff; left; apply Z.leb_gt; lia.
Qed.

Lemma hex_digits_2 x :
  hex_digits 2 x = String (hex_digit (x / 16 mod 16)) (String (hex_digit (x mod 16)) EmptyString).
Proof. reflexivity. Qed.

Lemma hex_digits_4 x :
  hex_digits 4 x =
  String (hex_digit (x / 16 / 16 / 16 mod 16)) (String (hex_digit (x / 16 / 16 mod 16))
    (String (hex_digit (x / 16 mod 16)) (String (hex_digit (x mod 16)) EmptyString))).
Proof. reflexivity. Qed.

Section label_laws.
Context `{Pallas, MetadataCodecs}.

(** Slicing a string of eight characters between the characters of its number
    and checksum does not panic. *)
Lemma label_slices a b c d e f g h :
  Forall (fun x => is_cont (Z.of_nat (nat_of_ascii x)) = false) [a; b; c; d; e; f; g; h] ->
  let s := String a (String b (String c (String d (String e (String f (String g (String h EmptyString))))))) in
  str_slice s 1 5 = Ret (String b (String c (String d (String e EmptyString)))) /\
  str_slice s 5 7 = Ret (String f (String g EmptyString)).
Proof.
  intros Hc s. rewrite !Forall_cons in Hc. destruct Hc as (Ha & Hb & Hcc & Hd & He & Hf & Hg & Hh & _).
  unfold str_slice, s. split.
  - unfold is_char_boundary. cbn -[is_cont]. by rewrite Hb, Hf.
  - unfold is_char_boundary. cbn -[is_cont]. by rewrite Hf, Hh.
Qed.

(** Four digits between the zeroes, with their checksum. *)
Lemma parse_label n b : hex_decode (hex_digits 4 n) = Some b ->
  parse_cip67_label_hex
    (String.append "0" (String.append (hex_digits 4 n) (String.append (hex_digits 2 (crc8_smbus b)) "0"))) =
  Ret (from_str_radix16 0 (hex_digits 4 n)).
Proof.
  intros Hb. assert (Hd : forall x, is_cont (Z.of_nat (nat_of_ascii (hex_digit (x mod 16)))) = false)
    by (intros x; apply hex_digit_boundary, Z.mod_pos_bound; lia).
  unfold parse_cip67_label_hex. rewrite hex_digits_2, hex_digits_4 in *. lazy beta iota delta [String.append].
  edestruct label_slices as [-> ->];
    [repeat apply Forall_cons_2; first [apply Hd|reflexivity|apply Forall_nil_2]|].
  cbn -[hex_digit eq_ignore_ascii_case from_str_radix16 hex_digits].
  rewrite Hb, <- hex_digits_2. by rewrite eq_ignore_ascii_case_refl.
Qed.

(** A printed label parses to its number. *)
Lemma label_roundtrip l s : to_label l = Ret s -> parse_cip67_label_hex s = Ret (Some (label_to_u32 l)).
Proof.
  unfold to_label. destruct (hex_decode (hex_digits 4 (label_to_u32 l))) as [b|] eqn:Eb; [|done].
  intros <-%Ret_inj. rewrite (parse_label _ _ Eb). by destruct l.
Qed.

(** Asset names never panic. *)
Lemma label_of_name_total name : bytes_ok name -> exists l, parse_cip67_label_from_asset_name name = Ret l.
Proof.
  unfold parse_cip67_label_from_asset_name. intros Hn.
  destruct name as [|a [|b [|c [|d rest]]]]; cbn [length Nat.ltb Nat.leb]; eauto.
  cbn [take hex_encode]. do 4 (apply Forall_cons in Hn as [? Hn]). unfold is_u in *.
  unfold parse_cip67_label_hex. destruct (_ || _); [eauto|].
  change (take 0 rest) with (@nil Z). cbn [hex_encode]. edestruct label_slices as [-> ->];
    [repeat apply Forall_cons_2; try apply hex_digit_boundary; [..|apply Forall_nil_2];
     first [apply Z.mod_pos_bound; lia|split; [apply Z.div_pos; lia|apply Z.div_lt_upper_bound; lia]]|].
  cbn -[hex_digit eq_ignore_ascii_case from_str_radix16 hex_digits]. destruct (hex_decode _); [|eauto].
  destruct (eq_ignore_ascii_case _ _); eauto.
Qed.

End label_laws.
