(* ===== verification/PallasExtras.v ===== *)
(** * Addresses and certificates across the eras (cardano/src/pallas_extras.rs)

    The addresses and certificates of [pallas] as the code matches on them, the
    credentials behind addresses, and the views of a certificate that hide
    its era. *)

From S2P Require Import Prelude Types Hacks Pools.
Open Scope Z_scope.

(** ** Addresses *)

Inductive Network := Testnet | Mainnet | OtherNetwork (id : Z).

Inductive StakePayload := PayloadStake (h : Hash28) | PayloadScript (h : Hash28).

Record StakeAddress := { stake_network : Network; stake_payload : StakePayload }.

Inductive ShelleyPaymentPart := PaymentKey (h : Hash28) | PaymentScript (h : Hash28).

Inductive ShelleyDelegationPart :=
| DelegationKey (h : Hash28)
| DelegationScript (h : Hash28)
| DelegationPointer (slot tx_idx cert_idx : Z)
| DelegationNull.

Record ShelleyAddress := {
  shelley_network : Network;
  shelley_payment : ShelleyPaymentPart;
  shelley_delegation : ShelleyDelegationPart;
}.

Inductive Address :=
| AddressByron (payload : bytes)
| AddressShelley (a : ShelleyAddress)
| AddressStake (a : StakeAddress).

#[export] Instance Network_eq_dec : EqDecision Network.
Proof. solve_decision. Defined.
#[export] Instance StakePayload_eq_dec : EqDecision StakePayload.
Proof. solve_decision. Defined.
#[export] Instance StakeAddress_eq_dec : EqDecision StakeAddress.
Proof. solve_decision. Defined.

(** The encodings of [pallas]: parsing of raw and of textual addresses, and the
    bytes of an address and of its payment part. *)
Class Addresses := {
  address_from_bytes : bytes -> option Address;
  address_from_str : string -> option Address;
  byron_to_vec : bytes -> bytes;
  shelley_to_vec : ShelleyAddress -> bytes;
  payment_to_vec : ShelleyPaymentPart -> bytes;
  stake_to_vec : StakeAddress -> bytes;
}.

Definition stake_credential_to_address (network : Network) (credential : StakeCredential) : StakeAddress :=
  match credential with
  | ScriptHash x => {| stake_network := network; stake_payload := PayloadScript x |}
  | AddrKeyhash x => {| stake_network := network; stake_payload := PayloadStake x |}
  end.

Definition stake_address_to_cred (address : StakeAddress) : StakeCredential :=
  match stake_payload address with
  | PayloadStake x => AddrKeyhash x
  | PayloadScript x => ScriptHash x
  end.

Definition shelley_address_to_stake_cred (address : ShelleyAddress) : run (option (StakeCredential * bool)) :=
  match shelley_delegation address with
  | DelegationKey x => Ret (Some (AddrKeyhash x, false))
  | DelegationScript x => Ret (Some (ScriptHash x, false))
  | DelegationPointer slot tx_idx cert_idx =>
      c ← pointer_to_cred slot tx_idx cert_idx; Ret (option_map (fun x => (x, true)) c)
  | DelegationNull => Ret None
  end.

Definition shelley_address_to_stake_address (address : ShelleyAddress) : option StakeAddress :=
  match shelley_delegation address with
  | DelegationKey x => Some {| stake_network := shelley_network address; stake_payload := PayloadStake x |}
  | DelegationScript x => Some {| stake_network := shelley_network address; stake_payload := PayloadScript x |}
  | _ => None
  end.

Definition address_as_stake_cred (address : Address) : run (option (StakeCredential * bool)) :=
  match address with
  | AddressShelley x => shelley_address_to_stake_cred x
  | AddressStake x => Ret (Some (stake_address_to_cred x, false))
  | _ => Ret None
  end.

Definition parse_reward_account `{Addresses} (reward_account : bytes) : run (option StakeCredential) :=
  match address_from_bytes reward_account with
  | None => Ret None
  | Some pool_address =>
      x ← address_as_stake_cred pool_address;
      Ret (option_map fst x)
  end.

Definition keyhash_to_stake_cred (keyhash : Hash28) : StakeCredential := AddrKeyhash keyhash.

Definition stake_cred_to_drep (cred : StakeCredential) : DRep :=
  match cred with
  | AddrKeyhash key => DRepKey key
  | ScriptHash key => DRepScript key
  end.

(** [first & 0b00001111 == 0b00000011] of the first byte; an empty identifier
    panics. *)
Definition drep_id_is_script (drep_id : bytes) : run bool :=
  first ← expect (head drep_id);
  Ret (Z.land first 15 =? 3).

Definition cred_matches_hash (cred : StakeCredential) (hash : string) : run bool :=
  hash ← expect (parse_hash 28 hash);
  Ret match cred with
      | AddrKeyhash x => bool_decide (x = hash)
      | ScriptHash x => bool_decide (x = hash)
      end.

(** ** Certificates *)

Inductive InstantaneousRewardSource := MirReserves | MirTreasury.

Inductive InstantaneousRewardTarget :=
| StakeCredentials (targets : list (StakeCredential * Z))
| OtherAccountingPot (amount : Z).

Record MoveInstantaneousReward := {
  mir_source : InstantaneousRewardSource;
  mir_target : InstantaneousRewardTarget;
}.

Inductive AlonzoCert :=
| AlonzoStakeRegistration (c : StakeCredential)
| AlonzoStakeDeregistration (c : StakeCredential)
| AlonzoStakeDelegation (c : StakeCredential) (pool : PoolHash)
| AlonzoPoolRegistration (r : MultiEraPoolRegistration.t)
| AlonzoPoolRetirement (pool : PoolHash) (epoch : Epoch)
| AlonzoGenesisKeyDelegation (genesis delegate vrf : bytes)
| AlonzoMoveInstantaneousRewards (mir : MoveInstantaneousReward).

Inductive ConwayCert :=
| ConwayStakeRegistration (c : StakeCredential)
| ConwayStakeDeregistration (c : StakeCredential)
| ConwayStakeDelegation (c : StakeCredential) (pool : PoolHash)
| ConwayPoolRegistration (r : MultiEraPoolRegistration.t)
| ConwayPoolRetirement (pool : PoolHash) (epoch : Epoch)
| ConwayReg (c : StakeCredential) (deposit : Z)
| ConwayUnReg (c : StakeCredential) (refund : Z)
| ConwayVoteDeleg (c : StakeCredential) (drep : DRep)
| ConwayStakeVoteDeleg (c : StakeCredential) (pool : PoolHash) (drep : DRep)
| ConwayStakeRegDeleg (c : StakeCredential) (pool : PoolHash) (deposit : Z)
| ConwayVoteRegDeleg (c : StakeCredential) (drep : DRep) (deposit : Z)
| ConwayStakeVoteRegDeleg (c : StakeCredential) (pool : PoolHash) (drep : DRep) (deposit : Z)
| ConwayAuthCommitteeHot (cold hot : StakeCredential)
| ConwayResignCommitteeCold (cold : StakeCredential) (anchor : option Anchor)
| ConwayRegDRepCert (c : StakeCredential) (deposit : Z) (anchor : option Anchor)
| ConwayUnRegDRepCert (c : StakeCredential) (refund : Z)
| ConwayUpdateDRepCert (c : StakeCredential) (anchor : option Anchor).

Inductive MultiEraCert :=
| NotApplicable
| AlonzoCompatible (c : AlonzoCert)
| ConwayEra (c : ConwayCert).

Definition cert_as_pool_registration (cert : MultiEraCert) : option MultiEraPoolRegistration.t :=
  match cert with
  | AlonzoCompatible (AlonzoPoolRegistration r) => Some r
  | ConwayEra (ConwayPoolRegistration r) => Some r
  | _ => None
  end.

Record MultiEraPoolRetirement := { retire_operator : PoolHash; retire_epoch : Epoch }.

Definition cert_as_pool_retirement (cert : MultiEraCert) : option MultiEraPoolRetirement :=
  match cert with
  | AlonzoCompatible (AlonzoPoolRetirement operator epoch) =>
      Some {| retire_operator := operator; retire_epoch := epoch |}
  | ConwayEra (ConwayPoolRetirement operator epoch) =>
      Some {| retire_operator := operator; retire_epoch := epoch |}
  | _ => None
  end.

Record MultiEraVoteDelegation := { vote_delegator : StakeCredential; vote_drep : DRep }.

Definition cert_as_vote_delegation (cert : MultiEraCert) : option MultiEraVoteDelegation :=
  match cert with
  | ConwayEra (ConwayVoteDeleg delegator drep)
  | ConwayEra (ConwayVoteRegDeleg delegator drep _)
  | ConwayEra (ConwayStakeVoteRegDeleg delegator _ drep _)
  | ConwayEra (ConwayStakeVoteDeleg delegator _ drep) =>
      Some {| vote_delegator := delegator; vote_drep := drep |}
  | _ => None
  end.

Record MultiEraDRepRegistration := { drep_cred : StakeCredential; drep_reg_deposit : Lovelace }.

Definition cert_as_drep_registration (cert : MultiEraCert) : option MultiEraDRepRegistration :=
  match cert with
  | ConwayEra (ConwayRegDRepCert cred deposit _) => Some {| drep_cred := cred; drep_reg_deposit := deposit |}
  | _ => None
  end.

Definition cert_as_drep_unregistration (cert : MultiEraCert) : option MultiEraDRepRegistration :=
  match cert with
  | ConwayEra (ConwayUnRegDRepCert cred deposit) => Some {| drep_cred := cred; drep_reg_deposit := deposit |}
  | _ => None
  end.

Record MultiEraCommitteeAuth := { auth_cold : StakeCredential; auth_hot : StakeCredential }.

Definition cert_as_committee_auth (cert : MultiEraCert) : option MultiEraCommitteeAuth :=
  match cert with
  | ConwayEra (ConwayAuthCommitteeHot cold hot) => Some {| auth_cold := cold; auth_hot := hot |}
  | _ => None
  end.

Record MultiEraCommitteeResign := { resign_cold : StakeCredential; resign_anchor : option Anchor }.

Definition cert_as_committee_resign (cert : MultiEraCert) : option MultiEraCommitteeResign :=
  match cert with
  | ConwayEra (ConwayResignCommitteeCold cold anchor) => Some {| resign_cold := cold; resign_anchor := anchor |}
  | _ => None
  end.

Record MultiEraStakeDelegation := { stake_delegator : StakeCredential; stake_pool : PoolHash }.

Definition cert_as_stake_delegation (cert : MultiEraCert) : option MultiEraStakeDelegation :=
  match cert with
  | AlonzoCompatible (AlonzoStakeDelegation delegator pool)
  | ConwayEra (ConwayStakeDelegation delegator pool)
  | ConwayEra (ConwayStakeRegDeleg delegator pool _)
  | ConwayEra (ConwayStakeVoteRegDeleg delegator pool _ _)
  | ConwayEra (ConwayStakeVoteDeleg delegator pool _) =>
      Some {| stake_delegator := delegator; stake_pool := pool |}
  | _ => None
  end.

Definition cert_as_stake_registration (cert : MultiEraCert) : option StakeCredential :=
  match cert with
  | AlonzoCompatible (AlonzoStakeRegistration credential)
  | ConwayEra (ConwayStakeRegistration credential) => Some credential
  | ConwayEra (ConwayReg cred _)
  | ConwayEra (ConwayStakeRegDeleg cred _ _)
  | ConwayEra (ConwayVoteRegDeleg cred _ _)
  | ConwayEra (ConwayStakeVoteRegDeleg cred _ _ _) => Some cred
  | _ => None
  end.

Definition cert_as_stake_deregistration (cert : MultiEraCert) : option StakeCredential :=
  match cert with
  | AlonzoCompatible (AlonzoStakeDeregistration credential)
  | ConwayEra (ConwayStakeDeregistration credential) => Some credential
  | ConwayEra (ConwayUnReg cred _) => Some cred
  | _ => None
  end.

Definition cert_as_mir_certificate (cert : MultiEraCert) : option MoveInstantaneousReward :=
  match cert with
  | AlonzoCompatible (AlonzoMoveInstantaneousRewards mir) => Some mir
  | _ => None
  end.

(** ** Lemmas *)

Lemma cred_address_roundtrip network c : stake_address_to_cred (stake_credential_to_address network c) = c.
Proof. by destruct c. Qed.

Lemma address_cred_roundtrip a : stake_credential_to_address (stake_network a) (stake_address_to_cred a) = a.
Proof. by destruct a as [? []]. Qed.

(** The credential of an address without a pointer is the one of its stake
    address. *)
Lemma stake_address_cred a :
  (forall slot tx_idx cert_idx, shelley_delegation a ≠ DelegationPointer slot tx_idx cert_idx) ->
  shelley_address_to_stake_cred a =
    Ret (option_map (fun s => (stake_address_to_cred s, false)) (shelley_address_to_stake_address a)).
Proof.
  unfold shelley_address_to_stake_cred, shelley_address_to_stake_address. intros Hp.
  destruct (shelley_delegation a) eqn:E; try done. by destruct (Hp slot tx_idx cert_idx).
Qed.
