(* ===== verification/GovActions.v ===== *)
(** * Governance actions and parameter updates (cardano/src/roll/proposals.rs)

    How the proposals of a transaction become the actions the state stores:
    the parameter updates of the eras as parameter sets, and the Conway
    governance actions with their lineage. *)

From S2P Require Import Prelude Types Eras PParams Proposals Hacks Pools PallasExtras.
Open Scope Z_scope.

(** ** What [pallas] gives *)

(** [conway::CostModels]. *)
Record ConwayCostModels := {
  cm_plutus_v1 : option (list Z);
  cm_plutus_v2 : option (list Z);
  cm_plutus_v3 : option (list Z);
  cm_unknown : gmap Z (list Z);
}.

(** [conway::ProtocolParamUpdate]. *)
Record ProtocolParamUpdate := {
  cu_minfee_a : option Z;
  cu_minfee_b : option Z;
  cu_max_block_body_size : option Z;
  cu_max_transaction_size : option Z;
  cu_max_block_header_size : option Z;
  cu_key_deposit : option Z;
  cu_pool_deposit : option Z;
  cu_desired_number_of_stake_pools : option Z;
  cu_ada_per_utxo_byte : option Z;
  cu_min_pool_cost : option Z;
  cu_expansion_rate : option RationalNumber;
  cu_treasury_growth_rate : option RationalNumber;
  cu_maximum_epoch : option Z;
  cu_pool_pledge_influence : option RationalNumber;
  cu_max_value_size : option Z;
  cu_collateral_percentage : option Z;
  cu_max_collateral_inputs : option Z;
  cu_pool_voting_thresholds : option PoolVotingThresholds;
  cu_drep_voting_thresholds : option DRepVotingThresholds;
  cu_min_committee_size : option Z;
  cu_committee_term_limit : option Z;
  cu_governance_action_validity_period : option Z;
  cu_governance_action_deposit : option Z;
  cu_drep_deposit : option Z;
  cu_drep_inactivity_period : option Z;
  cu_max_tx_ex_units : option ExUnits;
  cu_max_block_ex_units : option ExUnits;
  cu_minfee_refscript_cost_per_byte : option RationalNumber;
  cu_execution_costs : option ExUnitPrices;
  cu_cost_models_for_script_languages : option ConwayCostModels;
}.

(** [MultiEraUpdate]: the values its getters list, and the cost models of each era. *)
Record MultiEraUpdate := {
  all_proposed_minfee_a : list Z;
  all_proposed_minfee_b : list Z;
  all_proposed_max_block_body_size : list Z;
  all_proposed_max_transaction_size : list Z;
  all_proposed_max_block_header_size : list Z;
  all_proposed_key_deposit : list Z;
  all_proposed_pool_deposit : list Z;
  all_proposed_desired_number_of_stake_pools : list Z;
  all_proposed_protocol_version : list (Z * Z);
  all_proposed_ada_per_utxo_byte : list Z;
  all_proposed_min_pool_cost : list Z;
  all_proposed_expansion_rate : list RationalNumber;
  all_proposed_treasury_growth_rate : list RationalNumber;
  all_proposed_maximum_epoch : list Z;
  all_proposed_pool_pledge_influence : list RationalNumber;
  all_proposed_decentralization_constant : list RationalNumber;
  all_proposed_extra_entropy : list Nonce;
  all_proposed_execution_costs : list ExUnitPrices;
  all_proposed_max_tx_ex_units : list ExUnits;
  all_proposed_max_block_ex_units : list ExUnits;
  all_proposed_max_value_size : list Z;
  all_proposed_collateral_percentage : list Z;
  all_proposed_max_collateral_inputs : list Z;
  all_proposed_pool_voting_thresholds : list PoolVotingThresholds;
  all_proposed_drep_voting_thresholds : list DRepVotingThresholds;
  all_proposed_min_committee_size : list Z;
  all_proposed_committee_term_limit : list Z;
  all_proposed_governance_action_validity_period : list Z;
  all_proposed_governance_action_deposit : list Z;
  all_proposed_drep_deposit : list Z;
  all_proposed_drep_inactivity_period : list Z;
  all_proposed_minfee_refscript_cost_per_byte : list RationalNumber;
  byron_proposed_block_version : option (Z * Z * Z);
  (** the model of [PlutusV1] in the map of Alonzo *)
  alonzo_first_proposed_cost_models : option (option (list Z));
  babbage_first_proposed_cost_models : option (option (list Z) * option (list Z));
  conway_first_proposed_cost_models : option ConwayCostModels;
}.

Inductive GovAction :=
| GaParameterChange (parent : option GovActionId) (update : ProtocolParamUpdate) (guardrail : option Hash28)
| GaHardForkInitiation (parent : option GovActionId) (version : Z * Z)
| GaTreasuryWithdrawals (withdrawals : list (bytes * Z)) (guardrail : option Hash28)
| GaNoConfidence (parent : option GovActionId)
| GaUpdateCommittee (parent : option GovActionId) (to_remove : list StakeCredential)
    (to_add : list (StakeCredential * Epoch)) (threshold : RationalNumber)
| GaNewConstitution (parent : option GovActionId) (anchor : Anchor) (guardrail_script : option Hash28)
| GaInformation.

(** ** Parameter sets *)

(** [try_into().expect(..)] to an unsigned integer. *)
Definition try_into (w x : Z) : run Z := if decide (is_u w x) then Ret x else Panic.

(** The macros [map_conway_pparam!] and [map_pre_conway_pparam!]. *)
Definition map_pparam {A} (variant : A -> PParamValue.t) (convert : A -> run A) (value : option A)
    (set : PParamsSet.t) : run PParamsSet.t :=
  match value with
  | None => Ret set
  | Some value => value ← convert value; Ret (PParamsSet.set set (variant value))
  end.

(** [if let Some(x) = .. { set.set(..) }]. *)
Definition set_some {A} (variant : A -> PParamValue.t) (value : option A) (set : PParamsSet.t) : PParamsSet.t :=
  match value with None => set | Some value => PParamsSet.set set (variant value) end.

(** The models of one update, the unknown languages when there are any. *)
Definition set_cost_models (cm : ConwayCostModels) (set : PParamsSet.t) : PParamsSet.t :=
  let set := set_some PParamValue.CostModelsPlutusV1 (cm_plutus_v1 cm) set in
  let set := set_some PParamValue.CostModelsPlutusV2 (cm_plutus_v2 cm) set in
  let set := set_some PParamValue.CostModelsPlutusV3 (cm_plutus_v3 cm) set in
  if bool_decide (cm_unknown cm = ∅) then set
  else PParamsSet.set set (PParamValue.CostModelsUnknown (cm_unknown cm)).

Definition conway_to_pparamset (update : ProtocolParamUpdate) : run PParamsSet.t :=
  let set := PParamsSet.default_ in
  set ← map_pparam PParamValue.MinFeeA (try_into 64) (cu_minfee_a update) set;
  set ← map_pparam PParamValue.MinFeeB (try_into 64) (cu_minfee_b update) set;
  set ← map_pparam PParamValue.MaxBlockBodySize (try_into 64) (cu_max_block_body_size update) set;
  set ← map_pparam PParamValue.MaxTransactionSize (try_into 64) (cu_max_transaction_size update) set;
  set ← map_pparam PParamValue.MaxBlockHeaderSize (try_into 64) (cu_max_block_header_size update) set;
  set ← map_pparam PParamValue.KeyDeposit (try_into 64) (cu_key_deposit update) set;
  set ← map_pparam PParamValue.PoolDeposit (try_into 64) (cu_pool_deposit update) set;
  set ← map_pparam PParamValue.DesiredNumberOfStakePools (try_into 32) (cu_desired_number_of_stake_pools update) set;
  set ← map_pparam PParamValue.MinUtxoValue (try_into 64) (cu_ada_per_utxo_byte update) set;
  set ← map_pparam PParamValue.MinPoolCost (try_into 64) (cu_min_pool_cost update) set;
  set ← map_pparam PParamValue.ExpansionRate Ret (cu_expansion_rate update) set;
  set ← map_pparam PParamValue.TreasuryGrowthRate Ret (cu_treasury_growth_rate update) set;
  set ← map_pparam PParamValue.MaximumEpoch (try_into 64) (cu_maximum_epoch update) set;
  set ← map_pparam PParamValue.PoolPledgeInfluence Ret (cu_pool_pledge_influence update) set;
  set ← map_pparam PParamValue.AdaPerUtxoByte (try_into 64) (cu_ada_per_utxo_byte update) set;
  set ← map_pparam PParamValue.MaxValueSize (try_into 32) (cu_max_value_size update) set;
  set ← map_pparam PParamValue.CollateralPercentage (try_into 32) (cu_collateral_percentage update) set;
  set ← map_pparam PParamValue.MaxCollateralInputs (try_into 32) (cu_max_collateral_inputs update) set;
  set ← map_pparam PParamValue.PoolVotingThresholds Ret (cu_pool_voting_thresholds update) set;
  set ← map_pparam PParamValue.DrepVotingThresholds Ret (cu_drep_voting_thresholds update) set;
  set ← map_pparam PParamValue.MinCommitteeSize (try_into 64) (cu_min_committee_size update) set;
  set ← map_pparam PParamValue.CommitteeTermLimit (try_into 64) (cu_committee_term_limit update) set;
  set ← map_pparam PParamValue.GovernanceActionValidityPeriod (try_into 64) (cu_governance_action_validity_period update) set;
  set ← map_pparam PParamValue.GovernanceActionDeposit (try_into 64) (cu_governance_action_deposit update) set;
  set ← map_pparam PParamValue.DrepDeposit (try_into 64) (cu_drep_deposit update) set;
  set ← map_pparam PParamValue.DrepInactivityPeriod (try_into 64) (cu_drep_inactivity_period update) set;
  let set := set_some PParamValue.MaxTxExUnits (cu_max_tx_ex_units update) set in
  let set := set_some PParamValue.MaxBlockExUnits (cu_max_block_ex_units update) set in
  let set := set_some PParamValue.MinFeeRefScriptCostPerByte (cu_minfee_refscript_cost_per_byte update) set in
  let set := set_some PParamValue.ExecutionCosts (cu_execution_costs update) set in
  Ret (match cu_cost_models_for_script_languages update with
       | Some cm => set_cost_models cm set
       | None => set
       end).

Definition pre_conway_to_pparamset (update : MultiEraUpdate) : run PParamsSet.t :=
  let set := PParamsSet.default_ in
  set ← map_pparam PParamValue.MinFeeA (try_into 64) (head (all_proposed_minfee_a update)) set;
  set ← map_pparam PParamValue.MinFeeB (try_into 64) (head (all_proposed_minfee_b update)) set;
  set ← map_pparam PParamValue.MaxBlockBodySize (try_into 64) (head (all_proposed_max_block_body_size update)) set;
  set ← map_pparam PParamValue.MaxTransactionSize (try_into 64) (head (all_proposed_max_transaction_size update)) set;
  set ← map_pparam PParamValue.MaxBlockHeaderSize (try_into 64) (head (all_proposed_max_block_header_size update)) set;
  set ← map_pparam PParamValue.KeyDeposit (try_into 64) (head (all_proposed_key_deposit update)) set;
  set ← map_pparam PParamValue.PoolDeposit (try_into 64) (head (all_proposed_pool_deposit update)) set;
  set ← map_pparam PParamValue.DesiredNumberOfStakePools (try_into 32) (head (all_proposed_desired_number_of_stake_pools update)) set;
  set ← map_pparam PParamValue.ProtocolVersion Ret (head (all_proposed_protocol_version update)) set;
  set ← map_pparam PParamValue.MinUtxoValue (try_into 64) (head (all_proposed_ada_per_utxo_byte update)) set;
  set ← map_pparam PParamValue.MinPoolCost (try_into 64) (head (all_proposed_min_pool_cost update)) set;
  set ← map_pparam PParamValue.ExpansionRate Ret (head (all_proposed_expansion_rate update)) set;
  set ← map_pparam PParamValue.TreasuryGrowthRate Ret (head (all_proposed_treasury_growth_rate update)) set;
  set ← map_pparam PParamValue.MaximumEpoch (try_into 64) (head (all_proposed_maximum_epoch update)) set;
  set ← map_pparam PParamValue.PoolPledgeInfluence Ret (head (all_proposed_pool_pledge_influence update)) set;
  set ← map_pparam PParamValue.DecentralizationConstant Ret (head (all_proposed_decentralization_constant update)) set;
  set ← map_pparam PParamValue.ExtraEntropy Ret (head (all_proposed_extra_entropy update)) set;
  set ← map_pparam PParamValue.AdaPerUtxoByte (try_into 64) (head (all_proposed_ada_per_utxo_byte update)) set;
  set ← map_pparam PParamValue.ExecutionCosts Ret (head (all_proposed_execution_costs update)) set;
  set ← map_pparam PParamValue.MaxTxExUnits Ret (head (all_proposed_max_tx_ex_units update)) set;
  set ← map_pparam PParamValue.MaxBlockExUnits Ret (head (all_proposed_max_block_ex_units update)) set;
  set ← map_pparam PParamValue.MaxValueSize (try_into 32) (head (all_proposed_max_value_size update)) set;
  set ← map_pparam PParamValue.CollateralPercentage (try_into 32) (head (all_proposed_collateral_percentage update)) set;
  set ← map_pparam PParamValue.MaxCollateralInputs (try_into 32) (head (all_proposed_max_collateral_inputs update)) set;
  set ← map_pparam PParamValue.PoolVotingThresholds Ret (head (all_proposed_pool_voting_thresholds update)) set;
  set ← map_pparam PParamValue.DrepVotingThresholds Ret (head (all_proposed_drep_voting_thresholds update)) set;
  set ← map_pparam PParamValue.MinCommitteeSize (try_into 64) (head (all_proposed_min_committee_size update)) set;
  set ← map_pparam PParamValue.CommitteeTermLimit (try_into 64) (head (all_proposed_committee_term_limit update)) set;
  set ← map_pparam PParamValue.GovernanceActionValidityPeriod (try_into 64) (head (all_proposed_governance_action_validity_period update)) set;
  set ← map_pparam PParamValue.GovernanceActionDeposit (try_into 64) (head (all_proposed_governance_action_deposit update)) set;
  set ← map_pparam PParamValue.DrepDeposit (try_into 64) (head (all_proposed_drep_deposit update)) set;
  set ← map_pparam PParamValue.DrepInactivityPeriod (try_into 64) (head (all_proposed_drep_inactivity_period update)) set;
  set ← map_pparam PParamValue.MinFeeRefScriptCostPerByte Ret (head (all_proposed_minfee_refscript_cost_per_byte update)) set;
  let set := set_some (fun v => PParamValue.ProtocolVersion (fst v)) (byron_proposed_block_version update) set in
  let set := match alonzo_first_proposed_cost_models update with
             | Some v1 => set_some PParamValue.CostModelsPlutusV1 v1 set
             | None => set
             end in
  let set := match babbage_first_proposed_cost_models update with
             | Some (v1, v2) =>
                 set_some PParamValue.CostModelsPlutusV2 v2 (set_some PParamValue.CostModelsPlutusV1 v1 set)
             | None => set
             end in
  Ret (match conway_first_proposed_cost_models update with
       | Some cm => set_cost_models cm set
       | None => set
       end).

(** ** Actions *)

Section actions.
Context `{Addresses}.

(** Every reward account has to parse. *)
Fixpoint withdrawal_items (withdrawals : list (bytes * Z)) : run (list (StakeCredential * Z)) :=
  match withdrawals with
  | [] => Ret []
  | (account, amount) :: rest =>
      cred ← parse_reward_account account;
      cred ← expect cred;
      items ← withdrawal_items rest;
      Ret ((cred, amount) :: items)
  end.

Definition parse_treasury_withdrawals (withdrawals : list (bytes * Z)) : run ProposalAction :=
  items ← withdrawal_items withdrawals;
  Ret (TreasuryWithdrawalAction items).

Definition parse_gov_action (action : GovAction) :
    run (ProposalAction * option GovActionId * option GovPurpose) :=
  match action with
  | GaParameterChange parent update _ =>
      set ← conway_to_pparamset update;
      Ret (ParamChange set, parent, Some PPParamUpdate)
  | GaHardForkInitiation parent version => Ret (HardFork version, parent, Some PHardFork)
  | GaTreasuryWithdrawals withdrawals _ =>
      action ← parse_treasury_withdrawals withdrawals;
      Ret (action, None, None)
  | GaNoConfidence parent => Ret (NoConfidence, parent, Some PCommittee)
  | GaUpdateCommittee parent to_remove to_add threshold =>
      Ret (UpdateCommittee to_remove to_add threshold, parent, Some PCommittee)
  | GaNewConstitution parent anchor guardrail_script =>
      Ret (NewConstitution anchor guardrail_script, parent, Some PConstitution)
  | GaInformation => Ret (Info, None, None)
  end.

End actions.
