(* ===== verification/GenesisFiles.v ===== *)
(** * What the code reads of the genesis files
    (cardano/src/utils.rs, model/gov.rs, utxoset.rs)

    The stability windows, computed in double precision; the enact-state of
    the Conway genesis; the UTxO deltas of the origin. *)

From Stdlib Require Import Ascii SpecFloat.
From S2P Require Import Prelude Lists Types EpochValue PParams Forks Gov StateStore Blocks.
Open Scope Z_scope.

(** ** Double precision *)

Definition f64_of_Z (z : Z) : spec_float := binary_normalize 53 1024 z 0 false.

(** [x as f64] on an [f32]. *)
Definition f64_of_f32 (x : spec_float) : spec_float :=
  match x with
  | S754_finite s m e => binary_normalize 53 1024 (cond_Zopp s (Z.pos m)) e s
  | _ => x
  end.

(** [f64::ceil]: a number with no fractional bits is its own ceiling. *)
Definition f64_ceil (x : spec_float) : spec_float :=
  match x with
  | S754_finite s m e =>
      if 0 <=? e then x
      else binary_normalize 53 1024 (- (- cond_Zopp s (Z.pos m) / 2 ^ (- e))) 0 s
  | _ => x
  end.

(** [x as u64]: truncates, saturates, and maps a NaN to zero. *)
Definition f64_as_u64 (x : spec_float) : Z :=
  match x with
  | S754_finite false m e => Z.min (Z.shiftl (Z.pos m) e) (u_max 64)
  | S754_infinity false => u_max 64
  | _ => 0
  end.

(** ** Stability windows (utils.rs) *)

(** [((n * k) / f).ceil() as u64]. *)
Definition window (n : Z) (g : Genesis) : run Z :=
  let k := f64_of_Z (protocol_k (byron g)) in
  f ← expect (active_slots_coeff (shelley g));
  Ret (f64_as_u64 (f64_ceil (SFdiv 53 1024 (SFmul 53 1024 (f64_of_Z n) k) (f64_of_f32 f)))).

Definition mutable_slots (g : Genesis) : run Z := window 3 g.
Definition stability_window (g : Genesis) : run Z := mutable_slots g.
Definition randomness_stability_window (g : Genesis) : run Z := window 4 g.

Definition nonce_stability_window (protocol : Z) (g : Genesis) : run Z :=
  if 9 <=? protocol then randomness_stability_window g else stability_window g.

Definition lastest_immutable_slot (tip : BlockSlot) (g : Genesis) : run BlockSlot :=
  m ← mutable_slots g; Ret (saturating_sub 64 tip m).

(** On the parameters of the main network. *)
Example mainnet_windows :
  stability_window demo_genesis = Ret 129600 /\ randomness_stability_window demo_genesis = Ret 172800.
Proof. by vm_compute. Qed.

(** ** The Conway genesis (model/gov.rs) *)

(** [str::split_once]. *)
Fixpoint split_once (sep : ascii) (s : string) : option (string * string) :=
  match s with
  | EmptyString => None
  | String c rest =>
      if bool_decide (c = sep) then Some (EmptyString, rest)
      else p ← split_once sep rest; Some (String c (fst p), snd p)
  end.

(** [<[u8; N]>::try_from(bytes).ok()]. *)
Definition array_of (n : nat) (b : bytes) : option bytes :=
  if bool_decide (length b = n) then Some b else None.

Section conway.
Context `{Pallas}.

Definition parse_genesis_committee_member (raw : string) : option StakeCredential :=
  p ← split_once "-"%char raw;
  bytes ← hex_decode (snd p);
  hash ← array_of 28 bytes;
  if bool_decide (fst p = "scriptHash"%string) then Some (ScriptHash hash)
  else if bool_decide (fst p = "keyHash"%string) then Some (AddrKeyhash hash)
  else None.

Definition malformed (what : string) : ChainError := GenesisFieldMissing (String.append "conway " what).

Fixpoint genesis_members (members : gmap StakeCredential Epoch) (l : list (string * Z)) :
    result ChainError (gmap StakeCredential Epoch) :=
  match l with
  | [] => Ok members
  | (raw, term) :: rest =>
      match parse_genesis_committee_member raw with
      | Some cred => genesis_members (<[cred := term]> members) rest
      | None => Err (malformed "committee.members")
      end
  end.

Definition gov_from_conway_genesis (g : ConwayGenesis) : result ChainError (Constitution * Committee) :=
  let file := constitution_file g in
  match hex_decode (cc_anchor_data_hash file) ≫= array_of 32 with
  | None => Err (malformed "constitution.anchor.dataHash")
  | Some content_hash =>
      match (match cc_script file with
             | None => Ok None
             | Some script =>
                 match hex_decode script ≫= array_of 28 with
                 | Some h => Ok (Some h)
                 | None => Err (malformed "constitution.script")
                 end
             end) with
      | Err e => Err e
      | Ok guardrail_script =>
          let constitution := {| c_anchor := {| url := cc_anchor_url file; content_hash := content_hash |};
                                 c_guardrail_script := guardrail_script |} in
          match genesis_members ∅ (cc_members (committee_file g)) with
          | Err e => Err e
          | Ok members => Ok (constitution, {| members := members; c_threshold := cc_threshold (committee_file g) |})
          end
      end
  end.

End conway.

(** ** The UTxOs of the origin (utxoset.rs)

    The traversals of the genesis files and the encoding of outputs are code
    of [pallas]: the outputs a file lists, as a transaction hash, an address
    and an amount; the encoded outputs of each era, whose amount can be read
    back. *)

Class GenesisUtxos := {
  genesis_avvm_utxos : ByronGenesis -> list (TxHash * bytes * Z);
  genesis_utxos : ByronGenesis -> list (TxHash * bytes * Z);
  shelley_utxos : ShelleyGenesis -> list (TxHash * bytes * Z);
  byron_output : bytes -> Z -> EraCbor;
  shelley_output : bytes -> Z -> EraCbor;
  conway_era : Z;
  (** [MultiEraOutput::try_from(..)] and its [value().coin()] *)
  output_coin : EraCbor -> option Z;
  output_coin_u64 : forall b amount, output_coin b = Some amount -> is_u64 amount;
  byron_output_coin : forall addr amount, is_u64 amount -> output_coin (byron_output addr amount) = Some amount;
  shelley_output_coin : forall addr amount, is_u64 amount -> output_coin (shelley_output addr amount) = Some amount;
}.

Section coins.
Context `{GenesisUtxos}.

Definition coin_of (b : EraCbor) : Z := default 0 (output_coin b).

(** What the outputs of a set hold. *)
Definition coins (m : UtxoMap) : Z := Zsum (fun x => coin_of (snd x)) (map_to_list m).

Lemma coin_nonneg b : 0 ≤ coin_of b.
Proof. unfold coin_of. destruct (output_coin b) as [n|] eqn:E; [|done]. by apply output_coin_u64 in E as [? _]. Qed.

Lemma coins_nonneg m : 0 ≤ coins m.
Proof. apply Zsum_nonneg. intros x _. apply coin_nonneg. Qed.

Lemma coins_split (m a : UtxoMap) : a ⊆ m -> coins m = coins (m ∖ a) + coins a.
Proof.
  intros Ha. unfold coins. rewrite <- Zsum_app. apply Zsum_perm, NoDup_Permutation.
  - apply NoDup_map_to_list.
  - apply NoDup_app. split; [apply NoDup_map_to_list|]. split; [|apply NoDup_map_to_list].
    intros [r b] [_ Hr]%elem_of_map_to_list%lookup_difference_Some Hr'%elem_of_map_to_list. congruence.
  - intros [r b]. rewrite elem_of_app, !elem_of_map_to_list, lookup_difference_Some. split.
    + intros Hr. destruct (a !! r) as [b'|] eqn:E; [right|by left].
      pose proof (lookup_weaken _ _ _ _ E Ha). congruence.
    + intros [[Hr _]|Hr]; [done|]. by eapply lookup_weaken.
Qed.

End coins.

Record CustomUtxo := { cu_ref : TxoRef; cu_era : option Z; cu_cbor : bytes }.

Section origin.
Context `{GenesisUtxos}.

Definition produce (output : bytes -> Z -> EraCbor) (m : UtxoMap) (x : TxHash * bytes * Z) : UtxoMap :=
  <[(x.1.1, 0) := output x.1.2 x.2]> m.

Definition compute_origin_delta (g : Genesis) : UtxoSetDelta.t :=
  let m := foldl (produce byron_output) ∅ (genesis_utxos (byron g)) in
  let m := foldl (produce shelley_output) m (shelley_utxos (shelley g)) in
  UtxoSetDelta.mk m ∅ ∅ ∅.

Definition build_custom_utxos_delta (custom_utxos : list CustomUtxo) : UtxoSetDelta.t :=
  UtxoSetDelta.mk
    (foldl (fun m u => <[cu_ref u := (default conway_era (cu_era u), cu_cbor u)]> m) ∅ custom_utxos) ∅ ∅ ∅.

Lemma coins_insert (m : UtxoMap) (r : TxoRef) (b : EraCbor) : m !! r = None -> coins (<[r := b]> m) = coin_of b + coins m.
Proof. intros Hr. unfold coins. by rewrite (map_to_list_insert m r b Hr), Zsum_cons. Qed.

Lemma produced_lookup (output : bytes -> Z -> EraCbor) (l : list (TxHash * bytes * Z)) (m : UtxoMap) (r : TxoRef) :
  r ∉ ((fun x => (x.1.1, 0)) <$> l) -> foldl (produce output) m l !! r = m !! r.
Proof.
  revert m. induction l as [|x l IH]; intros m Hr; cbn [foldl]; [done|]. cbn in Hr. apply not_elem_of_cons in Hr as [Hx Hr].
  rewrite IH by done. unfold produce. by rewrite lookup_insert_ne by (by apply not_eq_sym).
Qed.

(** What the outputs of a genesis file hold. *)
Lemma coins_produce (output : bytes -> Z -> EraCbor) (l : list (TxHash * bytes * Z)) (m : UtxoMap) :
  (forall addr amount, is_u64 amount -> output_coin (output addr amount) = Some amount) ->
  Forall (fun x => is_u64 x.2) l -> NoDup ((fun x : TxHash * bytes * Z => (x.1.1, 0)) <$> l) ->
  (forall x, x ∈ l -> m !! (x.1.1, 0) = None) ->
  coins (foldl (produce output) m l) = coins m + Zsum snd l.
Proof.
  intros Ho. revert m. induction l as [|x l IH]; intros m Ha Hn Hm; cbn [foldl]; [cbn; lia|].
  apply Forall_cons in Ha as [Hx Ha]. cbn in Hn. apply NoDup_cons in Hn as [Hni Hn]. rewrite IH; [|done|done|].
  - unfold produce. rewrite coins_insert by (apply Hm; left). unfold coin_of. rewrite Ho, Zsum_cons by done. cbn. lia.
  - intros y Hy. unfold produce. rewrite lookup_insert_ne; [apply Hm; by right|].
    intros E. apply Hni, list_elem_of_fmap. exists y. by rewrite E.
Qed.

(** The references of the origin, and what its outputs hold. *)
Definition origin_outputs (g : Genesis) : list (TxHash * bytes * Z) := genesis_utxos (byron g) ++ shelley_utxos (shelley g).

Lemma origin_coins g :
  Forall (fun x => is_u64 x.2) (origin_outputs g) -> NoDup ((fun x : TxHash * bytes * Z => (x.1.1, 0)) <$> origin_outputs g) ->
  coins (UtxoSetDelta.produced_utxo (compute_origin_delta g)) = Zsum snd (origin_outputs g).
Proof.
  unfold origin_outputs. intros [Hb Hs]%Forall_app Hn. rewrite fmap_app in Hn. apply NoDup_app in Hn as (Hnb & Hd & Hns).
  cbn. rewrite coins_produce; [|apply shelley_output_coin|done|done|].
  - rewrite coins_produce; [|apply byron_output_coin|done|done|done]. by rewrite Zsum_app.
  - intros x Hx. rewrite produced_lookup; [done|]. intros Hy. apply (Hd _ Hy), list_elem_of_fmap. eauto.
Qed.

End origin.

(** A concrete instance: an output is its amount and its address. *)
Definition demo_coin (b : EraCbor) : option Z :=
  match snd b with
  | amount :: _ => if bool_decide (is_u64 amount) then Some amount else None
  | [] => None
  end.

Lemma demo_coin_u64 b amount : demo_coin b = Some amount -> is_u64 amount.
Proof. unfold demo_coin. destruct (snd b); [done|]. case_bool_decide; [|done]. by intros [= <-]. Qed.

Lemma demo_coin_read era amount addr : is_u64 amount -> demo_coin (era, amount :: addr) = Some amount.
Proof. intros Ha. unfold demo_coin. cbn. by rewrite bool_decide_true. Qed.

Definition demo_genesis_utxos (avvm byron shelley : list (TxHash * bytes * Z)) : GenesisUtxos := {|
  genesis_avvm_utxos _ := avvm;
  genesis_utxos _ := byron;
  shelley_utxos _ := shelley;
  byron_output addr amount := (1, amount :: addr);
  shelley_output addr amount := (7, amount :: addr);
  conway_era := 7;
  output_coin := demo_coin;
  output_coin_u64 := demo_coin_u64;
  byron_output_coin addr amount := demo_coin_read 1 amount addr;
  shelley_output_coin addr amount := demo_coin_read 7 amount addr;
|}.
