(* ===== verification/RewardMap.v ===== *)
(** * The reward computation (cardano/src/rewards/mod.rs)

    The rewards of an account, the map of pending rewards with its counters,
    the context the computation reads, and the loop over the pools that fills
    the map.  The computation runs once per shard of the account space; the
    shards together give the rewards of the unsharded run. *)

From S2P Require Import Prelude Lists Types EntityDelta PParams Ratio Pots Rewards Pools Pending StateStore Blocks PallasExtras.
Open Scope Z_scope.

(** [pallas_ratio!(x)]. *)
Definition pallas_ratio (x : RationalNumber) : run Ratio := ratio (numerator x) (denominator x).

(** [ctx.pparams().ensure_..()?]. *)
Definition ensured {A} (m : run (A + string)) : run (result ChainError A) :=
  x ← m; Ret (match x with inl a => Ok a | inr name => Err (PParamsNotFound name) end).

(** ** Rewards *)

Module MultiPoolReward.

Record t := mk {
  is_spendable : bool;
  as_leader : gmap PoolHash Z;
  as_delegator : gmap PoolHash Z;
}.

(** [extend]: the entries of [other] replace those of [self]. *)
Definition merge `{BuildCfg} (r other : t) : run t :=
  _ ← (if strict then assert_ (bool_decide (is_spendable r = is_spendable other)) else Ret tt);
  Ret (mk (is_spendable r) (as_leader other ∪ as_leader r) (as_delegator other ∪ as_delegator r)).

Definition total_value `{BuildCfg} (r : t) : run Z :=
  a ← run_sum 64 snd (map_to_list (as_leader r));
  b ← run_sum 64 snd (map_to_list (as_delegator r));
  uadd 64 a b.

Definition into_vec (r : t) : list (PoolHash * Z * bool) :=
  ((fun x => (fst x, snd x, true)) <$> map_to_list (as_leader r)) ++
  ((fun x => (fst x, snd x, false)) <$> map_to_list (as_delegator r)).

End MultiPoolReward.

Module PreAllegraReward.

Record t := mk {
  is_spendable : bool;
  as_leader : bool;
  pool : PoolHash;
  value : Z;
}.

Definition merge (r other : t) : t :=
  match as_leader r, as_leader other with
  | true, false => r
  | false, true => other
  | _, _ => if bytes_le (pool r) (pool other) then r else other
  end.

End PreAllegraReward.

(** ** The context

    [trait RewardsContext]: what the computation reads of the epoch it pays. *)

Module RewardsContext.

Record t := mk {
  incentives : EpochIncentives.t;
  pots : Pots.t;
  pre_allegra : run bool;
  active_stake : Z;
  epoch_blocks : Z;
  pool_blocks : PoolHash -> run Z;
  pool_stake : PoolHash -> Z;
  account_stake : PoolHash -> StakeCredential -> Z;
  is_account_registered : StakeCredential -> bool;
  iter_all_pools : list PoolHash;
  pool_params : PoolHash -> run PoolParams.t;
  pool_delegators : PoolHash -> list StakeCredential;
  pparams : run PParamsSet.t;
  live_pledge : PoolHash -> list StakeCredential -> run Z;
  should_include : StakeCredential -> bool;
}.

(** The provided method [live_pledge]. *)
Definition default_live_pledge `{BuildCfg} (account_stake : PoolHash -> StakeCredential -> Z)
    (pool : PoolHash) (owners : list StakeCredential) : run Z :=
  run_foldl (fun live_pledge owner => uadd 64 live_pledge (account_stake pool owner)) 0 owners.

End RewardsContext.

Module Reward.

Inductive t :=
| MultiPool (r : MultiPoolReward.t)
| PreAllegra (r : PreAllegraReward.t).

Definition new (ctx : RewardsContext.t) (account : StakeCredential) (reward_value : Z)
    (from_pool : PoolHash) (as_leader : bool) : run t :=
  pre_allegra ← RewardsContext.pre_allegra ctx;
  let registered := RewardsContext.is_account_registered ctx account in
  Ret (if pre_allegra : bool then
         PreAllegra (PreAllegraReward.mk registered as_leader from_pool reward_value)
       else if as_leader then
         MultiPool (MultiPoolReward.mk registered {[from_pool := reward_value]} ∅)
       else
         MultiPool (MultiPoolReward.mk registered ∅ {[from_pool := reward_value]})).

Definition merge `{BuildCfg} (r other : t) : run t :=
  match r, other with
  | MultiPool a, MultiPool b => m ← MultiPoolReward.merge a b; Ret (MultiPool m)
  | PreAllegra a, PreAllegra b => Ret (PreAllegra (PreAllegraReward.merge a b))
  | _, _ => Panic
  end.

Definition is_spendable (r : t) : bool :=
  match r with
  | MultiPool r => MultiPoolReward.is_spendable r
  | PreAllegra r => PreAllegraReward.is_spendable r
  end.

Definition total_value `{BuildCfg} (r : t) : run Z :=
  match r with
  | MultiPool r => MultiPoolReward.total_value r
  | PreAllegra r => Ret (PreAllegraReward.value r)
  end.

Definition into_vec (r : t) : list (PoolHash * Z * bool) :=
  match r with
  | MultiPool r => MultiPoolReward.into_vec r
  | PreAllegra r => [(PreAllegraReward.pool r, PreAllegraReward.value r, PreAllegraReward.as_leader r)]
  end.

(** [iter().cloned().collect::<HashMap>()]: a later entry replaces an earlier
    one of the same pool. *)
Definition collect (l : list (PoolHash * Z)) : gmap PoolHash Z :=
  foldl (fun m x => <[fst x := snd x]> m) ∅ l.

Definition from_pending_state (s : PendingRewardState.t) : t :=
  MultiPool (MultiPoolReward.mk (PendingRewardState.is_spendable s)
    (collect (PendingRewardState.as_leader s)) (collect (PendingRewardState.as_delegator s))).

End Reward.

(** ** The map of pending rewards *)

Module RewardMap.

Record t := mk {
  incentives : EpochIncentives.t;
  pending : gmap StakeCredential Reward.t;
  applied_effective : Z;
  applied_unspendable_to_treasury : Z;
  applied_unspendable_to_reserves : Z;
}.

#[global] Instance eta_t : Eta t := fun r =>
  mk (incentives r) (pending r) (applied_effective r) (applied_unspendable_to_treasury r)
     (applied_unspendable_to_reserves r).

Definition default_ : t := mk EpochIncentives.default_ ∅ 0 0 0.
Definition new (incentives : EpochIncentives.t) : t := mk incentives ∅ 0 0 0.
Definition from_pending (pending : gmap StakeCredential Reward.t) (incentives : EpochIncentives.t) : t :=
  mk incentives pending 0 0 0.

Section ops.
Context `{BuildCfg}.

Definition aggregate_pool_rewards (m : t) : run (gmap PoolHash (Z * Z)) :=
  run_foldl (fun rewards reward =>
    run_foldl (fun rewards x =>
      let '(pool, value, as_leader) := x in
      let '(total_rewards, operator_share) := default (0, 0) (rewards !! pool) in
      total_rewards ← add_ 64 total_rewards value;
      operator_share ← (if as_leader : bool then add_ 64 operator_share value else Ret operator_share);
      Ret (<[pool := (total_rewards, operator_share)]> rewards)) rewards (Reward.into_vec reward))
    ∅ (map_to_list (pending m)).*2.

Definition include (m : t) (ctx : RewardsContext.t) (account : StakeCredential) (reward_value : Z)
    (from_pool : PoolHash) (as_leader : bool) : run t :=
  new ← Reward.new ctx account reward_value from_pool as_leader;
  merged ← match pending m !! account with
           | Some prev => Reward.merge prev new
           | None => Ret new
           end;
  Ret (m <| pending := <[account := merged]> (pending m) |>).

Definition take_for_apply (m : t) (account : StakeCredential) : run (option Reward.t * t) :=
  match pending m !! account with
  | None => Ret (None, m)
  | Some reward =>
      value ← Reward.total_value reward;
      effective ← uadd 64 (applied_effective m) value;
      Ret (Some reward, (m <| pending := delete account (pending m) |>) <| applied_effective := effective |>)
  end.

Definition return_reward_to_treasury (m : t) (amount : Lovelace) : run t :=
  effective ← sub_ 64 (applied_effective m) amount;
  unspendable ← add_ 64 (applied_unspendable_to_treasury m) amount;
  Ret ((m <| applied_effective := effective |>) <| applied_unspendable_to_treasury := unspendable |>).

Definition return_reward_to_reserves (m : t) (amount : Lovelace) : run t :=
  effective ← sub_ 64 (applied_effective m) amount;
  unspendable ← add_ 64 (applied_unspendable_to_reserves m) amount;
  Ret ((m <| applied_effective := effective |>) <| applied_unspendable_to_reserves := unspendable |>).

(** One reward of the drain: its value goes to the reserves or the treasury. *)
Definition drain_one (to_reserves : bool) (acc : list StakeCredential * t) (x : StakeCredential * Reward.t) :
    run (list StakeCredential * t) :=
  let '(credentials, m) := acc in
  let '(credential, reward) := x in
  value ← Reward.total_value reward;
  m ← (if to_reserves then
         total ← uadd 64 (applied_unspendable_to_reserves m) value;
         Ret (m <| applied_unspendable_to_reserves := total |>)
       else
         total ← uadd 64 (applied_unspendable_to_treasury m) value;
         Ret (m <| applied_unspendable_to_treasury := total |>));
  Ret (credentials ++ [credential], m).

Definition drain_unspendable (m : t) (to_reserves : bool) : run (list StakeCredential * t) :=
  let unspendable := map_to_list (filter (fun x => Reward.is_spendable (snd x) = false) (pending m)) in
  let m := m <| pending := filter (fun x => Reward.is_spendable (snd x) = true) (pending m) |> in
  run_foldl (drain_one to_reserves) ([], m) unspendable.

Definition drain_all (m : t) : run t :=
  run_foldl (fun m x =>
    value ← Reward.total_value (snd x);
    if Reward.is_spendable (snd x) then
      total ← uadd 64 (applied_effective m) value; Ret (m <| applied_effective := total |>)
    else
      total ← uadd 64 (applied_unspendable_to_treasury m) value;
      Ret (m <| applied_unspendable_to_treasury := total |>))
    (m <| pending := ∅ |>) (map_to_list (pending m)).

(** The getters of the counters: [assert!(self.pending.is_empty())] in a
    strict build. *)
Definition drained (m : t) : run unit :=
  if strict then assert_ (bool_decide (pending m = ∅)) else Ret tt.

Definition get_applied_effective (m : t) : run Z := _ ← drained m; Ret (applied_effective m).
Definition get_unspendable_to_treasury (m : t) : run Z :=
  _ ← drained m; Ret (applied_unspendable_to_treasury m).
Definition get_unspendable_to_reserves (m : t) : run Z :=
  _ ← drained m; Ret (applied_unspendable_to_reserves m).
Definition applied_unspendable (m : t) : run Z :=
  _ ← drained m; uadd 64 (applied_unspendable_to_treasury m) (applied_unspendable_to_reserves m).

Definition iter_pending (m : t) : list (StakeCredential * Reward.t) := map_to_list (pending m).
Definition is_empty (m : t) : bool := bool_decide (pending m = ∅).
Definition len (m : t) : nat := size (pending m).

End ops.
End RewardMap.

(** ** Computing the rewards of an epoch *)

Definition DELEGATOR_CHUNK_SIZE : nat := 25.

Section define_rewards.
Context `{BuildCfg, Addresses}.

(** One element of the [filter_map] over a chunk. *)
Definition delegator_entry (ctx : RewardsContext.t) (pool : PoolHash)
    (total_pool_reward pool_stake circulating_supply pool_cost : Z) (pool_margin : Ratio)
    (owners : list StakeCredential) (babbage_or_later : bool) (delegator : StakeCredential) :
    run (option (StakeCredential * Z)) :=
  if bool_decide (delegator ∈ owners) then Ret None
  else if negb babbage_or_later && negb (RewardsContext.is_account_registered ctx delegator) then Ret None
  else
    let delegator_stake := RewardsContext.account_stake ctx pool delegator in
    reward ← delegator_reward total_pool_reward delegator_stake pool_stake circulating_supply
               pool_cost pool_margin;
    Ret (Some (delegator, reward)).

Definition compute_delegator_chunk (ctx : RewardsContext.t) (pool : PoolHash)
    (total_pool_reward pool_stake circulating_supply pool_cost : Z) (pool_margin : Ratio)
    (owners : list StakeCredential) (babbage_or_later : bool) (chunk : list StakeCredential) :
    run (list (StakeCredential * Z)) :=
  run_filter_map (delegator_entry ctx pool total_pool_reward pool_stake circulating_supply pool_cost
                    pool_margin owners babbage_or_later) chunk.

(** One turn of the loop over the pools. *)
Definition pool_turn (ctx : RewardsContext.t) (map : RewardMap.t) (pool : PoolHash) :
    run (result ChainError RewardMap.t) :=
  pool_params ← RewardsContext.pool_params ctx pool;
  operator_account ← parse_reward_account (PoolParams.reward_account pool_params);
  operator_account ← expect operator_account;
  let owners := keyhash_to_stake_cred <$> PoolParams.pool_owners pool_params in
  live_pledge ← RewardsContext.live_pledge ctx pool owners;
  circulating_supply ← Pots.circulating (RewardsContext.pots ctx);
  let pool_stake := RewardsContext.pool_stake ctx pool in
  let epoch_rewards := EpochIncentives.available_rewards (RewardsContext.incentives ctx) in
  pool_blocks ← RewardsContext.pool_blocks ctx pool;
  if pool_blocks =? 0 then Ret (Ok map)
  else
    pparams ← RewardsContext.pparams ctx;
    k ←? ensured (PParamsSet.ensure_k pparams);
    a0 ←? ensured (PParamsSet.ensure_a0 pparams);
    d ←? ensured (PParamsSet.ensure_d pparams);
    a0_ratio ← pallas_ratio a0;
    d_ratio ← pallas_ratio d;
    total_pool_reward ← pool_rewards epoch_rewards circulating_supply
      (RewardsContext.active_stake ctx) pool_stake (PoolParams.pledge pool_params) live_pledge k
      a0_ratio d_ratio pool_blocks (RewardsContext.epoch_blocks ctx);
    margin ← pallas_ratio (PoolParams.margin pool_params);
    operator_share ← pool_operator_share total_pool_reward (PoolParams.cost pool_params) margin
      pool_stake live_pledge circulating_supply;
    protocol_major ← PParamsSet.protocol_major pparams;
    let babbage_or_later := 7 <=? default 0 protocol_major in
    let is_operator_registered := RewardsContext.is_account_registered ctx operator_account in
    map ← (if (babbage_or_later || is_operator_registered) && RewardsContext.should_include ctx operator_account
           then RewardMap.include map ctx operator_account operator_share pool true
           else Ret map);
    let delegators := RewardsContext.pool_delegators ctx pool in
    delegator_rewards ← run_concat
      (compute_delegator_chunk ctx pool total_pool_reward pool_stake circulating_supply
         (PoolParams.cost pool_params) margin owners babbage_or_later <$>
       chunks_of DELEGATOR_CHUNK_SIZE delegators);
    map ← run_foldl (fun map x =>
      let '(delegator, reward) := x in
      if RewardsContext.should_include ctx delegator
      then RewardMap.include map ctx delegator reward pool false else Ret map) map delegator_rewards;
    Ret (Ok map).

Fixpoint pool_loop (ctx : RewardsContext.t) (map : RewardMap.t) (pools : list PoolHash) :
    run (result ChainError RewardMap.t) :=
  match pools with
  | [] => Ret (Ok map)
  | pool :: pools' => map ←? pool_turn ctx map pool; pool_loop ctx map pools'
  end.

Definition define_rewards (ctx : RewardsContext.t) : run (result ChainError RewardMap.t) :=
  pool_loop ctx (RewardMap.new (RewardsContext.incentives ctx)) (RewardsContext.iter_all_pools ctx).

End define_rewards.

(** ** Contributions

    What the computation puts in the map: the rewards of an account from one
    pool in one role. *)

Record Contribution := mkContribution {
  c_account : StakeCredential;
  c_value : Z;
  c_pool : PoolHash;
  c_leader : bool;
}.

Definition label (c : Contribution) : StakeCredential * (PoolHash * bool) := (c_account c, (c_pool c, c_leader c)).

Section contributions.
Context `{BuildCfg, Addresses}.

Definition include_one (ctx : RewardsContext.t) (m : RewardMap.t) (c : Contribution) : run RewardMap.t :=
  RewardMap.include m ctx (c_account c) (c_value c) (c_pool c) (c_leader c).

Definition include_all (ctx : RewardsContext.t) (m : RewardMap.t) (cs : list Contribution) : run RewardMap.t :=
  run_foldl (include_one ctx) m cs.

Definition wanted (ctx : RewardsContext.t) (cs : list Contribution) : list Contribution :=
  List.filter (fun c => RewardsContext.should_include ctx (c_account c)) cs.

(** The contributions of a pool, apart from the map they go to. *)
Definition contributions (ctx : RewardsContext.t) (pool : PoolHash) : run (result ChainError (list Contribution)) :=
  pool_params ← RewardsContext.pool_params ctx pool;
  operator_account ← parse_reward_account (PoolParams.reward_account pool_params);
  operator_account ← expect operator_account;
  let owners := keyhash_to_stake_cred <$> PoolParams.pool_owners pool_params in
  live_pledge ← RewardsContext.live_pledge ctx pool owners;
  circulating_supply ← Pots.circulating (RewardsContext.pots ctx);
  pool_blocks ← RewardsContext.pool_blocks ctx pool;
  if pool_blocks =? 0 then Ret (Ok [])
  else
    pparams ← RewardsContext.pparams ctx;
    k ←? ensured (PParamsSet.ensure_k pparams);
    a0 ←? ensured (PParamsSet.ensure_a0 pparams);
    d ←? ensured (PParamsSet.ensure_d pparams);
    a0_ratio ← pallas_ratio a0;
    d_ratio ← pallas_ratio d;
    total ← pool_rewards (EpochIncentives.available_rewards (RewardsContext.incentives ctx)) circulating_supply
      (RewardsContext.active_stake ctx) (RewardsContext.pool_stake ctx pool) (PoolParams.pledge pool_params) live_pledge k
      a0_ratio d_ratio pool_blocks (RewardsContext.epoch_blocks ctx);
    margin ← pallas_ratio (PoolParams.margin pool_params);
    share ← pool_operator_share total (PoolParams.cost pool_params) margin
      (RewardsContext.pool_stake ctx pool) live_pledge circulating_supply;
    protocol_major ← PParamsSet.protocol_major pparams;
    let babbage_or_later := 7 <=? default 0 protocol_major in
    rewards ← run_filter_map (delegator_entry ctx pool total (RewardsContext.pool_stake ctx pool) circulating_supply
      (PoolParams.cost pool_params) margin owners babbage_or_later) (RewardsContext.pool_delegators ctx pool);
    Ret (Ok (wanted ctx
      ((if babbage_or_later || RewardsContext.is_account_registered ctx operator_account
        then [mkContribution operator_account share pool true] else []) ++
       ((fun x => mkContribution (fst x) (snd x) pool false) <$> rewards)))).

Lemma include_all_app ctx m l1 l2 :
  include_all ctx m (l1 ++ l2) = (m' ← include_all ctx m l1; include_all ctx m' l2).
Proof. apply run_foldl_app. Qed.

Lemma include_wanted ctx p l m :
  run_foldl (fun m x => let '(a, v) := x in
    if RewardsContext.should_include ctx a then RewardMap.include m ctx a v p false else Ret m) m l =
  include_all ctx m (wanted ctx ((fun x => mkContribution (fst x) (snd x) p false) <$> l)).
Proof.
  revert m. induction l as [|[a v] l IH]; intros m; [done|]. cbn. destruct (RewardsContext.should_include ctx a); [|apply IH].
  cbn. unfold include_one. cbn. destruct (RewardMap.include m ctx a v p false); [apply IH|done].
Qed.

Ltac no_result := split; [done|by intros (? & ? & _)].

Lemma pool_turn_contributions ctx m p m' :
  pool_turn ctx m p = Ret (Ok m') <->
  exists cs, contributions ctx p = Ret (Ok cs) /\ include_all ctx m cs = Ret m'.
Proof.
  unfold pool_turn, contributions, compute_delegator_chunk.
  destruct (RewardsContext.pool_params ctx p) as [pp|]; cbn; [|no_result].
  destruct (parse_reward_account _) as [parsed|]; cbn; [|no_result].
  destruct (expect parsed) as [operator|]; cbn; [|no_result].
  destruct (RewardsContext.live_pledge ctx p _) as [pledge|]; cbn; [|no_result].
  destruct (Pots.circulating _) as [supply|]; cbn; [|no_result].
  destruct (RewardsContext.pool_blocks ctx p) as [blocks|]; cbn; [|no_result].
  destruct (blocks =? 0); [cbn; split; [intros E; apply Ret_inj in E; injection E as <-; eauto|intros (cs & E & Hc); apply Ret_inj in E; injection E as <-; by apply Ret_inj in Hc as <-]|].
  destruct (RewardsContext.pparams ctx) as [ps|]; cbn; [|no_result].
  destruct (ensured (PParamsSet.ensure_k ps)) as [[k|]|]; cbn; [|no_result..].
  destruct (ensured (PParamsSet.ensure_a0 ps)) as [[a0|]|]; cbn; [|no_result..].
  destruct (ensured (PParamsSet.ensure_d ps)) as [[d|]|]; cbn; [|no_result..].
  destruct (pallas_ratio a0) as [qa|]; cbn; [|no_result]. destruct (pallas_ratio d) as [qd|]; cbn; [|no_result].
  destruct (pool_rewards _ _ _ _ _ _ _ _ _ _ _) as [total|]; cbn; [|no_result].
  destruct (pallas_ratio (PoolParams.margin pp)) as [margin|]; cbn; [|no_result].
  destruct (pool_operator_share _ _ _ _ _ _) as [share|]; cbn; [|no_result].
  destruct (PParamsSet.protocol_major ps) as [major|]; cbn; [|no_result].
  rewrite run_chunks by (unfold DELEGATOR_CHUNK_SIZE; lia).
  set (pays := (7 <=? default 0 major) || RewardsContext.is_account_registered ctx operator).
  destruct (run_filter_map _ _) as [rs|] eqn:Er; cbn.
  - set (ds := (fun x => mkContribution (fst x) (snd x) p false) <$> rs).
    assert (Hop : forall m1, (if pays && RewardsContext.should_include ctx operator
        then RewardMap.include m ctx operator share p true else Ret m) = Ret m1 <->
      include_all ctx m (wanted ctx (if pays then [mkContribution operator share p true] else [])) = Ret m1).
    { intros m1. destruct pays; cbn; [|done]. destruct (RewardsContext.should_include ctx operator); cbn; [|done].
      unfold include_one. cbn. by destruct (RewardMap.include m ctx operator share p true). }
    assert (Hsplit : forall m1, include_all ctx m (wanted ctx ((if pays then [mkContribution operator share p true] else []) ++ ds)) =
      Ret m1 <-> exists m2, include_all ctx m (wanted ctx (if pays then [mkContribution operator share p true] else [])) = Ret m2 /\
      include_all ctx m2 (wanted ctx ds) = Ret m1).
    { intros m1. unfold wanted. rewrite List.filter_app, include_all_app. split; [by intros (m2 & ? & ?)%bind_Ret; eauto|].
      intros (m2 & -> & E). exact E. }
    split.
    + intros (m1 & H1' & H2')%bind_Ret. apply bind_Ret in H2' as (m2 & H2' & E). apply Ret_inj in E. injection E as <-.
      rewrite include_wanted in H2'. eexists. split; [done|]. apply Hsplit. exists m1. split; [by apply Hop|done].
    + intros (cs & E & Hc). apply Ret_inj in E. injection E as <-. apply Hsplit in Hc as (m1 & H1' & H2').
      apply Hop in H1'. rewrite H1'. cbn [mbind run_bind]. rewrite include_wanted. fold ds. by rewrite H2'.
  - split; [by intros (m1 & ? & ?)%bind_Ret|by intros (cs & ? & _)].
Qed.

Lemma pool_loop_contributions ctx m ps m' :
  pool_loop ctx m ps = Ret (Ok m') <->
  exists css, Forall2 (fun p cs => contributions ctx p = Ret (Ok cs)) ps css /\ include_all ctx m (concat css) = Ret m'.
Proof.
  revert m. induction ps as [|p ps IH]; intros m; cbn [pool_loop].
  - split; [intros E; apply Ret_inj in E; injection E as <-; by exists []|].
    intros (css & Hc & E). apply Forall2_nil_inv_l in Hc as ->. cbn in E. by apply Ret_inj in E as <-.
  - split.
    + intros (m1 & H1' & Hl)%rbind_Ret. apply pool_turn_contributions in H1' as (cs & Hc & Hi).
      apply IH in Hl as (css & Hcs & His). exists (cs :: css). split; [by constructor|].
      change (concat (cs :: css)) with (cs ++ concat css). by rewrite include_all_app, Hi.
    + intros (css & Hc & E). apply Forall2_cons_inv_l in Hc as (cs & css' & Hc & Hcs & ->).
      change (concat (cs :: css')) with (cs ++ concat css') in E. rewrite include_all_app in E. apply bind_Ret in E as (m1 & Hi & E).
      rewrite (proj2 (pool_turn_contributions ctx m p m1)) by eauto. cbn [rbind]. apply IH. eauto.
Qed.

(** *** Order

    Contributions with different labels can be included in any order. *)

(** The entry of an account after a contribution. *)
Definition included (ctx : RewardsContext.t) (prev : option Reward.t) (c : Contribution) : run Reward.t :=
  new ← Reward.new ctx (c_account c) (c_value c) (c_pool c) (c_leader c);
  match prev with Some prev => Reward.merge prev new | None => Ret new end.

Lemma include_one_spec ctx m c :
  include_one ctx m c = (r ← included ctx (RewardMap.pending m !! c_account c) c;
    Ret (m <| RewardMap.pending := <[c_account c := r]> (RewardMap.pending m) |>)).
Proof. unfold include_one, RewardMap.include, included. by destruct (Reward.new _ _ _ _ _). Qed.

(** The better of two pre-Allegra rewards: a leader's, then the first pool's. *)
Definition preferred (r o : PreAllegraReward.t) : bool :=
  match PreAllegraReward.as_leader r, PreAllegraReward.as_leader o with
  | true, false => true
  | false, true => false
  | _, _ => bytes_le (PreAllegraReward.pool r) (PreAllegraReward.pool o)
  end.

Lemma merge_preferred r o : PreAllegraReward.merge r o = if preferred r o then r else o.
Proof. unfold PreAllegraReward.merge, preferred. by destruct (PreAllegraReward.as_leader r), (PreAllegraReward.as_leader o). Qed.

Lemma preferred_trans a b c : preferred a b = true -> preferred b c = true -> preferred a c = true.
Proof.
  unfold preferred. destruct (PreAllegraReward.as_leader a), (PreAllegraReward.as_leader b), (PreAllegraReward.as_leader c);
    try done; apply bytes_le_trans.
Qed.

Lemma preferred_total a b : preferred a b = false -> preferred b a = true.
Proof.
  unfold preferred. destruct (PreAllegraReward.as_leader a), (PreAllegraReward.as_leader b); try done;
    intros E; destruct (bytes_le_total (PreAllegraReward.pool a) (PreAllegraReward.pool b)); congruence.
Qed.

Lemma preferred_antisym a b : preferred a b = true -> preferred b a = true ->
  (PreAllegraReward.pool a, PreAllegraReward.as_leader a) = (PreAllegraReward.pool b, PreAllegraReward.as_leader b).
Proof.
  unfold preferred. destruct (PreAllegraReward.as_leader a), (PreAllegraReward.as_leader b); try done;
    intros [E|E]%bytes_le_spec [E'|E']%bytes_le_spec; try congruence; rewrite bytes_cmp_antisym, E in E'; done.
Qed.

Lemma pre_allegra_swap r x y :
  (PreAllegraReward.pool x, PreAllegraReward.as_leader x) ≠ (PreAllegraReward.pool y, PreAllegraReward.as_leader y) ->
  PreAllegraReward.merge (PreAllegraReward.merge r x) y = PreAllegraReward.merge (PreAllegraReward.merge r y) x.
Proof.
  intros Hn. rewrite !merge_preferred. destruct (preferred r x) eqn:Hx, (preferred r y) eqn:Hy.
  - by rewrite ?Hx, ?Hy.
  - rewrite ?Hy. apply preferred_total in Hy. by rewrite (preferred_trans y r x).
  - rewrite ?Hx. apply preferred_total in Hx. by rewrite (preferred_trans x r y).
  - destruct (preferred x y) eqn:Hxy, (preferred y x) eqn:Hyx; try done.
    + by destruct Hn; apply preferred_antisym.
    + apply preferred_total in Hxy. congruence.
Qed.

Lemma pre_allegra_comm x y :
  (PreAllegraReward.pool x, PreAllegraReward.as_leader x) ≠ (PreAllegraReward.pool y, PreAllegraReward.as_leader y) ->
  PreAllegraReward.merge x y = PreAllegraReward.merge y x.
Proof.
  intros Hn. rewrite !merge_preferred. destruct (preferred x y) eqn:Hxy, (preferred y x) eqn:Hyx; try done.
  - by destruct Hn; apply preferred_antisym.
  - apply preferred_total in Hxy. congruence.
Qed.

Lemma multi_merge_spec r o q :
  MultiPoolReward.merge r o = Ret q <->
  (strict = true -> MultiPoolReward.is_spendable r = MultiPoolReward.is_spendable o) /\
  q = MultiPoolReward.mk (MultiPoolReward.is_spendable r) (MultiPoolReward.as_leader o ∪ MultiPoolReward.as_leader r)
        (MultiPoolReward.as_delegator o ∪ MultiPoolReward.as_delegator r).
Proof.
  unfold MultiPoolReward.merge. destruct strict; cbn; [case_bool_decide; cbn|]; split.
  - intros E. by apply Ret_inj in E as <-.
  - by intros [_ ->].
  - done.
  - intros [E _]. by destruct (E eq_refl).
  - intros E. by apply Ret_inj in E as <-.
  - by intros [_ ->].
Qed.

Lemma included_swap ctx prev x y r r' :
  c_account x = c_account y -> (c_pool x, c_leader x) ≠ (c_pool y, c_leader y) ->
  included ctx prev x = Ret r -> included ctx (Some r) y = Ret r' ->
  exists q, included ctx prev y = Ret q /\ included ctx (Some q) x = Ret r'.
Proof.
  intros Ha Hn. unfold included, Reward.new. rewrite Ha. destruct (RewardsContext.pre_allegra ctx) as [b|]; [|done]. cbn.
  set (reg := RewardsContext.is_account_registered ctx (c_account y)).
  destruct b.
  - assert (Hl : forall c, PreAllegraReward.pool (PreAllegraReward.mk reg (c_leader c) (c_pool c) (c_value c)) = c_pool c /\
      PreAllegraReward.as_leader (PreAllegraReward.mk reg (c_leader c) (c_pool c) (c_value c)) = c_leader c) by done.
    destruct prev as [[?|prev]|]; cbn; [done| |]; intros E1 E2; apply Ret_inj in E1 as <-; apply Ret_inj in E2 as <-;
      eexists; (split; [done|]); cbn; do 2 f_equal; [by apply pre_allegra_swap|by apply pre_allegra_comm].
  - set (lead := fun c => if c_leader c then {[c_pool c := c_value c]} else ∅ : gmap PoolHash Z).
    set (member := fun c => if c_leader c then ∅ else {[c_pool c := c_value c]} : gmap PoolHash Z).
    assert (Hnew : forall c, (if c_leader c then Reward.MultiPool (MultiPoolReward.mk reg {[c_pool c := c_value c]} ∅)
        else Reward.MultiPool (MultiPoolReward.mk reg ∅ {[c_pool c := c_value c]})) =
      Reward.MultiPool (MultiPoolReward.mk reg (lead c) (member c))).
    { intros c. unfold lead, member. by destruct (c_leader c). }
    rewrite !Hnew. clear Hnew.
    assert (Hd : lead y ∪ lead x = lead x ∪ lead y /\ member y ∪ member x = member x ∪ member y).
    { unfold lead, member. destruct (c_leader x), (c_leader y); rewrite ?(left_id_L ∅ (∪)), ?(right_id_L ∅ (∪)); split; try done;
        apply map_union_comm, map_disjoint_singleton_l_2; rewrite lookup_singleton_ne; congruence. }
    destruct Hd as [Hl Hm]. destruct prev as [[prev|?]|]; cbn; [|done|]; intros E1 E2.
    + apply bind_Ret in E1 as (r1 & [Hs1 ->]%multi_merge_spec & E1). apply Ret_inj in E1 as <-.
      apply bind_Ret in E2 as (r2 & [_ ->]%multi_merge_spec & E2). apply Ret_inj in E2 as <-. cbn in Hs1 |- *.
      eexists. rewrite (proj2 (multi_merge_spec prev (MultiPoolReward.mk reg (lead y) (member y)) _)) by done. split; [done|]. cbn.
      rewrite (proj2 (multi_merge_spec _ _ _)) by done. cbn. by rewrite !(assoc_L (∪)), Hl, Hm.
    + apply Ret_inj in E1 as <-. apply bind_Ret in E2 as (r2 & [_ ->]%multi_merge_spec & E2). apply Ret_inj in E2 as <-.
      eexists. split; [done|]. cbn. rewrite (proj2 (multi_merge_spec _ _ _)) by done. cbn. by rewrite Hl, Hm.
Qed.

Lemma include_swap ctx m x y m' :
  label x ≠ label y -> include_all ctx m [x; y] = Ret m' -> include_all ctx m [y; x] = Ret m'.
Proof.
  unfold include_all. cbn. rewrite !include_one_spec. intros Hn E.
  apply bind_Ret in E as (m1 & E1 & E). apply bind_Ret in E1 as (r & Hr & E1). apply Ret_inj in E1 as <-.
  apply bind_Ret in E as (m2 & E2 & E). apply Ret_inj in E as <-. rewrite include_one_spec in E2.
  apply bind_Ret in E2 as (r' & Hr' & E2). apply Ret_inj in E2 as <-. cbn in Hr'.
  destruct (decide (c_account x = c_account y)) as [Ha|Ha].
  - rewrite Ha, lookup_insert_eq in Hr'. rewrite Ha in Hr. unfold label in Hn.
    destruct (included_swap ctx _ x y r r' Ha ltac:(congruence) Hr Hr') as (q & Hq & Hq'). rewrite Hq. cbn.
    rewrite include_one_spec. cbn. rewrite Ha, lookup_insert_eq, Hq'. cbn. by rewrite !insert_insert_eq.
  - rewrite lookup_insert_ne in Hr' by done. rewrite Hr'. cbn. rewrite include_one_spec. cbn.
    rewrite lookup_insert_ne, Hr by done. cbn. by rewrite insert_insert_ne.
Qed.

Lemma include_all_perm ctx l l' m m' :
  l ≡ₚ l' -> NoDup (label <$> l) -> include_all ctx m l = Ret m' -> include_all ctx m l' = Ret m'.
Proof.
  intros Hp. revert m m'. induction Hp as [|x l l' _ IH|x y l|l1 l2 l3 H1' IH1 H2' IH2]; intros m m' Hn E; [done| | |].
  - cbn in Hn. apply NoDup_cons in Hn as [_ Hn]. unfold include_all in *. cbn in *. apply bind_Ret in E as (m1 & -> & E). cbn. eauto.
  - change (y :: x :: l) with ([y; x] ++ l) in E. change (x :: y :: l) with ([x; y] ++ l). rewrite include_all_app in E |- *.
    apply bind_Ret in E as (m1 & E1 & E). rewrite (include_swap ctx m y x m1); [done| |done].
    cbn in Hn. apply NoDup_cons in Hn as [Hn _]. intros Hl. apply Hn. rewrite Hl. left.
  - apply IH2; [by rewrite <- H1'|]. by apply IH1.
Qed.

End contributions.

(** ** Sharding *)

(** What a shard that owns the credentials [P] sees of the whole epoch: the
    same globals, the registration and the stake of its own accounts, its own
    delegators, and [P] as its filter.  Pools and delegators come out of hash
    maps, in any order. *)
Record shard_view (P : StakeCredential -> bool) (g s : RewardsContext.t) : Prop := {
  sv_incentives : RewardsContext.incentives s = RewardsContext.incentives g;
  sv_pots : RewardsContext.pots s = RewardsContext.pots g;
  sv_pre_allegra : RewardsContext.pre_allegra s = RewardsContext.pre_allegra g;
  sv_active_stake : RewardsContext.active_stake s = RewardsContext.active_stake g;
  sv_epoch_blocks : RewardsContext.epoch_blocks s = RewardsContext.epoch_blocks g;
  sv_pool_blocks : forall p, RewardsContext.pool_blocks s p = RewardsContext.pool_blocks g p;
  sv_pool_stake : forall p, RewardsContext.pool_stake s p = RewardsContext.pool_stake g p;
  sv_account_stake : forall p a, P a = true ->
    RewardsContext.account_stake s p a = RewardsContext.account_stake g p a;
  sv_registered : forall a, P a = true ->
    RewardsContext.is_account_registered s a = RewardsContext.is_account_registered g a;
  sv_pools : RewardsContext.iter_all_pools s ≡ₚ RewardsContext.iter_all_pools g;
  sv_params : forall p, RewardsContext.pool_params s p = RewardsContext.pool_params g p;
  sv_delegators : forall p, RewardsContext.pool_delegators s p ≡ₚ List.filter P (RewardsContext.pool_delegators g p);
  sv_pparams : RewardsContext.pparams s = RewardsContext.pparams g;
  sv_live_pledge : forall p owners, RewardsContext.live_pledge s p owners = RewardsContext.live_pledge g p owners;
  sv_include : forall a, RewardsContext.should_include s a = P a;
  sv_whole : forall a, RewardsContext.should_include g a = true;
}.

(** A context whose hash maps list every pool and every delegator once. *)
Record listed_once (g : RewardsContext.t) : Prop := {
  lo_pools : NoDup (RewardsContext.iter_all_pools g);
  lo_delegators : forall p, NoDup (RewardsContext.pool_delegators g p);
}.

(** The part of a reward map that belongs to the credentials [P]. *)
Definition restrict (P : StakeCredential -> bool) (m : RewardMap.t) : RewardMap.t :=
  m <| RewardMap.pending := filter (fun x => P (fst x) = true) (RewardMap.pending m) |>.

Section sharding.
Context `{BuildCfg, Addresses} (P : StakeCredential -> bool) (g s : RewardsContext.t).
Context (V : shard_view P g s).

Lemma include_restrict m m' c :
  include_one g m c = Ret m' ->
  (if P (c_account c) then include_one s (restrict P m) c else Ret (restrict P m)) = Ret (restrict P m').
Proof.
  rewrite !include_one_spec. intros (r & Hr & E)%bind_Ret. apply Ret_inj in E as <-. destruct m as [i pend x y z]. cbn in *.
  destruct (P (c_account c)) eqn:Ep.
  - assert (El : filter (fun x => P (fst x) = true) pend !! c_account c = pend !! c_account c).
    { destruct (pend !! c_account c) as [w|] eqn:Ea; [by apply map_lookup_filter_Some_2|].
      by apply map_lookup_filter_None_2; left. }
    assert (Hs : included s (pend !! c_account c) c = included g (pend !! c_account c) c).
    { unfold included, Reward.new. by rewrite (sv_pre_allegra _ _ _ V), (sv_registered _ _ _ V). }
    cbn. rewrite El, Hs, Hr. cbn. unfold restrict. cbn. by rewrite map_filter_insert_True.
  - unfold restrict. cbn. rewrite map_filter_insert_not; [done|]. cbn. congruence.
Qed.

Lemma include_all_restrict cs m m' :
  include_all g m cs = Ret m' ->
  include_all s (restrict P m) (List.filter (fun c => P (c_account c)) cs) = Ret (restrict P m').
Proof.
  unfold include_all. revert m. induction cs as [|c cs IH]; intros m E; cbn in *; [by apply Ret_inj in E as <-|].
  apply bind_Ret in E as (m1 & H1' & E). apply include_restrict in H1'. destruct (P (c_account c)); cbn.
  - rewrite H1'. cbn. by apply IH.
  - apply Ret_inj in H1' as ->. by apply IH.
Qed.

(** The contributions a shard computes are its own of those of the epoch. *)
Lemma contributions_restrict p cs :
  contributions g p = Ret (Ok cs) ->
  exists cs', contributions s p = Ret (Ok cs') /\ cs' ≡ₚ List.filter (fun c => P (c_account c)) cs.
Proof.
  unfold contributions. rewrite (sv_params _ _ _ V). destruct (RewardsContext.pool_params g p) as [pp|]; [|done]. cbn.
  destruct (parse_reward_account _) as [parsed|]; [|done]. cbn.
  destruct (expect parsed) as [operator|]; [|done]. cbn. rewrite (sv_live_pledge _ _ _ V).
  destruct (RewardsContext.live_pledge g p _) as [pledge|]; [|done]. cbn.
  rewrite (sv_pots _ _ _ V). destruct (Pots.circulating _) as [supply|]; [|done]. cbn.
  rewrite (sv_pool_blocks _ _ _ V). destruct (RewardsContext.pool_blocks g p) as [blocks|]; [|done]. cbn.
  destruct (blocks =? 0); [intros E; apply Ret_inj in E; injection E as <-; by exists []|].
  rewrite (sv_pparams _ _ _ V). destruct (RewardsContext.pparams g) as [ps|]; [|done]. cbn.
  destruct (ensured (PParamsSet.ensure_k ps)) as [[k|]|]; [|done..]. cbn.
  destruct (ensured (PParamsSet.ensure_a0 ps)) as [[a0|]|]; [|done..]. cbn.
  destruct (ensured (PParamsSet.ensure_d ps)) as [[d|]|]; [|done..]. cbn.
  destruct (pallas_ratio a0) as [qa|]; [|done]. destruct (pallas_ratio d) as [qd|]; [|done]. cbn.
  rewrite (sv_incentives _ _ _ V), (sv_active_stake _ _ _ V), (sv_pool_stake _ _ _ V), (sv_epoch_blocks _ _ _ V).
  destruct (pool_rewards _ _ _ _ _ _ _ _ _ _ _) as [total|]; [|done]. cbn.
  destruct (pallas_ratio (PoolParams.margin pp)) as [margin|]; [|done]. cbn.
  destruct (pool_operator_share _ _ _ _ _ _) as [share|]; [|done]. cbn.
  destruct (PParamsSet.protocol_major ps) as [major|]; [|done]. cbn.
  destruct (run_filter_map _ (RewardsContext.pool_delegators g p)) as [rs|] eqn:Er; [|done]. cbn. intros E.
  apply Ret_inj in E. injection E as <-.
  assert (Ed : run_filter_map (delegator_entry s p total (RewardsContext.pool_stake g p) supply (PoolParams.cost pp)
      margin (keyhash_to_stake_cred <$> PoolParams.pool_owners pp) (7 <=? default 0 major))
      (List.filter P (RewardsContext.pool_delegators g p)) = Ret (List.filter (fun x => P (fst x)) rs)).
  { eapply run_filter_map_filter; [| |exact Er].
    - intros a _ Ha. unfold delegator_entry. by rewrite (sv_registered _ _ _ V), (sv_account_stake _ _ _ V).
    - intros a y _. unfold delegator_entry. destruct (bool_decide _); [done|]. destruct (_ && _); [done|].
      destruct (delegator_reward _ _ _ _ _ _); [|done]. cbn. by intros [= <-]. }
  destruct (run_filter_map_perm _ _ _ _ (symmetry (sv_delegators _ _ _ V p)) Ed) as (rs' & Hrs' & Hp).
  rewrite Hrs'. cbn. eexists. split; [done|]. unfold wanted. rewrite !List.filter_app. apply Permutation_app.
  - destruct (P operator) eqn:Eo.
    + rewrite (sv_registered _ _ _ V) by done. destruct (_ || _); [|done]. cbn.
      rewrite (sv_include _ _ _ V), (sv_whole _ _ _ V), Eo. cbn. by rewrite Eo.
    + assert (forall b, List.filter (fun c => RewardsContext.should_include s (c_account c))
        (if b : bool then [mkContribution operator share p true] else []) = []) as ->.
      { intros []; [|done]. cbn. by rewrite (sv_include _ _ _ V), Eo. }
      destruct (_ || _); [|done]. cbn. rewrite (sv_whole _ _ _ V). cbn. by rewrite Eo.
  - rewrite <- Hp. clear -V. induction rs as [|[a v] rs IH]; [done|]. cbn. rewrite (sv_whole _ _ _ V). cbn.
    destruct (P a) eqn:Ea; cbn; [|exact IH]. rewrite (sv_include _ _ _ V), Ea. by constructor.
Qed.

Lemma contributions_perm ps ps' css :
  ps ≡ₚ ps' -> Forall2 (fun p cs => contributions g p = Ret (Ok cs)) ps css ->
  exists css', Forall2 (fun p cs => contributions s p = Ret (Ok cs)) ps' css' /\
    concat css' ≡ₚ List.filter (fun c => P (c_account c)) (concat css).
Proof.
  intros Hp Hc. assert (exists css1, Forall2 (fun p cs => contributions g p = Ret (Ok cs)) ps' css1 /\ concat css1 ≡ₚ concat css)
    as (css1 & Hc1 & Hp1).
  { revert css Hc. induction Hp as [|x l l' _ IH|x y l|l1 l2 l3 _ IH1 _ IH2]; intros css Hc.
    - eauto.
    - apply Forall2_cons_inv_l in Hc as (c & cs & ? & Hc & ->). destruct (IH _ Hc) as (cs' & ? & Hp). exists (c :: cs').
      split; [by constructor|]. cbn. by rewrite Hp.
    - apply Forall2_cons_inv_l in Hc as (c & cs & ? & Hc & ->). apply Forall2_cons_inv_l in Hc as (c' & cs' & ? & Hc & ->).
      exists (c' :: c :: cs'). split; [by repeat constructor|]. cbn. rewrite !app_assoc. by rewrite (Permutation_app_comm c c').
    - destruct (IH1 _ Hc) as (cs2 & Hc2 & Hp2). destruct (IH2 _ Hc2) as (cs3 & Hc3 & Hp3). exists cs3. split; [done|].
      by rewrite Hp3. }
  setoid_rewrite <- (bool_filter_perm _ _ _ Hp1). clear Hp Hc Hp1.
  induction Hc1 as [|p c ps1 cs Hpc _ IH]; [by exists []|]. destruct IH as (cs' & Hcs' & Hp').
  destruct (contributions_restrict p c Hpc) as (c' & Hc' & Hpc'). exists (c' :: cs'). split; [by constructor|]. cbn.
  rewrite List.filter_app. by rewrite Hpc', Hp'.
Qed.

(** The labels of the contributions of an epoch. *)
Lemma contributions_label p cs :
  contributions g p = Ret (Ok cs) -> NoDup (RewardsContext.pool_delegators g p) ->
  NoDup (label <$> cs) /\ Forall (fun c => c_pool c = p) cs.
Proof.
  unfold contributions. intros E Hn. repeat (apply bind_Ret in E as (? & _ & E)).
  destruct (_ =? 0); [apply Ret_inj in E; injection E as <-; split; constructor|].
  apply bind_Ret in E as (ps & _ & E). repeat (apply rbind_Ret in E as (? & _ & E)).
  do 5 (apply bind_Ret in E as (? & _ & E)). apply bind_Ret in E as (? & _ & E). apply bind_Ret in E as (rs & Hrs & E).
  apply Ret_inj in E. injection E as <-. set (ops := if _ || _ then _ else _).
  assert (Hops : exists a, (label <$> ops) `sublist_of` [(a, (p, true))] /\ Forall (fun c => c_pool c = p) ops).
  { unfold ops. eexists. destruct (_ || _); cbn; split; repeat constructor. }
  apply (run_filter_map_sublist _ fst) in Hrs.
  2: { intros a [b v]. unfold delegator_entry. destruct (bool_decide _); [done|]. destruct (_ && _); [done|].
       destruct (delegator_reward _ _ _ _ _ _); [|done]. cbn. by intros [= ->]. }
  set (ds := (fun x => mkContribution (fst x) (snd x) p false) <$> rs).
  assert (Hds : NoDup (label <$> ds) /\ Forall (fun c => c_pool c = p /\ c_leader c = false) ds).
  { split; [|apply Forall_fmap, Forall_true; done]. 
    replace (label <$> ds) with ((fun a => (a, (p, false))) <$> rs.*1) by (unfold ds; by rewrite <- !list_fmap_compose).
    apply NoDup_fmap_2; [by intros ?? [= ->]|].
    by eapply sublist_NoDup. }
  destruct Hops as (op & Ho & Fo). destruct Hds as [Hd Fd].
  assert (Hall : NoDup (label <$> ops ++ ds) /\ Forall (fun c => c_pool c = p) (ops ++ ds)).
  { split.
    - rewrite fmap_app. apply NoDup_app. split; [exact (sublist_NoDup _ _ (NoDup_singleton _) Ho)|]. split; [|done].
      intros l Hl Hl'. apply (sublist_subseteq _ _ Ho), list_elem_of_singleton in Hl as ->.
      apply list_elem_of_fmap in Hl' as (c & E & Hc). rewrite Forall_forall in Fd. destruct (Fd c Hc) as [_ Hlead].
      unfold label in E. rewrite Hlead in E. congruence.
    - apply Forall_app. split; [done|]. eapply Forall_impl; [done|]. by intros ? [? _]. }
  destruct Hall as [Hl Hf]. unfold wanted. split.
  - eapply sublist_NoDup; [done|]. apply fmap_sublist, bool_filter_sublist.
  - rewrite Forall_forall in Hf |- *. intros c Hc. apply Hf. revert Hc. apply sublist_subseteq, bool_filter_sublist.
Qed.

Lemma contributions_labels (once : listed_once g) ps css :
  NoDup ps -> Forall2 (fun p cs => contributions g p = Ret (Ok cs)) ps css -> NoDup (label <$> concat css).
Proof.
  intros Hn Hc. induction Hc as [|p cs ps css Hp Hc IH]; [constructor|]. cbn. apply NoDup_cons in Hn as [Hni Hn].
  destruct (contributions_label p cs Hp (lo_delegators _ once p)) as [Hl Hf]. rewrite fmap_app. apply NoDup_app.
  split; [done|]. split; [|by apply IH]. intros l Hl1 Hl2. apply list_elem_of_fmap in Hl1 as (c & -> & Hc1).
  apply list_elem_of_fmap in Hl2 as (c' & E & Hc2). rewrite Forall_forall in Hf. apply Hni. rewrite <- (Hf c Hc1).
  replace (c_pool c) with (c_pool c') by (unfold label in E; congruence).
  clear -Hc Hc2 once. induction Hc as [|p cs ps css Hp Hc IH]; cbn in Hc2; [by apply not_elem_of_nil in Hc2|].
  apply elem_of_app in Hc2 as [Hc2|Hc2]; [|right; by apply IH].
  destruct (contributions_label p cs Hp (lo_delegators _ once p)) as [_ Hf]. rewrite Forall_forall in Hf. rewrite (Hf _ Hc2). left.
Qed.

(** A shard computes exactly the rewards of its own credentials: whenever the unsharded run
    pays the epoch, the run of the shard returns the restriction of its map to the credentials of the
    shard, with the same incentives and counters, in whatever order the two runs visit the pools and
    the delegators. *)
Theorem shard_rewards_exact (once : listed_once g) (m : RewardMap.t) :
  define_rewards g = Ret (Ok m) -> define_rewards s = Ret (Ok (restrict P m)).
Proof.
  unfold define_rewards. rewrite (sv_incentives _ _ _ V). intros (css & Hc & Hi)%pool_loop_contributions.
  destruct (contributions_perm _ _ _ (symmetry (sv_pools _ _ _ V)) Hc) as (css' & Hc' & Hp).
  apply pool_loop_contributions. exists css'. split; [done|]. apply include_all_restrict in Hi.
  eapply include_all_perm; [symmetry; exact Hp| |exact Hi].
  eapply sublist_NoDup; [exact (contributions_labels once _ _ (lo_pools _ once) Hc)|].
  apply fmap_sublist, bool_filter_sublist.
Qed.

End sharding.

(** ** A concrete epoch

    One pool with an operator and two delegators, split in two shards. *)
Module RewardDemo.

Definition pool : PoolHash := replicate 28 9.
Definition cred (n : Z) : StakeCredential := AddrKeyhash (replicate 28 n).
(** Reward accounts that are the hash of a key. *)
Definition accounts : Addresses := {|
  address_from_bytes b := Some (AddressStake {| stake_network := Testnet; stake_payload := PayloadStake b |});
  address_from_str _ := None;
  byron_to_vec b := b;
  shelley_to_vec a := match shelley_payment a with PaymentKey h => h | PaymentScript h => h end;
  payment_to_vec p := match p with PaymentKey h => h | PaymentScript h => h end;
  stake_to_vec a := match stake_payload a with PayloadStake h => h | PayloadScript h => h end;
|}.

Definition params : PoolParams.t :=
  PoolParams.mk [] 100 10 {| numerator := 1; denominator := 10 |} (replicate 28 1) [replicate 28 1] [] None.

Definition epoch_pparams : PParamsSet.t := PParamsSet.mk
  [PParamValue.ProtocolVersion (8, 0); PParamValue.DesiredNumberOfStakePools 2;
   PParamValue.PoolPledgeInfluence {| numerator := 1; denominator := 2 |};
   PParamValue.DecentralizationConstant {| numerator := 0; denominator := 1 |}].

Definition stake (c : StakeCredential) : Z :=
  if decide (c = cred 1) then 100 else if decide (c = cred 2) then 300 else 600.

Definition epoch_pots : Pots.t := Pots.default_ <| Pots.utxos := 2000 |>.

Definition view (P : StakeCredential -> bool) : RewardsContext.t :=
  RewardsContext.mk (EpochIncentives.mk 5000 1000 4000 0) epoch_pots (Ret false) 1000 1
    (fun _ => Ret 1) (fun _ => 1000) (fun _ a => stake a) (fun _ => true) [pool] (fun _ => Ret params)
    (fun _ => List.filter P [cred 1; cred 2; cred 3]) (Ret epoch_pparams) (fun _ _ => Ret 100) P.

Definition low (c : StakeCredential) : bool := bool_decide (c = cred 1 \/ c = cred 2).

Definition whole : RewardMap.t :=
  match define_rewards (H := cfg_debug) (H0 := accounts) (view (fun _ => true)) with
  | Ret (Ok m) => m
  | _ => RewardMap.default_
  end.

Lemma shard_rewards_exact_witness :
  size (RewardMap.pending whole) = 3%nat /\
  define_rewards (H := cfg_debug) (H0 := accounts) (view low) = Ret (Ok (restrict low whole)).
Proof.
  split; [by vm_compute|].
  apply (shard_rewards_exact (H := cfg_debug) (H0 := accounts) low (view (fun _ => true)) (view low)).
  - constructor; try reflexivity; intros; reflexivity.
  - constructor; [apply NoDup_singleton|]. intros p. apply (bool_decide_unpack _). vm_compute. reflexivity.
  - vm_compute. reflexivity.
Defined.

End RewardDemo.
