(* ===== verification/Wal.v ===== *)
(** * The write-ahead log (redb3/src/wal/mod.rs, core/src/wal.rs)

    The log keeps one row per block, keyed by the encoding of its chain point.
    The table is a [redb] table, reached through the interface [RedbTable]
    that states what its documentation promises: rows in key order, range
    scans, insertion, removal. *)

From stdpp Require Import sorting.
From S2P Require Import Prelude Types ChainPoint EntityDelta StateStore.
Open Scope Z_scope.

(** ** The table *)

Inductive Bound := Included (k : bytes) | Excluded (k : bytes) | Unbounded.

Definition in_range (lo hi : Bound) (k : bytes) : bool :=
  match lo with
  | Included a => bytes_le a k | Excluded a => bytes_lt a k | Unbounded => true
  end &&
  match hi with
  | Included b => bytes_le k b | Excluded b => bytes_lt k b | Unbounded => true
  end.

Definition key_lt (a b : bytes) : Prop := bytes_cmp a b = Lt.

Class RedbTable (T V : Type) := {
  get : T -> bytes -> option V;
  range : T -> Bound -> Bound -> list (bytes * V);
  insert_row : T -> bytes -> V -> T;
  extract_from_if : T -> Bound -> Bound -> (bytes -> bool) -> T;
  remove_row : T -> bytes -> T;
  (* the contract *)
  rows : T -> list (bytes * V);
  rows_sorted : forall t, StronglySorted key_lt (rows t).*1;
  get_spec : forall t k v, get t k = Some v <-> (k, v) ∈ rows t;
  range_spec : forall t lo hi, range t lo hi = filter (fun r => in_range lo hi r.1) (rows t);
  insert_row_spec : forall t k v k' v',
    (k', v') ∈ rows (insert_row t k v) <->
    (k' = k /\ v' = v) \/ (k' ≠ k /\ (k', v') ∈ rows t);
  extract_spec : forall t lo hi p,
    rows (extract_from_if t lo hi p) =
    filter (fun r => negb (in_range lo hi r.1 && p r.1)) (rows t);
  remove_row_spec : forall t k, rows (remove_row t k) = filter (fun r => r.1 ≠ k) (rows t);
}.
#[global] Hint Mode RedbTable ! - : typeclass_instances.

(** ** Log rows *)

Module LogValue.

Record t (D : Type) := mk {
  block : bytes;
  delta : list D;
  inputs : UtxoMap;
}.
Arguments mk {D} block delta inputs.
Arguments block {D} _.
Arguments delta {D} _.
Arguments inputs {D} _.

Definition origin {D} : t D := mk [] [] ∅.

End LogValue.

Module Wal.

(** A delta type the log can serialize: reading a row back loses the fields
    the serialization skips. *)
Class WalDelta (D : Type) := wal_decode : D -> D.

Definition min_bound (slot : BlockSlot) : bytes := to_be_bytes 8 slot ++ replicate 32 0.
Definition max_bound (slot : BlockSlot) : bytes := to_be_bytes 8 slot ++ replicate 32 255.

(** The inclusive slot ranges [locate_point] searches. *)
Definition slot_range (first last : BlockSlot) : Bound * Bound :=
  (Included (min_bound first), Included (max_bound last)).

Definition CURRENT_WAL_VERSION : Z := 1.

Inductive WalError :=
| IncompatibleVersion (found expected : Z)
| PointNotFound (p : ChainPoint.t).

Section ops.
Context {T D : Type} `{!RedbTable T (LogValue.t D), !WalDelta D}.

(** [from_raw_log_value] after [to_raw_log_value]. *)
Definition reread (v : LogValue.t D) : LogValue.t D :=
  LogValue.mk (LogValue.block v) (wal_decode <$> LogValue.delta v) (LogValue.inputs v).

Definition entry (r : bytes * LogValue.t D) : ChainPoint.t * LogValue.t D :=
  (ChainPoint.from_bytes r.1, reread r.2).

Definition iter_logs (t : T) (start end_ : option ChainPoint.t) : list (ChainPoint.t * LogValue.t D) :=
  let lo := match start with Some p => Included (ChainPoint.into_bytes p) | None => Unbounded end in
  let hi := match end_ with Some p => Included (ChainPoint.into_bytes p) | None => Unbounded end in
  entry <$> range t lo hi.

Definition read_entry (t : T) (p : ChainPoint.t) : option (LogValue.t D) :=
  reread <$> get t (ChainPoint.into_bytes p).

Definition append_entries (t : T) (logs : list (ChainPoint.t * LogValue.t D)) : T :=
  foldl (fun t l => insert_row t (ChainPoint.into_bytes l.1) l.2) t logs.

Definition remove_entries (t : T) (after : ChainPoint.t) : T :=
  let after := ChainPoint.into_bytes after in
  extract_from_if t (Included after) Unbounded (fun current => bytes_lt after current).

Definition truncate_front (t : T) (after : ChainPoint.t) : T := remove_entries t after.

Definition reset_to (t : T) (p : ChainPoint.t) : T :=
  append_entries (remove_entries t ChainPoint.Origin) [(p, LogValue.origin)].

Definition remove_before (t : T) (slot : BlockSlot) : T :=
  extract_from_if t Unbounded (Excluded (min_bound slot)) (fun _ => true).

Definition iter_all (t : T) := iter_logs t None None.
Definition find_start (t : T) := head (iter_all t).
Definition find_tip (t : T) := last (iter_all t).

Definition contains_point (t : T) (p : ChainPoint.t) : bool :=
  match read_entry t p with Some _ => true | None => false end.

Definition assert_point (t : T) (p : ChainPoint.t) : result WalError unit :=
  if contains_point t p then Ok tt else Err (PointNotFound p).

Definition find_intersect (t : T) (points : list ChainPoint.t) :
    option (ChainPoint.t * LogValue.t D) :=
  head (omap (fun c => (fun e => (c, e)) <$> read_entry t c) points).

Definition prune_history `{BuildCfg} (t : T) (max_slots : Z) (max_prune : option Z) :
    run (T * bool) :=
  match find_start t with
  | None => Ret (t, true)
  | Some (start, _) =>
      match find_tip t with
      | None => Ret (t, true)
      | Some (last, _) =>
          let start_slot := ChainPoint.slot start in
          let last_slot := ChainPoint.slot last in
          let delta := saturating_sub 64 last_slot start_slot in
          let excess := saturating_sub 64 delta max_slots in
          if excess =? 0 then Ret (t, true)
          else
            let (done, max_prune) :=
              match max_prune with
              | Some max => (excess <=? max, Z.min excess max)
              | None => (true, excess)
              end in
            prune_before ← uadd 64 start_slot max_prune;
            Ret (remove_before t prune_before, done)
      end
  end.

(** [min_by_key]: the first of the elements with the least key. *)
Fixpoint min_by_key {A} (f : A -> Z) (l : list A) : option A :=
  match l with
  | [] => None
  | a :: l' =>
      match min_by_key f l' with
      | Some b => if f b <? f a then Some b else Some a
      | None => Some a
      end
  end.

Definition approximate_slot (t : T) (target first last : BlockSlot) : option ChainPoint.t :=
  let (lo, hi) := slot_range first last in
  let points := (fun r => ChainPoint.from_bytes r.1) <$> range t lo hi in
  min_by_key (fun p => Z.abs (target - ChainPoint.slot p)) points.

(** The attempts [1..10] of [approximate_slot_with_retry], with the search of
    [locate_point]. *)
Fixpoint locate_attempts (t : T) (around : BlockSlot) (retries : list Z) : option ChainPoint.t :=
  match retries with
  | [] => None
  | i :: rest =>
      let delta := 20 * i in
      match approximate_slot t around (saturating_sub 64 around delta) (saturating_add 64 around delta) with
      | Some p => Some p
      | None => locate_attempts t around rest
      end
  end.

Definition locate_point (t : T) (around : BlockSlot) : option ChainPoint.t :=
  locate_attempts t around [1; 2; 3; 4; 5; 6; 7; 8; 9].

(** The loop of [intersect_candidates] over the rows from the tip backwards. *)
Fixpoint crawl (fuel : nat) (iter : list ChainPoint.t) (out : list ChainPoint.t) (max_items : nat) :
    list ChainPoint.t :=
  match fuel, iter with
  | S fuel', point :: iter' =>
      if negb (ChainPoint.is_fully_defined point) then crawl fuel' iter' out max_items
      else
        let out := out ++ [point] in
        if (max_items <=? length out)%nat then out
        else crawl fuel' (drop (2 ^ length out - 1) iter') out max_items
  | _, _ => out
  end.

Definition intersect_candidates (t : T) (max_items : nat) : list ChainPoint.t :=
  let points := reverse (iter_all t).*1 in
  crawl (length points) points [] max_items.

(** *** Versions *)

Record db := mk_db { wal : T; version : option Z }.

Definition data_table_is_empty (d : db) : bool :=
  match range (wal d) Unbounded Unbounded with [] => true | _ => false end.

Definition stamp_version (d : db) (v : Z) : db := mk_db (wal d) (Some v).

Definition wipe_and_stamp (d : db) (v : Z) : db :=
  mk_db (extract_from_if (wal d) Unbounded Unbounded (fun _ => true)) (Some v).

Definition ensure_version (d : db) : result WalError db :=
  match version d with
  | Some v =>
      if v =? CURRENT_WAL_VERSION then Ok d
      else if CURRENT_WAL_VERSION <? v then Err (IncompatibleVersion v CURRENT_WAL_VERSION)
      else if data_table_is_empty d then Ok (stamp_version d CURRENT_WAL_VERSION)
      else Ok (wipe_and_stamp d CURRENT_WAL_VERSION)
  | None =>
      if data_table_is_empty d then Ok (stamp_version d CURRENT_WAL_VERSION)
      else Ok (wipe_and_stamp d CURRENT_WAL_VERSION)
  end.

(** ** Lemmas *)

Lemma key_lt_irrefl k : ~ key_lt k k.
Proof. unfold key_lt. by rewrite bytes_cmp_refl. Qed.

Lemma key_lt_trans a b c : key_lt a b -> key_lt b c -> key_lt a c.
Proof. apply bytes_cmp_lt_trans. Qed.

Lemma bytes_lt_key a b : bytes_lt a b = true <-> key_lt a b.
Proof. unfold bytes_lt, key_lt. by destruct (bytes_cmp a b). Qed.

Lemma bytes_le_key a b : bytes_le a b = true <-> a = b \/ key_lt a b.
Proof. apply bytes_le_spec. Qed.

Definition row_lt {V} (a b : bytes * V) : Prop := key_lt a.1 b.1.

Lemma sorted_rows {V} (l : list (bytes * V)) :
  StronglySorted key_lt l.*1 <-> StronglySorted row_lt l.
Proof.
  induction l as [|r l IH]; cbn; [split; constructor|]. split; intros H.
  - apply StronglySorted_inv in H as [H1 H2]. constructor; [by apply IH|].
    by rewrite Forall_map in H2.
  - apply StronglySorted_inv in H as [H1 H2]. constructor; [by apply IH|].
    by rewrite Forall_map.
Qed.

Lemma sorted_NoDup {V} (l : list (bytes * V)) : StronglySorted row_lt l -> NoDup l.
Proof.
  induction 1 as [|r l Hs IH Hf]; constructor; [|done].
  rewrite Forall_forall in Hf. intros Hi. by apply (key_lt_irrefl r.1), Hf.
Qed.

(** Rows in key order are determined by their members. *)
Lemma sorted_ext {V} (l1 l2 : list (bytes * V)) :
  StronglySorted row_lt l1 -> StronglySorted row_lt l2 -> (forall r, r ∈ l1 <-> r ∈ l2) -> l1 = l2.
Proof.
  intros H1 H2 Hm. apply (StronglySorted_unique_strong row_lt); [|done|done|].
  - intros a b _ _ Hab Hba. destruct (key_lt_irrefl a.1). by apply (key_lt_trans _ b.1).
  - apply NoDup_Permutation; [by apply sorted_NoDup..|done].
Qed.

Lemma rows_row_sorted {U V} `{!RedbTable U V} (t : U) : StronglySorted row_lt (rows t).
Proof. apply sorted_rows, rows_sorted. Qed.

(** Inserting above every row appends. *)
Lemma rows_insert_last {U V} `{!RedbTable U V} (t : U) k v :
  (forall r, r ∈ rows t -> key_lt r.1 k) -> rows (insert_row t k v) = rows t ++ [(k, v)].
Proof.
  intros Hk. apply sorted_ext; [apply rows_row_sorted| |].
  - apply StronglySorted_app_2; [|apply rows_row_sorted|repeat constructor].
    intros x y Hx ->%list_elem_of_singleton. by apply Hk.
  - intros [k' v']. rewrite insert_row_spec, elem_of_app, list_elem_of_singleton. split.
    + intros [[-> ->]|[? ?]]; [by right|by left].
    + intros [Hi|[= -> ->]]; [|by left]. right. split; [|done].
      intros ->. by apply (key_lt_irrefl k), (Hk (k, v')).
Qed.

(** The key of a point, and of the row of an entry. *)
Definition row_of (l : ChainPoint.t * LogValue.t D) : bytes * LogValue.t D :=
  (ChainPoint.into_bytes l.1, l.2).

(** Appending entries above the tip and in order appends their rows. *)
Lemma rows_append (t : T) logs :
  StronglySorted row_lt (rows t ++ (row_of <$> logs)) ->
  rows (append_entries t logs) = rows t ++ (row_of <$> logs).
Proof.
  unfold append_entries. revert t; induction logs as [|l logs IH]; intros t Hs; cbn.
  - by rewrite app_nil_r.
  - assert (Hi : rows (insert_row t (ChainPoint.into_bytes l.1) l.2) = rows t ++ [row_of l]).
    { apply rows_insert_last. intros r Hr. rewrite fmap_cons in Hs.
      apply (StronglySorted_app_1_elem_of row_lt _ _ r (row_of l) Hs); [done|by left]. }
    specialize (IH (insert_row t (ChainPoint.into_bytes l.1) l.2)).
    rewrite Hi, <- app_assoc in IH. by apply IH.
Qed.

(** A range scan from a row of the log: that row and the ones after it. *)
Lemma filter_from {V} (l1 l2 : list (bytes * V)) r :
  StronglySorted row_lt (l1 ++ r :: l2) ->
  filter (fun x => in_range (Included r.1) Unbounded x.1) (l1 ++ r :: l2) = r :: l2.
Proof.
  intros Hs.
  assert (H1 : forall x, x ∈ l1 -> key_lt x.1 r.1).
  { intros x Hx. apply (StronglySorted_app_1_elem_of row_lt l1 (r :: l2) x r Hs); [done|by left]. }
  assert (H2 : forall x, x ∈ l2 -> key_lt r.1 x.1).
  { apply StronglySorted_app_1_r, StronglySorted_inv in Hs as [_ Hf].
    rewrite Forall_forall in Hf. exact Hf. }
  rewrite filter_app, filter_none, app_nil_l.
  - apply filter_all. intros x Hx. unfold in_range. rewrite andb_true_r.
    apply Is_true_true, bytes_le_key. apply elem_of_cons in Hx as [->|Hx]; [by left|].
    right. by apply H2.
  - intros x Hx. unfold in_range. rewrite andb_true_r, Is_true_true, bytes_le_key.
    apply H1 in Hx. intros [E|Hl].
    + rewrite E in Hx. by apply key_lt_irrefl in Hx.
    + by eapply key_lt_irrefl, key_lt_trans.
Qed.

(** Removing what is after a row of the log keeps that row and the ones before. *)
Lemma rows_truncate (t : T) l1 l2 p v :
  rows t = l1 ++ (ChainPoint.into_bytes p, v) :: l2 ->
  rows (truncate_front t p) = l1 ++ [(ChainPoint.into_bytes p, v)].
Proof.
  intros Hr. pose proof (rows_row_sorted t) as Hs. unfold truncate_front, remove_entries.
  rewrite extract_spec, Hr in *. set (k := ChainPoint.into_bytes p) in *.
  change (l1 ++ (k, v) :: l2) with (l1 ++ [(k, v)] ++ l2). rewrite app_assoc, filter_app.
  rewrite (filter_none _ l2), app_nil_r.
  - apply filter_all. intros x Hx. apply Is_true_true, negb_true_iff, andb_false_iff. right.
    apply not_true_iff_false. rewrite bytes_lt_key. intros Hk.
    apply elem_of_app in Hx as [Hx| ->%list_elem_of_singleton]; [|by apply key_lt_irrefl in Hk].
    apply (StronglySorted_app_1_elem_of row_lt l1 _ x (k, v)) in Hs; [|done|by left].
    by eapply key_lt_irrefl, key_lt_trans.
  - intros x Hx. apply StronglySorted_app_1_r, StronglySorted_inv in Hs as [_ Hf].
    rewrite Forall_forall in Hf. specialize (Hf x Hx). change (key_lt k x.1) in Hf. unfold in_range.
    rewrite (proj2 (bytes_lt_key _ _) Hf), (proj2 (bytes_le_key _ _) (or_intror Hf)). cbn. tauto.
Qed.

(** A scan from a row of the log. *)
Lemma iter_logs_from (t : T) l1 l2 p v :
  rows t = l1 ++ (ChainPoint.into_bytes p, v) :: l2 ->
  iter_logs t (Some p) None = entry <$> (ChainPoint.into_bytes p, v) :: l2.
Proof.
  intros Hr. unfold iter_logs. rewrite range_spec. f_equal.
  pose proof (rows_row_sorted t) as Hs. rewrite Hr in *.
  exact (filter_from l1 l2 (ChainPoint.into_bytes p, v) Hs).
Qed.
End ops.

End Wal.

(** ** A concrete table

    Rows in a finite map, listed in key order: an instance of the interface, on
    which the model can be evaluated. *)
Module MapTable.
Section table.
Context {V : Type}.

Definition rows (t : gmap bytes V) : list (bytes * V) := merge_sort fst_le (map_to_list t).

Lemma elem_of_rows t k v : (k, v) ∈ rows t <-> t !! k = Some v.
Proof. unfold rows. rewrite merge_sort_Permutation. apply elem_of_map_to_list. Qed.

Lemma rows_lt t : StronglySorted Wal.row_lt (rows t).
Proof.
  assert (Hs : StronglySorted fst_le (rows t)) by apply (StronglySorted_merge_sort fst_le).
  assert (Hn : NoDup (rows t).*1).
  { unfold rows. rewrite merge_sort_Permutation. apply NoDup_fst_map_to_list. }
  induction Hs as [|r l Hs IH Hf]; [constructor|]. cbn in Hn. apply NoDup_cons in Hn as [Hni Hn].
  constructor; [by apply IH|]. rewrite Forall_forall in *. intros x Hx.
  destruct (proj1 (Wal.bytes_le_key _ _) (Hf x Hx)) as [E|Hlt]; [|done].
  destruct Hni. rewrite E. by apply list_elem_of_fmap_2.
Qed.

Definition range (t : gmap bytes V) (lo hi : Bound) : list (bytes * V) :=
  filter (fun r => in_range lo hi r.1) (rows t).

Definition extract_from_if (t : gmap bytes V) (lo hi : Bound) (p : bytes -> bool) : gmap bytes V :=
  filter (fun kv => negb (in_range lo hi kv.1 && p kv.1)) t.

Lemma sorted_filter (P : bytes * V -> Prop) `{!forall x, Decision (P x)} l :
  StronglySorted Wal.row_lt l -> StronglySorted Wal.row_lt (filter P l).
Proof.
  induction 1 as [|r l Hs IH Hf]; [constructor|]. rewrite filter_cons. destruct (decide (P r)); [|done].
  constructor; [done|]. rewrite Forall_forall in *. intros x Hx. apply list_elem_of_filter in Hx as [_ Hx].
  by apply Hf.
Qed.

#[export] Program Instance table : RedbTable (gmap bytes V) V := {|
  Wal.get t k := t !! k;
  Wal.range := range;
  Wal.insert_row t k v := <[k := v]> t;
  Wal.extract_from_if := extract_from_if;
  Wal.remove_row t k := delete k t;
  Wal.rows := rows;
|}.
Next Obligation. intros t. apply Wal.sorted_rows, rows_lt. Qed.
Next Obligation. intros t k v. cbn. symmetry. apply elem_of_rows. Qed.
Next Obligation. done. Qed.
Next Obligation.
  intros t k v k' v'. cbn. rewrite !elem_of_rows, lookup_insert_Some. naive_solver.
Qed.
Next Obligation.
  intros t lo hi p. cbn. apply Wal.sorted_ext; [apply rows_lt|by apply sorted_filter, rows_lt|].
  intros [k v]. rewrite list_elem_of_filter, !elem_of_rows. unfold extract_from_if.
  rewrite map_lookup_filter_Some. naive_solver.
Qed.
Next Obligation.
  intros t k. cbn. apply Wal.sorted_ext; [apply rows_lt|by apply sorted_filter, rows_lt|].
  intros [k' v]. rewrite list_elem_of_filter, !elem_of_rows, lookup_delete_Some. cbn. naive_solver.
Qed.

End table.
End MapTable.
