(* ===== verification/Roll.v ===== *)
(** * Roll-forward and rollback (cardano/src/roll/{batch,work_unit}.rs,
    core/src/sync.rs)

    A batch of blocks is applied to the cached entities, logged in the WAL with
    the undo information its deltas recorded, and committed to the state store.
    A rollback replays the log backwards.  The main theorem: from any node
    reached by rolling forward and back, rolling back to a logged point restores the
    entities and the UTxO set as they were when that point was the tip. *)

From stdpp Require Import sorting.
From S2P Require Import Prelude Types ChainPoint EntityDelta StateStore Blocks Wal.
Open Scope Z_scope.

(** ** The contract of a delta type

    What the machinery relies on: [ok_for ns e] is what is stored under
    namespace [ns], [adm d e] is what the chain guarantees when [d] is applied. *)

Class SafeDelta (D E V : Type) `{!EntityDelta D E, !Wal.WalDelta D, !Codec E V} := {
  ok_for : string -> option E -> Prop;
  adm : D -> option E -> Prop;
  ok_namespace : forall ns (e : E), ok_for ns (Some e) -> (encode_entity e).1 = ns;
  safe_key : forall (d d' : D) (e e' : option E), apply d e = Ret (d', e') -> key d' = key d;
  safe_ok : forall (d d' : D) (e e' : option E),
    adm d e -> ok_for (key d).1 e -> apply d e = Ret (d', e') -> ok_for (key d).1 e';
  safe_undo : forall (d d' : D) (e e' : option E),
    adm d e -> ok_for (key d).1 e -> apply d e = Ret (d', e') -> undo d' e' = Ret e;
  wal_key : forall d : D, key (Wal.wal_decode d) = key d;
  wal_undo : forall (d : D) (e : option E), undo (Wal.wal_decode d) e = undo d e;
}.
#[global] Hint Mode SafeDelta + - - - - - : typeclass_instances.

(** The block decoder of [pallas] and its output decoder. *)
Class BlockDecoder := {
  decode_block : bytes -> option Block;
  decode_output : EraCbor -> bool;
}.

Inductive DomainError :=
| DState (e : StateError)
| DChain (e : ChainError)
| StopEpochReached.

(** ** The batch *)

Module WorkDeltas.

(** [HashMap<NsKey, Vec<CardanoDelta>>]. *)
Abbreviation t D := (gmap (string * list Z) (list D)) (only parsing).

Definition add_for_entity {D E} `{!EntityDelta D E} (w : t D) (d : D) : t D :=
  <[key d := default [] (w !! key d) ++ [d]]> w.

(** Every queue holds deltas of its own key. *)
Definition wf {D E} `{!EntityDelta D E} (w : t D) : Prop :=
  forall nk ds d, w !! nk = Some ds -> d ∈ ds -> key d = nk.

Lemma wf_add {D E} `{!EntityDelta D E} (w : t D) d : wf w -> wf (add_for_entity w d).
Proof.
  intros Hw nk ds d' Hl Hd. unfold add_for_entity in Hl.
  destruct (decide (nk = key d)) as [->|Hn].
  - rewrite lookup_insert_eq in Hl. simplify_eq.
    apply elem_of_app in Hd as [Hd| ->%list_elem_of_singleton]; [|done].
    destruct (w !! key d) as [ds|] eqn:Ew; [|by apply not_elem_of_nil in Hd].
    by apply (Hw _ _ _ Ew).
  - rewrite lookup_insert_ne in Hl by done. by apply (Hw _ _ _ Hl).
Qed.

End WorkDeltas.

Module WorkBlock.

Record t (D : Type) := mk {
  block : Block;
  raw : bytes;
  deltas : WorkDeltas.t D;
  utxo_delta : option UtxoSetDelta.t;
}.
Arguments mk {D} block raw deltas utxo_delta.
Arguments block {D} _.
Arguments raw {D} _.
Arguments deltas {D} _.
Arguments utxo_delta {D} _.

Definition slot {D} (b : t D) : BlockSlot := block_slot (block b).
Definition point {D} (b : t D) : ChainPoint.t :=
  ChainPoint.Specific (block_slot (block b)) (block_hash (block b)).

End WorkBlock.

Module WorkBatch.

Record t (D E : Type) := mk {
  blocks : list (WorkBlock.t D);
  utxos : UtxoMap;
  utxos_decoded : UtxoMap;
  entities : EntityMap E;
  is_sorted : bool;
  applied : bool;
}.
Arguments mk {D E} blocks utxos utxos_decoded entities is_sorted applied.
Arguments blocks {D E} _.
Arguments utxos {D E} _.
Arguments utxos_decoded {D E} _.
Arguments entities {D E} _.
Arguments is_sorted {D E} _.
Arguments applied {D E} _.

#[global] Instance eta_t {D E} : Eta (t D E) := fun r =>
  mk (blocks r) (utxos r) (utxos_decoded r) (entities r) (is_sorted r) (applied r).

Definition default_ {D E} : t D E := mk [] ∅ ∅ ∅ false false.

(** The stable sort of [sort_by_key]. *)
Fixpoint insert_by {A} (f : A -> Z) (x : A) (l : list A) : list A :=
  match l with
  | [] => [x]
  | y :: l' => if f x <=? f y then x :: y :: l' else y :: insert_by f x l'
  end.

Definition sort_by_key {A} (f : A -> Z) (l : list A) : list A := foldr (insert_by f) [] l.

Definition add_work {D E} (b : t D E) (w : WorkBlock.t D) : t D E :=
  (b <| blocks := blocks b ++ [w] |>) <| is_sorted := false |>.

Definition sort_by_slot {D E} (b : t D E) : t D E :=
  (b <| blocks := sort_by_key WorkBlock.slot (blocks b) |>) <| is_sorted := true |>.

Definition for_single_block {D E} (w : WorkBlock.t D) : t D E :=
  (add_work default_ w) <| is_sorted := true |>.

Definition last_point {D E} (b : t D E) : run ChainPoint.t :=
  w ← expect (last (blocks b)); Ret (WorkBlock.point w).

(** The loop of [check_continuity] from a tip. *)
Fixpoint continuity_from {D} (tip : ChainPoint.t) (l : list (WorkBlock.t D)) :
    result ConsensusError unit :=
  match l with
  | [] => Ok tt
  | w :: rest =>
      let b := WorkBlock.block w in
      match Blocks.check_extension tip (block_slot b) (previous_hash b) with
      | Ok _ => continuity_from (ChainPoint.Specific (block_slot b) (block_hash b)) rest
      | Err e => Err e
      end
  end.

Definition check_continuity `{BuildCfg} {D E} (b : t D E) (cursor : option ChainPoint.t) :
    run (result ConsensusError unit) :=
  _ ← debug_assert (is_sorted b);
  Ret (continuity_from (default ChainPoint.Origin cursor) (blocks b)).

Section ops.
Context {D E V S W T : Type} `{!Codec E V, !StateStore V S W, !EntityDelta D E}.
Context `{!RedbTable T (LogValue.t D)} {WD : Wal.WalDelta D} {BD : BlockDecoder} {BC : BuildCfg}.

Definition load_utxos (b : t D E) (s : S) : t D E :=
  let (loaded, refs) := dependencies (WorkBlock.block <$> blocks b) (utxos b) in
  let inputs := get_utxos s (remove_dups refs) in
  b <| utxos := inputs ∪ loaded |>.

Definition decode_utxos (b : t D E) : result ChainError (t D E) :=
  if bool_decide (map_Forall (fun _ body => decode_output body = true) (utxos b))
  then Ok (b <| utxos_decoded := utxos b |>)
  else Err DecodingError.

(** The UTxO half of [compute_delta], for each block. *)
Fixpoint utxo_deltas (loaded : UtxoMap) (l : list (WorkBlock.t D)) :
    result ChainError (list (WorkBlock.t D)) :=
  match l with
  | [] => Ok []
  | w :: rest =>
      match compute_apply_delta (WorkBlock.block w) loaded with
      | Err e => Err (BrokenInv e)
      | Ok d =>
          match utxo_deltas loaded rest with
          | Err e => Err e
          | Ok rest' =>
              Ok (WorkBlock.mk (WorkBlock.block w) (WorkBlock.raw w) (WorkBlock.deltas w) (Some d)
                    :: rest')
          end
      end
  end.

Definition compute_utxo_deltas (b : t D E) : result ChainError (t D E) :=
  match utxo_deltas (utxos_decoded b) (blocks b) with
  | Ok l => Ok (b <| blocks := l |>)
  | Err e => Err e
  end.

Definition compile_all_entity_keys (b : t D E) : list NsKey :=
  remove_dups (blocks b ≫= fun w => (map_to_list (WorkBlock.deltas w)).*1).

Definition LOAD_CHUNK_SIZE : nat := 100.

(** [NsKey]'s derived order: the namespace, then the key bytes. *)
Definition ns_key_le (a b : NsKey) : bool :=
  match String.compare a.1 b.1 with
  | Lt => true | Gt => false | Eq => bytes_le a.2 b.2
  end.

Definition ns_key_order (a b : NsKey) : Prop := ns_key_le a b = true.

#[global] Instance ns_key_order_dec a b : Decision (ns_key_order a b).
Proof. unfold ns_key_order. apply _. Defined.

(** [par_chunks(n)], with fuel the length of the list. *)
Fixpoint chunks {A} (n fuel : nat) (l : list A) : list (list A) :=
  match fuel, l with
  | Datatypes.S fuel', _ :: _ => take n l :: chunks n fuel' (drop n l)
  | _, _ => []
  end.

(** [try_reduce]: the loaded chunks, merged. *)
Fixpoint load_chunks (s : S) (l : list (list NsKey)) : result StateError (EntityMap E) :=
  match l with
  | [] => Ok ∅
  | c :: rest =>
      match load_entity_chunk c s with
      | Err e => Err e
      | Ok m => match load_chunks s rest with Err e => Err e | Ok r => Ok (r ∪ m) end
      end
  end.

Definition load_entities (b : t D E) (s : S) : result StateError (t D E) :=
  let keys := merge_sort ns_key_order (compile_all_entity_keys b) in
  match load_chunks s (chunks LOAD_CHUNK_SIZE (length keys) keys) with
  | Ok result => Ok (b <| entities := result ∪ entities b |>)
  | Err e => Err e
  end.

(** Applying a queue of deltas to one entity; the deltas are updated in place. *)
Fixpoint apply_seq (ds : list D) (e : option E) : run (list D * option E) :=
  match ds with
  | [] => Ret ([], e)
  | d :: rest =>
      r ← apply d e;
      r' ← apply_seq rest r.2;
      Ret (r.1 :: r'.1, r'.2)
  end.

(** One entity of the inner loop of [apply_entities]. *)
Definition apply_entity (acc : EntityMap E * WorkDeltas.t D) (k : NsKey) :
    run (EntityMap E * WorkDeltas.t D) :=
  let (m, w) := acc in
  match w !! k with
  | None => Ret (m, w)
  | Some to_apply =>
      e ← expect (m !! k);
      r ← apply_seq to_apply e;
      Ret (<[k := r.2]> m, <[k := r.1]> w)
  end.

(** The outer loop, one block at a time. *)
Fixpoint apply_blocks (m : EntityMap E) (l : list (WorkBlock.t D)) :
    run (EntityMap E * list (WorkBlock.t D)) :=
  match l with
  | [] => Ret (m, [])
  | w :: rest =>
      r ← run_foldl apply_entity (m, WorkBlock.deltas w) (map_to_list m).*1;
      r' ← apply_blocks r.1 rest;
      Ret (r'.1,
           WorkBlock.mk (WorkBlock.block w) (WorkBlock.raw w) r.2 (WorkBlock.utxo_delta w) :: r'.2)
  end.

Definition apply_entities (b : t D E) : run (t D E) :=
  r ← apply_blocks (entities b) (blocks b);
  Ret (((b <| entities := r.1 |>) <| blocks := r.2 |>) <| applied := true |>).

(** The row of one block. *)
Definition log_entry (inputs : UtxoMap) (w : WorkBlock.t D) : ChainPoint.t * LogValue.t D :=
  (WorkBlock.point w,
   LogValue.mk (WorkBlock.raw w) (mjoin (map_to_list (WorkBlock.deltas w)).*2) inputs).

Definition commit_wal (b : t D E) (wal : T) : run T :=
  _ ← debug_assert (is_sorted b);
  _ ← debug_assert (applied b);
  Ret (Wal.append_entries wal (log_entry (utxos b) <$> blocks b)).

(** [if let Some(utxo_delta) = &block.utxo_delta]. *)
Definition save_utxos (w : W) (b : WorkBlock.t D) : W :=
  match WorkBlock.utxo_delta b with Some d => apply_utxoset w d | None => w end.

Definition commit_state (b : t D E) (s : S) : run S :=
  let writer := start_writer s in
  let writer := save_entities writer (entities b) in
  let writer := foldl save_utxos writer (blocks b) in
  p ← last_point b;
  Ret (commit (set_cursor writer p) s).

End ops.

End WorkBatch.

(** ** The node *)

Record Node (S T : Type) := mkNode { state : S; wal : T }.
Arguments mkNode {S T} state wal.
Arguments state {S T} _.
Arguments wal {S T} _.

Section node.
Context {D E V S W T : Type} `{!Codec E V, !StateStore V S W, !EntityDelta D E}.
Context `{!RedbTable T (LogValue.t D)} {WD : Wal.WalDelta D} {BD : BlockDecoder} {BC : BuildCfg}.

Abbreviation Batch := (WorkBatch.t D E).

(** [RollWorkUnit::load], on a batch whose blocks carry the deltas their
    transactions queued. *)
Definition roll_load (b : Batch) (s : S) : run (result DomainError Batch) :=
  let cursor := read_cursor s in
  let b := WorkBatch.sort_by_slot b in
  c ← WorkBatch.check_continuity b cursor;
  _ ←? Ret (map_err (DChain ∘ Consensus) c);
  let b := WorkBatch.load_utxos b s in
  b ←? Ret (map_err DChain (WorkBatch.decode_utxos b));
  b ←? Ret (map_err DChain (WorkBatch.compute_utxo_deltas b));
  Ret (map_err DState (WorkBatch.load_entities b s)).

(** [RollWorkUnit::compute]. *)
Definition roll_compute (b : Batch) : run Batch :=
  WorkBatch.apply_entities (WorkBatch.sort_by_slot b).

(** The phases of the unit in the order of [run_lifecycle]. *)
Definition roll (b : Batch) (n : Node S T) : run (result DomainError (Node S T)) :=
  b ←? roll_load b (state n);
  b ← roll_compute b;
  wal' ← WorkBatch.commit_wal b (wal n);
  state' ← WorkBatch.commit_state b (state n);
  Ret (Ok (mkNode state' wal')).

(** [CardanoLogic::compute_undo], its UTxO part. *)
Definition compute_undo (block : bytes) (inputs : UtxoMap) : result ChainError UtxoSetDelta.t :=
  match decode_block block with
  | None => Err DecodingError
  | Some b =>
      if bool_decide (map_Forall (fun _ body => decode_output body = true) inputs)
      then map_err BrokenInv (compute_undo_delta b inputs)
      else Err DecodingError
  end.

(** The loop of [rollback] over the entries from the tip backwards. *)
Fixpoint undo_blocks (to : ChainPoint.t) (s : S) (l : list (ChainPoint.t * LogValue.t D))
    (m : EntityMap E) (w : W) : run (result DomainError (EntityMap E * W)) :=
  match l with
  | [] => Ret (Ok (m, w))
  | (point, log) :: rest =>
      if ChainPoint.eq point to then Ret (Ok (m, set_cursor w point))
      else
        r ← undo_delta_chunk m s (LogValue.delta log);
        m' ←? Ret (map_err DState r);
        d ←? Ret (map_err DChain (compute_undo (LogValue.block log) (LogValue.inputs log)));
        undo_blocks to s rest m' (apply_utxoset w d)
  end.

Definition rollback (to : ChainPoint.t) (n : Node S T) : run (result DomainError (Node S T)) :=
  let logs := Wal.iter_logs (wal n) (Some to) None in
  r ←? undo_blocks to (state n) (reverse logs) ∅ (start_writer (state n));
  let writer := save_entities r.2 r.1 in
  Ret (Ok (mkNode (commit writer (state n)) (Wal.truncate_front (wal n) to))).

End node.

(** ** Snapshots and the log *)

Section proofs.
Context {D E V S W T : Type} `{!Codec E V, !StateStore V S W, !EntityDelta D E}.
Context `{!RedbTable T (LogValue.t D)} {WD : Wal.WalDelta D} {BD : BlockDecoder} {BC : BuildCfg}.
Context `{!SafeDelta D E V}.

(** The ledger state at a point: the entities and the UTxO set. *)
Record Snap := mkSnap { s_entities : gmap NsKey E; s_utxos : UtxoMap }.

Definition good (σ : Snap) : Prop := forall nk, ok_for nk.1 (s_entities σ !! nk).

(** A store holds a ledger state. *)
Definition holds (s : S) (σ : Snap) : Prop :=
  (forall nk, stored E s nk = Ok (s_entities σ !! nk)) /\ utxos (tables s) = s_utxos σ.

(** What a UTxO delta does to the set. *)
Definition utxo_step (d : UtxoSetDelta.t) (u : UtxoMap) : UtxoMap :=
  ((UtxoSetDelta.recovered_stxi d ∪ (UtxoSetDelta.produced_utxo d ∪ u))
     ∖ UtxoSetDelta.consumed_utxo d) ∖ UtxoSetDelta.undone_utxo d.

(** Undoing a row takes the state [σ'] back to [σ]. *)
Definition undoes (l : LogValue.t D) (σ' σ : Snap) : Prop :=
  (forall nk, undo_seq (filter (fun d => key d = nk) (reverse (LogValue.delta l)))
                (s_entities σ' !! nk) = Ret (s_entities σ !! nk)) /\
  exists d, compute_undo (LogValue.block l) (LogValue.inputs l) = Ok d /\
    s_utxos σ = utxo_step d (s_utxos σ').

(** Rows that undo one after the other, with the states they were logged at. *)
Inductive logged (σ0 : Snap) :
    list (bytes * LogValue.t D) -> list (ChainPoint.t * Snap) -> Snap -> Prop :=
| logged_nil : logged σ0 [] [] σ0
| logged_snoc rs h σ p l σ' :
    logged σ0 rs h σ -> ChainPoint.canonical p -> good σ' -> undoes (Wal.reread l) σ' σ ->
    logged σ0 (rs ++ [(ChainPoint.into_bytes p, l)]) (h ++ [(p, σ')]) σ'.

Lemma logged_app σ0 r1 h1 σ1 r2 h2 σ2 :
  logged σ0 r1 h1 σ1 -> logged σ1 r2 h2 σ2 -> logged σ0 (r1 ++ r2) (h1 ++ h2) σ2.
Proof.
  intros H1. induction 1 as [|rs h σ p l σ' H IH Hc Hg Hu].
  - by rewrite !app_nil_r.
  - rewrite !app_assoc. by econstructor.
Qed.

Lemma logged_one σ p l σ' :
  ChainPoint.canonical p -> good σ' -> undoes (Wal.reread l) σ' σ ->
  logged σ [(ChainPoint.into_bytes p, l)] [(p, σ')] σ'.
Proof. intros. eapply (logged_snoc σ [] []); [constructor|done..]. Qed.

(** Splitting the history at a point splits the rows. *)
Lemma logged_split σ0 rs h1 p σ h2 σn :
  logged σ0 rs (h1 ++ (p, σ) :: h2) σn ->
  exists r1 l r2, rs = r1 ++ (ChainPoint.into_bytes p, l) :: r2 /\
    logged σ0 (r1 ++ [(ChainPoint.into_bytes p, l)]) (h1 ++ [(p, σ)]) σ /\
    ChainPoint.canonical p /\ good σ /\ logged σ r2 h2 σn.
Proof.
  remember (h1 ++ (p, σ) :: h2) as h eqn:Eh. intros H. revert h2 Eh.
  induction H as [|rs h σ1 q l σ' H IH Hc Hg Hu]; intros h2 Eh.
  - by destruct h1.
  - destruct h2 as [|x h2 _] using rev_ind.
    + apply app_inj_tail in Eh as [-> [= -> ->]].
      exists rs, l, []. conj_split; [done|by econstructor|done|done|constructor].
    + rewrite app_comm_cons, app_assoc in Eh. apply app_inj_tail in Eh as [-> <-].
      destruct (IH h2 eq_refl) as (r1 & l' & r2 & -> & H1 & Hc1 & Hg1 & H2).
      exists r1, l', (r2 ++ [(ChainPoint.into_bytes q, l)]).
      conj_split; [by rewrite <- app_assoc|done|done|done|by econstructor].
Qed.

(** ** Rollback restores *)

(** Undoing logged rows back to a row at the target. *)
Lemma undo_blocks_restores to lt (s : S) σ0 rs h σn :
  logged σ0 rs h σn -> ChainPoint.canonical to -> decodable E s ->
  (forall r, r ∈ rs -> r.1 ≠ ChainPoint.into_bytes to) ->
  forall (m : EntityMap E) (w : W), (forall nk, view m s nk = Ok (s_entities σn !! nk)) ->
  let t w := exec_all (tables s) (pending w) in
  utxos (t w) = s_utxos σn ->
  exists m' w', undo_blocks to s (reverse (Wal.entry <$> rs) ++ [(to, lt)]) m w = Ret (Ok (m', w')) /\
    (forall nk, view m' s nk = Ok (s_entities σ0 !! nk)) /\
    cursor (t w') = Some to /\ entities (t w') = entities (t w) /\ utxos (t w') = s_utxos σ0.
Proof.
  intros H Hto Hs. induction H as [|rs h σ p l σ' H IH Hc Hg Hu]; intros Hne m w Hv t Ht.
  - cbn. rewrite ChainPoint.eq_refl. exists m, (set_cursor w to). unfold t in *.
    rewrite set_cursor_spec, exec_all_app. done.
  - rewrite fmap_app, reverse_app. cbn [fmap list_fmap app reverse rev_append].
    destruct Hu as [Hd (ud & Hcu & Hus)].
    destruct (undo_delta_chunk_view m s (LogValue.delta (Wal.reread l))
                (fun nk => s_entities σ !! nk) Hs)
      as (m1 & E1 & Hv1 & _).
    { intros nk e He. rewrite Hv in He. simplify_eq. apply Hd. }
    assert (Hp : ChainPoint.eq (ChainPoint.from_bytes (ChainPoint.into_bytes p)) to = false).
    { apply not_true_iff_false. intros Heq. apply ChainPoint.eq_canonical in Heq; [|done].
      rewrite Hc in Heq. subst.
      apply (Hne (ChainPoint.into_bytes to, l)); [|done]. apply elem_of_app. right. by left. }
    cbn [undo_blocks Wal.entry fst snd]. rewrite Hp, E1. cbn [rbind mbind run_bind map_err].
    rewrite Hcu. cbn [rbind map_err].
    destruct (IH ltac:(intros; apply Hne, elem_of_app; by left) m1 (apply_utxoset w ud) Hv1)
      as (m' & w' & E' & Hv' & Hcur & Hent & Hut).
    { rewrite apply_utxoset_spec, exec_all_app, exec_utxoset. cbn. fold (t w).
      by rewrite Ht, Hus. }
    exists m', w'. conj_split; [exact E'|exact Hv'|exact Hcur| |exact Hut]. etrans; [exact Hent|]. unfold t.
    by rewrite apply_utxoset_spec, exec_all_app, exec_utxoset.
Qed.

(** Saving what the cache holds makes the store hold what the caller saw. *)
Lemma save_stored (s : S) (m : EntityMap E) (w : W) (f : NsKey -> option E) :
  (forall nk, view m s nk = Ok (f nk)) -> (forall nk, ok_for nk.1 (f nk)) ->
  let t := exec_all (tables s) (pending w) in
  let t' := exec_all (tables s) (pending (save_entities w m)) in
  entities t = entities (tables s) ->
  (forall nk, decode_opt nk.1 (entities t' !! nk) = Ok (f nk)) /\
  cursor t' = cursor t /\ utxos t' = utxos t.
Proof.
  intros Hv Hok t t' He.
  assert (Hwk : well_keyed m).
  { intros nk e Hm. specialize (Hv nk). unfold view in Hv. rewrite Hm in Hv. simplify_eq.
    apply ok_namespace. rewrite Hv. apply Hok. }
  destruct (save_entities_tables m w (tables s) Hwk) as (Hc & Hu & Hl).
  conj_split; [|exact Hc|exact Hu].
  intros nk. unfold t'. rewrite Hl. fold t. rewrite He. specialize (Hv nk). unfold view in Hv.
  destruct (m !! nk) as [[e|]|] eqn:Em; [|exact Hv|exact Hv].
  simplify_eq. cbn. specialize (Hwk nk e Em). rewrite <- Hwk, decode_encode. by rewrite Hv.
Qed.

Lemma holds_decodable s σ : holds s σ -> decodable E s.
Proof. intros [H _] nk. eauto. Qed.

(** The node tracks a history: its log undoes it, its store holds the last
    state and its cursor is the last point. *)
Definition tracked (n : Node S T) (hist : list (ChainPoint.t * Snap)) : Prop :=
  exists p0 l0 σ0 rs h σn,
    hist = (p0, σ0) :: h /\ ChainPoint.canonical p0 /\ good σ0 /\
    rows (wal n) = (ChainPoint.into_bytes p0, l0) :: rs /\
    logged σ0 rs h σn /\ holds (state n) σn /\
    read_cursor (state n) = fst <$> last hist.

(** The rows from a point of the history on. *)
Lemma tracked_at n hist1 p σ hist2 :
  tracked n (hist1 ++ (p, σ) :: hist2) ->
  exists r1 l r2 σn, rows (wal n) = r1 ++ (ChainPoint.into_bytes p, l) :: r2 /\
    ChainPoint.canonical p /\ good σ /\ logged σ r2 hist2 σn /\ holds (state n) σn /\
    forall n', rows (wal n') = r1 ++ [(ChainPoint.into_bytes p, l)] ->
      holds (state n') σ -> read_cursor (state n') = Some p -> tracked n' (hist1 ++ [(p, σ)]).
Proof.
  intros (p0 & l0 & σ0 & rs & h & σn & Eh & Hc0 & Hg0 & Hrows & Hlog & Hh & Hcur).
  destruct hist1 as [|x hist1]; cbn in Eh.
  - injection Eh as -> -> ->. exists [], l0, rs, σn. conj_split; try done. intros n' Hr Hh' Hcur'.
    exists p0, l0, σ0, [], [], σ0. conj_split; try done. constructor.
  - injection Eh as -> <-.
    destruct (logged_split _ _ _ _ _ _ _ Hlog) as (r1 & l & r2 & -> & H1 & Hc & Hg & H2).
    exists ((ChainPoint.into_bytes p0, l0) :: r1), l, r2, σn.
    conj_split; try done. intros n' Hr Hh' Hcur'.
    exists p0, l0, σ0, (r1 ++ [(ChainPoint.into_bytes p, l)]), (hist1 ++ [(p, σ)]), σ.
    conj_split; try done. by rewrite Hcur', last_snoc.
Qed.

Lemma rollback_restores n hist1 p σ hist2 :
  tracked n (hist1 ++ (p, σ) :: hist2) ->
  exists n', rollback p n = Ret (Ok n') /\ holds (state n') σ /\
    read_cursor (state n') = Some p /\ tracked n' (hist1 ++ [(p, σ)]).
Proof.
  intros Ht. destruct (tracked_at n hist1 p σ hist2 Ht)
    as (r1 & l & r2 & σn & Hrows & Hc & Hg & Hlog & Hh & Hnext).
  destruct (undo_blocks_restores p (Wal.reread l) (state n) σ r2 hist2 σn Hlog Hc
              (holds_decodable _ _ Hh)) with (m := ∅ : EntityMap E) (w := start_writer (state n))
    as (m' & w' & Eu & Hv & Hcur & Hent & Hut).
  - intros r Hr Er. pose proof (Wal.rows_row_sorted (wal n)) as Hs. rewrite Hrows in Hs.
    apply StronglySorted_app_1_r, StronglySorted_inv in Hs as [_ Hf].
    rewrite Forall_forall in Hf. specialize (Hf r Hr). unfold Wal.row_lt in Hf. cbn in Hf.
    rewrite Er in Hf. by apply Wal.key_lt_irrefl in Hf.
  - intros nk. unfold view. rewrite lookup_empty. apply Hh.
  - rewrite start_writer_spec. apply Hh.
  - unfold rollback. rewrite (Wal.iter_logs_from (wal n) r1 r2 p l Hrows).
    rewrite fmap_cons, reverse_cons. unfold Wal.entry at 2. cbn [fst snd].
    rewrite Hc, Eu. cbn [rbind fst snd].
    rewrite start_writer_spec in Hent.
    destruct (save_stored (state n) m' w' (fun nk => s_entities σ !! nk) Hv Hg Hent) as (Hst & Hcu & Hu).
    assert (Hh' : holds (commit (save_entities w' m') (state n)) σ).
    { unfold holds, stored. rewrite commit_spec. split; [exact Hst|]. by rewrite Hu. }
    assert (Hc' : read_cursor (commit (save_entities w' m') (state n)) = Some p).
    { rewrite read_cursor_spec, commit_spec. by rewrite Hcu. }
    eexists. conj_split; [done|done|done|]. apply Hnext; [|done|done].
    exact (Wal.rows_truncate (wal n) r1 r2 p l Hrows).
Qed.

(** ** Applying records what undoing needs *)

Abbreviation apply_seq := (WorkBatch.apply_seq (D := D) (E := E)).

(** The deltas of one entity are admissible one after the other. *)
Fixpoint adm_seq (ds : list D) (e : option E) : Prop :=
  match ds with
  | [] => True
  | d :: rest => adm d e /\ forall d' e', apply d e = Ret (d', e') -> adm_seq rest e'
  end.

Lemma apply_seq_undo ds e ds' e' (nk : NsKey) :
  adm_seq ds e -> ok_for nk.1 e -> (forall d, d ∈ ds -> key d = nk) ->
  apply_seq ds e = Ret (ds', e') ->
  undo_seq (reverse ds') e' = Ret e /\ ok_for nk.1 e' /\ (forall d, d ∈ ds' -> key d = nk).
Proof.
  revert e ds' e'; induction ds as [|d ds IH]; intros e ds' e' Ha Ho Hk Hr; cbn in Hr.
  - run_inv. conj_split; [done|done|]. intros d Hd. by apply not_elem_of_nil in Hd.
  - apply bind_Ret in Hr as ([d1 e1] & E0 & Hr). apply bind_Ret in Hr as ([ds1 e2] & E1 & Hr).
    cbn in E1, Hr. injection Hr as <- <-.
    destruct Ha as [Ha Hrest]. assert (Hd : key d = nk) by (apply Hk; by left).
    assert (Ho1 : ok_for nk.1 e1) by (rewrite <- Hd in *; by eapply safe_ok).
    destruct (IH e1 ds1 e2 (Hrest _ _ E0) Ho1 ltac:(intros; apply Hk; by right) E1)
      as (Hu & Ho' & Hk').
    conj_split; [|done|].
    + unfold undo_seq in *. rewrite reverse_cons, run_foldl_app, Hu. cbn.
      rewrite <- Hd in Ho. by rewrite (safe_undo _ _ _ _ Ha Ho E0).
    + intros d2 Hd2. apply elem_of_cons in Hd2 as [->|Hd2]; [|auto].
      by rewrite (safe_key _ _ _ _ E0).
Qed.

(** What the inner loop does to one entity and its queue. *)
Definition entity_step (e : option (option E)) (q : option (list D))
    (e' : option (option E)) (q' : option (list D)) : Prop :=
  match q with
  | None => e' = e /\ q' = None
  | Some ds => exists x ds' x', e = Some x /\ apply_seq ds x = Ret (ds', x') /\
                 e' = Some x' /\ q' = Some ds'
  end.

Lemma apply_entity_fold (ks : list NsKey) (m : EntityMap E) (w : WorkDeltas.t D) m' w' :
  NoDup ks -> run_foldl WorkBatch.apply_entity (m, w) ks = Ret (m', w') ->
  forall k, if decide (k ∈ ks) then entity_step (m !! k) (w !! k) (m' !! k) (w' !! k)
            else m' !! k = m !! k /\ w' !! k = w !! k.
Proof.
  revert m w; induction ks as [|k0 ks IH]; intros m w Hnd Hr k; cbn in Hr.
  { run_inv. by rewrite decide_False by apply not_elem_of_nil. }
  apply NoDup_cons in Hnd as [Hni Hnd]. apply bind_Ret in Hr as ([m1 w1] & E0 & Hr).
  specialize (IH _ _ Hnd Hr k). unfold WorkBatch.apply_entity in E0.
  destruct (decide (k = k0)) as [->|Hn].
  - rewrite (decide_False (P := k0 ∈ ks)) in IH by done. destruct IH as [-> ->].
    rewrite decide_True by (by left). destruct (w !! k0) as [ds|] eqn:Ew.
    + apply bind_Ret in E0 as (x & Ex & E0). apply bind_Ret in E0 as ([ds' x'] & Es & E0).
      apply expect_Ret in Ex. injection E0 as <- <-.
      exists x, ds', x'. by rewrite !lookup_insert_eq.
    + injection E0 as <- <-. by rewrite Ew.
  - assert (Hsame : m1 !! k = m !! k /\ w1 !! k = w !! k).
    { destruct (w !! k0); [|by injection E0 as <- <-].
      apply bind_Ret in E0 as (x & _ & E0). apply bind_Ret in E0 as (r & _ & E0).
      injection E0 as <- <-. by rewrite !lookup_insert_ne. }
    destruct Hsame as [Em Ew]. rewrite <- Em, <- Ew.
    destruct (decide (k ∈ ks)) as [Hi|Hi].
    + by rewrite decide_True by (by right).
    + rewrite decide_False by (rewrite elem_of_cons; naive_solver). done.
Qed.

(** One block: every entity of the cache takes its queue. *)
Lemma apply_block_step (m m' : EntityMap E) (w w' : WorkDeltas.t D) :
  run_foldl WorkBatch.apply_entity (m, w) (map_to_list m).*1 = Ret (m', w') ->
  forall k, match m !! k with
            | Some _ => entity_step (m !! k) (w !! k) (m' !! k) (w' !! k)
            | None => m' !! k = None /\ w' !! k = w !! k
            end.
Proof.
  intros Hr k. pose proof (apply_entity_fold _ _ _ _ _ (NoDup_fst_map_to_list m) Hr k) as Hk.
  assert (Hm : k ∈ (map_to_list m).*1 <-> is_Some (m !! k)).
  { rewrite list_elem_of_fmap. split.
    - intros ([k' e] & -> & Hi). apply elem_of_map_to_list in Hi. eauto.
    - intros [e He]. exists (k, e). split; [done|]. by apply elem_of_map_to_list. }
  destruct (m !! k) as [e|] eqn:Em.
  - rewrite decide_True in Hk by (apply Hm; eauto). exact Hk.
  - rewrite decide_False in Hk; [exact Hk|]. rewrite Hm. by intros [].
Qed.

(** The deltas a row logs for one entity are the queue of that entity. *)
Lemma filter_queue (l : list (NsKey * list D)) nk :
  NoDup l.*1 -> (forall k ds d, (k, ds) ∈ l -> d ∈ ds -> key d = k) ->
  filter (fun d => key d = nk) (mjoin l.*2) =
  default [] (list_to_map (M := gmap NsKey (list D)) l !! nk).
Proof.
  induction l as [|[k ds] l IH]; intros Hnd Hk; [done|].
  change (mjoin ((k, ds) :: l).*2) with (ds ++ mjoin l.*2).
  rewrite fmap_cons in Hnd. apply NoDup_cons in Hnd as [Hni Hnd].
  rewrite list_to_map_cons, filter_app, IH; [|done|intros; eapply Hk; [by right|done]].
  destruct (decide (nk = k)) as [->|Hn].
  - rewrite lookup_insert_eq, (not_elem_of_list_to_map_1 l k Hni), app_nil_r. cbn.
    apply filter_all. intros d Hd. eapply Hk; [by left|done].
  - rewrite lookup_insert_ne by done. rewrite filter_none; [done|].
    intros d Hd <-. apply Hn. eapply Hk; [by left|done].
Qed.

Lemma filter_wal_decode (l : list D) nk :
  filter (fun d => key d = nk) (Wal.wal_decode <$> l) =
  Wal.wal_decode <$> filter (fun d => key d = nk) l.
Proof.
  induction l as [|d l IH]; [done|]. rewrite fmap_cons, !filter_cons, wal_key.
  destruct (decide (key d = nk)); by rewrite ?fmap_cons, IH.
Qed.

Lemma undo_seq_wal_decode (l : list D) (e : option E) :
  undo_seq (Wal.wal_decode <$> l) e = undo_seq l e.
Proof.
  unfold undo_seq. revert e; induction l as [|d l IH]; intros e; [done|]. cbn.
  rewrite wal_undo. destruct (undo d e); cbn; auto.
Qed.

Lemma undo_queue (w : WorkDeltas.t D) nk e :
  WorkDeltas.wf w ->
  undo_seq (filter (fun d => key d = nk)
              (reverse (Wal.wal_decode <$> mjoin (map_to_list w).*2))) e =
  undo_seq (reverse (default [] (w !! nk))) e.
Proof.
  intros Hw. rewrite filter_reverse, filter_wal_decode, <- fmap_reverse, undo_seq_wal_decode.
  rewrite filter_queue; [by rewrite list_to_map_to_list|apply NoDup_fst_map_to_list|].
  intros k ds d Hi Hd. apply elem_of_map_to_list in Hi. by eapply Hw.
Qed.

(** ** Applying and undoing the UTxO delta of a block *)

(** The inputs of block [b], applied at the set [u], resolve in [i]. *)
Definition resolves (u i : UtxoMap) (b : Block) : Prop :=
  (forall r, is_Some (produced_of b !! r) -> u !! r = None) /\
  forall r, r ∈ consumed_of b -> exists v, i !! r = Some v /\
    (produced_of b !! r = Some v \/ produced_of b !! r = None /\ u !! r = Some v).

Lemma resolves_apply u i b : resolves u i b ->
  exists d, compute_apply_delta b i = Ok d /\ utxo_step d u = next_utxos u b.
Proof.
  intros [_ Hr]. eexists. split.
  - apply compute_apply_delta_Ok. intros r Hc. destruct (Hr r Hc) as (v & -> & _). eauto.
  - unfold utxo_step. cbn. rewrite (left_id_L ∅ (∪)), map_difference_empty.
    apply map_eq. intros r. rewrite lookup_next, lookup_difference, lookup_restrict.
    case_bool_decide as Hc; [|done]. by destruct (Hr r Hc) as (v & -> & _).
Qed.

Lemma resolves_undo u i b : resolves u i b ->
  exists d, compute_undo_delta b i = Ok d /\ utxo_step d (next_utxos u b) = u.
Proof.
  intros [Hf Hr]. eexists. split.
  - apply compute_undo_delta_Ok. intros r Hc. destruct (Hr r Hc) as (v & -> & _). eauto.
  - unfold utxo_step. cbn. rewrite (left_id_L ∅ (∪)), map_difference_empty.
    apply map_eq. intros r. rewrite lookup_difference, lookup_union, lookup_restrict, lookup_next.
    rewrite lookup_union. destruct (produced_of b !! r) as [v|] eqn:Ep.
    + by rewrite Hf by eauto.
    + case_bool_decide as Hc; [|by destruct (u !! r)].
      destruct (Hr r Hc) as (v & -> & [Hv|[_ ->]]); [congruence|done].
Qed.

(** ** The abstract ledger

    A block takes every entity through its queue of deltas and the UTxO set
    through its transactions. *)

Definition block_step (σ : Snap) (w : WorkBlock.t D) (σ' : Snap) : Prop :=
  (forall nk, exists ds', apply_seq (default [] (WorkBlock.deltas w !! nk)) (s_entities σ !! nk) =
                            Ret (ds', s_entities σ' !! nk)) /\
  s_utxos σ' = next_utxos (s_utxos σ) (WorkBlock.block w).

(** The history of a list of blocks from a state. *)
Fixpoint chain (σ : Snap) (l : list (WorkBlock.t D)) (h : list (ChainPoint.t * Snap)) : Prop :=
  match l, h with
  | [], [] => True
  | w :: l', (p, σ') :: h' => p = WorkBlock.point w /\ block_step σ w σ' /\ chain σ' l' h'
  | _, _ => False
  end.

Lemma block_step_det σ w σ1 σ2 : block_step σ w σ1 -> block_step σ w σ2 -> σ1 = σ2.
Proof.
  intros [He1 Hu1] [He2 Hu2]. destruct σ1 as [e1 u1], σ2 as [e2 u2]. cbn in *. f_equal.
  - apply map_eq. intros nk. destruct (He1 nk) as [d1 H1], (He2 nk) as [d2 H2].
    rewrite H1 in H2. by injection H2.
  - congruence.
Qed.

Lemma chain_det l : forall σ h1 h2, chain σ l h1 -> chain σ l h2 -> h1 = h2.
Proof.
  induction l as [|w l IH]; intros σ [|[p1 σ1] h1] [|[p2 σ2] h2] H1 H2; try done.
  destruct H1 as (-> & Hs1 & H1), H2 as (-> & Hs2 & H2).
  rewrite (block_step_det _ _ _ _ Hs1 Hs2) in *. f_equal. by eapply IH.
Qed.

Lemma chain_points σ l h : chain σ l h -> h.*1 = WorkBlock.point <$> l.
Proof.
  revert σ h; induction l as [|w l IH]; intros σ [|[p σ'] h] H; try done.
  destruct H as (-> & _ & H). cbn. f_equal. by eapply IH.
Qed.

(** Only the blocks and their queues matter. *)
Lemma chain_ext l k : forall σ h,
  WorkBlock.block <$> l = WorkBlock.block <$> k -> WorkBlock.deltas <$> l = WorkBlock.deltas <$> k ->
  chain σ l h -> chain σ k h.
Proof.
  revert k; induction l as [|w l IH]; intros [|v k] σ [|[p σ'] h] Hb Hd H; try done.
  cbn in Hb, Hd. injection Hb as Eb Hb. injection Hd as Ed Hd. destruct H as (-> & [He Hu] & H).
  split; [unfold WorkBlock.point; by rewrite Eb|]. split; [|by apply IH].
  split; [by rewrite <- Ed|by rewrite <- Eb].
Qed.

(** ** Rolling forward extends the history *)

(** What the chain guarantees about a batch applied at the state [σ]: its
    blocks decode, its points identify their blocks, its deltas are queued under their keys
    and admissible, its inputs are available and its outputs fresh. *)
Definition block_ok (w : WorkBlock.t D) : Prop :=
  decode_block (WorkBlock.raw w) = Some (WorkBlock.block w) /\
  ChainPoint.canonical (WorkBlock.point w) /\ WorkDeltas.wf (WorkBlock.deltas w).

(** The deltas of an entity over the whole batch, in order. *)
Definition queue_of (l : list (WorkBlock.t D)) (nk : NsKey) : list D :=
  l ≫= fun w => default [] (WorkBlock.deltas w !! nk).

Definition batch_ok (σ : Snap) (l : list (WorkBlock.t D)) : Prop :=
  Forall block_ok l /\
  (forall nk, adm_seq (queue_of l nk) (s_entities σ !! nk)) /\
  inputs_available (s_utxos σ) (WorkBlock.block <$> l) /\
  outputs_fresh (s_utxos σ) (WorkBlock.block <$> l).

Lemma adm_seq_app a b e : adm_seq (a ++ b) e ->
  adm_seq a e /\ forall a' e', apply_seq a e = Ret (a', e') -> adm_seq b e'.
Proof.
  revert e; induction a as [|d a IH]; intros e H; cbn in *.
  - split; [done|]. intros a' e' [= <- <-]. done.
  - destruct H as [Hd H]. split.
    + split; [done|]. intros d' e' Hr. by apply (IH e'), (H d').
    + intros a' e' Hr. apply bind_Ret in Hr as ([d1 e1] & E1 & Hr).
      apply bind_Ret in Hr as ([ds e2] & E2 & Hr). injection Hr as <- <-.
      by apply (proj2 (IH _ (H _ _ E1)) ds).
Qed.

(** What the cached entities give, the rest of the ledger unchanged. *)
Definition overlay (f : gmap NsKey E) (m : EntityMap E) : gmap NsKey E :=
  merge (fun old new => match new with Some e => e | None => old end) f m.

Lemma lookup_overlay f m nk : overlay f m !! nk = default (f !! nk) (m !! nk).
Proof.
  unfold overlay. rewrite lookup_merge. unfold diag_None.
  by destruct (f !! nk), (m !! nk) as [[]|].
Qed.

(** One block: the row it will log undoes what applying it did. *)
Lemma apply_block_undoes (σ : Snap) (m m' : EntityMap E) (w : WorkBlock.t D)
    (deltas' : WorkDeltas.t D) (i : UtxoMap) (rest : list (WorkBlock.t D)) :
  good σ -> block_ok w -> resolves (s_utxos σ) i (WorkBlock.block w) ->
  map_Forall (fun _ body => decode_output body = true) i ->
  (forall nk e, m !! nk = Some e -> s_entities σ !! nk = e) ->
  (forall nk, is_Some (WorkBlock.deltas w !! nk) -> is_Some (m !! nk)) ->
  (forall nk, adm_seq (queue_of (w :: rest) nk) (s_entities σ !! nk)) ->
  run_foldl WorkBatch.apply_entity (m, WorkBlock.deltas w) (map_to_list m).*1 = Ret (m', deltas') ->
  let σ' := mkSnap (overlay (s_entities σ) m') (next_utxos (s_utxos σ) (WorkBlock.block w)) in
  let w' := WorkBlock.mk (WorkBlock.block w) (WorkBlock.raw w) deltas' (WorkBlock.utxo_delta w) in
  good σ' /\ undoes (Wal.reread (WorkBatch.log_entry i w').2) σ' σ /\ block_step σ w σ' /\
  (forall nk, is_Some (m' !! nk) <-> is_Some (m !! nk)) /\
  (forall nk, adm_seq (queue_of rest nk) (s_entities σ' !! nk)).
Proof.
  intros Hg (Hdec & Hcan & Hwf) Hres Hout Hm Hdom Hadm Hrun.
  pose proof (apply_block_step _ _ _ _ Hrun) as Hst.
  assert (Hkey : forall nk,
    (is_Some (m' !! nk) <-> is_Some (m !! nk)) /\
    ok_for nk.1 (overlay (s_entities σ) m' !! nk) /\
    undo_seq (reverse (default [] (deltas' !! nk))) (overlay (s_entities σ) m' !! nk) =
      Ret (s_entities σ !! nk) /\
    (forall ds d, deltas' !! nk = Some ds -> d ∈ ds -> key d = nk) /\
    (exists ds', apply_seq (default [] (WorkBlock.deltas w !! nk)) (s_entities σ !! nk) =
                   Ret (ds', overlay (s_entities σ) m' !! nk)) /\
    adm_seq (queue_of rest nk) (overlay (s_entities σ) m' !! nk)).
  { intros nk. specialize (Hst nk). specialize (Hadm nk). cbn in Hadm.
    apply adm_seq_app in Hadm as [Ha Hrest]. rewrite !lookup_overlay.
    destruct (m !! nk) as [e|] eqn:Em.
    - pose proof (Hm _ _ Em) as He. unfold entity_step in Hst.
      destruct (WorkBlock.deltas w !! nk) as [ds|] eqn:Ed.
      + destruct Hst as (x & ds' & x' & [= <-] & Hs & -> & ->). cbn in *.
        destruct (apply_seq_undo ds e ds' x' nk) as (Hu & Ho & Hk);
          [by rewrite <- He|rewrite <- He; apply Hg|by intros; eapply Hwf|done|].
        rewrite He in *. conj_split; [done|done|done|by intros ? ? [= <-]; apply Hk|by eexists|].
        by apply (Hrest ds').
      + destruct Hst as [-> ->]. cbn. rewrite <- He.
        conj_split; [done|apply Hg|done|done|by eexists|]. by apply (Hrest []).
    - destruct Hst as [-> Hd]. rewrite Hd. cbn.
      destruct (WorkBlock.deltas w !! nk) eqn:Ed.
      + destruct (Hdom nk) as [? Hx]; [eauto|]. by rewrite Em in Hx.
      + cbn. conj_split; [done|apply Hg|done|done|by eexists|]. by apply (Hrest []). }
  intros σ' w'. conj_split.
  - intros nk. apply Hkey.
  - split.
    + intros nk. etrans; [apply (undo_queue deltas')|apply Hkey].
      intros k ds d Hl Hd. by eapply Hkey.
    + cbn. unfold compute_undo. rewrite Hdec, bool_decide_true by done.
      destruct (resolves_undo _ _ _ Hres) as (d & -> & Hs). exists d. by rewrite Hs.
  - split; [|done]. intros nk. apply Hkey.
  - apply Hkey.
  - intros nk. apply Hkey.
Qed.

(** The inputs of every block of a list resolve in [i]. *)
Fixpoint resolves_all (u i : UtxoMap) (bs : list Block) : Prop :=
  match bs with
  | [] => True
  | b :: rest => resolves u i b /\ resolves_all (next_utxos u b) i rest
  end.

Lemma batch_inputs_resolve u bs :
  outputs_fresh u bs -> inputs_available u bs -> resolves_all u (batch_inputs u bs) bs.
Proof.
  intros Hf Ha.
  cut (forall pre rest, bs = pre ++ rest ->
         resolves_all (foldl next_utxos u pre) (batch_inputs u bs) rest).
  { intros H. by apply (H [] bs). }
  intros pre rest. revert pre; induction rest as [|b rest IH]; intros pre Eb; [done|]. cbn.
  split.
  - subst. split.
    + intros r Hr. by apply (fresh_at u pre b rest).
    + intros r Hr. by apply (inputs_resolve u pre b rest).
  - specialize (IH (pre ++ [b])). rewrite foldl_app in IH. cbn in IH.
    apply IH. by rewrite <- app_assoc.
Qed.

(** Every entity a block of the list changes is cached. *)
Definition cached (m : EntityMap E) (l : list (WorkBlock.t D)) : Prop :=
  forall w nk, w ∈ l -> is_Some (WorkBlock.deltas w !! nk) -> is_Some (m !! nk).

Lemma apply_blocks_logged l : forall σ (m m' : EntityMap E) l' i,
  good σ -> Forall block_ok l -> resolves_all (s_utxos σ) i (WorkBlock.block <$> l) ->
  map_Forall (fun _ body => decode_output body = true) i ->
  (forall nk e, m !! nk = Some e -> s_entities σ !! nk = e) -> cached m l ->
  (forall nk, adm_seq (queue_of l nk) (s_entities σ !! nk)) ->
  WorkBatch.apply_blocks m l = Ret (m', l') ->
  exists h σn, logged σ (Wal.row_of <$> (WorkBatch.log_entry i <$> l')) h σn /\ good σn /\
    chain σ l h /\
    (forall nk, s_entities σn !! nk = overlay (s_entities σ) m' !! nk) /\
    s_utxos σn = foldl next_utxos (s_utxos σ) (WorkBlock.block <$> l) /\
    (forall nk, is_Some (m' !! nk) <-> is_Some (m !! nk)) /\
    WorkBlock.block <$> l' = WorkBlock.block <$> l /\
    WorkBlock.utxo_delta <$> l' = WorkBlock.utxo_delta <$> l.
Proof.
  induction l as [|w l IH]; intros σ m m' l' i Hg Hok Hres Hout Hm Hca Hadm Hrun; cbn in Hrun.
  { injection Hrun as <- <-. exists [], σ. conj_split; try done; [constructor|].
    intros nk. rewrite lookup_overlay. destruct (m !! nk) eqn:Em; [|done]. by apply Hm. }
  apply bind_Ret in Hrun as ([m1 d1] & E1 & Hrun). apply bind_Ret in Hrun as ([m2 l2] & E2 & Hrun).
  cbn in E2, Hrun. injection Hrun as <- <-.
  apply Forall_cons in Hok as [Hw Hok]. destruct Hres as [Hr Hres].
  destruct (apply_block_undoes σ m m1 w d1 i l Hg Hw Hr Hout Hm
              ltac:(intros nk; apply (Hca w); by left) Hadm E1) as (Hg1 & Hu1 & Hs1 & Hd1 & Ha1).
  set (σ1 := mkSnap _ _) in *.
  destruct (IH σ1 m1 m2 l2 i Hg1 Hok Hres Hout) as (h & σn & Hl & Hgn & Hh & He & Hut & Hd & Hp & Hdl);
    [|intros w' nk Hw' Hs; apply Hd1; apply (Hca w'); [by right|done]|done|done|].
  { intros nk e Hl. cbn. by rewrite lookup_overlay, Hl. }
  exists ((WorkBlock.point w, σ1) :: h), σn. conj_split.
  - apply (logged_app _ [_] [_] σ1); [|done]. apply logged_one; [|done|exact Hu1]. apply Hw.
  - done.
  - done.
  - intros nk. rewrite He. cbn. rewrite !lookup_overlay.
    destruct (m2 !! nk) eqn:Em2; [done|]. cbn. destruct (m1 !! nk) eqn:Em1; [|done].
    destruct (Hd nk) as [_ Hs]. rewrite Em1, Em2 in Hs. by destruct Hs.
  - rewrite Hut. done.
  - intros nk. by rewrite Hd.
  - cbn. by f_equal.
  - cbn. by f_equal.
Qed.

(** ** The phases of the unit *)

Lemma insert_by_le {A} (f : A -> Z) x l :
  (forall y, y ∈ l -> f x ≤ f y) -> WorkBatch.insert_by f x l = x :: l.
Proof.
  destruct l as [|y l]; [done|]. intros H. cbn.
  rewrite (proj2 (Z.leb_le _ _)); [done|]. apply H. by left.
Qed.

Lemma insert_by_elem {A} (f : A -> Z) x y l : y ∈ WorkBatch.insert_by f x l <-> y = x \/ y ∈ l.
Proof.
  induction l as [|z l IH]; cbn; [by rewrite list_elem_of_singleton, elem_of_nil; naive_solver|].
  destruct (f x <=? f z); [by rewrite !elem_of_cons|]. rewrite !elem_of_cons, IH. tauto.
Qed.

Lemma sort_elem {A} (f : A -> Z) y l : y ∈ WorkBatch.sort_by_key f l <-> y ∈ l.
Proof.
  induction l as [|x l IH]; [done|]. cbn. rewrite insert_by_elem, elem_of_cons. by rewrite IH.
Qed.

Lemma insert_by_sorted {A} (f : A -> Z) x l :
  StronglySorted (fun x y => f x ≤ f y) l ->
  StronglySorted (fun x y => f x ≤ f y) (WorkBatch.insert_by f x l).
Proof.
  induction 1 as [|y l Hs IH Hf]; cbn; [repeat constructor|].
  destruct (Z.leb_spec (f x) (f y)).
  - constructor; [by constructor|]. constructor; [done|].
    eapply Forall_impl; [exact Hf|]. cbn. lia.
  - constructor; [done|]. rewrite Forall_forall in *. intros z Hz.
    apply insert_by_elem in Hz as [->|Hz]; [lia|]. by apply Hf.
Qed.

Lemma sort_sorted {A} (f : A -> Z) l :
  StronglySorted (fun x y => f x ≤ f y) (WorkBatch.sort_by_key f l).
Proof. induction l as [|x l IH]; cbn; [constructor|]. by apply insert_by_sorted. Qed.

Lemma sort_id {A} (f : A -> Z) l :
  StronglySorted (fun x y => f x ≤ f y) l -> WorkBatch.sort_by_key f l = l.
Proof.
  induction 1 as [|x l Hs IH Hf]; [done|]. cbn. unfold WorkBatch.sort_by_key in IH. rewrite IH.
  apply insert_by_le. by apply Forall_forall.
Qed.

Lemma sort_fmap {A B} (f : A -> Z) (g : B -> Z) l k :
  StronglySorted (fun x y => f x ≤ f y) l -> f <$> l = g <$> k ->
  WorkBatch.sort_by_key g k = k.
Proof.
  intros Hs Ek. apply sort_id. revert k Ek.
  induction Hs as [|x l Hs IH Hf]; intros [|y k] Ek; try done; [constructor|].
  cbn in Ek. injection Ek as E0 Ek. constructor; [by apply IH|].
  rewrite Forall_forall in Hf. apply Forall_forall. intros z Hz. rewrite <- E0.
  assert (Hi : g z ∈ g <$> k) by (by apply list_elem_of_fmap_2). rewrite <- Ek in Hi.
  apply list_elem_of_fmap in Hi as (z' & -> & Hz'). by apply Hf.
Qed.

Lemma chunks_join {A} (n fuel : nat) (l : list A) :
  (0 < n)%nat -> (length l ≤ fuel)%nat -> mjoin (WorkBatch.chunks n fuel l) = l.
Proof.
  intros Hn. revert l; induction fuel as [|fuel IH]; intros [|x l] Hl; try done; [cbn in Hl; lia|].
  cbn [WorkBatch.chunks]. change (mjoin (?a :: ?b)) with (a ++ mjoin b).
  rewrite IH; [by rewrite take_drop|]. rewrite length_drop. cbn in *. lia.
Qed.

Lemma load_chunks_lookup (s : S) cs : decodable E s ->
  exists m : EntityMap E, WorkBatch.load_chunks s cs = Ok m /\
    forall nk, m !! nk = if bool_decide (nk ∈ mjoin cs) then Some (read_or_none E s nk) else None.
Proof.
  intros Hd. induction cs as [|c cs (r & Hr & Hrl)]; cbn [WorkBatch.load_chunks].
  { exists ∅. split; [done|]. intros nk. rewrite lookup_empty. by rewrite bool_decide_false by apply not_elem_of_nil. }
  destruct (load_entity_chunk_lookup (E := E) c s Hd) as (m & -> & Hm). rewrite Hr.
  exists (r ∪ m). split; [done|]. intros nk. change (mjoin (c :: cs)) with (c ++ mjoin cs).
  rewrite lookup_union, Hrl, Hm. destruct (decide (nk ∈ c ++ mjoin cs)) as [Hi|Hi].
  - rewrite (bool_decide_true (nk ∈ c ++ _)) by done. apply elem_of_app in Hi as [Hi|Hi].
    + rewrite (bool_decide_true (nk ∈ c)) by done. by case_bool_decide.
    + rewrite (bool_decide_true (nk ∈ mjoin cs)) by done. by case_bool_decide.
  - rewrite (bool_decide_false (nk ∈ c ++ _)) by done. rewrite elem_of_app in Hi.
    by rewrite !bool_decide_false by naive_solver.
Qed.

(** Loading the entities of a batch reads every key its blocks change. *)
Lemma load_entities_lookup (b : WorkBatch.t D E) (s : S) : decodable E s ->
  exists m : EntityMap E,
    WorkBatch.load_entities b s = Ok (b <| WorkBatch.entities := m ∪ WorkBatch.entities b |>) /\
    (forall nk e, m !! nk = Some e -> e = read_or_none E s nk) /\ cached m (WorkBatch.blocks b).
Proof.
  intros Hd. unfold WorkBatch.load_entities.
  set (keys := merge_sort _ _).
  destruct (load_chunks_lookup s (WorkBatch.chunks WorkBatch.LOAD_CHUNK_SIZE (length keys) keys) Hd)
    as (m & -> & Hm).
  rewrite chunks_join in Hm by (unfold WorkBatch.LOAD_CHUNK_SIZE; lia).
  exists m. conj_split; [done| |].
  - intros nk e He. rewrite Hm in He. by case_bool_decide; simplify_eq.
  - intros w nk Hw [ds Hs]. rewrite Hm, bool_decide_true; [done|].
    unfold keys. rewrite merge_sort_Permutation. apply elem_of_remove_dups, list_elem_of_bind.
    exists w. split; [|done]. apply list_elem_of_fmap. exists (nk, ds). split; [done|].
    by apply elem_of_map_to_list.
Qed.

(** The block carries the delta its inputs give. *)
Definition has_delta (i : UtxoMap) (b : Block) (od : option UtxoSetDelta.t) : Prop :=
  exists d, od = Some d /\ compute_apply_delta b i = Ok d.

Lemma utxo_deltas_Ok i (l l1 : list (WorkBlock.t D)) :
  WorkBatch.utxo_deltas i l = Ok l1 ->
  WorkBlock.block <$> l1 = WorkBlock.block <$> l /\
  WorkBlock.deltas <$> l1 = WorkBlock.deltas <$> l /\
  (forall nk, queue_of l1 nk = queue_of l nk) /\
  (Forall block_ok l -> Forall block_ok l1) /\
  Forall2 (has_delta i) (WorkBlock.block <$> l1) (WorkBlock.utxo_delta <$> l1).
Proof.
  revert l1; induction l as [|w l IH]; intros l1 Hl; cbn in Hl.
  { injection Hl as <-. by conj_split. }
  destruct (compute_apply_delta (WorkBlock.block w) i) as [d|] eqn:Ed; [|done].
  destruct (WorkBatch.utxo_deltas i l) as [l2|] eqn:El; [|done]. injection Hl as <-.
  destruct (IH l2 eq_refl) as (Hb & Hdl & Hq & Hok & H2). conj_split.
  - cbn. by f_equal.
  - cbn. by f_equal.
  - intros nk. cbn. f_equal. apply Hq.
  - intros Hf. apply Forall_cons in Hf as [Hw Hf]. constructor; [exact Hw|by apply Hok].
  - cbn. constructor; [|done]. by exists d.
Qed.

(** Writing the UTxO deltas of the blocks. *)
Lemma save_utxos_exec i (l : list (WorkBlock.t D)) (w : W) (t : Tables V) :
  resolves_all (utxos (exec_all t (pending w))) i (WorkBlock.block <$> l) ->
  Forall2 (has_delta i) (WorkBlock.block <$> l) (WorkBlock.utxo_delta <$> l) ->
  exec_all t (pending (foldl WorkBatch.save_utxos w l)) =
  let t0 := exec_all t (pending w) in
  mkTables (cursor t0) (entities t0) (foldl next_utxos (utxos t0) (WorkBlock.block <$> l)).
Proof.
  revert w; induction l as [|b l IH]; intros w Hr Hd; cbn.
  { by destruct (exec_all t (pending w)). }
  cbn in Hr, Hd. destruct Hr as [Hb Hr]. inversion Hd as [|? ? ? ? (d & Ed & Hc) Hd']; subst.
  assert (Hs : exec_all t (pending (WorkBatch.save_utxos w b)) =
    mkTables (cursor (exec_all t (pending w))) (entities (exec_all t (pending w)))
      (next_utxos (utxos (exec_all t (pending w))) (WorkBlock.block b))).
  { unfold WorkBatch.save_utxos. rewrite Ed, apply_utxoset_spec, exec_all_app, exec_utxoset.
    f_equal. destruct (resolves_apply _ _ _ Hb) as (d' & Hc' & Hs). rewrite Hc in Hc'.
    simplify_eq. exact Hs. }
  rewrite IH; [by rewrite Hs|by rewrite Hs|done].
Qed.

Lemma map_err_Ok {F G A} (f : F -> G) (r : result F A) a : map_err f r = Ok a -> r = Ok a.
Proof. destruct r; cbn; naive_solver. Qed.

(** A batch as it is handed to the unit: nothing loaded or cached yet. *)
Definition fresh_batch (b : WorkBatch.t D E) : Prop :=
  WorkBatch.utxos b = ∅ /\ WorkBatch.entities b = ∅.

(** The blocks in the order the unit applies them. *)
Definition ordered (b : WorkBatch.t D E) : list (WorkBlock.t D) :=
  WorkBatch.sort_by_key WorkBlock.slot (WorkBatch.blocks b).

(** What loading leaves in the batch. *)
Record loaded_batch (σ : Snap) (l : list (WorkBlock.t D)) (b : WorkBatch.t D E) : Prop := {
  lb_utxos : WorkBatch.utxos b = batch_inputs (s_utxos σ) (WorkBlock.block <$> l);
  lb_outputs : map_Forall (fun _ body => decode_output body = true) (WorkBatch.utxos b);
  lb_blocks : WorkBlock.block <$> WorkBatch.blocks b = WorkBlock.block <$> l;
  lb_block_deltas : WorkBlock.deltas <$> WorkBatch.blocks b = WorkBlock.deltas <$> l;
  lb_queue : forall nk, queue_of (WorkBatch.blocks b) nk = queue_of l nk;
  lb_ok : Forall block_ok (WorkBatch.blocks b);
  lb_deltas : Forall2 (has_delta (WorkBatch.utxos b))
    (WorkBlock.block <$> WorkBatch.blocks b) (WorkBlock.utxo_delta <$> WorkBatch.blocks b);
  lb_entities : forall nk e, WorkBatch.entities b !! nk = Some e -> s_entities σ !! nk = e;
  lb_cached : cached (WorkBatch.entities b) (WorkBatch.blocks b);
}.

Lemma roll_load_Ok σ (b b' : WorkBatch.t D E) (s : S) :
  fresh_batch b -> holds s σ -> batch_ok σ (ordered b) ->
  roll_load b s = Ret (Ok b') -> loaded_batch σ (ordered b) b'.
Proof.
  intros [Hu He] Hh (Hok & Hadm & Hav & Hfr) Hr. unfold roll_load in Hr.
  apply bind_Ret in Hr as (c & _ & Hr). apply rbind_Ret in Hr as (u & _ & Hr).
  apply rbind_Ret in Hr as (b1 & H1 & Hr). apply rbind_Ret in Hr as (b2 & H2 & Hr).
  apply Ret_inj, map_err_Ok in H1, H2, Hr.
  unfold WorkBatch.decode_utxos in H1. case_bool_decide as Hout; [|done]. injection H1 as <-.
  unfold WorkBatch.load_utxos in Hout, H2. fold (ordered b) in *.
  unfold WorkBatch.sort_by_slot in Hout, H2. cbn -[dependencies] in Hout, H2. rewrite Hu in *.
  fold (ordered b) in *.
  set (i := batch_inputs (s_utxos σ) (WorkBlock.block <$> ordered b)).
  destruct (dependencies (WorkBlock.block <$> ordered b) ∅) as [ld refs] eqn:Ed.
  assert (Ei : get_utxos s (remove_dups refs) ∪ ld = i).
  { unfold i, batch_inputs. rewrite Ed. cbn. f_equal. apply map_eq. intros r.
    rewrite get_utxos_spec, lookup_restrict. by rewrite (proj2 Hh). }
  unfold WorkBatch.compute_utxo_deltas in H2. cbn in Hout, H2. rewrite Ei in *.
  destruct (WorkBatch.utxo_deltas i (ordered b)) as [l1|] eqn:El; [|done]. injection H2 as <-.
  destruct (utxo_deltas_Ok _ _ _ El) as (Hb1 & Hdl1 & Hq1 & Hok1 & Hd1).
  match type of Hr with WorkBatch.load_entities ?b0 _ = _ =>
    destruct (load_entities_lookup b0 s (holds_decodable _ _ Hh)) as (m & Hm & Hme & Hmc) end.
  rewrite Hm in Hr. injection Hr as <-. cbn in *. rewrite He.
  constructor; cbn; rewrite ?(right_id_L ∅ (∪)); try done; [by apply Hok1|].
  intros nk e Hl. rewrite (Hme nk e Hl). unfold read_or_none. by rewrite (proj1 Hh).
Qed.

Lemma sorted_chain {A} (R : A -> A -> Prop) `{!Transitive R} a x c :
  StronglySorted R (a ++ [x]) -> StronglySorted R (x :: c) -> StronglySorted R ((a ++ [x]) ++ c).
Proof.
  intros H1 H2. apply StronglySorted_inv in H2 as [Hc Hx]. rewrite Forall_forall in Hx.
  apply StronglySorted_app_2; [|done|done]. intros y z Hy Hz.
  apply elem_of_app in Hy as [Hy| ->%list_elem_of_singleton]; [|by apply Hx].
  transitivity x; [|by apply Hx]. eapply StronglySorted_app_1_elem_of; [done|done|by left].
Qed.

#[local] Instance key_lt_transitive : Transitive key_lt.
Proof. intros a b c. apply Wal.key_lt_trans. Qed.

Lemma logged_keys σ0 rs h σn : logged σ0 rs h σn -> rs.*1 = ChainPoint.into_bytes <$> h.*1.
Proof. induction 1 as [|rs h σ p l σ' H IH Hc Hg Hu]; [done|]. by rewrite !fmap_app, IH. Qed.

Lemma logged_none σ rs σn : logged σ rs [] σn -> σ = σn.
Proof.
  remember [] as h eqn:Eh. destruct 1 as [|rs h σ1 p l σ' H Hc Hg Hu]; [done|]. by destruct h.
Qed.

Lemma logged_last σ0 rs h p σ σn : logged σ0 rs (h ++ [(p, σ)]) σn -> σ = σn /\ good σ.
Proof.
  intros H. destruct (logged_split _ _ _ _ _ _ _ H) as (r1 & l & r2 & -> & H1 & _ & Hg & H2).
  split; [by apply logged_none in H2|done].
Qed.

(** The tip of a tracked node, and how the history grows from it. *)
Lemma tracked_tip n hist p σ :
  tracked n (hist ++ [(p, σ)]) ->
  good σ /\ holds (state n) σ /\
  (rows (wal n)).*1 = ChainPoint.into_bytes <$> (hist ++ [(p, σ)]).*1 /\
  forall n' rs' h' σ', logged σ rs' h' σ' -> rows (wal n') = rows (wal n) ++ rs' ->
    holds (state n') σ' -> read_cursor (state n') = fst <$> last ((hist ++ [(p, σ)]) ++ h') ->
    tracked n' ((hist ++ [(p, σ)]) ++ h').
Proof.
  intros (p0 & l0 & σ0 & rs & h & σn & Eh & Hc0 & Hg0 & Hrows & Hlog & Hh & Hcur).
  assert (Hlast : σ = σn /\ good σ).
  { destruct hist as [|x hist]; cbn in Eh.
    - injection Eh as -> -> <-. split; [by apply logged_none in Hlog|done].
    - injection Eh as -> <-. exact (logged_last _ _ _ _ _ _ Hlog). }
  destruct Hlast as [-> Hg]. conj_split; [done|done| |].
  - rewrite Hrows, Eh. cbn. f_equal. by apply (logged_keys _ _ _ _ Hlog).
  - intros n' rs' h' σ' Hl' Hr' Hh' Hcur'. exists p0, l0, σ0, (rs ++ rs'), (h ++ h'), σ'.
    rewrite Hr', Hrows, Eh in *. conj_split; try done. by eapply logged_app.
Qed.

(** Committing the state of an applied batch. *)
Lemma commit_state_holds σ σn (b : WorkBatch.t D E) (s s' : S) i :
  holds s σ -> good σn ->
  (forall nk, s_entities σn !! nk = overlay (s_entities σ) (WorkBatch.entities b) !! nk) ->
  s_utxos σn = foldl next_utxos (s_utxos σ) (WorkBlock.block <$> WorkBatch.blocks b) ->
  resolves_all (s_utxos σ) i (WorkBlock.block <$> WorkBatch.blocks b) ->
  Forall2 (has_delta i) (WorkBlock.block <$> WorkBatch.blocks b)
    (WorkBlock.utxo_delta <$> WorkBatch.blocks b) ->
  WorkBatch.commit_state b s = Ret s' ->
  holds s' σn /\ exists p, last (WorkBlock.point <$> WorkBatch.blocks b) = Some p /\
    read_cursor s' = Some p.
Proof.
  intros Hh Hgn Hen Hun Hr Hd Hc. unfold WorkBatch.commit_state in Hc.
  apply bind_Ret in Hc as (p & Hp & Hc). injection Hc as <-.
  unfold WorkBatch.last_point in Hp. apply bind_Ret in Hp as (w & Hw & Hp).
  apply expect_Ret in Hw. injection Hp as <-.
  destruct (save_stored s (WorkBatch.entities b) (start_writer s)
              (fun nk => s_entities σn !! nk))
    as (Hst & _ & Hu).
  { intros nk. rewrite Hen, lookup_overlay. unfold view. destruct (_ !! nk); [done|]. apply Hh. }
  { apply Hgn. }
  { by rewrite start_writer_spec. }
  rewrite start_writer_spec in Hu. cbn in Hu. rewrite (proj2 Hh) in Hu.
  rewrite read_cursor_spec. unfold holds, stored.
  rewrite !commit_spec, set_cursor_spec, exec_all_app, (save_utxos_exec i) by (by rewrite ?Hu).
  cbn. rewrite Hu, Hun. split; [done|]. exists (WorkBlock.point w). split; [|done].
  by rewrite fmap_last, Hw.
Qed.

(** Rolling a batch forward extends the history by its blocks. *)
Lemma roll_extends n hist p σ (b : WorkBatch.t D E) n' :
  tracked n (hist ++ [(p, σ)]) -> fresh_batch b -> batch_ok σ (ordered b) ->
  StronglySorted key_lt (ChainPoint.into_bytes <$> (p :: (WorkBlock.point <$> ordered b))) ->
  roll b n = Ret (Ok n') ->
  exists h, h ≠ [] /\ chain σ (ordered b) h /\ tracked n' ((hist ++ [(p, σ)]) ++ h).
Proof.
  intros Ht Hf Hok Hs Hroll. destruct (tracked_tip _ _ _ _ Ht) as (Hg & Hh & Hk & Hnext).
  unfold roll in Hroll. apply rbind_Ret in Hroll as (b1 & Hl & Hroll).
  apply (roll_load_Ok σ) in Hl; [|done..]. destruct Hl as [Lu Lo Lb Lbd Lq Lok Ld Le Lc].
  apply bind_Ret in Hroll as (b2 & Hc & Hroll). apply bind_Ret in Hroll as (wal' & Hwal & Hroll).
  apply bind_Ret in Hroll as (st' & Hst & Hroll). injection Hroll as <-.
  unfold roll_compute, WorkBatch.apply_entities in Hc.
  apply bind_Ret in Hc as ([m l'] & Ha & Hc). injection Hc as <-. cbn in Ha.
  rewrite (sort_fmap WorkBlock.slot WorkBlock.slot (ordered b)) in Ha;
    [|apply sort_sorted|by apply (f_equal (fmap block_slot)) in Lb; rewrite <- !list_fmap_compose in Lb].
  assert (Hres : resolves_all (s_utxos σ) (WorkBatch.utxos b1) (WorkBlock.block <$> WorkBatch.blocks b1)).
  { rewrite Lu, Lb. by apply batch_inputs_resolve; apply Hok. }
  destruct (apply_blocks_logged _ σ _ _ _ (WorkBatch.utxos b1) Hg Lok Hres Lo Le Lc
              ltac:(intros nk; rewrite Lq; apply Hok) Ha)
    as (h & σn & Hlog & Hgn & Hch & Hen & Hun & _ & Hbl & Hdl).
  unfold WorkBatch.commit_wal in Hwal. apply bind_Ret in Hwal as (? & _ & Hwal).
  apply bind_Ret in Hwal as (? & _ & Hwal). injection Hwal as <-. cbn in Hst.
  assert (Hpt : forall a c : list (WorkBlock.t D), WorkBlock.block <$> a = WorkBlock.block <$> c ->
            WorkBlock.point <$> a = WorkBlock.point <$> c).
  { intros a c Hac. by apply (f_equal (fmap (fun b =>
      ChainPoint.Specific (block_slot b) (block_hash b)))) in Hac; rewrite <- !list_fmap_compose in Hac. }
  apply (chain_ext _ _ _ _ Lb Lbd) in Hch. pose proof (chain_points _ _ _ Hch) as Hh1.
  destruct (commit_state_holds σ σn (WorkBatch.mk l' (WorkBatch.utxos b1) (WorkBatch.utxos_decoded b1)
              m true true) (state n) st' (WorkBatch.utxos b1)) as (Hhn & q & Hq & Hcn); cbn;
    [done|done|done|by rewrite Hbl|by rewrite Hbl|by rewrite Hbl, Hdl|exact Hst|].
  cbn in Hq. rewrite (Hpt _ _ Hbl), (Hpt _ _ Lb), <- Hh1 in Hq.
  exists h. conj_split; [by intros ->|done|]. apply (Hnext _ _ h σn Hlog); [|done|]; cbn.
  - apply Wal.rows_append. apply Wal.sorted_rows. rewrite fmap_app, Hk.
    rewrite (logged_keys _ _ _ _ Hlog), Hh1, (fmap_app fst hist), fmap_app.
    apply (sorted_chain key_lt); [|exact Hs].
    change [(p, σ)].*1 with [p]. change (ChainPoint.into_bytes <$> [p]) with [ChainPoint.into_bytes p].
    pose proof (rows_sorted (wal n)) as Hrs. rewrite Hk, (fmap_app fst hist), fmap_app in Hrs. exact Hrs.
  - rewrite Hcn, <- (fmap_last fst), (fmap_app fst), last_app. by rewrite Hq.
Qed.

(** ** Rolling forward returns

    The unit never panics and never errors on a batch the abstract ledger can
    apply, that extends the cursor and whose outputs decode. *)

Lemma apply_entity_returns (ks : list NsKey) : forall (m : EntityMap E) (w : WorkDeltas.t D),
  NoDup ks ->
  (forall k ds, k ∈ ks -> w !! k = Some ds ->
     exists e r, m !! k = Some e /\ WorkBatch.apply_seq ds e = Ret r) ->
  exists r, run_foldl WorkBatch.apply_entity (m, w) ks = Ret r.
Proof.
  induction ks as [|k ks IH]; intros m w Hnd Hks; [by eexists|].
  apply NoDup_cons in Hnd as [Hni Hnd]. cbn. destruct (w !! k) as [ds|] eqn:Ew; cbn.
  - destruct (Hks k ds) as (e & r & -> & Hr); [by left|done|]. cbn. rewrite Hr. cbn.
    apply IH; [done|]. intros k' ds' Hk' Hw'.
    rewrite lookup_insert_ne in Hw' by (by intros ->). rewrite lookup_insert_ne by (by intros ->).
    apply Hks; [by right|done].
  - apply IH; [done|]. intros k' ds' Hk'. apply Hks. by right.
Qed.

(** A block the abstract ledger can apply: the loop returns, and the cache
    follows the ledger. *)
Lemma apply_block_returns (σ σ' : Snap) (m : EntityMap E) (w : WorkBlock.t D) :
  block_step σ w σ' -> (forall nk e, m !! nk = Some e -> s_entities σ !! nk = e) ->
  exists m' d',
    run_foldl WorkBatch.apply_entity (m, WorkBlock.deltas w) (map_to_list m).*1 = Ret (m', d') /\
    (forall nk e, m' !! nk = Some e -> s_entities σ' !! nk = e) /\
    (forall nk, is_Some (m !! nk) -> is_Some (m' !! nk)).
Proof.
  intros [He _] Hm.
  destruct (apply_entity_returns (map_to_list m).*1 m (WorkBlock.deltas w)) as [[m' d'] Hr].
  { apply NoDup_fst_map_to_list. }
  { intros k ds Hk Hw. apply list_elem_of_fmap in Hk as ([k' e] & -> & Hk).
    apply elem_of_map_to_list in Hk. cbn in *. exists e. destruct (He k') as [ds' Hs].
    rewrite Hw, (Hm _ _ Hk) in Hs. by eexists. }
  exists m', d'. split; [done|]. pose proof (apply_block_step _ _ _ _ Hr) as Hst.
  split; intros nk; [intros e Hl|]; specialize (Hst nk); destruct (He nk) as [ds' Hs];
    destruct (m !! nk) as [e0|] eqn:Em; cbn in Hst.
  - rewrite (Hm _ _ Em) in Hs. destruct (WorkBlock.deltas w !! nk); cbn in Hs.
    + destruct Hst as (x & ds1 & x' & [= <-] & Hs1 & Hm' & _). congruence.
    + destruct Hst as [Hm' _]. run_inv. congruence.
  - destruct Hst as [Hm' _]. congruence.
  - intros _. destruct (WorkBlock.deltas w !! nk); [|by destruct Hst as [-> _]].
    destruct Hst as (x & ds1 & x' & _ & _ & -> & _). eauto.
  - by intros [].
Qed.

Lemma apply_blocks_returns l : forall (σ : Snap) (m : EntityMap E) h,
  chain σ l h -> (forall nk e, m !! nk = Some e -> s_entities σ !! nk = e) ->
  exists r, WorkBatch.apply_blocks m l = Ret r /\ length r.2 = length l.
Proof.
  induction l as [|w l IH]; intros σ m [|[p σ'] h] Hch Hm; try done; [by eexists|].
  destruct Hch as (_ & Hs & Hch).
  destruct (apply_block_returns _ _ _ _ Hs Hm) as (m' & d' & Hr & Hm' & _).
  cbn. rewrite Hr. cbn. destruct (IH σ' m' h Hch Hm') as (r & -> & Hl). cbn.
  eexists. split; [done|]. cbn. by rewrite Hl.
Qed.

Lemma utxo_deltas_returns i l : forall u,
  resolves_all u i (WorkBlock.block <$> l) ->
  exists l1 : list (WorkBlock.t D), WorkBatch.utxo_deltas i l = Ok l1.
Proof.
  induction l as [|w l IH]; intros u Hr; [by eexists|]. destruct Hr as [Hw Hr]. cbn.
  destruct (resolves_apply _ _ _ Hw) as (d & -> & _). destruct (IH _ Hr) as [l1 ->]. by eexists.
Qed.

Lemma roll_load_returns (σ : Snap) (b : WorkBatch.t D E) (s : S) p :
  fresh_batch b -> holds s σ -> batch_ok σ (ordered b) -> read_cursor s = Some p ->
  WorkBatch.continuity_from p (ordered b) = Ok tt ->
  map_Forall (fun _ body => decode_output body = true)
    (batch_inputs (s_utxos σ) (WorkBlock.block <$> ordered b)) ->
  exists b', roll_load b s = Ret (Ok b').
Proof.
  intros [Hu He] Hh (_ & _ & Hav & Hfr) Hcur Hcont Hout. unfold roll_load, WorkBatch.check_continuity.
  cbn -[dependencies]. fold (ordered b). rewrite Hcur. cbn -[dependencies]. rewrite Hcont.
  assert (Hda : debug_assert true = Ret tt) by (unfold debug_assert; by destruct debug_assertions).
  rewrite Hda. cbn -[dependencies].
  unfold WorkBatch.load_utxos. cbn -[dependencies]. fold (ordered b). rewrite Hu.
  destruct (dependencies (WorkBlock.block <$> ordered b) ∅) as [ld refs] eqn:Ed.
  assert (Ei : get_utxos s (remove_dups refs) ∪ ld =
               batch_inputs (s_utxos σ) (WorkBlock.block <$> ordered b)).
  { unfold batch_inputs. rewrite Ed. cbn. f_equal. apply map_eq. intros r.
    rewrite get_utxos_spec, lookup_restrict. by rewrite (proj2 Hh). }
  unfold WorkBatch.decode_utxos. cbn. rewrite Ei, bool_decide_true by done. cbn.
  unfold WorkBatch.compute_utxo_deltas. cbn. fold (ordered b).
  destruct (utxo_deltas_returns _ _ _ (batch_inputs_resolve _ _ Hfr Hav)) as [l1 ->]. cbn.
  match goal with |- context [WorkBatch.load_entities ?b0 _] =>
    destruct (load_entities_lookup b0 s (holds_decodable _ _ Hh)) as (m & -> & _) end.
  by eexists.
Qed.

Lemma roll_returns n hist p σ (b : WorkBatch.t D E) h :
  tracked n (hist ++ [(p, σ)]) -> fresh_batch b -> batch_ok σ (ordered b) ->
  WorkBatch.continuity_from p (ordered b) = Ok tt ->
  map_Forall (fun _ body => decode_output body = true)
    (batch_inputs (s_utxos σ) (WorkBlock.block <$> ordered b)) ->
  ordered b ≠ [] -> chain σ (ordered b) h -> exists n', roll b n = Ret (Ok n').
Proof.
  intros Ht Hf Hok Hcont Hout Hne Hch. destruct (tracked_tip _ _ _ _ Ht) as (Hg & Hh & _ & _).
  assert (Hcur : read_cursor (state n) = Some p).
  { destruct Ht as (? & ? & ? & ? & ? & ? & _ & _ & _ & _ & _ & _ & Hc). by rewrite Hc, last_snoc. }
  destruct (roll_load_returns σ b (state n) p) as [b1 Hl]; [done..|].
  unfold roll. rewrite Hl. cbn. apply (roll_load_Ok σ) in Hl; [|done..].
  destruct Hl as [_ _ Lb Lbd _ _ _ Le _]. unfold roll_compute, WorkBatch.apply_entities. cbn.
  rewrite (sort_fmap WorkBlock.slot WorkBlock.slot (ordered b));
    [|apply sort_sorted|by apply (f_equal (fmap block_slot)) in Lb; rewrite <- !list_fmap_compose in Lb].
  destruct (apply_blocks_returns (WorkBatch.blocks b1) σ (WorkBatch.entities b1) h) as ([m l'] & -> & Hlen);
    [by eapply chain_ext|done|]. cbn in *.
  unfold WorkBatch.commit_wal, WorkBatch.commit_state, WorkBatch.last_point. cbn.
  assert (Hda : debug_assert true = Ret tt) by (unfold debug_assert; by destruct debug_assertions).
  rewrite !Hda. cbn. destruct (last l') as [w|] eqn:El; [by eexists|].
  apply last_None in El as ->. exfalso. apply Hne.
  apply (f_equal length) in Lb. rewrite !length_fmap in Lb. cbn in Hlen.
  apply nil_length_inv. lia.
Qed.

(** ** Nodes reached by rolling forward and back *)

Inductive reachable : Node S T -> list (ChainPoint.t * Snap) -> Prop :=
| reach_start n p σ l :
    rows (wal n) = [(ChainPoint.into_bytes p, l)] -> ChainPoint.canonical p -> good σ ->
    holds (state n) σ -> read_cursor (state n) = Some p -> reachable n [(p, σ)]
| reach_roll n hist p σ b n' h :
    reachable n (hist ++ [(p, σ)]) -> fresh_batch b -> batch_ok σ (ordered b) ->
    StronglySorted key_lt (ChainPoint.into_bytes <$> (p :: (WorkBlock.point <$> ordered b))) ->
    roll b n = Ret (Ok n') -> chain σ (ordered b) h ->
    reachable n' ((hist ++ [(p, σ)]) ++ h)
| reach_rollback n hist1 p σ hist2 n' :
    reachable n (hist1 ++ (p, σ) :: hist2) -> rollback p n = Ret (Ok n') ->
    reachable n' (hist1 ++ [(p, σ)]).

Lemma reachable_tracked n hist : reachable n hist -> tracked n hist.
Proof.
  induction 1 as [n p σ l Hr Hc Hg Hh Hcur|n hist p σ b n' h _ IH Hf Hok Hs Hroll Hch
                 |n hist1 p σ hist2 n' _ IH Hrb].
  - exists p, l, σ, [], [], σ. conj_split; try done. constructor.
  - destruct (roll_extends _ _ _ _ _ _ IH Hf Hok Hs Hroll) as (h' & _ & Hch' & Ht).
    by rewrite (chain_det _ _ _ _ Hch Hch').
  - destruct (rollback_restores _ _ _ _ _ IH) as (n1 & E1 & _ & _ & Ht).
    rewrite E1 in Hrb. by injection Hrb as <-.
Qed.

End proofs.
