(* ===== verification/IndexBuilder.v ===== *)
(** * Index deltas of blocks (cardano/src/indexes/delta.rs, dimensions.rs)

    The builder that turns blocks and UTxO deltas into index deltas, the delta
    of a batch ([WorkBatch::build_index_delta]) and the deltas of an undone and
    of a replayed block ([CardanoLogic::compute_undo] and [compute_catchup]).

    The index of the UTxO filters follows the UTxO set when blocks are
    applied.  It does not follow it back: the delta of an undone block is
    empty. *)

From S2P Require Import Prelude Lists Types ChainPoint EntityDelta StateStore Blocks PallasExtras Indexes Wal Roll.
Open Scope Z_scope.

(** ** Dimensions *)

Module Utxo.
Definition ADDRESS : string := "address".
Definition PAYMENT : string := "payment".
Definition STAKE : string := "stake".
Definition POLICY : string := "policy".
Definition ASSET : string := "asset".
Definition SCRIPT_REF : string := "script_ref".
End Utxo.

Module ArchiveDim.
Definition ADDRESS : string := "address".
Definition PAYMENT : string := "payment".
Definition STAKE : string := "stake".
Definition ASSET : string := "asset".
Definition POLICY : string := "policy".
Definition DATUM : string := "datum".
Definition SCRIPT : string := "script".
Definition SPENT_TXO : string := "spent_txo".
Definition ACCOUNT_CERTS : string := "account_certs".
Definition POOL_CERTS : string := "pool_certs".
Definition ACCOUNT_WITHDRAWALS : string := "account_withdrawals".
Definition METADATA : string := VERBATIM_KEY_DIMENSION.
Definition ALL : list string :=
  [ADDRESS; PAYMENT; STAKE; ASSET; POLICY; DATUM; SCRIPT; SPENT_TXO; ACCOUNT_CERTS; POOL_CERTS;
   ACCOUNT_WITHDRAWALS; METADATA].
End ArchiveDim.

(** ** What the traversal of [pallas] gives of outputs, transactions and blocks

    Hashes of data and scripts are those [pallas] computes. *)

Inductive DatumOption := DatumHash (hash : bytes) | DatumData (original_hash : bytes).

Inductive ScriptRef :=
| NativeScriptRef (original_hash : bytes)
| PlutusV1ScriptRef (compute_hash : bytes)
| PlutusV2ScriptRef (compute_hash : bytes)
| PlutusV3ScriptRef (compute_hash : bytes).

Record OutputView := {
  out_address : option Address;
  out_coin : Z;
  (** the policies of the value, each with the names of its assets *)
  out_assets : list (bytes * list bytes);
  out_datum : option DatumOption;
  out_script_ref : option ScriptRef;
}.

Record TxView := {
  tv_hash : TxHash;
  tv_metadata : list Z;
  tv_inputs : list TxoRef;
  tv_produces : list OutputView;
  tv_native_scripts : list bytes;
  tv_plutus_v1_scripts : list bytes;
  tv_plutus_v2_scripts : list bytes;
  tv_plutus_v3_scripts : list bytes;
  tv_plutus_data : list bytes;
  tv_certs : list MultiEraCert;
  tv_withdrawals : list bytes;
  tv_redeemers : list bytes;
}.

Record BlockView := {
  bv_slot : BlockSlot;
  bv_hash : bytes;
  bv_number : Z;
  bv_txs : list TxView;
}.

Class Views := {
  (** [MultiEraOutput::try_from] *)
  view_output : EraCbor -> option OutputView;
  (** [MultiEraBlock::decode] *)
  view_block : bytes -> option BlockView;
}.

Definition script_ref_hash (s : ScriptRef) : bytes :=
  match s with
  | NativeScriptRef h => h
  | PlutusV1ScriptRef h => h
  | PlutusV2ScriptRef h => h
  | PlutusV3ScriptRef h => h
  end.

(** [Vec::<u8>::from(txo_ref)]. *)
Definition txo_ref_bytes (r : TxoRef) : bytes := fst r ++ to_be_bytes 4 (snd r).

(** ** The builder *)

Module Builder.
Section builder.
Context `{Addresses, Pallas, Views}.

Definition new (cursor : ChainPoint.t) : IndexDelta := empty_delta cursor.

Definition address_tags (address payment stake : string) (addr : Address) : list Tag :=
  match addr with
  | AddressShelley x =>
      [mkTag address (shelley_to_vec x); mkTag payment (payment_to_vec (shelley_payment x))] ++
      match shelley_address_to_stake_address x with Some s => [mkTag stake (stake_to_vec s)] | None => [] end
  | AddressStake x => [mkTag address (stake_to_vec x); mkTag stake (stake_to_vec x)]
  | AddressByron x => [mkTag address (byron_to_vec x)]
  end.

Definition asset_tags (policy asset : string) (assets : list (bytes * list bytes)) : list Tag :=
  assets ≫= fun ma => mkTag policy (fst ma) :: ((fun name => mkTag asset (fst ma ++ name)) <$> snd ma).

Definition extract_utxo_tags (output : OutputView) : list Tag :=
  match out_address output with
  | Some addr => address_tags Utxo.ADDRESS Utxo.PAYMENT Utxo.STAKE addr
  | None => []
  end ++
  asset_tags Utxo.POLICY Utxo.ASSET (out_assets output) ++
  match out_script_ref output with
  | Some s => [mkTag Utxo.SCRIPT_REF (script_ref_hash s)]
  | None => []
  end.

Definition push_produced (d : IndexDelta) (x : TxoRef * list Tag) : IndexDelta :=
  mkIndexDelta (delta_cursor d) (mkUtxoIndexDelta (produced (delta_utxo d) ++ [x]) (consumed (delta_utxo d))) (delta_archive d).

Definition push_consumed (d : IndexDelta) (x : TxoRef * list Tag) : IndexDelta :=
  mkIndexDelta (delta_cursor d) (mkUtxoIndexDelta (produced (delta_utxo d)) (consumed (delta_utxo d) ++ [x])) (delta_archive d).

Definition add_produced_utxo (d : IndexDelta) (r : TxoRef) (output : OutputView) : IndexDelta :=
  push_produced d (r, extract_utxo_tags output).

Definition add_consumed_utxo (d : IndexDelta) (r : TxoRef) (output : OutputView) : IndexDelta :=
  push_consumed d (r, extract_utxo_tags output).

Definition start_block (d : IndexDelta) (slot : BlockSlot) (hash : bytes) (number : option Z) : IndexDelta :=
  mkIndexDelta (delta_cursor d) (delta_utxo d) (delta_archive d ++ [mkArchiveIndexDelta slot hash number [] []]).

(** A change of [current_block()]; without a block it panics. *)
Definition on_current_block (d : IndexDelta) (f : ArchiveIndexDelta -> ArchiveIndexDelta) : run IndexDelta :=
  match reverse (delta_archive d) with
  | [] => Panic
  | b :: rest => Ret (mkIndexDelta (delta_cursor d) (delta_utxo d) (reverse rest ++ [f b]))
  end.

Definition push_tags (tags : list Tag) (b : ArchiveIndexDelta) : ArchiveIndexDelta :=
  mkArchiveIndexDelta (ad_slot b) (ad_block_hash b) (ad_block_number b) (ad_tx_hashes b) (ad_tags b ++ tags).

Definition add_tags (d : IndexDelta) (tags : list Tag) : run IndexDelta := on_current_block d (push_tags tags).

Definition add_tx_hash (d : IndexDelta) (hash : bytes) : run IndexDelta :=
  on_current_block d (fun b => mkArchiveIndexDelta (ad_slot b) (ad_block_hash b) (ad_block_number b)
    (ad_tx_hashes b ++ [hash]) (ad_tags b)).

Definition add_address (d : IndexDelta) (addr : Address) : run IndexDelta :=
  add_tags d (address_tags ArchiveDim.ADDRESS ArchiveDim.PAYMENT ArchiveDim.STAKE addr).

Definition add_assets (d : IndexDelta) (assets : list (bytes * list bytes)) : run IndexDelta :=
  add_tags d (asset_tags ArchiveDim.POLICY ArchiveDim.ASSET assets).

Definition add_datum (d : IndexDelta) (datum : DatumOption) : run IndexDelta :=
  add_tags d [mkTag ArchiveDim.DATUM match datum with DatumHash h => h | DatumData h => h end].

Definition add_datum_hash (d : IndexDelta) (hash : bytes) : run IndexDelta :=
  add_tags d [mkTag ArchiveDim.DATUM hash].

Definition add_spent_input (d : IndexDelta) (input : TxoRef) : run IndexDelta :=
  add_tags d [mkTag ArchiveDim.SPENT_TXO (txo_ref_bytes (input_ref input))].

Definition add_script_hash (d : IndexDelta) (hash : bytes) : run IndexDelta :=
  add_tags d [mkTag ArchiveDim.SCRIPT hash].

Definition cert_tags (cert : MultiEraCert) : list Tag :=
  match cert_as_stake_registration cert with
  | Some cred => [mkTag ArchiveDim.ACCOUNT_CERTS (cbor_cred cred)] | None => [] end ++
  match cert_as_stake_deregistration cert with
  | Some cred => [mkTag ArchiveDim.ACCOUNT_CERTS (cbor_cred cred)] | None => [] end ++
  match cert_as_stake_delegation cert with
  | Some deleg => [mkTag ArchiveDim.ACCOUNT_CERTS (cbor_cred (stake_delegator deleg))] | None => [] end ++
  match cert_as_pool_registration cert with
  | Some cert => [mkTag ArchiveDim.POOL_CERTS (Pools.MultiEraPoolRegistration.operator cert)] | None => [] end ++
  match cert_as_pool_retirement cert with
  | Some cert => [mkTag ArchiveDim.POOL_CERTS (retire_operator cert)] | None => [] end.

Definition add_cert (d : IndexDelta) (cert : MultiEraCert) : run IndexDelta :=
  match cert_tags cert with [] => Ret d | tags => add_tags d tags end.

Definition add_withdrawal (d : IndexDelta) (account : bytes) : run IndexDelta :=
  add_tags d [mkTag ArchiveDim.ACCOUNT_WITHDRAWALS account].

Definition add_metadata_label (d : IndexDelta) (label : Z) : run IndexDelta :=
  add_tags d [mkTag ArchiveDim.METADATA (to_be_bytes 8 label)].

(** The address, assets and datum of an output. *)
Definition add_output (d : IndexDelta) (output : OutputView) : run IndexDelta :=
  d ← match out_address output with Some addr => add_address d addr | None => Ret d end;
  d ← add_assets d (out_assets output);
  match out_datum output with Some datum => add_datum d datum | None => Ret d end.

(** The tags of one transaction of [index_block]. *)
Definition index_tx_tags (resolved_inputs : UtxoMap) (d : IndexDelta) (tx : TxView) : run IndexDelta :=
  d ← run_foldl add_metadata_label d (tv_metadata tx);
  d ← run_foldl (fun d input =>
        d ← add_spent_input d input;
        match resolved_inputs !! input_ref input ≫= view_output with
        | Some output => add_output d output
        | None => Ret d
        end) d (tv_inputs tx);
  d ← run_foldl (fun d output =>
        d ← add_output d output;
        match out_script_ref output with Some s => add_script_hash d (script_ref_hash s) | None => Ret d end)
        d (tv_produces tx);
  d ← run_foldl add_script_hash d (tv_native_scripts tx);
  d ← run_foldl add_script_hash d (tv_plutus_v1_scripts tx);
  d ← run_foldl add_script_hash d (tv_plutus_v2_scripts tx);
  d ← run_foldl add_script_hash d (tv_plutus_v3_scripts tx);
  d ← run_foldl add_datum_hash d (tv_plutus_data tx);
  d ← run_foldl add_cert d (tv_certs tx);
  d ← run_foldl add_withdrawal d (tv_withdrawals tx);
  run_foldl add_datum_hash d (tv_redeemers tx).

Definition index_tx (resolved_inputs : UtxoMap) (d : IndexDelta) (tx : TxView) : run IndexDelta :=
  d ← add_tx_hash d (tv_hash tx);
  index_tx_tags resolved_inputs d tx.

Definition index_block (d : IndexDelta) (block : BlockView) (resolved_inputs : UtxoMap) : run IndexDelta :=
  run_foldl (index_tx resolved_inputs) (start_block d (bv_slot block) (bv_hash block) (Some (bv_number block)))
    (bv_txs block).

Definition extract_tags_from_era_cbor (era_cbor : EraCbor) : option (list Tag) :=
  extract_utxo_tags <$> view_output era_cbor.

(** The loop over a map of outputs: those that decode are pushed. *)
Definition add_utxos (push : IndexDelta -> TxoRef * list Tag -> IndexDelta) (d : IndexDelta) (utxos : UtxoMap) : IndexDelta :=
  foldl (fun d x => match extract_tags_from_era_cbor (snd x) with Some tags => push d (fst x, tags) | None => d end)
    d (map_to_list utxos).

Definition add_produced_utxos_from_delta (d : IndexDelta) (u : UtxoSetDelta.t) : IndexDelta :=
  add_utxos push_produced d (UtxoSetDelta.produced_utxo u).

Definition add_consumed_utxos_from_delta (d : IndexDelta) (u : UtxoSetDelta.t) : IndexDelta :=
  add_utxos push_consumed d (UtxoSetDelta.consumed_utxo u).

Definition index_delta_from_utxo_delta (cursor : ChainPoint.t) (u : UtxoSetDelta.t) : IndexDelta :=
  add_consumed_utxos_from_delta (add_produced_utxos_from_delta (new cursor) u) u.

End builder.
End Builder.

(** ** Batches, undo and catch-up *)

Section batches.
Context `{Addresses, Pallas, Views}.

(** One block of [WorkBatch::build_index_delta]. *)
Definition index_work_block (decoded : UtxoMap) (d : IndexDelta) (raw : bytes) (u : option UtxoSetDelta.t) : run IndexDelta :=
  match view_block raw with
  | None => Ret d
  | Some block =>
      let d := match u with
               | Some u =>
                   let d := Builder.add_utxos Builder.push_produced d (UtxoSetDelta.produced_utxo u) in
                   let d := Builder.add_utxos Builder.push_consumed d (UtxoSetDelta.consumed_utxo u) in
                   let d := Builder.add_utxos Builder.push_produced d (UtxoSetDelta.recovered_stxi u) in
                   Builder.add_utxos Builder.push_consumed d (UtxoSetDelta.undone_utxo u)
               | None => d
               end in
      Builder.index_block d block decoded
  end.

Definition build_index_delta {D E} (b : WorkBatch.t D E) : run IndexDelta :=
  p ← WorkBatch.last_point b;
  run_foldl (fun d w => index_work_block (WorkBatch.utxos_decoded b) d (WorkBlock.raw w) (WorkBlock.utxo_delta w))
    (Builder.new p) (WorkBatch.blocks b).

(** [CardanoLogic::compute_undo]: the UTxO delta and the index delta of an
    undone block. *)
Definition compute_undo_data `{BlockDecoder} (block : bytes) (inputs : UtxoMap) (point : ChainPoint.t) :
    result ChainError (UtxoSetDelta.t * IndexDelta) :=
  match compute_undo block inputs with
  | Ok u => Ok (u, Builder.index_delta_from_utxo_delta point u)
  | Err e => Err e
  end.

(** [CardanoLogic::compute_catchup]. *)
Definition compute_catchup `{BlockDecoder} (block : bytes) (inputs : UtxoMap) (point : ChainPoint.t) :
    run (result ChainError (UtxoSetDelta.t * IndexDelta)) :=
  match decode_block block, view_block block with
  | Some b, Some v =>
      if bool_decide (map_Forall (fun _ body => decode_output body = true) inputs)
      then match compute_apply_delta b inputs with
           | Ok u =>
               let d := Builder.add_produced_utxos_from_delta (Builder.new point) u in
               let d := Builder.add_consumed_utxos_from_delta d u in
               d ← Builder.index_block d v inputs;
               Ret (Ok (u, d))
           | Err e => Ret (Err (BrokenInv e))
           end
      else Ret (Err DecodingError)
  | _, _ => Ret (Err DecodingError)
  end.

End batches.

(** ** The filters follow the UTxO set *)

Section coherence.
Context `{Addresses, Pallas, Views}.
Import MemoryIndex.
Implicit Types (u m : UtxoMap) (s : MemoryIndex.t).

(** A reference of the set whose output carries the tag. *)
Definition tagged (m : UtxoMap) (d : string) (k : bytes) (r : TxoRef) : Prop :=
  exists body tags, m !! r = Some body /\ Builder.extract_tags_from_era_cbor body = Some tags /\ mkTag d k ∈ tags.

(** The filters list exactly the outputs of the set, each under its tags. *)
Definition coherent (s : MemoryIndex.t) (u : UtxoMap) : Prop :=
  forall d k r, r ∈ utxos_by_tag s d k <-> tagged u d k r.

(** What a loop over a map pushes. *)
Lemma in_add_utxos push get (d : IndexDelta) m dim k r :
  (forall d x, get (push d x) = get d ++ [x]) ->
  in_tags (get (Builder.add_utxos push d m)) dim k r <-> in_tags (get d) dim k r \/ tagged m dim k r.
Proof.
  intros Hpush. unfold Builder.add_utxos, tagged. setoid_rewrite <- elem_of_map_to_list. generalize (map_to_list m) as l.
  intros l. revert d. induction l as [|[r' body] l IH]; intros d; cbn.
  - setoid_rewrite elem_of_nil. naive_solver.
  - rewrite IH. setoid_rewrite elem_of_cons. destruct (Builder.extract_tags_from_era_cbor body) as [tags|] eqn:E.
    + rewrite Hpush. unfold in_tags. setoid_rewrite elem_of_app. setoid_rewrite list_elem_of_singleton. naive_solver.
    + naive_solver.
Qed.

Lemma add_utxos_keeps {A} push (f : IndexDelta -> A) (d : IndexDelta) m :
  (forall d x, f (push d x) = f d) -> f (Builder.add_utxos push d m) = f d.
Proof.
  intros Hf. unfold Builder.add_utxos. generalize (map_to_list m) as l. intros l. revert d.
  induction l as [|x l IH]; intros d; cbn; [done|]. rewrite IH. by destruct (Builder.extract_tags_from_era_cbor _).
Qed.

(** *** Runs of deltas *)

(** Deltas that apply one after the other from [u]: each produces fresh
    references and consumes what is there, and no reference comes back. *)
Fixpoint applies (u : UtxoMap) (ds : list UtxoSetDelta.t) : Prop :=
  match ds with
  | [] => True
  | d :: ds =>
      UtxoSetDelta.recovered_stxi d = ∅ /\ UtxoSetDelta.undone_utxo d = ∅ /\
      UtxoSetDelta.produced_utxo d ##ₘ u /\
      UtxoSetDelta.consumed_utxo d ⊆ UtxoSetDelta.produced_utxo d ∪ u /\
      Forall (fun d' => UtxoSetDelta.produced_utxo d' ##ₘ UtxoSetDelta.consumed_utxo d) ds /\
      applies (utxo_step d u) ds
  end.

Lemma tagged_step u d dim k r :
  applies u [d] ->
  tagged (utxo_step d u) dim k r <->
  ~ tagged (UtxoSetDelta.consumed_utxo d) dim k r /\
  (tagged (UtxoSetDelta.produced_utxo d) dim k r \/ tagged u dim k r).
Proof.
  intros (Hr & Hu & Hf & Hc & _). unfold utxo_step. rewrite Hr, Hu, (left_id_L ∅ (∪)), map_difference_empty.
  unfold tagged. setoid_rewrite lookup_difference_Some. setoid_rewrite (lookup_union_Some _ _ _ _ Hf).
  assert (Hc' : forall body, UtxoSetDelta.consumed_utxo d !! r = Some body ->
    UtxoSetDelta.produced_utxo d !! r = Some body \/ u !! r = Some body).
  { intros body Hb. apply (lookup_union_Some _ _ _ _ Hf). by eapply lookup_weaken. }
  assert (Hfun : forall a b, UtxoSetDelta.produced_utxo d !! r = Some a \/ u !! r = Some a ->
    UtxoSetDelta.produced_utxo d !! r = Some b \/ u !! r = Some b -> a = b).
  { intros a b. rewrite <- !(lookup_union_Some _ _ _ _ Hf). congruence. }
  split.
  - intros (body & tags & [Hb Hn] & Ht & Hin). split; [|naive_solver].
    intros (b' & t' & Hb' & _). congruence.
  - intros [Hn Hin]. assert (exists body tags, (UtxoSetDelta.produced_utxo d !! r = Some body \/ u !! r = Some body) /\
      Builder.extract_tags_from_era_cbor body = Some tags /\ mkTag dim k ∈ tags) as (body & tags & Hb & Ht & Hk)
      by naive_solver.
    exists body, tags. split; [|done]. split; [done|].
    destruct (UtxoSetDelta.consumed_utxo d !! r) as [b'|] eqn:E; [|done]. exfalso. apply Hn.
    exists b', tags. rewrite (Hfun b' body) by auto. naive_solver.
Qed.

Definition tagged_in (f : UtxoSetDelta.t -> UtxoMap) (ds : list UtxoSetDelta.t) (dim : string) (k : bytes) (r : TxoRef) : Prop :=
  exists d, d ∈ ds /\ tagged (f d) dim k r.

Lemma tagged_in_cons f d ds dim k r :
  tagged_in f (d :: ds) dim k r <-> tagged (f d) dim k r \/ tagged_in f ds dim k r.
Proof. unfold tagged_in. setoid_rewrite elem_of_cons. naive_solver. Qed.

(** Producing everything and then consuming everything gives what applying
    the deltas in turn gives. *)
Lemma tagged_run u ds dim k r :
  applies u ds ->
  tagged (foldl (fun u d => utxo_step d u) u ds) dim k r <->
  ~ tagged_in UtxoSetDelta.consumed_utxo ds dim k r /\
  (tagged_in UtxoSetDelta.produced_utxo ds dim k r \/ tagged u dim k r).
Proof.
  revert u. induction ds as [|d ds IH]; intros u Ha.
  - cbn. unfold tagged_in. setoid_rewrite elem_of_nil. naive_solver.
  - cbn [foldl]. destruct Ha as (Hr & Hu & Hf & Hc & Hn & Ha). rewrite IH by done.
    rewrite (tagged_step u d) by (cbn; done). rewrite !tagged_in_cons.
    assert (tagged_in UtxoSetDelta.produced_utxo ds dim k r -> ~ tagged (UtxoSetDelta.consumed_utxo d) dim k r).
    { intros (d' & Hd' & body & tags & Hb & _) (body' & tags' & Hb' & _). rewrite Forall_forall in Hn.
      exact (proj1 (map_disjoint_spec _ _) (Hn _ Hd') _ _ _ Hb Hb'). }
    tauto.
Qed.

(** The delta built from a UTxO delta alone: applying it keeps the filters in
    step with the set. *)
Lemma delta_coherent `{Xxh3} s u d p :
  coherent s u -> applies u [d] ->
  exists ops, apply (Builder.index_delta_from_utxo_delta p d) = Ret (Ok ops) /\
    cursor (commit ops s) = Some p /\ coherent (commit ops s) (utxo_step d u).
Proof.
  intros Hs Ha. set (di := Builder.index_delta_from_utxo_delta p d).
  assert (delta_archive di = [] /\ delta_cursor di = p) as [Harch Hcur].
  { subst di. unfold Builder.index_delta_from_utxo_delta, Builder.add_produced_utxos_from_delta, Builder.add_consumed_utxos_from_delta.
    by rewrite !(add_utxos_keeps _ delta_archive), !(add_utxos_keeps _ delta_cursor). }
  unfold apply. rewrite Harch. cbn [blocks_ops rbind]. eexists. split; [done|]. rewrite !commit_app. split; [by rewrite Hcur|].
  intros dim k r. rewrite (tagged_step u d dim k r Ha), <- (Hs dim k r).
  change (r ∈ utxos_by_tag (commit (tag_ops RemoveUtxoTag (consumed (delta_utxo di)))
    (commit (tag_ops InsertUtxoTag (produced (delta_utxo di))) s)) dim k <->
    ~ tagged (UtxoSetDelta.consumed_utxo d) dim k r /\
    (tagged (UtxoSetDelta.produced_utxo d) dim k r \/ r ∈ utxos_by_tag s dim k)).
  rewrite by_tag_remove, by_tag_insert. subst di.
  unfold Builder.index_delta_from_utxo_delta, Builder.add_produced_utxos_from_delta, Builder.add_consumed_utxos_from_delta.
  rewrite (in_add_utxos _ (fun d => consumed (delta_utxo d))) by done.
  rewrite (add_utxos_keeps _ (fun d => produced (delta_utxo d))) by done.
  rewrite (add_utxos_keeps Builder.push_produced (fun d => consumed (delta_utxo d))) by done.
  rewrite (in_add_utxos _ (fun d => produced (delta_utxo d))) by done. cbn. unfold in_tags. setoid_rewrite elem_of_nil. naive_solver.
Qed.

End coherence.

(** ** What indexing a block adds *)

Section archive.
Context `{Addresses, Pallas, Views}.

(** A delta with one more block. *)
Definition with_block (d : IndexDelta) (b : ArchiveIndexDelta) : IndexDelta :=
  mkIndexDelta (delta_cursor d) (delta_utxo d) (delta_archive d ++ [b]).

Lemma on_with_block d b f : Builder.on_current_block (with_block d b) f = Ret (with_block d (f b)).
Proof.
  unfold Builder.on_current_block, with_block. cbn [delta_archive delta_cursor delta_utxo].
  rewrite reverse_snoc. cbn. by rewrite reverse_involutive.
Qed.

(** A step that only adds tags to the block under construction. *)
Definition tagging {A} (f : IndexDelta -> A -> run IndexDelta) : Prop :=
  forall d b x, exists tags, f (with_block d b) x = Ret (with_block d (Builder.push_tags tags b)).

Lemma push_tags_nil b : Builder.push_tags [] b = b.
Proof. unfold Builder.push_tags. rewrite app_nil_r. by destruct b. Qed.

Lemma push_tags_app a c b : Builder.push_tags c (Builder.push_tags a b) = Builder.push_tags (a ++ c) b.
Proof. unfold Builder.push_tags. cbn. by rewrite app_assoc. Qed.

Lemma tagging_add {A} (g : A -> list Tag) : tagging (fun d x => Builder.add_tags d (g x)).
Proof. intros d b x. exists (g x). unfold Builder.add_tags. by rewrite on_with_block. Qed.

Lemma tagging_ret {A} : tagging (fun d (_ : A) => Ret d).
Proof. intros d b x. exists []. by rewrite push_tags_nil. Qed.

Lemma tagging_bind {A} (f g : IndexDelta -> A -> run IndexDelta) :
  tagging f -> tagging g -> tagging (fun d x => d ← f d x; g d x).
Proof.
  intros Hf Hg d b x. destruct (Hf d b x) as [a Ea]. destruct (Hg d (Builder.push_tags a b) x) as [c Ec].
  exists (a ++ c). rewrite Ea. cbn. by rewrite Ec, push_tags_app.
Qed.

Lemma tagging_option {A B} (o : A -> option B) (f : IndexDelta -> B -> run IndexDelta) :
  tagging f -> tagging (fun d x => match o x with Some y => f d y | None => Ret d end).
Proof. intros Hf d b x. destruct (o x) as [y|]; [apply Hf|]. exists []. by rewrite push_tags_nil. Qed.

Lemma tagging_foldl {A} (f : IndexDelta -> A -> run IndexDelta) : tagging f -> tagging (run_foldl f).
Proof.
  intros Hf d b l. revert b. induction l as [|x l IH]; intros b.
  - exists []. by rewrite push_tags_nil.
  - destruct (Hf d b x) as [a Ea]. destruct (IH (Builder.push_tags a b)) as [c Ec]. exists (a ++ c). cbn.
    rewrite Ea. cbn. by rewrite Ec, push_tags_app.
Qed.

Lemma tagging_on {A B} (h : B -> A) (f : IndexDelta -> A -> run IndexDelta) : tagging f -> tagging (fun d x => f d (h x)).
Proof. intros Hf d b x. apply Hf. Qed.

Lemma tagging_cert : tagging Builder.add_cert.
Proof.
  intros d b x. unfold Builder.add_cert. destruct (Builder.cert_tags x) as [|t tags] eqn:E.
  - exists []. by rewrite push_tags_nil.
  - exists (t :: tags). unfold Builder.add_tags. by rewrite on_with_block.
Qed.

Lemma tagging_output : tagging Builder.add_output.
Proof.
  apply (tagging_bind (fun d o => match out_address o with Some a => Builder.add_address d a | None => Ret d end)).
  { apply tagging_option, (tagging_add (Builder.address_tags ArchiveDim.ADDRESS ArchiveDim.PAYMENT ArchiveDim.STAKE)). }
  apply (tagging_bind (fun d o => Builder.add_assets d (out_assets o))).
  { apply (tagging_on out_assets), (tagging_add (Builder.asset_tags ArchiveDim.POLICY ArchiveDim.ASSET)). }
  apply tagging_option, (tagging_add (fun datum => [mkTag ArchiveDim.DATUM _])).
Qed.

Definition push_tx (hash : bytes) (b : ArchiveIndexDelta) : ArchiveIndexDelta :=
  mkArchiveIndexDelta (ad_slot b) (ad_block_hash b) (ad_block_number b) (ad_tx_hashes b ++ [hash]) (ad_tags b).

Lemma tagging_tx i : tagging (Builder.index_tx_tags i).
Proof.
  assert (Hs : tagging Builder.add_script_hash) by exact (tagging_add (fun h => [mkTag ArchiveDim.SCRIPT h])).
  assert (Hd : tagging Builder.add_datum_hash) by exact (tagging_add (fun h => [mkTag ArchiveDim.DATUM h])).
  unfold Builder.index_tx_tags.
  apply tagging_bind; [apply (tagging_on tv_metadata), tagging_foldl, (tagging_add (fun l => [mkTag ArchiveDim.METADATA _]))|].
  apply tagging_bind.
  { apply (tagging_on tv_inputs), tagging_foldl, tagging_bind; [apply (tagging_add (fun r => [mkTag ArchiveDim.SPENT_TXO _]))|].
    apply (tagging_option (fun input => i !! input_ref input ≫= view_output)), tagging_output. }
  apply tagging_bind.
  { apply (tagging_on tv_produces), tagging_foldl, tagging_bind; [apply tagging_output|].
    apply (tagging_option out_script_ref (fun d s => Builder.add_script_hash d (script_ref_hash s))).
    by apply (tagging_on script_ref_hash). }
  apply tagging_bind; [by apply (tagging_on tv_native_scripts), tagging_foldl|].
  apply tagging_bind; [by apply (tagging_on tv_plutus_v1_scripts), tagging_foldl|].
  apply tagging_bind; [by apply (tagging_on tv_plutus_v2_scripts), tagging_foldl|].
  apply tagging_bind; [by apply (tagging_on tv_plutus_v3_scripts), tagging_foldl|].
  apply tagging_bind; [by apply (tagging_on tv_plutus_data), tagging_foldl|].
  apply tagging_bind; [apply (tagging_on tv_certs), tagging_foldl, tagging_cert|].
  apply tagging_bind; [apply (tagging_on tv_withdrawals), tagging_foldl, (tagging_add (fun h => [mkTag _ h]))|].
  by apply (tagging_on tv_redeemers), tagging_foldl.
Qed.

(** Indexing a transaction adds its hash and tags. *)
Lemma index_tx_spec i d b tx :
  exists tags, Builder.index_tx i (with_block d b) tx = Ret (with_block d (Builder.push_tags tags (push_tx (tv_hash tx) b))).
Proof.
  unfold Builder.index_tx, Builder.add_tx_hash. rewrite on_with_block. cbn [mbind run_bind]. apply tagging_tx.
Qed.

Lemma index_txs_spec i d txs b :
  exists tags, run_foldl (Builder.index_tx i) (with_block d b) txs =
    Ret (with_block d (mkArchiveIndexDelta (ad_slot b) (ad_block_hash b) (ad_block_number b)
                         (ad_tx_hashes b ++ (tv_hash <$> txs)) (ad_tags b ++ tags))).
Proof.
  revert b. induction txs as [|tx txs IH]; intros b.
  - exists []. cbn. rewrite !app_nil_r. by destruct b.
  - destruct (index_tx_spec i d b tx) as [a Ea]. destruct (IH (Builder.push_tags a (push_tx (tv_hash tx) b))) as [c Ec].
    exists (a ++ c). cbn [run_foldl]. rewrite Ea. cbn [mbind run_bind]. rewrite Ec. cbn. by rewrite <- !app_assoc.
Qed.

(** Indexing a block adds one archive entry: its slot, hash and number, the
    hashes of its transactions in order, and tags. *)
Lemma index_block_spec d block i :
  exists tags, Builder.index_block d block i =
    Ret (with_block d (mkArchiveIndexDelta (bv_slot block) (bv_hash block) (Some (bv_number block))
                         (tv_hash <$> bv_txs block) tags)).
Proof.
  destruct (index_txs_spec i d (bv_txs block)
    (mkArchiveIndexDelta (bv_slot block) (bv_hash block) (Some (bv_number block)) [] [])) as [tags E].
  exists tags. exact E.
Qed.

End archive.

(** ** Batches *)

Section batch_theory.
Context `{Addresses, Pallas, Views, Xxh3} {D E : Type}.
Import MemoryIndex.
Implicit Types (i : UtxoMap) (s : MemoryIndex.t) (w : WorkBlock.t D).

(** The delta of a block that is applied and not undone. *)
Definition forward (d : UtxoSetDelta.t) : Prop :=
  UtxoSetDelta.recovered_stxi d = ∅ /\ UtxoSetDelta.undone_utxo d = ∅.

Lemma tagged_empty dim k r : ~ tagged ∅ dim k r.
Proof. intros (? & ? & Hl & _). by rewrite lookup_empty in Hl. Qed.

(** What one block adds to the delta of the batch. *)
Record indexed (d d' : IndexDelta) (u : UtxoSetDelta.t) (v : BlockView) : Prop := {
  ix_cursor : delta_cursor d' = delta_cursor d;
  ix_produced : forall dim k r, in_tags (produced (delta_utxo d')) dim k r <->
    in_tags (produced (delta_utxo d)) dim k r \/ tagged (UtxoSetDelta.produced_utxo u) dim k r;
  ix_consumed : forall dim k r, in_tags (consumed (delta_utxo d')) dim k r <->
    in_tags (consumed (delta_utxo d)) dim k r \/ tagged (UtxoSetDelta.consumed_utxo u) dim k r;
  ix_archive : exists tags, delta_archive d' = delta_archive d ++
    [mkArchiveIndexDelta (bv_slot v) (bv_hash v) (Some (bv_number v)) (tv_hash <$> bv_txs v) tags];
}.

Lemma index_work_block_spec i d raw u v :
  view_block raw = Some v -> forward u ->
  exists d', index_work_block i d raw (Some u) = Ret d' /\ indexed d d' u v.
Proof.
  intros Hv [Hr Hu]. unfold index_work_block. rewrite Hv, Hr, Hu.
  set (d1 := Builder.add_utxos Builder.push_produced d (UtxoSetDelta.produced_utxo u)).
  set (d2 := Builder.add_utxos Builder.push_consumed d1 (UtxoSetDelta.consumed_utxo u)).
  assert (Hz : forall push d, Builder.add_utxos push d ∅ = d).
  { intros push d'. unfold Builder.add_utxos. by rewrite map_to_list_empty. }
  rewrite !Hz. destruct (index_block_spec d2 v i) as [tags ->]. eexists. split; [done|].
  split; cbn [with_block delta_cursor delta_utxo delta_archive].
  - subst d2 d1. by rewrite !(add_utxos_keeps _ delta_cursor).
  - intros dim k r. subst d2. rewrite (add_utxos_keeps _ (fun d => produced (delta_utxo d))) by done. subst d1.
    by rewrite (in_add_utxos _ (fun d => produced (delta_utxo d))).
  - intros dim k r. subst d2. rewrite (in_add_utxos _ (fun d => consumed (delta_utxo d))) by done. subst d1.
    by rewrite (add_utxos_keeps _ (fun d => consumed (delta_utxo d))).
  - exists tags. f_equal. subst d2 d1. by rewrite !(add_utxos_keeps _ delta_archive).
Qed.

(** The entry of a block in the archive part of a delta. *)
Definition entry_of (v : BlockView) (a : ArchiveIndexDelta) : Prop :=
  ad_slot a = bv_slot v /\ ad_block_hash a = bv_hash v /\ ad_block_number a = Some (bv_number v) /\
  ad_tx_hashes a = tv_hash <$> bv_txs v.

Record batch_indexed (d d' : IndexDelta) (us : list UtxoSetDelta.t) (vs : list BlockView) : Prop := {
  bi_cursor : delta_cursor d' = delta_cursor d;
  bi_produced : forall dim k r, in_tags (produced (delta_utxo d')) dim k r <->
    in_tags (produced (delta_utxo d)) dim k r \/ tagged_in UtxoSetDelta.produced_utxo us dim k r;
  bi_consumed : forall dim k r, in_tags (consumed (delta_utxo d')) dim k r <->
    in_tags (consumed (delta_utxo d)) dim k r \/ tagged_in UtxoSetDelta.consumed_utxo us dim k r;
  bi_archive : exists bs, delta_archive d' = delta_archive d ++ bs /\ Forall2 entry_of vs bs;
}.

Lemma index_blocks_spec i (l : list (WorkBlock.t D)) us vs d :
  Forall2 (fun w u => WorkBlock.utxo_delta w = Some u /\ forward u) l us ->
  Forall2 (fun w v => view_block (WorkBlock.raw w) = Some v) l vs ->
  exists d', run_foldl (fun d w => index_work_block i d (WorkBlock.raw w) (WorkBlock.utxo_delta w)) d l = Ret d' /\
    batch_indexed d d' us vs.
Proof.
  intros Hu Hv. revert vs d Hv. induction Hu as [|w u l us [Hd Hf] _ IH]; intros vs d Hv.
  { apply Forall2_nil_inv_l in Hv as ->. exists d. split; [done|]. split.
    - done.
    - intros. unfold tagged_in. setoid_rewrite elem_of_nil. naive_solver.
    - intros. unfold tagged_in. setoid_rewrite elem_of_nil. naive_solver.
    - exists []. by rewrite app_nil_r. }
  apply Forall2_cons_inv_l in Hv as (v & vs' & Hw & Hv & ->).
  destruct (index_work_block_spec i d _ u v Hw Hf) as (d1 & E1 & [Hc1 Hp1 Hk1 [tags Ha1]]).
  destruct (IH vs' d1 Hv) as (d' & E' & [Hc Hp Hk (bs & Ha & Hbs)]). exists d'. split.
  { cbn [run_foldl]. rewrite Hd, E1. exact E'. }
  split; [congruence|intros; rewrite Hp, Hp1, tagged_in_cons; tauto|intros; rewrite Hk, Hk1, tagged_in_cons; tauto|].
  eexists. rewrite Ha, Ha1, <- app_assoc. split; [done|]. cbn. by constructor.
Qed.

(** *** The delta of a chain of blocks applies *)

Lemma resolves_all_some (u i : UtxoMap) bs b r : resolves_all u i bs -> b ∈ bs -> r ∈ consumed_of b -> is_Some (i !! r).
Proof.
  revert u. induction bs as [|c bs IH]; intros u Ha Hb Hc; [by apply not_elem_of_nil in Hb|].
  destruct Ha as [[_ Hr] Ha]. apply elem_of_cons in Hb as [->|Hb]; [|by eapply IH].
  destruct (Hr r Hc) as (v & -> & _). eauto.
Qed.

Lemma fresh_later (u : UtxoMap) pre b rest b0 b' r :
  outputs_fresh u (pre ++ b :: rest) -> b0 ∈ pre ++ [b] -> b' ∈ rest ->
  is_Some (produced_of b0 !! r) -> produced_of b' !! r = None.
Proof.
  induction pre as [|c pre IH]; intros Hf Hb0 Hb' Hs; destruct Hf as [Hc Hf].
  - apply list_elem_of_singleton in Hb0 as ->. by apply (Hc r Hs).
  - apply elem_of_cons in Hb0 as [->|Hb0]; [|by apply IH]. apply (Hc r Hs). rewrite elem_of_app, elem_of_cons. auto.
Qed.

Lemma blocks_apply (u : UtxoMap) pre bs us :
  outputs_fresh u (pre ++ bs) ->
  resolves_all (foldl next_utxos u pre) (batch_inputs u (pre ++ bs)) bs ->
  Forall2 (fun b d => compute_apply_delta b (batch_inputs u (pre ++ bs)) = Ok d) bs us ->
  applies (foldl next_utxos u pre) us /\
  foldl (fun u d => utxo_step d u) (foldl next_utxos u pre) us = foldl next_utxos u (pre ++ bs).
Proof.
  revert pre us. induction bs as [|b bs IH]; intros pre us Hf Hr Hd.
  { apply Forall2_nil_inv_l in Hd as ->. rewrite app_nil_r. done. }
  apply Forall2_cons_inv_l in Hd as (d & us' & Hd & Hds & ->). destruct Hr as [Hb Hr].
  destruct (resolves_apply _ _ _ Hb) as (d0 & Hd0 & Hs). rewrite Hd in Hd0. injection Hd0 as <-.
  destruct Hb as [Hfresh Hres].
  rewrite compute_apply_delta_Ok in Hd by (intros r Hc; destruct (Hres r Hc) as (v & -> & _); eauto). injection Hd as Hd.
  assert (Hcons : forall r v, UtxoSetDelta.consumed_utxo d !! r = Some v ->
    produced_of b !! r = Some v \/ produced_of b !! r = None /\ foldl next_utxos u pre !! r = Some v).
  { intros r v. rewrite <- Hd. cbn. rewrite lookup_restrict. case_bool_decide as Hc; [|done]. intros Hi.
    destruct (Hres r Hc) as (v' & Hi' & Hor). rewrite Hi in Hi'. by injection Hi' as <-. }
  specialize (IH (pre ++ [b]) us'). rewrite <- app_assoc, foldl_app in IH. cbn [foldl app] in IH.
  destruct (IH Hf Hr Hds) as [IHa IHs]. split.
  - cbn [applies]. rewrite Hs. conj_split; [by rewrite <- Hd|by rewrite <- Hd| | | |done].
    + rewrite <- Hd. cbn. apply map_disjoint_spec. intros r x y Hx Hy. rewrite Hfresh in Hy by eauto. done.
    + apply map_subseteq_spec. intros r v Hc. apply lookup_union_Some_raw. rewrite <- Hd at 1 2. by apply Hcons.
    + apply Forall_forall. intros d' Hd'. apply map_disjoint_spec. intros r x y Hx Hy.
      apply list_elem_of_lookup in Hd' as [n Hn]. destruct (Forall2_lookup_r _ _ _ _ _ Hds Hn) as (b' & Hb' & Hd'').
      apply list_elem_of_lookup_2 in Hb'.
      assert (Hp : produced_of b' !! r = Some x).
      { rewrite compute_apply_delta_Ok in Hd''; [by injection Hd'' as <-|].
        intros r' Hc'. eapply resolves_all_some; [exact Hr|done|done]. }
      destruct (Hcons r y Hy) as [Hy'|[_ Hy']].
      * rewrite (fresh_later u pre b bs b b' r) in Hp; [done|done|set_solver|done|eauto].
      * apply utxo_origin in Hy' as [Hu|(b0 & Hb0 & Hy')].
        -- rewrite (fresh_not_in u (pre ++ b :: bs) b' r) in Hu; [done|done|set_solver|eauto].
        -- rewrite (fresh_later u pre b bs b0 b' r) in Hp; [done|done|set_solver|done|eauto].
  - cbn [foldl]. rewrite Hs. exact IHs.
Qed.

(** The hashes of a block and of its transactions have 32 bytes. *)
Definition sized (v : BlockView) : Prop :=
  length (bv_hash v) = 32%nat /\ Forall (fun h => length h = 32%nat) (tv_hash <$> bv_txs v).

Definition entry_keys (v : BlockView) : list (ExactKind * bytes) :=
  (BlockHash, bv_hash v) :: ((fun h => (TxHashKind, h)) <$> (tv_hash <$> bv_txs v)) ++ [(BlockNumber, number_key (bv_number v))].

Lemma entry_exact_keys v a : sized v -> entry_of v a -> exact_keys_of a = Ret (Ok (entry_keys v)).
Proof.
  intros [Hh Ht] (_ & Eh & En & Et). rewrite (exact_keys_sized a (bv_number v)); rewrite ?Eh, ?Et; done.
Qed.

(** What a store becomes when the delta of a batch is applied. *)
Lemma apply_batch b us vs s :
  Forall2 (fun w u => WorkBlock.utxo_delta w = Some u /\ forward u) (WorkBatch.blocks (E := E) b) us ->
  Forall2 (fun w v => view_block (WorkBlock.raw w) = Some v) (WorkBatch.blocks b) vs ->
  Forall sized vs -> WorkBatch.blocks b ≠ [] ->
  exists d bs ops p, build_index_delta b = Ret d /\ apply d = Ret (Ok ops) /\ Forall2 entry_of vs bs /\
    WorkBatch.last_point b = Ret p /\ cursor (commit ops s) = Some p /\
    (forall dim k r, r ∈ utxos_by_tag (commit ops s) dim k <->
       ~ tagged_in UtxoSetDelta.consumed_utxo us dim k r /\
       (tagged_in UtxoSetDelta.produced_utxo us dim k r \/ r ∈ utxos_by_tag s dim k)) /\
    (forall kk slot, (forall a ks, a ∈ bs -> exact_keys_of a = Ret (Ok ks) -> kk ∈ ks -> ad_slot a = slot) ->
       has_exact bs kk \/ exact s !! kk = Some slot -> exact (commit ops s) !! kk = Some slot).
Proof.
  intros Hu Hv Hz Hne. destruct (last (WorkBatch.blocks b)) as [w|] eqn:El; [|by apply last_None in El].
  assert (Hp : WorkBatch.last_point b = Ret (WorkBlock.point w)) by (unfold WorkBatch.last_point; by rewrite El).
  destruct (index_blocks_spec (WorkBatch.utxos_decoded b) _ us vs (Builder.new (WorkBlock.point w)) Hu Hv)
    as (d & Hd & [Hc Hpr Hco (bs & Ha & Hbs)]). cbn [app] in Ha.
  destruct (blocks_ops_returns (fun e slot => InsertExact (fst e) (snd e) slot) InsertArchiveTag bs) as [bo Hbo].
  { clear -Hbs Hz. induction Hbs as [|v a vs bs Hva _ IH]; [constructor|]. apply Forall_cons in Hz as [Hv Hz].
    constructor; [|by apply IH]. eexists. by eapply entry_exact_keys. }
  exists d, bs, (tag_ops InsertUtxoTag (produced (delta_utxo d)) ++ tag_ops RemoveUtxoTag (consumed (delta_utxo d)) ++
    bo ++ [SetCursor (delta_cursor d)]), (WorkBlock.point w). split; [unfold build_index_delta; by rewrite Hp|].
  split; [unfold apply; rewrite Ha; cbn [Builder.new empty_delta delta_archive app]; by rewrite Hbo|].
  split; [done|]. split; [done|]. rewrite !commit_app. split; [cbn; by rewrite Hc|]. split.
  - intros dim k r. change (utxos_by_tag (commit [SetCursor ?p] ?x) dim k) with (utxos_by_tag x dim k).
    unfold utxos_by_tag at 1. rewrite archive_ops_utxo by (by eapply blocks_ops_archive in Hbo).
    fold (utxos_by_tag (commit (tag_ops RemoveUtxoTag (consumed (delta_utxo d)))
      (commit (tag_ops InsertUtxoTag (produced (delta_utxo d))) s)) dim k).
    rewrite by_tag_remove, by_tag_insert, Hpr, Hco. cbn. unfold in_tags. setoid_rewrite elem_of_nil. naive_solver.
  - intros kk slot Hall Hor. change (exact (commit [SetCursor ?p] ?x)) with (exact x).
    eapply blocks_insert_found; [exact Hbo|done|]. destruct Hor as [?|Hor]; [by left|right].
    destruct (utxo_ops_archive (tag_ops RemoveUtxoTag (consumed (delta_utxo d)))
      (commit (tag_ops InsertUtxoTag (produced (delta_utxo d))) s)) as [_ ->]; [by apply tag_ops_utxo|].
    by destruct (utxo_ops_archive (tag_ops InsertUtxoTag (produced (delta_utxo d))) s) as [_ ->]; [by apply tag_ops_utxo|].
Qed.

Lemma has_delta_forward i b od : has_delta i b od -> (forall r, r ∈ consumed_of b -> is_Some (i !! r)) ->
  exists d, od = Some d /\ compute_apply_delta b i = Ok d /\ forward d.
Proof.
  intros (d & -> & Hd) Hr. exists d. split; [done|]. split; [done|].
  rewrite compute_apply_delta_Ok in Hd by done. by injection Hd as <-.
Qed.

(** The deltas of a batch that extends the set [u]. *)
Lemma batch_deltas (b : WorkBatch.t D E) (u : UtxoMap) :
  let bs := WorkBlock.block <$> WorkBatch.blocks b in
  outputs_fresh u bs -> inputs_available u bs ->
  Forall2 (has_delta (batch_inputs u bs)) bs (WorkBlock.utxo_delta <$> WorkBatch.blocks b) ->
  exists us, Forall2 (fun w d => WorkBlock.utxo_delta w = Some d /\ forward d) (WorkBatch.blocks b) us /\
    applies u us /\ foldl (fun u d => utxo_step d u) u us = foldl next_utxos u bs.
Proof.
  intros bs Hf Ha Hd. pose proof (batch_inputs_resolve u bs Hf Ha) as Hr.
  assert (exists us, Forall2 (fun w d => WorkBlock.utxo_delta w = Some d /\ forward d) (WorkBatch.blocks b) us /\
    Forall2 (fun b d => compute_apply_delta b (batch_inputs u bs) = Ok d) bs us) as (us & Hus & Hc).
  { assert (Hs : forall c r, c ∈ bs -> r ∈ consumed_of c -> is_Some (batch_inputs u bs !! r))
      by (intros c r; by apply resolves_all_some with (1 := Hr)).
    clear Hr Hf Ha. revert Hs Hd. generalize (batch_inputs u bs) as i. subst bs. intros i.
    induction (WorkBatch.blocks b) as [|w l IH]; intros Hs Hd; [by exists []|].
    cbn in Hd. apply Forall2_cons in Hd as [Hw Hd].
    destruct (has_delta_forward _ _ _ Hw) as (d & Ed & Hc & Hfw); [intros r; apply Hs; left|].
    destruct IH as (us & Hus & Hcs); [intros c r Hin; apply Hs; by right|done|].
    exists (d :: us). cbn. split; by constructor. }
  exists us. split; [done|]. by apply (blocks_apply u [] bs us).
Qed.

(** C23: indexing a batch keeps the UTxO filters in step with the UTxO set: a
    store whose filters list exactly the unspent outputs, given the delta of a
    batch that extends the set, lists exactly the unspent outputs after the
    last block, and its cursor is that block.  Building and applying the
    delta never fails. *)
Theorem index_follows_utxos (b : WorkBatch.t D E) (u : UtxoMap) s vs :
  let bs := WorkBlock.block <$> WorkBatch.blocks b in
  coherent s u -> outputs_fresh u bs -> inputs_available u bs ->
  Forall2 (has_delta (batch_inputs u bs)) bs (WorkBlock.utxo_delta <$> WorkBatch.blocks b) ->
  Forall2 (fun w v => view_block (WorkBlock.raw w) = Some v) (WorkBatch.blocks b) vs -> Forall sized vs ->
  WorkBatch.blocks b ≠ [] ->
  exists d ops p, build_index_delta b = Ret d /\ apply d = Ret (Ok ops) /\ WorkBatch.last_point b = Ret p /\
    cursor (commit ops s) = Some p /\ coherent (commit ops s) (foldl next_utxos u bs).
Proof.
  intros bs Hs Hf Ha Hd Hv Hz Hne. destruct (batch_deltas b u Hf Ha Hd) as (us & Hus & Happ & Hfold).
  destruct (apply_batch b us vs s Hus Hv Hz Hne) as (d & archs & ops & p & Hb & Hap & _ & Hp & Hc & Ht & _).
  exists d, ops, p. conj_split; [done..|]. intros dim k r. rewrite Ht. fold bs in Hfold. rewrite <- Hfold.
  rewrite tagged_run by done. by rewrite (Hs dim k r).
Qed.

Lemma entry_found vs archs v kk :
  Forall sized vs -> Forall2 entry_of vs archs -> v ∈ vs -> kk ∈ entry_keys v -> has_exact archs kk.
Proof.
  intros Hz Hf Hv Hk. induction Hf as [|x a vs archs Hxa _ IH]; [by apply not_elem_of_nil in Hv|].
  apply Forall_cons in Hz as [Hx Hz]. rewrite (has_exact_cons a archs (entry_keys x)) by (by apply entry_exact_keys).
  apply elem_of_cons in Hv as [->|Hv]; auto.
Qed.

Lemma entry_slots vs archs kk slot :
  Forall sized vs -> Forall2 entry_of vs archs -> (forall v, v ∈ vs -> kk ∈ entry_keys v -> bv_slot v = slot) ->
  forall a ks, a ∈ archs -> exact_keys_of a = Ret (Ok ks) -> kk ∈ ks -> ad_slot a = slot.
Proof.
  intros Hz Hf. induction Hf as [|x a vs archs Hxa _ IH]; intros Hall a' ks Ha' Hks Hk; [by apply not_elem_of_nil in Ha'|].
  apply Forall_cons in Hz as [Hx Hz]. apply elem_of_cons in Ha' as [->|Ha'].
  - pose proof (entry_exact_keys x a Hx Hxa) as E1. rewrite Hks in E1. apply Ret_inj in E1. injection E1 as ->.
    destruct Hxa as (-> & _). apply Hall; [left|done].
  - eapply IH; [done| |done..]. intros v Hv. apply Hall. by right.
Qed.

(** A block that has been indexed is found: after the delta of a batch its
    slot is what the lookups by block hash, by block number and by the hash of
    each of its transactions return, whatever the store held before, when no
    other block of the batch has the same hash, number or transaction. *)
Theorem indexed_blocks_found (b : WorkBatch.t D E) us vs s v :
  Forall2 (fun w u => WorkBlock.utxo_delta w = Some u /\ forward u) (WorkBatch.blocks b) us ->
  Forall2 (fun w v => view_block (WorkBlock.raw w) = Some v) (WorkBatch.blocks b) vs ->
  Forall sized vs -> v ∈ vs ->
  (forall v' kk, v' ∈ vs -> kk ∈ entry_keys v -> kk ∈ entry_keys v' -> bv_slot v' = bv_slot v) ->
  exists d ops, build_index_delta b = Ret d /\ apply d = Ret (Ok ops) /\
    slot_by_block_hash (commit ops s) (bv_hash v) = Some (bv_slot v) /\
    slot_by_block_number (commit ops s) (bv_number v) = Ret (Some (bv_slot v)) /\
    Forall (fun tx => slot_by_tx_hash (commit ops s) (tv_hash tx) = Some (bv_slot v)) (bv_txs v).
Proof.
  intros Hu Hv Hz Hin Huniq. assert (Hne : WorkBatch.blocks b ≠ []).
  { intros E0. rewrite E0 in Hv. apply Forall2_nil_inv_l in Hv as ->. by apply not_elem_of_nil in Hin. }
  destruct (apply_batch b us vs s Hu Hv Hz Hne) as (d & archs & ops & p & Hb & Hap & Hen & _ & _ & _ & Hx).
  assert (Hfound : forall kk, kk ∈ entry_keys v -> exact (commit ops s) !! kk = Some (bv_slot v)).
  { intros kk Hk. apply Hx; [|left; by eapply entry_found].
    eapply entry_slots; [done..|]. intros v' Hv' Hk'. by apply (Huniq v' kk). }
  destruct (proj1 (Forall_forall _ _) Hz v Hin) as [Hh Ht]. exists d, ops. conj_split; [done|done|..].
  - unfold slot_by_block_hash. rewrite (exact_key_full BlockHash) by done. apply Hfound. left.
  - unfold slot_by_block_number. rewrite exact_key_number. cbn [expect mbind run_bind]. f_equal. apply Hfound.
    apply elem_of_cons. right. apply elem_of_app. right. by apply list_elem_of_singleton.
  - apply Forall_forall. intros tx Htx. unfold slot_by_tx_hash. rewrite Forall_fmap, Forall_forall in Ht.
    rewrite (exact_key_full TxHashKind) by (done || by apply (Ht tx)). apply Hfound.
    apply elem_of_cons. right. apply elem_of_app. left. by apply list_elem_of_fmap_2, list_elem_of_fmap_2.
Qed.

End batch_theory.

(** ** Rollback *)

Section rollback.
Context `{Addresses, Pallas, Views, Xxh3, BlockDecoder}.
Import MemoryIndex.

Lemma undo_delta_empty p u : UtxoSetDelta.produced_utxo u = ∅ -> UtxoSetDelta.consumed_utxo u = ∅ ->
  Builder.index_delta_from_utxo_delta p u = empty_delta p.
Proof.
  intros Hp Hc. unfold Builder.index_delta_from_utxo_delta, Builder.add_consumed_utxos_from_delta,
    Builder.add_produced_utxos_from_delta, Builder.add_utxos. by rewrite Hp, Hc, map_to_list_empty.
Qed.

(** C24: undoing a block leaves the indexes where the block put them.  The
    undo takes the UTxO set back to what it was, but the index delta it
    computes is read from the produced and consumed outputs of the undo,
    which are empty, and so removes and restores nothing: the filters that
    were in step after the block are in step with the restored set only when
    the block changed no tag at all. *)
Theorem rollback_leaves_index (raw : bytes) (b : Block) (u i : UtxoMap) p (s : MemoryIndex.t) :
  decode_block raw = Some b -> map_Forall (fun _ body => decode_output body = true) i -> resolves u i b ->
  coherent s (next_utxos u b) ->
  exists du di ops, compute_undo_data raw i p = Ok (du, di) /\ utxo_step du (next_utxos u b) = u /\
    undo di = Ret (Ok ops) /\ commit ops s = s /\
    (coherent (commit ops s) u <-> forall dim k r, tagged u dim k r <-> tagged (next_utxos u b) dim k r).
Proof.
  intros Hdec Hi Hr Hs. destruct (resolves_undo u i b Hr) as (du & Hdu & Hstep).
  exists du, (empty_delta p), []. conj_split; [|done..|].
  - unfold compute_undo_data, compute_undo. rewrite Hdec, bool_decide_true, Hdu by done. cbn [map_err]. do 2 f_equal.
    destruct Hr as [_ Hr]. rewrite compute_undo_delta_Ok in Hdu by (intros r Hc; destruct (Hr r Hc) as (v & -> & _); eauto).
    injection Hdu as <-. by apply undo_delta_empty.
  - cbn. unfold coherent in *. split; intros Hc dim k r.
    + by rewrite <- (Hc dim k r), (Hs dim k r).
    + by rewrite (Hc dim k r), (Hs dim k r).
Qed.

End rollback.

(** ** A concrete block

    One transaction that spends an output of one address and pays another. *)
Module IndexDemo.

Definition addresses : Addresses := {|
  address_from_bytes b := Some (AddressByron b);
  address_from_str _ := None;
  byron_to_vec b := b;
  shelley_to_vec a := match shelley_payment a with PaymentKey h => h | PaymentScript h => h end;
  payment_to_vec p := match p with PaymentKey h => h | PaymentScript h => h end;
  stake_to_vec a := match stake_payload a with PayloadStake h => h | PayloadScript h => h end;
|}.

(** Outputs are their address. *)
Definition output (b : EraCbor) : OutputView :=
  {| out_address := Some (AddressByron (snd b)); out_coin := 0; out_assets := []; out_datum := None; out_script_ref := None |}.

Definition hash (n : Z) : bytes := replicate 32 n.
Definition spent : TxoRef := (hash 1, 0).
Definition paid : TxoRef := (hash 2, 0).
Definition tx : Tx := {| tx_hash := hash 2; produces := [(0, (7, [20]))]; consumes := [spent] |}.
Definition block : Block := {| block_slot := 5; block_hash := hash 3; previous_hash := None; txs := [tx] |}.
Definition tx_view : TxView := {|
  tv_hash := hash 2; tv_metadata := []; tv_inputs := [spent]; tv_produces := [output (7, [20])];
  tv_native_scripts := []; tv_plutus_v1_scripts := []; tv_plutus_v2_scripts := []; tv_plutus_v3_scripts := [];
  tv_plutus_data := []; tv_certs := []; tv_withdrawals := []; tv_redeemers := [] |}.
Definition block_view : BlockView := {| bv_slot := 5; bv_hash := hash 3; bv_number := 1; bv_txs := [tx_view] |}.

Definition views : Views := {| view_output b := Some (output b); view_block _ := Some block_view |}.
Definition decoder : BlockDecoder := {| decode_block _ := Some block; decode_output _ := true |}.
Definition xxh3 : Xxh3 := {| xxh3_64 b := from_be_bytes b |}.
#[local] Existing Instances addresses views decoder xxh3 demo_pallas.

Definition before : UtxoMap := {[ spent := (7, [10]) ]}.
Definition inputs : UtxoMap := batch_inputs before [block].
Definition index : MemoryIndex.t := MemoryIndex.mk None {[ (Utxo.ADDRESS, [10]) := {[ spent ]} ]} ∅ ∅.

Definition delta : UtxoSetDelta.t :=
  match compute_apply_delta block inputs with Ok d => d | Err _ => UtxoSetDelta.default_ end.

Definition work : WorkBlock.t unit := WorkBlock.mk block [] ∅ (Some delta).
Definition batch : WorkBatch.t unit unit := WorkBatch.mk [work] ∅ ∅ ∅ true false.

Lemma fresh : outputs_fresh before [block].
Proof.
  assert (Ep : produced_of block = {[ paid := (7, [20]) ]}) by (vm_compute; reflexivity).
  split; [|exact I]. intros r [v Hv]. split; [|intros b' Hb'; destruct (not_elem_of_nil _ Hb')].
  rewrite Ep in Hv. clear Ep. apply lookup_singleton_Some in Hv as [<- _]. vm_compute. reflexivity.
Qed.

Lemma available : inputs_available before [block].
Proof.
  assert (Ec : consumed_of block = [spent]) by (vm_compute; reflexivity).
  split; [|exact I]. rewrite Ec. intros r ->%list_elem_of_singleton. right. exists (7, [10]). vm_compute. reflexivity.
Qed.

Lemma computed : has_delta inputs block (Some delta).
Proof. exists delta. split; [reflexivity|]. vm_compute. reflexivity. Qed.

Lemma singleton_coherent m (r : TxoRef) (body : bytes) :
  m = MemoryIndex.mk None {[ (Utxo.ADDRESS, body) := {[ r ]} ]} ∅ ∅ -> coherent m {[ r := (7, body) ]}.
Proof.
  intros -> dim k r'. unfold tagged, MemoryIndex.utxos_by_tag. cbn. split.
  - destruct (decide ((Utxo.ADDRESS, body) = (dim, k))) as [[= <- <-]|Hn].
    + rewrite lookup_singleton_eq. cbn. intros ->%elem_of_singleton. exists (7, body), [mkTag Utxo.ADDRESS body].
      rewrite lookup_singleton_eq. split; [done|]. split; [done|left].
    + rewrite lookup_singleton_ne by done. cbn. intros Hr. by apply elem_of_empty in Hr.
  - intros (b & tags & [<- <-]%lookup_singleton_Some & [= <-] & Ht). apply list_elem_of_singleton in Ht.
    injection Ht as -> ->. rewrite lookup_singleton_eq. cbn. by apply elem_of_singleton.
Qed.

(** The block is indexed: its output is listed, the one it spends is not. *)
Lemma index_follows_utxos_witness :
  exists d ops p, build_index_delta batch = Ret d /\ MemoryIndex.apply d = Ret (Ok ops) /\
    WorkBatch.last_point batch = Ret p /\ MemoryIndex.cursor (MemoryIndex.commit ops index) = Some p /\
    coherent (MemoryIndex.commit ops index) (next_utxos before block).
Proof.
  apply (index_follows_utxos batch before index [block_view]).
  - by apply singleton_coherent.
  - exact fresh.
  - exact available.
  - constructor; [exact computed|constructor].
  - repeat constructor.
  - repeat constructor.
  - done.
Defined.

Lemma indexed_blocks_found_witness :
  exists d ops, build_index_delta batch = Ret d /\ MemoryIndex.apply d = Ret (Ok ops) /\
    MemoryIndex.slot_by_block_hash (MemoryIndex.commit ops index) (hash 3) = Some 5 /\
    MemoryIndex.slot_by_block_number (MemoryIndex.commit ops index) 1 = Ret (Some 5) /\
    Forall (fun tx => MemoryIndex.slot_by_tx_hash (MemoryIndex.commit ops index) (tv_hash tx) = Some 5) [tx_view].
Proof.
  apply (indexed_blocks_found batch [delta] [block_view] index block_view).
  - constructor; [split; [reflexivity|split; vm_compute; reflexivity]|constructor].
  - repeat constructor.
  - repeat constructor.
  - left.
  - intros v' kk ->%list_elem_of_singleton. done.
Defined.

(** After the undo the spent output is unspent again and not listed, and the
    undone output is listed still. *)
Definition after : MemoryIndex.t := MemoryIndex.mk None {[ (Utxo.ADDRESS, [20]) := {[ paid ]} ]} ∅ ∅.

Lemma rollback_leaves_index_witness :
  exists du di ops, compute_undo_data [] inputs ChainPoint.Origin = Ok (du, di) /\
    utxo_step du (next_utxos before block) = before /\ MemoryIndex.undo di = Ret (Ok ops) /\
    MemoryIndex.commit ops after = after /\ ~ coherent (MemoryIndex.commit ops after) before.
Proof.
  destruct (rollback_leaves_index [] block before inputs ChainPoint.Origin after) as (du & di & ops & H1 & H2 & H3 & H4 & H5).
  - done.
  - by intros ???.
  - exact (proj1 (batch_inputs_resolve before [block] fresh available)).
  - replace (next_utxos before block) with ({[ paid := (7, [20]) ]} : UtxoMap) by (vm_compute; reflexivity).
    by apply singleton_coherent.
  - exists du, di, ops. conj_split; [done..|]. rewrite H5. intros Hc.
    destruct (Hc Utxo.ADDRESS [10] spent) as [Ht _]. destruct Ht as (body & tags & Hb & _).
    + exists (7, [10]), [mkTag Utxo.ADDRESS [10]]. split; [done|]. split; [done|left].
    + vm_compute in Hb. discriminate Hb.
Defined.

End IndexDemo.
