(* ===== verification/Work.v ===== *)
(** * Scheduling work (cardano/src/work.rs, core/src/sync.rs, core/src/import.rs)

    The buffer that turns the blocks a node receives into work units (batches
    to roll, the reward update, the two halves of an epoch boundary), the
    chain logic that owns it, and the loops of the sync and import paths that
    drain it. *)

From S2P Require Import Prelude Types ChainPoint EntityDelta Eras StateStore Blocks Wal Roll.
Open Scope Z_scope.

(** ** Boundaries between two slots (cardano/src/pallas_extras.rs) *)

Section boundaries.
Context `{BuildCfg}.

Definition epoch_boundary (eras : ChainSummary.t) (prev_slot next_slot : BlockSlot) :
    run (option (Epoch * BlockSlot * Epoch)) :=
  prev ← ChainSummary.slot_epoch eras prev_slot;
  next ← ChainSummary.slot_epoch eras next_slot;
  if negb (fst prev =? fst next) then
    boundary ← ChainSummary.epoch_start eras (fst next);
    Ret (Some (fst prev, boundary, fst next))
  else Ret None.

Definition rupd_boundary (stability_window : Z) (eras : ChainSummary.t)
    (prev_slot next_slot : BlockSlot) : run (option BlockSlot) :=
  prev ← ChainSummary.slot_epoch eras prev_slot;
  epoch_start ← ChainSummary.epoch_start eras (fst prev);
  boundary ← uadd 64 epoch_start stability_window;
  if (prev_slot <=? boundary) && (boundary <? next_slot) then Ret (Some boundary) else Ret None.

End boundaries.

(** [OwnedMultiEraBlock]: a decoded block and its bytes. *)
Record OwnedBlock := mkOwned { view : Block; owner : bytes }.

Definition owned_slot (b : OwnedBlock) : BlockSlot := block_slot (view b).
Definition owned_point (b : OwnedBlock) : ChainPoint.t :=
  ChainPoint.Specific (block_slot (view b)) (block_hash (view b)).

(** [WorkBlock::new]. *)
Definition new_work_block {D} (b : OwnedBlock) : WorkBlock.t D :=
  WorkBlock.mk (view b) (owner b) ∅ None.

Inductive InternalWorkUnit (D E : Type) :=
| UGenesis
| UBlocks (batch : WorkBatch.t D E)
| UEwrap (slot : BlockSlot)
| UEstart (slot : BlockSlot)
| URupd (slot : BlockSlot)
| UForcedStop.
Arguments UGenesis {D E}.
Arguments UBlocks {D E} batch.
Arguments UEwrap {D E} slot.
Arguments UEstart {D E} slot.
Arguments URupd {D E} slot.
Arguments UForcedStop {D E}.

Module WorkBuffer.

Inductive t (D E : Type) :=
| Empty
| Restart (cursor : ChainPoint.t)
| Genesis (block : OwnedBlock)
| OpenBatch (batch : WorkBatch.t D E)
| PreRupdBoundary (batch : WorkBatch.t D E) (block : OwnedBlock)
| RupdBoundary (block : OwnedBlock)
| PreEwrapBoundary (batch : WorkBatch.t D E) (block : OwnedBlock) (epoch : Epoch)
| EwrapBoundary (block : OwnedBlock) (epoch : Epoch)
| EstartBoundary (block : OwnedBlock) (epoch : Epoch)
| PreForcedStop (block : OwnedBlock)
| ForcedStop.
Arguments Empty {D E}.
Arguments Restart {D E} cursor.
Arguments Genesis {D E} block.
Arguments OpenBatch {D E} batch.
Arguments PreRupdBoundary {D E} batch block.
Arguments RupdBoundary {D E} block.
Arguments PreEwrapBoundary {D E} batch block epoch.
Arguments EwrapBoundary {D E} block epoch.
Arguments EstartBoundary {D E} block epoch.
Arguments PreForcedStop {D E} block.
Arguments ForcedStop {D E}.

Section ops.
Context {D E : Type} `{BuildCfg}.

Definition new_from_cursor (cursor : ChainPoint.t) : t D E := Restart cursor.

Definition last_point_seen (w : t D E) : run ChainPoint.t :=
  match w with
  | Empty => Ret ChainPoint.Origin
  | Restart x => Ret x
  | Genesis block => Ret (owned_point block)
  | OpenBatch batch => WorkBatch.last_point batch
  | PreRupdBoundary _ block => Ret (owned_point block)
  | RupdBoundary block => Ret (owned_point block)
  | PreEwrapBoundary _ block _ => Ret (owned_point block)
  | EwrapBoundary block _ => Ret (owned_point block)
  | EstartBoundary block _ => Ret (owned_point block)
  | PreForcedStop block => Ret (owned_point block)
  | ForcedStop => Panic
  end.

Definition can_receive_block (w : t D E) : bool :=
  match w with Empty | Restart _ | OpenBatch _ => true | _ => false end.

Definition open_with (block : OwnedBlock) : t D E :=
  OpenBatch (WorkBatch.for_single_block (new_work_block block)).

Definition extend_batch (w : t D E) (next_block : OwnedBlock) : run (t D E) :=
  match w with
  | Empty => Ret (open_with next_block)
  | Restart _ => Ret (open_with next_block)
  | OpenBatch batch => Ret (OpenBatch (WorkBatch.add_work batch (new_work_block next_block)))
  | _ => Panic
  end.

Definition on_genesis_boundary (w : t D E) (next_block : OwnedBlock) : run (t D E) :=
  match w with Empty => Ret (Genesis next_block) | _ => Panic end.

Definition on_rupd_boundary (w : t D E) (next_block : OwnedBlock) : run (t D E) :=
  match w with
  | Restart _ => Ret (RupdBoundary next_block)
  | OpenBatch batch => Ret (PreRupdBoundary batch next_block)
  | _ => Panic
  end.

Definition on_ewrap_boundary (w : t D E) (next_block : OwnedBlock) (epoch : Epoch) : run (t D E) :=
  match w with
  | Restart _ => Ret (EwrapBoundary next_block epoch)
  | OpenBatch batch => Ret (PreEwrapBoundary batch next_block epoch)
  | _ => Panic
  end.

Definition receive_block (w : t D E) (block : OwnedBlock) (eras : ChainSummary.t)
    (stability_window : Z) : run (t D E) :=
  _ ← assert_ (can_receive_block w);
  match w with
  | Empty => on_genesis_boundary w block
  | _ =>
      p ← last_point_seen w;
      let prev_slot := ChainPoint.slot p in
      let next_slot := owned_slot block in
      boundary ← epoch_boundary eras prev_slot next_slot;
      match boundary with
      | Some (epoch, _, _) => on_ewrap_boundary w block epoch
      | None =>
          rupd ← rupd_boundary stability_window eras prev_slot next_slot;
          match rupd with
          | Some _ => on_rupd_boundary w block
          | None => extend_batch w block
          end
      end
  end.

Definition pop_work (w : t D E) (stop_epoch : option Epoch) :
    run (option (InternalWorkUnit D E) * t D E) :=
  match w with
  | Restart _ | Empty => Ret (None, w)
  | Genesis block => Ret (Some UGenesis, open_with block)
  | OpenBatch batch =>
      last_point ← WorkBatch.last_point batch;
      Ret (Some (UBlocks batch), Restart last_point)
  | PreRupdBoundary batch block => Ret (Some (UBlocks batch), RupdBoundary block)
  | RupdBoundary block => Ret (Some (URupd (owned_slot block)), open_with block)
  | PreEwrapBoundary batch block epoch => Ret (Some (UBlocks batch), EwrapBoundary block epoch)
  | EwrapBoundary block epoch =>
      next ← uadd 64 epoch 1;
      Ret (Some (UEwrap (owned_slot block)), EstartBoundary block next)
  | EstartBoundary block epoch =>
      Ret (Some (UEstart (owned_slot block)),
           if bool_decide (stop_epoch = Some epoch) then PreForcedStop block else open_with block)
  | PreForcedStop block =>
      Ret (Some (UBlocks (WorkBatch.for_single_block (new_work_block block))), ForcedStop)
  | ForcedStop => Ret (Some UForcedStop, ForcedStop)
  end.

End ops.
End WorkBuffer.

(** ** The chain logic (cardano/src/lib.rs) *)

Module CardanoLogic.

(** [config] is read for its [stop_epoch] only. *)
Record t (D E : Type) := mk {
  stop_epoch : option Epoch;
  work : option (WorkBuffer.t D E);
  eras : ChainSummary.t;
  stability_window : Z;
  needs_cache_refresh : bool;
}.
Arguments mk {D E}.
Arguments stop_epoch {D E}.
Arguments work {D E}.
Arguments eras {D E}.
Arguments stability_window {D E}.
Arguments needs_cache_refresh {D E}.

#[global] Instance eta_t {D E} : Eta (t D E) := fun r =>
  mk (stop_epoch r) (work r) (eras r) (stability_window r) (needs_cache_refresh r).

Section ops.
Context {D E : Type} `{BuildCfg, BlockDecoder}.

(** The buffer the logic starts with. *)
Definition initial_work (cursor : option ChainPoint.t) : WorkBuffer.t D E :=
  match cursor with
  | Some cursor => WorkBuffer.new_from_cursor cursor
  | None => WorkBuffer.Empty
  end.

Definition can_receive_block (c : t D E) : run bool :=
  w ← expect (work c); Ret (WorkBuffer.can_receive_block w).

Definition receive_block (c : t D E) (raw : bytes) : run (result ChainError (BlockSlot * t D E)) :=
  can ← can_receive_block c;
  if negb can then Ret (Err (CantReceiveBlock raw))
  else
    match decode_block raw with
    | None => Ret (Err DecodingError)
    | Some block =>
        w ← expect (work c);
        new_work ← WorkBuffer.receive_block w (mkOwned block raw) (eras c) (stability_window c);
        last ← WorkBuffer.last_point_seen new_work;
        Ret (Ok (ChainPoint.slot last, c <| work := Some new_work |>))
    end.

(** [loaded] is what [load_era_summary] reads from the state store; a failed
    read is logged and the cached eras are kept. *)
Definition pop_work (c : t D E) (loaded : option ChainSummary.t) :
    run (option (InternalWorkUnit D E) * t D E) :=
  let c := if needs_cache_refresh c
           then (c <| eras := default (eras c) loaded |>) <| needs_cache_refresh := false |>
           else c in
  w ← expect (work c);
  r ← WorkBuffer.pop_work w (stop_epoch c);
  let c := c <| work := Some r.2 |> in
  Ret (r.1,
       match r.1 with
       | Some UGenesis | Some (UEstart _) => c <| needs_cache_refresh := true |>
       | _ => c
       end).

End ops.
End CardanoLogic.

(** ** Draining the buffer (core/src/sync.rs, core/src/import.rs)

    [exec] is [execute_work_unit] on the domain [X], [load_eras] what
    [load_era_summary] reads from it.  The loops take fuel; running out of it is
    a panic, which the theorems below exclude. *)

Section drain.
Context {D E X : Type} `{BuildCfg, BlockDecoder}.
Variable exec : InternalWorkUnit D E -> X -> run (result DomainError X).
Variable load_eras : X -> option ChainSummary.t.

Abbreviation Logic := (CardanoLogic.t D E).

Fixpoint drain_pending_work (fuel : nat) (c : Logic) (x : X) : run (result DomainError (Logic * X)) :=
  match fuel with
  | O => Panic
  | S fuel =>
      r ← CardanoLogic.pop_work c (load_eras x);
      match r.1 with
      | None => Ret (Ok (r.2, x))
      | Some work =>
          x ←? exec work x;
          drain_pending_work fuel r.2 x
      end
  end.

(** [SyncExt::roll_forward]. *)
Definition roll_forward (fuel : nat) (c : Logic) (x : X) (block : bytes) :
    run (result DomainError (BlockSlot * Logic * X)) :=
  cx ←? drain_pending_work fuel c x;
  r ← CardanoLogic.receive_block cx.1 block;
  last ←? Ret (map_err DChain r);
  cx ←? drain_pending_work fuel last.2 cx.2;
  Ret (Ok (last.1, cx.1, cx.2)).

(** The loop of [ImportExt::import_blocks]. *)
Fixpoint import_loop (fuel : nat) (last : BlockSlot) (c : Logic) (x : X) (raw : list bytes) :
    run (result DomainError (BlockSlot * Logic * X)) :=
  match raw with
  | [] => Ret (Ok (last, c, x))
  | block :: rest =>
      can ← CardanoLogic.can_receive_block c;
      cx ←? (if negb can then drain_pending_work fuel c x else Ret (Ok (c, x)));
      r ← CardanoLogic.receive_block cx.1 block;
      got ←? Ret (map_err DChain r);
      import_loop fuel got.1 got.2 cx.2 rest
  end.

Definition import_blocks (fuel : nat) (c : Logic) (x : X) (raw : list bytes) :
    run (result DomainError (BlockSlot * Logic * X)) :=
  r ←? import_loop fuel 0 c x raw;
  cx ←? drain_pending_work fuel r.1.2 r.2;
  Ret (Ok (r.1.1, cx.1, cx.2)).

End drain.

(** ** The reference schedule

    What has to happen, one tag at a time: the boundary work a block triggers,
    then the block. *)

Inductive Tag :=
| TGenesis
| TBlock (block : OwnedBlock)
| TRupd (slot : BlockSlot)
| TEwrap (slot : BlockSlot)
| TEstart (slot : BlockSlot)
| TStop.

Section schedule.
Context {D E : Type} `{BuildCfg}.
Variable stop : option Epoch.
Variable window : Z.

Abbreviation Buffer := (WorkBuffer.t D E).
Abbreviation Unit := (InternalWorkUnit D E).

Definition batch_tags (b : WorkBatch.t D E) : list Tag :=
  (fun w => TBlock (mkOwned (WorkBlock.block w) (WorkBlock.raw w))) <$> WorkBatch.blocks b.

Definition unit_tags (u : Unit) : list Tag :=
  match u with
  | UGenesis => [TGenesis]
  | UBlocks b => batch_tags b
  | UEwrap s => [TEwrap s]
  | UEstart s => [TEstart s]
  | URupd s => [TRupd s]
  | UForcedStop => [TStop]
  end.

(** The epoch a boundary that closes [e] opens, as a [u64]. *)
Definition opened (e : Epoch) : Epoch := (e + 1) mod 2 ^ 64.

Definition stop_tags (e : Epoch) : list Tag := if bool_decide (stop = Some e) then [TStop] else [].

(** What crossing from [prev_slot] to a block triggers, and the block. *)
Definition crossing (eras : ChainSummary.t) (prev_slot : BlockSlot) (b : OwnedBlock) : run (list Tag) :=
  boundary ← epoch_boundary eras prev_slot (owned_slot b);
  match boundary with
  | Some (e, _, _) =>
      Ret ([TEwrap (owned_slot b); TEstart (owned_slot b); TBlock b] ++ stop_tags (opened e))
  | None =>
      rupd ← rupd_boundary window eras prev_slot (owned_slot b);
      Ret (match rupd with Some _ => [TRupd (owned_slot b); TBlock b] | None => [TBlock b] end)
  end.

(** The schedule of blocks received after a point, each with the eras the node
    knew when it received it. *)
Fixpoint schedule_from (prev_slot : BlockSlot) (rs : list (OwnedBlock * ChainSummary.t)) :
    run (list Tag) :=
  match rs with
  | [] => Ret []
  | (b, eras) :: rest =>
      ts ← crossing eras prev_slot b;
      us ← schedule_from (owned_slot b) rest;
      Ret (ts ++ us)
  end.

Definition schedule (cursor : option ChainPoint.t) (rs : list (OwnedBlock * ChainSummary.t)) :
    run (list Tag) :=
  match cursor, rs with
  | Some p, _ => schedule_from (ChainPoint.slot p) rs
  | None, [] => Ret []
  | None, (b, _) :: rest => us ← schedule_from (owned_slot b) rest; Ret (TGenesis :: TBlock b :: us)
  end.

(** What a buffer still has to emit. *)
Definition pending_tags (w : Buffer) : list Tag :=
  match w with
  | WorkBuffer.Empty | WorkBuffer.Restart _ => []
  | WorkBuffer.Genesis b => [TGenesis; TBlock b]
  | WorkBuffer.OpenBatch batch => batch_tags batch
  | WorkBuffer.PreRupdBoundary batch b => batch_tags batch ++ [TRupd (owned_slot b); TBlock b]
  | WorkBuffer.RupdBoundary b => [TRupd (owned_slot b); TBlock b]
  | WorkBuffer.PreEwrapBoundary batch b e =>
      batch_tags batch ++ [TEwrap (owned_slot b); TEstart (owned_slot b); TBlock b] ++ stop_tags (opened e)
  | WorkBuffer.EwrapBoundary b e =>
      [TEwrap (owned_slot b); TEstart (owned_slot b); TBlock b] ++ stop_tags (opened e)
  | WorkBuffer.EstartBoundary b e => [TEstart (owned_slot b); TBlock b] ++ stop_tags e
  | WorkBuffer.PreForcedStop b => [TBlock b; TStop]
  | WorkBuffer.ForcedStop => [TStop]
  end.

(** Batches are never empty. *)
Definition buffer_ok (w : Buffer) : Prop :=
  match w with
  | WorkBuffer.OpenBatch batch | WorkBuffer.PreRupdBoundary batch _
  | WorkBuffer.PreEwrapBoundary batch _ _ => WorkBatch.blocks batch ≠ []
  | _ => True
  end.

Lemma single_tags b : batch_tags (WorkBatch.for_single_block (new_work_block b)) = [TBlock b].
Proof. by destruct b. Qed.

Lemma add_tags batch b :
  batch_tags (WorkBatch.add_work batch (new_work_block b)) = batch_tags batch ++ [TBlock b].
Proof. unfold batch_tags. cbn. rewrite fmap_app. by destruct b. Qed.

Lemma uadd_opened e n : uadd 64 e 1 = Ret n -> n = opened e.
Proof.
  unfold uadd, native, opened. destruct (decide _) as [Hu|Hu].
  - intros [= <-]. by rewrite Z.mod_small.
  - destruct overflow_checks; [done|]. by intros [= <-].
Qed.

Lemma last_point_ok (batch : WorkBatch.t D E) :
  WorkBatch.blocks batch ≠ [] -> exists w, last (WorkBatch.blocks batch) = Some w /\
    WorkBatch.last_point batch = Ret (WorkBlock.point w).
Proof.
  intros Hne. unfold WorkBatch.last_point. destruct (last _) as [w|] eqn:El; [by exists w|].
  by apply last_None in El.
Qed.

(** A pop emits the head of what is pending. *)
Lemma pop_pending w u w' :
  buffer_ok w -> w ≠ WorkBuffer.ForcedStop -> WorkBuffer.pop_work w stop = Ret (Some u, w') ->
  pending_tags w = unit_tags u ++ pending_tags w' /\ buffer_ok w'.
Proof.
  intros Hok Hns Hpop. destruct w; cbn in Hpop; try discriminate; try done; cbn [pending_tags].
  all: try (apply bind_Ret in Hpop as (x & Ex & Hpop)).
  all: injection Hpop as <- <-; cbn [unit_tags pending_tags WorkBuffer.open_with]; rewrite ?single_tags.
  - done.
  - by rewrite app_nil_r.
  - done.
  - done.
  - done.
  - by apply uadd_opened in Ex as ->.
  - unfold stop_tags. case_bool_decide; cbn [pending_tags WorkBuffer.open_with];
      by rewrite ?single_tags.
  - done.
Qed.

(** A reception appends what the block triggers. *)
Lemma receive_pending w b eras w' p :
  buffer_ok w -> w ≠ WorkBuffer.Empty -> WorkBuffer.last_point_seen w = Ret p ->
  WorkBuffer.receive_block w b eras window = Ret w' ->
  exists ts, crossing eras (ChainPoint.slot p) b = Ret ts /\
    pending_tags w' = pending_tags w ++ ts /\ buffer_ok w' /\
    WorkBuffer.last_point_seen w' = Ret (owned_point b).
Proof.
  intros Hok Hne Hp Hrcv. unfold WorkBuffer.receive_block in Hrcv.
  apply bind_Ret in Hrcv as ([] & Ha & Hrcv).
  assert (Hcan : WorkBuffer.can_receive_block w = true) by (by destruct (WorkBuffer.can_receive_block w)).
  assert (E2 : (boundary ← epoch_boundary eras (ChainPoint.slot p) (owned_slot b);
      match boundary with
      | Some (epoch, _, _) => WorkBuffer.on_ewrap_boundary w b epoch
      | None =>
          rupd ← rupd_boundary window eras (ChainPoint.slot p) (owned_slot b);
          match rupd with
          | Some _ => WorkBuffer.on_rupd_boundary w b
          | None => WorkBuffer.extend_batch w b
          end
      end) = Ret w').
  { destruct w; try done; rewrite Hp in Hrcv; exact Hrcv. }
  clear Hrcv. unfold crossing. apply bind_Ret in E2 as (bd & -> & Hrcv). cbn [mbind run_bind].
  destruct bd as [[[e s] n]|].
  - eexists. split; [reflexivity|]. destruct w; try done; cbn in Hrcv; injection Hrcv as <-; by cbn.
  - apply bind_Ret in Hrcv as (rb & -> & Hrcv). cbn [mbind run_bind]. eexists. split; [reflexivity|].
    destruct rb, w; try done; cbn in Hrcv; injection Hrcv as <-; cbn [pending_tags WorkBuffer.open_with buffer_ok];
      rewrite ?single_tags, ?add_tags; conj_split; try done; cbn.
    + by destruct (WorkBatch.blocks batch).
    + unfold WorkBatch.last_point. cbn. by rewrite last_snoc.
Qed.

Lemma schedule_from_snoc rs : forall prev b eras,
  schedule_from prev (rs ++ [(b, eras)]) =
    (ts ← schedule_from prev rs;
     us ← crossing eras (default prev (owned_slot ∘ fst <$> last rs)) b;
     Ret (ts ++ us)).
Proof.
  induction rs as [|[b0 eras0] rs IH]; intros prev b eras; cbn.
  - destruct (crossing eras prev b); cbn; [by rewrite app_nil_r|done].
  - destruct (crossing eras0 prev b0) as [ts|]; cbn; [|done]. rewrite IH. cbn.
    destruct (schedule_from (owned_slot b0) rs) as [us|]; cbn; [|done].
    replace (default prev (owned_slot ∘ fst <$> match rs with [] => Some (b0, eras0) | _ :: _ => last rs end))
      with (default (owned_slot b0) (owned_slot ∘ fst <$> last rs))
      by (destruct rs as [|r rs]; [done|]; cbn; destruct (last_is_Some (r :: rs)) as [_ Hl];
          destruct Hl as [x ->]; done).
    destruct (crossing _ _ b) as [vs|]; cbn; [by rewrite app_assoc|done].
Qed.

(** Every way of driving the buffer: receiving blocks when it can, popping
    work until the forced stop. *)
Inductive driven (cursor : option ChainPoint.t) :
    Buffer -> list (OwnedBlock * ChainSummary.t) -> list Unit -> Prop :=
| driven_start : driven cursor (CardanoLogic.initial_work cursor) [] []
| driven_receive w rs us b eras w' :
    driven cursor w rs us -> WorkBuffer.can_receive_block w = true ->
    WorkBuffer.receive_block w b eras window = Ret w' -> driven cursor w' (rs ++ [(b, eras)]) us
| driven_pop w rs us u w' :
    driven cursor w rs us -> w ≠ WorkBuffer.ForcedStop ->
    WorkBuffer.pop_work w stop = Ret (Some u, w') -> driven cursor w' rs (us ++ [u]).


(** The slot the next block is compared with. *)
Definition prev_slot_of (cursor : option ChainPoint.t) (rs : list (OwnedBlock * ChainSummary.t)) : BlockSlot :=
  default (default 0 (ChainPoint.slot <$> cursor)) (owned_slot ∘ fst <$> last rs).

Lemma pop_last w u w' :
  buffer_ok w -> WorkBuffer.pop_work w stop = Ret (Some u, w') -> w' ≠ WorkBuffer.ForcedStop ->
  WorkBuffer.last_point_seen w' = WorkBuffer.last_point_seen w.
Proof.
  intros Hok Hpop Hns. destruct w; cbn in Hpop; try discriminate.
  all: try (apply bind_Ret in Hpop as (x & Ex & Hpop)).
  all: injection Hpop as <- <-; try done.
  by case_bool_decide.
Qed.

Lemma pop_not_empty (w : Buffer) u w' : WorkBuffer.pop_work w stop = Ret (Some u, w') -> w' ≠ WorkBuffer.Empty.
Proof.
  intros Hpop. destruct w; cbn in Hpop; try discriminate.
  all: try (apply bind_Ret in Hpop as (x & Ex & Hpop)).
  all: injection Hpop as <- <-; try done. by case_bool_decide.
Qed.

Lemma schedule_snoc cursor rs b eras ts us :
  (cursor = None -> rs ≠ []) -> schedule cursor rs = Ret ts ->
  crossing eras (prev_slot_of cursor rs) b = Ret us ->
  schedule cursor (rs ++ [(b, eras)]) = Ret (ts ++ us).
Proof.
  unfold prev_slot_of. destruct cursor as [p|]; cbn.
  - intros _ Hs Hc. by rewrite schedule_from_snoc, Hs, Hc.
  - intros Hne Hs Hc. destruct rs as [|[b0 eras0] rs]; [by specialize (Hne eq_refl)|]. cbn in Hs |- *.
    apply bind_Ret in Hs as (vs & Hs & Hv). injection Hv as <-.
    rewrite schedule_from_snoc, Hs. cbn.
    replace (default (owned_slot b0) (owned_slot ∘ fst <$> last rs))
      with (default 0 (owned_slot ∘ fst <$> last ((b0, eras0) :: rs))).
    + by rewrite Hc.
    + destruct rs as [|r rs]; [done|]. cbn.
      destruct (last_is_Some (r :: rs)) as [_ [x ->]]; done.
Qed.

Lemma driven_inv cursor (w : Buffer) rs us :
  driven cursor w rs us ->
  buffer_ok w /\
  (w = WorkBuffer.Empty -> rs = [] /\ us = [] /\ cursor = None) /\
  (cursor = None -> rs = [] -> w = WorkBuffer.Empty) /\
  (w ≠ WorkBuffer.Empty -> w ≠ WorkBuffer.ForcedStop ->
     exists p, WorkBuffer.last_point_seen w = Ret p /\ ChainPoint.slot p = prev_slot_of cursor rs) /\
  schedule cursor rs = Ret (mjoin (unit_tags <$> us) ++ pending_tags w).
Proof.
  induction 1 as [|w rs us b eras w' _ (Hok & Hemp & Hnone & Hlast & Hs) Hcan Hr
                  |w rs us u w' _ (Hok & Hemp & Hnone & Hlast & Hs) Hns Hp].
  - destruct cursor as [p|]; cbn; conj_split; try done. intros _ _. by exists p.
  - assert (Hnf : w ≠ WorkBuffer.ForcedStop) by (by intros ->).
    assert (Hd : w = WorkBuffer.Empty \/ w ≠ WorkBuffer.Empty) by (destruct w; auto).
    destruct Hd as [->|Hne].
    + destruct (Hemp eq_refl) as (-> & -> & ->). cbn in Hr. injection Hr as <-. cbn.
      conj_split; try done. intros _ _. by eexists.
    + destruct (Hlast Hne Hnf) as (p & Hp & Hsl).
      destruct (receive_pending w b eras w' p Hok Hne Hp Hr) as (ts & Hc & Hpd & Hok' & Hl').
      rewrite Hsl in Hc. conj_split.
      * done.
      * intros ->. by injection Hl'.
      * intros _ Hnil. by destruct rs.
      * intros _ _. exists (owned_point b). split; [done|]. unfold prev_slot_of. by rewrite last_snoc.
      * rewrite Hpd, app_assoc. eapply schedule_snoc; [|done|done].
        intros Hn Hnil. by apply Hne, Hnone.
  - destruct (pop_pending w u w' Hok Hns Hp) as [Hpd Hok'].
    assert (Hne : w ≠ WorkBuffer.Empty) by (by intros ->).
    conj_split.
    + done.
    + intros ->. by apply pop_not_empty in Hp.
    + intros Hn Hnil. by destruct Hne; apply Hnone.
    + intros _ Hnf. destruct (Hlast Hne Hns) as (p & Hl & Hsl). exists p.
      by rewrite (pop_last w u w' Hok Hp Hnf).
    + rewrite Hs, Hpd, fmap_app. cbn [fmap list_fmap]. by rewrite mjoin_snoc, app_assoc.
Qed.

(** C18: the work units a node executes are the schedule of the blocks it
    received, whatever the interleaving of receptions and pops (one block at a time as the sync
    path does, or in batches as the import path does): after any such run, the units emitted
    followed by what the buffer still holds are the reference schedule.  So every block is
    rolled exactly once, in order, after the reward update or the epoch boundary that precedes
    it, and nothing is lost when a batch is cut at a boundary. *)
Theorem work_follows_schedule cursor w rs us :
  driven cursor w rs us ->
  schedule cursor rs = Ret (mjoin (unit_tags <$> us) ++ pending_tags w).
Proof. intros Hd. apply (driven_inv cursor w rs us Hd). Qed.

End schedule.

(** ** Draining executes the plan *)

Section plan.
Context {D E X : Type} `{BuildCfg, BlockDecoder}.
Variable exec : InternalWorkUnit D E -> X -> run (result DomainError X).
Variable load_eras : X -> option ChainSummary.t.

Abbreviation Logic := (CardanoLogic.t D E).
Abbreviation Buffer := (WorkBuffer.t D E).
Abbreviation Unit := (InternalWorkUnit D E).

Definition single (b : OwnedBlock) : Unit :=
  UBlocks (WorkBatch.for_single_block (new_work_block b)).

(** Opening an epoch ends with the block, or with the forced stop. *)
Definition after_open (stop : option Epoch) (b : OwnedBlock) (e : Epoch) : list Unit :=
  UEstart (owned_slot b) :: single b :: (if bool_decide (stop = Some e) then [UForcedStop] else []).

(** The units a buffer gives until it is idle. *)
Definition plan (stop : option Epoch) (w : Buffer) : list Unit :=
  match w with
  | WorkBuffer.Empty | WorkBuffer.Restart _ => []
  | WorkBuffer.Genesis b => [UGenesis; single b]
  | WorkBuffer.OpenBatch batch => [UBlocks batch]
  | WorkBuffer.PreRupdBoundary batch b => [UBlocks batch; URupd (owned_slot b); single b]
  | WorkBuffer.RupdBoundary b => [URupd (owned_slot b); single b]
  | WorkBuffer.PreEwrapBoundary batch b e =>
      UBlocks batch :: UEwrap (owned_slot b) :: after_open stop b (opened e)
  | WorkBuffer.EwrapBoundary b e => UEwrap (owned_slot b) :: after_open stop b (opened e)
  | WorkBuffer.EstartBoundary b e => after_open stop b e
  | WorkBuffer.PreForcedStop b => [single b; UForcedStop]
  | WorkBuffer.ForcedStop => [UForcedStop]
  end.

(** The epochs of a buffer can be followed by another. *)
Definition epoch_ok (w : Buffer) : Prop :=
  match w with
  | WorkBuffer.PreEwrapBoundary _ _ e | WorkBuffer.EwrapBoundary _ e => is_u64 (e + 1)
  | _ => True
  end.

Fixpoint exec_all (us : list Unit) (x : X) : run (result DomainError X) :=
  match us with
  | [] => Ret (Ok x)
  | u :: rest => x ←? exec u x; exec_all rest x
  end.

Definition idle (w : Buffer) : Prop :=
  match w with WorkBuffer.Empty | WorkBuffer.Restart _ => True | _ => False end.

Lemma pop_idle (w : Buffer) stop : idle w -> WorkBuffer.pop_work w stop = Ret (None, w).
Proof. by destruct w. Qed.

(** A pop of a busy buffer returns the head of its plan. *)
Lemma pop_plan (w : Buffer) stop :
  buffer_ok w -> epoch_ok w -> ~ idle w ->
  exists u w', WorkBuffer.pop_work w stop = Ret (Some u, w') /\ buffer_ok w' /\ epoch_ok w' /\
    (w ≠ WorkBuffer.ForcedStop -> plan stop w = u :: plan stop w') /\
    (w = WorkBuffer.ForcedStop -> u = UForcedStop) /\
    (w' ≠ WorkBuffer.ForcedStop -> WorkBuffer.last_point_seen w' = WorkBuffer.last_point_seen w).
Proof.
  intros Hok He Hi. destruct w; cbn in Hok, He, Hi; try (by exfalso; apply Hi);
    try (by eexists _, _; conj_split).
  - destruct (last_point_ok batch Hok) as (w & Hl & Hlp).
    exists (UBlocks batch), (WorkBuffer.Restart (WorkBlock.point w)).
    cbn. rewrite Hlp. by conj_split.
  - exists (UEwrap (owned_slot block)), (WorkBuffer.EstartBoundary block (opened epoch)).
    cbn. unfold opened. rewrite uadd_exact by done. rewrite Z.mod_small by done. by conj_split.
  - eexists _, _. split; [reflexivity|]. unfold plan, after_open. case_bool_decide; by conj_split.
Qed.

(** Running out of units before fuel, the loop executes the plan in order and
    stops at the first failure. *)
Lemma drain_executes_plan fuel : forall (c : Logic) (x : X) (w : Buffer),
  (forall x, exec UForcedStop x = Ret (Err StopEpochReached)) ->
  CardanoLogic.work c = Some w -> buffer_ok w -> epoch_ok w ->
  (length (plan (CardanoLogic.stop_epoch c) w) < fuel)%nat ->
  match exec_all (plan (CardanoLogic.stop_epoch c) w) x with
  | Ret (Ok x') => exists c' w', drain_pending_work exec load_eras fuel c x = Ret (Ok (c', x')) /\
      CardanoLogic.work c' = Some w' /\ idle w' /\
      WorkBuffer.last_point_seen w' = WorkBuffer.last_point_seen w /\
      CardanoLogic.stop_epoch c' = CardanoLogic.stop_epoch c /\
      CardanoLogic.stability_window c' = CardanoLogic.stability_window c
  | Ret (Err e) => drain_pending_work exec load_eras fuel c x = Ret (Err e)
  | Panic => drain_pending_work exec load_eras fuel c x = Panic
  end.
Proof.
  induction fuel as [|fuel IH]; intros c x w Hstop Hw Hok He Hlen; [lia|].
  assert (Hc : exists c1, CardanoLogic.work c1 = Some w /\
    CardanoLogic.stop_epoch c1 = CardanoLogic.stop_epoch c /\
    CardanoLogic.stability_window c1 = CardanoLogic.stability_window c /\
    CardanoLogic.pop_work c (load_eras x) =
      (r ← WorkBuffer.pop_work w (CardanoLogic.stop_epoch c1);
       let c := c1 <| CardanoLogic.work := Some r.2 |> in
       Ret (r.1, match r.1 with
                 | Some UGenesis | Some (UEstart _) => c <| CardanoLogic.needs_cache_refresh := true |>
                 | _ => c end))).
  { unfold CardanoLogic.pop_work. destruct (CardanoLogic.needs_cache_refresh c).
    - exists ((c <| CardanoLogic.eras := default (CardanoLogic.eras c) (load_eras x) |>)
                <| CardanoLogic.needs_cache_refresh := false |>). cbn. by rewrite Hw.
    - exists c. cbn. by rewrite Hw. }
  destruct Hc as (c1 & Hw1 & Hs1 & Hsw1 & Hpop). cbn [drain_pending_work]. rewrite Hpop.
  assert (Hdec : idle w \/ ~ idle w) by (destruct w; cbn; auto). destruct Hdec as [Hidle|Hbusy].
  - rewrite (pop_idle w) by done. destruct w; try done; cbn;
      eexists _, _; by conj_split.
  - destruct (pop_plan w (CardanoLogic.stop_epoch c1) Hok He Hbusy)
      as (u & w' & Hp & Hok' & He' & Hplan & Hfs & Hlp). rewrite Hp. cbn [mbind run_bind fst snd].
    assert (Hcase : w = WorkBuffer.ForcedStop \/ w ≠ WorkBuffer.ForcedStop) by (destruct w; auto).
    destruct Hcase as [->|Hnf]; [rewrite Hfs by done; cbn; by rewrite Hstop|].
    rewrite <- Hs1 in *. rewrite (Hplan Hnf) in *. cbn [exec_all length] in *.
    destruct (exec u x) as [[x1|e]|]; cbn [rbind]; [|done|done].
    set (c2 := match u with UGenesis | UEstart _ => _ | _ => _ end).
    assert (Hc2 : CardanoLogic.work c2 = Some w' /\
                  CardanoLogic.stop_epoch c2 = CardanoLogic.stop_epoch c1 /\
                  CardanoLogic.stability_window c2 = CardanoLogic.stability_window c1).
    { unfold c2. by destruct u. }
    destruct Hc2 as (Hw2 & Hs2 & Hsw2).
    specialize (IH c2 x1 w' Hstop Hw2 Hok' He'). rewrite Hs2 in IH. specialize (IH ltac:(lia)).
    destruct (exec_all _ x1) as [[x'|e]|]; [|done|done].
    destruct IH as (c' & wf & Hdr & Hwf & Hid & Hlf & Hsf & Hswf).
    exists c', wf. conj_split; [done|done|done| |done|by rewrite Hswf, Hsw2].
    rewrite Hlf. apply Hlp. intros ->. cbn in Hlf, Hwf. by destruct wf.
Qed.

Lemma plan_tags stop (w : Buffer) : mjoin (unit_tags <$> plan stop w) = pending_tags stop w.
Proof.
  destruct w; cbn -[batch_tags]; unfold stop_tags, after_open; rewrite ?single_tags, ?app_nil_r; try done.
  all: case_bool_decide; cbn -[batch_tags]; by rewrite ?single_tags.
Qed.

(** A reception at an idle cursor, for a block whose crossing is computed. *)
Lemma receive_restart stop window p b eras ts :
  crossing stop window eras (ChainPoint.slot p) b = Ret ts ->
  (forall e s n, epoch_boundary eras (ChainPoint.slot p) (owned_slot b) = Ret (Some (e, s, n)) ->
     is_u64 (e + 1)) ->
  exists w : Buffer, WorkBuffer.receive_block (WorkBuffer.Restart p) b eras window = Ret w /\
    buffer_ok w /\ epoch_ok w /\ pending_tags stop w = ts /\ (length (plan stop w) ≤ 4)%nat /\
    WorkBuffer.last_point_seen w = Ret (owned_point b).
Proof.
  unfold crossing, WorkBuffer.receive_block. cbn [WorkBuffer.can_receive_block assert_ mbind run_bind
    WorkBuffer.last_point_seen]. intros Hc He.
  destruct (epoch_boundary eras (ChainPoint.slot p) (owned_slot b)) as [[[[e s] n]|]|];
    cbn [mbind run_bind] in Hc |- *; [| |done].
  - injection Hc as <-. exists (WorkBuffer.EwrapBoundary b e). conj_split; try done.
    + by apply (He e s n).
    + cbn. by case_bool_decide; cbn; lia.
  - destruct (rupd_boundary window eras (ChainPoint.slot p) (owned_slot b)) as [[s|]|];
      cbn [mbind run_bind] in Hc |- *; [| |done]; injection Hc as <-.
    + exists (WorkBuffer.RupdBoundary b). conj_split; try done. cbn. lia.
    + exists (WorkBuffer.open_with b). conj_split; try done; [apply single_tags|cbn; lia].
Qed.

(** The eras the node receives a block with: refreshed from the state when the
    previous unit may have changed them. *)
Definition eras_at (c : Logic) (x : X) : ChainSummary.t :=
  if CardanoLogic.needs_cache_refresh c then default (CardanoLogic.eras c) (load_eras x)
  else CardanoLogic.eras c.

(** C27: following the chain one block at a time, the node executes for each
    block exactly the work its slot calls for, and terminates.  From an idle cursor, with a
    handful of iterations as fuel, [roll_forward] executes the reward update or the two halves
    of the epoch boundary the block crosses, then the block, and is idle at the block's point;
    the first unit that fails, the forced stop included, ends it with that error. *)
Theorem roll_forward_executes fuel (c : Logic) (x : X) raw b p ts :
  (6 ≤ fuel)%nat ->
  (forall x, exec UForcedStop x = Ret (Err StopEpochReached)) ->
  CardanoLogic.work c = Some (WorkBuffer.Restart p) -> decode_block raw = Some b ->
  crossing (CardanoLogic.stop_epoch c) (CardanoLogic.stability_window c) (eras_at c x)
    (ChainPoint.slot p) (mkOwned b raw) = Ret ts ->
  (forall e s n, epoch_boundary (eras_at c x) (ChainPoint.slot p) (block_slot b) = Ret (Some (e, s, n)) ->
     is_u64 (e + 1)) ->
  exists us, mjoin (unit_tags <$> us) = ts /\
    match exec_all us x with
    | Ret (Ok x') => exists c', roll_forward exec load_eras fuel c x raw = Ret (Ok (block_slot b, c', x')) /\
        CardanoLogic.work c' = Some (WorkBuffer.Restart (owned_point (mkOwned b raw)))
    | Ret (Err e) => roll_forward exec load_eras fuel c x raw = Ret (Err e)
    | Panic => roll_forward exec load_eras fuel c x raw = Panic
    end.
Proof.
  intros Hfuel Hstop Hw Hdec Hc He.
  destruct (receive_restart _ _ p (mkOwned b raw) _ ts Hc He) as (w & Hr & Hok & Hep & Hpd & Hlen & Hlast).
  exists (plan (CardanoLogic.stop_epoch c) w). split; [by rewrite plan_tags|].
  set (c1 := c <| CardanoLogic.eras := eras_at c x |> <| CardanoLogic.needs_cache_refresh := false |>).
  assert (Hdr : drain_pending_work exec load_eras fuel c x = Ret (Ok (c1, x))).
  { destruct fuel as [|fuel]; [lia|]. cbn. unfold CardanoLogic.pop_work, c1, eras_at.
    destruct (CardanoLogic.needs_cache_refresh c) eqn:En; cbn; rewrite Hw; cbn;
      by destruct c; cbn in *; subst. }
  unfold roll_forward. rewrite Hdr. cbn [rbind fst snd].
  unfold CardanoLogic.receive_block, CardanoLogic.can_receive_block.
  replace (CardanoLogic.work c1) with (CardanoLogic.work c) by done. rewrite Hw.
  cbn [expect mbind run_bind WorkBuffer.can_receive_block negb]. rewrite Hdec.
  cbn [CardanoLogic.eras CardanoLogic.stability_window]. change (CardanoLogic.eras c1) with (eras_at c x).
  change (CardanoLogic.stability_window c1) with (CardanoLogic.stability_window c).
  rewrite Hr. cbn [mbind run_bind]. rewrite Hlast. cbn [mbind run_bind map_err rbind fst snd].
  set (c2 := c1 <| CardanoLogic.work := Some w |>).
  pose proof (drain_executes_plan fuel c2 x w Hstop eq_refl Hok Hep) as Hd.
  change (CardanoLogic.stop_epoch c2) with (CardanoLogic.stop_epoch c) in Hd.
  specialize (Hd ltac:(lia)). destruct (exec_all _ x) as [[x'|e]|].
  - destruct Hd as (c' & w' & -> & Hw' & Hid & Hl' & _). exists c'. split; [done|].
    rewrite Hlast in Hl'. destruct w'; try done; cbn in Hl'; by injection Hl' as ->.
  - by rewrite Hd.
  - by rewrite Hd.
Qed.

End plan.

(** ** A run across the Byron-Shelley boundary of mainnet *)

Section witnesses.
#[local] Instance demo_cfg : BuildCfg := cfg_release.

Definition demo_block (slot : Z) : Block :=
  {| block_slot := slot; block_hash := replicate 32 1; previous_hash := None; txs := [] |}.

(** Blocks are written as one byte here: the last of Byron, the first of Shelley. *)
#[local] Instance demo_decoder : BlockDecoder := {|
  decode_block raw :=
    match raw with
    | [0] => Some (demo_block 4492780)
    | [1] => Some (demo_block 4492800)
    | _ => None
    end;
  decode_output _ := true;
|}.

Definition demo_last_byron : OwnedBlock := mkOwned (demo_block 4492780) [0].
Definition demo_first_shelley : OwnedBlock := mkOwned (demo_block 4492800) [1].
Definition demo_cursor : ChainPoint.t := ChainPoint.Slot 4492760.

(** The units executed so far, and nothing else. *)
Definition demo_exec {D E} (u : InternalWorkUnit D E) (x : list Tag) : run (result DomainError (list Tag)) :=
  match u with
  | UForcedStop => Ret (Err StopEpochReached)
  | _ => Ret (Ok (x ++ unit_tags u))
  end.

Lemma work_follows_schedule_witness :
  schedule (Some 208) 300 (Some demo_cursor)
    [(demo_last_byron, Mainnet.chain); (demo_first_shelley, Mainnet.chain)] =
  Ret ([TBlock demo_last_byron; TEwrap 4492800] ++
       [TEstart 4492800; TBlock demo_first_shelley; TStop]).
Proof.
  apply (work_follows_schedule (D := unit) (E := unit) (Some 208) 300 (Some demo_cursor)
    (WorkBuffer.EstartBoundary demo_first_shelley 208)
    [(demo_last_byron, Mainnet.chain); (demo_first_shelley, Mainnet.chain)]
    [UBlocks (WorkBatch.for_single_block (new_work_block demo_last_byron)); UEwrap 4492800]).
  pose (w1 := WorkBuffer.open_with (D := unit) (E := unit) demo_last_byron).
  pose (w2 := WorkBuffer.PreEwrapBoundary (WorkBatch.for_single_block (D := unit) (E := unit)
    (new_work_block demo_last_byron)) demo_first_shelley 207).
  pose (w3 := WorkBuffer.EwrapBoundary (D := unit) (E := unit) demo_first_shelley 207).
  apply (driven_pop _ _ _ w3 _ [_]); [|done|reflexivity].
  apply (driven_pop _ _ _ w2 _ []); [|done|reflexivity].
  apply (driven_receive _ _ _ w1 [_]); [|reflexivity|vm_compute; reflexivity].
  apply (driven_receive _ _ _ (WorkBuffer.Restart demo_cursor) []); [|reflexivity|vm_compute; reflexivity].
  exact (driven_start _ _ (Some demo_cursor)).
Defined.

Definition demo_logic : CardanoLogic.t unit unit :=
  CardanoLogic.mk (Some 208) (Some (WorkBuffer.Restart demo_cursor)) Mainnet.chain 300 true.

Lemma roll_forward_executes_witness :
  exists us : list (InternalWorkUnit unit unit),
    mjoin (unit_tags <$> us) =
      [TEwrap 4492800; TEstart 4492800; TBlock demo_first_shelley; TStop] /\
    match exec_all demo_exec us [] with
    | Ret (Ok x') => exists c',
        roll_forward demo_exec (fun _ => Some Mainnet.chain) 6 demo_logic [] [1] =
          Ret (Ok (4492800, c', x')) /\
        CardanoLogic.work c' = Some (WorkBuffer.Restart (owned_point demo_first_shelley))
    | Ret (Err e) =>
        roll_forward demo_exec (fun _ => Some Mainnet.chain) 6 demo_logic [] [1] = Ret (Err e)
    | Panic => roll_forward demo_exec (fun _ => Some Mainnet.chain) 6 demo_logic [] [1] = Panic
    end.
Proof.
  apply (roll_forward_executes (D := unit) (E := unit) demo_exec (fun _ => Some Mainnet.chain) 6
    demo_logic [] [1] (demo_block 4492800) demo_cursor
    [TEwrap 4492800; TEstart 4492800; TBlock demo_first_shelley; TStop]).
  - lia.
  - done.
  - done.
  - done.
  - vm_compute. reflexivity.
  - intros e s n He. vm_compute in He. injection He as <- <- <-. done.
Defined.

End witnesses.
