(* ===== verification/Mempool.v ===== *)
(** * The mempool (core/src/mempool.rs, core/src/builtin/mempool.rs)

    The transactions a node is trying to get on chain, the contract a mempool
    backend offers, and the in-memory backend [EphemeralMempool] as an
    implementation of it. *)

From S2P Require Import Prelude Types ChainPoint StateStore.
Open Scope Z_scope.

(** ** Transactions and their stages *)

Inductive MempoolTxStage :=
| Pending
| Propagated
| Acknowledged
| Confirmed
| Finalized
| Dropped
| RolledBack
| Unknown.

#[global] Instance stage_eq_dec : EqDecision MempoolTxStage.
Proof. solve_decision. Defined.

Module MempoolTx.

(** [R] is the report of the script evaluation. *)
Record t (R : Type) := mk {
  hash : TxHash;
  payload : EraCbor;
  stage : MempoolTxStage;
  confirmations : Z;
  non_confirmations : Z;
  confirmed_at : option ChainPoint.t;
  report : option R;
}.
Arguments mk {R}.
Arguments hash {R} _.
Arguments payload {R} _.
Arguments stage {R} _.
Arguments confirmations {R} _.
Arguments non_confirmations {R} _.
Arguments confirmed_at {R} _.
Arguments report {R} _.

#[global] Instance eta_t {R} : Eta (t R) := fun r =>
  mk (hash r) (payload r) (stage r) (confirmations r) (non_confirmations r) (confirmed_at r) (report r).

Section ops.
Context {R : Type} `{BuildCfg}.

(** [Clone]: the report is not copied. *)
Definition clone (tx : t R) : t R := tx <| report := None |>.

Definition new (hash : TxHash) (payload : EraCbor) (report : R) : t R :=
  mk hash payload Pending 0 0 None (Some report).

Definition confirm (tx : t R) (point : ChainPoint.t) : run (t R) :=
  let tx := tx <| stage := Confirmed |> in
  n ← uadd 32 (confirmations tx) 1;
  let tx := tx <| confirmations := n |> in
  let tx := tx <| non_confirmations := 0 |> in
  Ret (match confirmed_at tx with
       | None => tx <| confirmed_at := Some point |>
       | Some _ => tx
       end).

Definition retry (tx : t R) : t R :=
  let tx := tx <| stage := Pending |> in
  let tx := tx <| confirmations := 0 |> in
  let tx := tx <| non_confirmations := 0 |> in
  tx <| confirmed_at := None |>.

Definition mark_stale (tx : t R) : run (t R) :=
  n ← uadd 32 (non_confirmations tx) 1;
  Ret (tx <| non_confirmations := n |>).

End ops.
End MempoolTx.

Record TxStatus := mkStatus {
  st_stage : MempoolTxStage;
  st_confirmations : Z;
  st_non_confirmations : Z;
  st_confirmed_at : option ChainPoint.t;
}.

Record MempoolPage (R : Type) := mkPage {
  items : list (MempoolTx.t R);
  next_cursor : option Z;
}.
Arguments mkPage {R} items next_cursor.
Arguments items {R} _.
Arguments next_cursor {R} _.

(** The errors of the operations modelled here; the others come from
    validation or from the database. *)
Inductive MempoolError := DuplicateTx.

(** [std::collections::HashMap] yields its keys in an order it does not
    specify. *)
Class HashOrder (A : Type) := {
  keys_of : gmap (list Z) A -> list (list Z);
  keys_of_perm : forall m, keys_of m ≡ₚ (map_to_list m).*1;
}.

(** The status of a transaction the mempool does not count confirmations for. *)
Definition bare_status (s : MempoolTxStage) : TxStatus := mkStatus s 0 0 None.

(** ** The in-memory backend *)

Module EphemeralMempool.

Definition MAX_FINALIZED_LOG : nat := 1000.

Record t (R : Type) := mk {
  pending : list (MempoolTx.t R);
  inflight : list (MempoolTx.t R);
  acknowledged : gmap (list Z) (MempoolTx.t R);
  finalized_log : list (MempoolTx.t R);
}.
Arguments mk {R}.
Arguments pending {R} _.
Arguments inflight {R} _.
Arguments acknowledged {R} _.
Arguments finalized_log {R} _.

#[global] Instance eta_t {R} : Eta (t R) := fun r =>
  mk (pending r) (inflight r) (acknowledged r) (finalized_log r).

Section ops.
Context {R : Type} `{BuildCfg, !HashOrder (MempoolTx.t R)}.

Abbreviation Tx := (MempoolTx.t R).

Definition new : t R := mk [] [] ∅ [].

(** Each operation returns the new state and the events it broadcasts. *)
Definition receive (state : t R) (tx : Tx) : run (result MempoolError (t R * list Tx)) :=
  if existsb (fun p => bool_decide (MempoolTx.hash p = MempoolTx.hash tx)) (pending state)
  then Ret (Err DuplicateTx)
  else Ret (Ok (state <| pending := pending state ++ [MempoolTx.clone tx] |>, [tx])).

Definition has_pending (state : t R) : bool :=
  match pending state with [] => false | _ => true end.

Definition peek_pending (state : t R) : list Tx := MempoolTx.clone <$> pending state.

Definition mark_inflight (state : t R) (hashes : list TxHash) :
    run (result MempoolError (t R * list Tx)) :=
  let moved := MempoolTx.clone <$> filter (fun tx => MempoolTx.hash tx ∈ hashes) (pending state) in
  let state := state <| pending := filter (fun tx => MempoolTx.hash tx ∉ hashes) (pending state) |> in
  let moved := (fun tx : Tx => tx <| MempoolTx.stage := Propagated |>) <$> moved in
  let state := state <| inflight := inflight state ++ (MempoolTx.clone <$> moved) |> in
  Ret (Ok (state, moved)).

Definition insert_tx (m : gmap (list Z) Tx) (tx : Tx) : gmap (list Z) Tx :=
  <[MempoolTx.hash tx := tx]> m.

Definition mark_acknowledged (state : t R) (hashes : list TxHash) :
    run (result MempoolError (t R * list Tx)) :=
  let moved := MempoolTx.clone <$> filter (fun tx => MempoolTx.hash tx ∈ hashes) (inflight state) in
  let state := state <| inflight := filter (fun tx => MempoolTx.hash tx ∉ hashes) (inflight state) |> in
  let moved := (fun tx : Tx => tx <| MempoolTx.stage := Acknowledged |>) <$> moved in
  let state := state <| acknowledged :=
    foldl insert_tx (acknowledged state) (MempoolTx.clone <$> moved) |> in
  Ret (Ok (state, moved)).

Definition find_inflight (state : t R) (tx_hash : TxHash) : option Tx :=
  match list_find (fun x => MempoolTx.hash x = tx_hash) (inflight state) with
  | Some (_, tx) => Some (MempoolTx.clone tx)
  | None => MempoolTx.clone <$> acknowledged state !! tx_hash
  end.

Definition peek_inflight (state : t R) : list Tx :=
  MempoolTx.clone <$>
    (inflight state ++ omap (fun h => acknowledged state !! h) (keys_of (acknowledged state))).

Section confirm.
Variables (point : ChainPoint.t) (seen_txs unseen_txs : list TxHash).
Variables (finalize_threshold drop_threshold : Z).

(** A transaction that gained a confirmation: finalized at the threshold. *)
Definition confirm_or_finalize (state : t R) (events : list Tx) (tx_hash : TxHash) (tx : Tx) :
    t R * list Tx :=
  if finalize_threshold <=? MempoolTx.confirmations tx then
    let finalized := (MempoolTx.clone tx) <| MempoolTx.stage := Finalized |> in
    let state := state <| finalized_log := finalized_log state ++ [MempoolTx.clone finalized] |> in
    let state := state <| acknowledged := delete tx_hash (acknowledged state) |> in
    (state, events ++ [finalized])
  else
    (state <| acknowledged := <[tx_hash := tx]> (acknowledged state) |>,
     events ++ [MempoolTx.clone tx]).

(** The body of the loop over the tracked hashes. *)
Definition confirm_one (s : t R * list Tx) (tx_hash : TxHash) : run (t R * list Tx) :=
  let state := s.1 in
  let events := s.2 in
  if bool_decide (tx_hash ∈ seen_txs) then
    tx ← expect (acknowledged state !! tx_hash);
    tx ← MempoolTx.confirm tx point;
    Ret (confirm_or_finalize state events tx_hash tx)
  else if bool_decide (tx_hash ∈ unseen_txs) then
    tx ← expect (acknowledged state !! tx_hash);
    let state := state <| acknowledged := delete tx_hash (acknowledged state) |> in
    let event_tx := (MempoolTx.clone tx) <| MempoolTx.stage := RolledBack |> in
    Ret (state <| pending := pending state ++ [MempoolTx.retry tx] |>, events ++ [event_tx])
  else
    tx ← expect (acknowledged state !! tx_hash);
    if bool_decide (MempoolTx.stage tx = Confirmed) then
      tx ← MempoolTx.confirm tx point;
      Ret (confirm_or_finalize state events tx_hash tx)
    else
      tx ← MempoolTx.mark_stale tx;
      if drop_threshold <=? MempoolTx.non_confirmations tx then
        let dropped := (MempoolTx.clone tx) <| MempoolTx.stage := Dropped |> in
        let state := state <| finalized_log := finalized_log state ++ [MempoolTx.clone dropped] |> in
        let state := state <| acknowledged := delete tx_hash (acknowledged state) |> in
        Ret (state, events ++ [dropped])
      else
        Ret (state <| acknowledged := <[tx_hash := tx]> (acknowledged state) |>, events).

Definition truncate_log (log : list Tx) : list Tx :=
  if (MAX_FINALIZED_LOG <? length log)%nat then drop (length log - MAX_FINALIZED_LOG) log else log.

Definition confirm (state : t R) : run (result MempoolError (t R * list Tx)) :=
  let state := (state <| acknowledged := foldl insert_tx (acknowledged state) (inflight state) |>)
                 <| inflight := [] |> in
  if bool_decide (acknowledged state = ∅) then Ret (Ok (state, []))
  else
    s ← run_foldl confirm_one (state, []) (keys_of (acknowledged state));
    Ret (Ok (s.1 <| finalized_log := truncate_log (finalized_log s.1) |>, s.2)).

End confirm.

Definition check_status (state : t R) (tx_hash : TxHash) : TxStatus :=
  match acknowledged state !! tx_hash with
  | Some tx => mkStatus (MempoolTx.stage tx) (MempoolTx.confirmations tx)
                 (MempoolTx.non_confirmations tx) (MempoolTx.confirmed_at tx)
  | None =>
      match list_find (fun x => MempoolTx.hash x = tx_hash) (inflight state) with
      | Some (_, tx) => bare_status (MempoolTx.stage tx)
      | None =>
          if existsb (fun x => bool_decide (MempoolTx.hash x = tx_hash)) (pending state)
          then bare_status Pending
          else bare_status Unknown
      end
  end.

(** [limit] is a [usize]; the addition to the cursor is a native one. *)
Definition dump_finalized (state : t R) (cursor : Z) (limit : nat) : run (MempoolPage R) :=
  let start := cursor in
  let found := MempoolTx.clone <$> take limit (drop (Z.to_nat start) (finalized_log state)) in
  end_ ← uadd 64 start (Z.of_nat (length found));
  let next := if end_ <? Z.of_nat (length (finalized_log state)) then Some end_ else None in
  Ret (mkPage found next).

End ops.
End EphemeralMempool.

(** ** What a block does to a tracked transaction

    The contract of [MempoolStore::confirm] for one in-flight transaction: it
    stays in flight, goes back to the pending queue, or leaves the mempool. *)

Inductive Outcome (R : Type) :=
| Kept (tx : MempoolTx.t R)
| Retried (tx : MempoolTx.t R)
| Left (tx : MempoolTx.t R).
Arguments Kept {R} tx.
Arguments Retried {R} tx.
Arguments Left {R} tx.

Section outcome.
Context {R : Type}.
Abbreviation Tx := (MempoolTx.t R).
Import MempoolTx.

Variables (point : ChainPoint.t) (seen_txs unseen_txs : list TxHash).
Variables (finalize_threshold drop_threshold : Z).

(** Whether a block adds a confirmation: it holds the transaction, or it comes
    after the one that did. *)
Definition confirms (tx : Tx) : bool :=
  bool_decide (hash tx ∈ seen_txs) ||
  (negb (bool_decide (hash tx ∈ unseen_txs)) && bool_decide (stage tx = Confirmed)).

Definition confirmed (tx : Tx) : Tx :=
  mk (hash tx) (payload tx) Confirmed (confirmations tx + 1) 0
     (Some (default point (confirmed_at tx))) (report tx).

Definition requeued (tx : Tx) : Tx := mk (hash tx) (payload tx) Pending 0 0 None (report tx).

Definition outcome (tx : Tx) : Outcome R :=
  if confirms tx then
    if finalize_threshold <=? confirmations tx + 1
    then Left ((confirmed tx) <| stage := Finalized |>) else Kept (confirmed tx)
  else if bool_decide (hash tx ∈ unseen_txs) then Retried (requeued tx)
  else if drop_threshold <=? non_confirmations tx + 1
    then Left ((tx <| non_confirmations := non_confirmations tx + 1 |>) <| stage := Dropped |>)
    else Kept (tx <| non_confirmations := non_confirmations tx + 1 |>).

Definition kept (tx : Tx) : option Tx := match outcome tx with Kept x => Some x | _ => None end.
Definition retried (tx : Tx) : option Tx := match outcome tx with Retried x => Some x | _ => None end.
Definition departed (tx : Tx) : option Tx := match outcome tx with Left x => Some x | _ => None end.

Lemma outcome_hash tx :
  match outcome tx with Kept x | Retried x | Left x => hash x = hash tx end.
Proof. unfold outcome. repeat case_match; simplify_eq; done. Qed.

End outcome.

(** The transactions a backend may hold in its queue, and in flight. *)
Definition pending_form {R} (tx : MempoolTx.t R) : Prop :=
  tx = MempoolTx.mk (MempoolTx.hash tx) (MempoolTx.payload tx) Pending 0 0 None None.

(** A point a backend can store: one that its encoding determines. *)
Definition storable (p : ChainPoint.t) : Prop :=
  ChainPoint.from_bytes (ChainPoint.into_bytes p) = p.

Record inflight_form {R} (tx : MempoolTx.t R) : Prop := {
  form_report : MempoolTx.report tx = None;
  form_stage : MempoolTx.stage tx = Propagated \/ MempoolTx.stage tx = Acknowledged \/
               MempoolTx.stage tx = Confirmed;
  form_confirmations : 0 ≤ MempoolTx.confirmations tx < u_max 32;
  form_non_confirmations : 0 ≤ MempoolTx.non_confirmations tx < u_max 32;
  form_counted : MempoolTx.stage tx = Confirmed <-> 0 < MempoolTx.confirmations tx;
  form_located : MempoolTx.stage tx = Confirmed <-> is_Some (MempoolTx.confirmed_at tx);
  form_point : forall p, MempoolTx.confirmed_at tx = Some p -> storable p;
}.

(** What acknowledging may do to an in-flight transaction. *)
Definition acked {R} (hashes : list TxHash) (tx tx' : MempoolTx.t R) : Prop :=
  tx' = tx \/
  (MempoolTx.hash tx ∈ hashes /\ MempoolTx.stage tx = Propagated /\
   tx' = tx <| MempoolTx.stage := Acknowledged |>).

Definition status_of {R} (tx : MempoolTx.t R) : TxStatus :=
  mkStatus (MempoolTx.stage tx) (MempoolTx.confirmations tx) (MempoolTx.non_confirmations tx)
    (MempoolTx.confirmed_at tx).

Definition hashes_of {R} (l : list (MempoolTx.t R)) : list TxHash := MempoolTx.hash <$> l.
#[global] Arguments hashes_of : simpl never.

(** ** The contract of a backend ([trait MempoolStore])

    [ok] is the backend's invariant and [room m n] says that [n] more rows fit
    in its queue.  The laws speak of what [peek_pending] and [peek_inflight]
    show: order matters in the queue, not in flight. *)
Module Store.

Class MempoolStore (R M : Type) `{BuildCfg} := {
  receive : M -> MempoolTx.t R -> run (result MempoolError (M * list (MempoolTx.t R)));
  has_pending : M -> bool;
  peek_pending : M -> list (MempoolTx.t R);
  mark_inflight : M -> list TxHash -> run (result MempoolError (M * list (MempoolTx.t R)));
  mark_acknowledged : M -> list TxHash -> run (result MempoolError (M * list (MempoolTx.t R)));
  find_inflight : M -> TxHash -> option (MempoolTx.t R);
  peek_inflight : M -> list (MempoolTx.t R);
  confirm : ChainPoint.t -> list TxHash -> list TxHash -> Z -> Z -> M ->
    run (result MempoolError (M * list (MempoolTx.t R)));
  check_status : M -> TxHash -> TxStatus;
  (* the contract *)
  ok : M -> Prop;
  room : M -> nat -> Prop;
  room_le : forall m n n', room m n -> (n' ≤ n)%nat -> room m n';
  pending_ok : forall m, ok m -> Forall pending_form (peek_pending m);
  inflight_ok : forall m, ok m -> Forall inflight_form (peek_inflight m);
  tracked_once : forall m, ok m -> NoDup (hashes_of (peek_pending m ++ peek_inflight m));
  has_pending_spec : forall m, ok m -> has_pending m = true <-> peek_pending m ≠ [];
  receive_duplicate : forall m tx, ok m -> MempoolTx.hash tx ∈ hashes_of (peek_pending m) ->
    receive m tx = Ret (Err DuplicateTx);
  receive_fresh : forall m tx, ok m -> room m 1 -> pending_form (MempoolTx.clone tx) ->
    length (MempoolTx.hash tx) = 32%nat ->
    MempoolTx.hash tx ∉ hashes_of (peek_pending m ++ peek_inflight m) ->
    exists m', receive m tx = Ret (Ok (m', [tx])) /\ ok m' /\
      peek_pending m' = peek_pending m ++ [MempoolTx.clone tx] /\
      peek_inflight m' ≡ₚ peek_inflight m /\ (forall n, room m (S n) -> room m' n);
  mark_inflight_spec : forall m hashes, ok m ->
    exists m' ev, mark_inflight m hashes = Ret (Ok (m', ev)) /\ ok m' /\
      peek_pending m' = filter (fun tx => MempoolTx.hash tx ∉ hashes) (peek_pending m) /\
      peek_inflight m' ≡ₚ peek_inflight m ++
        ((fun tx => tx <| MempoolTx.stage := Propagated |>) <$>
           filter (fun tx => MempoolTx.hash tx ∈ hashes) (peek_pending m)) /\
      (forall n, room m n -> room m' n);
  mark_acknowledged_spec : forall m hashes, ok m ->
    exists m' ev l l', mark_acknowledged m hashes = Ret (Ok (m', ev)) /\ ok m' /\
      peek_pending m' = peek_pending m /\
      peek_inflight m ≡ₚ l /\ Forall2 (acked hashes) l l' /\ peek_inflight m' ≡ₚ l' /\
      (forall n, room m n -> room m' n);
  find_inflight_spec : forall m h tx, ok m ->
    find_inflight m h = Some tx <-> tx ∈ peek_inflight m /\ MempoolTx.hash tx = h;
  confirm_spec : forall point seen unseen fin drop m, ok m -> is_u32 fin -> is_u32 drop ->
    storable point -> room m (length (peek_inflight m)) ->
    exists m' ev requeue, confirm point seen unseen fin drop m = Ret (Ok (m', ev)) /\ ok m' /\
      peek_pending m' = peek_pending m ++ requeue /\
      requeue ≡ₚ omap (retried point seen unseen fin drop) (peek_inflight m) /\
      peek_inflight m' ≡ₚ omap (kept point seen unseen fin drop) (peek_inflight m) /\
      (forall tx, (tx ∈ ev /\ (MempoolTx.stage tx = Finalized \/ MempoolTx.stage tx = Dropped)) <->
                  tx ∈ omap (departed point seen unseen fin drop) (peek_inflight m)) /\
      (forall n, room m (n + length (peek_inflight m))%nat -> room m' n);
  check_status_spec : forall m h, ok m ->
    check_status m h =
      match find_inflight m h with
      | Some tx => status_of tx
      | None => if bool_decide (h ∈ hashes_of (peek_pending m)) then bare_status Pending
                else bare_status Unknown
      end;
}.

End Store.

(** ** Lemmas shared by the backends *)

Section forms.
Context {R : Type} `{BuildCfg}.
Abbreviation Tx := (MempoolTx.t R).
Import MempoolTx.

Lemma clone_id (tx : Tx) : report tx = None -> clone tx = tx.
Proof. destruct tx; cbn; by intros ->. Qed.

Lemma clones_id (l : list Tx) : Forall (fun tx => report tx = None) l -> clone <$> l = l.
Proof. induction 1 as [|tx l Hr _ IH]; [done|]. cbn. by rewrite clone_id, IH. Qed.

Lemma pending_no_report (tx : Tx) : pending_form tx -> report tx = None.
Proof. unfold pending_form. by intros ->. Qed.

(** Confirming and ageing an in-flight transaction never overflow. *)
Lemma confirm_exact (tx : Tx) p : inflight_form tx -> confirm tx p = Ret (confirmed p tx).
Proof.
  intros Hf. unfold confirm. cbn. rewrite uadd_exact.
  - destruct tx as [h b s c n [q|] r]; done.
  - pose proof (form_confirmations _ Hf). unfold is_u, u_max in *. lia.
Qed.

Lemma mark_stale_exact (tx : Tx) : inflight_form tx ->
  mark_stale tx = Ret (tx <| non_confirmations := non_confirmations tx + 1 |>).
Proof.
  intros Hf. unfold mark_stale. rewrite uadd_exact; [done|].
  pose proof (form_non_confirmations _ Hf). unfold is_u, u_max in *. lia.
Qed.

Lemma retry_requeued (tx : Tx) : retry tx = requeued tx.
Proof. by destruct tx. Qed.

Lemma requeued_form (tx : Tx) : inflight_form tx -> pending_form (requeued tx).
Proof. intros Hf. unfold pending_form, requeued. cbn. by rewrite (form_report _ Hf). Qed.

Lemma propagated_form (tx : Tx) : pending_form tx -> inflight_form (tx <| stage := Propagated |>).
Proof.
  intros ->. constructor; cbn; auto; try (unfold u_max; lia).
  - split; [done|lia].
  - split; [done|by intros [? ?]].
  - done.
Qed.

Lemma acked_form hashes (tx tx' : Tx) : inflight_form tx -> acked hashes tx tx' -> inflight_form tx'.
Proof.
  intros Hf [->|(_ & Hs & ->)]; [done|]. destruct Hf as [? ? ? ? Hc Hl ?].
  constructor; cbn; auto; rewrite Hs in *; naive_solver.
Qed.

Section outcomes.
Variables (point : ChainPoint.t) (seen unseen : list TxHash) (fin drop : Z).
Hypotheses (Hfin : is_u32 fin) (Hdrop : is_u32 drop) (Hpoint : storable point).

(** What stays in flight can take another block. *)
Lemma kept_form (tx tx' : Tx) :
  inflight_form tx -> kept point seen unseen fin drop tx = Some tx' -> inflight_form tx'.
Proof.
  unfold kept, outcome, is_u, u_max in *. intros Hf.
  pose proof (form_confirmations _ Hf). pose proof (form_non_confirmations _ Hf).
  destruct (confirms seen unseen tx) eqn:Ec.
  - destruct (Z.leb_spec fin (confirmations tx + 1)); [done|]. intros [= <-].
    constructor; cbn; auto; try (unfold u_max in *; lia).
    + apply Hf.
    + split; [lia|done].
    + split; [by eexists|done].
    + intros p [= <-]. destruct (confirmed_at tx) eqn:E; cbn; [by apply (form_point _ Hf)|done].
  - case_bool_decide; [done|]. destruct (Z.leb_spec drop (non_confirmations tx + 1)); [done|].
    intros [= <-]. destruct Hf. constructor; cbn; auto. unfold u_max in *. lia.
Qed.

End outcomes.
End forms.

(** ** Lists and maps of transactions *)

Section collections.
Context {R : Type}.
Abbreviation Tx := (MempoolTx.t R).

Lemma filter_Forall (P Q : Tx -> Prop) `{!forall x, Decision (P x)} l :
  Forall Q l -> Forall Q (filter P l).
Proof. rewrite !Forall_forall. intros Hl x Hx. apply Hl. by apply list_elem_of_filter in Hx as [_ Hx]. Qed.

Lemma hashes_cons (tx : Tx) l : hashes_of (tx :: l) = MempoolTx.hash tx :: hashes_of l.
Proof. done. Qed.

Lemma hashes_app (l1 l2 : list Tx) : hashes_of (l1 ++ l2) = hashes_of l1 ++ hashes_of l2.
Proof. apply fmap_app. Qed.

#[global] Instance hashes_proper : Proper ((≡ₚ) ==> (≡ₚ)) (hashes_of (R := R)).
Proof. intros l1 l2 Hp. unfold hashes_of. by rewrite Hp. Qed.

(** The transactions of a map. *)
Definition values (m : gmap (list Z) Tx) : list Tx := (map_to_list m).*2.
#[local] Arguments values : simpl never.

Definition keyed (m : gmap (list Z) Tx) : Prop := map_Forall (fun h tx => MempoolTx.hash tx = h) m.

Lemma values_empty : values ∅ = [].
Proof. unfold values. by rewrite map_to_list_empty. Qed.

Lemma values_insert m h tx : m !! h = None -> values (<[h := tx]> m) ≡ₚ tx :: values m.
Proof. intros Hn. unfold values. by rewrite map_to_list_insert. Qed.

Lemma elem_of_values m tx : tx ∈ values m <-> exists h, m !! h = Some tx.
Proof.
  unfold values. rewrite list_elem_of_fmap. split.
  - intros ([h x] & -> & Hx). exists h. by apply elem_of_map_to_list.
  - intros [h Hh]. exists (h, tx). split; [done|]. by apply elem_of_map_to_list.
Qed.

Lemma keyed_values m tx : keyed m -> tx ∈ values m <-> m !! MempoolTx.hash tx = Some tx.
Proof.
  intros Hk. rewrite elem_of_values. split; [|by eexists].
  intros [h Hh]. by rewrite <- (Hk _ _ Hh) in Hh.
Qed.

Lemma keyed_insert m tx : keyed m -> keyed (EphemeralMempool.insert_tx m tx).
Proof. intros Hk. by apply map_Forall_insert_2. Qed.

(** The values, listed in the order a hash map yields its keys. *)
Lemma values_of_keys `{!HashOrder Tx} (m : gmap (list Z) Tx) :
  omap (fun h => m !! h) (keys_of m) ≡ₚ values m.
Proof.
  rewrite (keys_of_perm m). unfold values.
  assert (Hs : forall l, (forall h tx, (h, tx) ∈ l -> m !! h = Some tx) ->
                         omap (fun h => m !! h) l.*1 = l.*2).
  { induction l as [|[h tx] l IH]; intros Hl; [done|]. cbn. rewrite (Hl h tx) by left. cbn.
    f_equal. apply IH. intros. apply Hl. by right. }
  rewrite Hs; [done|]. intros h tx Hl. by apply elem_of_map_to_list.
Qed.

(** Adding transactions none of which is there yet. *)
Lemma values_add l : forall m, keyed m -> NoDup (hashes_of (l ++ values m)) ->
  values (foldl EphemeralMempool.insert_tx m l) ≡ₚ values m ++ l /\
  keyed (foldl EphemeralMempool.insert_tx m l).
Proof.
  induction l as [|tx l IH]; intros m Hk Hn; cbn [foldl]; [by rewrite app_nil_r|].
  rewrite <- app_comm_cons, hashes_cons in Hn. apply NoDup_cons in Hn as [Hni Hn].
  assert (Hf : m !! MempoolTx.hash tx = None).
  { destruct (m !! MempoolTx.hash tx) as [x|] eqn:Ex; [|done]. destruct Hni.
    unfold hashes_of. rewrite fmap_app, elem_of_app. right.
    apply list_elem_of_fmap. exists x. split; [by rewrite (Hk _ _ Ex)|]. apply elem_of_values. by eexists. }
  assert (Hv := values_insert m _ tx Hf).
  destruct (IH (EphemeralMempool.insert_tx m tx)) as [Hp Hk'].
  - by apply keyed_insert.
  - unfold EphemeralMempool.insert_tx, hashes_of in *. rewrite Hv. rewrite <- Permutation_middle, fmap_cons.
    by apply NoDup_cons.
  - split; [|done]. rewrite Hp. unfold EphemeralMempool.insert_tx. rewrite Hv. cbn. apply Permutation_middle.
Qed.

Lemma values_omap (f : Tx -> option Tx) m : values (omap f m) ≡ₚ omap f (values m).
Proof.
  induction m as [|h tx m Hh IH] using map_ind; [by rewrite omap_empty, values_empty|].
  rewrite omap_insert. destruct (f tx) as [tx'|] eqn:Ef.
  - rewrite !values_insert, IH by (rewrite ?lookup_omap, ?Hh; done). cbn. by rewrite Ef.
  - rewrite delete_id by (rewrite lookup_omap, Hh; done). rewrite values_insert, IH by done. cbn. by rewrite Ef.
Qed.

Lemma hashes_acked hashes (l l' : list Tx) : Forall2 (acked hashes) l l' -> hashes_of l' = hashes_of l.
Proof.
  induction 1 as [|tx tx' l l' Ha _ IH]; [done|]. rewrite !hashes_cons, IH. f_equal.
  by destruct Ha as [->|(_ & _ & ->)].
Qed.

(** A transaction whose hash is not shared is determined by it. *)
Lemma hash_unique (l : list Tx) tx tx' :
  NoDup (hashes_of l) -> tx ∈ l -> tx' ∈ l -> MempoolTx.hash tx = MempoolTx.hash tx' -> tx = tx'.
Proof.
  intros Hn Hx Hx' He. apply list_elem_of_lookup in Hx as [i Hi], Hx' as [j Hj].
  assert (i = j) as ->; [|congruence].
  eapply (NoDup_lookup (hashes_of l) i j (MempoolTx.hash tx)); [done|..];
    unfold hashes_of; rewrite list_lookup_fmap; [by rewrite Hi|by rewrite Hj, He].
Qed.

(** Moving transactions between two lists changes them in place, up to order. *)
Lemma split_map (P : Tx -> Prop) `{!forall x, Decision (P x)} (f : Tx -> Tx) l :
  filter (fun tx => ~ P tx) l ++ (f <$> filter P l) ≡ₚ
  (fun tx => if decide (P tx) then f tx else tx) <$> l.
Proof.
  induction l as [|tx l IH]; [done|]. rewrite fmap_cons. destruct (decide (P tx)) as [HP|HP].
  - rewrite filter_cons_False, filter_cons_True by naive_solver.
    rewrite fmap_cons, <- Permutation_middle. by rewrite IH.
  - rewrite filter_cons_True, filter_cons_False by done. cbn [app]. by rewrite IH.
Qed.

Lemma split_hashes (P : Tx -> Prop) `{!forall x, Decision (P x)} (f : Tx -> Tx) l :
  (forall tx, MempoolTx.hash (f tx) = MempoolTx.hash tx) ->
  hashes_of (filter (fun tx => ~ P tx) l ++ (f <$> filter P l)) ≡ₚ hashes_of l.
Proof.
  intros Hf. rewrite split_map. unfold hashes_of. rewrite <- list_fmap_compose.
  erewrite list_fmap_ext; [done|]. intros i tx _. cbn. by destruct (decide (P tx)).
Qed.

Section outcomes.
Variables (point : ChainPoint.t) (seen unseen : list TxHash) (fin drop : Z).
Abbreviation kept := (kept (R := R) point seen unseen fin drop).
Abbreviation retried := (retried (R := R) point seen unseen fin drop).
Abbreviation departed := (departed (R := R) point seen unseen fin drop).

Lemma outcomes_hashes l : exists rest,
  hashes_of (omap retried l ++ omap kept l) ++ rest ≡ₚ hashes_of l.
Proof.
  induction l as [|tx l [rest IH]]; [by exists []|]. cbn [omap list_omap].
  pose proof (outcome_hash point seen unseen fin drop tx) as Hh.
  unfold Mempool.kept, Mempool.retried in *.
  destruct (outcome point seen unseen fin drop tx) as [x|x|x]; cbn [app].
  - exists rest. rewrite <- Permutation_middle, !hashes_cons. cbn. by rewrite Hh, IH.
  - exists rest. rewrite !hashes_cons. cbn. by rewrite Hh, IH.
  - exists (MempoolTx.hash tx :: rest). rewrite <- Permutation_middle, hashes_cons. by rewrite IH.
Qed.

Lemma outcomes_once queue l :
  NoDup (hashes_of (queue ++ l)) -> NoDup (hashes_of ((queue ++ omap retried l) ++ omap kept l)).
Proof.
  intros Hn. destruct (outcomes_hashes l) as [rest Hp].
  rewrite <- app_assoc, hashes_app. rewrite hashes_app, <- Hp, app_assoc in Hn.
  by apply NoDup_app in Hn as [Hn _].
Qed.

Lemma retried_form l : Forall inflight_form l -> Forall pending_form (omap retried l).
Proof.
  rewrite !Forall_forall. intros Hl x Hx. apply list_elem_of_omap in Hx as (tx & Htx & Ho).
  unfold Mempool.retried, outcome in Ho. repeat case_match; simplify_eq. by apply requeued_form, Hl.
Qed.

Lemma kept_forms l : is_u32 fin -> is_u32 drop -> storable point ->
  Forall inflight_form l -> Forall inflight_form (omap kept l).
Proof.
  intros Hf Hd Hp. rewrite !Forall_forall. intros Hl x Hx.
  apply list_elem_of_omap in Hx as (tx & Htx & Ho).
  apply (kept_form point seen unseen fin drop Hf Hd Hp tx); auto.
Qed.

(** *** Looping over the in-flight transactions

    A backend goes through its in-flight transactions one at a time.  When each
    step carries out the outcome of its transaction, the loop carries out all of
    them.  [inv s n] is what the backend needs for [n] more steps. *)

Definition leaving (tx : Tx) : Prop := MempoolTx.stage tx = Finalized \/ MempoolTx.stage tx = Dropped.

#[global] Instance leaving_dec tx : Decision (leaving tx).
Proof. unfold leaving. apply _. Defined.

Section loop.
Context {S I : Type}.
Variables (step : S -> I -> run S) (tx_of : I -> Tx).
Variables (queue gone events : S -> list Tx) (table : S -> gmap (list Z) Tx) (inv : S -> nat -> Prop).

Definition settle (m : gmap (list Z) Tx) (tx : Tx) : gmap (list Z) Tx :=
  match kept tx with
  | Some x => <[MempoolTx.hash tx := x]> m
  | None => delete (MempoolTx.hash tx) m
  end.

(** What a step does. *)
Definition carries_out (s : S) (tx : Tx) (s' : S) : Prop :=
  queue s' = queue s ++ omap retried [tx] /\ gone s' = gone s ++ omap departed [tx] /\
  table s' = settle (table s) tx /\
  (forall x, (x ∈ events s' /\ leaving x) <-> (x ∈ events s /\ leaving x) \/ x ∈ omap departed [tx]).

Hypothesis step_law : forall s i n,
  inv s (1 + n) -> table s !! MempoolTx.hash (tx_of i) = Some (tx_of i) -> inflight_form (tx_of i) ->
  exists s', step s i = Ret s' /\ inv s' n /\ carries_out s (tx_of i) s'.

Lemma settle_ne m tx h : h ≠ MempoolTx.hash tx -> settle m tx !! h = m !! h.
Proof. intros Hh. unfold settle. destruct (kept tx); by rewrite ?lookup_insert_ne, ?lookup_delete_ne. Qed.

Lemma settle_eq m tx : settle m tx !! MempoolTx.hash tx = kept tx.
Proof. unfold settle. destruct (kept tx); by rewrite ?lookup_insert_eq, ?lookup_delete_eq. Qed.

Lemma settle_all l : forall m, NoDup (hashes_of l) ->
  (forall tx, tx ∈ l -> m !! MempoolTx.hash tx = Some tx) ->
  (forall h tx, m !! h = Some tx -> h ∈ hashes_of l) -> foldl settle m l = omap kept m.
Proof.
  intros m Hn Hl Hm. apply map_eq. intros h. rewrite lookup_omap.
  assert (Hf : forall l m, NoDup (hashes_of l) -> (forall tx, tx ∈ l -> m !! MempoolTx.hash tx = Some tx) ->
    foldl settle m l !! h = if bool_decide (h ∈ hashes_of l) then m !! h ≫= kept else m !! h).
  { clear. induction l as [|tx l IH]; intros m Hn Hl; [done|]. rewrite hashes_cons in *.
    apply NoDup_cons in Hn as [Hni Hn]. cbn [foldl]. rewrite IH; [|done|].
    - destruct (decide (h = MempoolTx.hash tx)) as [->|Hne].
      + rewrite (bool_decide_false (_ ∈ _)), bool_decide_true, settle_eq, (Hl tx) by (done || left). done.
      + rewrite settle_ne by done. apply if_bool_decide_iff. rewrite elem_of_cons. naive_solver.
    - intros x Hx. rewrite settle_ne; [apply Hl; by right|]. intros He. apply Hni. rewrite <- He.
      by apply list_elem_of_fmap_2. }
  rewrite Hf by done. case_bool_decide as Hh; [done|].
  destruct (m !! h) as [tx|] eqn:Eh; [|done]. by destruct Hh; eapply Hm.
Qed.

Lemma carry_out_all l : forall s n, NoDup (hashes_of (tx_of <$> l)) -> inv s (length l + n)%nat ->
  (forall tx, tx ∈ tx_of <$> l -> table s !! MempoolTx.hash tx = Some tx /\ inflight_form tx) ->
  exists s', run_foldl step s l = Ret s' /\ inv s' n /\
    queue s' = queue s ++ omap retried (tx_of <$> l) /\
    gone s' = gone s ++ omap departed (tx_of <$> l) /\
    table s' = foldl settle (table s) (tx_of <$> l) /\
    (forall x, (x ∈ events s' /\ leaving x) <->
               (x ∈ events s /\ leaving x) \/ x ∈ omap departed (tx_of <$> l)).
Proof.
  induction l as [|i l IH]; intros s n Hn Hi Hl; cbn [run_foldl].
  { exists s. conj_split; cbn; rewrite ?app_nil_r; try done. intros x. set_solver. }
  rewrite fmap_cons, hashes_cons in *. apply NoDup_cons in Hn as [Hni Hn].
  destruct (Hl (tx_of i)) as [Ht Hf]; [left|].
  destruct (step_law s i (length l + n)%nat Hi Ht Hf) as (s1 & -> & Hi1 & Hq & Hg & Ht1 & He).
  destruct (IH s1 n Hn Hi1) as (s' & Hr & Hi' & Hq' & Hg' & Ht' & He').
  { intros tx Htx. rewrite Ht1, settle_ne; [apply Hl; by right|]. intros E. apply Hni.
    rewrite <- E. by apply list_elem_of_fmap_2. }
  exists s'. change (tx_of i :: (tx_of <$> l)) with ([tx_of i] ++ (tx_of <$> l)). rewrite !omap_app.
  conj_split; [done|done|by rewrite Hq', Hq, app_assoc|by rewrite Hg', Hg, app_assoc|by rewrite Ht', Ht1|].
  intros x. rewrite He', He, elem_of_app. tauto.
Qed.

End loop.
End outcomes.
End collections.

(** ** The in-memory backend implements the contract *)

Module Ephemeral.
Import EphemeralMempool.

Section refinement.
Context {R : Type} `{BuildCfg, !HashOrder (MempoolTx.t R)}.
Abbreviation Tx := (MempoolTx.t R).
Abbreviation M := (EphemeralMempool.t R).

(** Transactions waiting for an acknowledgement have no history yet. *)
Definition waiting_form (tx : Tx) : Prop :=
  tx = MempoolTx.mk (MempoolTx.hash tx) (MempoolTx.payload tx) Propagated 0 0 None None.

Record ok (m : M) : Prop := {
  ok_pending : Forall pending_form (pending m);
  ok_inflight : Forall waiting_form (inflight m);
  ok_acknowledged : Forall inflight_form (values (acknowledged m));
  ok_keyed : keyed (acknowledged m);
  ok_once : NoDup (hashes_of (pending m ++ inflight m ++ values (acknowledged m)));
  ok_log : (length (finalized_log m) ≤ MAX_FINALIZED_LOG)%nat;
}.

Lemma waiting_inflight (tx : Tx) : waiting_form tx -> inflight_form tx.
Proof. intros ->. by apply (propagated_form (MempoolTx.mk _ _ Pending 0 0 None None)). Qed.

Lemma ok_forms m : ok m -> Forall inflight_form (inflight m ++ values (acknowledged m)).
Proof.
  intros Hm. apply Forall_app. split; [|apply Hm].
  eapply Forall_impl; [apply Hm|]. apply waiting_inflight.
Qed.

Lemma peek_pending_eq m : ok m -> peek_pending m = pending m.
Proof.
  intros Hm. apply clones_id. eapply Forall_impl; [apply Hm|]. apply pending_no_report.
Qed.

Lemma peek_inflight_perm m : ok m -> peek_inflight m ≡ₚ inflight m ++ values (acknowledged m).
Proof.
  intros Hm. unfold peek_inflight. rewrite values_of_keys, clones_id; [done|].
  eapply Forall_impl; [by apply ok_forms|]. intros tx Hf. apply Hf.
Qed.

Lemma ok_new : ok new.
Proof. constructor; cbn; try rewrite values_empty; try constructor; [by intros ? ? ?|lia]. Qed.

Lemma elem_of_keys (a : gmap (list Z) Tx) h : h ∈ keys_of a <-> is_Some (a !! h).
Proof.
  rewrite (keys_of_perm a), list_elem_of_fmap. split.
  - intros ([k x] & -> & Hx). exists x. by apply elem_of_map_to_list.
  - intros [x Hx]. exists (h, x). split; [done|]. by apply elem_of_map_to_list.
Qed.

Lemma has_hash (l : list Tx) h :
  existsb (fun p => bool_decide (MempoolTx.hash p = h)) l = true <-> h ∈ hashes_of l.
Proof.
  rewrite existsb_exists. unfold hashes_of. rewrite list_elem_of_fmap. split.
  - intros (x & Hx & Hb). apply bool_decide_eq_true in Hb. exists x. split; [done|].
    by apply list_elem_of_In.
  - intros (x & -> & Hx). exists x. split; [by apply list_elem_of_In|]. by apply bool_decide_eq_true.
Qed.

(** Moving the promoted transactions into the map. *)
Lemma promote_perm m : ok m ->
  values (foldl insert_tx (acknowledged m) (inflight m)) ≡ₚ inflight m ++ values (acknowledged m) /\
  keyed (foldl insert_tx (acknowledged m) (inflight m)).
Proof.
  intros Hm. pose proof (ok_once _ Hm) as Hn. rewrite hashes_app in Hn. apply NoDup_app in Hn as (_ & _ & Hn).
  destruct (values_add (inflight m) (acknowledged m) (ok_keyed _ Hm) Hn) as [Hp Hk].
  split; [|done]. rewrite Hp. apply Permutation_app_comm.
Qed.

Lemma receive_ok m tx : ok m -> pending_form (MempoolTx.clone tx) ->
  MempoolTx.hash tx ∉ hashes_of (peek_pending m ++ peek_inflight m) ->
  exists m', receive m tx = Ret (Ok (m', [tx])) /\ ok m' /\
    peek_pending m' = peek_pending m ++ [MempoolTx.clone tx] /\
    peek_inflight m' ≡ₚ peek_inflight m.
Proof.
  intros Hm Hf Hni. rewrite peek_pending_eq, (peek_inflight_perm m) in * by done.
  unfold receive. destruct (existsb _ _) eqn:E.
  { apply has_hash in E. destruct Hni. rewrite hashes_app. apply elem_of_app. by left. }
  assert (Hok : ok (m <| pending := pending m ++ [MempoolTx.clone tx] |>)).
  { constructor; cbn; try apply Hm.
    - apply Forall_app. split; [apply Hm|]. by apply Forall_singleton.
    - rewrite <- (app_assoc (pending m)). cbn [app]. rewrite <- Permutation_middle, hashes_cons.
      apply NoDup_cons. split; [done|apply Hm]. }
  eexists. conj_split; [done|done|by rewrite peek_pending_eq|]. by rewrite !peek_inflight_perm.
Qed.

Lemma mark_inflight_ok m hashes : ok m ->
  exists m' ev, mark_inflight m hashes = Ret (Ok (m', ev)) /\ ok m' /\
    peek_pending m' = filter (fun tx => MempoolTx.hash tx ∉ hashes) (peek_pending m) /\
    peek_inflight m' ≡ₚ peek_inflight m ++
      ((fun tx => tx <| MempoolTx.stage := Propagated |>) <$>
         filter (fun tx => MempoolTx.hash tx ∈ hashes) (peek_pending m)).
Proof.
  intros Hm. rewrite (peek_pending_eq m) by done. unfold mark_inflight.
  set (moved := filter (fun tx => MempoolTx.hash tx ∈ hashes) (pending m)).
  assert (Hmf : Forall pending_form moved) by (apply filter_Forall, Hm).
  rewrite (clones_id moved) by (eapply Forall_impl; [done|]; apply pending_no_report).
  set (sent := (fun tx : Tx => tx <| MempoolTx.stage := Propagated |>) <$> moved).
  assert (Hsf : Forall waiting_form sent).
  { apply Forall_fmap. eapply Forall_impl; [done|]. intros tx Hf. cbn. unfold waiting_form.
    by rewrite Hf at 1. }
  rewrite (clones_id sent) by (eapply Forall_impl; [done|]; intros tx ->; done).
  eexists _, _. split; [reflexivity|]. set (m' := _ <| inflight := _ |>).
  assert (Hok : ok m').
  { constructor; cbn; try apply Hm.
    - apply filter_Forall, Hm.
    - apply Forall_app. split; [apply Hm|done].
    - rewrite <- (app_assoc (inflight m)), (app_assoc (inflight m)).
      rewrite (Permutation_app_comm (inflight m) sent), <- (app_assoc sent), (app_assoc _ sent).
      rewrite hashes_app. unfold sent, moved. rewrite split_hashes by done.
      rewrite <- hashes_app. apply Hm. }
  conj_split; [done|by rewrite peek_pending_eq|]. rewrite !peek_inflight_perm by done. cbn.
  rewrite <- !app_assoc. apply Permutation_app_head, Permutation_app_comm.
Qed.

Lemma mark_acknowledged_ok m hashes : ok m ->
  exists m' ev l l', mark_acknowledged m hashes = Ret (Ok (m', ev)) /\ ok m' /\
    peek_pending m' = peek_pending m /\
    peek_inflight m ≡ₚ l /\ Forall2 (acked hashes) l l' /\ peek_inflight m' ≡ₚ l'.
Proof.
  intros Hm. unfold mark_acknowledged.
  set (moved := filter (fun tx => MempoolTx.hash tx ∈ hashes) (inflight m)).
  assert (Hmf : Forall waiting_form moved) by (apply filter_Forall, Hm).
  rewrite (clones_id moved) by (eapply Forall_impl; [done|]; intros tx ->; done).
  set (ack := fun tx : Tx => tx <| MempoolTx.stage := Acknowledged |>).
  rewrite (clones_id (ack <$> moved)) by
    (apply Forall_fmap; eapply Forall_impl; [done|]; intros tx ->; done).
  set (f := fun tx => if decide (MempoolTx.hash tx ∈ hashes) then ack tx else tx).
  pose proof (ok_once _ Hm) as Hn. rewrite hashes_app in Hn.
  apply NoDup_app in Hn as (Hnp & Hdis & Hn).
  assert (Hsplit : filter (fun tx => MempoolTx.hash tx ∉ hashes) (inflight m) ++ (ack <$> moved) ≡ₚ
                   (f <$> inflight m)) by apply (split_map (fun tx => MempoolTx.hash tx ∈ hashes) ack).
  destruct (values_add (ack <$> moved) (acknowledged m) (ok_keyed _ Hm)) as [Hv Hk].
  { rewrite hashes_app in Hn |- *. rewrite <- (split_hashes (fun tx => MempoolTx.hash tx ∈ hashes) ack),
      hashes_app, <- app_assoc in Hn by done. by apply NoDup_app in Hn as (_ & _ & Hn). }
  set (m' := _ <| acknowledged := _ |>).
  assert (Hin : peek_inflight m ≡ₚ inflight m ++ values (acknowledged m)) by by apply peek_inflight_perm.
  assert (Hgot : inflight m' ++ values (acknowledged m') ≡ₚ (f <$> inflight m) ++ values (acknowledged m)).
  { cbn. rewrite Hv, <- Hsplit, (Permutation_app_comm (values _)). by rewrite app_assoc. }
  assert (Hhash : hashes_of (f <$> inflight m) = hashes_of (inflight m)).
  { unfold hashes_of. rewrite <- list_fmap_compose. apply list_fmap_ext. intros i tx _.
    cbn. unfold f. by case_decide. }
  assert (Hok : ok m').
  { constructor; cbn; try apply Hm; try done.
    - apply filter_Forall, Hm.
    - rewrite Hv. apply Forall_app. split; [apply Hm|]. apply Forall_fmap.
      eapply Forall_impl; [done|]. intros tx Hw. cbn.
      eapply (acked_form [MempoolTx.hash tx]); [by apply waiting_inflight|].
      right. conj_split; [set_solver|by rewrite Hw|done].
    - cbn in Hgot. rewrite Hgot, !hashes_app, Hhash, <- !hashes_app. apply Hm. }
  eexists m', _, (inflight m ++ values (acknowledged m)), ((f <$> inflight m) ++ values (acknowledged m)).
  conj_split; [reflexivity|done|by rewrite !peek_pending_eq|done| |by rewrite peek_inflight_perm, Hgot].
  apply Forall2_app; [|by apply Forall_Forall2_diag, Forall_true; left].
  apply Forall2_fmap_r, Forall_Forall2_diag. eapply Forall_impl; [apply Hm|].
  intros tx Hw. cbn. unfold f. destruct (decide _) as [Hd|Hd]; [|by left]. right.
  conj_split; [done|by rewrite Hw|done].
Qed.

Lemma find_in_flight m h : ok m ->
  find_inflight m h =
    match list_find (fun x => MempoolTx.hash x = h) (inflight m) with
    | Some (_, tx) => Some tx
    | None => acknowledged m !! h
    end.
Proof.
  intros Hm. unfold find_inflight. pose proof (ok_forms _ Hm) as Hf. rewrite Forall_app in Hf.
  destruct Hf as [Hf1 Hf2]. rewrite Forall_forall in Hf1, Hf2.
  destruct (list_find _ _) as [[i tx]|] eqn:El.
  - apply list_find_Some in El as (El & _ & _). apply list_elem_of_lookup_2 in El.
    by rewrite clone_id by apply Hf1, El.
  - destruct (acknowledged m !! h) as [tx|] eqn:Ea; [|done]. cbn. f_equal. apply clone_id, Hf2.
    apply elem_of_values. by eexists.
Qed.

Lemma find_inflight_ok m h tx : ok m ->
  find_inflight m h = Some tx <-> tx ∈ peek_inflight m /\ MempoolTx.hash tx = h.
Proof.
  intros Hm. rewrite peek_inflight_perm, elem_of_app, keyed_values, find_in_flight by (done || apply Hm).
  pose proof (ok_once _ Hm) as Hn. rewrite hashes_app in Hn. apply NoDup_app in Hn as (_ & _ & Hn).
  rewrite hashes_app in Hn. apply NoDup_app in Hn as (Hn & Hdis & _).
  destruct (list_find _ _) as [[i x]|] eqn:El.
  - apply list_find_Some in El as (El & Hx & _). apply list_elem_of_lookup_2 in El. split.
    + intros [= <-]. auto.
    + intros [[Hi|Ha] Hh].
      * f_equal. eapply hash_unique; eauto. congruence.
      * exfalso. apply (Hdis h); [rewrite <- Hx; by apply list_elem_of_fmap_2|].
        rewrite <- Hh. apply list_elem_of_fmap_2. apply elem_of_values. by eexists.
  - apply list_find_None in El. rewrite Forall_forall in El. split.
    + intros Ha. pose proof (ok_keyed _ Hm _ _ Ha) as Hh. cbn in Hh. subst h. auto.
    + intros [[Hi|Ha] Hh]; [by destruct (El tx)|]. by rewrite <- Hh.
Qed.

Lemma check_status_ok m h : ok m ->
  check_status m h =
    match find_inflight m h with
    | Some tx => status_of tx
    | None => if bool_decide (h ∈ hashes_of (peek_pending m)) then bare_status Pending
              else bare_status Unknown
    end.
Proof.
  intros Hm. rewrite find_in_flight, peek_pending_eq by done. unfold check_status.
  pose proof (ok_once _ Hm) as Hn. rewrite hashes_app in Hn. apply NoDup_app in Hn as (_ & _ & Hn).
  rewrite hashes_app in Hn. apply NoDup_app in Hn as (_ & Hdis & _).
  destruct (list_find _ _) as [[i x]|] eqn:El.
  - apply list_find_Some in El as (El & Hx & _). apply list_elem_of_lookup_2 in El.
    destruct (acknowledged m !! h) as [tx|] eqn:Ea.
    + exfalso. apply (Hdis h); [rewrite <- Hx; by apply list_elem_of_fmap_2|].
      apply list_elem_of_fmap. exists tx. split; [by rewrite (ok_keyed _ Hm _ _ Ea)|].
      apply elem_of_values. by eexists.
    + pose proof (ok_inflight _ Hm) as Hf. rewrite Forall_forall in Hf.
      specialize (Hf _ El). cbn in Hf. by rewrite Hf.
  - destruct (acknowledged m !! h) as [tx|] eqn:Ea; [done|].
    destruct (existsb _ _) eqn:Ee.
    + apply has_hash in Ee. by rewrite bool_decide_true.
    + rewrite bool_decide_false; [done|]. intros Hi. apply has_hash in Hi. congruence.
Qed.

Section confirm.
Variables (point : ChainPoint.t) (seen unseen : list TxHash) (fin drop : Z).
Hypotheses (Hfin : is_u32 fin) (Hdrop : is_u32 drop) (Hpoint : storable point).
Abbreviation outcome := (outcome (R := R) point seen unseen fin drop).
Abbreviation kept := (kept (R := R) point seen unseen fin drop).
Abbreviation retried := (retried (R := R) point seen unseen fin drop).
Abbreviation departed := (departed (R := R) point seen unseen fin drop).

(** One iteration of the loop carries out the outcome of the transaction. *)
Definition carry_out (s : M * list Tx) (tx : Tx) : M * list Tx :=
  let h := MempoolTx.hash tx in
  match outcome tx with
  | Kept x => (s.1 <| acknowledged := <[h := x]> (acknowledged s.1) |>,
               s.2 ++ (if confirms seen unseen tx then [x] else []))
  | Retried x => ((s.1 <| acknowledged := delete h (acknowledged s.1) |>)
                    <| pending := pending s.1 ++ [x] |>,
                  s.2 ++ [tx <| MempoolTx.stage := RolledBack |>])
  | Left x => ((s.1 <| finalized_log := finalized_log s.1 ++ [x] |>)
                 <| acknowledged := delete h (acknowledged s.1) |>,
               s.2 ++ [x])
  end.

Lemma confirm_one_outcome s tx :
  acknowledged s.1 !! MempoolTx.hash tx = Some tx -> inflight_form tx ->
  confirm_one point seen unseen fin drop s (MempoolTx.hash tx) = Ret (carry_out s tx).
Proof.
  intros Ha Hf. unfold confirm_one, carry_out, Mempool.outcome, confirms. rewrite Ha.
  cbn [expect mbind run_bind]. rewrite confirm_exact, mark_stale_exact by done.
  cbn [mbind run_bind]. pose proof (form_report _ Hf) as Hr.
  unfold confirm_or_finalize. cbn [MempoolTx.confirmations confirmed].
  destruct (bool_decide (MempoolTx.hash tx ∈ seen)) eqn:Es; cbn [orb].
  - destruct (fin <=? _); cbn [fst snd]; by rewrite ?clone_id.
  - destruct (bool_decide (MempoolTx.hash tx ∈ unseen)) eqn:Eu; cbn [negb andb].
    + by rewrite clone_id, retry_requeued.
    + destruct (bool_decide (MempoolTx.stage tx = Confirmed)) eqn:Ec.
      * destruct (fin <=? _); cbn [fst snd]; by rewrite ?clone_id.
      * change (MempoolTx.non_confirmations (tx <| MempoolTx.non_confirmations := _ |>))
          with (MempoolTx.non_confirmations tx + 1). destruct (drop <=? _).
        -- by rewrite !clone_id.
        -- by rewrite app_nil_r.
Qed.

Lemma carry_out_law s tx : inflight_form tx ->
  carries_out point seen unseen fin drop (pending ∘ fst) (finalized_log ∘ fst) snd (acknowledged ∘ fst)
    s tx (carry_out s tx).
Proof.
  unfold carries_out, carry_out, settle, Mempool.kept, Mempool.retried, Mempool.departed, compose. intros Hf.
  destruct (outcome tx) as [x|x|x] eqn:Eo; cbn; rewrite ?Eo, ?app_nil_r; conj_split; try done; intros y.
  - rewrite elem_of_app, elem_of_nil.
    assert (Hx : ~ leaving x).
    { unfold Mempool.outcome in Eo. unfold leaving. destruct (confirms seen unseen tx).
      - destruct (fin <=? _); simplify_eq; cbn; naive_solver.
      - case_bool_decide; [done|]. destruct (drop <=? _); simplify_eq; cbn.
        pose proof (form_stage _ Hf). naive_solver congruence. }
    destruct (confirms seen unseen tx); set_solver.
  - rewrite elem_of_app, list_elem_of_singleton, elem_of_nil. unfold leaving.
    split; [|naive_solver]. intros [[Hy| ->] Hl]; [naive_solver|]. cbn in Hl. naive_solver.
  - rewrite elem_of_app, !list_elem_of_singleton. split; [naive_solver|].
    intros [[Hy Hl]| ->]; [naive_solver|]. split; [auto|]. unfold leaving.
    unfold Mempool.outcome in Eo. destruct (confirms seen unseen tx).
    + destruct (fin <=? _); simplify_eq. by left.
    + case_bool_decide; [done|]. destruct (drop <=? _); simplify_eq. by right.
Qed.

Lemma truncate_bounded (l : list Tx) : (length (truncate_log l) ≤ MAX_FINALIZED_LOG)%nat.
Proof.
  unfold truncate_log. destruct (Nat.ltb_spec MAX_FINALIZED_LOG (length l)); [|done].
  rewrite length_drop. lia.
Qed.

Lemma truncate_id (l : list Tx) : (length l ≤ MAX_FINALIZED_LOG)%nat -> truncate_log l = l.
Proof. intros Hl. unfold truncate_log. by destruct (Nat.ltb_spec MAX_FINALIZED_LOG (length l)); [lia|]. Qed.

(** A mempool with nothing waiting for an acknowledgement. *)
Lemma ok_settled queue a log :
  Forall pending_form queue -> Forall inflight_form (values a) -> keyed a ->
  NoDup (hashes_of (queue ++ values a)) -> (length log ≤ MAX_FINALIZED_LOG)%nat ->
  ok (EphemeralMempool.mk queue [] a log).
Proof. by constructor. Qed.

Lemma kept_keyed a : keyed a -> keyed (omap kept a).
Proof.
  intros Hk h x. rewrite lookup_omap. intros (tx & Htx & Hx)%bind_Some. rewrite <- (Hk _ _ Htx).
  pose proof (outcome_hash point seen unseen fin drop tx) as Hh.
  unfold Mempool.kept in Hx. destruct (outcome tx); by simplify_eq.
Qed.

Lemma confirm_step (s : M * list Tx) (tx : Tx) (n : nat) :
  inflight s.1 = [] -> acknowledged s.1 !! MempoolTx.hash tx = Some tx -> inflight_form tx ->
  exists s', confirm_one point seen unseen fin drop s (MempoolTx.hash tx) = Ret s' /\ inflight s'.1 = [] /\
    carries_out point seen unseen fin drop (pending ∘ fst) (finalized_log ∘ fst) snd (acknowledged ∘ fst) s tx s'.
Proof.
  intros Hi Ha Hf. exists (carry_out s tx).
  rewrite confirm_one_outcome by done. conj_split; [done| |by apply carry_out_law].
  unfold carry_out. by destruct (outcome tx).
Qed.

(** The loop over a map of in-flight transactions. *)
Lemma confirm_loop queue a log :
  keyed a -> Forall inflight_form (values a) ->
  exists txs ev, txs ≡ₚ values a /\
    run_foldl (confirm_one point seen unseen fin drop) (EphemeralMempool.mk queue [] a log, []) (keys_of a) =
      Ret (EphemeralMempool.mk (queue ++ omap retried txs) [] (omap kept a) (log ++ omap departed txs), ev) /\
    (forall tx, (tx ∈ ev /\ leaving tx) <-> tx ∈ omap departed txs).
Proof.
  intros Hk Hf. pose proof (values_of_keys a) as Hv.
  set (txs := omap (fun h => a !! h) (keys_of a)) in *. rewrite Forall_forall in Hf.
  assert (Hkeys : keys_of a = hashes_of txs).
  { unfold txs. assert (Hl : forall h, h ∈ keys_of a -> is_Some (a !! h)) by apply elem_of_keys.
    clear Hv txs. induction (keys_of a) as [|h l IH]; [done|]. cbn.
    destruct (Hl h) as [tx Htx]; [left|]. rewrite Htx, hashes_cons, <- IH by (intros; apply Hl; by right).
    by rewrite (Hk _ _ Htx). }
  assert (Hin : forall tx, tx ∈ txs -> a !! MempoolTx.hash tx = Some tx /\ inflight_form tx).
  { intros tx. rewrite Hv. intros Hx. split; [by apply keyed_values|by apply Hf]. }
  assert (Hn : NoDup (hashes_of txs)).
  { rewrite <- Hkeys, (keys_of_perm a). apply NoDup_fst_map_to_list. }
  rewrite Hkeys. unfold hashes_of at 1. rewrite run_foldl_fmap.
  destruct (carry_out_all point seen unseen fin drop (fun s tx => confirm_one point seen unseen fin drop s
      (MempoolTx.hash tx)) id (pending ∘ fst) (finalized_log ∘ fst) snd (acknowledged ∘ fst)
      (fun s _ => inflight s.1 = []) confirm_step txs
      (EphemeralMempool.mk queue [] a log, []) 0) as (s' & Hr & Hi & Hq & Hg & Ht & He); rewrite ?list_fmap_id in *.
  - done.
  - done.
  - done.
  - exists txs, s'.2. conj_split; [done| |].
    + rewrite Hr. f_equal. destruct s' as [[q i t' lg] ev]. cbn in *. subst. f_equal. f_equal.
      apply settle_all; [done|apply Hin|]. intros h tx Htx. rewrite <- Hkeys. apply elem_of_keys. by eexists.
    + intros tx. rewrite He. cbn. set_solver.
Qed.

(** Carrying out the block on every in-flight transaction. *)
Lemma confirm_ok m : ok m ->
  exists m' ev requeue gone, confirm point seen unseen fin drop m = Ret (Ok (m', ev)) /\ ok m' /\
    peek_pending m' = peek_pending m ++ requeue /\
    requeue ≡ₚ omap retried (peek_inflight m) /\
    peek_inflight m' ≡ₚ omap kept (peek_inflight m) /\
    (forall tx, (tx ∈ ev /\ leaving tx) <-> tx ∈ omap departed (peek_inflight m)) /\
    finalized_log m' = truncate_log (finalized_log m ++ gone) /\
    gone ≡ₚ omap departed (peek_inflight m).
Proof.
  intros Hm. destruct (promote_perm m Hm) as [Hv Hk].
  pose proof (peek_inflight_perm m Hm) as Hin. rewrite <- Hv in Hin.
  unfold confirm. set (a := foldl insert_tx (acknowledged m) (inflight m)) in *.
  change ((m <| acknowledged := a |>) <| inflight := [] |>)
    with (EphemeralMempool.mk (pending m) [] a (finalized_log m)).
  cbn [acknowledged]. rewrite (peek_pending_eq m) by done.
  assert (Hforms : Forall inflight_form (values a)) by (rewrite Hv; by apply ok_forms).
  assert (Honce : NoDup (hashes_of (pending m ++ values a))) by (rewrite Hv; apply Hm).
  assert (Hsettled : forall queue log, Forall pending_form queue ->
    NoDup (hashes_of (queue ++ omap kept (values a))) -> (length log ≤ MAX_FINALIZED_LOG)%nat ->
    ok (EphemeralMempool.mk queue [] (omap kept a) log)).
  { intros queue log Hq Hn Hl. apply ok_settled; try done; [|by apply kept_keyed|by rewrite values_omap].
    rewrite values_omap. by apply kept_forms. }
  destruct (confirm_loop (pending m) a (finalized_log m) Hk Hforms) as (txs & ev & Htxs & Hr & Hev).
  rewrite <- Hin in Htxs.
  assert (Hok : ok (EphemeralMempool.mk (pending m ++ omap retried txs) [] (omap kept a)
                      (truncate_log (finalized_log m ++ omap departed txs)))).
  { apply Hsettled; [|rewrite Htxs, Hin; by apply outcomes_once|apply truncate_bounded].
    apply Forall_app. split; [apply Hm|]. apply retried_form. by rewrite Htxs, Hin. }
  eexists _, ev, (omap retried txs), (omap departed txs). conj_split; [|exact Hok|..].
  - case_bool_decide as Ha; [|by rewrite Hr].
    assert (Hk0 : keys_of a = []).
    { apply Permutation_nil_r. by rewrite (keys_of_perm a), Ha, map_to_list_empty. }
    rewrite Hk0 in Hr. injection Hr as Hq Ha' Hl Hev'. rewrite <- Hq, <- Ha', <- Hl, <- Hev'.
    rewrite truncate_id; [done|apply Hm].
  - by rewrite peek_pending_eq.
  - by rewrite Htxs.
  - rewrite peek_inflight_perm by done. cbn [inflight acknowledged app]. rewrite values_omap. by rewrite Hin.
  - intros tx. by rewrite Hev, Htxs.
  - done.
  - by rewrite Htxs.
Qed.

End confirm.

#[export] Program Instance store : Store.MempoolStore R M := {|
  Store.receive := receive;
  Store.has_pending := has_pending;
  Store.peek_pending := peek_pending;
  Store.mark_inflight := mark_inflight;
  Store.mark_acknowledged := mark_acknowledged;
  Store.find_inflight := find_inflight;
  Store.peek_inflight := peek_inflight;
  Store.confirm := confirm;
  Store.check_status := check_status;
  Store.ok := ok;
  Store.room _ _ := True;
|}.
Next Obligation. done. Qed.
Next Obligation. intros m Hm. rewrite peek_pending_eq by done. apply Hm. Qed.
Next Obligation. intros m Hm. rewrite peek_inflight_perm by done. by apply ok_forms. Qed.
Next Obligation. intros m Hm. rewrite peek_pending_eq, peek_inflight_perm by done. apply Hm. Qed.
Next Obligation.
  intros m Hm. rewrite peek_pending_eq by done. unfold has_pending. by destruct (pending m).
Qed.
Next Obligation.
  intros m tx Hm. rewrite peek_pending_eq by done. intros Hi. unfold receive.
  by rewrite (proj2 (has_hash _ _) Hi).
Qed.
Next Obligation.
  intros m tx Hm _ Hf _ Hni. destruct (receive_ok m tx Hm Hf Hni) as (m' & ? & ? & ? & ?).
  exists m'. by conj_split.
Qed.
Next Obligation.
  intros m hashes Hm. destruct (mark_inflight_ok m hashes Hm) as (m' & ev & ? & ? & ? & ?).
  exists m', ev. by conj_split.
Qed.
Next Obligation.
  intros m hashes Hm. destruct (mark_acknowledged_ok m hashes Hm) as (m' & ev & l & l' & ? & ? & ? & ? & ? & ?).
  exists m', ev, l, l'. by conj_split.
Qed.
Next Obligation. intros m h tx Hm. by apply find_inflight_ok. Qed.
Next Obligation.
  intros point seen unseen fin drop m Hm Hf Hd Hp _.
  destruct (confirm_ok point seen unseen fin drop Hf Hd Hp m Hm)
    as (m' & ev & requeue & gone & ? & ? & ? & ? & ? & ? & _).
  exists m', ev, requeue. by conj_split.
Qed.
Next Obligation. intros m h Hm. by apply check_status_ok. Qed.

(** *** The finalized log *)

(** Following [next_cursor] from a cursor, page after page. *)
Fixpoint read_pages (fuel : nat) (m : M) (cursor : Z) (limit : nat) : run (list Tx) :=
  match fuel with
  | O => Panic
  | S fuel =>
      page ← dump_finalized m cursor limit;
      match next_cursor page with
      | None => Ret (items page)
      | Some next => rest ← read_pages fuel m next limit; Ret (items page ++ rest)
      end
  end.

Lemma read_pages_from fuel m limit : forall i,
  (0 < limit)%nat -> (length (finalized_log m) - i < fuel)%nat ->
  (i ≤ length (finalized_log m))%nat -> Z.of_nat (length (finalized_log m)) < 2 ^ 64 ->
  read_pages fuel m (Z.of_nat i) limit = Ret (MempoolTx.clone <$> drop i (finalized_log m)).
Proof.
  induction fuel as [|fuel IH]; intros i Hl Hf Hi Hu; [lia|]. cbn [read_pages].
  unfold dump_finalized. rewrite Nat2Z.id. set (log := finalized_log m) in *.
  set (found := MempoolTx.clone <$> take limit (drop i log)).
  assert (Hlen : length found = Nat.min limit (length log - i))
    by (unfold found; by rewrite length_fmap, length_take, length_drop).
  rewrite uadd_exact by (unfold is_u; lia). cbn [mbind run_bind next_cursor items].
  destruct (Z.ltb_spec (Z.of_nat i + Z.of_nat (length found)) (Z.of_nat (length log))) as [Hm|Hm].
  - rewrite <- Nat2Z.inj_add. rewrite IH by lia. cbn [mbind run_bind]. f_equal.
    rewrite Hlen, Nat.min_l by lia. unfold found. rewrite <- fmap_app. f_equal.
    rewrite <- drop_drop. apply take_drop.
  - f_equal. unfold found. by rewrite take_ge by (rewrite length_drop; lia).
Qed.

(** The finalized log can be read in full: following the cursors page after
    page from the start ends, within as many pages as the log has entries, and gives the whole log
    in order, whatever the page size; a mempool never keeps more than a thousand entries. *)
Theorem pages_cover_log m limit :
  ok m -> (0 < limit)%nat ->
  (length (finalized_log m) ≤ MAX_FINALIZED_LOG)%nat /\
  read_pages (1 + length (finalized_log m)) m 0 limit = Ret (MempoolTx.clone <$> finalized_log m).
Proof.
  intros Hm Hl. split; [apply Hm|]. pose proof (ok_log _ Hm) as Hlog.
  apply (read_pages_from (1 + length (finalized_log m)) m limit 0); unfold MAX_FINALIZED_LOG in *; lia.
Qed.

End refinement.
End Ephemeral.

(** ** A concrete mempool *)

Module MempoolDemo.

#[export] Instance order {A} : HashOrder A := {| keys_of m := (map_to_list m).*1; keys_of_perm _ := reflexivity _ |}.
#[export] Instance cfg : BuildCfg := cfg_debug.

Definition hash (n : Z) : TxHash := replicate 32 n.

(** A transaction that was propagated, one that is on chain and one that was
    finalized. *)
Definition propagated : MempoolTx.t unit := MempoolTx.mk (hash 1) (7, [1]) Propagated 0 0 None None.
Definition on_chain : MempoolTx.t unit :=
  MempoolTx.mk (hash 2) (7, [2]) Confirmed 4 0 (Some (ChainPoint.Specific 10 (hash 9))) None.
Definition finalized : MempoolTx.t unit :=
  MempoolTx.mk (hash 3) (7, [3]) Finalized 6 0 (Some (ChainPoint.Specific 4 (hash 8))) None.

Definition mempool : EphemeralMempool.t unit :=
  EphemeralMempool.mk [] [propagated] {[hash 2 := on_chain]} [finalized; finalized].

Lemma point_storable : storable (ChainPoint.Specific 10 (hash 9)).
Proof. by vm_compute. Qed.

Lemma on_chain_form : inflight_form on_chain.
Proof.
  constructor; cbn; [done|by right; right|unfold u_max; lia|unfold u_max; lia|by split|..].
  - split; [by eexists|done].
  - intros p [= <-]. apply point_storable.
Qed.

Lemma mempool_ok : Ephemeral.ok mempool.
Proof.
  assert (Hv : values (EphemeralMempool.acknowledged mempool) = [on_chain]) by (by vm_compute).
  constructor; rewrite ?Hv.
  - constructor.
  - by repeat constructor.
  - constructor; [apply on_chain_form|constructor].
  - by apply map_Forall_singleton.
  - apply (bool_decide_unpack _). by vm_compute.
  - unfold EphemeralMempool.MAX_FINALIZED_LOG. cbn. lia.
Qed.

Lemma pages_cover_log_witness :
  (length (EphemeralMempool.finalized_log mempool) ≤ EphemeralMempool.MAX_FINALIZED_LOG)%nat /\
  Ephemeral.read_pages 3 mempool 0 1 = Ret [finalized; finalized].
Proof. apply (Ephemeral.pages_cover_log mempool 1); [apply mempool_ok|lia]. Defined.

End MempoolDemo.
