(* ===== verification/RedbMempool.v ===== *)
(** * The durable mempool (redb3/src/mempool.rs)

    The backend that keeps the mempool in three [redb] tables: the pending
    queue, keyed by a sequence number and the transaction hash; the in-flight
    records, keyed by the hash; and the finalized log, keyed by a sequence
    number (a [u64] key, ordered as its big-endian bytes are).  Each operation
    is one write transaction, so it is modelled as a function on the tables.
    It implements the same contract as the in-memory backend. *)

From stdpp Require Import sorting.
From S2P Require Import Prelude Types ChainPoint StateStore Wal Mempool.
Open Scope Z_scope.

(** ** Keys and records *)

Module DbPendingKey.

Definition new (seq : Z) (hash : TxHash) : bytes := to_be_bytes 8 seq ++ hash.
Definition seq (key : bytes) : Z := from_be_bytes (take 8 key).
Definition hash (key : bytes) : TxHash := drop 8 key.

End DbPendingKey.

Inductive InflightStage := IPropagated | IAcknowledged | IConfirmed.

#[global] Instance inflight_stage_eq_dec : EqDecision InflightStage.
Proof. solve_decision. Defined.

(** The match that translates a stored stage. *)
Definition mempool_stage (s : InflightStage) : MempoolTxStage :=
  match s with
  | IPropagated => Propagated
  | IAcknowledged => Acknowledged
  | IConfirmed => Confirmed
  end.

Module FinalizedEntry.

Record t := mk {
  hash : bytes;
  confirmations : Z;
  confirmed_at : option bytes;
  payload : option EraCbor;
  dropped : option bool;
}.

Definition into_mempool_tx {R} (e : t) : MempoolTx.t R :=
  let stage := if default false (dropped e) then Dropped else Finalized in
  MempoolTx.mk (hash e) (default (0, []) (payload e)) stage (confirmations e) 0
    (ChainPoint.from_bytes <$> confirmed_at e) None.

End FinalizedEntry.

Module InflightRecord.

Record t := mk {
  stage : InflightStage;
  confirmations : Z;
  payload : EraCbor;
  confirmed_at : option bytes;
  non_confirmations : Z;
}.

#[global] Instance eta_t : Eta t := fun r =>
  mk (stage r) (confirmations r) (payload r) (confirmed_at r) (non_confirmations r).

Definition new (payload : EraCbor) : t := mk IPropagated 0 payload None 0.

(** The record and whether it changed. *)
Definition acknowledge (r : t) : t * bool :=
  if bool_decide (stage r = IPropagated) then (r <| stage := IAcknowledged |>, true) else (r, false).

Section ops.
Context `{BuildCfg}.

Definition confirm (r : t) (point : ChainPoint.t) : run t :=
  let r := r <| stage := IConfirmed |> in
  n ← uadd 32 (confirmations r) 1;
  let r := r <| confirmations := n |> in
  let r := r <| non_confirmations := 0 |> in
  Ret (match confirmed_at r with
       | None => r <| confirmed_at := Some (ChainPoint.into_bytes point) |>
       | Some _ => r
       end).

Definition retry (r : t) : t := r <| confirmed_at := None |>.

Definition mark_stale (r : t) : run t :=
  n ← uadd 32 (non_confirmations r) 1;
  Ret (r <| non_confirmations := n |>).

End ops.

Definition is_finalizable (r : t) (threshold : Z) : bool :=
  bool_decide (stage r = IConfirmed) && (threshold <=? confirmations r).

Definition is_droppable (r : t) (threshold : Z) : bool := threshold <=? non_confirmations r.

Definition to_tx_status (r : t) : TxStatus :=
  mkStatus (mempool_stage (stage r)) (confirmations r) (non_confirmations r)
    (ChainPoint.from_bytes <$> confirmed_at r).

Definition into_finalized_entry (r : t) (hash : TxHash) : FinalizedEntry.t :=
  FinalizedEntry.mk hash (confirmations r) (confirmed_at r) (Some (payload r)) (Some false).

Definition into_dropped_entry (r : t) (hash : TxHash) : FinalizedEntry.t :=
  FinalizedEntry.mk hash (confirmations r) (confirmed_at r) (Some (payload r)) (Some true).

Definition to_mempool_tx {R} (r : t) (hash : TxHash) : MempoolTx.t R :=
  MempoolTx.mk hash (payload r) (mempool_stage (stage r)) (confirmations r) (non_confirmations r)
    (ChainPoint.from_bytes <$> confirmed_at r) None.

End InflightRecord.

(** ** Tables *)

Definition iter {T V} `{!RedbTable T V} (t : T) : list (bytes * V) := range t Unbounded Unbounded.

Module PendingTable.
Section ops.
Context {T : Type} `{!RedbTable T (Z * list Z)} {R : Type} `{BuildCfg}.

Definition has_any (t : T) : bool := (0 <? length (iter t))%nat.

(** The transaction of a row. *)
Definition row_tx (e : bytes * EraCbor) : MempoolTx.t R :=
  MempoolTx.mk (DbPendingKey.hash e.1) e.2 Pending 0 0 None None.

Definition peek (t : T) : list (MempoolTx.t R) := row_tx <$> iter t.

Definition contains (t : T) (tx_hash : TxHash) : bool :=
  existsb (fun e => bool_decide (DbPendingKey.hash e.1 = tx_hash)) (iter t).

Definition next_seq (t : T) : run Z :=
  match last (iter t) with
  | Some e => uadd 64 (DbPendingKey.seq e.1) 1
  | None => Ret 0
  end.

Definition insert (t : T) (hash : TxHash) (payload : EraCbor) : run T :=
  seq ← next_seq t;
  Ret (insert_row t (DbPendingKey.new seq hash) payload).

(** The extracted rows and the table without them. *)
Definition drain_by_hashes (t : T) (hashes : list TxHash) : list (TxHash * EraCbor) * T :=
  ((fun e => (DbPendingKey.hash e.1, e.2)) <$>
     filter (fun e => DbPendingKey.hash e.1 ∈ hashes) (iter t),
   extract_from_if t Unbounded Unbounded (fun key => bool_decide (DbPendingKey.hash key ∈ hashes))).

End ops.
End PendingTable.

Module InflightTable.
Section ops.
Context {T : Type} `{!RedbTable T InflightRecord.t} {R : Type}.

Definition get (t : T) (hash : TxHash) : option InflightRecord.t := Wal.get t hash.
Definition read (t : T) (hash : TxHash) : option InflightRecord.t := Wal.get t hash.
Definition write (t : T) (hash : TxHash) (r : InflightRecord.t) : T := insert_row t hash r.
Definition remove (t : T) (hash : TxHash) : T := remove_row t hash.
Definition collect_all (t : T) : list (TxHash * InflightRecord.t) := iter t.
Definition peek (t : T) : list (MempoolTx.t R) :=
  (fun e => InflightRecord.to_mempool_tx e.2 e.1) <$> iter t.

End ops.
End InflightTable.

Module FinalizedTable.
Section ops.
Context {T : Type} `{!RedbTable T FinalizedEntry.t} {R : Type} `{BuildCfg}.

Definition key (seq : Z) : bytes := to_be_bytes 8 seq.

Definition next_seq (t : T) : run Z :=
  match last (iter t) with
  | Some e => uadd 64 (from_be_bytes e.1) 1
  | None => Ret 0
  end.

Definition append (t : T) (entry : FinalizedEntry.t) : run T :=
  seq ← next_seq t;
  Ret (insert_row t (key seq) entry).

Definition paginate (t : T) (cursor : Z) (limit : nat) : run (MempoolPage R) :=
  let page := take limit (range t (Included (key cursor)) Unbounded) in
  let found := (fun e => FinalizedEntry.into_mempool_tx e.2) <$> page in
  let last_seq := (fun e => from_be_bytes e.1) <$> last page in
  if (limit <=? length found)%nat then
    match last_seq with
    | Some s => next ← uadd 64 s 1; Ret (mkPage found (Some next))
    | None => Ret (mkPage found None)
    end
  else Ret (mkPage found None).

End ops.
End FinalizedTable.

(** ** The backend *)

Module RedbMempool.

Record t (TP TI TF : Type) := mk { pending : TP; inflight : TI; finalized : TF }.
Arguments mk {TP TI TF}.
Arguments pending {TP TI TF} _.
Arguments inflight {TP TI TF} _.
Arguments finalized {TP TI TF} _.

#[global] Instance eta_t {TP TI TF} : Eta (t TP TI TF) := fun r => mk (pending r) (inflight r) (finalized r).

Section ops.
Context {TP TI TF : Type} `{!RedbTable TP (Z * list Z), !RedbTable TI InflightRecord.t}.
Context `{!RedbTable TF FinalizedEntry.t} {R : Type} `{BuildCfg}.

Abbreviation M := (t TP TI TF).
Abbreviation Tx := (MempoolTx.t R).

(** [receive_inner]: returning early drops the write transaction. *)
Definition receive (m : M) (tx : Tx) : run (result MempoolError (M * list Tx)) :=
  if PendingTable.contains (pending m) (MempoolTx.hash tx) then Ret (Err DuplicateTx)
  else
    match InflightTable.read (inflight m) (MempoolTx.hash tx) with
    | Some _ => Ret (Err DuplicateTx)
    | None =>
        p ← PendingTable.insert (pending m) (MempoolTx.hash tx) (MempoolTx.payload tx);
        Ret (Ok (m <| pending := p |>, [tx]))
    end.

Definition has_pending (m : M) : bool := PendingTable.has_any (pending m).
Definition peek_pending (m : M) : list Tx := PendingTable.peek (pending m).

(** The loop over the drained rows. *)
Definition send_one (s : TI * list Tx) (e : TxHash * EraCbor) : TI * list Tx :=
  let record := InflightRecord.new e.2 in
  (InflightTable.write s.1 e.1 record, s.2 ++ [InflightRecord.to_mempool_tx record e.1]).

Definition mark_inflight (m : M) (hashes : list TxHash) : run (result MempoolError (M * list Tx)) :=
  let drained := PendingTable.drain_by_hashes (pending m) hashes in
  let s := foldl send_one (inflight m, []) drained.1 in
  Ret (Ok (mk drained.2 s.1 (finalized m), s.2)).

Definition acknowledge_one (s : TI * list Tx) (hash : TxHash) : TI * list Tx :=
  match InflightTable.read s.1 hash with
  | Some record =>
      let ack := InflightRecord.acknowledge record in
      if ack.2 then
        (InflightTable.write s.1 hash ack.1, s.2 ++ [InflightRecord.to_mempool_tx ack.1 hash])
      else s
  | None => s
  end.

Definition mark_acknowledged (m : M) (hashes : list TxHash) : run (result MempoolError (M * list Tx)) :=
  let s := foldl acknowledge_one (inflight m, []) hashes in
  Ret (Ok (m <| inflight := s.1 |>, s.2)).

Definition find_inflight (m : M) (tx_hash : TxHash) : option Tx :=
  (fun record => InflightRecord.to_mempool_tx record tx_hash) <$> InflightTable.get (inflight m) tx_hash.

Definition peek_inflight (m : M) : list Tx := InflightTable.peek (inflight m).

Section confirm.
Variables (point : ChainPoint.t) (seen_txs unseen_txs : list TxHash).
Variables (finalize_threshold drop_threshold : Z).

(** A record that gained a confirmation: finalized at the threshold. *)
Definition confirm_or_finalize (m : M) (events : list Tx) (tx_hash : TxHash) (record : InflightRecord.t) :
    run (M * list Tx) :=
  let tx := InflightRecord.to_mempool_tx record tx_hash in
  if InflightRecord.is_finalizable record finalize_threshold then
    let m := m <| inflight := InflightTable.remove (inflight m) tx_hash |> in
    f ← FinalizedTable.append (finalized m) (InflightRecord.into_finalized_entry record tx_hash);
    Ret (m <| finalized := f |>, events ++ [tx <| MempoolTx.stage := Finalized |>])
  else
    Ret (m <| inflight := InflightTable.write (inflight m) tx_hash record |>, events ++ [tx]).

(** The body of the loop over the collected records. *)
Definition confirm_one (s : M * list Tx) (e : TxHash * InflightRecord.t) : run (M * list Tx) :=
  let m := s.1 in
  let events := s.2 in
  let tx_hash := e.1 in
  let record := e.2 in
  if bool_decide (tx_hash ∈ seen_txs) then
    record ← InflightRecord.confirm record point;
    confirm_or_finalize m events tx_hash record
  else if bool_decide (tx_hash ∈ unseen_txs) then
    let record := InflightRecord.retry record in
    let m := m <| inflight := InflightTable.remove (inflight m) tx_hash |> in
    p ← PendingTable.insert (pending m) tx_hash (InflightRecord.payload record);
    let tx := MempoolTx.retry (InflightRecord.to_mempool_tx record tx_hash) in
    Ret (m <| pending := p |>, events ++ [tx])
  else if bool_decide (InflightRecord.stage record = IConfirmed) then
    record ← InflightRecord.confirm record point;
    confirm_or_finalize m events tx_hash record
  else
    record ← InflightRecord.mark_stale record;
    if InflightRecord.is_droppable record drop_threshold then
      let tx := InflightRecord.to_mempool_tx record tx_hash in
      let m := m <| inflight := InflightTable.remove (inflight m) tx_hash |> in
      f ← FinalizedTable.append (finalized m) (InflightRecord.into_dropped_entry record tx_hash);
      Ret (m <| finalized := f |>, events ++ [tx <| MempoolTx.stage := Dropped |>])
    else
      Ret (m <| inflight := InflightTable.write (inflight m) tx_hash record |>, events).

Definition confirm (m : M) : run (result MempoolError (M * list Tx)) :=
  s ← run_foldl confirm_one (m, []) (InflightTable.collect_all (inflight m));
  Ret (Ok s).

End confirm.

Definition check_status (m : M) (tx_hash : TxHash) : TxStatus :=
  match InflightTable.get (inflight m) tx_hash with
  | Some record => InflightRecord.to_tx_status record
  | None =>
      if PendingTable.contains (pending m) tx_hash then bare_status Pending else bare_status Unknown
  end.

Definition dump_finalized (m : M) (cursor : Z) (limit : nat) : run (MempoolPage R) :=
  FinalizedTable.paginate (finalized m) cursor limit.

End ops.
End RedbMempool.

(** ** Lemmas on tables *)

Section tables.
Context {T V : Type} `{!RedbTable T V}.

Lemma iter_rows (t : T) : iter t = rows t.
Proof. unfold iter. rewrite range_spec. by apply filter_all. Qed.

Lemma rows_keys_once (t : T) : NoDup (rows t).*1.
Proof.
  pose proof (rows_sorted t) as Hs. induction Hs as [|k l Hs IH Hf]; constructor; [|done].
  intros Hi. rewrite Forall_forall in Hf. by apply (Wal.key_lt_irrefl k), Hf.
Qed.

(** The contents of a table. *)
Definition contents (t : T) : gmap (list Z) V := list_to_map (rows t).

Lemma contents_lookup (t : T) k : contents t !! k = get t k.
Proof.
  apply option_eq. intros v. unfold contents. rewrite get_spec. symmetry.
  apply elem_of_list_to_map, rows_keys_once.
Qed.

Lemma contents_list (t : T) : map_to_list (contents t) ≡ₚ rows t.
Proof. apply map_to_list_to_map, rows_keys_once. Qed.

Lemma contents_insert (t : T) k v : contents (insert_row t k v) = <[k := v]> (contents t).
Proof.
  apply map_eq. intros k'. apply option_eq. intros v'.
  rewrite contents_lookup, get_spec, insert_row_spec, lookup_insert_Some, contents_lookup, get_spec.
  naive_solver.
Qed.

Lemma contents_remove (t : T) k : contents (remove_row t k) = delete k (contents t).
Proof.
  apply map_eq. intros k'. apply option_eq. intros v'.
  rewrite contents_lookup, get_spec, remove_row_spec, list_elem_of_filter, lookup_delete_Some,
    contents_lookup, get_spec. cbn. naive_solver.
Qed.

End tables.

(** A table keyed by a sequence number and a suffix of fixed length. *)
Section sequences.
Context {T V : Type} `{!RedbTable T V}.

Definition seq_key (n : nat) (k : bytes) : Prop :=
  exists seq suffix, is_u64 seq /\ length suffix = n /\ k = to_be_bytes 8 seq ++ suffix.

Definition seq_keyed (n : nat) (t : T) : Prop := forall r, r ∈ rows t -> seq_key n r.1.

(** The number the next row gets. *)
Definition next_number (t : T) : Z :=
  match last (rows t) with Some r => DbPendingKey.seq r.1 + 1 | None => 0 end.

Lemma seq_new seq suffix : is_u64 seq -> DbPendingKey.seq (to_be_bytes 8 seq ++ suffix) = seq.
Proof.
  intros Hs. unfold DbPendingKey.seq. rewrite take_app_length' by (by rewrite length_to_be_bytes).
  by apply from_to_be_bytes.
Qed.

Lemma hash_new seq suffix : DbPendingKey.hash (to_be_bytes 8 seq ++ suffix) = suffix.
Proof. unfold DbPendingKey.hash. by rewrite drop_app_length' by (by rewrite length_to_be_bytes). Qed.

Lemma seq_key_cmp s1 h1 s2 h2 : is_u64 s1 -> is_u64 s2 ->
  bytes_cmp (to_be_bytes 8 s1 ++ h1) (to_be_bytes 8 s2 ++ h2) =
  match s1 ?= s2 with Eq => bytes_cmp h1 h2 | c => c end.
Proof.
  intros Hs1 Hs2. rewrite bytes_cmp_app by (by rewrite !length_to_be_bytes).
  by rewrite ChainPoint.to_be_bytes_cmp.
Qed.

Lemma next_number_above n t r : seq_keyed n t -> r ∈ rows t -> DbPendingKey.seq r.1 < next_number t.
Proof.
  intros Hk Hr. unfold next_number. destruct (last (rows t)) as [l|] eqn:El.
  2: { apply last_None in El. rewrite El in Hr. by apply elem_of_nil in Hr. }
  apply last_Some in El as [rest Hrest]. pose proof (Wal.rows_row_sorted t) as Hs. rewrite Hrest in Hs, Hr.
  apply elem_of_app in Hr as [Hr|Hr%list_elem_of_singleton]; [|subst; lia].
  assert (Hlt : key_lt r.1 l.1) by (apply (StronglySorted_app_1_elem_of _ _ _ r l Hs); [done|left]).
  destruct (Hk r) as (s1 & h1 & Hs1 & _ & E1); [rewrite Hrest; apply elem_of_app; by left|].
  destruct (Hk l) as (s2 & h2 & Hs2 & _ & E2); [rewrite Hrest; apply elem_of_app; right; left|].
  unfold key_lt in Hlt. rewrite E1, E2 in *. rewrite seq_key_cmp in Hlt by done. rewrite !seq_new by done.
  destruct (Z.compare_spec s1 s2); try done; lia.
Qed.

Lemma next_number_least t b :
  (forall r, r ∈ rows t -> DbPendingKey.seq r.1 < b) -> 0 ≤ b -> next_number t ≤ b.
Proof.
  intros Hb H0. unfold next_number. destruct (last (rows t)) as [l|] eqn:El; [|done].
  apply last_Some in El as [rest Hrest]. specialize (Hb l). rewrite Hrest in Hb.
  assert (DbPendingKey.seq l.1 < b); [|lia]. apply Hb, elem_of_app. right. left.
Qed.

Lemma next_number_nonneg n t : seq_keyed n t -> 0 ≤ next_number t.
Proof.
  intros Hk. unfold next_number. destruct (last (rows t)) as [l|] eqn:El; [|done].
  apply last_Some in El as [rest Hrest]. destruct (Hk l) as (s & h & Hs & _ & E).
  { rewrite Hrest. apply elem_of_app. right. left. }
  rewrite E, seq_new by done. unfold is_u in Hs. lia.
Qed.

(** A row with the next number goes last. *)
Lemma insert_numbered n t suffix v :
  seq_keyed n t -> length suffix = n -> next_number t < 2 ^ 64 ->
  let t' := insert_row t (to_be_bytes 8 (next_number t) ++ suffix) v in
  rows t' = rows t ++ [(to_be_bytes 8 (next_number t) ++ suffix, v)] /\ seq_keyed n t' /\
  next_number t' = next_number t + 1.
Proof.
  intros Hk Hl Hu t'. pose proof (next_number_nonneg n t Hk) as H0.
  assert (Hn : is_u64 (next_number t)) by (unfold is_u; lia).
  assert (Hr : rows t' = rows t ++ [(to_be_bytes 8 (next_number t) ++ suffix, v)]).
  { apply Wal.rows_insert_last. intros r Hr. pose proof (next_number_above n t r Hk Hr) as Hlt.
    destruct (Hk r Hr) as (s & h & Hs & _ & E). rewrite E in *. rewrite seq_new in Hlt by done.
    unfold key_lt. rewrite seq_key_cmp by done. by rewrite (proj2 (Z.compare_lt_iff _ _) Hlt). }
  conj_split; [done| |].
  - intros r. rewrite Hr, elem_of_app, list_elem_of_singleton. intros [Hi|Hi]; [by apply Hk|]. subst r.
    by exists (next_number t), suffix.
  - unfold next_number at 1. rewrite Hr, last_snoc. cbn [fst]. by rewrite seq_new.
Qed.

Lemma seq_keyed_sub n t t' :
  (forall r, r ∈ rows t' -> r ∈ rows t) -> seq_keyed n t -> seq_keyed n t' /\ next_number t' ≤ next_number t.
Proof.
  intros Hsub Hk. split; [intros r Hr; by apply Hk, Hsub|].
  apply next_number_least; [|by eapply next_number_nonneg]. intros r Hr. eapply next_number_above; eauto.
Qed.

End sequences.

(** ** The durable backend implements the contract *)

Module Redb.
Import RedbMempool.
#[local] Arguments ChainPoint.into_bytes : simpl never.
#[local] Arguments ChainPoint.from_bytes : simpl never.

Section refinement.
Context {TP TI TF : Type} `{!RedbTable TP (Z * list Z), !RedbTable TI InflightRecord.t}.
Context `{!RedbTable TF FinalizedEntry.t} {R : Type} `{BuildCfg}.
Abbreviation M := (RedbMempool.t TP TI TF).
Abbreviation Tx := (MempoolTx.t R).

(** The in-flight transactions, by hash. *)
Definition tx_map (t : TI) : gmap (list Z) Tx :=
  map_imap (fun h r => Some (InflightRecord.to_mempool_tx r h)) (contents t).

Lemma tx_map_lookup t h :
  tx_map t !! h = (fun r => InflightRecord.to_mempool_tx r h) <$> Wal.get t h.
Proof. unfold tx_map. rewrite map_lookup_imap, contents_lookup. by destruct (Wal.get t h). Qed.

Lemma tx_map_keyed t : keyed (tx_map t).
Proof. intros h tx. rewrite tx_map_lookup, fmap_Some. by intros (r & _ & ->). Qed.

Lemma tx_map_write t h r :
  tx_map (InflightTable.write t h r) = <[h := InflightRecord.to_mempool_tx r h]> (tx_map t).
Proof. unfold tx_map, InflightTable.write. by rewrite contents_insert, map_imap_insert. Qed.

Lemma tx_map_remove t h : tx_map (InflightTable.remove t h) = delete h (tx_map t).
Proof. unfold tx_map, InflightTable.remove. by rewrite contents_remove, map_imap_delete. Qed.

Lemma values_imap {V} (f : TxHash -> V -> Tx) (m : gmap (list Z) V) :
  values (map_imap (fun h v => Some (f h v)) m) ≡ₚ (fun e => f e.1 e.2) <$> map_to_list m.
Proof.
  induction m as [|h v m Hh IH] using map_ind; [by rewrite map_imap_empty, values_empty, map_to_list_empty|].
  rewrite map_imap_insert, values_insert by (rewrite map_lookup_imap, Hh; done).
  by rewrite map_to_list_insert, fmap_cons, IH.
Qed.

Lemma peek_values (m : M) : peek_inflight m ≡ₚ values (tx_map (inflight m)).
Proof.
  unfold peek_inflight, InflightTable.peek, tx_map.
  by rewrite iter_rows, (values_imap (fun h r => InflightRecord.to_mempool_tx r h)), contents_list.
Qed.

Record ok (m : M) : Prop := {
  ok_pending : seq_keyed 32 (pending m);
  ok_finalized : seq_keyed 0 (finalized m);
  ok_hashes : forall r, r ∈ rows (inflight m) -> length r.1 = 32%nat;
  ok_inflight : Forall inflight_form (values (tx_map (inflight m)));
  ok_once : NoDup (hashes_of (peek_pending m ++ values (tx_map (inflight m))));
}.

Definition room (m : M) (n : nat) : Prop :=
  next_number (pending m) + Z.of_nat n ≤ 2 ^ 64 /\ next_number (finalized m) + Z.of_nat n ≤ 2 ^ 64.

Lemma peek_rows (m : M) : peek_pending (R := R) m = PendingTable.row_tx <$> rows (pending m).
Proof. unfold peek_pending, PendingTable.peek. by rewrite iter_rows. Qed.

Lemma pending_insert t h p : seq_keyed 32 t -> length h = 32%nat -> next_number t < 2 ^ 64 ->
  exists t' : TP, PendingTable.insert t h p = Ret t' /\ seq_keyed 32 t' /\
    next_number t' = next_number t + 1 /\
    PendingTable.peek t' = PendingTable.peek t ++ [MempoolTx.mk h p Pending 0 0 None (None : option R)].
Proof.
  intros Hk Hh Hn. destruct (insert_numbered 32 t h p Hk Hh Hn) as (Hr & Hk' & Hn').
  pose proof (next_number_nonneg 32 t Hk) as H0.
  exists (insert_row t (DbPendingKey.new (next_number t) h) p). conj_split; [|done|done|].
  - unfold PendingTable.insert, PendingTable.next_seq. rewrite iter_rows.
    unfold next_number in *. destruct (last (rows t)) as [l|]; [|done].
    by rewrite uadd_exact by (unfold is_u; lia).
  - unfold PendingTable.peek. rewrite !iter_rows. unfold DbPendingKey.new. rewrite Hr, fmap_app. cbn [fmap list_fmap].
    unfold PendingTable.row_tx at 2. cbn [fst snd]. by rewrite hash_new.
Qed.

Lemma finalized_append t e : seq_keyed 0 t -> next_number t < 2 ^ 64 ->
  exists t' : TF, FinalizedTable.append t e = Ret t' /\ seq_keyed 0 t' /\
    next_number t' = next_number t + 1.
Proof.
  intros Hk Hn. destruct (insert_numbered 0 t [] e Hk eq_refl Hn) as (Hr & Hk' & Hn').
  pose proof (next_number_nonneg 0 t Hk) as H0. rewrite app_nil_r in *.
  exists (insert_row t (FinalizedTable.key (next_number t)) e). conj_split; [|done|done].
  unfold FinalizedTable.append, FinalizedTable.next_seq. rewrite iter_rows.
  unfold next_number in *. destruct (last (rows t)) as [l|] eqn:El; [|done].
  destruct (Hk l) as (s & h & Hs & Hlen & E).
  { apply last_Some in El as [rest ->]. apply elem_of_app. right. left. }
  destruct h; [|done]. rewrite app_nil_r in E.
  assert (Es : DbPendingKey.seq l.1 = from_be_bytes l.1).
  { unfold DbPendingKey.seq. rewrite take_ge; [done|]. rewrite E, length_to_be_bytes. done. }
  rewrite Es in *. by rewrite uadd_exact by (unfold is_u; lia).
Qed.

Lemma contains_spec (m : M) h :
  PendingTable.contains (pending m) h = true <-> h ∈ hashes_of (peek_pending (R := R) m).
Proof.
  unfold PendingTable.contains. rewrite iter_rows, existsb_exists, peek_rows. unfold hashes_of.
  rewrite <- list_fmap_compose, list_elem_of_fmap. split.
  - intros (x & Hx & Hb). apply bool_decide_eq_true in Hb. exists x. split; [done|].
    by apply list_elem_of_In.
  - intros (x & -> & Hx). exists x. split; [by apply list_elem_of_In|]. by apply bool_decide_eq_true.
Qed.

Lemma in_flight_hash (m : M) h : h ∈ hashes_of (peek_inflight (R := R) m) <-> is_Some (Wal.get (inflight m) h).
Proof.
  rewrite peek_values. unfold hashes_of. rewrite list_elem_of_fmap. split.
  - intros (x & -> & Hx). apply keyed_values in Hx; [|apply tx_map_keyed].
    rewrite tx_map_lookup in Hx. destruct (Wal.get _ _) as [r|]; [by exists r|done].
  - intros [r Hr]. exists (InflightRecord.to_mempool_tx r h). split; [done|].
    apply keyed_values; [apply tx_map_keyed|]. rewrite tx_map_lookup. cbn. by rewrite Hr.
Qed.

Lemma redb_receive_ok (m : M) (tx : Tx) : ok m -> room m 1 -> pending_form (MempoolTx.clone tx) ->
  length (MempoolTx.hash tx) = 32%nat ->
  MempoolTx.hash tx ∉ hashes_of (R := R) (peek_pending m ++ peek_inflight m) ->
  exists m', receive m tx = Ret (Ok (m', [tx])) /\ ok m' /\
    peek_pending m' = peek_pending m ++ [MempoolTx.clone tx] /\
    inflight m' = inflight m /\ (forall n, room m (S n) -> room m' n).
Proof.
  intros Hm [Hr _] Hf Hh Hni. rewrite (hashes_app (R := R)), not_elem_of_app in Hni. destruct Hni as [Hp Hi].
  unfold receive. destruct (PendingTable.contains _ _) eqn:Ec; [by apply contains_spec in Ec|].
  unfold InflightTable.read. pose proof Hi as Hi'. rewrite in_flight_hash in Hi'.
  destruct (Wal.get _ _) as [r|] eqn:Eg; [by destruct Hi'; exists r|].
  destruct (pending_insert (pending m) (MempoolTx.hash tx) (MempoolTx.payload tx)) as (t' & -> & Hk & Hn & Hpk).
  - apply Hm.
  - done.
  - lia.
  - cbn [mbind run_bind].
    assert (Hpk' : PendingTable.peek t' = PendingTable.peek (pending m) ++ [MempoolTx.clone tx])
      by (rewrite Hpk; do 2 f_equal; symmetry; exact Hf).
    eexists. conj_split; [reflexivity| |exact Hpk'|done|].
    + constructor; cbn; try apply Hm; [done|].
      unfold peek_pending. cbn. rewrite Hpk', <- app_assoc. cbn [app].
      rewrite <- Permutation_middle, hashes_cons. apply NoDup_cons. split; [|apply Hm].
      rewrite hashes_app, not_elem_of_app. split; [done|]. by rewrite <- peek_values.
    + intros n [H1 H2]. split; cbn; [rewrite Hn|]; lia.
Qed.

(** Sending the drained rows. *)
Lemma send_all (l : list (TxHash * EraCbor)) : forall (s : TI * list Tx),
  let sent := (fun e => InflightRecord.to_mempool_tx (InflightRecord.new e.2) e.1) <$> l in
  tx_map (foldl send_one s l).1 = foldl EphemeralMempool.insert_tx (tx_map s.1) sent /\
  (forall r, r ∈ rows (foldl send_one s l).1 -> r ∈ rows s.1 \/ r.1 ∈ l.*1).
Proof.
  induction l as [|e l IH]; intros s; cbn [foldl fmap list_fmap]; [split; [done|auto]|].
  destruct (IH (send_one s e)) as [Ht Hr]. split.
  - cbn zeta in Ht |- *. rewrite Ht. cbn [send_one fst]. by rewrite tx_map_write.
  - intros r Hin. apply Hr in Hin as [Hin|Hin]; [|right; by right].
    cbn in Hin. unfold InflightTable.write in Hin. destruct r as [k v]. apply insert_row_spec in Hin as [[-> _]|[_ Hin]].
    + right. left.
    + by left.
Qed.

Lemma redb_mark_inflight_ok (m : M) hashes : ok m ->
  exists m' ev, mark_inflight (R := R) m hashes = Ret (Ok (m', ev)) /\ ok m' /\
    peek_pending (R := R) m' = filter (fun tx => MempoolTx.hash tx ∉ hashes) (peek_pending m) /\
    peek_inflight (R := R) m' ≡ₚ peek_inflight m ++
      ((fun tx => tx <| MempoolTx.stage := Propagated |>) <$>
         filter (fun tx => MempoolTx.hash tx ∈ hashes) (peek_pending m)) /\
    (forall n, room m n -> room m' n).
Proof.
  intros Hm. unfold mark_inflight, PendingTable.drain_by_hashes. cbn [fst snd]. rewrite iter_rows.
  set (drained := _ <$> filter _ (rows (pending m))). set (p' := extract_from_if _ _ _ _).
  set (moved := filter (fun tx => MempoolTx.hash tx ∈ hashes) (peek_pending (R := R) m)).
  set (send := fun tx : Tx => tx <| MempoolTx.stage := Propagated |>).
  destruct (send_all drained (inflight m, [])) as [Ht Hr]. cbn [fst] in Ht, Hr.
  assert (Hsent : (fun e => InflightRecord.to_mempool_tx (InflightRecord.new e.2) e.1) <$> drained = send <$> moved).
  { unfold drained, moved. rewrite peek_rows, filter_of_fmap, <- !list_fmap_compose. done. }
  assert (Hrows : rows p' = filter (fun r => DbPendingKey.hash r.1 ∉ hashes) (rows (pending m))).
  { unfold p'. rewrite extract_spec. apply list_filter_iff. intros r. cbn.
    rewrite negb_True, bool_decide_spec. done. }
  assert (Hpk : PendingTable.peek (R := R) p' = filter (fun tx => MempoolTx.hash tx ∉ hashes) (peek_pending m)).
  { unfold PendingTable.peek. rewrite iter_rows, Hrows, peek_rows, filter_of_fmap. done. }
  assert (Honce : NoDup (hashes_of (PendingTable.peek (R := R) p' ++ (send <$> moved) ++ values (tx_map (inflight m))))).
  { rewrite app_assoc, hashes_app, Hpk. unfold moved.
    rewrite (split_hashes (fun tx => MempoolTx.hash tx ∈ hashes)), <- hashes_app by done. apply Hm. }
  rewrite Hsent in Ht.
  destruct (values_add (send <$> moved) (tx_map (inflight m))) as [Hv Hk].
  { apply tx_map_keyed. }
  { rewrite hashes_app in Honce. by apply NoDup_app in Honce as (_ & _ & Honce). }
  rewrite <- Ht in Hv. set (i' := (foldl send_one _ drained).1) in *.
  destruct (seq_keyed_sub 32 (pending m) p') as [Hpk' Hn']; [|apply Hm|].
  { intros r. rewrite Hrows, list_elem_of_filter. by intros [_ ?]. }
  eexists (RedbMempool.mk p' i' (finalized m)), _. conj_split; [reflexivity| |done| |].
  - constructor; cbn; try apply Hm; try done.
    + intros r Hi. apply Hr in Hi as [Hi|Hi]; [by apply (ok_hashes _ Hm)|].
      apply list_elem_of_fmap in Hi as (e & -> & He). apply list_elem_of_fmap in He as (x & -> & Hx).
      apply list_elem_of_filter in Hx as [_ Hx]. destruct (ok_pending _ Hm x Hx) as (sq & h & _ & Hh & E).
      cbn. by rewrite E, hash_new.
    + rewrite Hv. apply Forall_app. split; [apply Hm|]. apply Forall_fmap, filter_Forall.
      rewrite peek_rows. apply Forall_fmap, Forall_true. intros x. cbn. by apply propagated_form.
    + rewrite Hv, (Permutation_app_comm (values _)). exact Honce.
  - rewrite !peek_values. cbn [inflight]. by rewrite Hv.
  - intros n [H1 H2]. split; cbn; lia.
Qed.

Lemma values_fmap (f : Tx -> Tx) (a : gmap (list Z) Tx) : values (f <$> a) ≡ₚ f <$> values a.
Proof. unfold values. by rewrite map_to_list_fmap, <- !list_fmap_compose. Qed.

Definition ack_if (hashes : list TxHash) (tx : Tx) : Tx :=
  if bool_decide (MempoolTx.hash tx ∈ hashes /\ MempoolTx.stage tx = Propagated)
  then tx <| MempoolTx.stage := Acknowledged |> else tx.

Lemma acknowledge_one_spec (s : TI * list Tx) h :
  tx_map (acknowledge_one s h).1 = ack_if [h] <$> tx_map s.1 /\
  (forall r, r ∈ rows (acknowledge_one s h).1 -> exists r', r' ∈ rows s.1 /\ r'.1 = r.1).
Proof.
  unfold acknowledge_one, InflightTable.read.
  assert (Hsame : (forall r, Wal.get s.1 h = Some r -> InflightRecord.stage r ≠ IPropagated) ->
                  tx_map s.1 = ack_if [h] <$> tx_map s.1).
  { intros Hs. apply map_eq. intros k. rewrite lookup_fmap, tx_map_lookup.
    destruct (Wal.get s.1 k) as [r|] eqn:Er; [|done]. cbn. f_equal. unfold ack_if.
    rewrite bool_decide_false; [done|]. intros [Hk%list_elem_of_singleton Hst]. cbn in *. subst k.
    destruct (Hs r Er). by destruct (InflightRecord.stage r). }
  destruct (Wal.get s.1 h) as [r|] eqn:Er; [|split; [by apply Hsame|eauto]].
  unfold InflightRecord.acknowledge. case_bool_decide as Hst; cbn [fst snd].
  - split.
    + rewrite tx_map_write. apply map_eq. intros k. rewrite lookup_fmap.
      destruct (decide (k = h)) as [->|Hk].
      * rewrite lookup_insert_eq, tx_map_lookup, Er. cbn. f_equal. unfold ack_if.
        rewrite bool_decide_true; [done|]. cbn. rewrite Hst. split; [left|done].
      * rewrite lookup_insert_ne by done. rewrite tx_map_lookup. destruct (Wal.get s.1 k); [|done].
        cbn. f_equal. unfold ack_if. rewrite bool_decide_false; [done|].
        by intros [?%list_elem_of_singleton _].
    + intros [k v] Hi. apply insert_row_spec in Hi as [[-> _]|[_ Hi]]; [|eauto].
      apply get_spec in Er. by exists (h, r).
  - split; [|eauto]. apply Hsame. by intros r' [= <-].
Qed.

Lemma ack_if_cons h hashes tx : ack_if hashes (ack_if [h] tx) = ack_if (h :: hashes) tx.
Proof.
  unfold ack_if at 2. case_bool_decide as H1; unfold ack_if; cbn.
  - destruct H1 as [<-%list_elem_of_singleton Hs]. rewrite bool_decide_false by (by intros [_ ?]).
    by rewrite bool_decide_true by (split; [left|done]).
  - apply if_bool_decide_iff. rewrite elem_of_cons. rewrite list_elem_of_singleton in H1. naive_solver.
Qed.

Lemma acknowledge_all hashes : forall (s : TI * list Tx),
  tx_map (foldl acknowledge_one s hashes).1 = ack_if hashes <$> tx_map s.1 /\
  (forall r, r ∈ rows (foldl acknowledge_one s hashes).1 -> exists r', r' ∈ rows s.1 /\ r'.1 = r.1).
Proof.
  induction hashes as [|h hashes IH]; intros s; cbn [foldl].
  - split; [|eauto]. apply map_eq. intros k. rewrite lookup_fmap. destruct (tx_map s.1 !! k); [|done].
    cbn. unfold ack_if. rewrite bool_decide_false; [done|]. by intros [?%elem_of_nil _].
  - destruct (acknowledge_one_spec s h) as [Ht1 Hr1]. destruct (IH (acknowledge_one s h)) as [Ht2 Hr2].
    split.
    + rewrite Ht2, Ht1, <- map_fmap_compose. apply map_fmap_ext. intros k tx _. apply ack_if_cons.
    + intros r Hr. destruct (Hr2 r Hr) as (r1 & Hi & E). destruct (Hr1 r1 Hi) as (r2 & Hi2 & E2).
      exists r2. split; [done|congruence].
Qed.

Lemma ack_if_acked hashes tx : acked hashes tx (ack_if hashes tx).
Proof. unfold ack_if. case_bool_decide as Ha; [right; naive_solver|by left]. Qed.

Lemma redb_mark_acknowledged_ok (m : M) hashes : ok m ->
  exists m' ev, mark_acknowledged (R := R) m hashes = Ret (Ok (m', ev)) /\ ok m' /\
    pending m' = pending m /\ finalized m' = finalized m /\
    peek_inflight (R := R) m' ≡ₚ ack_if hashes <$> peek_inflight m.
Proof.
  intros Hm. unfold mark_acknowledged. destruct (acknowledge_all hashes (inflight m, [])) as [Ht Hr].
  set (s := foldl acknowledge_one _ hashes) in *. cbn [fst] in Ht, Hr.
  assert (Hv : values (tx_map s.1) ≡ₚ ack_if hashes <$> values (tx_map (inflight m)))
    by (rewrite Ht; apply values_fmap).
  eexists (m <| inflight := s.1 |>), s.2. conj_split; [done| |done|done|].
  - constructor; cbn; try apply Hm.
    + intros r Hi. destruct (Hr r Hi) as (r' & Hi' & <-). by apply (ok_hashes _ Hm).
    + rewrite Hv. apply Forall_fmap. eapply Forall_impl; [apply Hm|]. intros tx Hf. cbn.
      eapply acked_form; [done|apply ack_if_acked].
    + rewrite hashes_app, Hv. replace (hashes_of (ack_if hashes <$> _)) with (hashes_of (values (tx_map (inflight m)))).
      * rewrite <- hashes_app. apply Hm.
      * symmetry. apply (hashes_acked hashes), Forall2_fmap_r, Forall_Forall2_diag, Forall_true.
        apply ack_if_acked.
  - rewrite !peek_values. exact Hv.
Qed.

Section confirm.
Variables (point : ChainPoint.t) (seen unseen : list TxHash) (fin drop : Z).
Hypotheses (Hfin : is_u32 fin) (Hdrop : is_u32 drop) (Hpoint : storable point).
Abbreviation outcome := (outcome (R := R) point seen unseen fin drop).
Abbreviation kept := (kept (R := R) point seen unseen fin drop).
Abbreviation retried := (retried (R := R) point seen unseen fin drop).
Abbreviation departed := (departed (R := R) point seen unseen fin drop).

Definition entry_tx (e : TxHash * InflightRecord.t) : Tx := InflightRecord.to_mempool_tx e.2 e.1.

(** A record and its transaction are confirmed, and age, together. *)
Lemma record_confirm h r : inflight_form (entry_tx (h, r)) ->
  exists r', InflightRecord.confirm r point = Ret r' /\ InflightRecord.stage r' = IConfirmed /\
    InflightRecord.confirmations r' = InflightRecord.confirmations r + 1 /\
    InflightRecord.to_mempool_tx r' h = confirmed point (entry_tx (h, r)).
Proof.
  unfold entry_tx.
  intros Hf. pose proof (form_confirmations _ Hf) as Hc. cbn in Hc. unfold u_max in Hc.
  unfold InflightRecord.confirm. cbn. rewrite uadd_exact by (unfold is_u; lia). cbn.
  unfold InflightRecord.to_mempool_tx, confirmed. destruct r as [st c p [b|] nc];
    cbn; eexists; conj_split; try done.
  cbn. by rewrite Hpoint.
Qed.

Lemma record_stale h r : inflight_form (entry_tx (h, r)) ->
  InflightRecord.mark_stale r =
    Ret (r <| InflightRecord.non_confirmations := InflightRecord.non_confirmations r + 1 |>).
Proof.
  intros Hf. pose proof (form_non_confirmations _ Hf) as Hc. cbn in Hc. unfold u_max in Hc.
  unfold InflightRecord.mark_stale. by rewrite uadd_exact by (unfold is_u; lia).
Qed.

(** What a loop needs for [n] more steps. *)
Definition ready (s : M * list Tx) (n : nat) : Prop :=
  seq_keyed 32 (pending s.1) /\ seq_keyed 0 (finalized s.1) /\ room s.1 n /\
  (forall r, r ∈ rows (inflight s.1) -> length r.1 = 32%nat).

Abbreviation carries := (carries_out point seen unseen fin drop (S := M * list Tx)
  (fun s => peek_pending s.1) (fun s => filter leaving s.2) snd (fun s => tx_map (inflight s.1))).

Lemma carries_intro s tx m' ev :
  peek_pending m' = peek_pending s.1 ++ omap retried [tx] ->
  tx_map (inflight m') = settle point seen unseen fin drop (tx_map (inflight s.1)) tx ->
  filter leaving ev = omap departed [tx] -> carries s tx (m', s.2 ++ ev).
Proof.
  intros Hq Ht He. unfold carries_out. cbn [fst snd]. rewrite filter_app, He. conj_split; try done.
  intros x. rewrite <- He, elem_of_app, list_elem_of_filter. tauto.
Qed.

(** Removing, rewriting and finalizing keep the tables well formed. *)
Lemma remove_hashes (t : TI) h : (forall r, r ∈ rows t -> length r.1 = 32%nat) ->
  forall r, r ∈ rows (InflightTable.remove t h) -> length r.1 = 32%nat.
Proof.
  intros Hl r. unfold InflightTable.remove. rewrite remove_row_spec, list_elem_of_filter.
  intros [_ Hi]. by apply Hl.
Qed.

Lemma write_hashes (t : TI) h r :
  tx_map t !! h ≠ None -> (forall x, x ∈ rows t -> length x.1 = 32%nat) ->
  forall x, x ∈ rows (InflightTable.write t h r) -> length x.1 = 32%nat.
Proof.
  rewrite tx_map_lookup. intros Hh Hl [k v] Hx. apply insert_row_spec in Hx as [[-> _]|[_ Hi]]; [|by apply Hl].
  destruct (Wal.get t h) as [r0|] eqn:Eg; [|done]. apply get_spec in Eg. by apply (Hl (h, r0)).
Qed.

(** The three ways a step can end. *)
Lemma step_keep s e n r' ev :
  ready s (1 + n) -> tx_map (inflight s.1) !! e.1 = Some (entry_tx e) ->
  outcome (entry_tx e) = Kept (entry_tx (e.1, r')) -> filter leaving ev = [] ->
  let s' := (s.1 <| inflight := InflightTable.write (inflight s.1) e.1 r' |>, s.2 ++ ev) in
  ready s' n /\ carries s (entry_tx e) s'.
Proof.
  intros (Hp & Hf & [Hr1 Hr2] & Hl) Ht Ho Hev s'. split.
  - unfold ready, s', room. cbn. conj_split; try done; try lia. apply write_hashes; [|done]. by rewrite Ht.
  - apply carries_intro; unfold omap, list_omap, Mempool.retried, Mempool.departed; cbn [inflight]; rewrite ?Ho.
    + by rewrite app_nil_r.
    + unfold s'. cbn. rewrite tx_map_write. unfold settle, Mempool.kept. by rewrite Ho.
    + done.
Qed.

Lemma step_leave s e n x entry :
  ready s (1 + n) -> outcome (entry_tx e) = Left x -> leaving x ->
  exists f, FinalizedTable.append (finalized s.1) entry = Ret f /\
    let s' := ((s.1 <| inflight := InflightTable.remove (inflight s.1) e.1 |>) <| finalized := f |>, s.2 ++ [x]) in
    ready s' n /\ carries s (entry_tx e) s'.
Proof.
  intros (Hp & Hf & [Hr1 Hr2] & Hl) Ho Hx.
  destruct (finalized_append (finalized s.1) entry Hf) as (f & Ef & Hf' & Hn'); [lia|].
  exists f. split; [done|]. split.
  - unfold ready, room. cbn. conj_split; try done; try lia. by apply remove_hashes.
  - apply carries_intro; unfold omap, list_omap, Mempool.retried, Mempool.departed; rewrite ?Ho.
    + by rewrite app_nil_r.
    + cbn. rewrite tx_map_remove. unfold settle, Mempool.kept. by rewrite Ho.
    + by rewrite filter_cons_True.
Qed.

Lemma step_requeue s e n ev :
  ready s (1 + n) -> tx_map (inflight s.1) !! e.1 = Some (entry_tx e) ->
  outcome (entry_tx e) = Retried (requeued (entry_tx e)) -> filter leaving ev = [] ->
  exists p, PendingTable.insert (pending s.1) e.1 (InflightRecord.payload e.2) = Ret p /\
    let s' := ((s.1 <| inflight := InflightTable.remove (inflight s.1) e.1 |>) <| pending := p |>, s.2 ++ ev) in
    ready s' n /\ carries s (entry_tx e) s'.
Proof.
  intros (Hp & Hf & [Hr1 Hr2] & Hl) Ht Ho Hev.
  assert (Hh : length e.1 = 32%nat).
  { rewrite tx_map_lookup in Ht. destruct (Wal.get _ _) as [r|] eqn:Eg; [|done].
    apply get_spec in Eg. by apply (Hl (e.1, r)). }
  destruct (pending_insert (pending s.1) e.1 (InflightRecord.payload e.2) Hp Hh) as (p & Ep & Hp' & Hn' & Hpk); [lia|].
  exists p. split; [done|]. split.
  - unfold ready, room. cbn. conj_split; try done; try lia. by apply remove_hashes.
  - apply carries_intro; unfold omap, list_omap, Mempool.retried, Mempool.departed; rewrite ?Ho.
    + exact Hpk.
    + cbn. rewrite tx_map_remove. unfold settle, Mempool.kept. by rewrite Ho.
    + done.
Qed.

(** A record that gains a confirmation. *)
Lemma step_confirm s e n :
  ready s (1 + n) -> tx_map (inflight s.1) !! e.1 = Some (entry_tx e) -> inflight_form (entry_tx e) ->
  confirms seen unseen (entry_tx e) = true ->
  exists s', (r ← InflightRecord.confirm e.2 point; confirm_or_finalize fin s.1 s.2 e.1 r) = Ret s' /\
    ready s' n /\ carries s (entry_tx e) s'.
Proof.
  intros Hr Ht Hf Hc. destruct e as [h r]. cbn [fst snd].
  destruct (record_confirm h r Hf) as (r' & -> & Hst & Hcn & Htx).
  cbn [mbind run_bind fst snd] in *. unfold confirm_or_finalize, InflightRecord.is_finalizable.
  rewrite bool_decide_true, Hcn by done. cbn [andb]. rewrite Htx.
  assert (Ho : outcome (entry_tx (h, r)) =
    if fin <=? InflightRecord.confirmations r + 1
    then Left ((confirmed point (entry_tx (h, r))) <| MempoolTx.stage := Finalized |>)
    else Kept (confirmed point (entry_tx (h, r)))) by (unfold Mempool.outcome; by rewrite Hc).
  destruct (fin <=? _).
  - destruct (step_leave s (h, r) n _ (InflightRecord.into_finalized_entry r' h) Hr Ho) as (f & Ef & Hs).
    + by left.
    + cbn [finalized]. change (finalized (s.1 <| inflight := _ |>)) with (finalized s.1). rewrite Ef.
      cbn [mbind run_bind]. eexists. split; [reflexivity|]. exact Hs.
  - rewrite <- Htx in Ho |- *. eexists. split; [reflexivity|]. apply (step_keep s (h, r) n r'); try done.
    rewrite Htx. rewrite filter_cons_False; [done|]. unfold leaving. cbn. naive_solver.
Qed.

Lemma redb_confirm_step s e n :
  ready s (1 + n) -> tx_map (inflight s.1) !! MempoolTx.hash (entry_tx e) = Some (entry_tx e) ->
  inflight_form (entry_tx e) ->
  exists s', confirm_one point seen unseen fin drop s e = Ret s' /\ ready s' n /\ carries s (entry_tx e) s'.
Proof.
  intros Hr Ht Hf. change (MempoolTx.hash (entry_tx e)) with e.1 in Ht. unfold confirm_one.
  case_bool_decide as Hs.
  { apply step_confirm; try done. unfold confirms. by rewrite bool_decide_true. }
  case_bool_decide as Hu.
  { assert (Ho : outcome (entry_tx e) = Retried (requeued (entry_tx e))).
    { unfold Mempool.outcome, confirms. cbn [entry_tx MempoolTx.hash InflightRecord.to_mempool_tx].
      by rewrite (bool_decide_false _ Hs), (bool_decide_true _ Hu). }
    destruct (step_requeue s e n [MempoolTx.retry (InflightRecord.to_mempool_tx (InflightRecord.retry e.2) e.1)]
      Hr Ht Ho) as (p & Ep & Hst).
    - rewrite filter_cons_False; [done|]. unfold leaving. cbn. naive_solver.
    - change (pending (s.1 <| inflight := _ |>)) with (pending s.1).
      change (InflightRecord.payload (InflightRecord.retry e.2)) with (InflightRecord.payload e.2).
      rewrite Ep. cbn [mbind run_bind]. eexists. split; [reflexivity|]. exact Hst. }
  case_bool_decide as Hst.
  { apply step_confirm; try done. unfold confirms. cbn.
    by rewrite (bool_decide_false _ Hs), (bool_decide_false _ Hu), Hst. }
  assert (Hc : confirms seen unseen (entry_tx e) = false).
  { unfold confirms. cbn. rewrite (bool_decide_false _ Hs), (bool_decide_false _ Hu). cbn.
    apply bool_decide_false. by destruct (InflightRecord.stage e.2). }
  destruct e as [h r]. cbn [fst snd] in *. rewrite (record_stale h r Hf). cbn [mbind run_bind].
  set (r' := r <| InflightRecord.non_confirmations := _ |>).
  assert (Ho : outcome (entry_tx (h, r)) =
    if drop <=? InflightRecord.non_confirmations r'
    then Left ((entry_tx (h, r')) <| MempoolTx.stage := Dropped |>) else Kept (entry_tx (h, r'))).
  { unfold Mempool.outcome. rewrite Hc. cbn [entry_tx MempoolTx.hash InflightRecord.to_mempool_tx fst].
    by rewrite (bool_decide_false _ Hu). }
  unfold InflightRecord.is_droppable. destruct (drop <=? _).
  - destruct (step_leave s (h, r) n _ (InflightRecord.into_dropped_entry r' h) Hr Ho) as (f & Ef & Hs').
    + by right.
    + change (finalized (s.1 <| inflight := _ |>)) with (finalized s.1). rewrite Ef.
      cbn [mbind run_bind]. eexists. split; [reflexivity|]. exact Hs'.
  - eexists. split; [reflexivity|]. rewrite <- (app_nil_r s.2).
    apply (step_keep s (h, r) n r' []); done.
Qed.

(** Carrying out the block on every in-flight transaction. *)
Lemma redb_confirm_loop (m : M) n : ok m -> room m (length (peek_inflight (R := R) m) + n) ->
  exists s', run_foldl (confirm_one point seen unseen fin drop) (m, []) (rows (inflight m)) = Ret s' /\
    ready s' n /\
    peek_pending s'.1 = peek_pending m ++ omap retried (peek_inflight m) /\
    tx_map (inflight s'.1) = omap kept (tx_map (inflight m)) /\
    (forall x, (x ∈ s'.2 /\ leaving x) <-> x ∈ omap departed (peek_inflight m)).
Proof.
  intros Hm Hroom.
  assert (Hpk : peek_inflight m = entry_tx <$> rows (inflight m))
    by (unfold peek_inflight, InflightTable.peek; by rewrite iter_rows).
  assert (Hn : NoDup (hashes_of (peek_inflight (R := R) m))).
  { rewrite Hpk. unfold hashes_of. rewrite <- list_fmap_compose. apply rows_keys_once. }
  assert (Hin : forall tx, tx ∈ peek_inflight m -> tx_map (inflight m) !! MempoolTx.hash tx = Some tx /\ inflight_form tx).
  { intros tx. rewrite peek_values. intros Htx. split; [by apply keyed_values; [apply tx_map_keyed|]|].
    pose proof (ok_inflight _ Hm) as Hf. rewrite Forall_forall in Hf. by apply Hf. }
  destruct (carry_out_all point seen unseen fin drop (confirm_one point seen unseen fin drop) entry_tx
    (fun s => peek_pending s.1) (fun s => filter leaving s.2) snd (fun s => tx_map (inflight s.1)) ready
    redb_confirm_step (rows (inflight m)) (m, []) n) as (s' & Hr & Hrd & Hq & _ & Ht & He).
  - by rewrite <- Hpk.
  - rewrite Hpk, length_fmap in Hroom. unfold ready. cbn. conj_split; try apply Hm; apply Hroom.
  - rewrite <- Hpk. exact Hin.
  - rewrite <- Hpk in *. exists s'. conj_split; try done.
    + rewrite Ht. apply settle_all; [done|apply Hin|]. intros h tx Htx. unfold hashes_of.
      rewrite <- (tx_map_keyed _ _ _ Htx). apply list_elem_of_fmap_2. rewrite peek_values.
      apply elem_of_values. by exists h.
    + intros x. rewrite He. cbn. set_solver.
Qed.

Lemma redb_confirm_ok (m : M) : ok m -> room m (length (peek_inflight (R := R) m)) ->
  exists m' ev, confirm point seen unseen fin drop m = Ret (Ok (m', ev)) /\ ok m' /\
    peek_pending m' = peek_pending m ++ omap retried (peek_inflight m) /\
    peek_inflight m' ≡ₚ omap kept (peek_inflight m) /\
    (forall tx, (tx ∈ ev /\ leaving tx) <-> tx ∈ omap departed (peek_inflight m)) /\
    (forall n, room m (n + length (peek_inflight (R := R) m)) -> room m' n).
Proof.
  intros Hm Hroom. destruct (redb_confirm_loop m 0 Hm) as (s' & Hr & (Hp & Hf & _ & Hl) & Hq & Ht & He).
  { by rewrite Nat.add_0_r. }
  exists s'.1, s'.2. unfold confirm, InflightTable.collect_all. rewrite iter_rows, Hr. cbn [mbind run_bind].
  assert (Hv : values (tx_map (inflight s'.1)) ≡ₚ omap kept (peek_inflight m))
    by (rewrite Ht, values_omap; by rewrite peek_values).
  conj_split; [by destruct s'| |done|by rewrite peek_values|done|].
  - constructor; [done|done|done| |].
    + rewrite Hv. apply kept_forms; try done. rewrite peek_values. apply Hm.
    + rewrite Hv, Hq. apply outcomes_once. rewrite peek_values. apply Hm.
  - intros n Hn. destruct (redb_confirm_loop m n Hm) as (s2 & Hr2 & (_ & _ & Hroom' & _) & _).
    { by rewrite Nat.add_comm. }
    rewrite Hr in Hr2. by injection Hr2 as ->.
Qed.

End confirm.

#[export] Program Instance store : Store.MempoolStore R M := {|
  Store.receive := receive;
  Store.has_pending := has_pending;
  Store.peek_pending := peek_pending;
  Store.mark_inflight := mark_inflight;
  Store.mark_acknowledged := mark_acknowledged;
  Store.find_inflight := find_inflight;
  Store.peek_inflight := peek_inflight;
  Store.confirm := confirm;
  Store.check_status := check_status;
  Store.ok := ok;
  Store.room := room;
|}.
Next Obligation. intros m n n' [H1 H2] Hn. split; lia. Qed.
Next Obligation. intros m Hm. rewrite peek_rows. by apply Forall_fmap, Forall_true. Qed.
Next Obligation. intros m Hm. rewrite peek_values. apply Hm. Qed.
Next Obligation. intros m Hm. rewrite peek_values. apply Hm. Qed.
Next Obligation.
  intros m Hm. rewrite peek_rows. unfold has_pending, PendingTable.has_any. rewrite iter_rows.
  by destruct (rows (pending m)).
Qed.
Next Obligation.
  intros m tx Hm Hi. unfold receive. by rewrite (proj2 (contains_spec m _) Hi).
Qed.
Next Obligation.
  intros m tx Hm Hr Hf Hh Hni. destruct (redb_receive_ok m tx Hm Hr Hf Hh Hni) as (m' & ? & ? & ? & Hi & ?).
  exists m'. conj_split; try done. unfold peek_inflight. by rewrite Hi.
Qed.
Next Obligation. intros m hashes Hm. by apply redb_mark_inflight_ok. Qed.
Next Obligation.
  intros m hashes Hm. destruct (redb_mark_acknowledged_ok m hashes Hm) as (m' & ev & ? & ? & Hp & Hf & Hi).
  exists m', ev, (peek_inflight m), (ack_if hashes <$> peek_inflight m). conj_split; try done.
  - unfold peek_pending. by rewrite Hp.
  - apply Forall2_fmap_r, Forall_Forall2_diag, Forall_true. apply ack_if_acked.
  - intros n. unfold room. by rewrite Hp, Hf.
Qed.
Next Obligation.
  intros m h tx Hm. rewrite peek_values. unfold find_inflight, InflightTable.get. rewrite <- tx_map_lookup.
  split.
  - intros Ht. pose proof (tx_map_keyed _ _ _ Ht) as Hh. cbn in Hh. subst h. split; [|done].
    apply elem_of_values. by eexists.
  - intros [Hv <-]. by apply keyed_values in Hv; [|apply tx_map_keyed].
Qed.
Next Obligation.
  intros point seen unseen fin drop m Hm Hf Hd Hp Hr.
  destruct (redb_confirm_ok point seen unseen fin drop Hf Hd Hp m Hm Hr) as (m' & ev & ? & ? & ? & ? & ? & ?).
  exists m', ev, (omap (retried point seen unseen fin drop) (peek_inflight m)). by conj_split.
Qed.
Next Obligation.
  intros m h Hm. unfold check_status, find_inflight. destruct (InflightTable.get _ _); [done|]. cbn.
  destruct (PendingTable.contains _ _) eqn:Ec.
  - apply contains_spec in Ec. by rewrite bool_decide_true.
  - rewrite bool_decide_false; [done|]. intros Hi. apply contains_spec in Hi. congruence.
Qed.

End refinement.
End Redb.

(** ** The two backends agree *)

Section agreement.
Context {TP TI TF : Type} `{!RedbTable TP (Z * list Z), !RedbTable TI InflightRecord.t}.
Context `{!RedbTable TF FinalizedEntry.t} {R : Type} `{BuildCfg, !HashOrder (MempoolTx.t R)}.
Existing Instances Ephemeral.store Redb.store.

(** Two backends that track the same transactions report the same statuses. *)
Lemma same_status {M N} `{!Store.MempoolStore R M, !Store.MempoolStore R N} (m : M) (n : N) h :
  Store.ok m -> Store.ok n -> Store.peek_pending m ≡ₚ Store.peek_pending n ->
  Store.peek_inflight m ≡ₚ Store.peek_inflight n -> Store.check_status m h = Store.check_status n h.
Proof.
  intros Hm Hn Hp Hi. rewrite !Store.check_status_spec by done.
  assert (Hf : Store.find_inflight m h = Store.find_inflight n h).
  { apply option_eq. intros tx. rewrite !Store.find_inflight_spec, Hi by done. done. }
  rewrite Hf. destruct (Store.find_inflight n h); [done|]. apply if_bool_decide_iff. by rewrite Hp.
Qed.

(** C26: the two mempools are interchangeable: the in-memory and the durable
    backend, tracking the same transactions, both accept a block or an undone block, whatever it
    contains and whatever the thresholds, end up tracking the same transactions, and
    report the same status for every hash. *)
Theorem backends_agree point seen unseen fin drop (e : EphemeralMempool.t R) (d : RedbMempool.t TP TI TF) :
  Ephemeral.ok e -> Redb.ok (R := R) d -> is_u32 fin -> is_u32 drop -> storable point ->
  Redb.room d (length (RedbMempool.peek_inflight (R := R) d)) ->
  EphemeralMempool.peek_pending e ≡ₚ RedbMempool.peek_pending d ->
  EphemeralMempool.peek_inflight e ≡ₚ RedbMempool.peek_inflight d ->
  exists e' d' ev ev', EphemeralMempool.confirm point seen unseen fin drop e = Ret (Ok (e', ev)) /\
    RedbMempool.confirm (R := R) point seen unseen fin drop d = Ret (Ok (d', ev')) /\
    EphemeralMempool.peek_pending e' ≡ₚ RedbMempool.peek_pending d' /\
    EphemeralMempool.peek_inflight e' ≡ₚ RedbMempool.peek_inflight d' /\
    forall h, EphemeralMempool.check_status e' h = RedbMempool.check_status d' h.
Proof.
  intros He Hd Hf Hdr Hp Hr Hpp Hii.
  destruct (Ephemeral.confirm_ok point seen unseen fin drop Hf Hdr Hp e He)
    as (e' & ev & rq & gone & Ee & Hoke & Hpe & Hrq & Hie & _).
  destruct (Redb.redb_confirm_ok point seen unseen fin drop Hf Hdr Hp d Hd Hr) as (d' & ev' & Ed & Hokd & Hpd & Hid & _).
  assert (Hpend : EphemeralMempool.peek_pending e' ≡ₚ RedbMempool.peek_pending d')
    by (rewrite Hpe, Hpd, Hrq, Hpp; by rewrite Hii).
  assert (Hinfl : EphemeralMempool.peek_inflight e' ≡ₚ RedbMempool.peek_inflight d')
    by (rewrite Hie, Hid; by rewrite Hii).
  exists e', d', ev, ev'. conj_split; try done. intros h. exact (same_status e' d' h Hoke Hokd Hpend Hinfl).
Qed.

End agreement.

Module RedbDemo.
Import MempoolDemo.
Existing Instance MapTable.table.

(** The durable mempool that tracks what [MempoolDemo.mempool] tracks. *)
Definition records : gmap bytes InflightRecord.t :=
  {[hash 1 := InflightRecord.new (7, [1])]} ∪
  {[hash 2 := InflightRecord.mk IConfirmed 4 (7, [2])
                (Some (ChainPoint.into_bytes (ChainPoint.Specific 10 (hash 9)))) 0]}.

Definition db : RedbMempool.t (gmap bytes (Z * list Z)) (gmap bytes InflightRecord.t) (gmap bytes FinalizedEntry.t) :=
  RedbMempool.mk ∅ records ∅.

Lemma db_inflight : values (Redb.tx_map (R := unit) (RedbMempool.inflight db)) ≡ₚ [propagated; on_chain].
Proof. rewrite <- (Redb.peek_values db). by vm_compute. Qed.

Lemma no_rows {V} (r : bytes * V) : r ∉ rows (∅ : gmap bytes V).
Proof. destruct r as [k v]. intros Hr. by apply MapTable.elem_of_rows in Hr. Qed.

Lemma db_ok : Redb.ok (R := unit) db.
Proof.
  constructor.
  - intros r Hr. by apply no_rows in Hr.
  - intros r Hr. by apply no_rows in Hr.
  - intros [k v] Hr. apply MapTable.elem_of_rows in Hr.
    apply lookup_union_Some_raw in Hr as [Hr|[_ Hr]]; by apply lookup_singleton_Some in Hr as [<- _].
  - rewrite db_inflight. constructor; [|constructor; [apply on_chain_form|constructor]].
    by apply Ephemeral.waiting_inflight.
  - rewrite db_inflight. apply (bool_decide_unpack _). by vm_compute.
Qed.

(** A block with the propagated transaction undoes the one on chain. *)
Lemma backends_agree_witness :
  exists e' d' ev ev',
    EphemeralMempool.confirm (ChainPoint.Specific 10 (hash 9)) [hash 1] [hash 2] 6 2 mempool = Ret (Ok (e', ev)) /\
    RedbMempool.confirm (R := unit) (ChainPoint.Specific 10 (hash 9)) [hash 1] [hash 2] 6 2 db = Ret (Ok (d', ev')) /\
    EphemeralMempool.peek_pending e' ≡ₚ RedbMempool.peek_pending d' /\
    EphemeralMempool.peek_inflight e' ≡ₚ RedbMempool.peek_inflight d' /\
    forall h, EphemeralMempool.check_status e' h = RedbMempool.check_status d' h.
Proof.
  apply (backends_agree (ChainPoint.Specific 10 (hash 9)) [hash 1] [hash 2] 6 2 mempool db).
  - exact mempool_ok.
  - exact db_ok.
  - done.
  - done.
  - exact point_storable.
  - vm_compute. by split.
  - by vm_compute.
  - by vm_compute.
Defined.

End RedbDemo.
