(* ===== verification/CardanoModel.v ===== *)
(** * The ledger entity and delta sums (cardano/src/model/mod.rs)

    [CardanoEntity] and [CardanoDelta] gather the entity types and the
    sixty-four deltas.  A delta is applied to the sum through a downcast; the
    contract of each delta lifts to the sum. *)

From S2P Require Import Prelude Types EpochValue EntityDelta Eras PParams Forks Ratio Pots.
From S2P Require Import Accounts Pools DReps Datums Assets Pending Epochs Proposals Gov.
Open Scope Z_scope.

(** ** The archive log rows (cardano/src/model/logs.rs) *)

Module StakeLog.

(** [relative_size] is an [f64], kept as its bits. *)
Record t := mk {
  blocks_minted : Z;
  total_stake : Z;
  relative_size : Z;
  delegators_count : Z;
  live_pledge : Z;
  declared_pledge : Z;
  total_rewards : Z;
  operator_share : Z;
  fixed_cost : Z;
  margin_cost : option RationalNumber;
}.

#[global] Instance entity : Entity t := {| NS := "stakes"; entity_wf _ := True |}.

End StakeLog.

Module AccountEpochLog.

Record t := mk {
  active_stake : option Z;
  pool_id : option PoolHash;
  member_reward : option Z;
  leader_rewards : list (PoolHash * Z);
  deposit_refunds : list (PoolHash * Z);
}.

Definition is_empty (l : t) : bool :=
  is_none (active_stake l) && is_none (member_reward l) &&
  match leader_rewards l with [] => true | _ => false end &&
  match deposit_refunds l with [] => true | _ => false end.

#[global] Instance entity : Entity t := {| NS := "account-epochs"; entity_wf _ := True |}.

End AccountEpochLog.

#[export] Instance era_entity : Entity EraSummary.t := {| NS := "eras"; entity_wf _ := True |}.

(** ** The entity sum *)

Module CardanoEntity.

Inductive t :=
| EEraSummary (x : EraSummary.t)
| EAccountState (x : AccountState.t)
| EAssetState (x : AssetState.t)
| EPoolState (x : PoolState.t)
| EEpochState (x : EpochState.t)
| EDRepState (x : DRepState.t)
| EProposalState (x : ProposalState.t)
| EStakeLog (x : StakeLog.t)
| EDatumState (x : DatumState.t)
| EPendingRewardState (x : PendingRewardState.t)
| EPendingMirState (x : PendingMirState.t)
| EGovState (x : GovState.t)
| EAccountEpochLog (x : AccountEpochLog.t).

(** The namespace [encode_entity] gives. *)
Definition namespace (e : t) : string :=
  match e with
  | EEraSummary _ => NS EraSummary.t
  | EAccountState _ => NS AccountState.t
  | EAssetState _ => NS AssetState.t
  | EPoolState _ => NS PoolState.t
  | EEpochState _ => NS EpochState.t
  | EDRepState _ => NS DRepState.t
  | EProposalState _ => NS ProposalState.t
  | EStakeLog _ => NS StakeLog.t
  | EDatumState _ => NS DatumState.t
  | EPendingRewardState _ => NS PendingRewardState.t
  | EPendingMirState _ => NS PendingMirState.t
  | EGovState _ => NS GovState.t
  | EAccountEpochLog _ => NS AccountEpochLog.t
  end.

Definition wf (e : t) : Prop :=
  match e with
  | EEraSummary x => entity_wf x
  | EAccountState x => entity_wf x
  | EAssetState x => entity_wf x
  | EPoolState x => entity_wf x
  | EEpochState x => entity_wf x
  | EDRepState x => entity_wf x
  | EProposalState x => entity_wf x
  | EStakeLog x => entity_wf x
  | EDatumState x => entity_wf x
  | EPendingRewardState x => entity_wf x
  | EPendingMirState x => entity_wf x
  | EGovState x => entity_wf x
  | EAccountEpochLog x => entity_wf x
  end.

End CardanoEntity.

(** [variant_boilerplate!]: the conversions between an entity type and the
    sum, with the laws the downcast relies on. *)
Class EntityVariant (T : Type) `{!Entity T} := {
  into : T -> CardanoEntity.t;
  downcast : CardanoEntity.t -> option T;
  downcast_into : forall x, downcast (into x) = Some x;
  into_namespace : forall x, CardanoEntity.namespace (into x) = NS T;
  namespace_into : forall e, CardanoEntity.namespace e = NS T -> exists x, e = into x;
  into_wf : forall x, CardanoEntity.wf (into x) <-> entity_wf x;
}.

Ltac variant := first [done | intros []; cbn; intros E; try discriminate E; eauto].

#[export] Program Instance EraSummary_variant : EntityVariant EraSummary.t :=
  {| into := CardanoEntity.EEraSummary;
     downcast e := match e with CardanoEntity.EEraSummary x => Some x | _ => None end |}.
Solve All Obligations with variant.

#[export] Program Instance AccountState_variant : EntityVariant AccountState.t :=
  {| into := CardanoEntity.EAccountState;
     downcast e := match e with CardanoEntity.EAccountState x => Some x | _ => None end |}.
Solve All Obligations with variant.

#[export] Program Instance AssetState_variant : EntityVariant AssetState.t :=
  {| into := CardanoEntity.EAssetState;
     downcast e := match e with CardanoEntity.EAssetState x => Some x | _ => None end |}.
Solve All Obligations with variant.

#[export] Program Instance PoolState_variant : EntityVariant PoolState.t :=
  {| into := CardanoEntity.EPoolState;
     downcast e := match e with CardanoEntity.EPoolState x => Some x | _ => None end |}.
Solve All Obligations with variant.

#[export] Program Instance EpochState_variant : EntityVariant EpochState.t :=
  {| into := CardanoEntity.EEpochState;
     downcast e := match e with CardanoEntity.EEpochState x => Some x | _ => None end |}.
Solve All Obligations with variant.

#[export] Program Instance DRepState_variant : EntityVariant DRepState.t :=
  {| into := CardanoEntity.EDRepState;
     downcast e := match e with CardanoEntity.EDRepState x => Some x | _ => None end |}.
Solve All Obligations with variant.

#[export] Program Instance ProposalState_variant : EntityVariant ProposalState.t :=
  {| into := CardanoEntity.EProposalState;
     downcast e := match e with CardanoEntity.EProposalState x => Some x | _ => None end |}.
Solve All Obligations with variant.

#[export] Program Instance StakeLog_variant : EntityVariant StakeLog.t :=
  {| into := CardanoEntity.EStakeLog;
     downcast e := match e with CardanoEntity.EStakeLog x => Some x | _ => None end |}.
Solve All Obligations with variant.

#[export] Program Instance DatumState_variant : EntityVariant DatumState.t :=
  {| into := CardanoEntity.EDatumState;
     downcast e := match e with CardanoEntity.EDatumState x => Some x | _ => None end |}.
Solve All Obligations with variant.

#[export] Program Instance PendingRewardState_variant : EntityVariant PendingRewardState.t :=
  {| into := CardanoEntity.EPendingRewardState;
     downcast e := match e with CardanoEntity.EPendingRewardState x => Some x | _ => None end |}.
Solve All Obligations with variant.

#[export] Program Instance PendingMirState_variant : EntityVariant PendingMirState.t :=
  {| into := CardanoEntity.EPendingMirState;
     downcast e := match e with CardanoEntity.EPendingMirState x => Some x | _ => None end |}.
Solve All Obligations with variant.

#[export] Program Instance GovState_variant : EntityVariant GovState.t :=
  {| into := CardanoEntity.EGovState;
     downcast e := match e with CardanoEntity.EGovState x => Some x | _ => None end |}.
Solve All Obligations with variant.

#[export] Program Instance AccountEpochLog_variant : EntityVariant AccountEpochLog.t :=
  {| into := CardanoEntity.EAccountEpochLog;
     downcast e := match e with CardanoEntity.EAccountEpochLog x => Some x | _ => None end |}.
Solve All Obligations with variant.

(** An entity read from a namespace decodes to that namespace's variant. *)
Definition typed (ns : string) (e : option CardanoEntity.t) : Prop :=
  match e with Some x => CardanoEntity.namespace x = ns | None => True end.

Definition cardano_wf (e : option CardanoEntity.t) : Prop :=
  match e with Some x => CardanoEntity.wf x | None => True end.

(** [entity.take().and_then(|x| x.into())]. *)
Definition sub_entity {T} `{EntityVariant T} (e : option CardanoEntity.t) : option T :=
  match e with Some x => downcast x | None => None end.

Definition downcast_apply {D T} `{!Entity T, !EntityVariant T, !EntityDelta D T}
    (d : D) (e : option CardanoEntity.t) : run (D * option CardanoEntity.t) :=
  r ← EntityDelta.apply d (sub_entity e);
  Ret (fst r, option_map into (snd r)).

Definition downcast_undo {D T} `{!Entity T, !EntityVariant T, !EntityDelta D T}
    (d : D) (e : option CardanoEntity.t) : run (option CardanoEntity.t) :=
  r ← EntityDelta.undo d (sub_entity e);
  Ret (option_map into r).

Section downcast.
Context {D T : Type} `{HE : !Entity T, HV : !EntityVariant T, HD : !EntityDelta D T, HR : !ReversibleDelta D T}.
Implicit Types (d : D) (e : option CardanoEntity.t).

Lemma sub_into (x : option T) : sub_entity (option_map into x) = x.
Proof. destruct x; cbn; [apply downcast_into|done]. Qed.

Lemma into_sub d e : typed (fst (EntityDelta.key d)) e -> option_map into (sub_entity e) = e.
Proof.
  rewrite key_namespace. destruct e as [x|]; cbn; [|done].
  intros [y ->]%namespace_into. rewrite downcast_into. done.
Qed.

Lemma sub_wf d e : typed (fst (EntityDelta.key d)) e -> cardano_wf e -> opt_wf (sub_entity (T:=T) e).
Proof.
  intros Ht Hw. rewrite <- (into_sub d e Ht) in Hw. destruct (sub_entity e); [|done].
  by apply into_wf.
Qed.

Lemma downcast_key d d' e e' :
  downcast_apply d e = Ret (d', e') -> EntityDelta.key d' = EntityDelta.key d.
Proof. intros E. unfold downcast_apply in E. run_inv. cbn. by eapply apply_key. Qed.

Lemma downcast_typed d d' e e' :
  downcast_apply d e = Ret (d', e') -> typed (fst (EntityDelta.key d)) e'.
Proof.
  intros E. unfold downcast_apply in E. run_inv. rewrite key_namespace. cbn.
  destruct o; cbn; [apply into_namespace|done].
Qed.

Lemma downcast_wf d d' e e' :
  admissible d (sub_entity e) -> typed (fst (EntityDelta.key d)) e -> cardano_wf e ->
  downcast_apply d e = Ret (d', e') -> cardano_wf e'.
Proof.
  intros Ha Ht Hw E. unfold downcast_apply in E. run_inv. cbn.
  apply apply_wf in E0; [|done|by eapply sub_wf]. destruct o; [by apply into_wf|done].
Qed.

Lemma downcast_undo_apply d d' e e' :
  admissible d (sub_entity e) -> typed (fst (EntityDelta.key d)) e -> cardano_wf e ->
  downcast_apply d e = Ret (d', e') -> downcast_undo d' e' = Ret e.
Proof.
  intros Ha Ht Hw E. unfold downcast_apply in E. run_inv. unfold downcast_undo. cbn.
  rewrite sub_into. apply undo_apply in E0; [|done|by eapply sub_wf].
  rewrite E0. cbn. by rewrite (into_sub d e Ht).
Qed.

End downcast.

(** ** The delta sum *)

Module CardanoDelta.

(** The variant order is the WAL's. *)
Inductive t :=
| DControlledAmountInc (x : ControlledAmountInc.t)
| DControlledAmountDec (x : ControlledAmountDec.t)
| DStakeRegistration (x : StakeRegistration.t)
| DStakeDelegation (x : StakeDelegation.t)
| DStakeDeregistration (x : StakeDeregistration.t)
| DPoolRegistration (x : PoolRegistration.t)
| DPoolDeRegistration (x : PoolDeRegistration.t)
| DMintedBlocksInc (x : MintedBlocksInc.t)
| DMintStatsUpdate (x : MintStatsUpdate.t)
| DMetadataTxUpdate (x : MetadataTxUpdate.t)
| DEpochStatsUpdate (x : EpochStatsUpdate.t)
| DDRepRegistration (x : DRepRegistration.t)
| DDRepUnRegistration (x : DRepUnRegistration.t)
| DDRepActivity (x : DRepActivity.t)
| DDRepExpiration (x : DRepExpiration.t)
| DWithdrawalInc (x : WithdrawalInc.t)
| DVoteDelegation (x : VoteDelegation.t)
| DPParamsUpdate (x : PParamsUpdate.t)
| DNoncesUpdate (x : NoncesUpdate.t)
| DNewProposal (x : NewProposal.t)
| DAssignRewards (x : AssignRewards.t)
| DNonceTransition (x : NonceTransition.t)
| DPoolTransition (x : PoolTransition.t)
| DAccountTransition (x : AccountTransition.t)
| DPoolDepositRefund (x : PoolDepositRefund.t)
| DEpochTransition (x : EpochTransition.t)
| DEpochWrapUp (x : EpochWrapUp.t)
| DDRepDelegatorDrop (x : DRepDelegatorDrop.t)
| DPoolDelegatorRetire (x : PoolDelegatorRetire.t)
| DPoolWrapUp (x : PoolWrapUp.t)
| DProposalDepositRefund (x : ProposalDepositRefund.t)
| DTreasuryWithdrawal (x : TreasuryWithdrawal.t)
| DEnqueueMir (x : EnqueueMir.t)
| DDequeueMir (x : DequeueMir.t)
| DDatumRefIncrement (x : DatumRefIncrement.t)
| DDatumRefDecrement (x : DatumRefDecrement.t)
| DEnqueueReward (x : EnqueueReward.t)
| DSetEpochIncentives (x : SetEpochIncentives.t)
| DDequeueReward (x : DequeueReward.t)
| DEWrapProgress (x : EWrapProgress.t)
| DEStartProgress (x : EStartProgress.t)
| DRupdProgress (x : RupdProgress.t)
| DEpochWrapUpV2 (x : EpochWrapUpV2.t)
| DEpochTransitionV2 (x : EpochTransitionV2.t)
| DEpochWrapUpV3 (x : EpochWrapUpV3.t)
| DDRepAnchorUpdate (x : DRepAnchorUpdate.t)
| DNewProposalV2 (x : NewProposalV2.t)
| DVoteCast (x : VoteCast.t)
| DDRepExpiryUpdate (x : DRepExpiryUpdate.t)
| DDRepDormancyRelease (x : DRepDormancyRelease.t)
| DGovGenesisInit (x : GovGenesisInit.t)
| DCommitteeAuth (x : CommitteeAuth.t)
| DCommitteeResign (x : CommitteeResign.t)
| DGovDormancyReset (x : GovDormancyReset.t)
| DCommitteeUpdate (x : CommitteeUpdate.t)
| DConstitutionUpdate (x : ConstitutionUpdate.t)
| DGovRootsUpdate (x : GovRootsUpdate.t)
| DGovDistrAccumulate (x : GovDistrAccumulate.t)
| DDRepPowerUpdate (x : DRepPowerUpdate.t)
| DGovDormancyTick (x : GovDormancyTick.t)
| DCommitteeGc (x : CommitteeGc.t)
| DGovDistrRotate (x : GovDistrRotate.t)
| DProposalResolved (x : ProposalResolved.t)
| DGovDistrBoundaryCredit (x : GovDistrBoundaryCredit.t).

Section ops.
Context `{BuildCfg, Pallas}.

Definition key (d : t) : NsKey :=
  match d with
  | DControlledAmountInc x => EntityDelta.key x
  | DControlledAmountDec x => EntityDelta.key x
  | DStakeRegistration x => EntityDelta.key x
  | DStakeDelegation x => EntityDelta.key x
  | DStakeDeregistration x => EntityDelta.key x
  | DPoolRegistration x => EntityDelta.key x
  | DPoolDeRegistration x => EntityDelta.key x
  | DMintedBlocksInc x => EntityDelta.key x
  | DMintStatsUpdate x => EntityDelta.key x
  | DMetadataTxUpdate x => EntityDelta.key x
  | DEpochStatsUpdate x => EntityDelta.key x
  | DDRepRegistration x => EntityDelta.key x
  | DDRepUnRegistration x => EntityDelta.key x
  | DDRepActivity x => EntityDelta.key x
  | DDRepExpiration x => EntityDelta.key x
  | DWithdrawalInc x => EntityDelta.key x
  | DVoteDelegation x => EntityDelta.key x
  | DPParamsUpdate x => EntityDelta.key x
  | DNoncesUpdate x => EntityDelta.key x
  | DNewProposal x => EntityDelta.key x
  | DAssignRewards x => EntityDelta.key x
  | DNonceTransition x => EntityDelta.key x
  | DPoolTransition x => EntityDelta.key x
  | DAccountTransition x => EntityDelta.key x
  | DPoolDepositRefund x => EntityDelta.key x
  | DEpochTransition x => EntityDelta.key x
  | DEpochWrapUp x => EntityDelta.key x
  | DDRepDelegatorDrop x => EntityDelta.key x
  | DPoolDelegatorRetire x => EntityDelta.key x
  | DPoolWrapUp x => EntityDelta.key x
  | DProposalDepositRefund x => EntityDelta.key x
  | DTreasuryWithdrawal x => EntityDelta.key x
  | DEnqueueMir x => EntityDelta.key x
  | DDequeueMir x => EntityDelta.key x
  | DDatumRefIncrement x => EntityDelta.key x
  | DDatumRefDecrement x => EntityDelta.key x
  | DEnqueueReward x => EntityDelta.key x
  | DSetEpochIncentives x => EntityDelta.key x
  | DDequeueReward x => EntityDelta.key x
  | DEWrapProgress x => EntityDelta.key x
  | DEStartProgress x => EntityDelta.key x
  | DRupdProgress x => EntityDelta.key x
  | DEpochWrapUpV2 x => EntityDelta.key x
  | DEpochTransitionV2 x => EntityDelta.key x
  | DEpochWrapUpV3 x => EntityDelta.key x
  | DDRepAnchorUpdate x => EntityDelta.key x
  | DNewProposalV2 x => EntityDelta.key x
  | DVoteCast x => EntityDelta.key x
  | DDRepExpiryUpdate x => EntityDelta.key x
  | DDRepDormancyRelease x => EntityDelta.key x
  | DGovGenesisInit x => EntityDelta.key x
  | DCommitteeAuth x => EntityDelta.key x
  | DCommitteeResign x => EntityDelta.key x
  | DGovDormancyReset x => EntityDelta.key x
  | DCommitteeUpdate x => EntityDelta.key x
  | DConstitutionUpdate x => EntityDelta.key x
  | DGovRootsUpdate x => EntityDelta.key x
  | DGovDistrAccumulate x => EntityDelta.key x
  | DDRepPowerUpdate x => EntityDelta.key x
  | DGovDormancyTick x => EntityDelta.key x
  | DCommitteeGc x => EntityDelta.key x
  | DGovDistrRotate x => EntityDelta.key x
  | DProposalResolved x => EntityDelta.key x
  | DGovDistrBoundaryCredit x => EntityDelta.key x
  end.

(** [Self::downcast_apply(x.as_mut(), entity)] in the arm of one variant. *)
Definition arm {D T} `{!Entity T, !EntityVariant T, !EntityDelta D T} (c : D -> t) (d : D)
    (e : option CardanoEntity.t) : run (t * option CardanoEntity.t) :=
  r ← downcast_apply d e; Ret (c (fst r), snd r).

Definition apply (d : t) (e : option CardanoEntity.t) : run (t * option CardanoEntity.t) :=
  match d with
  | DControlledAmountInc x => arm DControlledAmountInc x e
  | DControlledAmountDec x => arm DControlledAmountDec x e
  | DStakeRegistration x => arm DStakeRegistration x e
  | DStakeDelegation x => arm DStakeDelegation x e
  | DStakeDeregistration x => arm DStakeDeregistration x e
  | DPoolRegistration x => arm DPoolRegistration x e
  | DPoolDeRegistration x => arm DPoolDeRegistration x e
  | DMintedBlocksInc x => arm DMintedBlocksInc x e
  | DMintStatsUpdate x => arm DMintStatsUpdate x e
  | DMetadataTxUpdate x => arm DMetadataTxUpdate x e
  | DEpochStatsUpdate x => arm DEpochStatsUpdate x e
  | DDRepRegistration x => arm DDRepRegistration x e
  | DDRepUnRegistration x => arm DDRepUnRegistration x e
  | DDRepActivity x => arm DDRepActivity x e
  | DDRepExpiration x => arm DDRepExpiration x e
  | DWithdrawalInc x => arm DWithdrawalInc x e
  | DVoteDelegation x => arm DVoteDelegation x e
  | DPParamsUpdate x => arm DPParamsUpdate x e
  | DNoncesUpdate x => arm DNoncesUpdate x e
  | DNewProposal x => arm DNewProposal x e
  | DAssignRewards x => arm DAssignRewards x e
  | DNonceTransition x => arm DNonceTransition x e
  | DPoolTransition x => arm DPoolTransition x e
  | DAccountTransition x => arm DAccountTransition x e
  | DPoolDepositRefund x => arm DPoolDepositRefund x e
  | DEpochTransition x => arm DEpochTransition x e
  | DEpochWrapUp x => arm DEpochWrapUp x e
  | DDRepDelegatorDrop x => arm DDRepDelegatorDrop x e
  | DPoolDelegatorRetire x => arm DPoolDelegatorRetire x e
  | DPoolWrapUp x => arm DPoolWrapUp x e
  | DProposalDepositRefund x => arm DProposalDepositRefund x e
  | DTreasuryWithdrawal x => arm DTreasuryWithdrawal x e
  | DEnqueueMir x => arm DEnqueueMir x e
  | DDequeueMir x => arm DDequeueMir x e
  | DDatumRefIncrement x => arm DDatumRefIncrement x e
  | DDatumRefDecrement x => arm DDatumRefDecrement x e
  | DEnqueueReward x => arm DEnqueueReward x e
  | DSetEpochIncentives x => arm DSetEpochIncentives x e
  | DDequeueReward x => arm DDequeueReward x e
  | DEWrapProgress x => arm DEWrapProgress x e
  | DEStartProgress x => arm DEStartProgress x e
  | DRupdProgress x => arm DRupdProgress x e
  | DEpochWrapUpV2 x => arm DEpochWrapUpV2 x e
  | DEpochTransitionV2 x => arm DEpochTransitionV2 x e
  | DEpochWrapUpV3 x => arm DEpochWrapUpV3 x e
  | DDRepAnchorUpdate x => arm DDRepAnchorUpdate x e
  | DNewProposalV2 x => arm DNewProposalV2 x e
  | DVoteCast x => arm DVoteCast x e
  | DDRepExpiryUpdate x => arm DDRepExpiryUpdate x e
  | DDRepDormancyRelease x => arm DDRepDormancyRelease x e
  | DGovGenesisInit x => arm DGovGenesisInit x e
  | DCommitteeAuth x => arm DCommitteeAuth x e
  | DCommitteeResign x => arm DCommitteeResign x e
  | DGovDormancyReset x => arm DGovDormancyReset x e
  | DCommitteeUpdate x => arm DCommitteeUpdate x e
  | DConstitutionUpdate x => arm DConstitutionUpdate x e
  | DGovRootsUpdate x => arm DGovRootsUpdate x e
  | DGovDistrAccumulate x => arm DGovDistrAccumulate x e
  | DDRepPowerUpdate x => arm DDRepPowerUpdate x e
  | DGovDormancyTick x => arm DGovDormancyTick x e
  | DCommitteeGc x => arm DCommitteeGc x e
  | DGovDistrRotate x => arm DGovDistrRotate x e
  | DProposalResolved x => arm DProposalResolved x e
  | DGovDistrBoundaryCredit x => arm DGovDistrBoundaryCredit x e
  end.

Definition undo (d : t) (e : option CardanoEntity.t) : run (option CardanoEntity.t) :=
  match d with
  | DControlledAmountInc x => downcast_undo x e
  | DControlledAmountDec x => downcast_undo x e
  | DStakeRegistration x => downcast_undo x e
  | DStakeDelegation x => downcast_undo x e
  | DStakeDeregistration x => downcast_undo x e
  | DPoolRegistration x => downcast_undo x e
  | DPoolDeRegistration x => downcast_undo x e
  | DMintedBlocksInc x => downcast_undo x e
  | DMintStatsUpdate x => downcast_undo x e
  | DMetadataTxUpdate x => downcast_undo x e
  | DEpochStatsUpdate x => downcast_undo x e
  | DDRepRegistration x => downcast_undo x e
  | DDRepUnRegistration x => downcast_undo x e
  | DDRepActivity x => downcast_undo x e
  | DDRepExpiration x => downcast_undo x e
  | DWithdrawalInc x => downcast_undo x e
  | DVoteDelegation x => downcast_undo x e
  | DPParamsUpdate x => downcast_undo x e
  | DNoncesUpdate x => downcast_undo x e
  | DNewProposal x => downcast_undo x e
  | DAssignRewards x => downcast_undo x e
  | DNonceTransition x => downcast_undo x e
  | DPoolTransition x => downcast_undo x e
  | DAccountTransition x => downcast_undo x e
  | DPoolDepositRefund x => downcast_undo x e
  | DEpochTransition x => downcast_undo x e
  | DEpochWrapUp x => downcast_undo x e
  | DDRepDelegatorDrop x => downcast_undo x e
  | DPoolDelegatorRetire x => downcast_undo x e
  | DPoolWrapUp x => downcast_undo x e
  | DProposalDepositRefund x => downcast_undo x e
  | DTreasuryWithdrawal x => downcast_undo x e
  | DEnqueueMir x => downcast_undo x e
  | DDequeueMir x => downcast_undo x e
  | DDatumRefIncrement x => downcast_undo x e
  | DDatumRefDecrement x => downcast_undo x e
  | DEnqueueReward x => downcast_undo x e
  | DSetEpochIncentives x => downcast_undo x e
  | DDequeueReward x => downcast_undo x e
  | DEWrapProgress x => downcast_undo x e
  | DEStartProgress x => downcast_undo x e
  | DRupdProgress x => downcast_undo x e
  | DEpochWrapUpV2 x => downcast_undo x e
  | DEpochTransitionV2 x => downcast_undo x e
  | DEpochWrapUpV3 x => downcast_undo x e
  | DDRepAnchorUpdate x => downcast_undo x e
  | DNewProposalV2 x => downcast_undo x e
  | DVoteCast x => downcast_undo x e
  | DDRepExpiryUpdate x => downcast_undo x e
  | DDRepDormancyRelease x => downcast_undo x e
  | DGovGenesisInit x => downcast_undo x e
  | DCommitteeAuth x => downcast_undo x e
  | DCommitteeResign x => downcast_undo x e
  | DGovDormancyReset x => downcast_undo x e
  | DCommitteeUpdate x => downcast_undo x e
  | DConstitutionUpdate x => downcast_undo x e
  | DGovRootsUpdate x => downcast_undo x e
  | DGovDistrAccumulate x => downcast_undo x e
  | DDRepPowerUpdate x => downcast_undo x e
  | DGovDormancyTick x => downcast_undo x e
  | DCommitteeGc x => downcast_undo x e
  | DGovDistrRotate x => downcast_undo x e
  | DProposalResolved x => downcast_undo x e
  | DGovDistrBoundaryCredit x => downcast_undo x e
  end.

(** What the chain guarantees when the delta is applied. *)
Definition admissible (d : t) (e : option CardanoEntity.t) : Prop :=
  match d with
  | DControlledAmountInc x => EntityDelta.admissible x (sub_entity e)
  | DControlledAmountDec x => EntityDelta.admissible x (sub_entity e)
  | DStakeRegistration x => EntityDelta.admissible x (sub_entity e)
  | DStakeDelegation x => EntityDelta.admissible x (sub_entity e)
  | DStakeDeregistration x => EntityDelta.admissible x (sub_entity e)
  | DPoolRegistration x => EntityDelta.admissible x (sub_entity e)
  | DPoolDeRegistration x => EntityDelta.admissible x (sub_entity e)
  | DMintedBlocksInc x => EntityDelta.admissible x (sub_entity e)
  | DMintStatsUpdate x => EntityDelta.admissible x (sub_entity e)
  | DMetadataTxUpdate x => EntityDelta.admissible x (sub_entity e)
  | DEpochStatsUpdate x => EntityDelta.admissible x (sub_entity e)
  | DDRepRegistration x => EntityDelta.admissible x (sub_entity e)
  | DDRepUnRegistration x => EntityDelta.admissible x (sub_entity e)
  | DDRepActivity x => EntityDelta.admissible x (sub_entity e)
  | DDRepExpiration x => EntityDelta.admissible x (sub_entity e)
  | DWithdrawalInc x => EntityDelta.admissible x (sub_entity e)
  | DVoteDelegation x => EntityDelta.admissible x (sub_entity e)
  | DPParamsUpdate x => EntityDelta.admissible x (sub_entity e)
  | DNoncesUpdate x => EntityDelta.admissible x (sub_entity e)
  | DNewProposal x => EntityDelta.admissible x (sub_entity e)
  | DAssignRewards x => EntityDelta.admissible x (sub_entity e)
  | DNonceTransition x => EntityDelta.admissible x (sub_entity e)
  | DPoolTransition x => EntityDelta.admissible x (sub_entity e)
  | DAccountTransition x => EntityDelta.admissible x (sub_entity e)
  | DPoolDepositRefund x => EntityDelta.admissible x (sub_entity e)
  | DEpochTransition x => EntityDelta.admissible x (sub_entity e)
  | DEpochWrapUp x => EntityDelta.admissible x (sub_entity e)
  | DDRepDelegatorDrop x => EntityDelta.admissible x (sub_entity e)
  | DPoolDelegatorRetire x => EntityDelta.admissible x (sub_entity e)
  | DPoolWrapUp x => EntityDelta.admissible x (sub_entity e)
  | DProposalDepositRefund x => EntityDelta.admissible x (sub_entity e)
  | DTreasuryWithdrawal x => EntityDelta.admissible x (sub_entity e)
  | DEnqueueMir x => EntityDelta.admissible x (sub_entity e)
  | DDequeueMir x => EntityDelta.admissible x (sub_entity e)
  | DDatumRefIncrement x => EntityDelta.admissible x (sub_entity e)
  | DDatumRefDecrement x => EntityDelta.admissible x (sub_entity e)
  | DEnqueueReward x => EntityDelta.admissible x (sub_entity e)
  | DSetEpochIncentives x => EntityDelta.admissible x (sub_entity e)
  | DDequeueReward x => EntityDelta.admissible x (sub_entity e)
  | DEWrapProgress x => EntityDelta.admissible x (sub_entity e)
  | DEStartProgress x => EntityDelta.admissible x (sub_entity e)
  | DRupdProgress x => EntityDelta.admissible x (sub_entity e)
  | DEpochWrapUpV2 x => EntityDelta.admissible x (sub_entity e)
  | DEpochTransitionV2 x => EntityDelta.admissible x (sub_entity e)
  | DEpochWrapUpV3 x => EntityDelta.admissible x (sub_entity e)
  | DDRepAnchorUpdate x => EntityDelta.admissible x (sub_entity e)
  | DNewProposalV2 x => EntityDelta.admissible x (sub_entity e)
  | DVoteCast x => EntityDelta.admissible x (sub_entity e)
  | DDRepExpiryUpdate x => EntityDelta.admissible x (sub_entity e)
  | DDRepDormancyRelease x => EntityDelta.admissible x (sub_entity e)
  | DGovGenesisInit x => EntityDelta.admissible x (sub_entity e)
  | DCommitteeAuth x => EntityDelta.admissible x (sub_entity e)
  | DCommitteeResign x => EntityDelta.admissible x (sub_entity e)
  | DGovDormancyReset x => EntityDelta.admissible x (sub_entity e)
  | DCommitteeUpdate x => EntityDelta.admissible x (sub_entity e)
  | DConstitutionUpdate x => EntityDelta.admissible x (sub_entity e)
  | DGovRootsUpdate x => EntityDelta.admissible x (sub_entity e)
  | DGovDistrAccumulate x => EntityDelta.admissible x (sub_entity e)
  | DDRepPowerUpdate x => EntityDelta.admissible x (sub_entity e)
  | DGovDormancyTick x => EntityDelta.admissible x (sub_entity e)
  | DCommitteeGc x => EntityDelta.admissible x (sub_entity e)
  | DGovDistrRotate x => EntityDelta.admissible x (sub_entity e)
  | DProposalResolved x => EntityDelta.admissible x (sub_entity e)
  | DGovDistrBoundaryCredit x => EntityDelta.admissible x (sub_entity e)
  end.

(** A delta read back from the WAL: the fields marked [#[serde(skip)]] take
    their defaults. *)
Definition wal_decode (d : t) : t :=
  match d with
  | DMintedBlocksInc x => DMintedBlocksInc (MintedBlocksInc.wal_decode x)
  | DEpochTransition x => DEpochTransition (EpochTransition.wal_decode x)
  | DEpochTransitionV2 x => DEpochTransitionV2 (EpochTransitionV2.wal_decode x)
  | _ => d
  end.

#[global] Instance delta : EntityDelta t CardanoEntity.t :=
  {| EntityDelta.key := key; EntityDelta.apply := apply; EntityDelta.undo := undo |}.

(** Inverts the arm a delta was applied through. *)
Lemma arm_inv {D T} `{!Entity T, !EntityVariant T, !EntityDelta D T} (c : D -> t) (d : D) e d' e' :
  arm c d e = Ret (d', e') -> exists x, d' = c x /\ downcast_apply d e = Ret (x, e').
Proof. intros E. unfold arm in E. run_inv. eauto. Qed.

Lemma key_apply d e d' e' : apply d e = Ret (d', e') -> key d' = key d.
Proof.
  intros E. destruct d; cbn [apply] in E; apply arm_inv in E as (x' & -> & E);
    cbn [key]; exact (downcast_key _ _ _ _ E).
Qed.

Lemma typed_apply d e d' e' : apply d e = Ret (d', e') -> typed (fst (key d)) e'.
Proof.
  intros E. destruct d; cbn [apply] in E; apply arm_inv in E as (x' & -> & E);
    exact (downcast_typed _ _ _ _ E).
Qed.

Lemma wf_apply d e d' e' :
  admissible d e -> typed (fst (key d)) e -> cardano_wf e ->
  apply d e = Ret (d', e') -> cardano_wf e'.
Proof.
  intros Ha Ht Hw E. destruct d; cbn [apply] in E; apply arm_inv in E as (x' & -> & E);
    exact (downcast_wf _ _ _ _ Ha Ht Hw E).
Qed.

Lemma undo_apply d e d' e' :
  admissible d e -> typed (fst (key d)) e -> cardano_wf e ->
  apply d e = Ret (d', e') -> undo d' e' = Ret e.
Proof.
  intros Ha Ht Hw E. destruct d; cbn [apply] in E; apply arm_inv in E as (x' & -> & E);
    exact (downcast_undo_apply _ _ _ _ Ha Ht Hw E).
Qed.

(** What the WAL drops is not read by [key] or [undo]. *)
Lemma wal_decode_key d : key (wal_decode d) = key d.
Proof. by destruct d. Qed.

Lemma wal_decode_undo d e : undo (wal_decode d) e = undo d e.
Proof. by destruct d. Qed.

End ops.

End CardanoDelta.

(** C20: every one of the sixty-four deltas, in every build configuration,
    restores the entity it was applied to when it is undone, also after its trip
    through the WAL, which drops the fields its serialization skips; and applying it
    keeps the entity of the type and the integer ranges its namespace promises. *)
Theorem cardano_delta_reversible `{BuildCfg, Pallas} (d d' : CardanoDelta.t) e e' :
  CardanoDelta.admissible d e -> typed (fst (CardanoDelta.key d)) e -> cardano_wf e ->
  CardanoDelta.apply d e = Ret (d', e') ->
  CardanoDelta.undo (CardanoDelta.wal_decode d') e' = Ret e /\
  CardanoDelta.key (CardanoDelta.wal_decode d') = CardanoDelta.key d /\
  typed (fst (CardanoDelta.key d)) e' /\ cardano_wf e'.
Proof.
  intros Ha Ht Hw E. rewrite CardanoDelta.wal_decode_undo, CardanoDelta.wal_decode_key.
  conj_split.
  - by apply (CardanoDelta.undo_apply d e).
  - by apply (CardanoDelta.key_apply d e d' e').
  - by apply (CardanoDelta.typed_apply d e d').
  - by apply (CardanoDelta.wf_apply d e d').
Qed.

Section witness.
#[local] Instance model_cfg : BuildCfg := cfg_debug.
#[local] Instance model_pallas : Pallas := demo_pallas.

Definition demo_increment : CardanoDelta.t :=
  CardanoDelta.DDatumRefIncrement (DatumRefIncrement.new (replicate 32 7) [42]).
Definition demo_datum (n : Z) : option CardanoEntity.t :=
  Some (CardanoEntity.EDatumState (DatumState.mk n [42])).

Lemma cardano_delta_reversible_witness :
  CardanoDelta.undo (CardanoDelta.wal_decode demo_increment) (demo_datum 4) = Ret (demo_datum 3) /\
  CardanoDelta.key (CardanoDelta.wal_decode demo_increment) = CardanoDelta.key demo_increment /\
  typed (fst (CardanoDelta.key demo_increment)) (demo_datum 4) /\ cardano_wf (demo_datum 4).
Proof.
  apply (cardano_delta_reversible demo_increment demo_increment (demo_datum 3) (demo_datum 4)).
  - reflexivity.
  - reflexivity.
  - split; [done|cbn; lia].
  - reflexivity.
Defined.

End witness.
