(* ===== verification/Codec.v ===== *)
(** * The entity codec (cardano/src/model/mod.rs)

    The encoding of the entity sum over the encodings of the entity types, and
    typed access to the rows of a state store. *)

From S2P Require Import Prelude Types ChainPoint EpochValue EntityDelta Eras PParams Forks Ratio Pots.
From S2P Require Import Accounts Pools DReps Datums Assets Pending Epochs Proposals Gov StateStore Blocks CardanoModel.
Open Scope Z_scope.

#[local] Obligation Tactic := idtac.

(** ** The entity codec

    [minicbor] on one entity type. *)
Class Minicbor (T V : Type) := {
  to_vec : T -> V;
  decode : V -> option T;
  decode_to_vec : forall x, decode (to_vec x) = Some x;
}.
#[global] Hint Mode Minicbor ! - : typeclass_instances.

(** [minicbor] on every entity type. *)
Class EntityCbor (V : Type) := {
  cbor_era :: Minicbor EraSummary.t V;
  cbor_account :: Minicbor AccountState.t V;
  cbor_asset :: Minicbor AssetState.t V;
  cbor_pool :: Minicbor PoolState.t V;
  cbor_epoch :: Minicbor EpochState.t V;
  cbor_drep :: Minicbor DRepState.t V;
  cbor_proposal :: Minicbor ProposalState.t V;
  cbor_stake_log :: Minicbor StakeLog.t V;
  cbor_datum :: Minicbor DatumState.t V;
  cbor_pending_reward :: Minicbor PendingRewardState.t V;
  cbor_pending_mir :: Minicbor PendingMirState.t V;
  cbor_gov :: Minicbor GovState.t V;
  cbor_account_epoch :: Minicbor AccountEpochLog.t V;
}.

Module EntityCodec.
Section codec.
Context {V : Type} `{!EntityCbor V}.

(** [T::decode_entity(ns, value).map(Into::into)], in the arm of [T::NS]. *)
Definition arm (T : Type) `{!Entity T, !EntityVariant T, !Minicbor T V} (v : V) :
    option CardanoEntity.t :=
  into <$> decode (T := T) v.

Definition decode_entity (ns : string) (v : V) : option CardanoEntity.t :=
  if bool_decide (ns = NS EraSummary.t) then arm EraSummary.t v
  else if bool_decide (ns = NS AccountState.t) then arm AccountState.t v
  else if bool_decide (ns = NS AssetState.t) then arm AssetState.t v
  else if bool_decide (ns = NS PoolState.t) then arm PoolState.t v
  else if bool_decide (ns = NS EpochState.t) then arm EpochState.t v
  else if bool_decide (ns = NS DRepState.t) then arm DRepState.t v
  else if bool_decide (ns = NS ProposalState.t) then arm ProposalState.t v
  else if bool_decide (ns = NS StakeLog.t) then arm StakeLog.t v
  else if bool_decide (ns = NS DatumState.t) then arm DatumState.t v
  else if bool_decide (ns = NS PendingRewardState.t) then arm PendingRewardState.t v
  else if bool_decide (ns = NS PendingMirState.t) then arm PendingMirState.t v
  else if bool_decide (ns = NS GovState.t) then arm GovState.t v
  else if bool_decide (ns = NS AccountEpochLog.t) then arm AccountEpochLog.t v
  else None.

Definition encode_entity (e : CardanoEntity.t) : string * V :=
  match e with
  | CardanoEntity.EEraSummary x => (NS EraSummary.t, to_vec x)
  | CardanoEntity.EAccountState x => (NS AccountState.t, to_vec x)
  | CardanoEntity.EAssetState x => (NS AssetState.t, to_vec x)
  | CardanoEntity.EPoolState x => (NS PoolState.t, to_vec x)
  | CardanoEntity.EEpochState x => (NS EpochState.t, to_vec x)
  | CardanoEntity.EDRepState x => (NS DRepState.t, to_vec x)
  | CardanoEntity.EProposalState x => (NS ProposalState.t, to_vec x)
  | CardanoEntity.EStakeLog x => (NS StakeLog.t, to_vec x)
  | CardanoEntity.EDatumState x => (NS DatumState.t, to_vec x)
  | CardanoEntity.EPendingRewardState x => (NS PendingRewardState.t, to_vec x)
  | CardanoEntity.EPendingMirState x => (NS PendingMirState.t, to_vec x)
  | CardanoEntity.EGovState x => (NS GovState.t, to_vec x)
  | CardanoEntity.EAccountEpochLog x => (NS AccountEpochLog.t, to_vec x)
  end.

Lemma encode_namespace e : (encode_entity e).1 = CardanoEntity.namespace e.
Proof. by destruct e. Qed.

Lemma arm_namespace (T : Type) `{!Entity T, !EntityVariant T, !Minicbor T V} v e :
  arm T v = Some e -> CardanoEntity.namespace e = NS T.
Proof. unfold arm. intros (x & _ & ->)%fmap_Some. apply into_namespace. Qed.

#[export] Program Instance codec : Codec CardanoEntity.t V :=
  {| StateStore.encode_entity := encode_entity; StateStore.decode_entity := decode_entity |}.
Next Obligation. intros e. destruct e as [x|x|x|x|x|x|x|x|x|x|x|x|x]; exact (f_equal (fmap into) (decode_to_vec x)). Qed.
Next Obligation.
  intros ns v e. cbn. rewrite encode_namespace. unfold decode_entity.
  repeat case_bool_decide; subst; try apply arm_namespace. done.
Qed.

End codec.
End EntityCodec.
#[export] Existing Instance EntityCodec.codec.

(** A concrete encoding: the entities themselves. *)
Definition variant_cbor T `{!Entity T, !EntityVariant T} : Minicbor T CardanoEntity.t :=
  {| to_vec := into; decode := downcast; decode_to_vec := downcast_into |}.

Definition demo_cbor : EntityCbor CardanoEntity.t :=
  Build_EntityCbor _ (variant_cbor _) (variant_cbor _) (variant_cbor _) (variant_cbor _)
    (variant_cbor _) (variant_cbor _) (variant_cbor _) (variant_cbor _) (variant_cbor _)
    (variant_cbor _) (variant_cbor _) (variant_cbor _) (variant_cbor _).

(** ** Typed access (core/src/state.rs)

    Reading rows as one entity type.  The caller gives the namespace of the
    type, which is what the assertion of the generated decoders checks. *)

Section typed_access.
Context {V S W : Type} `{!StateStore V S W}.

Definition decode_row (T : Type) `{!Minicbor T V} (x : EntityKey * V) : result StateError (EntityKey * T) :=
  match decode (T := T) (snd x) with
  | Some e => Ok (fst x, e)
  | None => Err EntityDecodingError
  end.

(** [iter_entities_typed]: the rows in key order, each decoded when the loop
    reaches it. *)
Definition iter_entities_typed (T : Type) `{!Entity T, !Minicbor T V} (s : S)
    (range : option (EntityKey * EntityKey)) : list (result StateError (EntityKey * T)) :=
  decode_row T <$> iter_entities s (NS T) (default full_range range).

(** [read_entity_typed]. *)
Definition read_typed (T : Type) `{!Entity T, !Minicbor T V} (s : S) (key : EntityKey) :
    run (result ChainError (option T)) :=
  row ← expect (head (read_entities s (NS T) [key]));
  Ret match row with
      | None => Ok None
      | Some v => match decode (T := T) v with
                  | Some e => Ok (Some e)
                  | None => Err (ChainState EntityDecodingError)
                  end
      end.

End typed_access.

(** [for record in records { let x = record?; .. }]. *)
Fixpoint for_records {A T} (f : A -> T -> run (result ChainError A)) (a : A)
    (records : list (result StateError T)) : run (result ChainError A) :=
  match records with
  | [] => Ret (Ok a)
  | Err e :: _ => Ret (Err (ChainState e))
  | Ok x :: records' => a ←? f a x; for_records f a records'
  end.

(** A loop over records that stops at the first one that passes the test. *)
Fixpoint any_record {T} (f : T -> run bool) (records : list (result StateError T)) :
    run (result ChainError bool) :=
  match records with
  | [] => Ret (Ok false)
  | Err e :: _ => Ret (Err (ChainState e))
  | Ok x :: records' => b ← f x; if b : bool then Ret (Ok true) else any_record f records'
  end.

(** [for x in it { f(x)?; }] over a list. *)
Fixpoint for_each {A T} (f : A -> T -> run (result ChainError A)) (a : A) (l : list T) :
    run (result ChainError A) :=
  match l with
  | [] => Ret (Ok a)
  | x :: l' => a ←? f a x; for_each f a l'
  end.

(** [r?] on a computation that cannot fail. *)
Definition lift {E A} (m : run A) : run (result E A) := x ← m; Ret (Ok x).

(** Loops over records that decode are loops over the records. *)
Lemma for_records_ok {A T} (f : A -> T -> run (result ChainError A)) a (l : list T) :
  for_records f a (Ok <$> l) = for_each f a l.
Proof.
  revert a. induction l as [|x l IH]; intros a; cbn; [done|].
  destruct (f a x) as [[y|]|]; cbn; auto.
Qed.

(** An invariant of the body of a loop holds at its end. *)
Lemma for_each_inv {A T} (I : A -> Prop) (f : A -> T -> run (result ChainError A)) l a a' :
  (forall a x a', x ∈ l -> I a -> f a x = Ret (Ok a') -> I a') -> I a -> for_each f a l = Ret (Ok a') -> I a'.
Proof.
  revert a. induction l as [|x l IH]; intros a Hf Ha He; cbn in He; [by simplify_eq|].
  destruct (f a x) as [[y|]|] eqn:Hx; cbn in He; try done.
  apply (IH y); [intros; eapply Hf; eauto; set_solver| |done]. eapply Hf; eauto. left.
Qed.

Lemma for_records_inv {A T} (I : A -> Prop) (f : A -> T -> run (result ChainError A)) l a a' :
  (forall a x a', Ok x ∈ l -> I a -> f a x = Ret (Ok a') -> I a') -> I a -> for_records f a l = Ret (Ok a') -> I a'.
Proof.
  revert a. induction l as [|[x|e] l IH]; intros a Hf Ha He; cbn in He; [by simplify_eq| |done].
  destruct (f a x) as [[y|]|] eqn:Hx; cbn in He; try done.
  apply (IH y); [intros; eapply Hf; eauto; set_solver| |done]. eapply Hf; eauto. left.
Qed.

Lemma for_each_app {A T} (f : A -> T -> run (result ChainError A)) a l1 l2 :
  for_each f a (l1 ++ l2) = (a' ←? for_each f a l1; for_each f a' l2).
Proof.
  revert a. induction l1 as [|x l1 IH]; intros a; cbn; [done|].
  destruct (f a x) as [[y|]|]; cbn; auto.
Qed.
