(* ===== verification/Visitors.v ===== *)
(** * The block visitors (cardano/src/roll/{mod,accounts,assets,datums,dreps,epochs,pools,proposals,txs}.rs)

    What a block does to the entities: eight visitors see its transactions,
    inputs, outputs, mints, certificates, withdrawals, updates and proposals
    and queue deltas.  [Crawl] drives them over a block. *)

From S2P Require Import Prelude Lists Types ChainPoint EpochValue EntityDelta Eras PParams Forks.
From S2P Require Import Accounts Pools DReps Datums Assets Pending Epochs Proposals Gov StateStore Blocks.
From S2P Require Import Metadata PallasExtras GovActions Wal Roll Indexes IndexBuilder CardanoModel Codec.
Open Scope Z_scope.

(** ** What the traversal of [pallas] gives the visitors *)

Inductive TraverseEra := TByron | TShelley | TAllegra | TMary | TAlonzo | TBabbage | TConway.

(** [conway::ProposalProcedure]. *)
Record ProposalProcedure := {
  pp_deposit : Lovelace;
  pp_reward_account : bytes;
  pp_gov_action : GovAction;
  pp_anchor : Anchor;
}.

Record MultiEraProposal := {
  mp_deposit : Lovelace;
  as_conway : option ProposalProcedure;
}.

(** What the visitors read of the body of a Conway transaction. *)
Record ConwayBody := {
  voting_procedures : option (list (Voter * list (GovActionId * Vote)));
  donation : option Lovelace;
}.

(** A policy with the names and quantities of its minted assets. *)
Record MultiEraPolicyAssets := {
  mint_policy : Hash28;
  mint_assets : list (bytes * option Z);
}.

Record MultiEraTx := {
  mt_hash : TxHash;
  mt_is_valid : bool;
  (** [as_byron], with the fee [compute_byron_fee] gives *)
  mt_byron_fee : option Lovelace;
  mt_conway : option ConwayBody;
  mt_fee : option Lovelace;
  mt_total_collateral : option Lovelace;
  mt_consumes : list TxoRef;
  mt_produces : list (Z * OutputView);
  mt_mints : list MultiEraPolicyAssets;
  mt_certs : list MultiEraCert;
  mt_withdrawals : list (bytes * Lovelace);
  mt_update : option MultiEraUpdate;
  (** the witness datums, each with its hash and bytes *)
  mt_plutus_data : list (Hash32 * bytes);
  mt_gov_proposals : list MultiEraProposal;
  mt_redeemers : list bytes;
  mt_metadata : list (Z * Metadatum);
}.

Record MultiEraBlock := {
  mb_slot : BlockSlot;
  mb_hash : Hash32;
  mb_era : TraverseEra;
  mb_previous_hash : option Hash32;
  mb_issuer_vkey : option bytes;
  (** [nonce_vrf_output], which may fail *)
  mb_nonce_vrf_output : option bytes;
  mb_txs : list MultiEraTx;
  mb_update : option MultiEraUpdate;
}.

(** Blake2b-224. *)
Class Hasher224 := { blake2b_224 : bytes -> Hash28 }.

(** The outputs a batch resolved. *)
Abbreviation Resolved := (gmap (list Z * Z) OutputView) (only parsing).

(** ** Signed arithmetic *)

(** A native [+] or [-] on [i64]. *)
Definition native_i64 `{BuildCfg} (r : Z) : run Z :=
  if (- 2 ^ 63 <=? r) && (r <? 2 ^ 63) then Ret r
  else if overflow_checks then Panic else Ret ((r + 2 ^ 63) mod 2 ^ 64 - 2 ^ 63).

(** [x as i64]. *)
Definition as_i64 (x : Z) : Z := (x + 2 ^ 63) mod 2 ^ 64 - 2 ^ 63.

(** ** The trait *)

Abbreviation Deltas := (WorkDeltas.t CardanoDelta.t) (only parsing).

(** [Result<(), ChainError>] of a method that changes the visitor and the
    deltas. *)
Abbreviation visit V := (run (result ChainError (V * Deltas))) (only parsing).

Class BlockVisitor (V : Type) := {
  visit_root : V -> Deltas -> MultiEraBlock -> Genesis -> PParamsSet.t -> Epoch -> Z -> Z -> visit V;
  visit_tx : V -> Deltas -> MultiEraBlock -> MultiEraTx -> Resolved -> visit V;
  visit_input : V -> Deltas -> MultiEraBlock -> MultiEraTx -> TxoRef -> OutputView -> visit V;
  visit_output : V -> Deltas -> MultiEraBlock -> MultiEraTx -> Z -> OutputView -> visit V;
  visit_mint : V -> Deltas -> MultiEraBlock -> MultiEraTx -> MultiEraPolicyAssets -> visit V;
  visit_cert : V -> Deltas -> MultiEraBlock -> MultiEraTx -> TxOrder -> MultiEraCert -> visit V;
  visit_withdrawal : V -> Deltas -> MultiEraBlock -> MultiEraTx -> bytes -> Lovelace -> visit V;
  visit_update : V -> Deltas -> MultiEraBlock -> option MultiEraTx -> MultiEraUpdate -> visit V;
  visit_datums : V -> Deltas -> MultiEraBlock -> MultiEraTx -> Hash32 * bytes -> visit V;
  visit_proposal : V -> Deltas -> MultiEraBlock -> MultiEraTx -> MultiEraProposal -> Z -> visit V;
  visit_redeemers : V -> Deltas -> MultiEraBlock -> MultiEraTx -> bytes -> visit V;
  flush : V -> Deltas -> visit V;
}.

(** The default methods. *)
Definition skip {V : Type} (v : V) (deltas : Deltas) : visit V := Ret (Ok (v, deltas)).

Section visitors.
Context `{BuildCfg, Pallas, Addresses, MetadataCodecs, Hasher224}.

Definition add_for_entity (deltas : Deltas) (d : CardanoDelta.t) : Deltas := WorkDeltas.add_for_entity deltas d.

(** [result.ok()]. *)
Definition ensured_ok {A} (m : run (A + string)) : run (option A) :=
  r ← m; Ret (match r with inl x => Some x | inr _ => None end).

(** *** Accounts (accounts.rs) *)

Record AccountVisitor := mkAccountVisitor {
  av_deposit : option Z;
  av_epoch : option Epoch;
  av_protocol_version : option Z;
}.

Definition account_visit_root (pparams : PParamsSet.t) (epoch : Epoch) : run AccountVisitor :=
  deposit ← ensured_ok (PParamsSet.ensure_key_deposit pparams);
  protocol_version ← PParamsSet.protocol_major pparams;
  Ret (mkAccountVisitor deposit (Some epoch) protocol_version).

Definition account_visit_input (deltas : Deltas) (resolved : OutputView) : run Deltas :=
  address ← expect (out_address resolved);
  cred ← address_as_stake_cred address;
  match cred with
  | None => Ret deltas
  | Some (cred, is_pointer) =>
      Ret (add_for_entity deltas
        (CardanoDelta.DControlledAmountDec (ControlledAmountDec.new cred is_pointer (out_coin resolved))))
  end.

Definition account_visit_output (v : AccountVisitor) (deltas : Deltas) (output : OutputView) : run Deltas :=
  address ← expect (out_address output);
  epoch ← expect (av_epoch v);
  cred ← address_as_stake_cred address;
  match cred with
  | None => Ret deltas
  | Some (cred, is_pointer) =>
      Ret (add_for_entity deltas
        (CardanoDelta.DControlledAmountInc (ControlledAmountInc.new cred is_pointer (out_coin output) epoch)))
  end.

(** One target of a MIR certificate. *)
Definition enqueue_mir (source : InstantaneousRewardSource) (overwrite : bool) (deltas : Deltas)
    (x : StakeCredential * Z) : Deltas :=
  let amount := Z.max (snd x) 0 in
  add_for_entity deltas (CardanoDelta.DEnqueueMir
    match source with
    | MirReserves => EnqueueMir.from_reserves_ (fst x) amount overwrite
    | MirTreasury => EnqueueMir.from_treasury_ (fst x) amount overwrite
    end).

Definition account_visit_cert (v : AccountVisitor) (deltas : Deltas) (block : MultiEraBlock) (order : TxOrder)
    (cert : MultiEraCert) : run Deltas :=
  epoch ← expect (av_epoch v);
  deltas ← match cert_as_stake_registration cert with
           | Some cred =>
               deposit ← expect (av_deposit v);
               epoch ← expect (av_epoch v);
               Ret (add_for_entity deltas (CardanoDelta.DStakeRegistration
                 (StakeRegistration.new cred (mb_slot block) epoch deposit)))
           | None => Ret deltas
           end;
  let deltas := match cert_as_stake_delegation cert with
                | Some cert => add_for_entity deltas (CardanoDelta.DStakeDelegation
                    (StakeDelegation.new (stake_delegator cert) (stake_pool cert) epoch))
                | None => deltas
                end in
  let deltas := match cert_as_stake_deregistration cert with
                | Some cred => add_for_entity deltas (CardanoDelta.DStakeDeregistration
                    (StakeDeregistration.new cred (mb_slot block) epoch))
                | None => deltas
                end in
  let deltas := match cert_as_vote_delegation cert with
                | Some cert => add_for_entity deltas (CardanoDelta.DVoteDelegation
                    (VoteDelegation.new (vote_delegator cert) (vote_drep cert) (mb_slot block) order epoch))
                | None => deltas
                end in
  Ret match cert_as_mir_certificate cert with
      | Some mir =>
          match mir_target mir with
          | StakeCredentials creds =>
              let overwrite := default 0 (av_protocol_version v) <? 5 in
              foldl (enqueue_mir (mir_source mir) overwrite) deltas creds
          | _ => deltas
          end
      | None => deltas
      end.

Definition account_visit_withdrawal (deltas : Deltas) (account : bytes) (amount : Lovelace) :
    run (result ChainError Deltas) :=
  match address_from_bytes account with
  | None => Ret (Err AddressDecoding)
  | Some address =>
      cred ← address_as_stake_cred address;
      Ret (Ok match cred with
              | None => deltas
              | Some (cred, _) => add_for_entity deltas (CardanoDelta.DWithdrawalInc (WithdrawalInc.new cred amount))
              end)
  end.

(** A method that leaves the visitor as it is. *)
Definition keep {V : Type} (v : V) (m : run Deltas) : visit V := deltas ← m; Ret (Ok (v, deltas)).

#[global] Instance AccountVisitor_visitor : BlockVisitor AccountVisitor := {|
  visit_root v deltas _ _ pparams epoch _ _ := v ← account_visit_root pparams epoch; Ret (Ok (v, deltas));
  visit_tx v deltas _ _ _ := skip v deltas;
  visit_input v deltas _ _ _ resolved := keep v (account_visit_input deltas resolved);
  visit_output v deltas _ _ _ output := keep v (account_visit_output v deltas output);
  visit_mint v deltas _ _ _ := skip v deltas;
  visit_cert v deltas block _ order cert := keep v (account_visit_cert v deltas block order cert);
  visit_withdrawal v deltas _ _ account amount :=
    deltas ←? account_visit_withdrawal deltas account amount; Ret (Ok (v, deltas));
  visit_update v deltas _ _ _ := skip v deltas;
  visit_datums v deltas _ _ _ := skip v deltas;
  visit_proposal v deltas _ _ _ _ := skip v deltas;
  visit_redeemers v deltas _ _ _ := skip v deltas;
  flush v deltas := skip v deltas;
|}.

(** *** Assets (assets.rs) *)

Inductive AssetStateVisitor := mkAssetStateVisitor.

(** One minted asset. *)
Definition mint_asset (block : MultiEraBlock) (tx : MultiEraTx) (policy : Hash28)
    (cip25_metadata : option Metadatum) (deltas : Deltas) (asset : bytes * option Z) : Deltas :=
  let quantity := default 0 (snd asset) in
  let deltas := add_for_entity deltas (CardanoDelta.DMintStatsUpdate
    (MintStatsUpdate.new policy (fst asset) quantity (mt_hash tx) (mb_slot block))) in
  if 0 <? quantity then
    match cip25_metadata with
    | Some metadata =>
        if cip25_metadata_has_asset metadata policy (fst asset)
        then add_for_entity deltas (CardanoDelta.DMetadataTxUpdate
               (MetadataTxUpdate.new policy (fst asset) (mt_hash tx)))
        else deltas
    | None => deltas
    end
  else deltas.

Definition asset_visit_mint (deltas : Deltas) (block : MultiEraBlock) (tx : MultiEraTx)
    (mint : MultiEraPolicyAssets) : Deltas :=
  let cip25_metadata := if has_cip25_metadata (mt_metadata tx) then cip25_metadata_for_tx (mt_metadata tx) else None in
  foldl (mint_asset block tx (mint_policy mint) cip25_metadata) deltas (mint_assets mint).

(** One asset of an output with a datum: a reference token names its
    metadata. *)
Definition output_asset (tx : MultiEraTx) (policy : bytes) (deltas : Deltas) (name : bytes) : run Deltas :=
  label ← parse_cip67_label_from_asset_name name;
  Ret match label with
      | Some label =>
          if label =? 100
          then add_for_entity deltas (CardanoDelta.DMetadataTxUpdate (MetadataTxUpdate.new policy name (mt_hash tx)))
          else deltas
      | None => deltas
      end.

Definition asset_visit_output (deltas : Deltas) (tx : MultiEraTx) (output : OutputView) : run Deltas :=
  match out_datum output with
  | None => Ret deltas
  | Some _ =>
      run_foldl (fun deltas ma => run_foldl (output_asset tx (fst ma)) deltas (snd ma)) deltas (out_assets output)
  end.

#[global] Instance AssetStateVisitor_visitor : BlockVisitor AssetStateVisitor := {|
  visit_root v deltas _ _ _ _ _ _ := skip v deltas;
  visit_tx v deltas _ _ _ := skip v deltas;
  visit_input v deltas _ _ _ _ := skip v deltas;
  visit_output v deltas _ tx _ output := keep v (asset_visit_output deltas tx output);
  visit_mint v deltas block tx mint := skip v (asset_visit_mint deltas block tx mint);
  visit_cert v deltas _ _ _ _ := skip v deltas;
  visit_withdrawal v deltas _ _ _ _ := skip v deltas;
  visit_update v deltas _ _ _ := skip v deltas;
  visit_datums v deltas _ _ _ := skip v deltas;
  visit_proposal v deltas _ _ _ _ := skip v deltas;
  visit_redeemers v deltas _ _ _ := skip v deltas;
  flush v deltas := skip v deltas;
|}.

(** *** Datums (datums.rs) *)

Record DatumVisitor := mkDatumVisitor { witness_datums : gmap Hash32 bytes }.

(** Clears, then inserts every witness datum. *)
Definition datum_visit_tx (tx : MultiEraTx) : DatumVisitor :=
  mkDatumVisitor (foldl (fun m x => <[fst x := snd x]> m) ∅ (mt_plutus_data tx)).

Definition datum_visit_output (v : DatumVisitor) (deltas : Deltas) (output : OutputView) : Deltas :=
  match out_datum output with
  | Some (DatumHash datum_hash) =>
      match witness_datums v !! datum_hash with
      | Some datum_bytes =>
          add_for_entity deltas (CardanoDelta.DDatumRefIncrement (DatumRefIncrement.new datum_hash datum_bytes))
      | None => deltas
      end
  | _ => deltas
  end.

Definition datum_visit_input (deltas : Deltas) (resolved : OutputView) : Deltas :=
  match out_datum resolved with
  | Some (DatumHash datum_hash) =>
      add_for_entity deltas (CardanoDelta.DDatumRefDecrement (DatumRefDecrement.new datum_hash))
  | _ => deltas
  end.

#[global] Instance DatumVisitor_visitor : BlockVisitor DatumVisitor := {|
  visit_root v deltas _ _ _ _ _ _ := skip v deltas;
  visit_tx _ deltas _ tx _ := skip (datum_visit_tx tx) deltas;
  visit_input v deltas _ _ _ resolved := skip v (datum_visit_input deltas resolved);
  visit_output v deltas _ _ _ output := skip v (datum_visit_output v deltas output);
  visit_mint v deltas _ _ _ := skip v deltas;
  visit_cert v deltas _ _ _ _ := skip v deltas;
  visit_withdrawal v deltas _ _ _ _ := skip v deltas;
  visit_update v deltas _ _ _ := skip v deltas;
  visit_datums v deltas _ _ _ := skip v deltas;
  visit_proposal v deltas _ _ _ _ := skip v deltas;
  visit_redeemers v deltas _ _ _ := skip v deltas;
  flush v deltas := skip v deltas;
|}.

(** *** DReps and the committee (dreps.rs) *)

Definition cert_drep (cert : MultiEraCert) : option DRep :=
  match cert with
  | ConwayEra (ConwayRegDRepCert cert _ _) => Some (stake_cred_to_drep cert)
  | ConwayEra (ConwayUnRegDRepCert cert _) => Some (stake_cred_to_drep cert)
  | ConwayEra (ConwayUpdateDRepCert cert _) => Some (stake_cred_to_drep cert)
  | _ => None
  end.

Record DormancyContext := mkDormancyContext {
  dormant_epochs : Z;
  drep_keys : list EntityKey;
  batch_registrations : list EntityKey;
}.

Definition default_dormancy : DormancyContext := mkDormancyContext 0 [] [].

(** [Vec::dedup]. *)
Fixpoint dedup_keys (l : list EntityKey) : list EntityKey :=
  match l with
  | x :: (y :: _) as rest => if bool_decide (x = y) then dedup_keys rest else x :: dedup_keys rest
  | _ => l
  end.

Definition release_targets (c : DormancyContext) : list EntityKey :=
  dedup_keys (sort_by bytes_cmp (drep_keys c ++ batch_registrations c)).

Record DRepStateVisitor := mkDRepStateVisitor {
  dv_current_epoch : Epoch;
  dv_protocol : Z;
  dv_drep_activity : option Z;
  dv_dormancy : DormancyContext;
}.

#[global] Instance eta_DRepStateVisitor : Eta DRepStateVisitor := fun r =>
  mkDRepStateVisitor (dv_current_epoch r) (dv_protocol r) (dv_drep_activity r) (dv_dormancy r).

Definition refresh_expiry (v : DRepStateVisitor) : run (option Epoch) :=
  match dv_drep_activity v with
  | None => Ret None
  | Some activity =>
      x ← uadd 64 (dv_current_epoch v) activity;
      Ret (Some (saturating_sub 64 x (dormant_epochs (dv_dormancy v))))
  end.

Definition registration_expiry (v : DRepStateVisitor) : run (option Epoch) :=
  match dv_drep_activity v with
  | None => Ret None
  | Some activity =>
      if dv_protocol v =? 9 then x ← uadd 64 (dv_current_epoch v) activity; Ret (Some x)
      else refresh_expiry v
  end.

Definition drep_visit_root (v : DRepStateVisitor) (pparams : PParamsSet.t) (epoch : Epoch) (protocol : Z) :
    run DRepStateVisitor :=
  activity ← PParamsSet.drep_inactivity_period pparams;
  Ret (v <| dv_current_epoch := epoch |> <| dv_protocol := protocol |> <| dv_drep_activity := activity |>).

(** The first proposal after a dormant stretch. *)
Definition release_dormancy (v : DRepStateVisitor) (deltas : Deltas) (tx : MultiEraTx) : DRepStateVisitor * Deltas :=
  let c := dv_dormancy v in
  if (0 <? dormant_epochs c) && negb (match mt_gov_proposals tx with [] => true | _ => false end) then
    let deltas := foldl (fun deltas key => add_for_entity deltas (CardanoDelta.DDRepDormancyRelease
      (DRepDormancyRelease.new key (dormant_epochs c) (dv_current_epoch v)))) deltas (release_targets c) in
    let deltas := add_for_entity deltas (CardanoDelta.DGovDormancyReset GovDormancyReset.new) in
    (v <| dv_dormancy := mkDormancyContext 0 (drep_keys c) [] |>, deltas)
  else (v, deltas).

(** One voter of the transaction. *)
Definition drep_votes (v : DRepStateVisitor) (block : MultiEraBlock) (deltas : Deltas) (voter : Voter) : run Deltas :=
  match match voter with
        | VoterDRepKey hash => Some (DRepKey hash)
        | VoterDRepScript hash => Some (DRepScript hash)
        | _ => None
        end with
  | None => Ret deltas
  | Some drep =>
      let deltas := add_for_entity deltas (CardanoDelta.DDRepActivity (DRepActivity.new drep (mb_slot block))) in
      expiry ← refresh_expiry v;
      Ret match expiry with
          | Some expiry => add_for_entity deltas (CardanoDelta.DDRepExpiryUpdate
              (DRepExpiryUpdate.new drep expiry (dv_current_epoch v) true))
          | None => deltas
          end
  end.

Definition drep_visit_tx (v : DRepStateVisitor) (deltas : Deltas) (block : MultiEraBlock) (tx : MultiEraTx) :
    visit DRepStateVisitor :=
  match mt_conway tx with
  | None => skip v deltas
  | Some conway_tx =>
      if negb (mt_is_valid tx) then skip v deltas
      else
        let '(v, deltas) := release_dormancy v deltas tx in
        match voting_procedures conway_tx with
        | None => skip v deltas
        | Some procedures => keep v (run_foldl (drep_votes v block) deltas (fst <$> procedures))
        end
  end.

Definition add_expiry (v : DRepStateVisitor) (drep : DRep) (deltas : Deltas) (expiry : option Epoch) : Deltas :=
  match expiry with
  | Some expiry => add_for_entity deltas (CardanoDelta.DDRepExpiryUpdate
      (DRepExpiryUpdate.new drep expiry (dv_current_epoch v) false))
  | None => deltas
  end.

(** The arms of the match on the certificate of a DRep. *)
Definition drep_cert (v : DRepStateVisitor) (deltas : Deltas) (block : MultiEraBlock) (order : TxOrder)
    (drep : DRep) (cert : MultiEraCert) : run (DRepStateVisitor * Deltas) :=
  match cert with
  | ConwayEra (ConwayRegDRepCert _ deposit anchor) =>
      let deltas := add_for_entity deltas (CardanoDelta.DDRepRegistration
        (DRepRegistration.new drep (mb_slot block) order deposit anchor)) in
      let deltas := add_for_entity deltas (CardanoDelta.DDRepAnchorUpdate (DRepAnchorUpdate.new drep anchor)) in
      expiry ← registration_expiry v;
      let deltas := add_expiry v drep deltas expiry in
      let c := dv_dormancy v in
      Ret (if 0 <? dormant_epochs c
           then v <| dv_dormancy := mkDormancyContext (dormant_epochs c) (drep_keys c)
                                      (batch_registrations c ++ [drep_to_entity_key drep]) |>
           else v, deltas)
  | ConwayEra (ConwayUnRegDRepCert _ _) =>
      Ret (v, add_for_entity deltas (CardanoDelta.DDRepUnRegistration
        (DRepUnRegistration.new drep (mb_slot block) order)))
  | ConwayEra (ConwayUpdateDRepCert _ anchor) =>
      let deltas := add_for_entity deltas (CardanoDelta.DDRepAnchorUpdate (DRepAnchorUpdate.new drep anchor)) in
      expiry ← refresh_expiry v;
      Ret (v, add_expiry v drep deltas expiry)
  | _ => Ret (v, deltas)
  end.

Definition committee_cert (deltas : Deltas) (block : MultiEraBlock) (cert : MultiEraCert) : Deltas :=
  let deltas := match cert_as_committee_auth cert with
                | Some auth => add_for_entity deltas (CardanoDelta.DCommitteeAuth
                    (CommitteeAuth.new (auth_cold auth) (auth_hot auth) (mb_slot block)))
                | None => deltas
                end in
  match cert_as_committee_resign cert with
  | Some resign => add_for_entity deltas (CardanoDelta.DCommitteeResign
      (CommitteeResign.new (resign_cold resign) (resign_anchor resign) (mb_slot block)))
  | None => deltas
  end.

Definition drep_visit_cert (v : DRepStateVisitor) (deltas : Deltas) (block : MultiEraBlock) (order : TxOrder)
    (cert : MultiEraCert) : run (DRepStateVisitor * Deltas) :=
  let deltas := committee_cert deltas block cert in
  match cert_drep cert with
  | None => Ret (v, deltas)
  | Some drep =>
      r ← drep_cert v deltas block order drep cert;
      Ret (fst r, add_for_entity (snd r) (CardanoDelta.DDRepActivity (DRepActivity.new drep (mb_slot block))))
  end.

#[global] Instance DRepStateVisitor_visitor : BlockVisitor DRepStateVisitor := {|
  visit_root v deltas _ _ pparams epoch _ protocol :=
    v ← drep_visit_root v pparams epoch protocol; Ret (Ok (v, deltas));
  visit_tx v deltas block tx _ := drep_visit_tx v deltas block tx;
  visit_input v deltas _ _ _ _ := skip v deltas;
  visit_output v deltas _ _ _ _ := skip v deltas;
  visit_mint v deltas _ _ _ := skip v deltas;
  visit_cert v deltas block _ order cert := r ← drep_visit_cert v deltas block order cert; Ret (Ok r);
  visit_withdrawal v deltas _ _ _ _ := skip v deltas;
  visit_update v deltas _ _ _ := skip v deltas;
  visit_datums v deltas _ _ _ := skip v deltas;
  visit_proposal v deltas _ _ _ _ := skip v deltas;
  visit_redeemers v deltas _ _ _ := skip v deltas;
  flush v deltas := skip v deltas;
|}.

(** *** The epoch (epochs.rs) *)

Definition compute_collateral_value (tx : MultiEraTx) (utxos : Resolved) : run (result ChainError Lovelace) :=
  _ ← debug_assert (negb (mt_is_valid tx));
  total ←? Codec.for_each (fun total input =>
      match utxos !! input_ref input with
      | None => Ret (Err (BrokenInv (MissingUtxo (input_ref input))))
      | Some utxo => total ← uadd 64 total (out_coin utxo); Ret (Ok total)
      end) 0 (mt_consumes tx);
  total ← run_foldl (fun total o => usub 64 total (out_coin (snd o))) total (mt_produces tx);
  Ret (Ok total).

Definition define_tx_fees (tx : MultiEraTx) (utxos : Resolved) : run (result ChainError Lovelace) :=
  match mt_byron_fee tx with
  | Some fee => Ret (Ok fee)
  | None =>
      if mt_is_valid tx then Ret (Ok (default 0 (mt_fee tx)))
      else match mt_total_collateral tx with
           | Some collateral => Ret (Ok collateral)
           | None => compute_collateral_value tx utxos
           end
  end.

Definition tx_treasury_donation (tx : MultiEraTx) : option Lovelace :=
  match mt_conway tx with Some x => donation x | None => None end.

Record EpochStateVisitor := mkEpochStateVisitor {
  stats_delta : option EpochStatsUpdate.t;
  nonces_delta : option NoncesUpdate.t;
}.

(** [x.saturating_mul(numer).saturating_add(denom - 1) / denom]. *)
Definition overlay_step (numer denom x : Z) : Z :=
  saturating_add 128 (Z.min (x * numer) (u_max 128)) (denom - 1) / denom.

Definition is_overlay_slot (first_slot : Z) (d : RationalNumber) (slot : Z) : bool :=
  let s := saturating_sub 64 slot first_slot in
  let numer := numerator d in
  let denom := denominator d in
  if denom =? 0 then false
  else overlay_step numer denom s <? overlay_step numer denom (s + 1).

Definition era_is_shelley_or_later (era : TraverseEra) : bool :=
  match era with TByron => false | _ => true end.

Definition epoch_visit_root (v : EpochStateVisitor) (block : MultiEraBlock) (pparams : PParamsSet.t) (epoch : Epoch)
    (epoch_start : Z) : run (result ChainError EpochStateVisitor) :=
  let stats := EpochStatsUpdate.new epoch 0 0 0 0 0 ∅ 0 0 0 0 0 0 0 0 0 (mb_slot block) in
  d ← ensured_ok (PParamsSet.ensure_d pparams);
  let is_overlay := match d with
                    | Some d => is_overlay_slot epoch_start d (mb_slot block)
                    | None => false
                    end in
  stats ← (if negb is_overlay then upd_m EpochStatsUpdate.non_overlay_blocks_minted (fun x => uadd 32 x 1) stats
           else Ret stats);
  if era_is_shelley_or_later (mb_era block) then
    match mb_nonce_vrf_output block with
    | None => Ret (Err DecodingError)
    | Some output =>
        Ret (Ok (mkEpochStateVisitor (Some stats)
          (Some (NoncesUpdate.new (mb_slot block) (mb_previous_hash block) output))))
    end
  else Ret (Ok (mkEpochStateVisitor (Some stats) (nonces_delta v))).

(** [self.stats_delta.as_mut().unwrap()]. *)
Definition with_stats (v : EpochStateVisitor) (f : EpochStatsUpdate.t -> run EpochStatsUpdate.t) :
    run EpochStateVisitor :=
  stats ← expect (stats_delta v);
  stats ← f stats;
  Ret (mkEpochStateVisitor (Some stats) (nonces_delta v)).

(** [stats.field += amount]. *)
Definition bump (field : EpochStatsUpdate.t -> Z) `{!Setter field} (amount : Z) (stats : EpochStatsUpdate.t) :
    run EpochStatsUpdate.t := upd_m field (fun x => uadd 64 x amount) stats.

Definition epoch_visit_tx (v : EpochStateVisitor) (tx : MultiEraTx) (utxos : Resolved) :
    run (result ChainError EpochStateVisitor) :=
  fees ←? define_tx_fees tx utxos;
  v ← with_stats v (bump EpochStatsUpdate.block_fees fees);
  v ← with_stats v (bump EpochStatsUpdate.tx_count 1);
  v ← match tx_treasury_donation tx with
      | Some donation => with_stats v (bump EpochStatsUpdate.treasury_donations donation)
      | None => Ret v
      end;
  Ret (Ok v).

Definition epoch_visit_input (v : EpochStateVisitor) (resolved : OutputView) : run EpochStateVisitor :=
  with_stats v (upd_m EpochStatsUpdate.utxo_delta (fun x => native_i64 (x - as_i64 (out_coin resolved)))).

Definition epoch_visit_output (v : EpochStateVisitor) (output : OutputView) : run EpochStateVisitor :=
  with_stats v (fun stats =>
    stats ← upd_m EpochStatsUpdate.utxo_delta (fun x => native_i64 (x + as_i64 (out_coin output))) stats;
    upd_m EpochStatsUpdate.output (fun x => uadd 128 x (out_coin output)) stats).

(** The targets of a MIR certificate. *)
Definition add_mirs (field : EpochStatsUpdate.t -> Z) `{!Setter field} (v : EpochStateVisitor)
    (creds : list (StakeCredential * Z)) : run EpochStateVisitor :=
  run_foldl (fun v x => with_stats v (bump field (Z.max (snd x) 0))) v creds.

Definition epoch_visit_cert (v : EpochStateVisitor) (cert : MultiEraCert) : run EpochStateVisitor :=
  v ← match cert_as_stake_registration cert with
      | Some _ => with_stats v (bump EpochStatsUpdate.new_accounts 1) | None => Ret v end;
  v ← match cert_as_stake_deregistration cert with
      | Some _ => with_stats v (bump EpochStatsUpdate.removed_accounts 1) | None => Ret v end;
  v ← match cert_as_pool_registration cert with
      | Some cert => with_stats v (fun stats => Ret (stats <| EpochStatsUpdate.registered_pools :=
          {[ MultiEraPoolRegistration.operator cert ]} ∪ EpochStatsUpdate.registered_pools stats |>))
      | None => Ret v
      end;
  v ← match cert_as_drep_registration cert with
      | Some cert => with_stats v (bump EpochStatsUpdate.drep_deposits (drep_reg_deposit cert)) | None => Ret v end;
  v ← match cert_as_drep_unregistration cert with
      | Some cert => with_stats v (bump EpochStatsUpdate.drep_refunds (drep_reg_deposit cert)) | None => Ret v end;
  match cert_as_mir_certificate cert with
  | Some mir =>
      match mir_source mir, mir_target mir with
      | MirReserves, StakeCredentials creds => add_mirs EpochStatsUpdate.reserve_mirs v creds
      | MirTreasury, StakeCredentials creds => add_mirs EpochStatsUpdate.treasury_mirs v creds
      | _, _ => Ret v
      end
  | None => Ret v
  end.

Definition epoch_flush (v : EpochStateVisitor) (deltas : Deltas) : EpochStateVisitor * Deltas :=
  let deltas := match stats_delta v with
                | Some d => add_for_entity deltas (CardanoDelta.DEpochStatsUpdate d) | None => deltas end in
  let deltas := match nonces_delta v with
                | Some d => add_for_entity deltas (CardanoDelta.DNoncesUpdate d) | None => deltas end in
  (mkEpochStateVisitor None None, deltas).

(** A method that leaves the deltas as they are. *)
Definition state_only {V : Type} (deltas : Deltas) (m : run V) : visit V := v ← m; Ret (Ok (v, deltas)).

#[global] Instance EpochStateVisitor_visitor : BlockVisitor EpochStateVisitor := {|
  visit_root v deltas block _ pparams epoch epoch_start _ :=
    v ←? epoch_visit_root v block pparams epoch epoch_start; Ret (Ok (v, deltas));
  visit_tx v deltas _ tx utxos := v ←? epoch_visit_tx v tx utxos; Ret (Ok (v, deltas));
  visit_input v deltas _ _ _ resolved := state_only deltas (epoch_visit_input v resolved);
  visit_output v deltas _ _ _ output := state_only deltas (epoch_visit_output v output);
  visit_mint v deltas _ _ _ := skip v deltas;
  visit_cert v deltas _ _ _ cert := state_only deltas (epoch_visit_cert v cert);
  visit_withdrawal v deltas _ _ _ amount :=
    state_only deltas (with_stats v (bump EpochStatsUpdate.withdrawals amount));
  visit_update v deltas _ _ _ := skip v deltas;
  visit_datums v deltas _ _ _ := skip v deltas;
  visit_proposal v deltas _ _ proposal _ :=
    state_only deltas (with_stats v (bump EpochStatsUpdate.proposal_deposits (mp_deposit proposal)));
  visit_redeemers v deltas _ _ _ := skip v deltas;
  flush v deltas := Ret (Ok (epoch_flush v deltas));
|}.

(** *** Pools (pools.rs) *)

Record PoolStateVisitor := mkPoolStateVisitor { pv_epoch : option Epoch; pv_deposit : option Z }.

Definition pool_visit_root (deltas : Deltas) (block : MultiEraBlock) (pparams : PParamsSet.t) (epoch : Epoch) :
    run (PoolStateVisitor * Deltas) :=
  deposit ← ensured_ok (PParamsSet.ensure_pool_deposit pparams);
  Ret (mkPoolStateVisitor (Some epoch) deposit,
       match mb_issuer_vkey block with
       | Some key => add_for_entity deltas (CardanoDelta.DMintedBlocksInc
           (MintedBlocksInc.new (blake2b_224 key) 1 epoch))
       | None => deltas
       end).

Definition pool_visit_cert (v : PoolStateVisitor) (deltas : Deltas) (block : MultiEraBlock) (cert : MultiEraCert) :
    run Deltas :=
  deltas ← match cert_as_pool_registration cert with
           | Some cert =>
               epoch ← expect (pv_epoch v);
               deposit ← expect (pv_deposit v);
               Ret (add_for_entity deltas (CardanoDelta.DPoolRegistration
                 (PoolRegistration.new cert (mb_slot block) epoch deposit)))
           | None => Ret deltas
           end;
  Ret match cert with
      | AlonzoCompatible (AlonzoPoolRetirement operator epoch)
      | ConwayEra (ConwayPoolRetirement operator epoch) =>
          add_for_entity deltas (CardanoDelta.DPoolDeRegistration (PoolDeRegistration.new operator epoch))
      | _ => deltas
      end.

#[global] Instance PoolStateVisitor_visitor : BlockVisitor PoolStateVisitor := {|
  visit_root _ deltas block _ pparams epoch _ _ := r ← pool_visit_root deltas block pparams epoch; Ret (Ok r);
  visit_tx v deltas _ _ _ := skip v deltas;
  visit_input v deltas _ _ _ _ := skip v deltas;
  visit_output v deltas _ _ _ _ := skip v deltas;
  visit_mint v deltas _ _ _ := skip v deltas;
  visit_cert v deltas block _ _ cert := keep v (pool_visit_cert v deltas block cert);
  visit_withdrawal v deltas _ _ _ _ := skip v deltas;
  visit_update v deltas _ _ _ := skip v deltas;
  visit_datums v deltas _ _ _ := skip v deltas;
  visit_proposal v deltas _ _ _ _ := skip v deltas;
  visit_redeemers v deltas _ _ _ := skip v deltas;
  flush v deltas := skip v deltas;
|}.

(** *** Transaction logs (txs.rs): every method does nothing. *)

Inductive TxLogVisitor := mkTxLogVisitor.

#[global] Instance TxLogVisitor_visitor : BlockVisitor TxLogVisitor := {|
  visit_root v deltas _ _ _ _ _ _ := skip v deltas;
  visit_tx v deltas _ _ _ := skip v deltas;
  visit_input v deltas _ _ _ _ := skip v deltas;
  visit_output v deltas _ _ _ _ := skip v deltas;
  visit_mint v deltas _ _ _ := skip v deltas;
  visit_cert v deltas _ _ _ _ := skip v deltas;
  visit_withdrawal v deltas _ _ _ _ := skip v deltas;
  visit_update v deltas _ _ _ := skip v deltas;
  visit_datums v deltas _ _ _ := skip v deltas;
  visit_proposal v deltas _ _ _ _ := skip v deltas;
  visit_redeemers v deltas _ _ _ := skip v deltas;
  flush v deltas := skip v deltas;
|}.

(** *** Proposals and votes (proposals.rs) *)

Record ProposalVisitor := mkProposalVisitor {
  prv_validity_period : option Z;
  prv_current_epoch : option Epoch;
  prv_network_magic : option Z;
  prv_protocol : option Z;
  pending_votes : list VoteCast.t;
}.

Definition proposal_visit_root (v : ProposalVisitor) (genesis : Genesis) (pparams : PParamsSet.t) (epoch : Epoch)
    (protocol : Z) : run ProposalVisitor :=
  validity_period ← PParamsSet.governance_action_validity_period pparams;
  Ret (mkProposalVisitor validity_period (Some epoch)
    (Some (default 0 (shelley_network_magic (shelley genesis)))) (Some protocol) (pending_votes v)).

(** The votes of one voter. *)
Definition votes_of (block : MultiEraBlock) (x : Voter * list (GovActionId * Vote)) : list VoteCast.t :=
  (fun y => VoteCast.new (transaction_id (fst y)) (action_index (fst y)) (fst x) (snd y) (mb_slot block)) <$> snd x.

Definition proposal_visit_tx (v : ProposalVisitor) (block : MultiEraBlock) (tx : MultiEraTx) : ProposalVisitor :=
  match mt_conway tx with
  | None => v
  | Some conway_tx =>
      if negb (mt_is_valid tx) then v
      else match voting_procedures conway_tx with
           | None => v
           | Some procedures =>
               mkProposalVisitor (prv_validity_period v) (prv_current_epoch v) (prv_network_magic v) (prv_protocol v)
                 (pending_votes v ++ (procedures ≫= votes_of block))
           end
  end.

Definition proposal_visit_update (v : ProposalVisitor) (deltas : Deltas) (block : MultiEraBlock)
    (tx : option MultiEraTx) (update : MultiEraUpdate) : run Deltas :=
  action ← pre_conway_to_pparamset update;
  epoch ← expect (prv_current_epoch v);
  magic ← expect (prv_network_magic v);
  protocol ← expect (prv_protocol v);
  Ret (add_for_entity deltas (CardanoDelta.DNewProposalV2 (NewProposalV2.new (mb_slot block)
    (match tx with Some tx => mt_hash tx | None => mb_hash block end) 0 (ParamChange action) None None
    (prv_validity_period v) epoch magic protocol None None None))).

Definition proposal_visit_proposal (v : ProposalVisitor) (deltas : Deltas) (block : MultiEraBlock) (tx : MultiEraTx)
    (proposal : MultiEraProposal) (idx : Z) : run (result ChainError Deltas) :=
  match as_conway proposal with
  | None => Ret (Ok deltas)
  | Some proposal =>
      r ← parse_gov_action (pp_gov_action proposal);
      let '(action, parent, purpose) := r in
      account ← parse_reward_account (pp_reward_account proposal);
      match account with
      | None => Ret (Err InvalidProposalParams)
      | Some reward_account =>
          epoch ← expect (prv_current_epoch v);
          magic ← expect (prv_network_magic v);
          protocol ← expect (prv_protocol v);
          Ret (Ok (add_for_entity deltas (CardanoDelta.DNewProposalV2 (NewProposalV2.new (mb_slot block)
            (mt_hash tx) (as_u 32 idx) action (Some (pp_deposit proposal)) (Some reward_account)
            (prv_validity_period v) epoch magic protocol parent purpose (Some (pp_anchor proposal))))))
      end
  end.

Definition proposal_flush (v : ProposalVisitor) (deltas : Deltas) : ProposalVisitor * Deltas :=
  (mkProposalVisitor (prv_validity_period v) (prv_current_epoch v) (prv_network_magic v) (prv_protocol v) [],
   foldl (fun deltas vote => add_for_entity deltas (CardanoDelta.DVoteCast vote)) deltas (pending_votes v)).

#[global] Instance ProposalVisitor_visitor : BlockVisitor ProposalVisitor := {|
  visit_root v deltas _ genesis pparams epoch _ protocol :=
    state_only deltas (proposal_visit_root v genesis pparams epoch protocol);
  visit_tx v deltas block tx _ := skip (proposal_visit_tx v block tx) deltas;
  visit_input v deltas _ _ _ _ := skip v deltas;
  visit_output v deltas _ _ _ _ := skip v deltas;
  visit_mint v deltas _ _ _ := skip v deltas;
  visit_cert v deltas _ _ _ _ := skip v deltas;
  visit_withdrawal v deltas _ _ _ _ := skip v deltas;
  visit_update v deltas block tx update := keep v (proposal_visit_update v deltas block tx update);
  visit_datums v deltas _ _ _ := skip v deltas;
  visit_proposal v deltas block tx proposal idx :=
    deltas ←? proposal_visit_proposal v deltas block tx proposal idx; Ret (Ok (v, deltas));
  visit_redeemers v deltas _ _ _ := skip v deltas;
  flush v deltas := Ret (Ok (proposal_flush v deltas));
|}.

End visitors.
