(* ===== verification/Cip151.v ===== *)
(** * Calidus keys of pools (cardano/src/cip151.rs)

    The CIP-151 registration a transaction carries in its metadata under the
    label 867: the pool, the nonce and the key it registers. *)

From Stdlib Require Import String.
From S2P Require Import Prelude Lists Types StateStore Metadata PallasExtras Visitors.
Open Scope Z_scope.

Definition CIP151_METADATA_LABEL : Z := 867.
Definition POOL_SCOPE_KIND : Z := 1.
Definition CALIDUS_KEY_HASH_HEADER : Z := 0xa1.

Record Cip151PoolRegistration := {
  c151_version : Z;
  c151_pool_id : Hash28;
  c151_validation_method : Z;
  c151_nonce : Z;
  c151_calidus_pub_key : bytes;
}.

Inductive Cip151Error :=
| MissingField (field : string)
| InvalidType (field expected : string)
| UnsupportedVersion (version : Z)
| UnsupportedScopeKind (kind : Z)
| InvalidPoolIdLength (len : Z)
| InvalidValidationMethod (method : Z)
| InvalidCalidusKeyLength (len : Z).

Definition cip151_metadata_for_tx (metadata : list (Z * Metadatum)) : option Metadatum :=
  find_metadata metadata CIP151_METADATA_LABEL.

(** The first entry whose key is the integer. *)
Fixpoint lookup_key (items : list (Metadatum * Metadatum)) (key : Z) : option Metadatum :=
  match items with
  | [] => None
  | (MInt value, v) :: rest => if value =? key then Some v else lookup_key rest key
  | _ :: rest => lookup_key rest key
  end.

Definition as_map (value : Metadatum) (field : string) : result Cip151Error (list (Metadatum * Metadatum)) :=
  match value with MMap items => Ok items | _ => Err (InvalidType field "map") end.

Definition as_array (value : Metadatum) (field : string) : result Cip151Error (list Metadatum) :=
  match value with MArray items => Ok items | _ => Err (InvalidType field "array") end.

(** An integer that fits a [u64]. *)
Definition as_uint (value : Metadatum) (field : string) : result Cip151Error Z :=
  match value with
  | MInt value => if decide (is_u 64 value) then Ok value else Err (InvalidType field "uint")
  | _ => Err (InvalidType field "uint")
  end.

Definition as_bytes (value : Metadatum) (field : string) : result Cip151Error bytes :=
  match value with MBytes b => Ok b | _ => Err (InvalidType field "bytes") end.

Definition and_then {A B} (m : result Cip151Error A) (f : A -> result Cip151Error B) : result Cip151Error B :=
  match m with Ok a => f a | Err e => Err e end.

#[local] Notation "x ←! m ; f" := (and_then m (fun x => f)) (at level 20, m at level 100, f at level 200, right associativity).

(** [ok_or(MissingField(..)).and_then(..)]. *)
Definition field {A} (value : option Metadatum) (name : string) (f : Metadatum -> string -> result Cip151Error A) :
    result Cip151Error A :=
  match value with Some x => f x name | None => Err (MissingField name) end.

(** The loop that checks the features. *)
Fixpoint all_uint (items : list Metadatum) (name : string) : result Cip151Error unit :=
  match items with
  | [] => Ok tt
  | item :: rest => _ ←! as_uint item name; all_uint rest name
  end.

Definition parse_cip151_pool_registration (metadata : Metadatum) : result Cip151Error Cip151PoolRegistration :=
  registration ←! as_map metadata "registration";
  version ←! field (lookup_key registration 0) "version" as_uint;
  if negb (version =? 2) then Err (UnsupportedVersion version) else
  payload ←! field (lookup_key registration 1) "payload" as_map;
  scope ←! field (lookup_key payload 1) "scope" as_array;
  scope_kind ←! field (head scope) "scope[0]" as_uint;
  if negb (scope_kind =? POOL_SCOPE_KIND) then Err (UnsupportedScopeKind scope_kind) else
  pool_id ←! field (scope !! 1%nat) "scope[1]" as_bytes;
  if negb (Z.of_nat (length pool_id) =? 28) then Err (InvalidPoolIdLength (Z.of_nat (length pool_id))) else
  feature_set ←! field (lookup_key payload 2) "feature_set" as_array;
  _ ←! all_uint feature_set "feature_set[]";
  validation ←! field (lookup_key payload 3) "validation_method" as_array;
  validation_method ←! field (head validation) "validation_method[0]" as_uint;
  if negb ((0 <=? validation_method) && (validation_method <=? 2)) then Err (InvalidValidationMethod validation_method) else
  nonce ←! field (lookup_key payload 4) "nonce" as_uint;
  calidus_pub_key ←! field (lookup_key payload 7) "calidus_key" as_bytes;
  if negb (Z.of_nat (length calidus_pub_key) =? 32)
  then Err (InvalidCalidusKeyLength (Z.of_nat (length calidus_pub_key)))
  else Ok {| c151_version := version; c151_pool_id := pool_id; c151_validation_method := validation_method;
             c151_nonce := nonce; c151_calidus_pub_key := calidus_pub_key |}.

Definition calidus_key_is_revoked (pub_key : bytes) : bool := forallb (fun byte => byte =? 0) pub_key.

Definition calidus_key_id_bytes `{Hasher224} (pub_key : bytes) : bytes :=
  CALIDUS_KEY_HASH_HEADER :: blake2b_224 pub_key.

(** ** What is accepted *)

Lemma and_then_Ok {A B} (m : result Cip151Error A) (f : A -> result Cip151Error B) b :
  and_then m f = Ok b -> exists a, m = Ok a /\ f a = Ok b.
Proof. destruct m; cbn; [eauto|done]. Qed.

Lemma as_uint_range value name x : as_uint value name = Ok x -> is_u 64 x.
Proof. unfold as_uint. destruct value; try discriminate. by case_decide; intros [= <-]. Qed.

Lemma field_Ok {A} value name (f : Metadatum -> string -> result Cip151Error A) a :
  field value name f = Ok a -> exists x, value = Some x /\ f x name = Ok a.
Proof. destruct value; cbn; [eauto|done]. Qed.

(** A registration that is accepted is one of a pool: its version is two, the
    pool and the key have their lengths and the numbers are within range. *)
Lemma registration_accepted metadata r :
  parse_cip151_pool_registration metadata = Ok r ->
  c151_version r = 2 /\ length (c151_pool_id r) = 28%nat /\ length (c151_calidus_pub_key r) = 32%nat /\
  0 ≤ c151_validation_method r ≤ 2 /\ is_u 64 (c151_nonce r).
Proof.
  unfold parse_cip151_pool_registration. intros E.
  repeat match goal with
  | H : and_then _ _ = Ok _ |- _ => apply and_then_Ok in H as (? & ? & H)
  | H : (if negb ?b then _ else _) = Ok _ |- _ => destruct b eqn:?; cbn [negb] in H; [|discriminate H]
  end.
  injection E as <-. cbn.
  match goal with H : field (lookup_key _ 4) _ _ = Ok _ |- _ => apply field_Ok in H as (? & _ & ?%as_uint_range) end.
  rewrite andb_true_iff in *. repeat rewrite Z.eqb_eq in *. rewrite !Z.leb_le in *. split_and!; lia || done.
Qed.

(** The parts of a registration, as metadata. *)
Definition registration_metadata (r : Cip151PoolRegistration) (features : list Z) : Metadatum :=
  MMap [(MInt 0, MInt (c151_version r));
        (MInt 1, MMap [(MInt 1, MArray [MInt POOL_SCOPE_KIND; MBytes (c151_pool_id r)]);
                       (MInt 2, MArray (MInt <$> features));
                       (MInt 3, MArray [MInt (c151_validation_method r)]);
                       (MInt 4, MInt (c151_nonce r));
                       (MInt 7, MBytes (c151_calidus_pub_key r))])].

Lemma features_accepted features name : Forall (is_u 64) features -> all_uint (MInt <$> features) name = Ok tt.
Proof. induction 1 as [|x l Hx _ IH]; [done|]. cbn. by rewrite decide_True. Qed.

(** Every registration written so is read back. *)
Lemma registration_roundtrip r features :
  c151_version r = 2 -> length (c151_pool_id r) = 28%nat -> length (c151_calidus_pub_key r) = 32%nat ->
  0 ≤ c151_validation_method r ≤ 2 -> is_u 64 (c151_nonce r) -> Forall (is_u 64) features ->
  parse_cip151_pool_registration (registration_metadata r features) = Ok r.
Proof.
  destruct r as [ver pool method nonce key]. cbn. intros -> Hp Hk Hm Hn Hf. unfold parse_cip151_pool_registration, and_then.
  cbn -[all_uint Z.of_nat Z.leb]. rewrite Hp. cbn -[all_uint Z.of_nat Z.leb]. rewrite features_accepted by done.
  assert (Hmu : is_u 64 method) by (unfold is_u; lia). rewrite !decide_True by done.
  rewrite (proj2 (Z.leb_le 0 method)), (proj2 (Z.leb_le method 2)) by lia. cbn -[Z.of_nat]. by rewrite Hk.
Qed.
