(* ===== verification/IndexQuery.v ===== *)
(** * Queries over the index and the archive
    (core/src/async_query.rs, cardano/src/indexes/{ext,query}.rs)

    The index answers with slots and the archive holds the blocks.  The query
    extension walks the slots of a tag in chunks: a stream of blocks in either
    direction, and the first block with what is asked for.  A query sees one
    state of the stores; the limiter of blocking tasks is left out. *)

From stdpp Require Import sorting.
From Stdlib Require Import Sorted.
From S2P Require Import Prelude Lists Types ChainPoint EntityDelta StateStore Indexes Datums Blocks Metadata PallasExtras IndexBuilder CardanoModel Codec.
Open Scope Z_scope.

(** ** The stores *)

Inductive ArchiveError :=
| ArchiveBrokenInvariant (e : BrokenInvariant)
| ArchiveInternal (message : string)
| ArchiveAddressDecoding
| ArchiveQueryNotSupported
| ArchiveInvalidStoreVersion
| ArchiveDecoding
| ArchiveBlockDecoding
| ArchiveEntityDecoding (message : string)
| ArchiveNamespaceNotFound (ns : string).

(** The variants of [DomainError] a query returns. *)
Inductive QueryError :=
| QArchive (e : ArchiveError)
| QIndex (e : IndexError)
| QState (e : StateError)
| QChain (e : ChainError).

(** What queries read of the archive. *)
Class ArchiveReads (A : Type) := {
  get_block_by_slot : A -> BlockSlot -> result ArchiveError (option bytes);
  get_blocks_by_slot : A -> BlockSlot -> result ArchiveError (list bytes);
  get_tip : A -> result ArchiveError (option (BlockSlot * bytes));
  find_intersect : A -> list ChainPoint.t -> result ArchiveError (option ChainPoint.t);
}.

(** A slot within inclusive bounds. *)
Definition in_slots (start end_ slot : Z) : bool := (start <=? slot) && (slot <=? end_).

(** What they read of the index.  The slots of a tag are given in ascending
    order, both bounds included, as the trait documents. *)
Class IndexReads (I : Type) := {
  utxos_by_tag : I -> string -> bytes -> gset TxoRef;
  slot_by_block_hash : I -> bytes -> option BlockSlot;
  slot_by_block_number : I -> Z -> run (option BlockSlot);
  slot_by_tx_hash : I -> bytes -> option BlockSlot;
  slots_by_tag : I -> string -> bytes -> BlockSlot -> BlockSlot -> result IndexError (list BlockSlot);
  iter_archive_tags : I -> list string -> BlockSlot * BlockSlot -> list TagRecord;
  tag_slots : I -> string -> bytes -> option (list BlockSlot);
  tag_slots_ascend : forall i d k l, tag_slots i d k = Some l -> StronglySorted Z.lt l;
  slots_by_tag_reads : forall i d k start end_,
    slots_by_tag i d k start end_ =
      match tag_slots i d k with Some l => Ok (List.filter (in_slots start end_) l) | None => Err CodecError end;
}.

Record Domain (I A S : Type) := mkDomain { indexes : I; archive : A; state : S }.
Arguments mkDomain {I A S}.
Arguments indexes {I A S}.
Arguments archive {I A S}.
Arguments state {I A S}.

(** What the queries read of the transactions of a block. *)
Inductive ScriptLanguage := Native | PlutusV1 | PlutusV2 | PlutusV3.

Record ScriptData := { sd_language : ScriptLanguage; sd_script : bytes }.

Record QueryOutput := {
  qo_inline_datum : option (Hash32 * PlutusData);
  qo_script_ref : option (Hash28 * ScriptData);
}.

Record QueryTx := {
  qt_hash : TxHash;
  qt_encoded : bytes;
  qt_inputs : list TxoRef;
  qt_produces : list QueryOutput;
  qt_plutus_data : list (Hash32 * PlutusData);
  qt_redeemers : list (Hash32 * PlutusData);
  qt_native_scripts : list (Hash28 * bytes);
  qt_plutus_v1_scripts : list (Hash28 * bytes);
  qt_plutus_v2_scripts : list (Hash28 * bytes);
  qt_plutus_v3_scripts : list (Hash28 * bytes);
}.

Record QueryBlock := {
  qb_slot : BlockSlot;
  qb_hash : Hash32;
  qb_number : Z;
  qb_era : Z;
  qb_txs : list QueryTx;
}.

(** [MultiEraBlock::decode]. *)
Class QueryDecoder := { decode_query : bytes -> option QueryBlock }.

Definition find_index {T} (p : T -> bool) (l : list T) : option (nat * T) := list_find (fun x => p x = true) l.

(** ** The facade *)

Record BlockRefMeta := {
  brm_slot : BlockSlot;
  brm_hash : Hash32;
  brm_height : Z;
  brm_tx_hash : TxHash;
  brm_tx_index : TxOrder;
}.

Inductive SlotOrder := Asc | Desc.

Definition SLOT_CHUNK_SIZE : nat := 512.

Section queries.
Context {I A S : Type} `{!IndexReads I, !ArchiveReads A, QueryDecoder}.
Implicit Types (f : Domain I A S).

Abbreviation query T := (run (result QueryError T)).

Definition archived {T} (r : result ArchiveError T) : result QueryError T := map_err QArchive r.
Definition decoded_block (raw : bytes) : result QueryError QueryBlock :=
  match decode_query raw with Some b => Ok b | None => Err (QChain DecodingError) end.

Definition pick_by_hash (candidates : list bytes) (hash : bytes) : option bytes :=
  if (length candidates <=? 1)%nat then head candidates
  else List.find (fun body => match decode_query body with
                              | Some decoded => bool_decide (qb_hash decoded = hash)
                              | None => false
                              end) candidates.

Definition block_by_slot f (slot : BlockSlot) : result QueryError (option bytes) :=
  archived (get_block_by_slot (archive f) slot).

Definition block_by_hash f (hash : bytes) : query (option bytes) :=
  match slot_by_block_hash (indexes f) hash with
  | Some slot =>
      candidates ←? Ret (archived (get_blocks_by_slot (archive f) slot));
      Ret (Ok (pick_by_hash candidates hash))
  | None => Ret (Ok None)
  end.

Definition block_by_number f (number : Z) : query (option bytes) :=
  slot ← slot_by_block_number (indexes f) number;
  match slot with
  | Some slot => Ret (block_by_slot f slot)
  | None => Ret (Ok None)
  end.

Definition slot_by_number f (number : Z) : query (option BlockSlot) :=
  slot ← slot_by_block_number (indexes f) number;
  Ret (Ok slot).

(** The block at the slot of a transaction. *)
Definition raw_by_tx_hash f (tx_hash : bytes) : query (option bytes) :=
  match slot_by_tx_hash (indexes f) tx_hash with
  | Some slot => Ret (block_by_slot f slot)
  | None => Ret (Ok None)
  end.

Definition block_by_tx_hash f (tx_hash : bytes) : query (option (bytes * TxOrder)) :=
  raw ←? raw_by_tx_hash f tx_hash;
  match raw with
  | None => Ret (Ok None)
  | Some raw =>
      block ←? Ret (decoded_block raw);
      Ret (Ok (option_map (fun x => (raw, Z.of_nat (fst x)))
                 (find_index (fun tx => bool_decide (qt_hash tx = tx_hash)) (qb_txs block))))
  end.

Definition block_meta_by_tx_hash f (tx_hash : bytes) : query (option BlockRefMeta) :=
  raw ←? raw_by_tx_hash f tx_hash;
  match raw with
  | None => Ret (Ok None)
  | Some raw =>
      block ←? Ret (decoded_block raw);
      Ret (Ok (option_map (fun x => {| brm_slot := qb_slot block; brm_hash := qb_hash block; brm_height := qb_number block;
                                       brm_tx_hash := tx_hash; brm_tx_index := Z.of_nat (fst x) |})
                 (find_index (fun tx => bool_decide (qt_hash tx = tx_hash)) (qb_txs block))))
  end.

Definition tx_cbor f (tx_hash : bytes) : query (option EraCbor) :=
  raw ←? raw_by_tx_hash f tx_hash;
  match raw with
  | None => Ret (Ok None)
  | Some raw =>
      block ←? Ret (decoded_block raw);
      Ret (Ok (option_map (fun tx => (qb_era block, qt_encoded tx))
                 (List.find (fun tx => bool_decide (qt_hash tx = tx_hash)) (qb_txs block))))
  end.

Definition facade_slots_by_tag f (dimension : string) (key : bytes) (start end_ : BlockSlot) :
    result QueryError (list BlockSlot) :=
  map_err QIndex (slots_by_tag (indexes f) dimension key start end_).

Definition facade_find_intersect f (intersect : list ChainPoint.t) : result QueryError (option ChainPoint.t) :=
  archived (find_intersect (archive f) intersect).

(** ** Walking the slots of a tag *)

Abbreviation Item := (BlockSlot * option bytes)%type.

(** The blocks of some slots, until one cannot be read. *)
Fixpoint read_blocks f (slots : list BlockSlot) : list Item * option QueryError :=
  match slots with
  | [] => ([], None)
  | slot :: rest =>
      match block_by_slot f slot with
      | Ok block => let r := read_blocks f rest in ((slot, block) :: fst r, snd r)
      | Err e => ([], Some e)
      end
  end.

Definition blocks_by_tag f (dimension : string) (key : bytes) (start end_ : BlockSlot) : result QueryError (list Item) :=
  match facade_slots_by_tag f dimension key start end_ with
  | Ok slots => let r := read_blocks f slots in match snd r with Some e => Err e | None => Ok (fst r) end
  | Err e => Err e
  end.

(** How a chunk of the stream ends: with the bounds of the next one, with an
    error, or with the stream. *)
Inductive ChunkEnd :=
| Continue (start end_ : BlockSlot)
| Failed (e : QueryError)
| Returned.

Fixpoint yield_chunk `{BuildCfg} f (order : SlotOrder) (slots : list BlockSlot) (start end_ : BlockSlot) :
    run (list Item * ChunkEnd) :=
  match slots with
  | [] => Ret ([], Continue start end_)
  | slot :: rest =>
      match block_by_slot f slot with
      | Err e => Ret ([], Failed e)
      | Ok block =>
          match order with
          | Asc =>
              start ← uadd 64 slot 1;
              r ← yield_chunk f order rest start end_;
              Ret ((slot, block) :: fst r, snd r)
          | Desc =>
              if slot =? 0 then Ret ([(slot, block)], Returned)
              else end_ ← usub 64 slot 1;
                   r ← yield_chunk f order rest start end_;
                   Ret ((slot, block) :: fst r, snd r)
          end
      end
  end.

Definition next_chunk (order : SlotOrder) (slots : list BlockSlot) : list BlockSlot :=
  match order with Asc => take SLOT_CHUNK_SIZE slots | Desc => take SLOT_CHUNK_SIZE (reverse slots) end.

(** The items of the stream and the error that ends it; [None] when the fuel
    does not reach its end. *)
Fixpoint blocks_by_tag_stream `{BuildCfg} (fuel : nat) f (dimension : string) (key : bytes) (start end_ : BlockSlot)
    (order : SlotOrder) : run (option (list Item * option QueryError)) :=
  match fuel with
  | O => Ret None
  | Datatypes.S fuel =>
      match slots_by_tag (indexes f) dimension key start end_ with
      | Err e => Ret (Some ([], Some (QIndex e)))
      | Ok slots =>
          match next_chunk order slots with
          | [] => Ret (Some ([], None))
          | chunk =>
              r ← yield_chunk f order chunk start end_;
              match snd r with
              | Failed e => Ret (Some (fst r, Some e))
              | Returned => Ret (Some (fst r, None))
              | Continue start end_ =>
                  if end_ <? start then Ret (Some (fst r, None))
                  else rest ← blocks_by_tag_stream fuel f dimension key start end_ order;
                       Ret (option_map (fun x => (fst r ++ fst x, snd x)) rest)
              end
          end
      end
  end.

(** The first result of [predicate] among the blocks of some slots. *)
Fixpoint scan_slots {T} f (predicate : QueryBlock -> option T) (slots : list BlockSlot) : result QueryError (option T) :=
  match slots with
  | [] => Ok None
  | slot :: rest =>
      match block_by_slot f slot with
      | Err e => Err e
      | Ok None => scan_slots f predicate rest
      | Ok (Some raw) =>
          match decoded_block raw with
          | Err e => Err e
          | Ok block =>
              match predicate block with
              | Some result => Ok (Some result)
              | None => scan_slots f predicate rest
              end
          end
      end
  end.

Fixpoint find_first_by_tag {T} `{BuildCfg} (fuel : nat) f (dimension : string) (key : bytes) (start end_ : BlockSlot)
    (predicate : QueryBlock -> option T) : run (option (result QueryError (option T))) :=
  match fuel with
  | O => Ret None
  | Datatypes.S fuel =>
      match slots_by_tag (indexes f) dimension key start end_ with
      | Err e => Ret (Some (Err (QIndex e)))
      | Ok slots =>
          match take SLOT_CHUNK_SIZE slots with
          | [] => Ret (Some (Ok None))
          | chunk =>
              match scan_slots f predicate chunk with
              | Err e => Ret (Some (Err e))
              | Ok (Some result) => Ret (Some (Ok (Some result)))
              | Ok None =>
                  match last chunk with
                  | Some last =>
                      start ← uadd 64 last 1;
                      if end_ <? start then Ret (Some (Ok None))
                      else find_first_by_tag fuel f dimension key start end_ predicate
                  | None => find_first_by_tag fuel f dimension key start end_ predicate
                  end
              end
          end
      end
  end.

(** ** The Cardano index extension (ext.rs) *)

Definition utxos_by_address (i : I) (key : bytes) : gset TxoRef := utxos_by_tag i Utxo.ADDRESS key.
Definition utxos_by_payment (i : I) (key : bytes) : gset TxoRef := utxos_by_tag i Utxo.PAYMENT key.
Definition utxos_by_stake (i : I) (key : bytes) : gset TxoRef := utxos_by_tag i Utxo.STAKE key.
Definition utxos_by_policy (i : I) (key : bytes) : gset TxoRef := utxos_by_tag i Utxo.POLICY key.
Definition utxos_by_asset (i : I) (key : bytes) : gset TxoRef := utxos_by_tag i Utxo.ASSET key.
Definition utxos_by_script_ref (i : I) (key : bytes) : gset TxoRef := utxos_by_tag i Utxo.SCRIPT_REF key.

Definition slots_by_address (i : I) (key : bytes) (start end_ : BlockSlot) : result IndexError (list BlockSlot) :=
  slots_by_tag i ArchiveDim.ADDRESS key start end_.
Definition slots_by_payment (i : I) (key : bytes) (start end_ : BlockSlot) : result IndexError (list BlockSlot) :=
  slots_by_tag i ArchiveDim.PAYMENT key start end_.
Definition slots_by_stake (i : I) (key : bytes) (start end_ : BlockSlot) : result IndexError (list BlockSlot) :=
  slots_by_tag i ArchiveDim.STAKE key start end_.
Definition slots_by_asset (i : I) (key : bytes) (start end_ : BlockSlot) : result IndexError (list BlockSlot) :=
  slots_by_tag i ArchiveDim.ASSET key start end_.
Definition slots_by_policy (i : I) (key : bytes) (start end_ : BlockSlot) : result IndexError (list BlockSlot) :=
  slots_by_tag i ArchiveDim.POLICY key start end_.
Definition slots_by_datum (i : I) (key : bytes) (start end_ : BlockSlot) : result IndexError (list BlockSlot) :=
  slots_by_tag i ArchiveDim.DATUM key start end_.
Definition slots_by_spent_txo (i : I) (key : bytes) (start end_ : BlockSlot) : result IndexError (list BlockSlot) :=
  slots_by_tag i ArchiveDim.SPENT_TXO key start end_.
Definition slots_by_account_certs (i : I) (key : bytes) (start end_ : BlockSlot) : result IndexError (list BlockSlot) :=
  slots_by_tag i ArchiveDim.ACCOUNT_CERTS key start end_.
Definition slots_by_pool_certs (i : I) (key : bytes) (start end_ : BlockSlot) : result IndexError (list BlockSlot) :=
  slots_by_tag i ArchiveDim.POOL_CERTS key start end_.
Definition slots_by_account_withdrawals (i : I) (key : bytes) (start end_ : BlockSlot) : result IndexError (list BlockSlot) :=
  slots_by_tag i ArchiveDim.ACCOUNT_WITHDRAWALS key start end_.
Definition slots_by_metadata (i : I) (label : Z) (start end_ : BlockSlot) : result IndexError (list BlockSlot) :=
  slots_by_tag i ArchiveDim.METADATA (to_be_bytes 8 label) start end_.

Definition iter_all_archive_tags (i : I) (slots : BlockSlot * BlockSlot) : list TagRecord :=
  iter_archive_tags i ArchiveDim.ALL slots.

(** ** The Cardano query extension (query.rs) *)

Abbreviation stream := (run (option (list Item * option QueryError))).

Definition blocks_by_address_stream `{BuildCfg} (fuel : nat) f (key : bytes) (start end_ : BlockSlot) (order : SlotOrder) : stream :=
  blocks_by_tag_stream fuel f ArchiveDim.ADDRESS key start end_ order.
Definition blocks_by_payment_stream `{BuildCfg} (fuel : nat) f (key : bytes) (start end_ : BlockSlot) (order : SlotOrder) : stream :=
  blocks_by_tag_stream fuel f ArchiveDim.PAYMENT key start end_ order.
Definition blocks_by_stake_stream `{BuildCfg} (fuel : nat) f (key : bytes) (start end_ : BlockSlot) (order : SlotOrder) : stream :=
  blocks_by_tag_stream fuel f ArchiveDim.STAKE key start end_ order.
Definition blocks_by_asset_stream `{BuildCfg} (fuel : nat) f (key : bytes) (start end_ : BlockSlot) (order : SlotOrder) : stream :=
  blocks_by_tag_stream fuel f ArchiveDim.ASSET key start end_ order.
Definition blocks_by_policy_stream `{BuildCfg} (fuel : nat) f (key : bytes) (start end_ : BlockSlot) (order : SlotOrder) : stream :=
  blocks_by_tag_stream fuel f ArchiveDim.POLICY key start end_ order.
Definition blocks_by_account_certs_stream `{BuildCfg} (fuel : nat) f (key : bytes) (start end_ : BlockSlot) (order : SlotOrder) : stream :=
  blocks_by_tag_stream fuel f ArchiveDim.ACCOUNT_CERTS key start end_ order.
Definition blocks_by_pool_certs_stream `{BuildCfg} (fuel : nat) f (key : bytes) (start end_ : BlockSlot) (order : SlotOrder) : stream :=
  blocks_by_tag_stream fuel f ArchiveDim.POOL_CERTS key start end_ order.
Definition blocks_by_account_withdrawals_stream `{BuildCfg} (fuel : nat) f (key : bytes) (start end_ : BlockSlot) (order : SlotOrder) : stream :=
  blocks_by_tag_stream fuel f ArchiveDim.ACCOUNT_WITHDRAWALS key start end_ order.
Definition blocks_by_metadata_stream `{BuildCfg} (fuel : nat) f (label : Z) (start end_ : BlockSlot) (order : SlotOrder) : stream :=
  blocks_by_tag_stream fuel f ArchiveDim.METADATA (to_be_bytes 8 label) start end_ order.

Definition blocks_by_address f (key : bytes) (start end_ : BlockSlot) : result QueryError (list Item) :=
  blocks_by_tag f ArchiveDim.ADDRESS key start end_.
Definition blocks_by_payment f (key : bytes) (start end_ : BlockSlot) : result QueryError (list Item) :=
  blocks_by_tag f ArchiveDim.PAYMENT key start end_.
Definition blocks_by_stake f (key : bytes) (start end_ : BlockSlot) : result QueryError (list Item) :=
  blocks_by_tag f ArchiveDim.STAKE key start end_.
Definition blocks_by_asset f (key : bytes) (start end_ : BlockSlot) : result QueryError (list Item) :=
  blocks_by_tag f ArchiveDim.ASSET key start end_.
Definition blocks_by_account_certs f (key : bytes) (start end_ : BlockSlot) : result QueryError (list Item) :=
  blocks_by_tag f ArchiveDim.ACCOUNT_CERTS key start end_.
Definition blocks_by_pool_certs f (key : bytes) (start end_ : BlockSlot) : result QueryError (list Item) :=
  blocks_by_tag f ArchiveDim.POOL_CERTS key start end_.
Definition blocks_by_account_withdrawals f (key : bytes) (start end_ : BlockSlot) : result QueryError (list Item) :=
  blocks_by_tag f ArchiveDim.ACCOUNT_WITHDRAWALS key start end_.
Definition blocks_by_metadata f (label : Z) (start end_ : BlockSlot) : result QueryError (list Item) :=
  blocks_by_tag f ArchiveDim.METADATA (to_be_bytes 8 label) start end_.

(** The slot of the tip, where the searches end. *)
Definition tip_slot f : result QueryError BlockSlot :=
  match archived (get_tip (archive f)) with
  | Ok tip => Ok (match tip with Some (slot, _) => slot | None => 0 end)
  | Err e => Err e
  end.

(** The first transaction of a block that has a result. *)
Fixpoint first_in {T U} (find : T -> option U) (l : list T) : option U :=
  match l with
  | [] => None
  | x :: rest => match find x with Some y => Some y | None => first_in find rest end
  end.

Definition by_hash {T} (hash : bytes) (x : bytes * T) : option T :=
  if bool_decide (fst x = hash) then Some (snd x) else None.

Definition or_else {T} (a b : option T) : option T := match a with Some x => Some x | None => b end.

(** The witnesses, then the inline datums, then the redeemers. *)
Definition datum_in_tx (datum_hash : bytes) (tx : QueryTx) : option PlutusData :=
  or_else (first_in (by_hash datum_hash) (qt_plutus_data tx))
  (or_else (first_in (fun o => qo_inline_datum o ≫= by_hash datum_hash) (qt_produces tx))
           (first_in (by_hash datum_hash) (qt_redeemers tx))).

Definition script_of (language : ScriptLanguage) (script : bytes) : ScriptData :=
  {| sd_language := language; sd_script := script |}.

Definition witness_script (script_hash : bytes) (language : ScriptLanguage) (l : list (Hash28 * bytes)) : option ScriptData :=
  script_of language <$> first_in (by_hash script_hash) l.

Definition script_in_tx (script_hash : bytes) (tx : QueryTx) : option ScriptData :=
  or_else (witness_script script_hash Native (qt_native_scripts tx))
  (or_else (witness_script script_hash PlutusV1 (qt_plutus_v1_scripts tx))
  (or_else (witness_script script_hash PlutusV2 (qt_plutus_v2_scripts tx))
  (or_else (witness_script script_hash PlutusV3 (qt_plutus_v3_scripts tx))
           (first_in (fun o => qo_script_ref o ≫= by_hash script_hash) (qt_produces tx))))).

Definition spender_in_tx (spent_txo : bytes) (tx : QueryTx) : option TxHash :=
  if existsb (fun input => bool_decide (txo_ref_bytes (input_ref input) = spent_txo)) (qt_inputs tx)
  then Some (qt_hash tx) else None.

(** A search over the whole archive. *)
Definition search {T} `{BuildCfg} (fuel : nat) f (dimension : string) (key : bytes) (find : QueryTx -> option T) :
    run (option (result QueryError (option T))) :=
  match tip_slot f with
  | Err e => Ret (Some (Err e))
  | Ok end_slot => find_first_by_tag fuel f dimension key 0 end_slot (fun block => first_in find (qb_txs block))
  end.

Definition plutus_data `{BuildCfg} (fuel : nat) f (datum_hash : bytes) : run (option (result QueryError (option PlutusData))) :=
  search fuel f ArchiveDim.DATUM datum_hash (datum_in_tx datum_hash).

Definition script_by_hash `{BuildCfg} (fuel : nat) f (script_hash : bytes) : run (option (result QueryError (option ScriptData))) :=
  search fuel f ArchiveDim.SCRIPT script_hash (script_in_tx script_hash).

Definition tx_by_spent_txo `{BuildCfg} (fuel : nat) f (spent_txo : bytes) : run (option (result QueryError (option TxHash))) :=
  search fuel f ArchiveDim.SPENT_TXO spent_txo (spender_in_tx spent_txo).

End queries.

(** The witness datums kept in the state. *)
Definition get_datum {V I A S W} `{!EntityCbor V, !StateStore V S W} (f : Domain I A S) (datum_hash : Hash32) :
    run (result QueryError (option bytes)) :=
  r ← (read_typed DatumState.t (state f) (entity_key_from datum_hash) : run (result ChainError (option DatumState.t)));
  Ret match r with
      | Ok datum => Ok (option_map DatumState.bytes_ datum)
      | Err (ChainState e) => Err (QState e)
      | Err e => Err (QChain e)
      end.

(** ** The in-memory index store *)

Section memory.
Context `{Xxh3}.

Definition memory_tag_slots (s : MemoryIndex.t) (dimension : string) (key : bytes) : option (list BlockSlot) :=
  hash ← key_hash dimension key;
  Some (snd <$> List.filter (fun x => bool_decide (fst x = (dimension, hash))) (MemoryIndex.sorted_tags s)).

Lemma fmap_snd_filter {B} (p : B -> bool) (q : Z -> bool) (l : list (B * Z)) :
  snd <$> List.filter (fun x => p (fst x) && q (snd x)) l = List.filter q (snd <$> List.filter (fun x => p (fst x)) l).
Proof.
  induction l as [|x l IH]; [done|]. cbn. destruct (p (fst x)); cbn; [|exact IH]. destruct (q (snd x)); cbn; [f_equal|]; exact IH.
Qed.

Lemma filter_no_slots start end_ l : end_ < start -> List.filter (in_slots start end_) l = [].
Proof.
  intros Hlt. induction l as [|x l IH]; [done|]. cbn. unfold in_slots at 1.
  destruct (Z.leb_spec start x), (Z.leb_spec x end_); cbn; try exact IH. lia.
Qed.

Lemma memory_slots_ascend s d k l : memory_tag_slots s d k = Some l -> StronglySorted Z.lt l.
Proof.
  unfold memory_tag_slots. destruct (key_hash d k) as [hash|]; [|done]. intros [= <-].
  pose proof (sorted_list_filter _ (fun x => bool_decide (fst x = (d, hash))) _ (MemoryIndex.sorted_tags_strict s)) as Hs.
  assert (Hd : Forall (fun x => fst x = (d, hash)) (List.filter (fun x => bool_decide (fst x = (d, hash))) (MemoryIndex.sorted_tags s))).
  { apply Forall_forall. intros x [_ Hx%bool_decide_eq_true]%list_elem_of_In%filter_In. exact Hx. }
  revert Hd. induction Hs as [|x l Hs IH Hf]; intros Hd; [constructor|]. apply Forall_cons in Hd as [Hx Hd].
  cbn. constructor; [by apply IH|]. apply Forall_fmap. rewrite Forall_forall in Hf, Hd |- *. intros y Hy.
  specialize (Hf y Hy). specialize (Hd y Hy). cbn. destruct x as [dh a], y as [dh' b]. cbn in *. subst.
  unfold MemoryIndex.archive_tag_cmp, lex_cmp, MemoryIndex.dimension_cmp in Hf. cbn in Hf.
  rewrite !(cmp_laws_refl bytes_cmp) in Hf. cbn in Hf. by apply Z.compare_lt_iff.
Qed.

Lemma memory_slots_read s d k start end_ :
  MemoryIndex.slots_by_tag s d k start end_ =
    match memory_tag_slots s d k with Some l => Ok (List.filter (in_slots start end_) l) | None => Err CodecError end.
Proof.
  unfold MemoryIndex.slots_by_tag, memory_tag_slots. destruct (key_hash d k) as [hash|]; [|done]. cbn.
  destruct (Z.ltb_spec end_ start); [by rewrite filter_no_slots|]. f_equal.
  etransitivity; [|exact (fmap_snd_filter (fun y => bool_decide (y = (d, hash))) (in_slots start end_) _)].
  f_equal. apply filter_ext. intros x.
  unfold in_slots. by rewrite andb_assoc.
Qed.

#[export] Instance memory_reads : IndexReads MemoryIndex.t := {|
  utxos_by_tag := MemoryIndex.utxos_by_tag;
  slot_by_block_hash := MemoryIndex.slot_by_block_hash;
  slot_by_block_number := MemoryIndex.slot_by_block_number;
  slot_by_tx_hash := MemoryIndex.slot_by_tx_hash;
  slots_by_tag := MemoryIndex.slots_by_tag;
  iter_archive_tags := MemoryIndex.iter_archive_tags;
  tag_slots := memory_tag_slots;
  tag_slots_ascend := memory_slots_ascend;
  slots_by_tag_reads := memory_slots_read;
|}.

End memory.

(** ** Walking in chunks is walking through *)

Section chunks.
Context {I A S : Type} `{!IndexReads I, !ArchiveReads A, QueryDecoder, BuildCfg}.
Implicit Types (f : Domain I A S) (l c : list BlockSlot).

(** The slots of a query, in the order it asks for. *)
Definition ordered_slots (order : SlotOrder) l : list BlockSlot := match order with Asc => l | Desc => reverse l end.

Lemma filter_filter_slots start start' end_ end' l :
  start ≤ start' -> end' ≤ end_ ->
  List.filter (in_slots start' end') (List.filter (in_slots start end_) l) = List.filter (in_slots start' end') l.
Proof.
  intros Hs He. induction l as [|x l IH]; [done|]. cbn.
  destruct (in_slots start end_ x) eqn:E1; cbn; destruct (in_slots start' end' x) eqn:E2; rewrite ?IH; try done.
  unfold in_slots in *. rewrite andb_false_iff, !Z.leb_gt in E1. rewrite andb_true_iff, !Z.leb_le in E2. lia.
Qed.

Lemma list_filter_none {B} (p : B -> bool) k : (forall x, x ∈ k -> p x = false) -> List.filter p k = [].
Proof. induction k as [|x k IH]; [done|]. intros Hp. cbn. rewrite Hp by (by left). apply IH. intros. apply Hp. by right. Qed.

Lemma in_range_slots start end_ l x : x ∈ List.filter (in_slots start end_) l -> start ≤ x ≤ end_.
Proof. intros [_ Hx]%list_elem_of_In%filter_In. unfold in_slots in Hx. rewrite andb_true_iff, !Z.leb_le in Hx. lia. Qed.

(** What is left after a chunk that ends at [x]. *)
Lemma rest_asc start end_ l c x rest :
  StronglySorted Z.lt l -> List.filter (in_slots start end_) l = (c ++ [x]) ++ rest ->
  List.filter (in_slots (x + 1) end_) l = rest.
Proof.
  intros Hs E. assert (Hx : start ≤ x).
  { apply (in_range_slots start end_ l). rewrite E, !elem_of_app. left. right. by left. }
  rewrite <- (filter_filter_slots start (x + 1) end_ end_) by lia. pose proof (sorted_list_filter _ (in_slots start end_) _ Hs) as Hf.
  rewrite E in Hf |- *. rewrite List.filter_app. apply StronglySorted_app in Hf as (Hlt & Hc & Hr).
  rewrite list_filter_none, list_filter_all; [done| |].
  - intros y Hy. specialize (Hlt x y). assert (Hxy : x < y) by (apply Hlt; [apply elem_of_app; right; by left|done]).
    assert (Hye : start ≤ y ≤ end_) by (apply (in_range_slots start end_ l); rewrite E, elem_of_app; by right).
    unfold in_slots. rewrite andb_true_iff, !Z.leb_le. lia.
  - intros y Hy. apply StronglySorted_app in Hc as (Hlc & _). assert (y ≤ x).
    { apply elem_of_app in Hy as [Hy|Hy]; [|apply list_elem_of_singleton in Hy; lia].
      specialize (Hlc y x Hy). assert (y < x) by (apply Hlc; by left). lia. }
    unfold in_slots. rewrite andb_false_iff, !Z.leb_gt. lia.
Qed.

Lemma rest_desc start end_ l c x rest :
  StronglySorted Z.lt l -> reverse (List.filter (in_slots start end_) l) = (c ++ [x]) ++ rest ->
  reverse (List.filter (in_slots start (x - 1)) l) = rest.
Proof.
  intros Hs E. apply (f_equal reverse) in E. rewrite reverse_involutive, reverse_app, reverse_snoc in E.
  assert (Hx : x ≤ end_). { apply (in_range_slots start end_ l). rewrite E, elem_of_app, elem_of_cons. auto. }
  rewrite <- (filter_filter_slots start start end_ (x - 1)) by lia. pose proof (sorted_list_filter _ (in_slots start end_) _ Hs) as Hf.
  rewrite E in Hf |- *. rewrite List.filter_app. apply StronglySorted_app in Hf as (Hlt & Hr & Hc).
  rewrite list_filter_all, list_filter_none, app_nil_r, reverse_involutive; [done| |].
  - intros y Hy. assert (x ≤ y).
    { apply elem_of_cons in Hy as [->|Hy]; [lia|]. inversion Hc as [|? ? _ Hfa]. rewrite Forall_forall in Hfa. specialize (Hfa y Hy). lia. }
    unfold in_slots. rewrite andb_false_iff, !Z.leb_gt. lia.
  - intros y Hy. assert (Hxy : y < x) by (apply Hlt; [done|by left]).
    assert (Hye : start ≤ y ≤ end_) by (apply (in_range_slots start end_ l); rewrite E, elem_of_app; by left).
    unfold in_slots. rewrite andb_true_iff, !Z.leb_le. lia.
Qed.

Lemma read_blocks_app f c c' :
  read_blocks f (c ++ c') =
    match snd (read_blocks f c) with
    | Some e => (fst (read_blocks f c), Some e)
    | None => (fst (read_blocks f c) ++ fst (read_blocks f c'), snd (read_blocks f c'))
    end.
Proof.
  induction c as [|x c IH]; cbn; [by destruct (read_blocks f c')|].
  destruct (block_by_slot f x); [|done]. cbn. rewrite IH. by destruct (snd (read_blocks f c)).
Qed.

(** A chunk yields the blocks of its slots. *)
Lemma yield_asc f c x start end_ :
  Forall (fun s => 0 ≤ s < 2 ^ 64 - 1) (c ++ [x]) ->
  yield_chunk f Asc (c ++ [x]) start end_ =
    Ret (fst (read_blocks f (c ++ [x])),
         match snd (read_blocks f (c ++ [x])) with Some e => Failed e | None => Continue (x + 1) end_ end).
Proof.
  revert start. induction c as [|y c IH]; intros start Hf; cbn [app yield_chunk read_blocks] in *; apply Forall_cons in Hf as [Hy Hf];
    (destruct (block_by_slot f _); [|done]); unfold uadd; rewrite native_exact by (unfold is_u; lia); cbn.
  - done.
  - by rewrite IH.
Qed.

Lemma yield_desc f c x start end_ :
  Forall (fun s => x < s < 2 ^ 64) c -> 0 ≤ x < 2 ^ 64 ->
  yield_chunk f Desc (c ++ [x]) start end_ =
    Ret (fst (read_blocks f (c ++ [x])),
         match snd (read_blocks f (c ++ [x])) with
         | Some e => Failed e
         | None => if x =? 0 then Returned else Continue start (x - 1)
         end).
Proof.
  intros Hf Hx. revert end_. induction c as [|y c IH]; intros end_; cbn [app yield_chunk read_blocks].
  - destruct (block_by_slot f x); [|done]. destruct (Z.eqb_spec x 0); [done|].
    unfold usub. by rewrite native_exact by (unfold is_u; lia).
  - apply Forall_cons in Hf as [Hy Hf]. destruct (block_by_slot f y); [|done]. rewrite (proj2 (Z.eqb_neq y 0)) by lia.
    unfold usub. rewrite native_exact by (unfold is_u; lia). cbn. by rewrite IH.
Qed.

(** A chunk yields its blocks and leaves the bounds of the rest. *)
Lemma chunk_yields f order start end_ l c x rest :
  StronglySorted Z.lt l -> Forall (fun s => 0 ≤ s < 2 ^ 64 - 1) l ->
  ordered_slots order (List.filter (in_slots start end_) l) = (c ++ [x]) ++ rest ->
  exists start' end' ce,
    yield_chunk f order (c ++ [x]) start end_ =
      Ret (fst (read_blocks f (c ++ [x])), match snd (read_blocks f (c ++ [x])) with Some e => Failed e | None => ce end) /\
    ordered_slots order (List.filter (in_slots start' end') l) = rest /\
    (ce = Continue start' end' \/ ce = Returned /\ rest = []).
Proof.
  intros Hs Hl E. assert (Hin : Forall (fun s => 0 ≤ s < 2 ^ 64 - 1) ((c ++ [x]) ++ rest)).
  { rewrite <- E. rewrite Forall_forall in Hl |- *. intros y Hy. apply Hl.
    assert (Hy' : y ∈ List.filter (in_slots start end_) l) by (destruct order; cbn [ordered_slots] in Hy; [done|by rewrite elem_of_reverse in Hy]).
    by apply list_elem_of_In, filter_In in Hy' as [Hy'%list_elem_of_In _]. }
  apply Forall_app in Hin as [Hin _]. destruct order; cbn [ordered_slots] in *.
  - exists (x + 1), end_, (Continue (x + 1) end_). split; [by apply yield_asc|]. split; [by eapply rest_asc|by left].
  - apply Forall_app in Hin as [Hc Hx]. rewrite Forall_singleton in Hx.
    assert (Hd : Forall (fun s => x < s < 2 ^ 64) c).
    { rewrite Forall_forall in Hc |- *. intros y Hy. specialize (Hc y Hy). split; [|lia].
      pose proof (sorted_list_filter _ (in_slots start end_) _ Hs) as Hsf. apply (f_equal reverse) in E.
      rewrite reverse_involutive, reverse_app, reverse_snoc in E. rewrite E in Hsf.
      apply StronglySorted_app in Hsf as (_ & _ & Hsf). inversion Hsf as [|? ? _ Hfa]. rewrite Forall_forall in Hfa.
      apply Hfa. by apply elem_of_reverse. }
    exists start, (x - 1), (if x =? 0 then Returned else Continue start (x - 1)).
    split; [apply yield_desc; [done|lia]|]. assert (Hrest := rest_desc _ _ _ _ _ _ Hs E). split; [done|].
    destruct (Z.eqb_spec x 0) as [->|]; [|by left]. right. split; [done|]. rewrite <- Hrest. rewrite list_filter_none; [done|].
    intros y Hy. rewrite Forall_forall in Hl. specialize (Hl y Hy). unfold in_slots. rewrite andb_false_iff, !Z.leb_gt. lia.
Qed.

Lemma ordered_empty order l : ordered_slots order l = [] -> l = [].
Proof. destruct order; cbn; [done|]. intros E%(f_equal reverse). by rewrite reverse_involutive in E. Qed.

Lemma length_ordered order l : length (ordered_slots order l) = length l.
Proof. destruct order; [done|apply length_reverse]. Qed.

Lemma next_chunk_ordered order l : next_chunk order l = take SLOT_CHUNK_SIZE (ordered_slots order l).
Proof. by destruct order. Qed.

(** A first chunk is not empty when there are slots. *)
Lemma chunk_split l : l <> [] -> exists c x, take SLOT_CHUNK_SIZE l = c ++ [x] /\ l = (c ++ [x]) ++ drop SLOT_CHUNK_SIZE l.
Proof.
  intros Hl. destruct (take SLOT_CHUNK_SIZE l) as [|x c _] eqn:E using rev_ind.
  - destruct l; [done|discriminate E].
  - exists c, x. split; [done|]. rewrite <- E. symmetry. apply take_drop.
Qed.

(** C29: streaming the blocks of a tag in chunks is reading them through: in
    either direction, whatever the bounds, the stream ends, and its items are
    the blocks of the slots of the tag within the bounds, in order, each once,
    up to the first that cannot be read. *)
Theorem stream_reads_through f dimension key l order start end_ fuel :
  tag_slots (indexes f) dimension key = Some l -> Forall (fun s => 0 ≤ s < 2 ^ 64 - 1) l ->
  (length (List.filter (in_slots start end_) l) < fuel)%nat ->
  blocks_by_tag_stream fuel f dimension key start end_ order =
    Ret (Some (read_blocks f (ordered_slots order (List.filter (in_slots start end_) l)))).
Proof.
  intros Ht Hl. pose proof (tag_slots_ascend _ _ _ _ Ht) as Hs. revert start end_.
  induction fuel as [|fuel IH]; intros start end_ Hfuel; [lia|]. cbn [blocks_by_tag_stream].
  rewrite slots_by_tag_reads, Ht, next_chunk_ordered. rewrite <- (length_ordered order) in Hfuel.
  set (sl := ordered_slots order _) in *. destruct (decide (sl = [])) as [->|Hne]; [done|].
  destruct (chunk_split sl Hne) as (c & x & Ec & Esl). rewrite Ec, Esl.
  destruct (chunk_yields f order start end_ l c x _ Hs Hl Esl) as (start' & end' & ce & Ey & Er & Hce).
  destruct (c ++ [x]) as [|y cx] eqn:Ecx; [by destruct c|]. rewrite <- Ecx in *. rewrite Ey.
  rewrite (read_blocks_app f (c ++ [x])). destruct (snd (read_blocks f (c ++ [x]))) as [e|]; [reflexivity|].
  cbn -[blocks_by_tag_stream read_blocks SLOT_CHUNK_SIZE take drop].
  destruct Hce as [->|[-> ->]]; [|cbn; by rewrite app_nil_r]. destruct (Z.ltb_spec end' start') as [Hlt|Hge].
  - rewrite filter_no_slots in Er by done. assert (Hd : drop SLOT_CHUNK_SIZE sl = []) by (rewrite <- Er; by destruct order).
    rewrite Hd. cbn. by rewrite app_nil_r.
  - rewrite IH, Er; [done|]. rewrite <- (length_ordered order), Er. rewrite Esl, !length_app in Hfuel. cbn [length] in Hfuel. lia.
Qed.

(** *** Searches *)

Lemma scan_slots_app {T} f (p : QueryBlock -> option T) c c' :
  scan_slots f p (c ++ c') = match scan_slots f p c with Ok None => scan_slots f p c' | r => r end.
Proof.
  induction c as [|x c IH]; [done|]. cbn. destruct (block_by_slot f x) as [[raw|]|]; try done.
  destruct (decoded_block raw) as [b|]; [|done]. by destruct (p b).
Qed.

Lemma find_first_scans {T} f dimension key l start end_ (p : QueryBlock -> option T) fuel :
  tag_slots (indexes f) dimension key = Some l -> Forall (fun s => 0 ≤ s < 2 ^ 64 - 1) l ->
  (length (List.filter (in_slots start end_) l) < fuel)%nat ->
  find_first_by_tag fuel f dimension key start end_ p = Ret (Some (scan_slots f p (List.filter (in_slots start end_) l))).
Proof.
  intros Ht Hl. pose proof (tag_slots_ascend _ _ _ _ Ht) as Hs. revert start.
  induction fuel as [|fuel IH]; intros start Hfuel; [lia|]. cbn [find_first_by_tag]. rewrite slots_by_tag_reads, Ht.
  set (sl := List.filter _ l) in *. destruct (decide (sl = [])) as [->|Hne]; [done|].
  destruct (chunk_split sl Hne) as (c & x & Ec & Esl). rewrite Ec, Esl.
  destruct (c ++ [x]) as [|y cx] eqn:Ecx; [by destruct c|]. rewrite <- Ecx in *. rewrite (scan_slots_app f p (c ++ [x])).
  destruct (scan_slots f p (c ++ [x])) as [[r|]|e]; [done| |done]. rewrite last_snoc.
  assert (Hx : 0 ≤ x < 2 ^ 64 - 1).
  { rewrite Forall_forall in Hl. apply Hl. assert (Hin : x ∈ sl) by (rewrite Esl, !elem_of_app; left; right; by left).
    by apply list_elem_of_In, filter_In in Hin as [Hin%list_elem_of_In _]. }
  unfold uadd. rewrite native_exact by (unfold is_u; lia). cbn -[find_first_by_tag scan_slots SLOT_CHUNK_SIZE take drop].
  pose proof (rest_asc _ _ _ _ _ _ Hs Esl) as Er. destruct (Z.ltb_spec end_ (x + 1)) as [Hlt|Hge].
  - rewrite filter_no_slots in Er by done. by rewrite <- Er.
  - rewrite IH, Er; [done|]. rewrite Er. rewrite Esl, !length_app in Hfuel. cbn [length] in Hfuel. lia.
Qed.

Lemma first_in_found {T U} (find : T -> option U) k y : first_in find k = Some y -> exists x, x ∈ k /\ find x = Some y.
Proof.
  induction k as [|x k IH]; [done|]. cbn. destruct (find x) eqn:E.
  - intros [= <-]. exists x. split; [by left|done].
  - intros Hf. destruct (IH Hf) as (z & Hz & Ez). exists z. split; [by right|done].
Qed.

Lemma first_in_none {T U} (find : T -> option U) k x : first_in find k = None -> x ∈ k -> find x = None.
Proof.
  induction k as [|z k IH]; intros Hf Hx; [by apply not_elem_of_nil in Hx|]. cbn in Hf. destruct (find z) eqn:E; [done|].
  apply elem_of_cons in Hx as [->|Hx]; [done|by apply IH].
Qed.

(** The block at a slot has a transaction with a result. *)
Definition found_at {T} f (find : QueryTx -> option T) (slot : BlockSlot) (y : T) : Prop :=
  exists raw b tx, block_by_slot f slot = Ok (Some raw) /\ decode_query raw = Some b /\ tx ∈ qb_txs b /\ find tx = Some y.

(** The block at a slot cannot be read. *)
Definition unreadable f (slot : BlockSlot) (e : QueryError) : Prop :=
  block_by_slot f slot = Err e \/ exists raw, block_by_slot f slot = Ok (Some raw) /\ decoded_block raw = Err e.

(** What a scan answers. *)
Definition scan_answer {T} f (find : QueryTx -> option T) c (r : result QueryError (option T)) : Prop :=
  match r with
  | Ok (Some y) => exists pre slot post, c = pre ++ slot :: post /\ found_at f find slot y /\
                     forall s z, s ∈ pre -> ~ found_at f find s z
  | Ok None => forall s z, s ∈ c -> ~ found_at f find s z
  | Err e => exists slot, slot ∈ c /\ unreadable f slot e
  end.

(** A slot without a result does not change the answer. *)
Lemma scan_cons {T} f (find : QueryTx -> option T) x c r :
  (forall z, ~ found_at f find x z) -> scan_answer f find c r -> scan_answer f find (x :: c) r.
Proof.
  intros Hno. destruct r as [[y|]|e]; cbn.
  - intros (pre & slot & post & -> & Hy & Hpre). exists (x :: pre), slot, post. split; [done|]. split; [done|].
    intros s z [->|Hs]%elem_of_cons; [apply Hno|by apply Hpre].
  - intros Hc s z [->|Hs]%elem_of_cons; [apply Hno|by apply Hc].
  - intros (slot & Hs & He). exists slot. split; [by right|done].
Qed.

Lemma scan_slots_spec {T} f (find : QueryTx -> option T) c :
  scan_answer f find c (scan_slots f (fun block => first_in find (qb_txs block)) c).
Proof.
  induction c as [|x c IH]; cbn [scan_slots]; [by intros s z ?%not_elem_of_nil|].
  destruct (block_by_slot f x) as [[raw|]|e] eqn:Eb; [| |exists x; split; [by left|by left]].
  - unfold decoded_block at 1. destruct (decode_query raw) as [b|] eqn:Ed.
    + destruct (first_in find (qb_txs b)) as [y|] eqn:Ef.
      * apply first_in_found in Ef as (tx & Htx & Ef). exists [], x, c. split; [done|]. split; [by exists raw, b, tx|].
        by intros s z ?%not_elem_of_nil.
      * assert (Hno : forall z, ~ found_at f find x z).
        { intros z (raw' & b' & tx & Eb' & Ed' & Htx & Hz). rewrite Eb in Eb'. injection Eb' as <-. rewrite Ed in Ed'.
          injection Ed' as <-. by rewrite (first_in_none _ _ _ Ef Htx) in Hz. }
        by apply scan_cons.
    + exists x. split; [by left|]. right. exists raw. split; [done|]. unfold decoded_block. by rewrite Ed.
  - assert (Hno : forall z, ~ found_at f find x z) by (intros z (raw & b & tx & Eb' & _); congruence).
    by apply scan_cons.
Qed.

End chunks.

Section search.
Context {I A S : Type} `{!IndexReads I, !ArchiveReads A, QueryDecoder, BuildCfg}.
Implicit Types (f : Domain I A S).

(** C30: a search of the archive in chunks ends, and answers with the first of
    the blocks tagged with the key that has what is asked for; with nothing
    only when none of them up to the tip has it; and with an error only when
    one of them cannot be read. *)
Theorem search_finds_first {T} f dimension key l tip (find : QueryTx -> option T) fuel :
  tag_slots (indexes f) dimension key = Some l -> Forall (fun s => 0 ≤ s < 2 ^ 64 - 1) l -> tip_slot f = Ok tip ->
  (length (List.filter (in_slots 0 tip) l) < fuel)%nat ->
  exists r, search fuel f dimension key find = Ret (Some r) /\ scan_answer f find (List.filter (in_slots 0 tip) l) r.
Proof.
  intros Ht Hl Htip Hfuel. unfold search. rewrite Htip, (find_first_scans f dimension key l) by done.
  eexists. split; [done|apply scan_slots_spec].
Qed.

End search.

(** ** Three blocks *)

Module QueryDemo.

(** An archive of blocks by slot. *)
Definition Archive := gmap Z (list Z).
#[export] Instance archive_reads : ArchiveReads Archive := {|
  get_block_by_slot a slot := Ok (a !! slot);
  get_blocks_by_slot a slot := Ok (match a !! slot with Some b => [b] | None => [] end);
  get_tip a := Ok (last (sort_by (fun x y => Z.compare (fst x) (fst y)) (map_to_list a)));
  find_intersect _ _ := Ok None;
|}.

(** A block is the number of the one output it spends. *)
Definition spent (n : Z) : TxoRef := (replicate 32 n, 0).
Definition query_tx (n : Z) : QueryTx := {|
  qt_hash := replicate 32 (n + 100); qt_encoded := [n]; qt_inputs := [spent n]; qt_produces := []; qt_plutus_data := [];
  qt_redeemers := []; qt_native_scripts := []; qt_plutus_v1_scripts := []; qt_plutus_v2_scripts := [];
  qt_plutus_v3_scripts := [] |}.
#[export] Instance decoder : QueryDecoder := {|
  decode_query raw := match raw with
                      | [n] => Some {| qb_slot := n; qb_hash := [n]; qb_number := n; qb_era := 7; qb_txs := [query_tx n] |}
                      | _ => None
                      end |}.
#[export] Existing Instances IndexDemo.xxh3 cfg_debug.

Definition address : bytes := [5].
Definition address_hash : bytes := default [] (key_hash ArchiveDim.ADDRESS address).
Definition spent_hash : bytes := default [] (key_hash ArchiveDim.SPENT_TXO (txo_ref_bytes (spent 2))).
Definition index : MemoryIndex.t := MemoryIndex.mk None ∅
  {[ (ArchiveDim.ADDRESS, address_hash, 1); (ArchiveDim.ADDRESS, address_hash, 2); (ArchiveDim.ADDRESS, address_hash, 3);
     (ArchiveDim.SPENT_TXO, spent_hash, 2) ]} ∅.
Definition blocks : Archive := {[ 1 := [1]; 2 := [2]; 3 := [3] ]}.
Definition domain : Domain MemoryIndex.t Archive unit := mkDomain index blocks tt.

(** The blocks of the address from the last to the first. *)
Lemma stream_reads_through_witness :
  blocks_by_address_stream 4 domain address 1 3 Desc = Ret (Some ([(3, Some [3]); (2, Some [2]); (1, Some [1])], None)).
Proof.
  refine (eq_trans (stream_reads_through domain ArchiveDim.ADDRESS address [1; 2; 3] Desc 1 3 4 _ _ _) _).
  - vm_compute. reflexivity.
  - repeat constructor; vm_compute; congruence.
  - vm_compute. lia.
  - vm_compute. reflexivity.
Defined.

(** The transaction that spent an output. *)
Lemma search_finds_first_witness :
  exists r, tx_by_spent_txo 4 domain (txo_ref_bytes (spent 2)) = Ret (Some r) /\
    scan_answer domain (spender_in_tx (txo_ref_bytes (spent 2))) [2] r /\ r = Ok (Some (replicate 32 102)).
Proof.
  destruct (search_finds_first domain ArchiveDim.SPENT_TXO (txo_ref_bytes (spent 2)) [2] 3
    (spender_in_tx (txo_ref_bytes (spent 2))) 4) as (r & Hr & Ha).
  - vm_compute. reflexivity.
  - repeat constructor; vm_compute; congruence.
  - vm_compute. reflexivity.
  - vm_compute. lia.
  - exists r. split; [exact Hr|]. split; [exact Ha|]. vm_compute in Hr. injection Hr as <-. vm_compute. reflexivity.
Defined.

End QueryDemo.
