(* ===== verification/Pagination.v ===== *)
(** * Pagination of the Blockfrost-compatible API (minibf/src/pagination.rs)

    The query parameters of a listing, their validation, and the items and
    blocks a page includes. *)

From Stdlib Require Import Ascii String.
From S2P Require Import Prelude Lists Types ChainPoint StateStore Indexes Blocks IndexBuilder IndexQuery.
Open Scope Z_scope.

Inductive PaginationError :=
| CountLessThan1
| CountTooLarge
| CountNotAnInteger
| PageTooLarge
| PageLessThan1
| PageNotAnInteger
| OrderNotAllowed
| InvalidFromTo
| ScanLimitExceeded.

(** The part of the response that depends on the error. *)
Definition error_message (e : PaginationError) : string :=
  match e with
  | CountLessThan1 => "querystring/count must be >= 1"
  | CountTooLarge => "querystring/count must be <= 100"
  | CountNotAnInteger => "querystring/count must be integer"
  | PageLessThan1 => "querystring/page must be >= 1"
  | PageTooLarge => "querystring/page must be <= 21474836"
  | PageNotAnInteger => "querystring/page must be integer"
  | OrderNotAllowed => "querystring/order must be equal to one of the allowed values"
  | InvalidFromTo => "Invalid (malformed or out of range) from/to parameter(s)."
  | ScanLimitExceeded => "pagination scan limit exceeded, reduce page number or count"
  end.

Inductive Order := OrderAsc | OrderDesc.

Record PaginationNumberAndIndex := { number : Z; index : option Z }.

Record PaginationParameters := {
  p_count : option string;
  p_page : option string;
  p_order : option string;
  p_from : option string;
  p_to : option string;
}.

Record Pagination := {
  count : Z;
  page : Z;
  order : Order;
  from : option PaginationNumberAndIndex;
  to : option PaginationNumberAndIndex;
}.

Definition default_pagination : Pagination := {| count := 100; page := 1; order := OrderAsc; from := None; to := None |}.

(** ** Parsing *)

(** The decimal digits of a number of [w] bits, after [acc]. *)
Fixpoint parse_digits (w acc : Z) (s : string) : option Z :=
  match s with
  | EmptyString => Some acc
  | String c s =>
      let d := Z.of_nat (nat_of_ascii c) - 48 in
      if (0 <=? d) && (d <=? 9) && (acc * 10 + d <? 2 ^ w) then parse_digits w (acc * 10 + d) s else None
  end.

(** [str::parse] to an unsigned integer: digits, a plus sign allowed. *)
Definition parse_uint (w : Z) (s : string) : option Z :=
  match s with
  | EmptyString => None
  | String "+" EmptyString => None
  | String "+" s => parse_digits w 0 s
  | _ => parse_digits w 0 s
  end.

(** The first two parts of [value.split(':')]. *)
Fixpoint split_colon (s : string) : string * option string :=
  match s with
  | EmptyString => (EmptyString, None)
  | String ":" s => (EmptyString, Some (fst (split_colon s)))
  | String c s => let (a, b) := split_colon s in (String c a, b)
  end.

Definition number_and_index (value : string) : result PaginationError PaginationNumberAndIndex :=
  let (first, second) := split_colon value in
  match parse_uint 64 first with
  | None => Err InvalidFromTo
  | Some number =>
      match second with
      | None => Ok {| number := number; index := None |}
      | Some s =>
          match parse_uint 64 s with
          | Some index => Ok {| number := number; index := Some index |}
          | None => Err InvalidFromTo
          end
      end
  end.

Definition optional {A} (f : string -> result PaginationError A) (x : option string) : result PaginationError (option A) :=
  match x with
  | Some x => match f x with Ok a => Ok (Some a) | Err e => Err e end
  | None => Ok None
  end.

(** A number between one and a limit. *)
Definition ranged (limit : Z) (not_an_integer less large : PaginationError) (s : string) : result PaginationError Z :=
  match parse_uint 64 s with
  | Some parsed => if parsed <? 1 then Err less else if limit <? parsed then Err large else Ok parsed
  | None => Err not_an_integer
  end.

Definition parse_order (s : string) : result PaginationError Order :=
  if String.eqb s "asc" then Ok OrderAsc else if String.eqb s "desc" then Ok OrderDesc else Err OrderNotAllowed.

(** The bounds are in order. *)
Definition bounds_ok (from to : option PaginationNumberAndIndex) : bool :=
  match from, to with
  | Some from, Some to =>
      if number to <? number from then false
      else if number from =? number to then
        match index from, index to with Some from_idx, Some to_idx => from_idx <=? to_idx | _, _ => true end
      else true
  | _, _ => true
  end.

Definition and_then {A B} (m : result PaginationError A) (f : A -> result PaginationError B) : result PaginationError B :=
  match m with Ok a => f a | Err e => Err e end.

Definition pagination_try_from (value : PaginationParameters) : result PaginationError Pagination :=
  and_then (optional (ranged 100 CountNotAnInteger CountLessThan1 CountTooLarge) (p_count value)) (fun count =>
  and_then (optional (ranged 21474836 PageNotAnInteger PageLessThan1 PageTooLarge) (p_page value)) (fun page =>
  and_then (optional parse_order (p_order value)) (fun order =>
  and_then (optional number_and_index (p_from value)) (fun from =>
  and_then (optional number_and_index (p_to value)) (fun to =>
  if bounds_ok from to
  then Ok {| count := default 100 count; page := default 1 page; order := default OrderAsc order; from := from; to := to |}
  else Err InvalidFromTo))))).

(** ** Pages *)

Section pages.
Context `{BuildCfg}.

Definition enforce_max_scan_limit (p : Pagination) (max_scan_items : Z) : run (result PaginationError unit) :=
  items ← umul 64 (page p) (count p);
  Ret (if max_scan_items <? items then Err ScanLimitExceeded else Ok tt).

Definition from_item (p : Pagination) : run Z :=
  before ← usub 64 (page p) 1;
  umul 64 before (count p).

Definition to_item (p : Pagination) : run Z := umul 64 (count p) (page p).

(** The conjunction evaluates its second part when the first holds. *)
Definition includes (p : Pagination) (i : Z) : run bool :=
  from ← from_item p;
  if negb (from <=? i) then Ret false
  else to ← to_item p;
       Ret (i <? to).

Definition skip_items (p : Pagination) : run Z := from_item p.

Definition as_included_item {T} (p : Pagination) (i : Z) (item : T) : run (option T) :=
  included ← includes p i;
  Ret match included with true => Some item | false => None end.

Definition before_bound (from : PaginationNumberAndIndex) (num idx : Z) : bool :=
  (num <? number from) ||
  ((num =? number from) && match index from with Some i => idx <? i | None => false end).

Definition after_bound (to : PaginationNumberAndIndex) (num idx : Z) : bool :=
  (number to <? num) ||
  ((num =? number to) && match index to with Some i => i <? idx | None => false end).

Definition should_skip (p : Pagination) (num idx : Z) : bool :=
  match from p with Some from => before_bound from num idx | None => false end ||
  match to p with Some to => after_bound to num idx | None => false end.

(** A status code in the place of a slot. *)
Inductive StatusCode := InternalServerError | BadRequest.

Definition get_tip_slot {V S W} `{!StateStore V S W} (s : S) : result StatusCode BlockSlot :=
  match read_cursor s with Some tip => Ok (ChainPoint.slot tip) | None => Err InternalServerError end.

(** The slot of a block number, which has to be known. *)
Definition slot_of_bound {I A S} `{!IndexReads I} (f : Domain I A S) (b : PaginationNumberAndIndex) :
    run (result StatusCode BlockSlot) :=
  slot ← slot_by_number f (number b);
  Ret match slot with
      | Err _ => Err InternalServerError
      | Ok None => Err BadRequest
      | Ok (Some slot) => Ok slot
      end.

Definition start_and_end_slots {V I A S W} `{!IndexReads I, !StateStore V S W} (p : Pagination) (f : Domain I A S) :
    run (result StatusCode (BlockSlot * BlockSlot)) :=
  start_slot ←? match from p with Some x => slot_of_bound f x | None => Ret (Ok 0) end;
  end_slot ←? match to p with Some x => slot_of_bound f x | None => Ret (get_tip_slot (state f)) end;
  Ret (Ok (start_slot, end_slot)).

End pages.

(** ** What is accepted, and what a page includes *)

Record pagination_wf (p : Pagination) : Prop := {
  wf_count : 1 ≤ count p ≤ 100;
  wf_page : 1 ≤ page p ≤ 21474836;
}.

Lemma and_then_Ok_inv {A B} (m : result PaginationError A) (f : A -> result PaginationError B) b :
  and_then m f = Ok b -> exists a, m = Ok a /\ f a = Ok b.
Proof. destruct m; cbn; [eauto|done]. Qed.

Lemma ranged_Ok limit a b c s x : ranged limit a b c s = Ok x -> 1 ≤ x ≤ limit.
Proof.
  unfold ranged. destruct (parse_uint 64 s) as [y|]; [|done]. destruct (Z.ltb_spec y 1), (Z.ltb_spec limit y); try done.
  intros [= <-]. lia.
Qed.

Lemma optional_ranged limit a b c s x : optional (ranged limit a b c) s = Ok (Some x) -> 1 ≤ x ≤ limit.
Proof. destruct s as [s|]; [|done]. cbn. destruct (ranged limit a b c s) eqn:E; [|done]. intros [= <-]. by eapply ranged_Ok. Qed.

Lemma accepted_wf v p : pagination_try_from v = Ok p -> pagination_wf p /\ bounds_ok (from p) (to p) = true.
Proof.
  unfold pagination_try_from. intros E.
  apply and_then_Ok_inv in E as (co & Hc & E). apply and_then_Ok_inv in E as (pa & Hp & E).
  apply and_then_Ok_inv in E as (o & _ & E). apply and_then_Ok_inv in E as (fr & _ & E).
  apply and_then_Ok_inv in E as (t & _ & E). destruct (bounds_ok fr t) eqn:Eb; [|done]. injection E as <-. split; [|done].
  split; cbn.
  - destruct co as [x|]; cbn; [by eapply optional_ranged|lia].
  - destruct pa as [x|]; cbn; [by eapply optional_ranged|lia].
Qed.

Section partition.
Context `{BuildCfg}.

Lemma from_item_exact p : pagination_wf p -> from_item p = Ret ((page p - 1) * count p).
Proof.
  intros [Hc Hp]. unfold from_item, usub, umul. rewrite native_exact by (unfold is_u; lia). cbn.
  by rewrite native_exact by (unfold is_u; nia).
Qed.

Lemma to_item_exact p : pagination_wf p -> to_item p = Ret (count p * page p).
Proof. intros [Hc Hp]. unfold to_item, umul. by rewrite native_exact by (unfold is_u; nia). Qed.

(** The pages partition the items: with accepted parameters no operation
    overflows, in any build, and a page includes the item [i] exactly when its
    number is [i / count + 1], so every item is on one page. *)
Theorem pages_partition v p i :
  pagination_try_from v = Ok p -> 0 ≤ i -> includes p i = Ret (bool_decide (page p = i / count p + 1)).
Proof.
  intros [Hw _]%accepted_wf Hi. unfold includes. rewrite from_item_exact, to_item_exact by done. destruct Hw as [Hc Hp]. cbn.
  assert (Hq : page p = i / count p + 1 <-> (page p - 1) * count p ≤ i < count p * page p).
  { pose proof (Z.div_mod i (count p)). pose proof (Z.mod_pos_bound i (count p)). split; [intros ->; nia|]. intros Hb.
    assert (i / count p = page p - 1); [|lia]. symmetry. apply (Z.div_unique _ _ _ (i - count p * (page p - 1))); lia. }
  destruct (Z.leb_spec ((page p - 1) * count p) i) as [Hle|Hgt]; cbn.
  - f_equal. destruct (Z.ltb_spec i (count p * page p)); symmetry; [apply bool_decide_eq_true|apply bool_decide_eq_false]; lia.
  - f_equal. symmetry. apply bool_decide_eq_false. lia.
Qed.

End partition.

Module PagesDemo.
#[local] Existing Instance cfg_debug.

(** The second page of ten. *)
Definition parameters : PaginationParameters :=
  {| p_count := Some "10"; p_page := Some "2"; p_order := Some "desc"; p_from := Some "5:1"; p_to := None |}.

Lemma pages_partition_witness :
  exists p, pagination_try_from parameters = Ok p /\ includes p 15 = Ret true /\ includes p 20 = Ret false.
Proof.
  eexists. split; [vm_compute; reflexivity|]. split.
  - refine (eq_trans (pages_partition parameters _ 15 _ _) _); [vm_compute; reflexivity|vm_compute; congruence|vm_compute; reflexivity].
  - refine (eq_trans (pages_partition parameters _ 20 _ _) _); [vm_compute; reflexivity|vm_compute; congruence|vm_compute; reflexivity].
Defined.

End PagesDemo.
