(* ===== verification/Ewrap.v ===== *)
(** * Closing an epoch (cardano/src/ewrap)

    The close half of the epoch boundary: the work a shard does over its
    accounts (rewards, dropped delegations, stake distributions), the global
    pass that rules on the proposals and settles pools, DReps, proposals and
    MIRs, and the commits of both. *)

From S2P Require Import Prelude Lists Types ChainPoint EpochValue EntityDelta Eras PParams Forks Ratio Pots.
From S2P Require Import Accounts Pools DReps Datums Assets Pending Epochs Proposals Hacks Gov Ratify StateStore Shards.
From S2P Require Import Blocks PallasExtras RewardMap Wal Roll CardanoModel Codec.
Open Scope Z_scope.

(** ** The state of the boundary (ewrap/mod.rs) *)

Module AppliedReward.

Record t := mk {
  credential : StakeCredential;
  pool : PoolHash;
  amount : Z;
  as_leader : bool;
}.

End AppliedReward.

Module Ratification.

Record t := mk {
  outcomes : gmap EntityKey ProposalOutcome;
  enactment_order : list EntityKey;
}.

Definition default_ : t := mk ∅ [].

Definition is_removed (r : t) (id : EntityKey) : bool := bool_decide (is_Some (outcomes r !! id)).

End Ratification.

Module BoundaryWork.

Record t := mk {
  ending_state : EpochState.t;
  active_protocol : EraProtocol;
  chain_summary : ChainSummary.t;
  network_magic : Z;
  rewards : RewardMap.t;
  new_pools : gset PoolHash;
  retiring_pools : gmap PoolHash (PoolState.t * option AccountState.t);
  enacting_proposals : gmap EntityKey (ProposalState.t * option AccountState.t);
  dropping_proposals : gmap EntityKey (ProposalState.t * option AccountState.t);
  expiring_dreps : list DRep;
  retiring_dreps : list (DRep * (BlockSlot * TxOrder));
  stake_snapshot : option (Epoch * EraProtocol);
  stake_pools : gset PoolHash;
  pool_refunds : gmap StakeCredential (list (PoolHash * Z));
  num_dormant_epochs : Z;
  gov_active_since : option Epoch;
  gov_distr : option GovDistr.t;
  gov : GovState.t;
  pv10_migration : bool;
  ratify_dreps : gmap StakeCredential (option Epoch);
  ratification : option Ratification.t;
  proposal_deposits : gmap StakeCredential Z;
  snapshot_registered_dreps : gset EntityKey;
  deltas : WorkDeltas.t CardanoDelta.t;
  logs : list (EntityKey * CardanoEntity.t);
  applied_reward_credentials : list StakeCredential;
  applied_rewards : list AppliedReward.t;
  deliverable_withdrawal_targets : gset StakeCredential;
  boundary_drep_credits : gmap DRep Z;
  effective_treasury_withdrawals : Z;
  invalid_treasury_withdrawals : Z;
  effective_treasury_mirs : Z;
  effective_reserve_mirs : Z;
  invalid_treasury_mirs : Z;
  invalid_reserve_mirs : Z;
  applied_mir_credentials : list StakeCredential;
  shard_applied_effective : Z;
  shard_applied_unspendable_to_treasury : Z;
  shard_applied_unspendable_to_reserves : Z;
}.

#[global] Instance eta_t : Eta t := fun r =>
  mk (ending_state r) (active_protocol r) (chain_summary r) (network_magic r) (rewards r) (new_pools r)
     (retiring_pools r) (enacting_proposals r) (dropping_proposals r) (expiring_dreps r) (retiring_dreps r)
     (stake_snapshot r) (stake_pools r) (pool_refunds r) (num_dormant_epochs r) (gov_active_since r)
     (gov_distr r) (gov r) (pv10_migration r) (ratify_dreps r) (ratification r) (proposal_deposits r)
     (snapshot_registered_dreps r) (deltas r) (logs r) (applied_reward_credentials r) (applied_rewards r)
     (deliverable_withdrawal_targets r) (boundary_drep_credits r) (effective_treasury_withdrawals r)
     (invalid_treasury_withdrawals r) (effective_treasury_mirs r) (effective_reserve_mirs r)
     (invalid_treasury_mirs r) (invalid_reserve_mirs r) (applied_mir_credentials r)
     (shard_applied_effective r) (shard_applied_unspendable_to_treasury r)
     (shard_applied_unspendable_to_reserves r).

Definition closing (b : t) : Epoch := EpochState.number (ending_state b).

Section ops.
Context `{BuildCfg, Pallas}.

Definition starting_epoch_no (b : t) : run Epoch := uadd 64 (EpochState.number (ending_state b)) 1.

Definition add_delta (b : t) (d : CardanoDelta.t) : t :=
  b <| deltas := WorkDeltas.add_for_entity (deltas b) d |>.

(** [for delta in self.deltas.drain(..) { ctx.add_delta(delta) }]. *)
Definition add_deltas (b : t) (ds : list CardanoDelta.t) : t := foldl add_delta b ds.

Definition account_epoch_slot (b : t) : run BlockSlot :=
  ChainSummary.epoch_start (chain_summary b) (saturating_sub 64 (closing b) 1).

(** The stake leg of an account's row. *)
Definition stake_leg (b : t) (account : AccountState.t) (row : AccountEpochLog.t) : run AccountEpochLog.t :=
  match stake_snapshot b with
  | None => Ret row
  | Some (stake_epoch, protocol) =>
      match AccountState.delegated_pool_at account stake_epoch with
      | None => Ret row
      | Some pool =>
          if bool_decide (pool ∈ stake_pools b) then
            stake ← match EpochValue.snapshot_at (AccountState.stake account) stake_epoch with
                    | Some stake => Stake.total_for_era stake protocol
                    | None => Ret 0
                    end;
            Ret (AccountEpochLog.mk (Some stake) (Some pool) (AccountEpochLog.member_reward row)
                   (AccountEpochLog.leader_rewards row) (AccountEpochLog.deposit_refunds row))
          else Ret row
      end
  end.

(** A reward of the account added to its row; a second member reward is
    dropped, and a pool that is already set is kept. *)
Definition reward_leg (row : AccountEpochLog.t) (reward : AppliedReward.t) : AccountEpochLog.t :=
  let '(AccountEpochLog.mk active pool_id member leaders refunds) := row in
  if AppliedReward.as_leader reward then
    AccountEpochLog.mk active pool_id member
      (leaders ++ [(AppliedReward.pool reward, AppliedReward.amount reward)]) refunds
  else match member with
       | Some _ => row
       | None =>
           AccountEpochLog.mk active
             (match pool_id with None => Some (AppliedReward.pool reward) | Some p => Some p end)
             (Some (AppliedReward.amount reward)) leaders refunds
       end.

(** The derived order of [(PoolHash, u64)]. *)
Definition pool_amount_cmp (a b : PoolHash * Z) : comparison :=
  match bytes_cmp (fst a) (fst b) with Eq => snd a ?= snd b | c => c end.

(** [AccountEpochLog::sort]. *)
Definition sort_row (row : AccountEpochLog.t) : AccountEpochLog.t :=
  AccountEpochLog.mk (AccountEpochLog.active_stake row) (AccountEpochLog.pool_id row)
    (AccountEpochLog.member_reward row) (sort_by pool_amount_cmp (AccountEpochLog.leader_rewards row))
    (sort_by pool_amount_cmp (AccountEpochLog.deposit_refunds row)).

Definition account_epoch_row (b : t) (account : AccountState.t) (applied : list AppliedReward.t) :
    run AccountEpochLog.t :=
  row ← stake_leg b account (AccountEpochLog.mk None None None [] []);
  let row := foldl reward_leg row applied in
  let row :=
    match pool_refunds b !! AccountState.credential account with
    | Some refunds =>
        AccountEpochLog.mk (AccountEpochLog.active_stake row) (AccountEpochLog.pool_id row)
          (AccountEpochLog.member_reward row) (AccountEpochLog.leader_rewards row)
          (AccountEpochLog.deposit_refunds row ++ refunds)
    | None => row
    end in
  Ret (sort_row row).

Definition clears_drep_delegation (b : t) (drep : DRep) (account : AccountState.t) : bool :=
  match List.find (fun x => bool_decide (fst x = drep)) (retiring_dreps b) with
  | None => false
  | Some (_, unregistered_at) =>
      match AccountState.vote_delegated_at account with
      | Some delegated_at => slot_order_lt delegated_at unregistered_at
      | None => false
      end
  end.

(** [*map.entry(key).or_default() += x]. *)
Definition entry_add {K} `{Countable K} (m : gmap K Z) (key : K) (x : Z) : run (gmap K Z) :=
  total ← uadd 64 (default 0 (m !! key)) x; Ret (<[key := total]> m).

End ops.

End BoundaryWork.

Import BoundaryWork.

(** [RupdWork::relevant_epochs], read from the closing boundary's side. *)
Definition stake_snapshot_of `{BuildCfg} (ending_epoch : Epoch) (chain : ChainSummary.t) :
    run (option (Epoch * EraProtocol)) :=
  if ending_epoch <? 4 then Ret None
  else
    let snapshot_epoch := ending_epoch - 3 in
    first ← ChainSummary.first_shelley_epoch chain;
    if snapshot_epoch <=? first then Ret None
    else
      era ← ChainSummary.era_for_epoch chain (snapshot_epoch + 1);
      Ret (Some (snapshot_epoch, EraSummary.protocol era)).

(** ** Loading *)

Section loading.
Context {V S W : Type} `{!EntityCbor V, !StateStore V S W, BuildCfg, Pallas, Addresses}.

(** [load_epoch] and [load_gov] (cardano/src/lib.rs). *)
Definition load_epoch (s : S) : run (result ChainError EpochState.t) :=
  e ←? read_typed EpochState.t s (snd EpochState.ns_key);
  Ret (match e with Some x => Ok x | None => Err NoActiveEpoch end).

Definition load_gov (s : S) : run (result ChainError GovState.t) :=
  g ←? read_typed GovState.t s (snd GovState.ns_key);
  Ret (match g with Some x => Ok x | None => Err MissingGovState end).

Definition load_eras (s : S) : run (result ChainError ChainSummary.t) :=
  eras ←? for_records (fun acc x => Ret (Ok (acc ++ [x]))) [] (iter_entities_typed EraSummary.t s None);
  Ret (Ok (ChainSummary.load_era_summary eras)).

Definition new_empty (s : S) (magic : Z) : run (result ChainError t) :=
  ending_state ←? load_epoch s;
  chain_summary ←? load_eras s;
  edge ← ChainSummary.edge chain_summary;
  let incentives := default EpochIncentives.default_ (EpochState.incentives ending_state) in
  gov ←? load_gov s;
  stake_snapshot ← stake_snapshot_of (EpochState.number ending_state) chain_summary;
  Ret (Ok (mk ending_state (EraSummary.protocol edge) chain_summary magic
    (RewardMap.from_pending ∅ incentives) ∅ ∅ ∅ ∅ [] [] stake_snapshot ∅ ∅
    (GovState.num_dormant_epochs gov) (GovState.active_since gov) (GovState.distr gov) gov
    false ∅ None ∅ ∅ ∅ [] [] [] ∅ ∅ 0 0 0 0 0 0 [] 0 0 0)).

(** The total of the pending rewards, computed for the log. *)
Definition pending_total (l : list (StakeCredential * Reward.t)) : run Z :=
  run_foldl (fun acc x => v ← Reward.total_value (snd x); uadd 64 acc v) 0 l.

Definition load_pending_rewards_ranges (b : t) (s : S) (ranges : list (EntityKey * EntityKey)) :
    run (result ChainError t) :=
  pending ←? for_each (fun pending range =>
      for_records (fun pending x =>
        Ret (Ok (<[PendingRewardState.credential (snd x) := Reward.from_pending_state (snd x)]> pending)))
        pending (iter_entities_typed PendingRewardState.t s (Some range))) ∅ ranges;
  _ ← pending_total (map_to_list pending);
  Ret (Ok (b <| rewards := RewardMap.from_pending pending (RewardMap.incentives (rewards b)) |>)).

Definition distr_snapshot_epoch (b : t) : option Epoch :=
  _ ← gov_active_since b; Some (closing b).

Definition snapshot_drep_of (b : t) (account : AccountState.t) : option DRep :=
  snapshot_epoch ← distr_snapshot_epoch b;
  drep ← AccountState.delegated_drep_at account snapshot_epoch;
  let in_snapshot :=
    match drep with
    | DRepAbstain | DRepNoConfidence => true
    | _ => bool_decide (drep_to_entity_key drep ∈ snapshot_registered_dreps b)
    end in
  if in_snapshot then Some drep else None.

Definition load_proposal_deposits (b : t) (s : S) : run (result ChainError t) :=
  for_records (fun b x =>
    let proposal := snd x in
    live ← ProposalState.is_unresolved_at_close proposal (closing b);
    if negb live then Ret (Ok b)
    else
      let in_snapshot :=
        match ProposalState.proposed_in proposal with Some epoch => epoch <=? closing b | None => false end in
      if negb in_snapshot then Ret (Ok b)
      else
        match ProposalState.deposit proposal, ProposalState.reward_account proposal with
        | Some deposit, Some credential =>
            m ← entry_add (proposal_deposits b) credential deposit;
            Ret (Ok (b <| proposal_deposits := m |>))
        | _, _ => Ret (Ok b)
        end) b (iter_entities_typed ProposalState.t s None).

(** The three accumulators of the stake distributions. *)
Abbreviation Distr := (gmap DRep Z * gmap PoolHash Z * Z)%type (only parsing).

Definition accumulate_gov_distr (b : t) (snapshot_epoch : Epoch) (account : AccountState.t)
    (boundary_reward : Z) (distr : Distr) : run Distr :=
  let '(drep_distr, pool_distr, pool_total) := distr in
  match EpochValue.snapshot_at (AccountState.stake account) snapshot_epoch with
  | None => Ret distr
  | Some stake =>
      let deposits := default 0 (proposal_deposits b !! AccountState.credential account) in
      total ← Stake.total_for_era stake (active_protocol b);
      weight ← uadd 64 total boundary_reward;
      weight ← uadd 64 weight deposits;
      if weight =? 0 then Ret distr
      else
        drep_distr ← match snapshot_drep_of b account with
                     | Some drep => entry_add drep_distr drep weight
                     | None => Ret drep_distr
                     end;
        match AccountState.delegated_pool_at account snapshot_epoch with
        | Some pool =>
            pool_distr ← entry_add pool_distr pool weight;
            pool_total ← uadd 64 pool_total weight;
            Ret (drep_distr, pool_distr, pool_total)
        | None => Ret (drep_distr, pool_distr, pool_total)
        end
  end.

Definition should_retire_pool (b : t) (pool : PoolState.t) : run bool :=
  live ← EpochValue.unwrap_live (PoolState.snapshot pool);
  if PoolSnapshot.is_retired live then Ret false
  else match PoolState.retiring_epoch pool with
       | Some e => starting ← starting_epoch_no b; Ret (e =? starting)
       | None => Ret false
       end.

Definition load_pool_reward_account (s : S) (pool : PoolState.t) :
    run (result ChainError (option AccountState.t)) :=
  snapshot ← match EpochValue.next (PoolState.snapshot pool) with
             | Some x => Ret x
             | None => EpochValue.unwrap_live (PoolState.snapshot pool)
             end;
  account ← parse_reward_account (PoolParams.reward_account (PoolSnapshot.params snapshot));
  match account with
  | None => Ret (Err InvalidPoolParams)
  | Some account => read_typed AccountState.t s (entity_key_from (cbor_cred account))
  end.

(** [account.as_ref().is_some_and(|a| a.is_registered())]. *)
Definition is_registered_opt (account : option AccountState.t) : bool :=
  match account with Some a => AccountState.is_registered a | None => false end.

Definition index_pool_refunds (b : t) : run (result ChainError t) :=
  if bool_decide (retiring_pools b = ∅) then Ret (Ok b)
  else
    live ← EpochValue.unwrap_live (EpochState.pparams (ending_state b));
    deposit ←? ensured (PParamsSet.ensure_pool_deposit live);
    Ret (Ok (b <| pool_refunds :=
      foldl (fun m x =>
        match snd (snd x) with
        | Some account =>
            if AccountState.is_registered account then
              <[AccountState.credential account :=
                  default [] (m !! AccountState.credential account) ++ [(fst x, deposit)]]> m
            else m
        | None => m
        end) (pool_refunds b) (map_to_list (retiring_pools b)) |>)).

Definition load_pool_data (b : t) (s : S) : run (result ChainError t) :=
  let stake_epoch := fst <$> stake_snapshot b in
  b ←? for_records (fun b x =>
    let pool := snd x in
    live ← EpochValue.unwrap_live (PoolState.snapshot pool);
    let b := if PoolSnapshot.is_new live
             then b <| new_pools := {[PoolState.operator pool]} ∪ new_pools b |> else b in
    let b :=
      match stake_epoch with
      | None => b
      | Some stake_epoch =>
          let admitted :=
            match EpochValue.snapshot_at (PoolState.snapshot pool) stake_epoch with
            | Some snapshot => negb (PoolSnapshot.is_retired snapshot)
            | None => false
            end in
          if admitted then b <| stake_pools := {[PoolState.operator pool]} ∪ stake_pools b |> else b
      end in
    retires ← should_retire_pool b pool;
    if retires : bool then
      account ←? load_pool_reward_account s pool;
      Ret (Ok (b <| retiring_pools := <[PoolState.operator pool := (pool, account)]> (retiring_pools b) |>))
    else Ret (Ok b)) b (iter_entities_typed PoolState.t s None);
  index_pool_refunds b.

Definition is_retiring_drep (b : t) (drep : DRepState.t) : run (option (BlockSlot * TxOrder)) :=
  match DRepState.unregistered_at drep with
  | None => Ret None
  | Some unregistered_at =>
      e ← ChainSummary.slot_epoch (chain_summary b) (fst unregistered_at);
      starting ← starting_epoch_no b;
      next ← uadd 64 (fst e) 1;
      Ret (if starting =? next then Some unregistered_at else None)
  end.

Definition should_expire_drep (b : t) (drep : DRepState.t) : run (result ChainError bool) :=
  if DRepState.expired drep then Ret (Ok false)
  else if DRepState.is_unregistered drep then Ret (Ok false)
  else match DRepState.expiry drep with
       | Some expiry =>
           actual ← uadd 64 (DRepExpiry.current expiry) (num_dormant_epochs b);
           starting ← starting_epoch_no b;
           Ret (Ok (actual <? starting))
       | None =>
           let last_activity_slot :=
             default (match DRepState.registered_at drep with Some x => fst x | None => 0 end)
                     (DRepState.last_active_slot drep) in
           e ← ChainSummary.slot_epoch (chain_summary b) last_activity_slot;
           pparams ← EpochValue.unwrap_live (EpochState.pparams (ending_state b));
           period ←? ensured (PParamsSet.ensure_drep_inactivity_period pparams);
           expiring_epoch ← uadd 64 (fst e) period;
           starting ← starting_epoch_no b;
           Ret (Ok (expiring_epoch <=? starting))
       end.

Definition is_drep_registered_as_of (drep : DRepState.t) (boundary_slot : BlockSlot) : bool :=
  let before (x : option (BlockSlot * TxOrder)) :=
    match x with Some p => if fst p <? boundary_slot then Some p else None | None => None end in
  match before (DRepState.registered_at drep), before (DRepState.unregistered_at drep) with
  | Some registered, Some unregistered => slot_order_lt unregistered registered
  | Some _, None => true
  | _, _ => false
  end.

Definition load_drep_data (b : t) (s : S) : run (result ChainError t) :=
  next_epoch ← uadd 64 (closing b) 1;
  boundary_slot ← ChainSummary.epoch_start (chain_summary b) next_epoch;
  ratify_slot ← ChainSummary.epoch_start (chain_summary b) (closing b);
  let ratify_expiry_epoch := saturating_sub 64 (closing b) 1 in
  for_records (fun b x =>
    let '(id, drep) := x in
    let b := if is_drep_registered_as_of drep boundary_slot
             then b <| snapshot_registered_dreps := {[id]} ∪ snapshot_registered_dreps b |> else b in
    let b :=
      if is_drep_registered_as_of drep ratify_slot then
        match drep_credential (DRepState.identifier drep) with
        | Some credential =>
            let expiry := DRepState.expiry drep ≫= fun expiry => DRepExpiry.as_of expiry ratify_expiry_epoch in
            b <| ratify_dreps := <[credential := expiry]> (ratify_dreps b) |>
        | None => b
        end
      else b in
    retiring ← is_retiring_drep b drep;
    match retiring with
    | Some unregistered_at =>
        Ret (Ok (b <| retiring_dreps := retiring_dreps b ++ [(DRepState.identifier drep, unregistered_at)] |>))
    | None =>
        expires ←? should_expire_drep b drep;
        Ret (Ok (if expires : bool
                 then b <| expiring_dreps := expiring_dreps b ++ [DRepState.identifier drep] |> else b))
    end) b (iter_entities_typed DRepState.t s None).

Definition load_proposal_reward_account (s : S) (proposal : ProposalState.t) :
    run (result ChainError (option AccountState.t)) :=
  match ProposalState.reward_account proposal with
  | None => Ret (Ok None)
  | Some account => read_typed AccountState.t s (entity_key_from (cbor_cred account))
  end.

Definition load_withdrawal_targets (b : t) (s : S) (withdrawals : list (StakeCredential * Z)) :
    run (result ChainError t) :=
  for_each (fun b x =>
    let '(credential, amount) := x in
    account ←? read_typed AccountState.t s (credential_to_key credential);
    match account with
    | Some account =>
        if AccountState.is_registered account then
          let b := b <| deliverable_withdrawal_targets := {[credential]} ∪ deliverable_withdrawal_targets b |> in
          match snapshot_drep_of b account with
          | Some drep =>
              m ← entry_add (boundary_drep_credits b) drep amount;
              Ret (Ok (b <| boundary_drep_credits := m |>))
          | None => Ret (Ok b)
          end
        else Ret (Ok b)
    | None => Ret (Ok b)
    end) b withdrawals.

Definition get_ratification (b : t) : run Ratification.t := expect (ratification b).

Definition load_proposal_data (b : t) (s : S) : run (result ChainError t) :=
  r ← get_ratification b;
  for_each (fun b x =>
    let '(id, outcome) := x in
    proposal ←? read_typed ProposalState.t s id;
    match proposal with
    | None => Ret (Ok b)
    | Some proposal =>
        account ←? load_proposal_reward_account s proposal;
        let b := add_delta b (CardanoDelta.DProposalResolved
          (ProposalResolved.new (ProposalState.tx proposal) (ProposalState.idx proposal) outcome (closing b))) in
        match outcome with
        | Proposals.Enacted =>
            b ←? match ProposalState.action proposal with
                 | TreasuryWithdrawalAction withdrawals => load_withdrawal_targets b s withdrawals
                 | _ => Ret (Ok b)
                 end;
            Ret (Ok (b <| enacting_proposals := <[id := (proposal, account)]> (enacting_proposals b) |>))
        | Proposals.Expired | Proposals.PrunedSibling =>
            Ret (Ok (b <| dropping_proposals := <[id := (proposal, account)]> (dropping_proposals b) |>))
        end
    end) b (map_to_list (Ratification.outcomes r)).

(** ** Ratification at the boundary *)

Definition ratify_cutoff_slot (b : t) : run BlockSlot :=
  start ← ChainSummary.epoch_start (chain_summary b) (closing b);
  Ret (saturating_sub 64 start 1).

(** The snapshot entry of a proposal: [None] where the loop continues. *)
Definition snapshot_proposal (closing : Epoch) (cutoff : BlockSlot) (x : EntityKey * ProposalState.t) :
    run (option RatifyProposal.t) :=
  let '(key, proposal) := x in
  live ← ProposalState.is_unresolved_at_close proposal closing;
  if negb live then Ret None
  else
    let in_snapshot :=
      match ProposalState.proposed_in proposal with Some proposed => proposed <? closing | None => false end in
    if negb in_snapshot then Ret None
    else match ProposalState.action proposal, ProposalState.max_epoch proposal with
         | Other, _ | _, None => Ret None
         | action, Some expires_after =>
             Ret (Some (RatifyProposal.mk key (ProposalState.gov_action_id proposal) action
               (ProposalState.parent proposal) expires_after
               (ProposalState.slot proposal, ProposalState.tx proposal, ProposalState.idx proposal)
               (ProposalState.cc_votes_as_of proposal cutoff) (ProposalState.drep_votes_as_of proposal cutoff)
               (ProposalState.spo_votes_as_of proposal cutoff)))
         end.

(** The default vote of a pool; [None] where the loop continues. *)
Definition pool_default_vote (s : S) (closing : Epoch) (pool : PoolHash) :
    run (result ChainError (option DefaultVote)) :=
  pool_state ←? read_typed PoolState.t s (entity_key_from pool);
  match pool_state with
  | None => Ret (Ok None)
  | Some pool_state =>
      account ← load_pool_reward_account s pool_state;
      match account with
      | Err _ | Ok None => Ret (Ok None)
      | Ok (Some account) =>
          epoch ← usub 64 closing 1;
          Ret (Ok match AccountState.delegated_drep_at account epoch with
                  | Some DRepAbstain => Some DefaultAbstain
                  | Some DRepNoConfidence => Some DefaultNoConfidence
                  | _ => None
                  end)
      end
  end.

Definition build_ratify_input (b : t) (s : S) : run (result ChainError (option RatifyInput.t)) :=
  let closing := closing b in
  let gov_active := match gov_active_since b with Some since => since <=? closing | None => false end in
  if negb gov_active || (closing =? 0) then Ret (Ok None)
  else
    prev_epoch ← usub 64 closing 1;
    match GovState.prev_distr (gov b) with
    | None => Ret (Ok None)
    | Some prev_distr =>
        if negb (GovDistr.is_complete_for prev_distr prev_epoch) then Ret (Ok None)
        else
          cutoff ← ratify_cutoff_slot b;
          let committee_auths :=
            omap (fun history => last_as_of history cutoff) (GovState.committee_auths (gov b)) in
          proposals ←? for_records (fun acc x =>
              p ← snapshot_proposal closing cutoff x;
              Ret (Ok (match p with Some p => acc ++ [p] | None => acc end)))
            [] (iter_entities_typed ProposalState.t s None);
          pool_default_votes ←? for_each (fun m x =>
              default ←? pool_default_vote s closing (fst x);
              Ret (Ok (match default with Some d => <[fst x := d]> m | None => m end)))
            ∅ (map_to_list (GovDistr.pool_distr prev_distr));
          pparams ← EpochValue.unwrap_live (EpochState.pparams (ending_state b));
          Ret (Ok (Some (RatifyInput.mk closing pparams (Pots.treasury (EpochState.initial_pots (ending_state b)))
            (GovState.committee (gov b)) (GovState.prev_gov_action_ids (gov b)) committee_auths
            (GovDistr.drep_distr prev_distr) (GovDistr.pool_distr prev_distr) (GovDistr.pool_total prev_distr)
            (ratify_dreps b) pool_default_votes proposals)))
    end.

Definition live_forest (b : t) (s : S) (input : RatifyInput.t) : run (result ChainError (list RatifyProposal.t)) :=
  let closing := closing b in
  let in_snapshot : gset EntityKey := list_to_set (RatifyProposal.key <$> RatifyInput.proposals input) in
  extra ←? for_records (fun extra x =>
      let '(key, proposal) := x in
      if bool_decide (key ∈ in_snapshot) then Ret (Ok extra)
      else
        live ← ProposalState.is_unresolved_at_close proposal closing;
        if negb live then Ret (Ok extra)
        else Ret (Ok (extra ++ [RatifyProposal.mk key (ProposalState.gov_action_id proposal)
               (ProposalState.action proposal) (ProposalState.parent proposal)
               (default closing (ProposalState.max_epoch proposal))
               (ProposalState.slot proposal, ProposalState.tx proposal, ProposalState.idx proposal) ∅ ∅ ∅])))
    [] (iter_entities_typed ProposalState.t s None);
  Ret (Ok (RatifyInput.proposals input ++ extra)).

(** The order of [(BlockSlot, u32)]. *)
Definition submission_cmp (a b : EntityKey * (BlockSlot * Z)) : comparison :=
  match fst (snd a) ?= fst (snd b) with Eq => snd (snd a) ?= snd (snd b) | c => c end.

Definition resolve_pre_conway (b : t) (s : S) : run (result ChainError Ratification.t) :=
  let closing := closing b in
  live ←? for_records (fun live x =>
      let '(key, proposal) := x in
      open ← ProposalState.is_unresolved_at_close proposal closing;
      if negb open then Ret (Ok live)
      else
        let curated := enacts_at (network_magic b) (id_as_string proposal) in
        let at_ := match curated with Some e => Some e | None => ProposalState.proposed_in proposal end in
        Ret (Ok (if bool_decide (at_ = Some closing)
                 then live ++ [(key, (ProposalState.slot proposal, ProposalState.idx proposal))] else live)))
    [] (iter_entities_typed ProposalState.t s None);
  let order := fst <$> sort_by submission_cmp live in
  Ret (Ok (Ratification.mk (foldl (fun m key => <[key := Proposals.Enacted]> m) ∅ order) order)).

(** The outcome a verdict gives, [None] where the loop continues. *)
Definition verdict_outcome (pruned : gset EntityKey) (v : ProposalRatification.t) : option ProposalOutcome :=
  match ProposalRatification.verdict v with
  | Accepted => Some Proposals.Enacted
  | Ratify.Expired => Some Proposals.Expired
  | Continuing =>
      if bool_decide (ProposalRatification.key v ∈ pruned) then Some Proposals.PrunedSibling else None
  end.

(** The ruling that an engine outcome and the pruned keys give. *)
Definition ruling_of (input : RatifyInput.t) (outcome : RatifyOutcome.t) (pruned : gset EntityKey) : Ratification.t :=
  let by_id := RatifyProposal.key <$> index_by_id (RatifyInput.proposals input) in
  let order := omap (fun id => by_id !! id) (RatifyOutcome.enacted outcome) in
  let outcomes :=
    foldl (fun m v => match verdict_outcome pruned v with
                      | Some o => <[ProposalRatification.key v := o]> m
                      | None => m
                      end) ∅ (RatifyOutcome.verdicts outcome) in
  let outcomes :=
    foldl (fun m key => match m !! key with
                        | Some _ => m
                        | None => <[key := Proposals.PrunedSibling]> m
                        end) outcomes (elements pruned) in
  Ratification.mk outcomes order.

Definition run_ratification (b : t) (s : S) : run (result ChainError t) :=
  let closing := closing b in
  if match gov_active_since b with Some since => closing <? since | None => true end then
    r ←? resolve_pre_conway b s;
    Ret (Ok (b <| ratification := Some r |>))
  else
    input ←? build_ratify_input b s;
    match input with
    | None => Ret (Ok (b <| ratification := Some Ratification.default_ |>))
    | Some input =>
        outcome ← ratify input;
        forest ←? live_forest b s input;
        let pruned := pruned_by_enactment forest (RatifyOutcome.enacted outcome) in
        Ret (Ok (b <| ratification := Some (ruling_of input outcome pruned) |>))
    end.

(** [matches!(action, ProposalAction::HardFork((10, _)))]. *)
Definition is_pv10_fork (action : ProposalAction) : bool :=
  match action with HardFork (major, _) => major =? 10 | _ => false end.

Fixpoint any_pv10 (s : S) (ids : list EntityKey) : run (result ChainError bool) :=
  match ids with
  | [] => Ret (Ok false)
  | id :: ids' =>
      proposal ←? read_typed ProposalState.t s id;
      if match proposal with Some p => is_pv10_fork (ProposalState.action p) | None => false end
      then Ret (Ok true) else any_pv10 s ids'
  end.

Definition detect_pv10_migration (b : t) (s : S) : run (result ChainError t) :=
  live ← EpochValue.unwrap_live (EpochState.pparams (ending_state b));
  live_major ← PParamsSet.protocol_major_or_default live;
  if negb (live_major =? 9) then Ret (Ok b)
  else
    pending ←? any_record (fun x =>
        open ← ProposalState.is_unresolved_at_close (snd x) (closing b);
        Ret (open && is_pv10_fork (ProposalState.action (snd x))))
      (iter_entities_typed ProposalState.t s None);
    if negb pending then Ret (Ok b)
    else
      b ←? run_ratification b s;
      r ← get_ratification b;
      found ←? any_pv10 s (Ratification.enactment_order r);
      let b := if found : bool then b <| pv10_migration := true |> else b in
      Ret (Ok (b <| ratification := None |>)).

(** ** Visitors

    A visitor is the list of the deltas it has queued. *)

Abbreviation Visitor := (list CardanoDelta.t) (only parsing).

(** ewrap/rewards.rs *)
Definition rewards_visit_account (v : Visitor) (b : t) (id : EntityKey) (account : AccountState.t) :
    run (Visitor * t) :=
  x ← RewardMap.take_for_apply (rewards b) (AccountState.credential account);
  match x with
  | (None, _) => Ret (v, b)
  | (Some reward, m) =>
      let b := b <| rewards := m |> in
      total ← Reward.total_value reward;
      let b := b <| applied_reward_credentials :=
                   applied_reward_credentials b ++ [AccountState.credential account] |> in
      if negb (AccountState.is_registered account) then
        m ← RewardMap.return_reward_to_treasury (rewards b) total;
        Ret (v, b <| rewards := m |>)
      else
        let v := v ++ [CardanoDelta.DAssignRewards (AssignRewards.new id total)] in
        let applied := (fun x => let '(pool, value, as_leader) := x in
          AppliedReward.mk (AccountState.credential account) pool value as_leader) <$> Reward.into_vec reward in
        Ret (v, b <| applied_rewards := applied_rewards b ++ applied |>)
  end.

Definition rewards_flush (v : Visitor) (b : t) : run t :=
  mark_protocol ← match EpochValue.mark (EpochState.pparams (ending_state b)) with
                  | Some p => PParamsSet.protocol_major p
                  | None => Ret None
                  end;
  let pre_babbage := default 0 mark_protocol <? 7 in
  _ ← (if (0 <? Z.of_nat (RewardMap.len (rewards b))) then
         _ ← pending_total (List.filter (fun x => Reward.is_spendable (snd x)) (RewardMap.iter_pending (rewards b)));
         pending_total (List.filter (fun x => negb (Reward.is_spendable (snd x))) (RewardMap.iter_pending (rewards b)))
       else Ret 0);
  x ← RewardMap.drain_unspendable (rewards b) pre_babbage;
  let '(drained, m) := x in
  let b := (b <| rewards := m |>) <| applied_reward_credentials := applied_reward_credentials b ++ drained |> in
  _ ← (if (0 <? Z.of_nat (RewardMap.len (rewards b))) then pending_total (RewardMap.iter_pending (rewards b))
       else Ret 0);
  Ret (add_deltas b v).

(** ewrap/drops.rs *)
Definition drops_visit_account (v : Visitor) (b : t) (id : EntityKey) (account : AccountState.t) : Visitor :=
  let current_epoch := closing b in
  let v :=
    match AccountState.delegated_pool_at account current_epoch with
    | Some pool =>
        if bool_decide (is_Some (retiring_pools b !! pool))
        then v ++ [CardanoDelta.DPoolDelegatorRetire (PoolDelegatorRetire.new id current_epoch)] else v
    | None => v
    end in
  match AccountState.delegated_drep_at account current_epoch with
  | Some drep =>
      if clears_drep_delegation b drep account
      then v ++ [CardanoDelta.DDRepDelegatorDrop (DRepDelegatorDrop.new id current_epoch)] else v
  | None => v
  end.

Definition drops_visit_drep (v : Visitor) (b : t) (id : EntityKey) (drep : DRepState.t) : Visitor :=
  if bool_decide (DRepState.identifier drep ∈ expiring_dreps b)
  then v ++ [CardanoDelta.DDRepExpiration (DRepExpiration.new id)] else v.

(** ewrap/refunds.rs: [visit_dropping_proposal] and [visit_enacting_proposal]
    have the same body. *)
Definition refunds_visit_proposal (v : Visitor) (proposal : ProposalState.t) (account : option AccountState.t) :
    Visitor :=
  match ProposalState.deposit proposal, account with
  | Some deposit, Some account =>
      if AccountState.is_registered account
      then v ++ [CardanoDelta.DProposalDepositRefund
                   (ProposalDepositRefund.new deposit (AccountState.credential account))]
      else v
  | _, _ => v
  end.

Definition refunds_visit_retiring_pool (v : Visitor) (b : t) (account : option AccountState.t) :
    run (result ChainError Visitor) :=
  live ← EpochValue.unwrap_live (EpochState.pparams (ending_state b));
  deposit ←? ensured (PParamsSet.ensure_pool_deposit live);
  Ret (Ok match account with
          | Some account =>
              if AccountState.is_registered account
              then v ++ [CardanoDelta.DPoolDepositRefund
                           (PoolDepositRefund.new deposit (AccountState.credential account))]
              else v
          | None => v
          end).

(** ewrap/enactment.rs *)
Definition enactment_deltas (proposal : ProposalState.t) (targets : gset StakeCredential) : list CardanoDelta.t :=
  match ProposalState.action proposal with
  | HardFork version =>
      [CardanoDelta.DPParamsUpdate
         (PParamsUpdate.new (PParamsSet.with_ PParamsSet.default_ (PParamValue.ProtocolVersion version)))]
  | ParamChange pparams => [CardanoDelta.DPParamsUpdate (PParamsUpdate.new pparams)]
  | TreasuryWithdrawalAction withdrawals =>
      omap (fun x => if bool_decide (fst x ∈ targets)
                     then Some (CardanoDelta.DTreasuryWithdrawal (TreasuryWithdrawal.new (fst x) (snd x)))
                     else None) withdrawals
  | NoConfidence => [CardanoDelta.DCommitteeUpdate CommitteeUpdate.no_confidence]
  | UpdateCommittee to_remove to_add threshold =>
      [CardanoDelta.DCommitteeUpdate (CommitteeUpdate.update to_remove to_add threshold)]
  | NewConstitution anchor guardrail_script =>
      [CardanoDelta.DConstitutionUpdate
         (ConstitutionUpdate.new {| c_anchor := anchor; c_guardrail_script := guardrail_script |})]
  | Info | Other => []
  end ++
  match ProposalState.purpose proposal with
  | Some purpose =>
      [CardanoDelta.DGovRootsUpdate (GovRootsUpdate.new purpose
         {| transaction_id := ProposalState.tx proposal; action_index := ProposalState.idx proposal |})]
  | None => []
  end.

Definition enactment_visit_proposal (v : Visitor) (b : t) (proposal : ProposalState.t) : run (Visitor * t) :=
  b ← match ProposalState.action proposal with
      | TreasuryWithdrawalAction withdrawals =>
          run_foldl (fun b x =>
            let '(credential, amount) := x in
            if bool_decide (credential ∈ deliverable_withdrawal_targets b) then
              total ← uadd 64 (effective_treasury_withdrawals b) amount;
              Ret (b <| effective_treasury_withdrawals := total |>)
            else
              total ← uadd 64 (invalid_treasury_withdrawals b) amount;
              Ret (b <| invalid_treasury_withdrawals := total |>)) b withdrawals
      | _ => Ret b
      end;
  Ret (v ++ enactment_deltas proposal (deliverable_withdrawal_targets b), b).

(** ewrap/wrapup.rs *)
Definition deposit_of (p : ProposalState.t) : Z := default 0 (ProposalState.deposit p).

Definition refunds_sum (l : list (ProposalState.t * option AccountState.t)) : run Z :=
  run_sum 64 (fun x => deposit_of (fst x)) l.

Definition define_proposal_total_refunds (b : t) : run Z :=
  enacting_sum ← refunds_sum (map_to_list (enacting_proposals b)).*2;
  dropping_sum ← refunds_sum (map_to_list (dropping_proposals b)).*2;
  uadd 64 enacting_sum dropping_sum.

Definition valid_refund (x : ProposalState.t * option AccountState.t) : bool := is_registered_opt (snd x).

Definition define_proposal_valid_refunds (b : t) : run Z :=
  enacting_sum ← refunds_sum (List.filter valid_refund (map_to_list (enacting_proposals b)).*2);
  dropping_sum ← refunds_sum (List.filter valid_refund (map_to_list (dropping_proposals b)).*2);
  uadd 64 enacting_sum dropping_sum.

Definition define_end_stats (b : t) : run EndStats.t :=
  let pool_refund_count :=
    Z.of_nat (length (List.filter (fun x => is_registered_opt (snd x)) (map_to_list (retiring_pools b)).*2)) in
  pool_invalid_refund_count ← usub 64 (Z.of_nat (size (retiring_pools b))) pool_refund_count;
  proposal_total_refunds ← define_proposal_total_refunds b;
  proposal_valid_refunds ← define_proposal_valid_refunds b;
  proposal_invalid_refunds ← usub 64 proposal_total_refunds proposal_valid_refunds;
  _ ← EpochValue.unwrap_live (EpochState.rolling (ending_state b));
  acc ← expect (EpochState.end_ (ending_state b));
  Ret (EndStats.mk (Z.of_nat (size (new_pools b))) pool_refund_count pool_invalid_refund_count
    (RewardMap.incentives (rewards b)) (EndStats.effective_rewards acc) (EndStats.unspendable_to_treasury acc)
    (EndStats.unspendable_to_reserves acc) (effective_treasury_mirs b) (effective_reserve_mirs b)
    (invalid_treasury_mirs b) (invalid_reserve_mirs b) (effective_treasury_withdrawals b)
    (invalid_treasury_withdrawals b) proposal_invalid_refunds proposal_valid_refunds 0 0).

Definition wrapup_flush (v : Visitor) (b : t) : run t :=
  let b := add_deltas b v in
  final_stats ← define_end_stats b;
  let b := b <| ending_state := (ending_state b) <| EpochState.end_ := Some final_stats |> |> in
  Ret (add_delta b (CardanoDelta.DEpochWrapUpV3 (EpochWrapUpV3.new final_stats))).

(** ** The shard pass *)

Record ShardAcc := mkAcc {
  acc_boundary : t;
  acc_rewards : Visitor;
  acc_drops : Visitor;
  acc_epochs : list (EntityKey * CardanoEntity.t);
  acc_distr : Distr;
  acc_migration : list CardanoDelta.t;
}.

(** The reward the visit of an account assigned. *)
Definition assigned (ds : list CardanoDelta.t) : run Z :=
  run_sum 64 (fun x => x)
    (omap (fun d => match d with CardanoDelta.DAssignRewards x => Some (AssignRewards.reward x) | _ => None end) ds).

(** [matches!(drep, DRep::Key(_) | DRep::Script(_))] and the two other tests
    of a dangling delegation. *)
Definition dangling (b : t) (drep : DRep) (account : AccountState.t) : bool :=
  match drep with DRepKey _ | DRepScript _ => true | _ => false end &&
  negb (bool_decide (drep_to_entity_key drep ∈ snapshot_registered_dreps b)) &&
  negb (clears_drep_delegation b drep account).

Definition shard_account (snapshot_epoch : option Epoch) (a : ShardAcc) (x : EntityKey * AccountState.t) :
    run (result ChainError ShardAcc) :=
  let '(account_id, account) := x in
  let b := acc_boundary a in
  let migration :=
    if pv10_migration b then
      match AccountState.delegated_drep_at account (closing b) with
      | Some drep =>
          if dangling b drep account
          then acc_migration a ++ [CardanoDelta.DDRepDelegatorDrop (DRepDelegatorDrop.new account_id (closing b))]
          else acc_migration a
      | None => acc_migration a
      end
    else acc_migration a in
  let rewards_before := length (acc_rewards a) in
  let applied_before := length (applied_rewards b) in
  r ← rewards_visit_account (acc_rewards a) b account_id account;
  let '(visitor_rewards, b) := r in
  let visitor_drops := drops_visit_account (acc_drops a) b account_id account in
  row ← account_epoch_row b account (drop applied_before (applied_rewards b));
  let epochs := if AccountEpochLog.is_empty row then acc_epochs a
                else acc_epochs a ++ [(account_id, CardanoEntity.EAccountEpochLog row)] in
  distr ← match snapshot_epoch with
          | Some epoch =>
              boundary_reward ← assigned (drop rewards_before visitor_rewards);
              accumulate_gov_distr b epoch account boundary_reward (acc_distr a)
          | None => Ret (acc_distr a)
          end;
  Ret (Ok (mkAcc b visitor_rewards visitor_drops epochs distr migration)).

Definition compute_shard_deltas (b : t) (s : S) (ranges : list (EntityKey * EntityKey))
    (shard_index total_shards : Z) : run (result ChainError t) :=
  let snapshot_epoch := distr_snapshot_epoch b in
  a ←? for_each (fun a range =>
      for_records (shard_account snapshot_epoch) a (iter_entities_typed AccountState.t s (Some range)))
    (mkAcc b [] [] [] (∅, ∅, 0) []) ranges;
  b ← rewards_flush (acc_rewards a) (acc_boundary a);
  let b := add_deltas b (acc_drops a) in
  let b := b <| logs := logs b ++ acc_epochs a |> in
  let b := add_deltas b (acc_migration a) in
  let b :=
    match snapshot_epoch with
    | Some _ =>
        let '(drep_distr, pool_distr, pool_total) := acc_distr a in
        add_delta b (CardanoDelta.DGovDistrAccumulate
          (GovDistrAccumulate.new (closing b) shard_index total_shards drep_distr pool_distr pool_total))
    | None => b
    end in
  effective ← RewardMap.get_applied_effective (rewards b);
  to_treasury ← RewardMap.get_unspendable_to_treasury (rewards b);
  to_reserves ← RewardMap.get_unspendable_to_reserves (rewards b);
  let b := b <| shard_applied_effective := effective |> in
  let b := b <| shard_applied_unspendable_to_treasury := to_treasury |> in
  let b := b <| shard_applied_unspendable_to_reserves := to_reserves |> in
  Ret (Ok (add_delta b (CardanoDelta.DEWrapProgress
    (EWrapProgress.new effective to_treasury to_reserves shard_index total_shards)))).

Definition load_shard (s : S) (magic shard_index total_shards : Z) (ranges : list (EntityKey * EntityKey)) :
    run (result ChainError t) :=
  b ←? new_empty s magic;
  b ←? load_pool_data b s;
  b ←? load_drep_data b s;
  b ←? detect_pv10_migration b s;
  b ←? match distr_snapshot_epoch b with
       | Some _ => load_proposal_deposits b s
       | None => Ret (Ok b)
       end;
  b ←? load_pending_rewards_ranges b s ranges;
  compute_shard_deltas b s ranges shard_index total_shards.

(** ** The global pass *)

Definition process_mir (b : t) (s : S) (mir : PendingMirState.t) : run (result ChainError t) :=
  let credential := PendingMirState.credential mir in
  let account_key := credential_to_key credential in
  account ←? read_typed AccountState.t s account_key;
  let b := b <| applied_mir_credentials := applied_mir_credentials b ++ [credential] |> in
  if is_registered_opt account then
    from_treasury ← uadd 64 (effective_treasury_mirs b) (PendingMirState.from_treasury mir);
    let b := b <| effective_treasury_mirs := from_treasury |> in
    from_reserves ← uadd 64 (effective_reserve_mirs b) (PendingMirState.from_reserves mir);
    let b := b <| effective_reserve_mirs := from_reserves |> in
    total ← PendingMirState.total_value mir;
    Ret (Ok (if 0 <? total
             then add_delta b (CardanoDelta.DAssignRewards (AssignRewards.new account_key total)) else b))
  else
    from_treasury ← uadd 64 (invalid_treasury_mirs b) (PendingMirState.from_treasury mir);
    let b := b <| invalid_treasury_mirs := from_treasury |> in
    from_reserves ← uadd 64 (invalid_reserve_mirs b) (PendingMirState.from_reserves mir);
    Ret (Ok (b <| invalid_reserve_mirs := from_reserves |>)).

Definition process_pending_mirs (b : t) (s : S) : run (result ChainError t) :=
  for_records (fun b x => process_mir b s (snd x)) b (iter_entities_typed PendingMirState.t s None).

Definition load_pool_refund_credits (b : t) : run (result ChainError t) :=
  match distr_snapshot_epoch b with
  | None => Ret (Ok b)
  | Some _ =>
      let refunded :=
        List.filter AccountState.is_registered (omap (fun x => snd x) (map_to_list (retiring_pools b)).*2) in
      match refunded with
      | [] => Ret (Ok b)
      | _ =>
          live ← EpochValue.unwrap_live (EpochState.pparams (ending_state b));
          deposit ←? ensured (PParamsSet.ensure_pool_deposit live);
          lift (run_foldl (fun b account =>
            match snapshot_drep_of b account with
            | Some drep =>
                m ← entry_add (boundary_drep_credits b) drep deposit;
                Ret (b <| boundary_drep_credits := m |>)
            | None => Ret b
            end) b refunded)
      end
  end.

Definition completed_drep_distr (b : t) : option (gmap DRep Z) :=
  _ ← distr_snapshot_epoch b;
  match gov_distr b with
  | Some distr => if GovDistr.is_complete_for distr (closing b) then Some (GovDistr.drep_distr distr) else None
  | None => None
  end.

Definition emit_drep_power_update (b : t) (distr : gmap DRep Z) (id : EntityKey) (drep : DRepState.t) : t :=
  if is_none (DRepState.registered_at drep) || DRepState.is_unregistered drep then b
  else
    let power := default 0 (distr !! DRepState.identifier drep) in
    if negb (power =? DRepState.voting_power drep)
    then add_delta b (CardanoDelta.DDRepPowerUpdate (DRepPowerUpdate.new id power)) else b.

Definition emit_governance_boundary_deltas (b : t) (s : S) : run (result ChainError t) :=
  let closing := closing b in
  if match gov_active_since b with Some since => closing <? since | None => true end then Ret (Ok b)
  else
    starting ← starting_epoch_no b;
    any_votable_survivor ←? any_record (fun x =>
        let '(id, proposal) := x in
        open ← ProposalState.is_unresolved_at_close proposal closing;
        survives ← (if open : bool then r ← get_ratification b; Ret (negb (Ratification.is_removed r id))
                    else Ret false);
        Ret (survives &&
             match ProposalState.max_epoch proposal with Some max => starting <=? max | None => false end))
      (iter_entities_typed ProposalState.t s None);
    let b := if negb any_votable_survivor
             then add_delta b (CardanoDelta.DGovDormancyTick GovDormancyTick.new) else b in
    let b := add_delta b (CardanoDelta.DCommitteeGc CommitteeGc.new) in
    let b := if negb (bool_decide (boundary_drep_credits b = ∅))
             then add_delta b (CardanoDelta.DGovDistrBoundaryCredit
                    (GovDistrBoundaryCredit.new closing (boundary_drep_credits b))) else b in
    Ret (Ok (add_delta b (CardanoDelta.DGovDistrRotate (GovDistrRotate.new closing)))).

(** The visits of the retiring pools: the refund and the wrap-up. *)
Definition visit_retiring_pools (b : t) (refunds wrapup : Visitor) : run (result ChainError (Visitor * Visitor)) :=
  for_each (fun vs x =>
    let '(refunds, wrapup) := vs in
    refunds ←? refunds_visit_retiring_pool refunds b (snd (snd x));
    Ret (Ok (refunds, wrapup ++ [CardanoDelta.DPoolWrapUp (PoolWrapUp.new (fst x))])))
    (refunds, wrapup) (map_to_list (retiring_pools b)).

(** The visits of the enacting proposals, in the order of the ruling. *)
Definition visit_enacting_one (enacting : gmap EntityKey (ProposalState.t * option AccountState.t))
    (acc : t * Visitor * Visitor) (id : EntityKey) : run (t * Visitor * Visitor) :=
  let '(b, enactment, refunds) := acc in
  match enacting !! id with
  | None => Ret acc
  | Some (proposal, account) =>
      x ← enactment_visit_proposal enactment b proposal;
      Ret (snd x, fst x, refunds_visit_proposal refunds proposal account)
  end.

Definition visit_enacting (b : t) (order : list EntityKey) (enactment refunds : Visitor) :
    run (t * Visitor * Visitor) :=
  run_foldl (visit_enacting_one (enacting_proposals b)) (b, enactment, refunds) order.

(** The visitors without a method for a kind of entity do nothing there, so
    only the calls that do something are written. *)
Definition compute_ewrap_deltas (b : t) (s : S) : run (result ChainError t) :=
  b ←? process_pending_mirs b s;
  _ ←? for_records (fun _ x => Ret (Ok tt)) tt (iter_entities_typed PoolState.t s None);
  vs ←? visit_retiring_pools b [] [];
  let '(refunds, wrapup) := vs in
  drep_power ← match completed_drep_distr b with
               | Some distr =>
                   m ← run_foldl (fun m x => entry_add m (fst x) (snd x)) distr
                         (map_to_list (boundary_drep_credits b));
                   Ret (Some m)
               | None => Ret None
               end;
  x ←? for_records (fun acc x =>
      let '(b, drops) := acc in
      let drops := drops_visit_drep drops b (fst x) (snd x) in
      Ret (Ok (match drep_power with
               | Some distr => emit_drep_power_update b distr (fst x) (snd x)
               | None => b
               end, drops))) (b, []) (iter_entities_typed DRepState.t s None);
  let '(b, drops) := x in
  _ ←? for_records (fun _ x => _ ← ProposalState.is_active (snd x) (closing b); Ret (Ok tt)) tt
         (iter_entities_typed ProposalState.t s None);
  r ← get_ratification b;
  y ← visit_enacting b (Ratification.enactment_order r) [] refunds;
  let '(b, enactment, refunds) := y in
  let refunds := foldl (fun v x => refunds_visit_proposal v (fst (snd x)) (snd (snd x))) refunds
                   (map_to_list (dropping_proposals b)) in
  let b := add_deltas b enactment in
  let b := add_deltas b drops in
  let b := add_deltas b refunds in
  b ←? emit_governance_boundary_deltas b s;
  lift (wrapup_flush wrapup b).

Definition load_finalize (s : S) (magic : Z) : run (result ChainError t) :=
  b ←? new_empty s magic;
  b ←? load_pool_data b s;
  b ←? load_drep_data b s;
  b ←? load_pool_refund_credits b;
  b ←? run_ratification b s;
  b ←? load_proposal_data b s;
  compute_ewrap_deltas b s.

(** ** Commits (ewrap/commit.rs) *)

(** The archive of logs: the rows written, the last one of a key winning. *)
Abbreviation Archive := (gmap (list Z) CardanoEntity.t) (only parsing).

(** [TemporalKey] and [LogKey] (core/src/archive.rs). *)
Definition temporal_key (slot : BlockSlot) : bytes := to_be_bytes 8 slot.
Definition log_key (slot : BlockSlot) (key : EntityKey) : bytes := temporal_key slot ++ key.

(** The deltas queued on one entity, applied one after the other. *)
Definition apply_all (ds : list CardanoDelta.t) (e : option CardanoEntity.t) : run (option CardanoEntity.t) :=
  run_foldl (fun e d => x ← CardanoDelta.apply d e; Ret (snd x)) e ds.

Definition stream_and_apply_namespace (T : Type) `{!Entity T, !Minicbor T V, !EntityVariant T}
    (ds : WorkDeltas.t CardanoDelta.t) (s : S) (w : W) (range : option (EntityKey * EntityKey)) :
    run (result ChainError (WorkDeltas.t CardanoDelta.t * W)) :=
  for_records (fun acc x =>
    let '(ds, w) := acc in
    let nk := (NS T, fst x) in
    match ds !! nk with
    | Some to_apply =>
        e ← apply_all to_apply (Some (into (snd x)));
        Ret (Ok (delete nk ds, save_entity_typed w (NS T) (fst x) e))
    | None => Ret (Ok (ds, w))
    end) (ds, w) (iter_entities_typed T s range).

(** [WorkDeltas::apply_singleton] (cardano/src/roll/batch.rs). *)
Definition apply_singleton (T : Type) `{!Entity T, !Minicbor T V, !EntityVariant T} (nk : NsKey)
    (ds : WorkDeltas.t CardanoDelta.t) (s : S) (w : W) :
    run (result ChainError (option T * WorkDeltas.t CardanoDelta.t * W)) :=
  match ds !! nk with
  | None => Ret (Ok (None, ds, w))
  | Some to_apply =>
      e ←? read_typed T s (snd nk);
      e ← apply_all to_apply (option_map into e);
      Ret (Ok (sub_entity e, delete nk ds, save_entity_typed w (NS T) (snd nk) e))
  end.

(** The commit of a shard: the state store and the archive after it, and the
    deltas left over. *)
Definition commit_shard (b : t) (s : S) (archive : Archive) (ranges : list (EntityKey * EntityKey)) :
    run (result ChainError (S * Archive * WorkDeltas.t CardanoDelta.t)) :=
  let w := start_writer s in
  x ←? for_each (fun acc range =>
      let '(ds, w) := acc in stream_and_apply_namespace AccountState.t ds s w (Some range)) (deltas b, w) ranges;
  let '(ds, w) := x in
  x ←? apply_singleton EpochState.t EpochState.ns_key ds s w;
  let '(_, ds, w) := x in
  x ←? apply_singleton GovState.t GovState.ns_key ds s w;
  let '(_, ds, w) := x in
  let w := foldl (fun w credential => delete_entity w (NS PendingRewardState.t) (credential_to_key credential))
             w (applied_reward_credentials b) in
  let w := foldl (fun w x => delete_entity w (NS PendingRewardState.t) (credential_to_key (fst x)))
             w (RewardMap.iter_pending (rewards b)) in
  slot ← account_epoch_slot b;
  let archive := foldl (fun m x => <[log_key slot (fst x) := snd x]> m) archive (logs b) in
  Ret (Ok (commit w s, archive, ds)).

Definition commit_finalize (b : t) (s : S) (archive : Archive) :
    run (result ChainError (S * Archive * WorkDeltas.t CardanoDelta.t)) :=
  let w := start_writer s in
  x ←? stream_and_apply_namespace PoolState.t (deltas b) s w None;
  x ←? stream_and_apply_namespace DRepState.t (fst x) s (snd x) None;
  x ←? stream_and_apply_namespace ProposalState.t (fst x) s (snd x) None;
  x ←? stream_and_apply_namespace AccountState.t (fst x) s (snd x) None;
  x ←? apply_singleton EpochState.t EpochState.ns_key (fst x) s (snd x);
  let '(applied, ds, w) := x in
  let ending := match applied with Some e => e | None => ending_state b end in
  x ←? apply_singleton GovState.t GovState.ns_key ds s w;
  let '(_, ds, w) := x in
  let w := foldl (fun w credential => delete_entity w (NS PendingMirState.t) (credential_to_key credential))
             w (applied_mir_credentials b) in
  slot ← ChainSummary.epoch_start (chain_summary b) (EpochState.number ending);
  let archive := foldl (fun m x => <[log_key slot (fst x) := snd x]> m) archive (logs b) in
  let archive := <[log_key slot (replicate KEY_SIZE 0) := CardanoEntity.EEpochState ending]> archive in
  Ret (Ok (commit w s, archive, ds)).

(** ** The work unit (ewrap/work_unit.rs) *)

Record EwrapWorkUnit := mkEwrap {
  ew_total_shards : Z;
  ew_start_shard : Z;
}.

Definition is_complete (u : EwrapWorkUnit) : bool := ew_total_shards u <=? ew_start_shard u.

Definition initialize (s : S) : run (result ChainError EwrapWorkUnit) :=
  epoch ←? load_epoch s;
  Ret (Ok match EpochState.ewrap_progress epoch with
          | Some p => mkEwrap (ShardProgress.total p) (ShardProgress.committed p)
          | None => mkEwrap ACCOUNT_SHARDS 0
          end).

(** One shard: load, then commit. *)
Definition run_shard (u : EwrapWorkUnit) (magic : Z) (sa : S * Archive) (shard_index : Z) :
    run (result ChainError (S * Archive)) :=
  ranges ← shard_key_ranges shard_index (ew_total_shards u);
  b ←? load_shard (fst sa) magic shard_index (ew_total_shards u) ranges;
  ranges ← shard_key_ranges shard_index (ew_total_shards u);
  x ←? commit_shard b (fst sa) (snd sa) ranges;
  Ret (Ok (fst x)).

Definition finalize (u : EwrapWorkUnit) (magic : Z) (sa : S * Archive) : run (result ChainError (S * Archive)) :=
  if is_complete u then Ret (Ok sa)
  else
    b ←? load_finalize (fst sa) magic;
    x ←? commit_finalize b (fst sa) (snd sa);
    Ret (Ok (fst x)).

(** The unit as the executor runs it: initialize, the shards from the resume
    cursor on, finalize. *)
Definition run_ewrap (magic : Z) (sa : S * Archive) : run (result ChainError (S * Archive)) :=
  u ←? initialize (fst sa);
  _ ← debug_assert (ew_start_shard u <=? ew_total_shards u);
  sa ←? for_each (run_shard u magic) sa (seqZ (ew_start_shard u) (ew_total_shards u - ew_start_shard u));
  finalize u magic sa.

End loading.

(** ** Queues of deltas *)

(** The deltas of one entity among a list, in order. *)
Definition queue `{Pallas, BuildCfg} (nk : NsKey) (ds : list CardanoDelta.t) : list CardanoDelta.t :=
  filter (fun d => CardanoDelta.key d = nk) ds.

Section queues.
Context `{BuildCfg, Pallas}.
Implicit Types (b : BoundaryWork.t).

Lemma queue_app nk ds1 ds2 : queue nk (ds1 ++ ds2) = queue nk ds1 ++ queue nk ds2.
Proof. apply filter_app. Qed.

Lemma queue_one nk d : queue nk [d] = if decide (CardanoDelta.key d = nk) then [d] else [].
Proof. reflexivity. Qed.

(** The queue of an entity after deltas are added. *)
Lemma add_deltas_queue b ds nk :
  default [] (deltas (add_deltas b ds) !! nk) = default [] (deltas b !! nk) ++ queue nk ds.
Proof.
  revert b. induction ds as [|d ds IH]; intros b; [by rewrite app_nil_r|]. cbn [add_deltas foldl].
  fold (add_deltas (add_delta b d) ds). rewrite IH.
  change (d :: ds) with ([d] ++ ds). rewrite queue_app, app_assoc, queue_one. f_equal.
  cbn. unfold WorkDeltas.add_for_entity. cbn. case_decide as Hk.
  - rewrite Hk, lookup_insert_eq. done.
  - by rewrite lookup_insert_ne, app_nil_r.
Qed.

Lemma gov_key_epoch : GovState.ns_key ≠ EpochState.ns_key.
Proof. intros E. by apply (f_equal fst) in E. Qed.

End queues.
