(* ===== verification/Crawl.v ===== *)
(** * The crawl of a block (cardano/src/roll/mod.rs)

    [DeltaBuilder] drives the eight visitors over a block; [compute_delta]
    does so for the blocks of a batch, the dormancy context passing from one
    block to the next, and computes their UTxO deltas. *)

From S2P Require Import Prelude Lists Types ChainPoint EpochValue EntityDelta Eras PParams Forks.
From S2P Require Import Accounts Pools DReps Datums Assets Pending Epochs Proposals Gov StateStore Blocks.
From S2P Require Import Metadata PallasExtras GovActions Wal Roll Indexes IndexBuilder CardanoModel Codec Visitors Ewrap.
Open Scope Z_scope.

(** ** The builder *)

Record DeltaBuilder := mkDeltaBuilder {
  account_state : AccountVisitor;
  asset_state : AssetStateVisitor;
  datum_state : DatumVisitor;
  drep_state : DRepStateVisitor;
  epoch_state : EpochStateVisitor;
  pool_state : PoolStateVisitor;
  tx_logs : TxLogVisitor;
  proposal_logs : ProposalVisitor;
}.

(** [DeltaBuilder::new]: default visitors, the dormancy context given. *)
Definition new_builder (dormancy : DormancyContext) : DeltaBuilder :=
  mkDeltaBuilder (mkAccountVisitor None None None) mkAssetStateVisitor (mkDatumVisitor ∅)
    (mkDRepStateVisitor 0 0 None dormancy) (mkEpochStateVisitor None None) (mkPoolStateVisitor None None)
    mkTxLogVisitor (mkProposalVisitor None None None None []).

Definition take_dormancy (b : DeltaBuilder) : DormancyContext := dv_dormancy (drep_state b).

(** What the whole crawl of a block is given. *)
Record CrawlEnv := mkCrawlEnv {
  ce_genesis : Genesis;
  ce_active_params : PParamsSet.t;
  ce_epoch : Epoch;
  ce_epoch_start : Z;
  ce_protocol : Z;
}.

Section crawl.
Context `{BuildCfg, Pallas, Addresses, MetadataCodecs, Hasher224}.

Abbreviation Crawling := (DeltaBuilder * Deltas)%type.
Abbreviation step := (run (result ChainError Crawling)).

(** The same method on every visitor, in the order of the fields. *)
Definition fan (f : forall (V : Type) (B : BlockVisitor V), V -> Deltas -> visit V) (s : Crawling) : step :=
  let (b, deltas) := s in
  account ←? f _ _ (account_state b) deltas;
  asset ←? f _ _ (asset_state b) (snd account);
  datum ←? f _ _ (datum_state b) (snd asset);
  drep ←? f _ _ (drep_state b) (snd datum);
  epoch ←? f _ _ (epoch_state b) (snd drep);
  pool ←? f _ _ (pool_state b) (snd epoch);
  log ←? f _ _ (tx_logs b) (snd pool);
  proposal ←? f _ _ (proposal_logs b) (snd log);
  Ret (Ok (mkDeltaBuilder (fst account) (fst asset) (fst datum) (fst drep) (fst epoch) (fst pool) (fst log)
             (fst proposal), snd proposal)).

Definition crawl_root (env : CrawlEnv) (block : MultiEraBlock) : Crawling -> step :=
  fan (fun V B v deltas => visit_root v deltas block (ce_genesis env) (ce_active_params env) (ce_epoch env)
                             (ce_epoch_start env) (ce_protocol env)).

Definition crawl_input (block : MultiEraBlock) (tx : MultiEraTx) (utxos : Resolved) (s : Crawling) (input : TxoRef) : step :=
  match utxos !! input_ref input with
  | None => Ret (Err (ChainState (InputNotFound (input_ref input))))
  | Some resolved => fan (fun V B v deltas => visit_input v deltas block tx input resolved) s
  end.

Definition crawl_output (block : MultiEraBlock) (tx : MultiEraTx) (s : Crawling) (o : Z * OutputView) : step :=
  fan (fun V B v deltas => visit_output v deltas block tx (as_u 32 (fst o)) (snd o)) s.

(** The effects of the body of a valid transaction, its proposals apart. *)
Definition crawl_body (block : MultiEraBlock) (order : TxOrder) (tx : MultiEraTx) (s : Crawling) : step :=
  s ←? for_each (fun s mint => fan (fun V B v deltas => visit_mint v deltas block tx mint) s) s (mt_mints tx);
  s ←? for_each (fun s cert => fan (fun V B v deltas => visit_cert v deltas block tx order cert) s) s (mt_certs tx);
  s ←? for_each (fun s w => fan (fun V B v deltas => visit_withdrawal v deltas block tx (fst w) (snd w)) s) s
        (mt_withdrawals tx);
  match mt_update tx with
  | Some update => fan (fun V B v deltas => visit_update v deltas block (Some tx) update) s
  | None => Ret (Ok s)
  end.

Definition crawl_proposals (block : MultiEraBlock) (tx : MultiEraTx) (s : Crawling) : step :=
  for_each (fun s x => fan (fun V B v deltas => visit_proposal v deltas block tx (snd x) (fst x)) s) s
    (zip (seqZ 0 (Z.of_nat (length (mt_gov_proposals tx)))) (mt_gov_proposals tx)).

Definition crawl_tx (block : MultiEraBlock) (utxos : Resolved) (s : Crawling) (x : TxOrder * MultiEraTx) : step :=
  let (order, tx) := x in
  s ←? fan (fun V B v deltas => visit_tx v deltas block tx utxos) s;
  s ←? for_each (crawl_input block tx utxos) s (mt_consumes tx);
  s ←? for_each (crawl_output block tx) s (mt_produces tx);
  s ←? (if mt_is_valid tx then crawl_body block order tx s else Ret (Ok s));
  s ←? for_each (fun s datum => fan (fun V B v deltas => visit_datums v deltas block tx datum) s) s (mt_plutus_data tx);
  s ←? (if mt_is_valid tx then crawl_proposals block tx s else Ret (Ok s));
  for_each (fun s redeemer => fan (fun V B v deltas => visit_redeemers v deltas block tx redeemer) s) s (mt_redeemers tx).

Definition crawl_update (block : MultiEraBlock) (s : Crawling) : step :=
  match mb_update block with
  | Some update => fan (fun V B v deltas => visit_update v deltas block None update) s
  | None => Ret (Ok s)
  end.

Definition crawl_flush (s : Crawling) : step := fan (fun V B v deltas => flush v deltas) s.

Definition crawl (env : CrawlEnv) (utxos : Resolved) (b : DeltaBuilder) (block : MultiEraBlock) : step :=
  s ←? crawl_root env block (b, ∅);
  s ←? for_each (crawl_tx block utxos) s (zip (seqZ 0 (Z.of_nat (length (mb_txs block)))) (mb_txs block));
  s ←? crawl_update block s;
  crawl_flush s.

End crawl.

(** ** Batches *)

(** The traversal of a decoded block. *)
Class Traversal := { traverse : bytes -> MultiEraBlock }.

Section batch.
Context {V S W : Type} `{!EntityCbor V, !StateStore V S W}.
Context `{BuildCfg, Pallas, Addresses, MetadataCodecs, Hasher224, Views, Traversal}.

Abbreviation Batch := (WorkBatch.t CardanoDelta.t CardanoEntity.t).

Definition load_effective_pparams (s : S) : run (result ChainError PParamsSet.t) :=
  epoch ←? load_epoch s;
  active ← EpochValue.unwrap_live (EpochState.pparams epoch);
  Ret (Ok active).

Definition initial_dormancy (s : S) : run (result ChainError DormancyContext) :=
  gov ←? load_gov s;
  let n := GovState.num_dormant_epochs gov in
  Ret (Ok (mkDormancyContext n
    (if 0 <? n then fst <$> iter_entities s (NS DRepState.t) full_range else []) [])).

(** The loop over the blocks. *)
Fixpoint compute_blocks (env : CrawlEnv) (decoded : UtxoMap) (dormancy : DormancyContext)
    (l : list (WorkBlock.t CardanoDelta.t)) : run (result ChainError (list (WorkBlock.t CardanoDelta.t))) :=
  match l with
  | [] => Ret (Ok [])
  | w :: rest =>
      r ←? crawl env (omap view_output decoded) (new_builder dormancy) (traverse (WorkBlock.raw w));
      u ←? Ret (map_err BrokenInv (compute_apply_delta (WorkBlock.block w) decoded));
      rest ←? compute_blocks env decoded (take_dormancy (fst r)) rest;
      Ret (Ok (WorkBlock.mk (WorkBlock.block w) (WorkBlock.raw w) (snd r) (Some u) :: rest))
  end.

Definition compute_delta (g : Genesis) (eras : ChainSummary.t) (s : S) (b : Batch) : run (result ChainError Batch) :=
  first ← expect (head (WorkBatch.blocks b));
  e ← ChainSummary.slot_epoch eras (WorkBlock.slot first);
  let epoch := fst e in
  p ← ChainSummary.protocol_and_era_for_epoch eras epoch;
  epoch_start ← ChainSummary.epoch_start eras epoch;
  active_params ←? load_effective_pparams s;
  dormancy ←? initial_dormancy s;
  l ←? compute_blocks (mkCrawlEnv g active_params epoch epoch_start (fst p)) (WorkBatch.utxos_decoded b) dormancy
        (WorkBatch.blocks b);
  Ret (Ok (b <| WorkBatch.blocks := l |>)).

End batch.
