(* ===== verification/Validate.v ===== *)
(** * The validation of a transaction (cardano/src/validate.rs,
    cardano/src/utils.rs)

    The environment validation is given: the effective protocol parameters in
    the form the ledger library takes them, the network of the genesis file,
    the slot of the tip; and the two phases.  The view of the UTxO set is an
    argument: Submit builds it from the state and the mempool. *)

From S2P Require Import Prelude Types ChainPoint EpochValue EntityDelta Eras PParams Forks StateStore Blocks CardanoModel Codec Ewrap Crawl Mempool.
Open Scope Z_scope.

(** [x as i64] of a [u64]. *)
Definition as_i64 (x : Z) : Z := if x mod 2 ^ 64 <? 2 ^ 63 then x mod 2 ^ 64 else x mod 2 ^ 64 - 2 ^ 64.

(** ** Protocol parameters (utils.rs)

    [pallas::..::ConwayProtParams]; [T] is the type of its points in time. *)
Module ConwayProtParams.

Record t {T : Type} := mk {
  system_start : T;
  epoch_length : Z;
  slot_length : Z;
  minfee_a : Z;
  minfee_b : Z;
  max_block_body_size : Z;
  max_transaction_size : Z;
  max_block_header_size : Z;
  key_deposit : Z;
  pool_deposit : Z;
  desired_number_of_stake_pools : Z;
  protocol_version : Z * Z;
  min_pool_cost : Z;
  ada_per_utxo_byte : Z;
  cost_models_for_script_languages : CostModels;
  execution_costs : ExUnitPrices;
  max_tx_ex_units : ExUnits;
  max_block_ex_units : ExUnits;
  max_value_size : Z;
  collateral_percentage : Z;
  max_collateral_inputs : Z;
  expansion_rate : RationalNumber;
  treasury_growth_rate : RationalNumber;
  maximum_epoch : Z;
  pool_pledge_influence : RationalNumber;
  pool_voting_thresholds : PoolVotingThresholds;
  drep_voting_thresholds : DRepVotingThresholds;
  min_committee_size : Z;
  committee_term_limit : Z;
  governance_action_validity_period : Z;
  governance_action_deposit : Z;
  drep_deposit : Z;
  drep_inactivity_period : Z;
  minfee_refscript_cost_per_byte : RationalNumber;
}.
Arguments t : clear implicits.

End ConwayProtParams.

(** Times of the [chrono] library: [DateTime::from_timestamp] and the default
    value. *)
Class Chrono (T : Type) := {
  from_timestamp : Z -> option T;
  default_time : T;
}.

Section params.
Context {T : Type} `{!Chrono T}.

Definition pparams_to_pallas (pparams : PParamsSet.t) : run (ConwayProtParams.t T) :=
  system_start ← PParamsSet.system_start_or_default pparams;
  epoch_length ← PParamsSet.epoch_length_or_default pparams;
  slot_length ← PParamsSet.slot_length_or_default pparams;
  minfee_a ← PParamsSet.min_fee_a_or_default pparams;
  minfee_b ← PParamsSet.min_fee_b_or_default pparams;
  max_block_body_size ← PParamsSet.max_block_body_size_or_default pparams;
  max_transaction_size ← PParamsSet.max_transaction_size_or_default pparams;
  max_block_header_size ← PParamsSet.max_block_header_size_or_default pparams;
  key_deposit ← PParamsSet.key_deposit_or_default pparams;
  pool_deposit ← PParamsSet.pool_deposit_or_default pparams;
  desired_number_of_stake_pools ← PParamsSet.desired_number_of_stake_pools_or_default pparams;
  protocol_version ← PParamsSet.protocol_version_or_default pparams;
  min_pool_cost ← PParamsSet.min_pool_cost_or_default pparams;
  ada_per_utxo_byte ← PParamsSet.ada_per_utxo_byte_or_default pparams;
  cost_models_for_script_languages ← PParamsSet.cost_models_for_script_languages pparams;
  execution_costs ← PParamsSet.execution_costs_or_default pparams;
  max_tx_ex_units ← PParamsSet.max_tx_ex_units_or_default pparams;
  max_block_ex_units ← PParamsSet.max_block_ex_units_or_default pparams;
  max_value_size ← PParamsSet.max_value_size_or_default pparams;
  collateral_percentage ← PParamsSet.collateral_percentage_or_default pparams;
  max_collateral_inputs ← PParamsSet.max_collateral_inputs_or_default pparams;
  expansion_rate ← PParamsSet.expansion_rate_or_default pparams;
  treasury_growth_rate ← PParamsSet.treasury_growth_rate_or_default pparams;
  maximum_epoch ← PParamsSet.maximum_epoch_or_default pparams;
  pool_pledge_influence ← PParamsSet.pool_pledge_influence_or_default pparams;
  pool_voting_thresholds ← PParamsSet.pool_voting_thresholds_or_default pparams;
  drep_voting_thresholds ← PParamsSet.drep_voting_thresholds_or_default pparams;
  min_committee_size ← PParamsSet.min_committee_size_or_default pparams;
  committee_term_limit ← PParamsSet.committee_term_limit_or_default pparams;
  governance_action_validity_period ← PParamsSet.governance_action_validity_period_or_default pparams;
  governance_action_deposit ← PParamsSet.governance_action_deposit_or_default pparams;
  drep_deposit ← PParamsSet.drep_deposit_or_default pparams;
  drep_inactivity_period ← PParamsSet.drep_inactivity_period_or_default pparams;
  minfee_refscript_cost_per_byte ← PParamsSet.min_fee_ref_script_cost_per_byte_or_default pparams;
  Ret {| ConwayProtParams.system_start := default default_time (from_timestamp (as_i64 system_start));
         ConwayProtParams.epoch_length := epoch_length;
         ConwayProtParams.slot_length := slot_length;
         ConwayProtParams.minfee_a := as_u 32 minfee_a;
         ConwayProtParams.minfee_b := as_u 32 minfee_b;
         ConwayProtParams.max_block_body_size := as_u 32 max_block_body_size;
         ConwayProtParams.max_transaction_size := as_u 32 max_transaction_size;
         ConwayProtParams.max_block_header_size := as_u 32 max_block_header_size;
         ConwayProtParams.key_deposit := key_deposit;
         ConwayProtParams.pool_deposit := pool_deposit;
         ConwayProtParams.desired_number_of_stake_pools := desired_number_of_stake_pools;
         ConwayProtParams.protocol_version := protocol_version;
         ConwayProtParams.min_pool_cost := min_pool_cost;
         ConwayProtParams.ada_per_utxo_byte := ada_per_utxo_byte;
         ConwayProtParams.cost_models_for_script_languages := cost_models_for_script_languages;
         ConwayProtParams.execution_costs := execution_costs;
         ConwayProtParams.max_tx_ex_units := max_tx_ex_units;
         ConwayProtParams.max_block_ex_units := max_block_ex_units;
         ConwayProtParams.max_value_size := max_value_size;
         ConwayProtParams.collateral_percentage := collateral_percentage;
         ConwayProtParams.max_collateral_inputs := max_collateral_inputs;
         ConwayProtParams.expansion_rate := expansion_rate;
         ConwayProtParams.treasury_growth_rate := treasury_growth_rate;
         ConwayProtParams.maximum_epoch := maximum_epoch;
         ConwayProtParams.pool_pledge_influence := pool_pledge_influence;
         ConwayProtParams.pool_voting_thresholds := pool_voting_thresholds;
         ConwayProtParams.drep_voting_thresholds := drep_voting_thresholds;
         ConwayProtParams.min_committee_size := min_committee_size;
         ConwayProtParams.committee_term_limit := committee_term_limit;
         ConwayProtParams.governance_action_validity_period := governance_action_validity_period;
         ConwayProtParams.governance_action_deposit := governance_action_deposit;
         ConwayProtParams.drep_deposit := drep_deposit;
         ConwayProtParams.drep_inactivity_period := drep_inactivity_period;
         ConwayProtParams.minfee_refscript_cost_per_byte := minfee_refscript_cost_per_byte |}.

End params.

(** ** The environment (validate.rs) *)

Inductive NetworkId := Testnet | Mainnet.

Definition network_id (g : Genesis) : option NetworkId :=
  match shelley_network_id (shelley g) with
  | Some network =>
      if String.eqb network "Mainnet" then Some Mainnet
      else if String.eqb network "Testnet" then Some Testnet
      else None
  | None => None
  end.

(** [pallas::..::Environment], without its account state, which is always the
    default one. *)
Record Environment {T : Type} := mkEnvironment {
  prot_params : ConwayProtParams.t T;
  prot_magic : Z;
  block_slot_ : BlockSlot;
  env_network_id : NetworkId;
}.
Arguments Environment : clear implicits.

(** ** External functions

    The transaction decoders of [pallas], the era of a transaction and the
    inputs it requires (spent, reference and collateral inputs).  A transaction
    is a body, which its hash covers, and a flag outside the body that says
    whether its scripts are expected to succeed. *)
Class TxDecoder := {
  decode_tx : bytes -> option Tx;
  decode_payload : EraCbor -> option Tx;
  tx_era : Tx -> Z;
  tx_requires : Tx -> list TxoRef;
  tx_is_valid : Tx -> bool;
  tx_inputs : Tx -> list TxoRef;
  tx_collateral : Tx -> list TxoRef;
}.

(** The two phases of ledger validation; [R] is the report of phase two,
    [eval_success] the success of each of its evaluations, [era_known] whether
    a number is one of an era, [decodes_output] whether an output decodes. *)
Class Validator (T R : Type) := {
  decodes_output : EraCbor -> bool;
  era_known : Z -> bool;
  phase1 : Tx -> Environment T -> UtxoMap -> bool;
  phase2 : Tx -> ConwayProtParams.t T -> UtxoMap -> SlotConfig -> option R;
  eval_success : R -> list bool;
}.

Inductive SubmitError :=
| TxDecoding
| OutputDecoding
| Phase1ValidationRejected
| Phase2EvaluationError
| Phase2ValidationRejected
| SubmitChain (e : ChainError)
| SubmitMempool (e : MempoolError).

(** ** The two phases *)

Section validate.
Context {V S W T R : Type} `{!EntityCbor V, !StateStore V S W, BuildCfg, Pallas}.
Context `{!Chrono T, TxDecoder, !Validator T R}.

(** [get_utxos] is the view of the store the caller passes. *)
Definition evaluate_tx (cbor : bytes) (state : S) (get_utxos : gset (list Z * Z) -> UtxoMap) :
    run (result SubmitError R) :=
  match decode_tx cbor with
  | None => Ret (Err TxDecoding)
  | Some tx =>
      eras ← load_eras state;
      eras ←? Ret (map_err SubmitChain eras);
      pparams ← load_effective_pparams state;
      pparams ←? Ret (map_err SubmitChain pparams);
      pparams ← pparams_to_pallas pparams;
      slot_config ← ChainSummary.to_pallas_slot_config eras;
      let utxos := get_utxos (list_to_set (input_ref <$> tx_requires tx)) in
      _ ← assert_ (forallb (fun o => era_known (fst (snd o))) (map_to_list utxos));
      Ret match phase2 tx pparams utxos slot_config with
          | Some report => Ok report
          | None => Err Phase2EvaluationError
          end
  end.

Definition validate_tx (cbor : bytes) (state : S) (get_utxos : gset (list Z * Z) -> UtxoMap)
    (tip : option ChainPoint.t) (g : Genesis) : run (result SubmitError (MempoolTx.t R)) :=
  match decode_tx cbor with
  | None => Ret (Err TxDecoding)
  | Some tx =>
      pparams ← load_effective_pparams state;
      pparams ←? Ret (map_err SubmitChain pparams);
      pparams ← pparams_to_pallas pparams;
      network ← expect (network_id g);
      magic ← expect (shelley_network_magic (shelley g));
      tip ← expect tip;
      let env := mkEnvironment T pparams magic (ChainPoint.slot tip) network in
      let utxos := get_utxos (list_to_set (input_ref <$> tx_requires tx)) in
      if negb (forallb (fun o => decodes_output (snd o)) (map_to_list utxos)) then Ret (Err OutputDecoding)
      else if negb (phase1 tx env utxos) then Ret (Err Phase1ValidationRejected)
      else
        report ←? evaluate_tx cbor state get_utxos;
        if negb (forallb id (eval_success report)) then Ret (Err Phase2ValidationRejected)
        else Ret (Ok (MempoolTx.new (tx_hash tx) (tx_era tx, cbor) report))
  end.

(** What validation lets through passed phase one on the view. *)
Lemma validated cbor (state : S) get_utxos tip g tx :
  validate_tx cbor state get_utxos tip g = Ret (Ok tx) ->
  exists a env, decode_tx cbor = Some a /\ MempoolTx.payload tx = (tx_era a, cbor) /\ MempoolTx.hash tx = tx_hash a /\
    pending_form (MempoolTx.clone tx) /\
    phase1 a env (get_utxos (list_to_set (input_ref <$> tx_requires a))) = true.
Proof.
  unfold validate_tx. destruct (decode_tx cbor) as [a|]; [|done]. intros Hv. apply bind_Ret in Hv as (? & _ & Hv).
  apply rbind_Ret in Hv as (? & _ & Hv). apply bind_Ret in Hv as (pp & _ & Hv). apply bind_Ret in Hv as (network & _ & Hv).
  apply bind_Ret in Hv as (magic & _ & Hv). apply bind_Ret in Hv as (tip' & _ & Hv). cbv zeta in Hv.
  destruct (negb (forallb _ _)); [done|].
  destruct (phase1 a (mkEnvironment T pp magic (ChainPoint.slot tip') network) _) eqn:Ep; [|done]. cbn [negb] in Hv.
  apply rbind_Ret in Hv as (report & _ & Hv). destruct (negb _); [done|]. apply Ret_inj in Hv. injection Hv as <-.
  by eexists a, _.
Qed.

End validate.
