(* ===== verification/CrawlEffects.v ===== *)
(** * What a crawl queues

    The stake and datum movements and the votes among the deltas of a block,
    computed from its transactions alone, and the independence of the deltas
    from the bodies of invalid transactions. *)

From S2P Require Import Prelude Lists Types ChainPoint EpochValue EntityDelta Eras PParams Forks.
From S2P Require Import Accounts Pools DReps Datums Assets Pending Epochs Proposals Gov StateStore Blocks.
From S2P Require Import Metadata PallasExtras GovActions Wal Roll Indexes IndexBuilder CardanoModel Codec Visitors Ewrap Crawl.
Open Scope Z_scope.
#[local] Arguments add_for_entity : simpl never.

(** ** Invalid transactions *)

(** A transaction without the elements of its body that the ledger ignores
    when its scripts failed. *)
Definition without_body (tx : MultiEraTx) : MultiEraTx := {|
  mt_hash := mt_hash tx;
  mt_is_valid := mt_is_valid tx;
  mt_byron_fee := mt_byron_fee tx;
  mt_conway := option_map (fun c => {| voting_procedures := None; donation := donation c |}) (mt_conway tx);
  mt_fee := mt_fee tx;
  mt_total_collateral := mt_total_collateral tx;
  mt_consumes := mt_consumes tx;
  mt_produces := mt_produces tx;
  mt_mints := [];
  mt_certs := [];
  mt_withdrawals := [];
  mt_update := None;
  mt_plutus_data := mt_plutus_data tx;
  mt_gov_proposals := [];
  mt_redeemers := mt_redeemers tx;
  mt_metadata := [];
|}.

Definition erase_invalid (tx : MultiEraTx) : MultiEraTx := if mt_is_valid tx then tx else without_body tx.

Definition erase_block (block : MultiEraBlock) : MultiEraBlock := {|
  mb_slot := mb_slot block;
  mb_hash := mb_hash block;
  mb_era := mb_era block;
  mb_previous_hash := mb_previous_hash block;
  mb_issuer_vkey := mb_issuer_vkey block;
  mb_nonce_vrf_output := mb_nonce_vrf_output block;
  mb_txs := erase_invalid <$> mb_txs block;
  mb_update := mb_update block;
|}.

Lemma rbind_ext {F A B} (m m' : run (result F A)) (f g : A -> run (result F B)) :
  m = m' -> (forall a, f a = g a) -> rbind m f = rbind m' g.
Proof. intros <- Hf. destruct m as [[a|]|]; cbn; auto. Qed.

Lemma for_each_ext {A T} (f g : A -> T -> run (result ChainError A)) a l :
  (forall a x, x ∈ l -> f a x = g a x) -> for_each f a l = for_each g a l.
Proof.
  revert a. induction l as [|x l IH]; intros a Hf; [done|]. cbn. rewrite Hf by (by left).
  apply rbind_ext; [done|]. intros b. apply IH. intros. apply Hf. by right.
Qed.

Lemma for_each_fmap {A T U} (f : A -> T -> run (result ChainError A)) (g : U -> T) a l :
  for_each f a (g <$> l) = for_each (fun a x => f a (g x)) a l.
Proof. revert a. induction l as [|x l IH]; intros a; [done|]. cbn. apply rbind_ext; [done|]. apply IH. Qed.

Lemma zip_fmap_r {A B C} (g : B -> C) (l : list A) k : zip l (g <$> k) = prod_map id g <$> zip l k.
Proof. revert k. induction l as [|x l IH]; intros [|y k]; try done. cbn. by rewrite IH. Qed.

Section effects.
Context `{BuildCfg, Pallas, Addresses, MetadataCodecs, Hasher224}.

Abbreviation Crawling := (DeltaBuilder * Deltas)%type.

(** What an invalid transaction does does not depend on its body. *)
Lemma crawl_tx_erased block utxos s order tx :
  crawl_tx block utxos s (order, tx) = crawl_tx (erase_block block) utxos s (order, erase_invalid tx).
Proof.
  unfold erase_invalid. destruct (mt_is_valid tx) eqn:Hv; [reflexivity|].
  unfold crawl_tx. cbn [without_body mt_is_valid mt_consumes mt_produces mt_plutus_data mt_redeemers]. rewrite Hv.
  apply rbind_ext; [|intros a; reflexivity].
  unfold fan. destruct s as [b deltas]. cbn. unfold drep_visit_tx, proposal_visit_tx. cbn. rewrite Hv.
  assert (Hf : epoch_visit_tx (epoch_state b) (without_body tx) utxos = epoch_visit_tx (epoch_state b) tx utxos).
  { unfold epoch_visit_tx, tx_treasury_donation. cbn. destruct (mt_conway tx); reflexivity. }
  rewrite Hf. by destruct (mt_conway tx).
Qed.

(** C16: the deltas of a block do not depend on the mints, certificates,
    withdrawals, updates, proposals, votes and metadata of its invalid
    transactions. *)
Theorem invalid_bodies_ignored env utxos b block :
  crawl env utxos b block = crawl env utxos b (erase_block block).
Proof.
  unfold crawl. apply rbind_ext; [done|]. intros s. apply rbind_ext; [|done].
  cbn [mb_txs erase_block]. rewrite length_fmap, zip_fmap_r, for_each_fmap. apply for_each_ext.
  intros a [order tx] _. apply crawl_tx_erased.
Qed.

(** ** Effects *)

(** The deltas of a block that move stake or datum references, propose or
    vote. *)
Inductive Effect :=
| StakeMoved (account : NsKey) (is_pointer : bool) (amount : Z)
| DatumMoved (datum : NsKey) (amount : Z)
| Proposed (proposal : NsKey)
| Voted (vote : VoteCast.t).

Definition effect_of (d : CardanoDelta.t) : option Effect :=
  match d with
  | CardanoDelta.DControlledAmountInc x =>
      Some (StakeMoved (CardanoDelta.key d) (ControlledAmountInc.is_pointer x) (ControlledAmountInc.amount x))
  | CardanoDelta.DControlledAmountDec x =>
      Some (StakeMoved (CardanoDelta.key d) (ControlledAmountDec.is_pointer x) (- ControlledAmountDec.amount x))
  | CardanoDelta.DDatumRefIncrement x => Some (DatumMoved (CardanoDelta.key d) 1)
  | CardanoDelta.DDatumRefDecrement x => Some (DatumMoved (CardanoDelta.key d) (-1))
  | CardanoDelta.DNewProposalV2 x => Some (Proposed (CardanoDelta.key d))
  | CardanoDelta.DVoteCast x => Some (Voted x)
  | _ => None
  end.

(** The kinds of delta a crawl queues. *)
Definition crawl_kind (d : CardanoDelta.t) : bool :=
  match d with
  | CardanoDelta.DControlledAmountInc _ | CardanoDelta.DControlledAmountDec _
  | CardanoDelta.DStakeRegistration _ | CardanoDelta.DStakeDelegation _ | CardanoDelta.DStakeDeregistration _
  | CardanoDelta.DVoteDelegation _ | CardanoDelta.DEnqueueMir _ | CardanoDelta.DWithdrawalInc _
  | CardanoDelta.DMintStatsUpdate _ | CardanoDelta.DMetadataTxUpdate _
  | CardanoDelta.DDatumRefIncrement _ | CardanoDelta.DDatumRefDecrement _
  | CardanoDelta.DDRepDormancyRelease _ | CardanoDelta.DGovDormancyReset _ | CardanoDelta.DDRepActivity _
  | CardanoDelta.DDRepExpiryUpdate _ | CardanoDelta.DDRepRegistration _ | CardanoDelta.DDRepAnchorUpdate _
  | CardanoDelta.DDRepUnRegistration _ | CardanoDelta.DCommitteeAuth _ | CardanoDelta.DCommitteeResign _
  | CardanoDelta.DEpochStatsUpdate _ | CardanoDelta.DNoncesUpdate _
  | CardanoDelta.DMintedBlocksInc _ | CardanoDelta.DPoolRegistration _ | CardanoDelta.DPoolDeRegistration _
  | CardanoDelta.DNewProposalV2 _ | CardanoDelta.DVoteCast _ => true
  | _ => false
  end.

(** [d'] is [d] with deltas queued whose effects are [effs]. *)
Definition emitted (effs : list Effect) (d d' : Deltas) : Prop :=
  exists l, d' = foldl add_for_entity d l /\ omap effect_of l = effs /\ Forall (fun x => crawl_kind x = true) l.

Lemma emitted_refl d : emitted [] d d.
Proof. by exists []. Qed.

Lemma emitted_trans e1 e2 d d1 d2 : emitted e1 d d1 -> emitted e2 d1 d2 -> emitted (e1 ++ e2) d d2.
Proof.
  intros (l1 & -> & <- & H1') (l2 & -> & <- & H2'). exists (l1 ++ l2).
  rewrite foldl_app, omap_app. split_and!; [done|done|by apply Forall_app].
Qed.

Lemma emitted_add e d d' x :
  emitted e d d' -> crawl_kind x = true ->
  emitted (e ++ match effect_of x with Some y => [y] | None => [] end) d (add_for_entity d' x).
Proof.
  intros He Hk. eapply emitted_trans; [done|]. exists [x]. cbn. split_and!; [done|by destruct (effect_of x)|by constructor].
Qed.

Lemma emitted_one d x y : effect_of x = Some y -> crawl_kind x = true -> emitted [y] d (add_for_entity d x).
Proof. intros Hx Hk. exists [x]. cbn. rewrite Hx. split_and!; [done|done|by constructor]. Qed.

(** A delta without an effect. *)
Lemma emitted_quiet e d d' x :
  emitted e d d' -> crawl_kind x = true -> effect_of x = None -> emitted e d (add_for_entity d' x).
Proof. intros He Hk Hx. rewrite <- (app_nil_r e). pose proof (emitted_add e d d' x He Hk) as Ha. by rewrite Hx in Ha. Qed.

Lemma emitted_fold {A} (f : Deltas -> A -> Deltas) e d d' l :
  (forall d x, emitted [] d (f d x)) -> emitted e d d' -> emitted e d (foldl f d' l).
Proof.
  intros Hf. revert d'. induction l as [|x l IH]; intros d' He; [done|]. cbn. apply IH.
  rewrite <- (app_nil_r e). by eapply emitted_trans.
Qed.

Lemma emitted_run_fold {A} (f : Deltas -> A -> run Deltas) d l d' :
  (forall d x d', f d x = Ret d' -> emitted [] d d') -> run_foldl f d l = Ret d' -> emitted [] d d'.
Proof.
  intros Hf. revert d. induction l as [|x l IH]; intros d He; cbn in He; [run_inv; apply emitted_refl|].
  apply bind_Ret in He as (d1 & E1 & He). apply (emitted_trans [] [] d d1 d'); [by eapply Hf|by apply IH].
Qed.

(** ** The effects of the visitors *)

(** The credential of the stake address of an output. *)
Definition stake_of (o : OutputView) : option (StakeCredential * bool) :=
  match out_address o with
  | Some a => match address_as_stake_cred a with Ret c => c | Panic => None end
  | None => None
  end.

(** The datum an output names by its hash. *)
Definition datum_of (o : OutputView) : option Hash32 :=
  match out_datum o with Some (DatumHash h) => Some h | _ => None end.

Definition stake_effect (sign : Z) (o : OutputView) : list Effect :=
  match stake_of o with
  | Some (c, is_pointer) => [StakeMoved (account_key c) is_pointer (sign * out_coin o)]
  | None => []
  end.

Definition datum_key (h : Hash32) : NsKey := ns_key_from DATUM_NS h.

Definition datum_spent (o : OutputView) : list Effect :=
  match datum_of o with Some h => [DatumMoved (datum_key h) (-1)] | None => [] end.

Definition datum_produced (witnesses : gmap Hash32 bytes) (o : OutputView) : list Effect :=
  match datum_of o with
  | Some h => match witnesses !! h with Some _ => [DatumMoved (datum_key h) 1] | None => [] end
  | None => []
  end.

Definition input_effects (o : OutputView) : list Effect := stake_effect (-1) o ++ datum_spent o.

Definition output_effects (witnesses : gmap Hash32 bytes) (o : OutputView) : list Effect :=
  stake_effect 1 o ++ datum_produced witnesses o.

Definition witnesses_of (tx : MultiEraTx) : gmap Hash32 bytes := witness_datums (datum_visit_tx tx).

(** The update and the proposals of a transaction. *)
Definition update_effects (hash : Hash32) (update : option MultiEraUpdate) : list Effect :=
  match update with Some _ => [Proposed (proposal_key hash 0)] | None => [] end.

Definition proposal_effects (tx : MultiEraTx) (x : Z * MultiEraProposal) : list Effect :=
  match as_conway (snd x) with
  | Some _ => [Proposed (proposal_key (mt_hash tx) (as_u 32 (fst x)))]
  | None => []
  end.

Definition numbered_proposals (tx : MultiEraTx) : list (Z * MultiEraProposal) :=
  zip (seqZ 0 (Z.of_nat (length (mt_gov_proposals tx)))) (mt_gov_proposals tx).

Definition tx_proposals (tx : MultiEraTx) : list Effect :=
  if mt_is_valid tx
  then update_effects (mt_hash tx) (mt_update tx) ++ (numbered_proposals tx ≫= proposal_effects tx)
  else [].

Definition tx_effects (utxos : Resolved) (tx : MultiEraTx) : list Effect :=
  (mt_consumes tx ≫= fun r => match utxos !! input_ref r with Some o => input_effects o | None => [] end) ++
  (mt_produces tx ≫= fun o => output_effects (witnesses_of tx) (snd o)) ++
  tx_proposals tx.

(** The votes a transaction casts. *)
Definition tx_votes (block : MultiEraBlock) (tx : MultiEraTx) : list VoteCast.t :=
  match mt_conway tx with
  | Some c => if mt_is_valid tx then default [] (voting_procedures c) ≫= votes_of block else []
  | None => []
  end.

Definition block_effects (utxos : Resolved) (block : MultiEraBlock) : list Effect :=
  (mb_txs block ≫= tx_effects utxos) ++ update_effects (mb_hash block) (mb_update block) ++
  (Voted <$> (mb_txs block ≫= tx_votes block)).

(** What the state of the builder records for later: the witness datums and
    the pending votes. *)
Definition memory (b : DeltaBuilder) : gmap Hash32 bytes * list VoteCast.t :=
  (witness_datums (datum_state b), pending_votes (proposal_logs b)).

(** A visit without effects. *)
Definition quiet {V : Type} (d : Deltas) (m : visit V) : Prop := forall v d', m = Ret (Ok (v, d')) -> emitted [] d d'.

Lemma fan_emitted (f : forall (V : Type) (B : BlockVisitor V), V -> Deltas -> visit V) b d b' d' es ed eq :
  fan f (b, d) = Ret (Ok (b', d')) ->
  (forall d v' d', f _ _ (account_state b) d = Ret (Ok (v', d')) -> emitted es d d') ->
  (forall d, quiet d (f _ _ (asset_state b) d)) ->
  (forall d v' d', f _ _ (datum_state b) d = Ret (Ok (v', d')) -> emitted ed d d') ->
  (forall d, quiet d (f _ _ (drep_state b) d)) ->
  (forall d, quiet d (f _ _ (epoch_state b) d)) ->
  (forall d, quiet d (f _ _ (pool_state b) d)) ->
  (forall d, quiet d (f _ _ (tx_logs b) d)) ->
  (forall d v' d', f _ _ (proposal_logs b) d = Ret (Ok (v', d')) -> emitted eq d d') ->
  emitted (es ++ ed ++ eq) d d' /\
  (exists d1 d2, f _ _ (datum_state b) d1 = Ret (Ok (datum_state b', d2))) /\
  (exists d1, f _ _ (proposal_logs b) d1 = Ret (Ok (proposal_logs b', d'))).
Proof.
  intros E Ha Hs Hd Hr He Hp Ht Hq. unfold fan in E.
  repeat (apply rbind_Ret in E as ([? ?] & ? & E); cbn [fst snd] in *). injection E as <- <-. cbn.
  split; [|split; eauto].
  eapply emitted_trans; [by eapply Ha|]. rewrite <- (app_nil_l (ed ++ eq)).
  eapply emitted_trans; [by eapply Hs|]. eapply emitted_trans; [by eapply Hd|].
  change eq with ([] ++ ([] ++ ([] ++ ([] ++ eq)))).
  eapply emitted_trans; [by eapply Hr|]. eapply emitted_trans; [by eapply He|].
  eapply emitted_trans; [by eapply Hp|]. eapply emitted_trans; [by eapply Ht|]. by eapply Hq.
Qed.

(** Inverts the return of a visit and reads off what it queued. *)
Ltac visit_inv E :=
  cbn in E; unfold skip, keep, state_only in E;
  repeat (run_inv; match goal with
  | H : rbind _ _ = Ret (Ok _) |- _ => apply rbind_Ret in H as (? & ? & H)
  | H : Ok _ = Ok _ |- _ => injection H as H; subst
  end); run_inv.

Ltac emit := repeat first [apply emitted_refl | apply emitted_quiet; [|reflexivity|reflexivity]].

Ltac quiet_solve :=
  let E := fresh "E" in intros; unfold quiet; intros ? ? E; visit_inv E; try (by apply emitted_refl).

Lemma quiet_skip {V : Type} (v : V) d : quiet d (skip v d).
Proof. quiet_solve. Qed.

Lemma account_cert_emitted v d block order cert d' :
  account_visit_cert v d block order cert = Ret d' -> emitted [] d d'.
Proof.
  intros E. unfold account_visit_cert in E. run_inv.
  assert (H1' : emitted [] d a0).
  { destruct (cert_as_stake_registration cert); run_inv; emit. }
  destruct (cert_as_stake_delegation cert), (cert_as_stake_deregistration cert), (cert_as_vote_delegation cert),
    (cert_as_mir_certificate cert) as [[source []]|]; emit; try done.
  all: apply emitted_fold; [intros; unfold enqueue_mir; emit|emit; done].
Qed.

Lemma asset_output_emitted d tx output d' : asset_visit_output d tx output = Ret d' -> emitted [] d d'.
Proof.
  unfold asset_visit_output. destruct (out_datum output); intros E; [|run_inv; emit].
  eapply emitted_run_fold; [|done]. intros d1 [policy names] d2 E2.
  eapply emitted_run_fold; [|exact E2]. intros d3 name d4 E4. unfold output_asset in E4. run_inv.
  destruct a as [label|]; [|emit]. destruct (label =? 100); emit.
Qed.

Lemma asset_mint_emitted d block tx mint : emitted [] d (asset_visit_mint d block tx mint).
Proof.
  unfold asset_visit_mint. generalize (if has_cip25_metadata (mt_metadata tx) then cip25_metadata_for_tx (mt_metadata tx) else None).
  intros metadata. apply emitted_fold; [|emit]. intros d1 [name q]. unfold mint_asset.
  destruct (0 <? _); [|emit]. destruct metadata; [|emit]. destruct (cip25_metadata_has_asset _ _ _); emit.
Qed.

Lemma drep_tx_emitted v d block tx v' d' : drep_visit_tx v d block tx = Ret (Ok (v', d')) -> emitted [] d d'.
Proof.
  unfold drep_visit_tx. destruct (mt_conway tx) as [c|]; intros E; [|by visit_inv E; emit].
  destruct (negb _); [by visit_inv E; emit|].
  assert (Hr : emitted [] d (release_dormancy v d tx).2).
  { unfold release_dormancy. destruct (_ && _); [|emit]. cbn. apply emitted_quiet; [|done|done].
    apply emitted_fold; [intros; emit|emit]. }
  destruct (release_dormancy v d tx) as [v1 d1]. cbn in Hr.
  destruct (voting_procedures c) as [ps|]; visit_inv E; [|done].
  apply (emitted_trans [] [] d d1 d'); [done|]. eapply emitted_run_fold; [|done].
  intros d2 voter d3 E3. unfold drep_votes in E3. destruct voter; run_inv; try apply emitted_refl.
  all: destruct a; emit.
Qed.

Lemma drep_cert_emitted v d block order cert v' d' :
  drep_visit_cert v d block order cert = Ret (v', d') -> emitted [] d d'.
Proof.
  unfold drep_visit_cert. intros E. assert (H1' : emitted [] d (committee_cert d block cert)).
  { unfold committee_cert. destruct (cert_as_committee_auth cert), (cert_as_committee_resign cert); emit. }
  generalize dependent (committee_cert d block cert). intros d1 E H1'. destruct (cert_drep cert) as [drep|]; [|by run_inv].
  apply bind_Ret in E as ([v1 d2] & E1 & E). cbn in E. run_inv. apply emitted_quiet; [|done|done].
  unfold drep_cert, add_expiry in E1. destruct cert as [|c|c]; [by run_inv..|].
  destruct c; run_inv; try done; repeat case_match; run_inv; emit; try done.
Qed.

Lemma pool_cert_emitted v d block cert d' : pool_visit_cert v d block cert = Ret d' -> emitted [] d d'.
Proof.
  unfold pool_visit_cert. intros E. run_inv. assert (H1' : emitted [] d a).
  { destruct (cert_as_pool_registration cert); run_inv; emit. }
  destruct cert as [|[]|[]]; emit; done.
Qed.

Lemma proposal_update_emitted v d block tx update d' :
  proposal_visit_update v d block tx update = Ret d' ->
  emitted [Proposed (proposal_key (match tx with Some tx => mt_hash tx | None => mb_hash block end) 0)] d d'.
Proof.
  unfold proposal_visit_update. intros E. run_inv.
  apply emitted_one; reflexivity.
Qed.

Lemma proposal_emitted v d block tx proposal idx d' :
  proposal_visit_proposal v d block tx proposal idx = Ret (Ok d') -> emitted (proposal_effects tx (idx, proposal)) d d'.
Proof.
  unfold proposal_visit_proposal, proposal_effects. cbn. intros E.
  destruct (as_conway proposal); [|injection E as <-; emit].
  apply bind_Ret in E as ([[action parent] purpose] & _ & E). apply bind_Ret in E as ([account|] & _ & E); [|done].
  run_inv. injection E as <-.
  apply emitted_one; reflexivity.
Qed.

(** *** The visits of the builder *)

(** A step with effects, and what it leaves for later. *)
Definition stepped (effs : list Effect) (s s' : Crawling) : Prop :=
  emitted effs (snd s) (snd s') /\ memory (fst s') = memory (fst s).

Lemma stepped_refl s : stepped [] s s.
Proof. split; [apply emitted_refl|done]. Qed.

Lemma stepped_trans e1 e2 s s1 s2 : stepped e1 s s1 -> stepped e2 s1 s2 -> stepped (e1 ++ e2) s s2.
Proof. intros [H1' Hm1] [H2' Hm2]. split; [by eapply emitted_trans|congruence]. Qed.

(** A fan-out to visitors that leave the witnesses and the votes alone. *)
Lemma fan_stepped (f : forall (V : Type) (B : BlockVisitor V), V -> Deltas -> visit V) s s' es ed eq :
  fan f s = Ret (Ok s') ->
  (forall d v' d', f _ _ (account_state (fst s)) d = Ret (Ok (v', d')) -> emitted es d d') ->
  (forall d, quiet d (f _ _ (asset_state (fst s)) d)) ->
  (forall d v' d', f _ _ (datum_state (fst s)) d = Ret (Ok (v', d')) -> v' = datum_state (fst s) /\ emitted ed d d') ->
  (forall d, quiet d (f _ _ (drep_state (fst s)) d)) ->
  (forall d, quiet d (f _ _ (epoch_state (fst s)) d)) ->
  (forall d, quiet d (f _ _ (pool_state (fst s)) d)) ->
  (forall d, quiet d (f _ _ (tx_logs (fst s)) d)) ->
  (forall d v' d', f _ _ (proposal_logs (fst s)) d = Ret (Ok (v', d')) ->
     pending_votes v' = pending_votes (proposal_logs (fst s)) /\ emitted eq d d') ->
  stepped (es ++ ed ++ eq) s s'.
Proof.
  destruct s as [b d], s' as [b' d']. cbn. intros E Ha Hs Hd Hr He Hp Ht Hq.
  destruct (fan_emitted f b d b' d' es ed eq E) as (Hem & (d1 & d2 & Ed) & (d3 & Eq)); try done.
  - intros d1 v d2 Ed. by apply Hd in Ed as [_ ?].
  - intros d1 v d2 Ed. by apply Hq in Ed as [_ ?].
  - split; [done|]. unfold memory. cbn. apply Hd in Ed as [-> _]. apply Hq in Eq as [-> _]. done.
Qed.

Lemma for_each_stepped {T} (f : Crawling -> T -> run (result ChainError Crawling)) (effs : T -> list Effect) s l s' :
  (forall s1 x s2, memory (fst s1) = memory (fst s) -> f s1 x = Ret (Ok s2) -> stepped (effs x) s1 s2) ->
  for_each f s l = Ret (Ok s') -> stepped (l ≫= effs) s s'.
Proof.
  intros Hf. assert (Hl : forall s1, memory (fst s1) = memory (fst s) ->
    for_each f s1 l = Ret (Ok s') -> stepped (l ≫= effs) s1 s'); [|by apply Hl].
  induction l as [|x l IH]; intros s1 Hm E; cbn in E; [injection E as <-; apply stepped_refl|].
  apply rbind_Ret in E as (s2 & E1 & E). cbn. apply Hf in E1 as Hs; [|done].
  eapply stepped_trans; [exact Hs|]. apply IH; [|done]. destruct Hs as [_ ->]. done.
Qed.

(** A loop without effects. *)
Lemma for_each_silent {T} (f : Crawling -> T -> run (result ChainError Crawling)) s l s' :
  (forall s1 x s2, f s1 x = Ret (Ok s2) -> stepped [] s1 s2) -> for_each f s l = Ret (Ok s') -> stepped [] s s'.
Proof.
  intros Hf E. replace (@nil Effect) with (l ≫= fun _ : T => @nil Effect) by (clear; by induction l).
  eapply for_each_stepped; [|done]. eauto.
Qed.

Lemma account_input_emitted d o d' : account_visit_input d o = Ret d' -> emitted (stake_effect (-1) o) d d'.
Proof.
  unfold account_visit_input. intros E. apply bind_Ret in E as (a & Ea%expect_Ret & E).
  apply bind_Ret in E as (cred & Ec & E). unfold stake_effect, stake_of. rewrite Ea, Ec.
  destruct cred as [[c p]|]; run_inv; [|apply emitted_refl].
  exists [CardanoDelta.DControlledAmountDec (ControlledAmountDec.new c p (out_coin o))].
  split_and!; [done| |by constructor]. cbn. do 2 f_equal; try lia.
Qed.

Lemma account_output_emitted v d o d' : account_visit_output v d o = Ret d' -> emitted (stake_effect 1 o) d d'.
Proof.
  unfold account_visit_output. intros E. apply bind_Ret in E as (a & Ea%expect_Ret & E).
  apply bind_Ret in E as (epoch & _ & E). apply bind_Ret in E as (cred & Ec & E).
  unfold stake_effect, stake_of. rewrite Ea, Ec. destruct cred as [[c p]|]; run_inv; [|apply emitted_refl].
  exists [CardanoDelta.DControlledAmountInc (ControlledAmountInc.new c p (out_coin o) epoch)].
  split_and!; [done| |by constructor]. cbn. do 2 f_equal; try lia.
Qed.

(** Visits that queue nothing. *)
Ltac silent := intros; first [by apply quiet_skip | by quiet_solve
  | let E := fresh "E" in
    match goal with H : _ = Ret (Ok (_, _)) |- _ => rename H into E end; visit_inv E; by auto using emitted_refl].

Lemma input_stepped block tx utxos s r s' :
  crawl_input block tx utxos s r = Ret (Ok s') ->
  stepped (match utxos !! input_ref r with Some o => input_effects o | None => [] end) s s'.
Proof.
  unfold crawl_input. destruct (utxos !! input_ref r) as [o|]; [|done]. intros E.
  unfold input_effects. rewrite <- (app_nil_r (datum_spent o)).
  eapply fan_stepped; [exact E|..]; cbn.
  - intros d v' d' Ea. visit_inv Ea. by apply account_input_emitted.
  - silent.
  - intros d v' d' Ed. visit_inv Ed. split; [done|]. unfold datum_visit_input, datum_spent, datum_of.
    destruct (out_datum o) as [[h|h]|]; try apply emitted_refl.
    exists [CardanoDelta.DDatumRefDecrement (DatumRefDecrement.new h)]. split_and!; [done|done|by constructor].
  - silent.
  - silent.
  - silent.
  - silent.
  - silent.
Qed.

Lemma output_stepped block tx s o s' :
  crawl_output block tx s o = Ret (Ok s') ->
  stepped (output_effects (witness_datums (datum_state (fst s))) (snd o)) s s'.
Proof.
  unfold crawl_output. intros E. unfold output_effects.
  rewrite <- (app_nil_r (datum_produced _ _)). eapply fan_stepped; [exact E|..]; cbn.
  - intros d v' d' Ea. visit_inv Ea. by eapply account_output_emitted.
  - intros d v d' Ea. visit_inv Ea. by eapply asset_output_emitted.
  - intros d v' d' Ed. destruct o as [i o]. visit_inv Ed. split; [done|]. unfold datum_visit_output, datum_produced, datum_of. cbn.
    destruct (out_datum o) as [[h|h]|]; try apply emitted_refl.
    destruct (_ !! h) as [b|] eqn:Eh; rewrite ?Eh; [|apply emitted_refl].
    exists [CardanoDelta.DDatumRefIncrement (DatumRefIncrement.new h b)]. split_and!; [done|done|by constructor].
  - silent.
  - silent.
  - silent.
  - silent.
  - silent.
Qed.

(** A fan-out without effects. *)
Lemma fan_silent (f : forall (V : Type) (B : BlockVisitor V), V -> Deltas -> visit V) s s' :
  fan f s = Ret (Ok s') ->
  (forall d, quiet d (f _ _ (account_state (fst s)) d)) ->
  (forall d, quiet d (f _ _ (asset_state (fst s)) d)) ->
  (forall d v' d', f _ _ (datum_state (fst s)) d = Ret (Ok (v', d')) -> v' = datum_state (fst s) /\ emitted [] d d') ->
  (forall d, quiet d (f _ _ (drep_state (fst s)) d)) ->
  (forall d, quiet d (f _ _ (epoch_state (fst s)) d)) ->
  (forall d, quiet d (f _ _ (pool_state (fst s)) d)) ->
  (forall d, quiet d (f _ _ (tx_logs (fst s)) d)) ->
  (forall d v' d', f _ _ (proposal_logs (fst s)) d = Ret (Ok (v', d')) ->
     pending_votes v' = pending_votes (proposal_logs (fst s)) /\ emitted [] d d') ->
  stepped [] s s'.
Proof. intros. change (@nil Effect) with (@nil Effect ++ [] ++ []). by eapply fan_stepped. Qed.

Lemma root_stepped env block s s' : crawl_root env block s = Ret (Ok s') -> stepped [] s s'.
Proof.
  intros E. eapply fan_silent; [exact E|..]; cbn; try by silent.
  - intros d v d' Ep. apply bind_Ret in Ep as ([v1 d1] & Ep & Er). injection Er as <- <-.
    unfold pool_visit_root in Ep. apply bind_Ret in Ep as (? & _ & Ep). injection Ep as <- <-.
    destruct (mb_issuer_vkey block); emit.
  - intros d v d' Eq. visit_inv Eq. unfold proposal_visit_root in *. run_inv. split; [done|apply emitted_refl].
Qed.

Lemma body_stepped block order tx s s' :
  crawl_body block order tx s = Ret (Ok s') -> stepped (update_effects (mt_hash tx) (mt_update tx)) s s'.
Proof.
  unfold crawl_body. intros E. apply rbind_Ret in E as (s1 & E1 & E). apply rbind_Ret in E as (s2 & E2 & E).
  apply rbind_Ret in E as (s3 & E3 & E). rewrite <- (app_nil_l (update_effects _ _)), <- (app_nil_l (update_effects _ _)), <- (app_nil_l (update_effects _ _)).
  eapply stepped_trans; [|eapply stepped_trans; [|eapply stepped_trans]].
  - eapply for_each_silent; [|exact E1]. intros t mint t' Et. eapply fan_silent; [exact Et|..]; cbn; try by silent.
    intros d v d' Ea. visit_inv Ea. apply asset_mint_emitted.
  - eapply for_each_silent; [|exact E2]. intros t cert t' Et. eapply fan_silent; [exact Et|..]; cbn; try by silent.
    + intros d v d' Ea. visit_inv Ea. by eapply account_cert_emitted.
    + intros d v d' Ea. apply bind_Ret in Ea as ([v1 d1] & Ea & Er). injection Er as <- <-. by eapply drep_cert_emitted.
    + intros d v d' Ea. visit_inv Ea. by eapply pool_cert_emitted.
  - eapply for_each_silent; [|exact E3]. intros t w t' Et. eapply fan_silent; [exact Et|..]; cbn; try by silent.
    intros d v d' Ea. apply rbind_Ret in Ea as (d1 & Ea & Er). injection Er as <- <-.
    unfold account_visit_withdrawal in Ea. destruct (address_from_bytes _); [|done].
    apply bind_Ret in Ea as (cred & _ & Ea). injection Ea as <-. destruct cred as [[]|]; emit.
  - destruct (mt_update tx); [|injection E as <-; apply stepped_refl].
    apply (fan_stepped _ _ _ [] [] [Proposed (proposal_key (mt_hash tx) 0)] E); cbn; try by silent.
    intros d v d' Eq. visit_inv Eq. split; [done|]. by eapply (proposal_update_emitted _ _ _ (Some tx)).
Qed.

Lemma proposals_stepped block tx s s' :
  crawl_proposals block tx s = Ret (Ok s') -> stepped (numbered_proposals tx ≫= proposal_effects tx) s s'.
Proof.
  intros E. eapply for_each_stepped; [|exact E]. intros t x t' _ Et.
  apply (fan_stepped _ _ _ [] [] (proposal_effects tx x) Et); cbn; try by silent.
  intros d v d' Eq. apply rbind_Ret in Eq as (d1 & Eq & Er). injection Er as <- <-.
  split; [done|]. destruct x. by eapply proposal_emitted.
Qed.

Lemma update_stepped block s s' :
  crawl_update block s = Ret (Ok s') -> stepped (update_effects (mb_hash block) (mb_update block)) s s'.
Proof.
  unfold crawl_update. intros E. destruct (mb_update block); [|injection E as <-; apply stepped_refl].
  apply (fan_stepped _ _ _ [] [] [Proposed (proposal_key (mb_hash block) 0)] E); cbn; try by silent.
  intros d v d' Eq. visit_inv Eq. split; [done|]. by eapply (proposal_update_emitted _ _ _ None).
Qed.

(** Visiting a transaction notes its witnesses and its votes. *)
Lemma visit_tx_noted block utxos tx s s' :
  fan (fun V B v deltas => visit_tx v deltas block tx utxos) s = Ret (Ok s') ->
  emitted [] (snd s) (snd s') /\
  memory (fst s') = (witnesses_of tx, pending_votes (proposal_logs (fst s)) ++ tx_votes block tx).
Proof.
  destruct s as [b d], s' as [b' d']. cbn [fst snd]. intros E.
  destruct (fan_emitted _ b d b' d' [] [] [] E) as (Hem & (d1 & d2 & Ed) & (d3 & Eq)); try by silent.
  - intros d1 v d2 E1. exact (drep_tx_emitted _ _ _ _ _ _ E1).
  - split; [done|]. unfold memory. cbn in Ed, Eq. unfold skip in *. injection Ed as <- _. injection Eq as <- _.
    f_equal. unfold proposal_visit_tx, tx_votes. destruct (mt_conway tx) as [c|]; [|by rewrite app_nil_r].
    destruct (mt_is_valid tx); cbn; [|by rewrite app_nil_r].
    destruct (voting_procedures c); cbn; [done|by rewrite app_nil_r].
Qed.

Lemma tx_noted block utxos s order tx s' :
  crawl_tx block utxos s (order, tx) = Ret (Ok s') ->
  emitted (tx_effects utxos tx) (snd s) (snd s') /\
  memory (fst s') = (witnesses_of tx, pending_votes (proposal_logs (fst s)) ++ tx_votes block tx).
Proof.
  unfold crawl_tx. intros E. apply rbind_Ret in E as (s1 & E1 & E). apply rbind_Ret in E as (s2 & E2 & E).
  apply rbind_Ret in E as (s3 & E3 & E). apply rbind_Ret in E as (s4 & E4 & E). apply rbind_Ret in E as (s5 & E5 & E).
  apply rbind_Ret in E as (s6 & E6 & E). apply visit_tx_noted in E1 as [Hem1 Hm1].
  assert (H2' : stepped (mt_consumes tx ≫= fun r => match utxos !! input_ref r with Some o => input_effects o | None => [] end)
                  s1 s2) by (eapply for_each_stepped; [|exact E2]; intros; by eapply input_stepped).
  assert (H3' : stepped (mt_produces tx ≫= fun o => output_effects (witnesses_of tx) (snd o)) s2 s3).
  { eapply for_each_stepped; [|exact E3]. intros t o t' Hm Et. apply output_stepped in Et.
    destruct H2' as [_ Hm2]. unfold memory in *.
    replace (witnesses_of tx) with (witness_datums (datum_state (fst t))); [done|]. congruence. }
  assert (H4' : stepped (if mt_is_valid tx then update_effects (mt_hash tx) (mt_update tx) else []) s3 s4).
  { destruct (mt_is_valid tx); [by eapply body_stepped|injection E4 as <-; apply stepped_refl]. }
  assert (H5' : stepped [] s4 s5).
  { eapply for_each_silent; [|exact E5]. intros t x t' Et. eapply fan_silent; [exact Et|..]; cbn; by silent. }
  assert (H6' : stepped (if mt_is_valid tx then numbered_proposals tx ≫= proposal_effects tx else []) s5 s6).
  { destruct (mt_is_valid tx); [by eapply proposals_stepped|injection E6 as <-; apply stepped_refl]. }
  assert (H7' : stepped [] s6 s').
  { eapply for_each_silent; [|exact E]. intros t x t' Et. eapply fan_silent; [exact Et|..]; cbn; by silent. }
  destruct (stepped_trans _ _ _ _ _ H2' (stepped_trans _ _ _ _ _ H3' (stepped_trans _ _ _ _ _ H4'
    (stepped_trans _ _ _ _ _ H5' (stepped_trans _ _ _ _ _ H6' H7'))))) as [Hem Hm].
  split; [|congruence]. change (tx_effects utxos tx) with ([] ++ tx_effects utxos tx).
  eapply emitted_trans; [done|]. unfold tx_effects, tx_proposals.
  rewrite !app_nil_r in Hem. by destruct (mt_is_valid tx).
Qed.

Lemma txs_noted block utxos s l s' :
  for_each (crawl_tx block utxos) s l = Ret (Ok s') ->
  emitted (l ≫= fun x => tx_effects utxos (snd x)) (snd s) (snd s') /\
  pending_votes (proposal_logs (fst s')) = pending_votes (proposal_logs (fst s)) ++ (l ≫= fun x => tx_votes block (snd x)).
Proof.
  revert s. induction l as [|[order tx] l IH]; intros s E; cbn in E.
  - injection E as <-. cbn. rewrite app_nil_r. split; [apply emitted_refl|done].
  - apply rbind_Ret in E as (s1 & E1 & E). apply tx_noted in E1 as [He1 Hm1]. destruct (IH _ E) as [He2 Hm2]. cbn.
    split; [by eapply emitted_trans|]. unfold memory in Hm1. injection Hm1 as _ Hv. by rewrite Hm2, Hv, app_assoc.
Qed.

Lemma flush_emitted s s' :
  crawl_flush s = Ret (Ok s') -> emitted (Voted <$> pending_votes (proposal_logs (fst s))) (snd s) (snd s').
Proof.
  destruct s as [b d], s' as [b' d']. intros E. cbn [fst snd].
  destruct (fan_emitted _ b d b' d' [] [] (Voted <$> pending_votes (proposal_logs b)) E) as [Hem _]; try by silent.
  - intros d1 v d2 E1. cbn in E1. injection E1 as <- <-. destruct (stats_delta _), (nonces_delta _); emit.
  - intros d1 v d2 E1. cbn in E1. injection E1 as <- <-.
    exists (CardanoDelta.DVoteCast <$> pending_votes (proposal_logs b)).
    rewrite foldl_fmap. split_and!; [done| |apply Forall_fmap, Forall_true; done].
    induction (pending_votes (proposal_logs b)) as [|x l IH]; [done|]. cbn. by rewrite IH.
Qed.

Lemma zip_bind {A B C} (f : B -> list C) (l : list A) (k : list B) :
  length l = length k -> (zip l k ≫= fun x => f (snd x)) = k ≫= f.
Proof. revert k. induction l as [|x l IH]; intros [|y k] Hl; try done. cbn. f_equal. apply IH. cbn in Hl. lia. Qed.

(** The effects of a block are those its transactions name. *)
Lemma crawl_effects env utxos b block b' d :
  pending_votes (proposal_logs b) = [] -> crawl env utxos b block = Ret (Ok (b', d)) ->
  emitted (block_effects utxos block) ∅ d.
Proof.
  intros Hb E. unfold crawl in E. apply rbind_Ret in E as (s1 & E1 & E). apply rbind_Ret in E as (s2 & E2 & E).
  apply rbind_Ret in E as (s3 & E3 & E). apply root_stepped in E1 as [He1 Hm1]. apply txs_noted in E2 as [He2 Hm2].
  apply update_stepped in E3 as [He3 Hm3]. apply flush_emitted in E. cbn [fst snd] in *.
  assert (Hl : length (seqZ 0 (Z.of_nat (length (mb_txs block)))) = length (mb_txs block)) by (rewrite length_seqZ; lia).
  rewrite (zip_bind (tx_effects utxos)) in He2 by done. rewrite (zip_bind (tx_votes block)) in Hm2 by done.
  unfold memory in *. injection Hm1 as _ Hm1. injection Hm3 as _ Hm3. rewrite Hm3, Hm2, Hm1, Hb in E. cbn in E.
  unfold block_effects. rewrite <- (app_nil_l (mb_txs block ≫= tx_effects utxos)), <- app_assoc.
  eapply emitted_trans; [done|]. eapply emitted_trans; [done|]. by eapply emitted_trans.
Qed.

(** ** Queues *)

Lemma queue_emitted l d k :
  default [] (foldl add_for_entity d l !! k) = default [] (d !! k) ++ filter (fun x => CardanoDelta.key x = k) l.
Proof.
  revert d. induction l as [|x l IH]; intros d; cbn [foldl]; [by rewrite app_nil_r|].
  rewrite IH. unfold add_for_entity, WorkDeltas.add_for_entity. cbn [EntityDelta.key CardanoDelta.delta].
  destruct (decide (CardanoDelta.key x = k)) as [<-|Hn].
  - rewrite lookup_insert_eq, filter_cons_True by done. cbn. by rewrite <- app_assoc.
  - by rewrite lookup_insert_ne, filter_cons_False.
Qed.

(** The queue of an entity after a crawl. *)
Lemma crawl_queue env utxos dormancy block b' d k :
  crawl env utxos (new_builder dormancy) block = Ret (Ok (b', d)) ->
  exists l, default [] (d !! k) = filter (fun x => CardanoDelta.key x = k) l /\
    omap effect_of l = block_effects utxos block /\ Forall (fun x => crawl_kind x = true) l.
Proof.
  intros E. apply crawl_effects in E as (l & -> & He & Hk); [|done]. exists l.
  by rewrite queue_emitted, lookup_empty.
Qed.

(** Deltas are queued under their keys. *)
Lemma crawl_wf env utxos dormancy block b' d :
  crawl env utxos (new_builder dormancy) block = Ret (Ok (b', d)) -> WorkDeltas.wf d.
Proof.
  intros E nk ds x Hl Hx. destruct (crawl_queue _ _ _ _ _ _ nk E) as (l & Hq & _). rewrite Hl in Hq. cbn in Hq. subst.
  by apply list_elem_of_filter in Hx as [Hx _].
Qed.

End effects.

Lemma omap_app_inv {A B} (f : A -> option B) l e1 e2 :
  omap f l = e1 ++ e2 -> exists l1 l2, l = l1 ++ l2 /\ omap f l1 = e1 /\ omap f l2 = e2.
Proof.
  revert e1. induction l as [|x l IH]; intros e1 E.
  - symmetry in E. apply app_nil in E as [-> ->]. by exists [], [].
  - cbn in E. destruct (f x) as [y|] eqn:Ex.
    + destruct e1 as [|z e1]; [exists [], (x :: l); cbn; by rewrite Ex|].
      injection E as <- E. destruct (IH _ E) as (l1 & l2 & -> & <- & <-).
      exists (x :: l1), l2. cbn. by rewrite Ex.
    + destruct (IH _ E) as (l1 & l2 & -> & <- & <-). exists (x :: l1), l2. cbn. by rewrite Ex.
Qed.

(** ** Votes on the proposals of the same block *)

(** An invariant of every delta of a queue holds of the entity it leaves. *)
Lemma apply_seq_inv {D E} `{!EntityDelta D E} (I : option E -> Prop) (ds : list D) e ds' e' :
  (forall (d : D) e d' e', d ∈ ds -> I e -> EntityDelta.apply d e = Ret (d', e') -> I e') ->
  I e -> WorkBatch.apply_seq ds e = Ret (ds', e') -> I e'.
Proof.
  revert e ds'. induction ds as [|d ds IH]; intros e ds' Hd He Hr; cbn in Hr; [run_inv; done|].
  apply bind_Ret in Hr as ([d1 e1] & E1 & Hr). apply bind_Ret in Hr as ([ds1 e2] & E2 & Hr). injection Hr as <- <-.
  apply (IH e1 ds1); [intros; eapply Hd; eauto; by right| |done]. eapply Hd; eauto. by left.
Qed.

Lemma apply_seq_app {D E} `{!EntityDelta D E} (ds1 ds2 : list D) e ds' (e' : option E) :
  WorkBatch.apply_seq (ds1 ++ ds2) e = Ret (ds', e') ->
  exists l1 e1 l2, WorkBatch.apply_seq ds1 e = Ret (l1, e1) /\ WorkBatch.apply_seq ds2 e1 = Ret (l2, e').
Proof.
  revert e ds'. induction ds1 as [|d ds1 IH]; intros e ds' Hr; cbn in *; [eauto 6|].
  apply bind_Ret in Hr as ([d1 e1] & E1 & Hr). apply bind_Ret in Hr as ([l e2] & E2 & Hr). injection Hr as <- <-.
  destruct (IH _ _ E2) as (l1 & e3 & l2 & H1 & H2). rewrite E1. cbn. cbn in H1. rewrite H1. cbn. eauto 6.
Qed.

(** The history of a voter, and whether it has a vote. *)
Definition votes_by (p : ProposalState.t) (v : Voter) : list (BlockSlot * Vote) :=
  match v with
  | VoterCCKey h => default [] (ProposalState.cc_votes p !! AddrKeyhash h)
  | VoterCCScript h => default [] (ProposalState.cc_votes p !! ScriptHash h)
  | VoterDRepKey h => default [] (ProposalState.drep_votes p !! AddrKeyhash h)
  | VoterDRepScript h => default [] (ProposalState.drep_votes p !! ScriptHash h)
  | VoterStakePoolKey h => default [] (ProposalState.spo_votes p !! h)
  end.

Definition recorded (v : VoteCast.t) (p : ProposalState.t) : Prop :=
  (VoteCast.slot v, VoteCast.vote v) ∈ votes_by p (VoteCast.voter v).

Lemma history_push_lookup {K A} `{Countable K} (m : gmap K (list A)) k x k' :
  default [] (snd (history_push m k x) !! k') = default [] (m !! k') ++ (if decide (k = k') then [x] else []).
Proof.
  unfold history_push. cbn. destruct (decide (k = k')) as [<-|Hn].
  - by rewrite lookup_insert_eq.
  - by rewrite lookup_insert_ne, app_nil_r.
Qed.

Lemma push_votes_by p v x w :
  exists l, votes_by (snd (ProposalState.vote_history_push p v x)) w = votes_by p w ++ l /\ (v = w -> l = [x]).
Proof.
  destruct v as [h|h|h|h|h], w as [h'|h'|h'|h'|h'];
    cbn -[history_push]; rewrite ?history_push_lookup; try (exists []; by rewrite app_nil_r).
  all: eexists; split; [reflexivity|]; try (intros [= <-]; by rewrite decide_True).
  all: intros [=].
Qed.

Lemma push_recorded p v x w : recorded w p -> recorded w (snd (ProposalState.vote_history_push p v x)).
Proof.
  unfold recorded. intros Hr. destruct (push_votes_by p v x (VoteCast.voter w)) as (l & -> & _).
  apply elem_of_app. by left.
Qed.

Definition is_proposal (e : option CardanoEntity.t) : Prop := exists p, e = Some (CardanoEntity.EProposalState p).
Definition is_recorded (v : VoteCast.t) (e : option CardanoEntity.t) : Prop :=
  exists p, e = Some (CardanoEntity.EProposalState p) /\ recorded v p.

Section votes.
Context `{BuildCfg, Pallas, Addresses, MetadataCodecs, Hasher224}.
Implicit Types (d : CardanoDelta.t) (e : option CardanoEntity.t).

(** The deltas of a crawl on a proposal. *)
Lemma proposal_deltas d : crawl_kind d = true -> fst (CardanoDelta.key d) = NS ProposalState.t ->
  (exists p, d = CardanoDelta.DNewProposalV2 p) \/ exists v, d = CardanoDelta.DVoteCast v.
Proof. destruct d; cbn; intros Hk Hn; try discriminate Hk; try discriminate Hn; eauto. Qed.

Lemma new_proposal_applied x e d' e' :
  CardanoDelta.apply (CardanoDelta.DNewProposalV2 x) e = Ret (d', e') -> is_proposal e'.
Proof.
  intros E. cbn [CardanoDelta.apply] in E. apply CardanoDelta.arm_inv in E as (x' & -> & E). unfold downcast_apply in E.
  apply bind_Ret in E as ([y o] & E & Er). injection Er as <- <-. cbn in E. unfold NewProposalV2.apply in E.
  apply bind_Ret in E as (m & _ & E). injection E as <- <-. by eexists.
Qed.

Lemma vote_applied v e d' e' :
  CardanoDelta.apply (CardanoDelta.DVoteCast v) e = Ret (d', e') -> is_proposal e ->
  is_recorded v e' /\ forall w, is_recorded w e -> is_recorded w e'.
Proof.
  intros E [p ->]. cbn [CardanoDelta.apply] in E. apply CardanoDelta.arm_inv in E as (x' & -> & E). unfold downcast_apply in E.
  apply bind_Ret in E as ([y o] & E & Er). injection Er as <- <-.
  cbn -[ProposalState.vote_history_push] in E. injection E as <- <-. cbn -[ProposalState.vote_history_push]. split.
  - eexists. split; [done|]. unfold recorded.
    destruct (push_votes_by p (VoteCast.voter v) (VoteCast.slot v, VoteCast.vote v) (VoteCast.voter v)) as (l & -> & Hl).
    rewrite Hl by done. apply elem_of_app. right. by left.
  - intros w (p' & [= <-] & Hr). eexists. split; [done|]. by apply push_recorded.
Qed.

Lemma proposal_kept d e d' e' :
  crawl_kind d = true -> fst (CardanoDelta.key d) = NS ProposalState.t ->
  is_proposal e -> CardanoDelta.apply d e = Ret (d', e') -> is_proposal e'.
Proof.
  intros Hk Hn He E. destruct (proposal_deltas d Hk Hn) as [[p ->]|[v ->]].
  - by eapply new_proposal_applied.
  - destruct (vote_applied v e d' e' E He) as [(p & -> & _) _]. by eexists.
Qed.

Lemma elem_split_filter {A} (P : A -> Prop) `{!forall x, Decision (P x)} l x :
  x ∈ l -> P x -> exists l1 l2, filter P l = l1 ++ x :: l2.
Proof. intros Hx Hp. apply list_elem_of_split, list_elem_of_filter. by split. Qed.

(** The deltas queued for an entity. *)
Abbreviation queued k l := (filter (fun x => CardanoDelta.key x = k) l).

(** A queue with a proposal creates it. *)
Lemma queue_creates k l e q e1 :
  fst k = NS ProposalState.t -> Forall (fun x => crawl_kind x = true) l -> Proposed k ∈ omap effect_of l ->
  WorkBatch.apply_seq (queued k l) e = Ret (q, e1) -> is_proposal e1.
Proof.
  intros Hns Hf Hin Ha. rewrite Forall_forall in Hf. apply list_elem_of_omap in Hin as (x & Hx & Ex).
  assert (Hkx : CardanoDelta.key x = k) by (destruct x; try discriminate Ex; by injection Ex as Ex).
  destruct (elem_split_filter (fun x => CardanoDelta.key x = k) l x Hx Hkx) as (a & b & Hs). rewrite Hs in Ha.
  apply apply_seq_app in Ha as (q3 & e3 & q4 & _ & Ha). cbn in Ha.
  apply bind_Ret in Ha as ([d1 e4] & Ea & Ha). apply bind_Ret in Ha as ([q5 e5] & Eb & Ha).
  injection Ha as <- <-. cbn in Eb. eapply (apply_seq_inv is_proposal); [| |exact Eb].
  - intros y f d2 f' Hy Hpy Ey. assert (Hy' : y ∈ queued k l) by (rewrite Hs; apply elem_of_app; right; by right).
    apply list_elem_of_filter in Hy' as [Hky Hy'].
    eapply (proposal_kept y); [by apply Hf|by rewrite Hky|exact Hpy|exact Ey].
  - destruct x; try discriminate Ex. by eapply new_proposal_applied.
Qed.

(** A queue of votes records them. *)
Lemma queue_records v l e q e1 :
  Forall (fun x => crawl_kind x = true) l -> (forall k, Proposed k ∉ omap effect_of l) -> Voted v ∈ omap effect_of l ->
  is_proposal e -> WorkBatch.apply_seq (queued (VoteCast.key v) l) e = Ret (q, e1) -> is_recorded v e1.
Proof.
  intros Hf Hno Hin He Ha. rewrite Forall_forall in Hf. apply list_elem_of_omap in Hin as (x & Hx & Ex).
  assert (Hxv : x = CardanoDelta.DVoteCast v) by (destruct x; try discriminate Ex; by injection Ex as ->).
  subst x. destruct (elem_split_filter (fun x => CardanoDelta.key x = VoteCast.key v) l _ Hx eq_refl) as (a & b & Hs).
  assert (Hvote : forall y, y ∈ queued (VoteCast.key v) l -> exists w, y = CardanoDelta.DVoteCast w).
  { intros y [Hky Hy]%list_elem_of_filter. destruct (proposal_deltas y) as [[p ->]|?]; [by apply Hf|by rewrite Hky| |done].
    destruct (Hno (CardanoDelta.key (CardanoDelta.DNewProposalV2 p))). apply list_elem_of_omap. by eexists. }
  rewrite Hs in Ha, Hvote. apply apply_seq_app in Ha as (q3 & e3 & q4 & Ha & Hb). cbn in Hb.
  apply bind_Ret in Hb as ([d1 e4] & Ev & Hb). apply bind_Ret in Hb as ([q5 e5] & Eb & Hb). injection Hb as <- <-.
  assert (Hp3 : is_proposal e3).
  { eapply (apply_seq_inv is_proposal); [|exact He|exact Ha]. intros y f d2 f' Hy Hpy Ey.
    destruct (Hvote y) as [w ->]; [apply elem_of_app; by left|].
    destruct (vote_applied w _ _ _ Ey Hpy) as [(p & -> & _) _]. by eexists. }
  eapply (apply_seq_inv (is_recorded v)); [|exact (proj1 (vote_applied v _ _ _ Ev Hp3))|exact Eb].
  intros y f d2 f' Hy Hr Ey. destruct (Hvote y) as [w ->]; [apply elem_of_app; right; by right|].
  apply (vote_applied w _ _ _ Ey); [|done]. destruct Hr as (p & -> & _). by eexists.
Qed.

(** C15: a vote on a proposal of the same block is recorded: whatever the order of
    the two in the block, applying the deltas queued for the proposal leaves a
    proposal whose history of the voter has the vote. *)
Theorem same_block_votes_recorded env utxos dormancy block b' deltas tx tx' i proposal pp v e q' e' :
  crawl env utxos (new_builder dormancy) block = Ret (Ok (b', deltas)) ->
  tx ∈ mb_txs block -> v ∈ tx_votes block tx ->
  tx' ∈ mb_txs block -> mt_is_valid tx' = true -> (i, proposal) ∈ numbered_proposals tx' ->
  as_conway proposal = Some pp -> VoteCast.key v = proposal_key (mt_hash tx') (as_u 32 i) ->
  WorkBatch.apply_seq (default [] (deltas !! VoteCast.key v)) e = Ret (q', e') ->
  is_recorded v e'.
Proof.
  intros E Htx Hv Htx' Hval Hi Hpp Hk Ha. destruct (crawl_queue _ _ _ _ _ _ (VoteCast.key v) E) as (l & Hq & He & Hf).
  rewrite Hq in Ha. unfold block_effects in He. rewrite app_assoc in He.
  apply omap_app_inv in He as (l1 & l2 & -> & He1 & He2). rewrite filter_app in Ha.
  apply apply_seq_app in Ha as (q1 & e1 & q2 & Ha1 & Ha2). apply Forall_app in Hf as [Hf1 Hf2].
  eapply (queue_records v l2 e1); [done| | | |exact Ha2].
  - intros k. rewrite He2. by intros (w & [=] & _)%list_elem_of_fmap.
  - rewrite He2. apply list_elem_of_fmap. exists v. split; [done|]. apply list_elem_of_bind. by exists tx.
  - eapply (queue_creates (VoteCast.key v) l1); [done|done| |exact Ha1]. rewrite He1. apply elem_of_app. left.
    apply list_elem_of_bind. exists tx'. split; [|done]. unfold tx_effects, tx_proposals. rewrite Hval, !elem_of_app.
    do 3 right. apply list_elem_of_bind. exists (i, proposal). split; [|done].
    unfold proposal_effects. cbn. rewrite Hpp, Hk. by left.
Qed.

End votes.
