(* ===== verification/StakeTracking.v ===== *)
(** * The stake and the datums of the UTxO set

    The accounts record the value the unspent outputs hold at their stake
    credentials, and the datum entities how many unspent outputs name them.
    Rolling blocks keeps both in step with the UTxO set. *)

From S2P Require Import Prelude Lists Types ChainPoint EpochValue EntityDelta Eras PParams Forks.
From S2P Require Import Accounts Pools DReps Datums Assets Pending Epochs Proposals Gov StateStore Blocks.
From S2P Require Import Metadata PallasExtras GovActions Wal Roll Indexes IndexBuilder CardanoModel Codec Visitors Ewrap Crawl CrawlEffects.
Open Scope Z_scope.

(** ** What the entities record *)

(** The value an account records at its base or pointer addresses. *)
Definition account_value (is_pointer : bool) (a : option AccountState.t) : Z :=
  match a with
  | Some a =>
      match EpochValue.live (AccountState.stake a) with
      | Some s => if is_pointer then Stake.utxo_sum_at_pointer_addresses s else Stake.utxo_sum s
      | None => 0
      end
  | None => 0
  end.

Definition controlled (is_pointer : bool) (e : option CardanoEntity.t) : Z := account_value is_pointer (sub_entity e).

(** The references a datum entity counts; none when there is no entity. *)
Definition references (e : option CardanoEntity.t) : Z :=
  match sub_entity e with Some s => DatumState.refcount s | None => 0 end.

(** A queue moves a value by what its deltas move, while every prefix stays in
    range. *)
Lemma queue_moves {D E} `{!EntityDelta D E} (I : option E -> Prop) (value : option E -> Z) (move : D -> Z) hi (ds : list D) e ds' e' :
  (forall (d : D) e d' e', d ∈ ds -> I e -> EntityDelta.apply d e = Ret (d', e') -> 0 ≤ value e + move d < hi ->
     I e' /\ value e' = value e + move d) ->
  I e -> WorkBatch.apply_seq ds e = Ret (ds', e') ->
  (forall n, 0 ≤ value e + Zsum move (take n ds) < hi) ->
  I e' /\ value e' = value e + Zsum move ds.
Proof.
  revert e ds'. induction ds as [|d ds IH]; intros e ds' Hd Hi Hr Hb; cbn in Hr; [run_inv; cbn; split; [done|lia]|].
  apply bind_Ret in Hr as ([d1 e1] & E1 & Hr). apply bind_Ret in Hr as ([ds1 e2] & E2 & Hr). injection Hr as <- <-.
  destruct (Hd d e d1 e1) as [Hi1 Hv1]; [by left|done|done|specialize (Hb 1%nat); change (take 1 (d :: ds)) with [d] in Hb; by rewrite Zsum_one in Hb|].
  destruct (IH e1 ds1) as [Hi2 Hv2]; [intros; eapply Hd; eauto; by right|done|done| |].
  - intros n. specialize (Hb (S n)). change (take (S n) (d :: ds)) with (d :: take n ds) in Hb. rewrite Zsum_cons in Hb. lia.
  - split; [done|]. rewrite Zsum_cons. lia.
Qed.

Section deltas.
Context `{BuildCfg, Pallas}.
Implicit Types (d : CardanoDelta.t) (e : option CardanoEntity.t).

(** The amount a delta adds to either. *)
Definition stake_moved (is_pointer : bool) (d : CardanoDelta.t) : Z :=
  match effect_of d with
  | Some (StakeMoved _ p a) => if Bool.eqb p is_pointer then a else 0
  | _ => 0
  end.

Definition datum_moved (d : CardanoDelta.t) : Z :=
  match effect_of d with Some (DatumMoved _ a) => a | _ => 0 end.

Lemma add_64_exact a b : 0 ≤ a + b < 2 ^ 64 -> add_ 64 a b = Ret (a + b).
Proof.
  intros Hr. unfold add_, saturating_add, u_max. destruct strict; [by rewrite (proj2 (Z.ltb_lt _ _)) by lia|]. f_equal. lia.
Qed.

Lemma sub_64_exact a b : 0 ≤ a - b < 2 ^ 64 -> sub_ 64 a b = Ret (a - b).
Proof.
  intros Hr. unfold sub_, saturating_sub. destruct strict; [by rewrite (proj2 (Z.leb_le _ _)) by lia|]. f_equal. lia.
Qed.

(** Adding to and subtracting from one of the two sums. *)
Lemma inc_applied x a x' a' p :
  ControlledAmountInc.apply x a = Ret (x', a') ->
  (ControlledAmountInc.is_pointer x = p -> 0 ≤ account_value p a + ControlledAmountInc.amount x < 2 ^ 64) ->
  account_value p a' =
    account_value p a + (if Bool.eqb (ControlledAmountInc.is_pointer x) p then ControlledAmountInc.amount x else 0).
Proof.
  intros E Hr. unfold ControlledAmountInc.apply in E. ev_unfold. cbn in E.
  set (acc := get_or_insert a _) in E. assert (Hv : forall p, account_value p a = account_value p (Some acc)).
  { intros q. unfold acc. destruct a; [done|]. by destruct q. }
  rewrite Hv in Hr. rewrite Hv. clearbody acc. clear Hv. unfold account_value in *. ev_unfold.
  destruct (EpochValue.f_live (AccountState.stake acc)) as [st|] eqn:El; [|done]. cbn in E.
  destruct (ControlledAmountInc.is_pointer x), p; cbn in Hr |- *; try rewrite add_64_exact in E by auto; run_inv; cbn; lia.
Qed.

Lemma dec_applied x a x' a' p :
  ControlledAmountDec.apply x a = Ret (x', a') ->
  (ControlledAmountDec.is_pointer x = p -> 0 ≤ account_value p a - ControlledAmountDec.amount x < 2 ^ 64) ->
  account_value p a' =
    account_value p a - (if Bool.eqb (ControlledAmountDec.is_pointer x) p then ControlledAmountDec.amount x else 0).
Proof.
  intros E Hr. unfold ControlledAmountDec.apply in E. ev_unfold. destruct a as [acc|]; [|done]. cbn in E.
  unfold account_value in *. ev_unfold. destruct (EpochValue.f_live (AccountState.stake acc)) as [st|] eqn:El; [|done].
  cbn in E.
  destruct (ControlledAmountDec.is_pointer x), p; cbn in Hr |- *; try rewrite sub_64_exact in E by auto; run_inv; cbn; lia.
Qed.

(** The other account deltas of a crawl do not touch the value. *)
Lemma registration_applied x a x' a' p :
  StakeRegistration.apply x a = Ret (x', a') -> account_value p a' = account_value p a.
Proof. intros E. injection E as <- <-. destruct a; [done|]. by destruct p. Qed.

Lemma delegation_applied x a x' a' p :
  StakeDelegation.apply x a = Ret (x', a') -> account_value p a' = account_value p a.
Proof. unfold StakeDelegation.apply. intros E. destruct a; [|done]. run_inv. done. Qed.

Lemma deregistration_applied x a x' a' p :
  StakeDeregistration.apply x a = Ret (x', a') -> account_value p a' = account_value p a.
Proof. unfold StakeDeregistration.apply. intros E. destruct a; [|done]. run_inv. done. Qed.

Lemma vote_delegation_applied x a x' a' p :
  VoteDelegation.apply x a = Ret (x', a') -> account_value p a' = account_value p a.
Proof. unfold VoteDelegation.apply. intros E. destruct a; [|done]. run_inv. done. Qed.

Lemma withdrawal_applied x a x' a' p :
  WithdrawalInc.apply x a = Ret (x', a') -> account_value p a' = account_value p a.
Proof.
  unfold WithdrawalInc.apply. intros E. destruct a as [acc|]; [|done]. ev_unfold. cbn in E.
  unfold account_value. ev_unfold. destruct (EpochValue.f_live (AccountState.stake acc)) as [st|]; [|done]. cbn in E.
  run_inv. cbn. by destruct p.
Qed.

Lemma downcast_inv {D T} `{!Entity T, !EntityVariant T, !EntityDelta D T} (x x' : D) e e' :
  downcast_apply x e = Ret (x', e') ->
  exists o : option T, EntityDelta.apply x (sub_entity e) = Ret (x', o) /\ sub_entity e' = o.
Proof.
  unfold downcast_apply. intros E. apply bind_Ret in E as ([y o] & E & Er). apply Ret_inj in Er. injection Er as <- <-.
  exists o. by rewrite sub_into.
Qed.

(** An account delta of a crawl moves the value by its amount, while that
    stays in range. *)
Lemma account_moved p d e d' e' :
  crawl_kind d = true -> fst (CardanoDelta.key d) = NS AccountState.t ->
  CardanoDelta.apply d e = Ret (d', e') -> 0 ≤ controlled p e + stake_moved p d < 2 ^ 64 ->
  controlled p e' = controlled p e + stake_moved p d.
Proof.
  intros Hk Hn E Hr. destruct d; try discriminate Hk; try discriminate Hn; cbn [CardanoDelta.apply] in E;
    apply CardanoDelta.arm_inv in E as (x' & -> & E); apply downcast_inv in E as (o & E & Ho);
    unfold controlled in *; rewrite Ho; unfold stake_moved in *; cbn [effect_of] in *; rewrite ?Z.add_0_r.
  - eapply inc_applied; [exact E|]. intros <-. by rewrite eqb_reflx in Hr.
  - rewrite (dec_applied x _ x' o p E).
    + destruct (Bool.eqb _ _); lia.
    + intros <-. rewrite eqb_reflx in Hr. lia.
  - exact (registration_applied _ _ _ _ p E).
  - exact (delegation_applied _ _ _ _ p E).
  - exact (deregistration_applied _ _ _ _ p E).
  - exact (withdrawal_applied _ _ _ _ p E).
  - exact (vote_delegation_applied _ _ _ _ p E).
Qed.

(** A stored datum is referenced. *)
Definition referenced (e : option CardanoEntity.t) : Prop :=
  match sub_entity (T := DatumState.t) e with Some s => 1 ≤ DatumState.refcount s | None => True end.

Lemma datum_step d e d' e' :
  crawl_kind d = true -> fst (CardanoDelta.key d) = DATUM_NS ->
  referenced e -> CardanoDelta.apply d e = Ret (d', e') -> 0 ≤ references e + datum_moved d < 2 ^ 64 ->
  referenced e' /\ references e' = references e + datum_moved d.
Proof.
  intros Hk Hn Hi E Hr. destruct d; try discriminate Hk; try discriminate Hn; cbn [CardanoDelta.apply] in E;
    apply CardanoDelta.arm_inv in E as (x' & -> & E); apply downcast_inv in E as (o & E & Ho);
    unfold references, referenced in *; rewrite Ho; unfold datum_moved in *; cbn [effect_of] in *.
  - cbn in E. unfold DatumRefIncrement.apply in E. destruct (sub_entity e) as [s|]; injection E as <- <-; cbn; [|lia].
    unfold saturating_add, u_max in *. lia.
  - cbn in E. unfold DatumRefDecrement.apply in E. destruct (sub_entity e) as [s|]; [|lia].
    destruct (Z.leb_spec (DatumState.refcount s) 1); [injection E as <- <-; cbn; lia|].
    unfold usub in E. rewrite native_exact in E by (unfold is_u; lia). cbn in E. injection E as <- <-. cbn. lia.
Qed.

End deltas.

(** ** Transactions one by one *)

Section txs.
Implicit Types (u m : UtxoMap) (tx : Tx) (r : TxoRef).

Definition tx_inputs (tx : Tx) : list TxoRef := input_ref <$> consumes tx.
Definition tx_outputs (tx : Tx) : UtxoMap := insert_produced ∅ (tx_hash tx, tx).

(** The set after a transaction. *)
Definition next_tx (u : UtxoMap) (tx : Tx) : UtxoMap := tx_outputs tx ∪ foldr delete u (tx_inputs tx).

(** The weight of a set of outputs. *)
Definition total (w : EraCbor -> Z) (u : UtxoMap) : Z := Zsum (fun kv => w (snd kv)) (map_to_list u).

Lemma total_insert w u r v : u !! r = None -> total w (<[r := v]> u) = w v + total w u.
Proof. intros Hn. unfold total. by rewrite (map_to_list_insert u r v Hn). Qed.

Lemma total_delete w u r v : u !! r = Some v -> total w (delete r u) = total w u - w v.
Proof.
  intros Hs. rewrite <- (insert_delete_id u r v Hs) at 2. rewrite total_insert by apply lookup_delete_eq. lia.
Qed.

Lemma total_empty w : total w ∅ = 0.
Proof. unfold total. by rewrite map_to_list_empty. Qed.

Lemma total_union w u1 u2 : u1 ##ₘ u2 -> total w (u1 ∪ u2) = total w u1 + total w u2.
Proof.
  induction u1 as [|r v u1 Hn IH] using map_ind; intros Hd; [by rewrite (left_id_L ∅ (∪)), total_empty|].
  apply map_disjoint_insert_l in Hd as [Hn2 Hd]. rewrite <- insert_union_l, !total_insert, IH by (by rewrite ?lookup_union_None).
  lia.
Qed.

Lemma total_nonneg w u : (forall v, 0 ≤ w v) -> 0 ≤ total w u.
Proof. intros Hw. apply Zsum_nonneg. auto. Qed.

Lemma lookup_deletes u l r : foldr delete u l !! r = if bool_decide (r ∈ l) then None else u !! r.
Proof.
  induction l as [|x l IH]; cbn; [by rewrite bool_decide_false by apply not_elem_of_nil|].
  destruct (decide (x = r)) as [->|Hn].
  - rewrite lookup_delete_eq, bool_decide_true; [done|by left].
  - rewrite lookup_delete_ne by done. rewrite IH. apply if_bool_decide_iff. rewrite elem_of_cons. naive_solver.
Qed.

(** The weight of what a set has at some references. *)
Definition weight_at (w : EraCbor -> Z) (u : UtxoMap) (r : TxoRef) : Z :=
  match u !! r with Some v => w v | None => 0 end.

Lemma total_deletes w u l :
  NoDup l -> (forall r, r ∈ l -> is_Some (u !! r)) -> total w (foldr delete u l) = total w u - Zsum (weight_at w u) l.
Proof.
  induction l as [|r l IH]; intros Hnd Hs; [cbn; lia|]. apply NoDup_cons in Hnd as [Hr Hnd].
  rewrite Zsum_cons. cbn [foldr].
  destruct (Hs r) as [v Hv]; [by left|].
  rewrite (total_delete w _ r v) by (rewrite lookup_deletes, bool_decide_false; done).
  rewrite IH by (try done; intros; apply Hs; by right). unfold weight_at at 2. rewrite Hv. lia.
Qed.

Lemma insert_produced_total w l h u :
  NoDup ((fun o : Z * EraCbor => as_u 32 (fst o)) <$> l) ->
  (forall o, o ∈ l -> u !! (h, as_u 32 (fst o)) = None) ->
  total w (foldl (fun m (o : Z * EraCbor) => <[(h, as_u 32 o.1) := o.2]> m) u l) =
    total w u + Zsum (fun o => w (snd o)) l.
Proof.
  revert u. induction l as [|o l IH]; intros u Hnd Hn; [cbn; lia|]. apply NoDup_cons in Hnd as [Ho Hnd].
  rewrite Zsum_cons. cbn [foldl].
  rewrite IH; [|done|].
  - rewrite total_insert by (apply Hn; by left). lia.
  - intros o' Ho'. rewrite lookup_insert_ne; [apply Hn; by right|]. intros [= E]. apply Ho. rewrite E.
    apply list_elem_of_fmap. eauto.
Qed.

Lemma total_outputs w tx :
  NoDup ((fun o : Z * EraCbor => as_u 32 (fst o)) <$> produces tx) ->
  total w (tx_outputs tx) = Zsum (fun o => w (snd o)) (produces tx).
Proof.
  intros Hnd. unfold tx_outputs, insert_produced. cbn.
  rewrite insert_produced_total by (try done; intros; apply lookup_empty). by rewrite total_empty.
Qed.

Lemma outputs_hash tx r v : tx_outputs tx !! r = Some v -> fst r = tx_hash tx.
Proof.
  unfold tx_outputs, insert_produced. cbn. induction (produces tx) as [|o l IH] using rev_ind; [cbn; by rewrite lookup_empty|].
  rewrite foldl_app. cbn. destruct (decide ((tx_hash tx, as_u 32 o.1) = r)) as [<-|Hn]; [done|].
  by rewrite lookup_insert_ne.
Qed.

(** The transaction spends what is there, once, and its outputs are numbered. *)
Definition spends (u : UtxoMap) (tx : Tx) : Prop :=
  NoDup (tx_inputs tx) /\ (forall r, r ∈ tx_inputs tx -> is_Some (u !! r)) /\
  NoDup ((fun o : Z * EraCbor => as_u 32 (fst o)) <$> produces tx).

(** A transaction moves the weight by what it spends and produces. *)
Lemma total_next w u tx :
  spends u tx -> tx_outputs tx ##ₘ u ->
  total w (next_tx u tx) =
    total w u - Zsum (weight_at w u) (tx_inputs tx) + Zsum (fun o => w (snd o)) (produces tx).
Proof.
  intros (Hnd & Hs & Ho) Hd. unfold next_tx.
  rewrite total_union; [rewrite total_deletes, total_outputs by done; lia|].
  apply map_disjoint_spec. intros r x y Hx Hy. rewrite lookup_deletes in Hy. case_bool_decide; [done|].
  by apply (proj1 (map_disjoint_spec _ _) Hd r x y).
Qed.

(** *** Blocks *)

(** The transactions of a block are told apart by their hashes. *)
Definition distinct_txs (b : Block) : Prop := NoDup (tx_hash <$> txs b).

Lemma elem_of_block_txs b p :
  distinct_txs b -> p ∈ map_to_list (block_txs b) <-> snd p ∈ txs b /\ fst p = tx_hash (snd p).
Proof.
  intros Hd. destruct p as [h tx]. rewrite elem_of_map_to_list. unfold block_txs. cbn.
  rewrite <- elem_of_list_to_map; [|rewrite fmap_reverse, reverse_Permutation, <- list_fmap_compose; exact Hd].
  rewrite elem_of_reverse, list_elem_of_fmap. split; [by intros (? & [= -> ->] & ?)|]. intros [? ->]. eauto.
Qed.

Lemma elem_of_consumed b r : distinct_txs b -> r ∈ consumed_of b <-> exists tx, tx ∈ txs b /\ r ∈ tx_inputs tx.
Proof.
  intros Hd. unfold consumed_of. rewrite list_elem_of_bind. split.
  - intros ([h tx] & Hr & Hp). apply elem_of_block_txs in Hp as [Htx _]; [|done]. eauto.
  - intros (tx & Htx & Hr). exists (tx_hash tx, tx). split; [done|]. by apply elem_of_block_txs.
Qed.

Lemma insert_produced_hash h tx r v : insert_produced ∅ (h, tx) !! r = Some v -> fst r = h.
Proof.
  unfold insert_produced. cbn. induction (produces tx) as [|o l IH] using rev_ind; [cbn; by rewrite lookup_empty|].
  rewrite foldl_app. cbn. destruct (decide ((h, as_u 32 o.1) = r)) as [<-|Hn]; [done|]. by rewrite lookup_insert_ne.
Qed.

Lemma outputs_lookup l r v :
  NoDup l.*1 -> foldl insert_produced ∅ l !! r = Some v <-> exists p, p ∈ l /\ insert_produced ∅ p !! r = Some v.
Proof.
  induction l as [|[h tx] l IH] using rev_ind; intros Hnd.
  - cbn. rewrite lookup_empty. split; [done|]. by intros (p & ?%not_elem_of_nil & _).
  - rewrite fmap_app, NoDup_app in Hnd. destruct Hnd as (Hl & Hh & _). rewrite foldl_app. cbn [foldl].
    rewrite insert_produced_union, lookup_union_Some_raw, IH by done. setoid_rewrite elem_of_app.
    setoid_rewrite list_elem_of_singleton. split; [naive_solver|]. intros (p & [Hp| ->] & Hv); [|by left]. right.
    split; [|eauto]. destruct (insert_produced ∅ (h, tx) !! r) eqn:E; [|done]. exfalso.
    apply insert_produced_hash in E. destruct p as [h' tx']. apply insert_produced_hash in Hv.
    apply (Hh h'); [apply list_elem_of_fmap; by exists (h', tx')|]. cbn. rewrite <- Hv, E. by left.
Qed.

Lemma lookup_produced b r v :
  distinct_txs b -> produced_of b !! r = Some v <-> exists tx, tx ∈ txs b /\ tx_outputs tx !! r = Some v.
Proof.
  intros Hd. unfold produced_of. rewrite outputs_lookup by apply NoDup_fst_map_to_list. split.
  - intros ([h tx] & Hp & Hv). apply elem_of_block_txs in Hp as [Htx Eh]; [|done]. cbn in *. subst. eauto.
  - intros (tx & Htx & Hv). exists (tx_hash tx, tx). split; [by apply elem_of_block_txs|done].
Qed.

(** Where an output of the set after some transactions comes from. *)
Lemma next_txs_origin u l r v :
  foldl next_tx u l !! r = Some v -> u !! r = Some v \/ exists tx, tx ∈ l /\ tx_outputs tx !! r = Some v.
Proof.
  induction l as [|tx l IH] using rev_ind; [by left|]. rewrite foldl_app. cbn. unfold next_tx at 1.
  rewrite lookup_union_Some_raw, lookup_deletes. setoid_rewrite elem_of_app. setoid_rewrite list_elem_of_singleton.
  case_bool_decide; naive_solver.
Qed.

(** Transactions that spend one after the other. *)
Fixpoint txs_spend (u : UtxoMap) (l : list Tx) : Prop :=
  match l with [] => True | tx :: l => spends u tx /\ txs_spend (next_tx u tx) l end.

Lemma txs_spend_app u l1 l2 : txs_spend u (l1 ++ l2) <-> txs_spend u l1 /\ txs_spend (foldl next_tx u l1) l2.
Proof. revert u. induction l1 as [|tx l1 IH]; intros u; cbn; [naive_solver|]. rewrite IH. naive_solver. Qed.

(** The outputs of the transactions are new. *)
Definition outputs_new (u : UtxoMap) (l : list Tx) : Prop :=
  NoDup (tx_hash <$> l) /\ forall tx r, tx ∈ l -> is_Some (tx_outputs tx !! r) -> u !! r = None.

Lemma outputs_new_app u l1 l2 : outputs_new u (l1 ++ l2) -> outputs_new u l1.
Proof.
  intros [Hn Ho]. rewrite fmap_app, NoDup_app in Hn. split; [naive_solver|].
  intros tx r Htx. apply Ho, elem_of_app. by left.
Qed.

(** An output is not spent by an earlier transaction, nor produced twice. *)
Lemma outputs_unspent u l tx r :
  outputs_new u (l ++ [tx]) -> txs_spend u (l ++ [tx]) -> is_Some (tx_outputs tx !! r) ->
  u !! r = None /\ (forall tx', tx' ∈ l -> tx_outputs tx' !! r = None) /\
  (forall tx', tx' ∈ l ++ [tx] -> r ∉ tx_inputs tx').
Proof.
  intros [Hn Ho] Hs [v Hv]. assert (Hu : u !! r = None) by (apply (Ho tx); [apply elem_of_app; right; by left|eauto]).
  assert (Hl : forall tx', tx' ∈ l -> tx_outputs tx' !! r = None).
  { intros tx' Htx'. destruct (tx_outputs tx' !! r) eqn:E; [|done]. exfalso. rewrite fmap_app, NoDup_app in Hn.
    destruct Hn as (_ & Hn & _). apply (Hn (tx_hash tx')); [by apply list_elem_of_fmap_2|]. cbn.
    rewrite <- (outputs_hash _ _ _ E), (outputs_hash _ _ _ Hv). by left. }
  split; [done|]. split; [done|]. intros tx' Htx' Hr. apply list_elem_of_split in Htx' as (l1 & l2 & El).
  rewrite El, txs_spend_app in Hs. destruct Hs as [_ [(_ & Hs & _) _]]. destruct (Hs r Hr) as [x Hx].
  apply next_txs_origin in Hx as [Hx|(tx'' & Htx'' & Hx)]; [congruence|]. rewrite Hl in Hx; [done|].
  destruct l2 as [|y l2 _] using rev_ind.
  - apply app_inj_tail in El as [-> _]. done.
  - rewrite app_comm_cons, app_assoc in El. apply app_inj_tail in El as [-> _]. apply elem_of_app. by left.
Qed.

Lemma next_txs_lookup u l r v :
  outputs_new u l -> txs_spend u l ->
  foldl next_tx u l !! r = Some v <->
  (forall tx, tx ∈ l -> r ∉ tx_inputs tx) /\ (u !! r = Some v \/ exists tx, tx ∈ l /\ tx_outputs tx !! r = Some v).
Proof.
  induction l as [|tx l IH] using rev_ind; intros Hn Hs.
  { cbn. setoid_rewrite elem_of_nil. naive_solver. }
  specialize (IH (outputs_new_app _ _ _ Hn) (proj1 (proj1 (txs_spend_app _ _ _) Hs))).
  rewrite foldl_app. cbn [foldl]. unfold next_tx at 1. rewrite lookup_union_Some_raw, lookup_deletes.
  pose proof (outputs_unspent u l tx r Hn Hs) as Hu. setoid_rewrite elem_of_app in Hu. setoid_rewrite elem_of_app.
  setoid_rewrite list_elem_of_singleton in Hu. setoid_rewrite list_elem_of_singleton.
  destruct (tx_outputs tx !! r) as [x|] eqn:Ex.
  - destruct Hu as (Hu & Hl & Hi); [eauto|]. split.
    + intros [[= ->]|[? _]]; [|done]. split; [naive_solver|]. right. exists tx. naive_solver.
    + intros [_ [Hc|(tx' & [Htx'| ->] & Hv)]]; [congruence| |naive_solver]. rewrite Hl in Hv by done. done.
  - case_bool_decide as Hc; [naive_solver|]. rewrite IH. split.
    + intros [[=]|[_ [Hi Hv]]]. split; [naive_solver|]. naive_solver.
    + intros [Hi Hv]. right. split; [done|]. split; [naive_solver|].
      destruct Hv as [Hv|(tx' & [Htx'| ->] & Hv)]; [by left| |congruence]. right. eauto.
Qed.

(** Going through the transactions is the step of the block. *)
Lemma next_txs_block u b :
  distinct_txs b -> (forall r, is_Some (produced_of b !! r) -> u !! r = None) -> txs_spend u (txs b) ->
  outputs_new u (txs b) /\ foldl next_tx u (txs b) = next_utxos u b.
Proof.
  intros Hd Hf Hs. assert (Hn : outputs_new u (txs b)).
  { split; [done|]. intros tx r Htx [v Hv]. apply Hf. exists v. apply lookup_produced; eauto. }
  split; [done|]. apply map_eq. intros r. apply option_eq. intros v. rewrite next_txs_lookup, lookup_next by done.
  assert (Hc := elem_of_consumed b r Hd). assert (Hp := lookup_produced b r). case_bool_decide as Hr.
  - split; [|done]. intros [Hi _]. apply Hc in Hr as (tx & Htx & Hr). by destruct (Hi tx Htx).
  - rewrite lookup_union_Some_raw, Hp by done. split.
    + intros [_ [Hv|Hv]]; [|by left]. right. split; [|done]. destruct (produced_of b !! r) eqn:E; [|done].
      rewrite Hf in Hv by (rewrite E; eauto). done.
    + intros Hv. split; [|naive_solver]. intros tx Htx Hi. apply Hr, Hc. eauto.
Qed.

End txs.


(** ** Effects and weights *)

Section weights.
Implicit Types (hi x : Z).

Lemma Zsum_bind {A B} (f : B -> Z) (g : A -> list B) l : Zsum f (l ≫= g) = Zsum (fun a => Zsum f (g a)) l.
Proof. induction l as [|a l IH]; [done|]. cbn [mbind list_bind]. by rewrite Zsum_app, Zsum_cons, IH. Qed.

Lemma Zsum_opp {A} (f : A -> Z) l : Zsum (fun a => - f a) l = - Zsum f l.
Proof. induction l as [|a l IH]; [done|]. rewrite !Zsum_cons, IH. lia. Qed.

(** Every partial sum stays in range. *)
Definition in_range {A} (f : A -> Z) hi x (l : list A) : Prop := forall n, 0 ≤ x + Zsum f (take n l) < hi.

Lemma in_range_app {A} (f : A -> Z) hi x l1 l2 :
  in_range f hi x l1 -> in_range f hi (x + Zsum f l1) l2 -> in_range f hi x (l1 ++ l2).
Proof.
  intros H1 H2 n. rewrite take_app, Zsum_app. destruct (decide (n ≤ length l1)%nat) as [Hn|Hn].
  - replace (n - length l1)%nat with 0%nat by lia. specialize (H1 n). rewrite take_0. change (Zsum f []) with 0. lia.
  - rewrite take_ge by lia. specialize (H2 (n - length l1)%nat). lia.
Qed.

Lemma take_elem {A} (l : list A) n a : a ∈ take n l -> a ∈ l.
Proof. intros Ha. rewrite <- (take_drop n l). apply elem_of_app. by left. Qed.

Lemma in_range_up {A} (f : A -> Z) hi x l :
  0 ≤ x -> (forall a, a ∈ l -> 0 ≤ f a) -> x + Zsum f l < hi -> in_range f hi x l.
Proof.
  intros Hx Hf Hh n. assert (0 ≤ Zsum f (take n l)) by (apply Zsum_nonneg; intros; by eapply Hf, take_elem).
  rewrite <- (take_drop n l), Zsum_app in Hh.
  assert (0 ≤ Zsum f (drop n l)). { apply Zsum_nonneg. intros a Ha. apply Hf. rewrite <- (take_drop n l). apply elem_of_app. by right. }
  lia.
Qed.

Lemma in_range_down {A} (f : A -> Z) hi x l :
  x < hi -> (forall a, a ∈ l -> f a ≤ 0) -> 0 ≤ x + Zsum f l -> in_range f hi x l.
Proof.
  intros Hx Hf Hh n.
  assert (Hu : in_range (fun a => - f a) hi (hi - 1 - x) l).
  { apply in_range_up; [lia| |rewrite Zsum_opp; lia]. intros a Ha. specialize (Hf a Ha). lia. }
  specialize (Hu n). rewrite Zsum_opp in Hu. lia.
Qed.

Lemma in_range_flat {A} (f : A -> Z) hi x l : 0 ≤ x < hi -> (forall a, a ∈ l -> f a = 0) -> in_range f hi x l.
Proof.
  intros Hx Hf n. rewrite (Zsum_ext f (fun _ => 0)); [rewrite Zsum_zero; lia|]. intros a Ha. by eapply Hf, take_elem.
Qed.

(** A prefix of a queue comes from a prefix of the deltas. *)
Lemma take_filter {A} (P : A -> Prop) `{!forall a, Decision (P a)} l n : exists m, take n (filter P l) = filter P (take m l).
Proof.
  revert n. induction l as [|a l IH]; intros n; [exists 0%nat; by destruct n|]. rewrite filter_cons. case_decide as Ha.
  - destruct n as [|n]; [by exists 0%nat|]. destruct (IH n) as [m Hm]. exists (S m). cbn [take]. by rewrite filter_cons, decide_True, Hm.
  - destruct (IH n) as [m Hm]. exists (S m). cbn [take]. by rewrite filter_cons, decide_False.
Qed.

Lemma take_omap {A B} (f : A -> option B) l m : exists j, omap f (take m l) = take j (omap f l).
Proof.
  revert m. induction l as [|a l IH]; intros m; [exists 0%nat; by destruct m|]. destruct m as [|m]; [by exists 0%nat|].
  destruct (IH m) as [j Hj]. cbn. rewrite Hj. destruct (f a); [by exists (S j)|by exists j].
Qed.

End weights.


(** What an effect adds to the value of an entity. *)
Definition moved (f : Effect -> Z) `{BuildCfg, Pallas} (d : CardanoDelta.t) : Z :=
  match effect_of d with Some x => f x | None => 0 end.

Section effect_sums.
Context `{BuildCfg, Pallas} (f : Effect -> Z) (k : NsKey).
Hypothesis elsewhere : forall d, CardanoDelta.key d <> k -> moved f d = 0.

Lemma queue_sum l : Zsum (moved f) (filter (fun d => CardanoDelta.key d = k) l) = Zsum f (omap effect_of l).
Proof.
  induction l as [|d l IH]; [done|]. rewrite filter_cons.
  assert (Hd : Zsum f (omap effect_of (d :: l)) = moved f d + Zsum f (omap effect_of l)).
  { unfold moved. cbn. by destruct (effect_of d). }
  rewrite Hd. case_decide as Hk; [by rewrite Zsum_cons, IH|]. by rewrite elsewhere.
Qed.

Lemma queue_range hi x l : in_range f hi x (omap effect_of l) ->
  in_range (moved f) hi x (filter (fun d => CardanoDelta.key d = k) l).
Proof.
  intros Hr n. destruct (take_filter (fun d => CardanoDelta.key d = k) l n) as [m ->].
  rewrite queue_sum. destruct (take_omap effect_of l m) as [j ->]. apply Hr.
Qed.

(** An entity takes a queue. *)
Lemma entity_tracks (I : option CardanoEntity.t -> Prop) (value : option CardanoEntity.t -> Z) hi l e q e' :
  (forall d e d' e', crawl_kind d = true -> CardanoDelta.key d = k -> I e -> CardanoDelta.apply d e = Ret (d', e') ->
     0 ≤ value e + moved f d < hi -> I e' /\ value e' = value e + moved f d) ->
  Forall (fun d => crawl_kind d = true) l -> I e -> in_range f hi (value e) (omap effect_of l) ->
  WorkBatch.apply_seq (filter (fun d => CardanoDelta.key d = k) l) e = Ret (q, e') ->
  I e' /\ value e' = value e + Zsum f (omap effect_of l).
Proof.
  intros Hd Hf Hi Hr Ha. rewrite Forall_forall in Hf. rewrite <- queue_sum.
  eapply (queue_moves I value (moved f) hi); [|done|exact Ha|by apply queue_range].
  intros d e1 d' e1' [Hk Hin]%list_elem_of_filter. apply Hd; [by apply Hf|done].
Qed.

End effect_sums.

(** ** A block *)

(** The decoded block is the one the crawl traverses. *)
Definition tx_agrees `{Views} (tx : Tx) (mt : MultiEraTx) : Prop :=
  mt_hash mt = tx_hash tx /\ mt_consumes mt = consumes tx /\
  Forall2 (fun o v => fst v = fst o /\ view_output (snd o) = Some (snd v)) (produces tx) (mt_produces mt).

Definition agrees `{Views} (b : Block) (block : MultiEraBlock) : Prop :=
  mb_slot block = block_slot b /\ mb_hash block = block_hash b /\ Forall2 tx_agrees (txs b) (mb_txs block).

Section block.
Context `{BuildCfg, Pallas, Views}.
Variables (f : Effect -> Z) (w : OutputView -> Z) (hi : Z).

(** The weight of a stored output. *)
Definition weight (v : EraCbor) : Z := match view_output v with Some o => w o | None => 0 end.

Hypothesis spent : forall v o, view_output v = Some o ->
  Zsum f (input_effects o) = - w o /\ forall x, x ∈ input_effects o -> f x ≤ 0.
Hypothesis proposed : forall k, f (Proposed k) = 0.
Hypothesis voted : forall v, f (Voted v) = 0.

(** The outputs of a transaction are counted. *)
Definition counted (mt : MultiEraTx) : Prop :=
  forall o, o ∈ mt_produces mt ->
    Zsum f (output_effects (witnesses_of mt) (snd o)) = w (snd o) /\
    forall x, x ∈ output_effects (witnesses_of mt) (snd o) -> 0 ≤ f x.

Lemma update_effects_flat h up x : x ∈ update_effects h up -> f x = 0.
Proof. destruct up; cbn; [intros ->%list_elem_of_singleton; apply proposed|by intros ?%not_elem_of_nil]. Qed.

Lemma tx_proposals_flat mt x : x ∈ tx_proposals mt -> f x = 0.
Proof.
  unfold tx_proposals. destruct (mt_is_valid mt); [|by intros ?%not_elem_of_nil].
  intros [Hx|Hx]%elem_of_app; [by eapply update_effects_flat|]. apply list_elem_of_bind in Hx as (y & Hx & _).
  unfold proposal_effects in Hx. destruct (as_conway _); [|by apply not_elem_of_nil in Hx].
  apply list_elem_of_singleton in Hx as ->. apply proposed.
Qed.

Abbreviation spent_effects utxos l :=
  (l ≫= fun r => match utxos !! input_ref r with Some o => input_effects o | None => [] end).

(** What the inputs take away. *)
Lemma inputs_weigh u i l :
  (forall r, r ∈ input_ref <$> l -> i !! r = u !! r) ->
  Zsum f (spent_effects (omap view_output i : Resolved) l) = - Zsum (weight_at weight u) (input_ref <$> l) /\
  forall x, x ∈ spent_effects (omap view_output i : Resolved) l -> f x ≤ 0.
Proof.
  intros Hi. split.
  - rewrite Zsum_bind, <- Zsum_opp, Zsum_fmap. apply Zsum_ext. intros r Hr.
    rewrite lookup_omap, Hi by (by apply list_elem_of_fmap_2). unfold weight_at, weight.
    destruct (u !! input_ref r) as [v|]; [|done]. cbn. destruct (view_output v) eqn:Ev; [|done]. by eapply spent.
  - intros x (r & Hx & _)%list_elem_of_bind. rewrite lookup_omap in Hx.
    destruct (i !! _) as [v|]; [|by apply not_elem_of_nil in Hx]. cbn in Hx.
    destruct (view_output v) as [o|] eqn:Ev; [by eapply spent|by apply not_elem_of_nil in Hx].
Qed.

(** What the outputs add. *)
Lemma outputs_weigh tx mt :
  tx_agrees tx mt -> counted mt ->
  Zsum f (mt_produces mt ≫= fun o => output_effects (witnesses_of mt) (snd o)) = Zsum (fun o => weight (snd o)) (produces tx) /\
  forall x, x ∈ (mt_produces mt ≫= fun o => output_effects (witnesses_of mt) (snd o)) -> 0 ≤ f x.
Proof.
  intros (_ & _ & Ha) Hc. split.
  - rewrite Zsum_bind. rewrite (Zsum_ext _ (fun o => w (snd o))) by (intros; by apply Hc). clear Hc.
    induction Ha as [|o v l l' [_ Ho] Ha IH]; [done|]. rewrite !Zsum_cons, IH. unfold weight at 2. by rewrite Ho.
  - intros x (o & Hx & Ho)%list_elem_of_bind. by apply (Hc o Ho).
Qed.

Hypothesis positive : forall v, 0 ≤ weight v.

Lemma tx_tracks u i tx mt :
  tx_agrees tx mt -> counted mt -> spends u tx -> tx_outputs tx ##ₘ u ->
  (forall r, r ∈ tx_inputs tx -> i !! r = u !! r) -> total weight u < hi -> total weight (next_tx u tx) < hi ->
  in_range f hi (total weight u) (tx_effects (omap view_output i) mt) /\
  total weight u + Zsum f (tx_effects (omap view_output i) mt) = total weight (next_tx u tx).
Proof.
  intros Ha Hc Hs Hd Hi Hu Hn. pose proof (total_next weight u tx Hs Hd) as Ht.
  destruct (outputs_weigh tx mt Ha Hc) as [Eo Ho]. destruct Ha as (_ & Ec & _).
  unfold tx_effects. rewrite Ec. destruct (inputs_weigh u i (consumes tx) Hi) as [Ei Hin].
  assert (Ep : Zsum f (tx_proposals mt) = 0).
  { rewrite (Zsum_ext f (fun _ => 0)); [apply Zsum_zero|]. apply tx_proposals_flat. }
  fold (tx_inputs tx) in Ei. assert (Hnn : 0 ≤ total weight (foldr delete u (tx_inputs tx))) by by apply total_nonneg.
  rewrite total_deletes in Hnn by apply Hs. assert (0 ≤ total weight (next_tx u tx)) by by apply total_nonneg.
  assert (0 ≤ Zsum (fun o : Z * EraCbor => weight (snd o)) (produces tx)) by (apply Zsum_nonneg; auto).
  split.
  - apply in_range_app; [apply in_range_down; [done|exact Hin|lia]|].
    apply in_range_app; [apply in_range_up; [lia|exact Ho|lia]|].
    apply in_range_flat; [lia|apply tx_proposals_flat].
  - rewrite !Zsum_app. lia.
Qed.

(** The inputs of a transaction are resolved as they are when it spends. *)
Lemma resolved_at u i b pre tx rest r :
  distinct_txs b -> resolves u i b -> txs_spend u (txs b) -> txs b = pre ++ tx :: rest -> r ∈ tx_inputs tx ->
  i !! r = foldl next_tx u pre !! r.
Proof.
  intros Hd [Hf Hr] Hs Eb Hi. destruct (Hr r) as (v & Ev & Hv).
  { apply elem_of_consumed; [done|]. exists tx. rewrite Eb, elem_of_app, elem_of_cons. auto. }
  rewrite Eb, txs_spend_app in Hs. destruct Hs as [_ [(_ & Hs & _) _]]. destruct (Hs r Hi) as [x Hx].
  rewrite Ev, Hx. apply next_txs_origin in Hx as [Hx|(tx' & Htx' & Hx)].
  - destruct Hv as [Hv|[_ Hv]]; [|congruence]. rewrite Hf in Hx by eauto. done.
  - assert (Hp : produced_of b !! r = Some x).
    { apply lookup_produced; [done|]. exists tx'. by rewrite Eb, elem_of_app; auto. }
    destruct Hv as [Hv|[Hv _]]; congruence.
Qed.

(** The set stays below the bound while the block is applied. *)
Definition bounded (u : UtxoMap) (l : list Tx) : Prop := forall pre rest, l = pre ++ rest -> total weight (foldl next_tx u pre) < hi.

Lemma txs_track u i b rest mts pre :
  distinct_txs b -> resolves u i b -> txs_spend u (txs b) -> outputs_new u (txs b) -> bounded u (txs b) ->
  txs b = pre ++ rest -> Forall2 tx_agrees rest mts -> Forall counted mts ->
  in_range f hi (total weight (foldl next_tx u pre)) (mts ≫= tx_effects (omap view_output i)) /\
  total weight (foldl next_tx u pre) + Zsum f (mts ≫= tx_effects (omap view_output i)) = total weight (foldl next_tx u (txs b)).
Proof.
  intros Hd Hr Hs Hn Hb Eb Ha. revert pre Eb. induction Ha as [|tx mt rest mts Htx Ha IH]; intros pre Eb Hc.
  - rewrite app_nil_r in Eb. subst pre. cbn [mbind list_bind]. split; [|cbn; lia].
    apply in_range_flat; [|by intros a ?%not_elem_of_nil]. split; [by apply total_nonneg|].
    apply (Hb _ []). by rewrite app_nil_r.
  - apply Forall_cons in Hc as [Hmt Hc]. assert (Eb' : txs b = (pre ++ [tx]) ++ rest) by (by rewrite <- app_assoc).
    destruct (IH _ Eb' Hc) as [Hir Hsum]. clear IH. rewrite foldl_app in Hir, Hsum. cbn [foldl] in Hir, Hsum.
    assert (Hst := Hs). rewrite Eb, txs_spend_app in Hst. destruct Hst as [_ [Hst _]].
    assert (Hdis : tx_outputs tx ##ₘ foldl next_tx u pre).
    { apply map_disjoint_spec. intros r x y Hx Hy. rewrite Eb' in Hn, Hs. apply outputs_new_app in Hn.
      apply txs_spend_app in Hs as [Hs _]. destruct (outputs_unspent u pre tx r Hn Hs) as (Hu & Hl & _); [eauto|].
      apply next_txs_origin in Hy as [Hy|(tx' & Htx' & Hy)]; [congruence|]. by rewrite Hl in Hy. }
    destruct (tx_tracks (foldl next_tx u pre) i tx mt Htx Hmt Hst Hdis) as [Hi2 Hs2].
    + intros r. by eapply resolved_at.
    + by eapply Hb.
    + pose proof (Hb _ _ Eb') as Hb'. by rewrite foldl_app in Hb'.
    + cbn [mbind list_bind]. rewrite Zsum_app. split; [|lia]. apply in_range_app; [done|]. by rewrite Hs2.
Qed.

(** The effects of a block move the weight of the set. *)
Lemma block_tracks u i b block :
  agrees b block -> distinct_txs b -> resolves u i b -> txs_spend u (txs b) -> bounded u (txs b) ->
  Forall counted (mb_txs block) ->
  in_range f hi (total weight u) (block_effects (omap view_output i) block) /\
  total weight u + Zsum f (block_effects (omap view_output i) block) = total weight (next_utxos u b).
Proof.
  intros (_ & _ & Ha) Hd Hr Hs Hb Hc. destruct (next_txs_block u b Hd (proj1 Hr) Hs) as [Hn En].
  destruct (txs_track u i b (txs b) (mb_txs block) [] Hd Hr Hs Hn Hb eq_refl Ha Hc) as [Hi Hsum].
  rewrite En in Hsum. cbn [foldl] in Hi, Hsum. unfold block_effects.
  assert (Hflat : forall x, x ∈ update_effects (mb_hash block) (mb_update block) ++ (Voted <$> (mb_txs block ≫= tx_votes block)) -> f x = 0).
  { intros x [Hx|(v & -> & _)%list_elem_of_fmap]%elem_of_app; [by eapply update_effects_flat|apply voted]. }
  split.
  - apply in_range_app; [done|]. apply in_range_flat; [|done]. rewrite Hsum. split; [by apply total_nonneg|].
    rewrite <- En. apply (Hb _ []). by rewrite app_nil_r.
  - rewrite Zsum_app, (Zsum_ext f (fun _ => 0) _ Hflat), Zsum_zero. lia.
Qed.

End block.


(** ** The accounts and the datums of a chain *)

Section tracking.
Context `{BuildCfg, Pallas, Addresses, MetadataCodecs, Hasher224, Views, Traversal}.
Abbreviation Ledger := (Snap (E := CardanoEntity.t)).

Hypothesis coins_unsigned : forall v o, view_output v = Some o -> 0 ≤ out_coin o.

(** What an effect adds to the account, and what an output holds of it. *)
Definition stake_shift (k : NsKey) (p : bool) (x : Effect) : Z :=
  match x with
  | StakeMoved k' p' a => if decide (k' = k) then if Bool.eqb p' p then a else 0 else 0
  | _ => 0
  end.

Definition stake_weight (k : NsKey) (p : bool) (o : OutputView) : Z :=
  match stake_of o with
  | Some (c, p') => if decide (account_key c = k) then if Bool.eqb p' p then out_coin o else 0 else 0
  | None => 0
  end.

(** The same for a datum and the outputs that name it. *)
Definition datum_shift (k : NsKey) (x : Effect) : Z :=
  match x with DatumMoved k' a => if decide (k' = k) then a else 0 | _ => 0 end.

Definition datum_weight (k : NsKey) (o : OutputView) : Z :=
  match datum_of o with Some h => if decide (datum_key h = k) then 1 else 0 | None => 0 end.

(** The accounts record what the unspent outputs hold. *)
Definition stake_tracked (σ : Ledger) : Prop := forall k p, fst k = NS AccountState.t ->
  controlled p (s_entities σ !! k) = total (weight (stake_weight k p)) (s_utxos σ).

(** The datums count the unspent outputs that name them, and are kept while
    there is one. *)
Definition datums_tracked (σ : Ledger) : Prop := forall k, fst k = DATUM_NS ->
  referenced (s_entities σ !! k) /\ references (s_entities σ !! k) = total (weight (datum_weight k)) (s_utxos σ).

Lemma stake_shift_elsewhere k p d : CardanoDelta.key d <> k -> moved (stake_shift k p) d = 0.
Proof.
  intros Hk. unfold moved. destruct d; try reflexivity; cbn [effect_of stake_shift]; by rewrite decide_False by exact Hk.
Qed.

Lemma datum_shift_elsewhere k d : CardanoDelta.key d <> k -> moved (datum_shift k) d = 0.
Proof.
  intros Hk. unfold moved. destruct d; try reflexivity; cbn [effect_of datum_shift]; by rewrite decide_False by exact Hk.
Qed.

Lemma stake_shift_here p d : moved (stake_shift (CardanoDelta.key d) p) d = stake_moved p d.
Proof. unfold moved, stake_moved. destruct d; try reflexivity; cbn [effect_of stake_shift]; by rewrite decide_True. Qed.

Lemma datum_shift_here d : moved (datum_shift (CardanoDelta.key d)) d = datum_moved d.
Proof. unfold moved, datum_moved. destruct d; try reflexivity; cbn [effect_of datum_shift]; by rewrite decide_True. Qed.

(** The stake an output moves, and nothing from its datum. *)
Lemma stake_effect_shift k p sign o :
  Zsum (stake_shift k p) (stake_effect sign o) = sign * stake_weight k p o.
Proof.
  unfold stake_effect, stake_weight. destruct (stake_of o) as [[c p']|]; [|cbn; lia]. rewrite Zsum_one. cbn [stake_shift].
  case_decide; [|lia]. destruct (Bool.eqb p' p); lia.
Qed.

Lemma stake_effect_sign k p sign o x :
  0 ≤ out_coin o -> x ∈ stake_effect sign o -> 0 ≤ sign * stake_shift k p x \/ sign = 0.
Proof.
  unfold stake_effect. intros Hc. destruct (stake_of o) as [[c p']|]; [|by intros ?%not_elem_of_nil].
  intros ->%list_elem_of_singleton. cbn [stake_shift]. case_decide; [|lia]. destruct (Bool.eqb p' p); nia.
Qed.

Lemma datum_spent_stake k p o x : x ∈ datum_spent o -> stake_shift k p x = 0.
Proof. unfold datum_spent. destruct (datum_of o); [by intros ->%list_elem_of_singleton|by intros ?%not_elem_of_nil]. Qed.

Lemma datum_produced_stake k p wit o x : x ∈ datum_produced wit o -> stake_shift k p x = 0.
Proof.
  unfold datum_produced. destruct (datum_of o) as [h|]; [|by intros ?%not_elem_of_nil].
  destruct (wit !! h); [by intros ->%list_elem_of_singleton|by intros ?%not_elem_of_nil].
Qed.

Lemma stake_effect_datum k sign o x : x ∈ stake_effect sign o -> datum_shift k x = 0.
Proof.
  unfold stake_effect. destruct (stake_of o) as [[c p]|]; [by intros ->%list_elem_of_singleton|by intros ?%not_elem_of_nil].
Qed.

Lemma Zsum_flat {A} (f : A -> Z) l : (forall x, x ∈ l -> f x = 0) -> Zsum f l = 0.
Proof. intros Hf. rewrite (Zsum_ext f (fun _ => 0)); [apply Zsum_zero|done]. Qed.

Lemma stake_spent k p v o : view_output v = Some o ->
  Zsum (stake_shift k p) (input_effects o) = - stake_weight k p o /\ forall x, x ∈ input_effects o -> stake_shift k p x ≤ 0.
Proof.
  intros Hv%coins_unsigned. unfold input_effects. rewrite Zsum_app, stake_effect_shift, (Zsum_flat _ (datum_spent o)) by apply datum_spent_stake.
  split; [lia|]. intros x [Hx|Hx]%elem_of_app; [|by rewrite (datum_spent_stake k p o)].
  destruct (stake_effect_sign k p _ _ _ Hv Hx); lia.
Qed.

Lemma stake_counted k p tx mt : tx_agrees tx mt -> counted (stake_shift k p) (stake_weight k p) mt.
Proof.
  intros (_ & _ & Ha) [i o] Ho. cbn. apply list_elem_of_lookup in Ho as [n Ho].
  destruct (Forall2_lookup_r _ _ _ _ _ Ha Ho) as ([i' v] & _ & _ & Hv%coins_unsigned). unfold output_effects.
  rewrite Zsum_app, stake_effect_shift, (Zsum_flat _ (datum_produced _ o)) by apply datum_produced_stake.
  split; [lia|]. intros x [Hx|Hx]%elem_of_app; [|by rewrite (datum_produced_stake k p _ _ _ Hx)].
  destruct (stake_effect_sign k p _ _ _ Hv Hx); lia.
Qed.

Lemma datum_spent_counted k v o : view_output v = Some o ->
  Zsum (datum_shift k) (input_effects o) = - datum_weight k o /\ forall x, x ∈ input_effects o -> datum_shift k x ≤ 0.
Proof.
  intros _. unfold input_effects. rewrite Zsum_app, (Zsum_flat _ (stake_effect _ o)) by apply stake_effect_datum.
  setoid_rewrite elem_of_app. unfold datum_spent, datum_weight. split.
  - destruct (datum_of o); [|done]. rewrite Zsum_one. cbn [datum_shift]. case_decide; lia.
  - intros x [Hx|Hx]; [by rewrite (stake_effect_datum k _ _ _ Hx)|].
    destruct (datum_of o); [|by apply not_elem_of_nil in Hx]. apply list_elem_of_singleton in Hx as ->. cbn. case_decide; lia.
Qed.

(** The datums of the outputs of a transaction are among its witnesses. *)
Definition witnessed (mt : MultiEraTx) : Prop :=
  forall o h, o ∈ mt_produces mt -> datum_of (snd o) = Some h -> is_Some (witnesses_of mt !! h).

Lemma datum_counted k mt : witnessed mt -> counted (datum_shift k) (datum_weight k) mt.
Proof.
  intros Hw o Ho. specialize (Hw o). unfold output_effects.
  rewrite Zsum_app, (Zsum_flat _ (stake_effect _ (snd o))) by apply stake_effect_datum.
  setoid_rewrite elem_of_app. unfold datum_produced, datum_weight. destruct (datum_of (snd o)) as [h|].
  - destruct (Hw h Ho eq_refl) as [x ->]. rewrite Zsum_one. cbn [datum_shift]. split; [case_decide; lia|].
    intros y [Hy|Hy]; [by rewrite (stake_effect_datum k _ _ _ Hy)|]. apply list_elem_of_singleton in Hy as ->. cbn. case_decide; lia.
  - split; [done|]. intros y [Hy|Hy]; [by rewrite (stake_effect_datum k _ _ _ Hy)|by apply not_elem_of_nil in Hy].
Qed.

(** *** Blocks the ledger accepts *)

(** The transactions of the block are told apart and spend one after the
    other, and the coins and the number of unspent outputs stay within 64
    bits. *)
Record ledger_block (u : UtxoMap) (b : Block) : Prop := {
  lg_distinct : distinct_txs b;
  lg_spend : txs_spend u (txs b);
  lg_coins : bounded out_coin (2 ^ 64) u (txs b);
  lg_count : bounded (fun _ => 1) (2 ^ 64) u (txs b);
}.

Fixpoint ledger_blocks (u : UtxoMap) (bs : list Block) : Prop :=
  match bs with [] => True | b :: rest => ledger_block u b /\ ledger_blocks (next_utxos u b) rest end.

Lemma total_le w w' u : (forall v, weight w v ≤ weight w' v) -> total (weight w) u ≤ total (weight w') u.
Proof. intros Hw. apply Zsum_le. intros x _. apply Hw. Qed.

Lemma bounded_le w w' hi u l : (forall v, weight w v ≤ weight w' v) -> bounded w' hi u l -> bounded w hi u l.
Proof. intros Hw Hb pre rest El. pose proof (total_le w w' (foldl next_tx u pre) Hw). specialize (Hb pre rest El). lia. Qed.

Lemma stake_weight_range k p v : 0 ≤ weight (stake_weight k p) v ≤ weight out_coin v.
Proof.
  unfold weight, stake_weight. destruct (view_output v) as [o|] eqn:Ev; [|lia]. apply coins_unsigned in Ev.
  destruct (stake_of o) as [[c p']|]; [|lia]. case_decide; [|lia]. destruct (Bool.eqb p' p); lia.
Qed.

Lemma datum_weight_range k v : 0 ≤ weight (datum_weight k) v ≤ weight (fun _ => 1) v.
Proof.
  unfold weight, datum_weight. destruct (view_output v) as [o|]; [|lia]. destruct (datum_of o); [|lia]. case_decide; lia.
Qed.

(** *** One block *)

Section step.
Context (env : CrawlEnv) (i : UtxoMap) (dormancy : DormancyContext) (block : MultiEraBlock) (builder : DeltaBuilder).
Context (σ σ' : Ledger) (w : WorkBlock.t CardanoDelta.t).
Hypothesis crawled : crawl env (omap view_output i) (new_builder dormancy) block = Ret (Ok (builder, WorkBlock.deltas w)).
Hypothesis applied : block_step σ w σ'.
Hypothesis traversed : agrees (WorkBlock.block w) block.
Hypothesis inputs : resolves (s_utxos σ) i (WorkBlock.block w).
Hypothesis ledger : ledger_block (s_utxos σ) (WorkBlock.block w).

Lemma stake_step : stake_tracked σ -> stake_tracked σ'.
Proof.
  intros Ht k p Hk. destruct applied as [He Hu]. destruct (He k) as [q Ha]. specialize (Ht k p Hk).
  destruct (crawl_queue _ _ _ _ _ _ k crawled) as (l & Hq & Hef & Hf). rewrite Hq in Ha.
  destruct (block_tracks (stake_shift k p) (stake_weight k p) (2 ^ 64) (stake_spent k p) ltac:(done) ltac:(done)
    ltac:(intros v; apply (stake_weight_range k p v)) (s_utxos σ) i (WorkBlock.block w) block traversed) as [Hr Hs];
    [by destruct ledger|done|by destruct ledger| | |].
  - apply (bounded_le _ out_coin); [intros v; apply (stake_weight_range k p v)|by destruct ledger].
  - destruct traversed as (_ & _ & Htx). clear -Htx coins_unsigned. induction Htx; constructor; [by eapply stake_counted|done].
  - rewrite <- Hef in Hr, Hs. rewrite Hu, <- Hs, <- Ht. rewrite <- Ht in Hr.
    apply (entity_tracks _ k (stake_shift_elsewhere k p) (fun _ => True) (controlled p) (2 ^ 64) l _ q _); try done.
    intros d e d' e' Hc <- _ Ea Hb. split; [done|]. rewrite stake_shift_here in *. by eapply account_moved.
Qed.

Lemma datum_block_step : Forall witnessed (mb_txs block) -> datums_tracked σ -> datums_tracked σ'.
Proof.
  intros Hw Ht k Hk. destruct applied as [He Hu]. destruct (He k) as [q Ha]. destruct (Ht k Hk) as [Hi Hv].
  destruct (crawl_queue _ _ _ _ _ _ k crawled) as (l & Hq & Hef & Hf). rewrite Hq in Ha.
  destruct (block_tracks (datum_shift k) (datum_weight k) (2 ^ 64) (datum_spent_counted k) ltac:(done) ltac:(done)
    ltac:(intros v; apply (datum_weight_range k v)) (s_utxos σ) i (WorkBlock.block w) block traversed) as [Hr Hs];
    [by destruct ledger|done|by destruct ledger| | |].
  - apply (bounded_le _ (fun _ => 1)); [intros v; apply (datum_weight_range k v)|by destruct ledger].
  - eapply Forall_impl; [exact Hw|]. intros mt. apply datum_counted.
  - rewrite <- Hef in Hr, Hs. rewrite Hu, <- Hs, <- Hv. rewrite <- Hv in Hr.
    apply (entity_tracks _ k (datum_shift_elsewhere k) referenced references (2 ^ 64) l _ q _); try done.
    intros d e d' e' Hc <- Hi' Ea Hb. rewrite datum_shift_here in *. by apply (datum_step d e d').
Qed.

End step.

(** *** Batches *)

(** The blocks of a batch are applied one by one to what a crawl queues for
    each. *)
Lemma compute_blocks_steps (P : Ledger -> Prop) (Q : MultiEraBlock -> Prop) env i :
  (forall dormancy block builder σ σ' w,
     crawl env (omap view_output i) (new_builder dormancy) block = Ret (Ok (builder, WorkBlock.deltas w)) ->
     block_step σ w σ' -> agrees (WorkBlock.block w) block -> resolves (s_utxos σ) i (WorkBlock.block w) ->
     ledger_block (s_utxos σ) (WorkBlock.block w) -> Q block -> P σ -> P σ') ->
  forall l dormancy l' σ h,
  compute_blocks env i dormancy l = Ret (Ok l') -> chain σ l' h ->
  Forall (fun w => agrees (WorkBlock.block w) (traverse (WorkBlock.raw w)) /\ Q (traverse (WorkBlock.raw w))) l ->
  resolves_all (s_utxos σ) i (WorkBlock.block <$> l) -> ledger_blocks (s_utxos σ) (WorkBlock.block <$> l) ->
  P σ -> Forall (fun x => P (snd x)) h.
Proof.
  intros Hstep. induction l as [|w l IH]; intros dormancy l' σ h E Hc Ha Hr Hl Hp; cbn [compute_blocks] in E.
  - injection E as <-. by destruct h.
  - apply rbind_Ret in E as ([builder d] & E1 & E). apply rbind_Ret in E as (u & _ & E).
    apply rbind_Ret in E as (l1 & E2 & E). injection E as <-. destruct h as [|[pt σ1] h]; [done|].
    destruct Hc as (_ & Hs & Hc). apply Forall_cons in Ha as [[Ha Hq] Has]. destruct Hr as [Hr Hrs], Hl as [Hl Hls].
    assert (Hp1 : P σ1) by (eapply Hstep with (2 := Hs); [exact E1|exact Ha|exact Hr|exact Hl|exact Hq|exact Hp]).
    constructor; [done|]. destruct Hs as [_ Hu]. cbn in Hu. rewrite <- Hu in Hrs, Hls. eapply IH; eauto.
Qed.

(** C3: the accounts record the value of the UTxO set: after every block of a
    batch, the value an account records at its base addresses, and the one it
    records at its pointer addresses, are what the unspent outputs with its
    credential hold, when they were before it. *)
Theorem accounts_record_utxos env i dormancy l l' σ h :
  compute_blocks env i dormancy l = Ret (Ok l') -> chain σ l' h ->
  Forall (fun w => agrees (WorkBlock.block w) (traverse (WorkBlock.raw w))) l ->
  resolves_all (s_utxos σ) i (WorkBlock.block <$> l) -> ledger_blocks (s_utxos σ) (WorkBlock.block <$> l) ->
  stake_tracked σ -> Forall (fun x => stake_tracked (snd x)) h.
Proof.
  intros E Hc Ha. eapply (compute_blocks_steps stake_tracked (fun _ => True)); [|exact E|exact Hc|].
  - intros. eapply stake_step; eauto.
  - eapply Forall_impl; [exact Ha|done].
Qed.

(** C17: the datums count the outputs that name them: when every datum an output
    names is among the witnesses of its transaction, after every block of a
    batch the reference count of a datum is the number of unspent outputs that
    name it, and a datum is stored exactly while there is one. *)
Theorem datums_count_references env i dormancy l l' σ h :
  compute_blocks env i dormancy l = Ret (Ok l') -> chain σ l' h ->
  Forall (fun w => agrees (WorkBlock.block w) (traverse (WorkBlock.raw w)) /\
                   Forall witnessed (mb_txs (traverse (WorkBlock.raw w)))) l ->
  resolves_all (s_utxos σ) i (WorkBlock.block <$> l) -> ledger_blocks (s_utxos σ) (WorkBlock.block <$> l) ->
  datums_tracked σ -> Forall (fun x => datums_tracked (snd x)) h.
Proof.
  intros E Hc Ha. eapply (compute_blocks_steps datums_tracked (fun m => Forall witnessed (mb_txs m))); [|exact E|exact Hc|exact Ha].
  intros. eapply datum_block_step; eauto.
Qed.

End tracking.
