(* ===== verification/Commits.v ===== *)
(** * What the commits of the boundary units leave

    The units of an epoch boundary stream the rows of a namespace, apply the
    queued deltas and write the results through one writer.  These lemmas say
    which rows such a writer leaves. *)

From S2P Require Import Prelude Lists Types ChainPoint EpochValue EntityDelta Eras PParams Forks Ratio Pots.
From S2P Require Import Accounts Pools DReps Datums Assets Pending Epochs Proposals Hacks Gov Ratify StateStore Shards.
From S2P Require Import Blocks PallasExtras RewardMap Wal Roll CardanoModel Codec Ewrap.
Open Scope Z_scope.

(** Inverts a step of a computation that returned [Ok]. *)
Ltac ok_step :=
  match goal with
  | H : rbind _ _ = Ret (Ok _) |- _ =>
      let a := fresh "a" in let E := fresh "E" in apply rbind_Ret in H as (a & E & H)
  | H : mbind _ _ = Ret (Ok _) |- _ =>
      let a := fresh "a" in let E := fresh "E" in apply bind_Ret in H as (a & E & H)
  | H : Ret (Ok _) = Ret (Ok _) |- _ => apply Ret_inj in H; injection H as H
  | H : Ret (Err _) = Ret (Ok _) |- _ => apply Ret_inj in H; discriminate H
  | H : lift _ = Ret (Ok _) |- _ => unfold lift in H
  | H : (match ?x with _ => _ end) = Ret (Ok _) |- _ => destruct x eqn:?
  end.
Ltac ok_inv := repeat ok_step.

Lemma default_one {A} (o : option (list A)) x : default [] o = [x] -> o = Some [x].
Proof. destruct o as [l|]; cbn; [by intros <-|done]. Qed.

(** ** The rows of a writer *)

Section commits.
Context {V S W : Type} `{!EntityCbor V, !StateStore V S W, BuildCfg, Pallas}.
Implicit Types (s : S) (w : W).

(** The row a commit of the writer would leave. *)
Definition seen (w : W) (s : S) (nk : NsKey) : option V := entities (exec_all (tables s) (pending w)) !! nk.

Lemma seen_start s nk : seen (start_writer s) s nk = entities (tables s) !! nk.
Proof. unfold seen. by rewrite start_writer_spec. Qed.

Lemma seen_commit w s nk : entities (tables (commit w s)) !! nk = seen w s nk.
Proof. unfold seen. by rewrite commit_spec. Qed.

Lemma seen_delete w s ns k nk : (ns, k) ≠ nk -> seen (delete_entity w ns k) s nk = seen w s nk.
Proof. intros Hn. unfold seen. rewrite delete_entity_spec, exec_all_app. cbn. by rewrite lookup_delete_ne. Qed.

Lemma seen_deletes {A} (f : A -> EntityKey) ns (l : list A) w s nk :
  ns ≠ fst nk -> seen (foldl (fun w x => delete_entity w ns (f x)) w l) s nk = seen w s nk.
Proof.
  intros Hn. revert w. induction l as [|x l IH]; intros w; cbn [foldl]; [done|].
  rewrite IH, seen_delete; [done|]. intros <-. done.
Qed.

Lemma seen_save w s ns k (e : option CardanoEntity.t) nk :
  typed ns e ->
  seen (save_entity_typed w ns k e) s nk =
  if decide ((ns, k) = nk) then snd ∘ EntityCodec.encode_entity <$> e else seen w s nk.
Proof.
  intros Ht. unfold seen. rewrite (pending_save w (ns, k)).
  - rewrite exec_all_app. destruct e as [x|]; cbn; case_decide as Hk; subst.
    + by rewrite lookup_insert_eq.
    + by rewrite lookup_insert_ne.
    + by rewrite lookup_delete_eq.
    + by rewrite lookup_delete_ne.
  - intros x ->. cbn. rewrite EntityCodec.encode_namespace. by apply Ht.
Qed.

(** Applying the queue of a key keeps the type of its entity. *)
Lemma apply_all_typed ns ds e e' :
  Forall (fun d => fst (CardanoDelta.key d) = ns) ds -> typed ns e -> apply_all ds e = Ret e' -> typed ns e'.
Proof.
  unfold apply_all. intros Hd. revert e. induction Hd as [|d ds Hk _ IH]; intros e Ht Ha; cbn [run_foldl] in Ha.
  { by apply Ret_inj in Ha as <-. }
  apply bind_Ret in Ha as (e1 & H1' & Ha). apply bind_Ret in H1' as ([d' e2] & H2' & E). apply Ret_inj in E as <-.
  eapply IH; [|done]. apply CardanoDelta.typed_apply in H2'. by rewrite Hk in H2'.
Qed.

Lemma wf_queue_ns (ds : WorkDeltas.t CardanoDelta.t) nk l :
  WorkDeltas.wf ds -> ds !! nk = Some l -> Forall (fun d => fst (CardanoDelta.key d) = fst nk) l.
Proof. intros Hw Hl. apply Forall_forall. intros d Hd. exact (f_equal fst (Hw _ _ _ Hl Hd)). Qed.

Lemma wf_delete (ds : WorkDeltas.t CardanoDelta.t) nk : WorkDeltas.wf ds -> WorkDeltas.wf (delete nk ds).
Proof. intros Hw k l d [_ Hl]%lookup_delete_Some. by apply Hw. Qed.

(** Streaming a namespace touches neither the rows nor the queues of another. *)
Lemma stream_other (T : Type) `{!Entity T, !Minicbor T V, !EntityVariant T} ds s w range ds' w' nk :
  NS T ≠ fst nk -> WorkDeltas.wf ds ->
  stream_and_apply_namespace T ds s w range = Ret (Ok (ds', w')) ->
  WorkDeltas.wf ds' /\ ds' !! nk = ds !! nk /\ seen w' s nk = seen w s nk.
Proof.
  intros Hn Hw Hs. unfold stream_and_apply_namespace in Hs.
  refine (for_records_inv (fun a => WorkDeltas.wf (fst a) /\ fst a !! nk = ds !! nk /\ seen (snd a) s nk = seen w s nk)
            _ _ _ _ _ _ Hs); [|done].
  intros [ds1 w1] [k x] [ds2 w2] _ (Hw1 & Hd1 & Hs1) Hx. cbn [fst snd] in *.
  destruct (ds1 !! (NS T, k)) as [l|] eqn:Hl; [|by apply Ret_inj in Hx; injection Hx as <- <-].
  apply bind_Ret in Hx as (e & He & Hx). apply Ret_inj in Hx. injection Hx as <- <-.
  assert (Hne : (NS T, k) ≠ nk) by (by intros <-).
  split; [by apply wf_delete|]. split; [by rewrite lookup_delete_ne|].
  rewrite seen_save, decide_False; [done|done|].
  eapply apply_all_typed; [by eapply (wf_queue_ns ds1 (NS T, k))| |done].
  apply into_namespace.
Qed.

(** *** The rows a stream visits *)

(** One record of the stream. *)
Definition stream_step (T : Type) `{!Entity T, !Minicbor T V, !EntityVariant T}
    (acc : WorkDeltas.t CardanoDelta.t * W) (x : EntityKey * T) : run (result ChainError (WorkDeltas.t CardanoDelta.t * W)) :=
  let '(ds, w) := acc in
  let nk := (NS T, fst x) in
  match ds !! nk with
  | Some to_apply =>
      e ← apply_all to_apply (Some (into (snd x)));
      Ret (Ok (delete nk ds, save_entity_typed w (NS T) (fst x) e))
  | None => Ret (Ok (ds, w))
  end.

(** What applying the queue of a row makes of it. *)
Definition streamed (T : Type) `{!Entity T, !EntityVariant T} (q : option (list CardanoDelta.t)) (x : T)
    (before after : option V) : Prop :=
  match q with
  | Some l => exists e, apply_all l (Some (into x)) = Ret e /\ after = snd ∘ EntityCodec.encode_entity <$> e
  | None => after = before
  end.

Lemma stream_step_spec (T : Type) `{!Entity T, !Minicbor T V, !EntityVariant T} s ds w k x ds' w' :
  WorkDeltas.wf ds -> stream_step T (ds, w) (k, x) = Ret (Ok (ds', w')) ->
  WorkDeltas.wf ds' /\ ds' !! (NS T, k) = None /\
  streamed T (ds !! (NS T, k)) x (seen w s (NS T, k)) (seen w' s (NS T, k)) /\
  forall nk, nk ≠ (NS T, k) -> ds' !! nk = ds !! nk /\ seen w' s nk = seen w s nk.
Proof.
  intros Hw Hx. unfold stream_step in Hx. cbn [fst snd] in Hx. unfold streamed.
  destruct (ds !! (NS T, k)) as [l|] eqn:Hl; [|by apply Ret_inj in Hx; injection Hx as <- <-].
  apply bind_Ret in Hx as (e & He & Hx). apply Ret_inj in Hx. injection Hx as <- <-.
  assert (Ht : typed (NS T) e).
  { eapply apply_all_typed; [by eapply (wf_queue_ns ds (NS T, k))| |done]. apply into_namespace. }
  split; [by apply wf_delete|]. split; [by rewrite lookup_delete_eq|]. split.
  - exists e. split; [done|]. by rewrite seen_save, decide_True.
  - intros nk Hn. rewrite lookup_delete_ne, seen_save, decide_False by done. done.
Qed.

(** A row of the stream gets its queue, once, and no other row changes. *)
Lemma stream_list (T : Type) `{!Entity T, !Minicbor T V, !EntityVariant T} s (l : list (EntityKey * T)) ds w ds' w' :
  WorkDeltas.wf ds -> for_each (stream_step T) (ds, w) l = Ret (Ok (ds', w')) ->
  WorkDeltas.wf ds' /\
  (forall nk, (forall x, fst nk = NS T -> (snd nk, x) ∉ l) -> ds' !! nk = ds !! nk /\ seen w' s nk = seen w s nk) /\
  (NoDup l.*1 -> forall k x, (k, x) ∈ l ->
     ds' !! (NS T, k) = None /\ streamed T (ds !! (NS T, k)) x (seen w s (NS T, k)) (seen w' s (NS T, k))).
Proof.
  revert ds w. induction l as [|[k x] l IH]; intros ds w Hw Hl; cbn [for_each] in Hl.
  { apply Ret_inj in Hl. injection Hl as <- <-. split; [done|]. split; [done|].
    intros _ k x Hk. by apply not_elem_of_nil in Hk. }
  apply rbind_Ret in Hl as ([ds1 w1] & H1' & Hl). apply (stream_step_spec T s) in H1' as (Hw1 & Hd1 & Hs1 & Ho1); [|done].
  destruct (IH ds1 w1 Hw1 Hl) as (Hw2 & Ho2 & Hs2). split; [done|]. split.
  - intros nk Hn. destruct (Ho2 nk) as [-> ->]; [intros y Hy Hi; apply (Hn y Hy); by right|]. apply Ho1.
    intros ->. apply (Hn x eq_refl). left.
  - cbn. intros [Hk Hnd]%NoDup_cons k' x' Hi. apply elem_of_cons in Hi as [[= -> ->]|Hi].
    + destruct (Ho2 (NS T, k)) as [-> ->]; [|done]. intros y _ Hi. apply Hk, list_elem_of_fmap. by exists (k, y).
    + assert ((NS T, k') ≠ (NS T, k)) as Hne by (intros [= ->]; apply Hk, list_elem_of_fmap; by exists (k, x')).
      destruct (Ho1 _ Hne) as [<- <-]. by apply Hs2.
Qed.

Lemma decoded_rows (T : Type) `{!Minicbor T V} {A} (f : A -> EntityKey * T -> run (result ChainError A)) l a a' :
  for_records f a (decode_row T <$> l) = Ret (Ok a') ->
  exists l', for_each f a l' = Ret (Ok a') /\ l'.*1 = l.*1 /\
    forall k x, (k, x) ∈ l' <-> exists v, (k, v) ∈ l /\ decode (T := T) v = Some x.
Proof.
  revert a. induction l as [|[k v] l IH]; intros a Hf; cbn in Hf.
  { exists []. split; [done|]. split; [done|]. intros k x. rewrite elem_of_nil. split; [done|].
    intros (v & Hv & _). by apply not_elem_of_nil in Hv. }
  unfold decode_row in Hf. cbn in Hf. destruct (decode v) as [x|] eqn:Hv; cbn in Hf; [|done].
  apply rbind_Ret in Hf as (a1 & Ha & Hf). destruct (IH a1 Hf) as (l' & Hl' & Hk & Hi).
  exists ((k, x) :: l'). cbn. rewrite Ha, Hk. cbn. split; [done|]. split; [done|]. intros k' x'. rewrite elem_of_cons, Hi. split.
  - intros [[= -> ->]|(v' & Hv' & Hd)]; [exists v; split; [left|done]|exists v'; split; [by right|done]].
  - intros (v' & Hv' & Hd). apply elem_of_cons in Hv' as [[= -> ->]|Hv']; [left; congruence|right; eauto].
Qed.

Lemma stream_rows (T : Type) `{!Entity T, !Minicbor T V, !EntityVariant T} ds s w range ds' w' :
  WorkDeltas.wf ds -> stream_and_apply_namespace T ds s w range = Ret (Ok (ds', w')) ->
  WorkDeltas.wf ds' /\
  (forall k, key_in_range (default full_range range) k = false ->
     ds' !! (NS T, k) = ds !! (NS T, k) /\ seen w' s (NS T, k) = seen w s (NS T, k)) /\
  (forall k v x, entities (tables s) !! (NS T, k) = Some v -> decode (T := T) v = Some x ->
     key_in_range (default full_range range) k = true ->
     ds' !! (NS T, k) = None /\ streamed T (ds !! (NS T, k)) x (seen w s (NS T, k)) (seen w' s (NS T, k))).
Proof.
  intros Hw Hs. apply decoded_rows in Hs as (l & Hl & Hk & Hi).
  destruct (stream_list T s l ds w ds' w' Hw Hl) as (Hw' & Ho & Hs). split; [done|]. split.
  - intros k Hr. apply Ho. intros x _ Hx. apply Hi in Hx as (v & Hv & _).
    apply iter_entities_spec in Hv as [_ Hv]. cbn in Hv. congruence.
  - intros k v x Hv Hd Hr. apply Hs; [rewrite Hk; apply iter_entities_nodup|].
    apply Hi. exists v. split; [|done]. by apply iter_entities_spec.
Qed.

(** A key with no row gets none. *)
Lemma stream_absent (T : Type) `{!Entity T, !Minicbor T V, !EntityVariant T} ds s w range ds' w' k :
  WorkDeltas.wf ds -> stream_and_apply_namespace T ds s w range = Ret (Ok (ds', w')) ->
  entities (tables s) !! (NS T, k) = None -> seen w' s (NS T, k) = seen w s (NS T, k).
Proof.
  intros Hw Hs Hn. apply decoded_rows in Hs as (l & Hl & Hk & Hi).
  destruct (stream_list T s l ds w ds' w' Hw Hl) as (_ & Ho & _). apply Ho. intros x _ Hx.
  apply Hi in Hx as (v & Hv & _). apply iter_entities_spec in Hv as [Hv _]. cbn in Hv. congruence.
Qed.

(** Streaming a namespace with nothing queued does nothing. *)
Lemma stream_idle (T : Type) `{!Entity T, !Minicbor T V, !EntityVariant T} ds s w range ds' w' :
  (forall k, ds !! (NS T, k) = None) ->
  stream_and_apply_namespace T ds s w range = Ret (Ok (ds', w')) -> ds' = ds /\ w' = w.
Proof.
  intros Hn Hs. enough ((ds', w') = (ds, w)) by (split; congruence).
  refine (for_records_inv (fun a => a = (ds, w)) _ _ _ _ _ eq_refl Hs).
  intros a x a' _ -> Hx. cbv zeta beta iota in Hx. rewrite Hn in Hx. apply Ret_inj in Hx. by injection Hx as <-.
Qed.

Lemma singleton_idle (T : Type) `{!Entity T, !Minicbor T V, !EntityVariant T} nk ds s w r ds' w' :
  ds !! nk = None -> apply_singleton T nk ds s w = Ret (Ok (r, ds', w')) -> ds' = ds /\ w' = w.
Proof. intros Hn Hs. unfold apply_singleton in Hs. rewrite Hn in Hs. apply Ret_inj in Hs. by injection Hs as _ <- <-. Qed.

(** Applying the queue of a singleton leaves its result, and touches no other row. *)
Lemma singleton_spec (T : Type) `{!Entity T, !Minicbor T V, !EntityVariant T} nk ds s w r ds' w' :
  fst nk = NS T -> WorkDeltas.wf ds ->
  apply_singleton T nk ds s w = Ret (Ok (r, ds', w')) ->
  WorkDeltas.wf ds' /\ (forall k, k ≠ nk -> ds' !! k = ds !! k /\ seen w' s k = seen w s k) /\
  (forall l, ds !! nk = Some l -> exists e0 e, read_typed T s (snd nk) = Ret (Ok e0) /\
     apply_all l (option_map into e0) = Ret e /\ seen w' s nk = snd ∘ EntityCodec.encode_entity <$> e).
Proof.
  intros Hk Hw Ha. unfold apply_singleton in Ha. destruct nk as [ns key]. cbn in Hk. subst ns.
  destruct (ds !! _) as [l|] eqn:Hl; [|apply Ret_inj in Ha; by injection Ha as <- <- <-].
  apply rbind_Ret in Ha as (e0 & Hr & Ha). apply bind_Ret in Ha as (e & He & Ha).
  apply Ret_inj in Ha. injection Ha as <- <- <-. cbn [snd] in *.
  assert (Ht : typed (NS T) e).
  { eapply apply_all_typed; [by eapply (wf_queue_ns ds (NS T, key))| |done]. destruct e0; [apply into_namespace|done]. }
  split; [by apply wf_delete|]. split.
  - intros k Hn. rewrite seen_save, decide_False, lookup_delete_ne by done. done.
  - intros l' [= <-]. exists e0, e. rewrite seen_save, decide_True by done. done.
Qed.

(** *** Cursor and UTxO set

    Streams and singletons write entities only. *)

Definition rest_of (t : Tables V) : option ChainPoint.t * UtxoMap := (cursor t, utxos t).

Definition after (w : W) (s : S) : Tables V := exec_all (tables s) (pending w).

Lemma rest_start s : rest_of (after (start_writer s) s) = rest_of (tables s).
Proof. unfold after. by rewrite start_writer_spec. Qed.

Lemma rest_save w s ns k (e : option CardanoEntity.t) :
  rest_of (after (save_entity_typed w ns k e) s) = rest_of (after w s).
Proof.
  unfold after, save_entity_typed. destruct e as [x|].
  - destruct (StateStore.encode_entity x). by rewrite write_entity_spec, exec_all_app.
  - by rewrite delete_entity_spec, exec_all_app.
Qed.

Lemma rest_stream (T : Type) `{!Entity T, !Minicbor T V, !EntityVariant T} ds s w range ds' w' :
  stream_and_apply_namespace T ds s w range = Ret (Ok (ds', w')) -> rest_of (after w' s) = rest_of (after w s).
Proof.
  intros Hs. refine (for_records_inv (fun a => rest_of (after (snd a) s) = rest_of (after w s)) _ _ _ _ _ _ Hs); [|done].
  intros [ds1 w1] [k x] [ds2 w2] _ Hi Hx. cbn [fst snd] in *. cbv zeta in Hx. destruct (ds1 !! (NS T, k)).
  - apply bind_Ret in Hx as (e & _ & Hx). apply Ret_inj in Hx. injection Hx as <- <-. by rewrite rest_save.
  - apply Ret_inj in Hx. by injection Hx as <- <-.
Qed.

Lemma rest_singleton (T : Type) `{!Entity T, !Minicbor T V, !EntityVariant T} nk ds s w r ds' w' :
  apply_singleton T nk ds s w = Ret (Ok (r, ds', w')) -> rest_of (after w' s) = rest_of (after w s).
Proof.
  intros Ha. unfold apply_singleton in Ha. destruct (ds !! nk).
  - apply rbind_Ret in Ha as (e & _ & Ha). apply bind_Ret in Ha as (e' & _ & Ha). apply Ret_inj in Ha.
    injection Ha as <- <- <-. apply rest_save.
  - apply Ret_inj in Ha. by injection Ha as <- <- <-.
Qed.

Lemma seen_write w s ns k v nk :
  seen (write_entity w ns k v) s nk = if decide ((ns, k) = nk) then Some v else seen w s nk.
Proof.
  unfold seen. rewrite write_entity_spec, exec_all_app. cbn. case_decide as Hk.
  - by rewrite Hk, lookup_insert_eq.
  - by rewrite lookup_insert_ne.
Qed.

Lemma rest_write w s ns k v : rest_of (after (write_entity w ns k v) s) = rest_of (after w s).
Proof. unfold after. by rewrite write_entity_spec, exec_all_app. Qed.

Lemma after_utxoset w s d :
  after (apply_utxoset w d) s =
  mkTables (cursor (after w s)) (entities (after w s)) (utxos (exec_all (after w s) (utxoset_ops d))).
Proof. unfold after. rewrite apply_utxoset_spec, exec_all_app, exec_utxoset. done. Qed.

Lemma after_set_cursor w s p : after (set_cursor w p) s = mkTables (Some p) (entities (after w s)) (utxos (after w s)).
Proof. unfold after. by rewrite set_cursor_spec, exec_all_app. Qed.

(** *** Queues *)

Lemma foldl_queue (ds : WorkDeltas.t CardanoDelta.t) l nk :
  default [] (foldl WorkDeltas.add_for_entity ds l !! nk) = default [] (ds !! nk) ++ queue nk l.
Proof.
  revert ds. induction l as [|d l IH]; intros ds; cbn [foldl]; [by rewrite app_nil_r|].
  rewrite IH. change (d :: l) with ([d] ++ l). rewrite queue_app, app_assoc, queue_one. f_equal.
  unfold WorkDeltas.add_for_entity. cbn. case_decide as Hk.
  - by rewrite Hk, lookup_insert_eq.
  - by rewrite lookup_insert_ne, app_nil_r.
Qed.

(** No queue is empty. *)
Lemma foldl_nonempty (ds : WorkDeltas.t CardanoDelta.t) l nk :
  ds !! nk ≠ Some [] -> foldl WorkDeltas.add_for_entity ds l !! nk ≠ Some [].
Proof.
  revert ds. induction l as [|d l IH]; intros ds Hn; cbn [foldl]; [done|]. apply IH. unfold WorkDeltas.add_for_entity.
  destruct (decide (key d = nk)) as [->|Hk]; [|by rewrite lookup_insert_ne].
  rewrite lookup_insert_eq. intros [= E]. by apply app_eq_nil in E as [_ ?].
Qed.

Lemma foldl_wf (ds : WorkDeltas.t CardanoDelta.t) l :
  WorkDeltas.wf ds -> WorkDeltas.wf (foldl WorkDeltas.add_for_entity ds l).
Proof. revert ds. induction l as [|d l IH]; intros ds Hw; cbn [foldl]; [done|]. by apply IH, WorkDeltas.wf_add. Qed.

Lemma read_typed_spec (T : Type) `{!Entity T, !Minicbor T V} s key :
  read_typed T s key = Ret match entities (tables s) !! (NS T, key) with
                           | None => Ok None
                           | Some v => match decode (T := T) v with
                                       | Some e => Ok (Some e)
                                       | None => Err (ChainState EntityDecodingError)
                                       end
                           end.
Proof. unfold read_typed. rewrite read_entities_spec. done. Qed.

Lemma load_epoch_seen s e :
  load_epoch s = Ret (Ok e) <->
  exists v, entities (tables s) !! EpochState.ns_key = Some v /\ decode (T := EpochState.t) v = Some e.
Proof.
  unfold load_epoch. rewrite read_typed_spec. change (NS EpochState.t, snd EpochState.ns_key) with EpochState.ns_key.
  destruct (entities (tables s) !! EpochState.ns_key) as [v|]; cbn; [|split; [done|by intros (? & ? & _)]].
  destruct (decode v) as [x|] eqn:Hv; cbn.
  - split; [intros Hx; apply Ret_inj in Hx; injection Hx as <-; eauto|]. intros (? & [= <-] & Hx). congruence.
  - split; [intros Hx; by apply Ret_inj in Hx|]. intros (? & [= <-] & Hx). congruence.
Qed.

Lemma shard_ranges_bound i n r : shard_key_ranges i n = Ret r -> 0 ≤ i -> i < n ≤ PREFIX_SPACE.
Proof.
  unfold shard_key_ranges. intros Hr Hi. apply bind_Ret in Hr as (? & Hv & Hr). apply bind_Ret in Hr as (? & Hl & _).
  apply assert_Ret in Hv, Hl. apply Z.ltb_lt in Hl. split; [done|].
  unfold validate_total_shards in Hv. apply andb_true_iff in Hv as [Hn Hv]. apply negb_true_iff, Z.eqb_neq in Hn.
  apply Z.eqb_eq, Z.mod_divide in Hv; [|done]. apply Z.divide_pos_le in Hv; [done|]. by unfold PREFIX_SPACE.
Qed.

End commits.
