(* ===== verification/EwrapDemo.v ===== *)
(** * A concrete boundary

    A store at the end of epoch 100 with two registered accounts and one that
    is not, rewards pending for each, two MIRs, and the proposals of the
    concrete ratification run. *)

From S2P Require Import Prelude Lists Types ChainPoint EpochValue EntityDelta Eras PParams Forks Ratio Pots.
From S2P Require Import Accounts Pools DReps Datums Assets Pending Epochs Proposals Hacks Gov Ratify RatifyRule StateStore Shards.
From S2P Require Import Blocks PallasExtras RewardMap Wal Roll CardanoModel Codec Ewrap.
Open Scope Z_scope.

(** The value of a computation that is known to succeed. *)
Definition succeeds_with {A} (m : run (result ChainError A)) : bool :=
  match m with Ret (Ok _) => true | _ => false end.

Definition the {A} (m : run (result ChainError A)) : succeeds_with m = true -> A :=
  match m with
  | Ret (Ok a) => fun _ => a
  | Ret (Err _) | Panic => fun H => False_rect A (Bool.diff_false_true H)
  end.

Lemma the_spec {A} (m : run (result ChainError A)) H : m = Ret (Ok (the m H)).
Proof. by destruct m as [[a|e]|]. Qed.

Module BoundaryDemo.

#[export] Existing Instance Memory.store.
#[export] Instance cfg : BuildCfg := cfg_debug.
#[export] Instance pallas : Pallas := demo_pallas.
#[export] Instance cbor : EntityCbor CardanoEntity.t := demo_cbor.
#[export] Instance accounts : Addresses := RewardDemo.accounts.

Definition cred (n : Z) : StakeCredential := AddrKeyhash (replicate 28 n).

Definition account (n : Z) (registered : bool) : AccountState.t :=
  AccountState.mk (if registered then Some 10 else None)
    (EpochValue.mk (EpochAt 100) None (Some (Stake.mk (1000 * n) 0 0 0)) None None None)
    (EpochValue.with_live 100 (PoolDelegated RatifyDemo.pool)) (EpochValue.with_live 100 (DRepDelegated DRepAbstain))
    None None (cred n) None.

Definition era : EraSummary.t := EraSummary.mk (EraBoundary.mk 0 0 0) None 100 1 10.

Definition epoch : EpochState.t :=
  EpochState.default_
    <| EpochState.number := 100 |>
    <| EpochState.initial_pots := Pots.default_ <| Pots.treasury := 1000 |> |>
    <| EpochState.rolling := EpochValue.with_live 100 RollingStats.default_ |>
    <| EpochState.pparams := EpochValue.with_live 100 (RatifyInput.pparams RatifyDemo.input) |>
    <| EpochState.end_ := Some EndStats.default_ |>.

Definition gov : GovState.t :=
  GovState.default_
    <| GovState.committee := RatifyInput.committee RatifyDemo.input |>
    <| GovState.committee_auths := {[RatifyDemo.cold := [(5, HotCredential RatifyDemo.hot)]]} |>
    <| GovState.active_since := Some 50 |>
    <| GovState.prev_distr := Some (GovDistr.mk 99 16 16 (RatifyInput.drep_distr RatifyDemo.input)
         (RatifyInput.pool_distr RatifyDemo.input) (RatifyInput.pool_total RatifyDemo.input)) |>.

Definition proposal (p : RatifyProposal.t) : ProposalState.t :=
  ProposalState.mk 9000 (transaction_id (RatifyProposal.id p)) (action_index (RatifyProposal.id p))
    (RatifyProposal.action p) (Some (RatifyProposal.expires_after p)) None None (Some 500) (Some (cred 1)) (Some 90)
    (RatifyProposal.parent p) (action_purpose (RatifyProposal.action p)) None
    {[RatifyDemo.hot := [(9000, VYes)]]} {[RatifyDemo.voter := [(9000, VYes)]]} {[RatifyDemo.pool := [(9000, VYes)]]}.

Definition drep : DRepState.t :=
  (DRepState.new (DRepKey (replicate 28 3)))
    <| DRepState.registered_at := Some (5, 0) |>
    <| DRepState.expiry := Some (DRepExpiry.new 200 1) |>.

Definition rows : list (NsKey * CardanoEntity.t) :=
  [ ((NS EraSummary.t, entity_key_from [0; 10]), CardanoEntity.EEraSummary era);
    (EpochState.ns_key, CardanoEntity.EEpochState epoch);
    (GovState.ns_key, CardanoEntity.EGovState gov);
    ((NS DRepState.t, drep_to_entity_key (DRepState.identifier drep)), CardanoEntity.EDRepState drep) ] ++
  ((fun x => ((NS AccountState.t, credential_to_key (cred (fst x))),
      CardanoEntity.EAccountState (account (fst x) (snd x)))) <$> [(1, true); (2, true); (3, false)]) ++
  ((fun x => ((NS PendingRewardState.t, credential_to_key (cred (fst x))),
      CardanoEntity.EPendingRewardState (PendingRewardState.mk (cred (fst x)) (snd x) [(RatifyDemo.pool, 7)]
        [(RatifyDemo.pool, 10 * fst x)]))) <$> [(1, true); (3, true); (4, false)]) ++
  ((fun n => ((NS PendingMirState.t, credential_to_key (cred n)),
      CardanoEntity.EPendingMirState (PendingMirState.mk (cred n) (100 * n) (1000 * n)))) <$> [2; 3]) ++
  ((fun p => ((NS ProposalState.t, ProposalState.key (proposal p)), CardanoEntity.EProposalState (proposal p)))
     <$> RatifyInput.proposals RatifyDemo.input).

Definition store : Tables CardanoEntity.t := mkTables None (list_to_map rows) ∅.

(** The whole account space as one shard. *)
Definition ranges : list (EntityKey * EntityKey) :=
  match shard_key_ranges 0 1 with Ret r => r | Panic => [] end.

(** The boundary when the loop over the accounts starts. *)
Definition start_of_shard : run (result ChainError BoundaryWork.t) :=
  b ←? new_empty store 1; load_pending_rewards_ranges b store ranges.

Lemma start_succeeds : succeeds_with start_of_shard = true.
Proof. by vm_compute. Qed.

Definition started : BoundaryWork.t := the start_of_shard start_succeeds.

Lemma shard_succeeds : succeeds_with (compute_shard_deltas started store ranges 0 1) = true.
Proof. by vm_compute. Qed.

Definition shard_done : BoundaryWork.t := the _ shard_succeeds.

(** The boundary when the global pass starts. *)
Lemma empty_succeeds : succeeds_with (new_empty store 1) = true.
Proof. by vm_compute. Qed.

Definition opened : BoundaryWork.t := the _ empty_succeeds.

Lemma mirs_succeed : succeeds_with (process_pending_mirs opened store) = true.
Proof. by vm_compute. Qed.

Definition mirs_done : BoundaryWork.t := the _ mirs_succeed.

End BoundaryDemo.
