(* ===== verification/Submit.v ===== *)
(** * Submitting transactions (core/src/mempool.rs, core/src/submit.rs,
    core/src/sync.rs)

    The view of the UTxO set that takes the mempool into account, the
    validation and reception of a transaction, and the updates a block or a
    rollback makes to the mempool, over any backend that implements the
    contract of [Mempool.v]. *)

From S2P Require Import Prelude Types ChainPoint EpochValue EntityDelta Eras PParams Forks StateStore Blocks PallasExtras CardanoModel Codec.
From S2P Require Import Epochs Wal Mempool RedbMempool Ewrap Crawl Validate EwrapDemo.
Open Scope Z_scope.

(** ** The UTxO set as the mempool leaves it *)

Section utxos.
Context {R M : Type} `{BuildCfg, TxDecoder, !Store.MempoolStore R M}.

Definition all_txs (mempool : M) : list (MempoolTx.t R) :=
  Store.peek_pending mempool ++ Store.peek_inflight mempool.

(** The decodable transactions among them; the others are skipped. *)
Definition decoded (mempool : M) : list Tx :=
  omap (fun mtx => decode_payload (MempoolTx.payload mtx)) (all_txs mempool).

(** The references of the outputs of a transaction. *)
Definition outputs (tx : Tx) : list (TxoRef * EraCbor) :=
  (fun o => ((tx_hash tx, as_u 32 o.1), o.2)) <$> produces tx.

Definition scan_mempool_utxos (predicate : EraCbor -> bool) (mempool : M) : gset (list Z * Z) :=
  foldl (fun refs tx =>
    foldl (fun refs (o : TxoRef * EraCbor) => if predicate o.2 then {[o.1]} ∪ refs else refs)
      refs (outputs tx)) ∅ (decoded mempool).

Definition exclude_inflight_stxis (refs : gset (list Z * Z)) (mempool : M) : gset (list Z * Z) :=
  foldl (fun refs tx => foldl (fun refs r => refs ∖ {[input_ref r]}) refs (consumes tx))
    refs (decoded mempool).

(** One output of the loop of [select_mempool_utxos]: a reference that is still
    wanted is taken. *)
Definition select_one (s : gset (list Z * Z) * UtxoMap) (o : TxoRef * EraCbor) :
    gset (list Z * Z) * UtxoMap :=
  if bool_decide (o.1 ∈ s.1) then (s.1 ∖ {[o.1]}, <[o.1 := o.2]> s.2) else s.

Definition select_mempool_utxos (refs : gset (list Z * Z)) (mempool : M) :
    gset (list Z * Z) * UtxoMap :=
  foldl (fun s tx => foldl select_one s (outputs tx)) (refs, ∅) (decoded mempool).

(** [indexed] is what the index gives for the tag. *)
Definition get_utxos_by_tag (indexed : gset (list Z * Z)) (predicate : EraCbor -> bool) (mempool : M) :
    gset (list Z * Z) :=
  exclude_inflight_stxis (indexed ∪ scan_mempool_utxos predicate mempool) mempool.

Section state.
Context {V S W : Type} `{!StateStore V S W}.

Definition get_utxos_aware (state : S) (mempool : M) (refs : gset (list Z * Z)) : UtxoMap :=
  let refs := exclude_inflight_stxis refs mempool in
  let sel := select_mempool_utxos refs mempool in
  sel.2 ∪ get_utxos state (elements sel.1).

Context {T : Type} `{!EntityCbor V, Pallas, !Chrono T, !Validator T R}.

(** [SubmitExt::validate_tx]: the tip is the cursor of the state. *)
Definition validate_aware (cbor : bytes) (state : S) (mempool : M) (g : Genesis) :
    run (result SubmitError (MempoolTx.t R)) :=
  validate_tx cbor state (get_utxos_aware state mempool) (read_cursor state) g.

(** [receive_tx], under the submission lock. *)
Definition receive_tx (cbor : bytes) (state : S) (mempool : M) (g : Genesis) :
    run (result SubmitError (TxHash * M * list (MempoolTx.t R))) :=
  tx ←? validate_aware cbor state mempool g;
  r ← Store.receive mempool tx;
  m ←? Ret (map_err SubmitMempool r);
  Ret (Ok (MempoolTx.hash tx, m.1, m.2)).

End state.
End utxos.

(** ** Blocks and rollbacks (core/src/sync.rs) *)

Definition MEMPOOL_FINALIZE_THRESHOLD : Z := 6.
Definition MEMPOOL_DROP_THRESHOLD : Z := 2.

Section sync.
Context {R M : Type} `{BuildCfg, !Store.MempoolStore R M}.

(** A failed update is logged and skipped. *)
Definition notify (point : ChainPoint.t) (seen unseen : list TxHash) (s : M * list (MempoolTx.t R)) :
    run (M * list (MempoolTx.t R)) :=
  r ← Store.confirm point seen unseen MEMPOOL_FINALIZE_THRESHOLD MEMPOOL_DROP_THRESHOLD s.1;
  Ret (match r with Ok (m, ev) => (m, s.2 ++ ev) | Err _ => s end).

(** [update_mempool]: the blocks of a work unit, each with its transactions. *)
Definition update_mempool (updates : list (ChainPoint.t * list TxHash)) (s : M * list (MempoolTx.t R)) :
    run (M * list (MempoolTx.t R)) :=
  run_foldl (fun s u => notify u.1 u.2 [] s) s updates.

(** The updates of [rollback]: the undone blocks, the last one first. *)
Definition rollback_mempool (undone : list (ChainPoint.t * list TxHash)) (s : M * list (MempoolTx.t R)) :
    run (M * list (MempoolTx.t R)) :=
  run_foldl (fun s u => notify u.1 [] u.2 s) s undone.

End sync.

(** ** What the mempool-aware view is *)

Section view.
Context {R M : Type} `{BuildCfg, TxDecoder, !Store.MempoolStore R M}.

(** The inputs of a transaction, as references. *)
Definition inputs (tx : Tx) : list TxoRef := input_ref <$> consumes tx.

(** What the tracked transactions spend and create. *)
Definition spent (mempool : M) : list TxoRef := decoded mempool ≫= inputs.
Definition created (mempool : M) : list (TxoRef * EraCbor) := decoded mempool ≫= outputs.

Lemma foldl_nested {A B C} (f : A -> C -> A) (g : B -> list C) (a : A) (l : list B) :
  foldl (fun a x => foldl f a (g x)) a l = foldl f a (l ≫= g).
Proof.
  revert a; induction l as [|x l IH]; intros a; [done|]. cbn. rewrite IH. symmetry.
  apply foldl_app.
Qed.

Lemma exclude_spec refs mempool r :
  r ∈ exclude_inflight_stxis refs mempool <-> r ∈ refs /\ r ∉ spent mempool.
Proof.
  unfold exclude_inflight_stxis, spent.
  assert (He : forall tx (s : gset (list Z * Z)),
    foldl (fun refs r => refs ∖ {[input_ref r]}) s (consumes tx) = foldl (fun refs r => refs ∖ {[r]}) s (inputs tx)).
  { intros tx. unfold inputs. induction (consumes tx) as [|x l IH]; intros s; [done|]. cbn. apply IH. }
  assert (Hf : forall l (s : gset (list Z * Z)), r ∈ foldl (fun refs r => refs ∖ {[r]}) s l <-> r ∈ s /\ r ∉ l).
  { induction l as [|x l IH]; intros s; cbn; [set_solver|]. rewrite IH. set_solver. }
  rewrite <- Hf, <- foldl_nested. clear Hf. revert refs.
  induction (decoded mempool) as [|tx l IH]; intros refs; [done|]. cbn. by rewrite He, IH.
Qed.

Lemma select_spec outs : forall (s : gset (list Z * Z) * UtxoMap) r,
  let first := (list_to_map outs : UtxoMap) !! r in
  (r ∈ (foldl select_one s outs).1 <-> r ∈ s.1 /\ first = None) /\
  (foldl select_one s outs).2 !! r =
    if bool_decide (r ∈ s.1) then match first with Some v => Some v | None => s.2 !! r end else s.2 !! r.
Proof.
  induction outs as [|[k v] outs IH]; intros s r; cbn [foldl].
  { cbn. split; [set_solver|]. by case_bool_decide. }
  destruct (IH (select_one s (k, v)) r) as [Hin1 Hin2]. cbn zeta in Hin1, Hin2 |- *. rewrite Hin1, Hin2. clear IH Hin1 Hin2.
  cbn [list_to_map foldr]. unfold select_one. cbn [fst snd].
  destruct (decide (k = r)) as [->|Hk].
  - rewrite lookup_insert_eq. case_bool_decide as Hin; cbn [fst snd].
    + split; [set_solver|]. rewrite bool_decide_false by set_solver. apply lookup_insert_eq.
    + split; [naive_solver|]. by rewrite bool_decide_false.
  - rewrite lookup_insert_ne by done. case_bool_decide as Hin; cbn [fst snd]; [|done].
    split; [set_solver|]. rewrite lookup_insert_ne by done. apply if_bool_decide_iff. set_solver.
Qed.

Section state.
Context {V S W : Type} `{!StateStore V S W}.

(** The reference definition of the view: what the mempool spends is gone, what
    it creates is there. *)
Definition view_lookup (state : S) (mempool : M) (r : TxoRef) : option EraCbor :=
  if bool_decide (r ∈ spent mempool) then None
  else match (list_to_map (created mempool) : UtxoMap) !! r with
       | Some v => Some v
       | None => utxos (tables state) !! r
       end.

Lemma view_get_utxos state mempool refs r :
  get_utxos_aware state mempool refs !! r =
  if bool_decide (r ∈ refs) then view_lookup state mempool r else None.
Proof.
  unfold get_utxos_aware, select_mempool_utxos, view_lookup. rewrite foldl_nested. fold (created mempool).
  set (ex := exclude_inflight_stxis refs mempool).
  destruct (select_spec (created mempool) (ex, ∅) r) as [Hin1 Hin2]. cbn [fst snd] in Hin1, Hin2.
  assert (Hex : r ∈ ex <-> r ∈ refs /\ r ∉ spent mempool) by apply exclude_spec.
  rewrite lookup_union, Hin2, get_utxos_spec, lookup_empty.
  rewrite (bool_decide_ext (r ∈ elements _) (r ∈ (foldl select_one (ex, ∅) (created mempool)).1))
    by apply elem_of_elements.
  rewrite (bool_decide_ext _ _ Hin1), bool_decide_and, (bool_decide_ext _ _ Hex), bool_decide_and, bool_decide_not.
  destruct (bool_decide (r ∈ refs)), (bool_decide (r ∈ spent mempool)),
    (list_to_map (created mempool) !! r), (utxos (tables state) !! r); done.
Qed.

(** Transactions are validated against the ledger as the mempool will leave
    it: looking up a set of references gives, for each of them, nothing when a tracked transaction
    spends it, else the output a tracked transaction creates, else the output of
    the committed set. *)
Theorem mempool_aware_view state mempool refs r :
  get_utxos_aware state mempool refs !! r =
  if bool_decide (r ∈ refs) then view_lookup state mempool r else None.
Proof. apply view_get_utxos. Qed.

End state.
End view.

(** ** No two tracked transactions spend the same output *)

Section conflicts.
Context {R M V S W T : Type} `{BuildCfg, TxDecoder, !Store.MempoolStore R M, !EntityCbor V, !StateStore V S W}.
Context `{Pallas, !Chrono T, !Validator T R}.

(** What the code relies on of [pallas]: a transaction is found again in the
    payload it is kept as; its hash has 32 bytes and covers its body, the inputs
    and the collateral included; what it consumes are its inputs when its flag
    says valid, its collateral otherwise; phase one rejects a transaction
    without inputs, or with an input it was not given. *)
Hypothesis payload_decodes : forall cbor tx,
  decode_tx cbor = Some tx -> decode_payload (tx_era tx, cbor) = Some tx.
Hypothesis hash_length : forall p tx, decode_payload p = Some tx -> length (tx_hash tx) = 32%nat.
Hypothesis hash_covers_body : forall p q a b,
  decode_payload p = Some a -> decode_payload q = Some b -> tx_hash a = tx_hash b ->
  tx_inputs a = tx_inputs b /\ tx_collateral a = tx_collateral b.
Hypothesis consumes_by_flag : forall p tx r, decode_payload p = Some tx ->
  r ∈ consumes tx <-> r ∈ if tx_is_valid tx then tx_inputs tx else tx_collateral tx.
Hypothesis phase1_inputs : forall tx env utxos, phase1 (T := T) (R := R) tx env utxos = true ->
  tx_inputs tx ≠ [] /\ forall r, r ∈ tx_inputs tx -> is_Some (utxos !! input_ref r).

(** One operation on the mempool: the submission of a transaction flagged
    valid, a propagation, an acknowledgement, a block or an undone block. *)
Inductive node_step (m : M) : M -> Prop :=
| step_submit cbor tx (state : S) g h m' ev :
    decode_tx cbor = Some tx -> tx_is_valid tx = true ->
    receive_tx cbor state m g = Ret (Ok (h, m', ev)) -> Store.room m 1 -> node_step m m'
| step_propagate hashes m' ev : Store.mark_inflight m hashes = Ret (Ok (m', ev)) -> node_step m m'
| step_acknowledge hashes m' ev : Store.mark_acknowledged m hashes = Ret (Ok (m', ev)) -> node_step m m'
| step_block point seen unseen fin drop m' ev :
    Store.confirm point seen unseen fin drop m = Ret (Ok (m', ev)) ->
    is_u32 fin -> is_u32 drop -> storable point -> Store.room m (length (Store.peek_inflight m)) ->
    node_step m m'.

(** What identifies the tracked transactions. *)
Definition ident (tx : MempoolTx.t R) : TxHash * EraCbor := (MempoolTx.hash tx, MempoolTx.payload tx).
Definition idents (m : M) : list (TxHash * EraCbor) := ident <$> all_txs m.

Record sound (m : M) : Prop := {
  sound_ok : Store.ok m;
  sound_decodes : forall h p, (h, p) ∈ idents m ->
    exists tx, decode_payload p = Some tx /\ tx_hash tx = h /\ tx_is_valid tx = true;
  sound_disjoint : forall h p h' p' a b r, (h, p) ∈ idents m -> (h', p') ∈ idents m -> h ≠ h' ->
    decode_payload p = Some a -> decode_payload p' = Some b -> r ∈ inputs a -> r ∉ inputs b;
}.

Lemma sound_sub m m' : sound m -> Store.ok m' -> (forall x, x ∈ idents m' -> x ∈ idents m) -> sound m'.
Proof.
  intros Hs Hok Hsub. constructor; [done|..].
  - intros h p Hi. by apply (sound_decodes _ Hs), Hsub.
  - intros h p h' p' a b r Hi Hi'. by apply (sound_disjoint _ Hs); apply Hsub.
Qed.

(** A tracked transaction's inputs are spent in the view. *)
Lemma tracked_spent m h p tx r :
  (h, p) ∈ idents m -> decode_payload p = Some tx -> r ∈ inputs tx -> r ∈ spent m.
Proof.
  intros Hi Hd Hr. apply list_elem_of_fmap in Hi as (mtx & [= -> ->] & Hm).
  unfold spent. apply list_elem_of_bind. exists tx. split; [done|].
  unfold decoded. apply list_elem_of_omap. by exists mtx.
Qed.

(** What validation lets through is fresh: the mempool spends none of the
    inputs of its body. *)
Lemma validated_fresh cbor (state : S) m g tx :
  validate_aware cbor state m g = Ret (Ok tx) ->
  exists a, MempoolTx.payload tx = (tx_era a, cbor) /\ decode_tx cbor = Some a /\
    MempoolTx.hash tx = tx_hash a /\ pending_form (MempoolTx.clone tx) /\ tx_inputs a ≠ [] /\
    forall r, r ∈ tx_inputs a -> input_ref r ∉ spent m.
Proof.
  intros Hv. apply validated in Hv as (a & env & Hd & Hp & Hh & Hf & Ep). exists a.
  destruct (phase1_inputs _ _ _ Ep) as [Hne Hin]. conj_split; try done.
  intros r Hr Hsp. destruct (Hin r Hr) as [v Hv]. rewrite view_get_utxos in Hv.
  unfold view_lookup in Hv. rewrite (bool_decide_true (input_ref r ∈ spent m)) in Hv by done. by case_bool_decide.
Qed.

(** The references a transaction flagged valid spends are those of its body. *)
Lemma inputs_of_valid p tx r :
  decode_payload p = Some tx -> tx_is_valid tx = true -> r ∈ inputs tx <-> exists i, r = input_ref i /\ i ∈ tx_inputs tx.
Proof.
  intros Hd Hv. unfold inputs. rewrite list_elem_of_fmap.
  split; intros (i & -> & Hi); exists i; (split; [done|]); apply (consumes_by_flag _ _ i Hd) in Hi || apply (consumes_by_flag _ _ i Hd);
    by rewrite Hv in *.
Qed.

Lemma submit_sound cbor a (state : S) g h m m' ev :
  sound m -> Store.room m 1 -> decode_tx cbor = Some a -> tx_is_valid a = true ->
  receive_tx cbor state m g = Ret (Ok (h, m', ev)) -> sound m'.
Proof.
  intros Hs Hroom Hda Hva Hr. pose proof (sound_ok _ Hs) as Hok.
  unfold receive_tx in Hr. destruct (validate_aware _ _ _ _) as [[tx|]|] eqn:Ev; try done. cbn [rbind] in Hr.
  destruct (validated_fresh _ _ _ _ _ Ev) as (a' & Hpay & Hdec & Hh & Hform & Hne & Hfresh0).
  assert (a' = a) as -> by congruence. apply payload_decodes in Hdec as Hdp.
  assert (Hfresh : forall r, r ∈ inputs a -> r ∉ spent m).
  { intros r Hr'. apply (inputs_of_valid _ _ _ Hdp Hva) in Hr' as (i & -> & Hi). by apply Hfresh0. }
  assert (Hni : MempoolTx.hash tx ∉ hashes_of (Store.peek_pending m ++ Store.peek_inflight m)).
  { intros Hi. unfold hashes_of in Hi. apply list_elem_of_fmap in Hi as (x & Hx & Hxm).
    assert (Hid : ident x ∈ idents m) by by apply list_elem_of_fmap_2.
    destruct (sound_decodes _ Hs _ _ Hid) as (b & Hb & Hbh & Hvb).
    destruct (hash_covers_body _ _ _ _ Hdp Hb ltac:(congruence)) as [Hin _].
    destruct (tx_inputs a) as [|r0 rest] eqn:Ec; [done|]. apply (Hfresh0 r0); [left|].
    eapply tracked_spent; [exact Hid|exact Hb|]. apply (inputs_of_valid _ _ _ Hb Hvb). exists r0. split; [done|]. rewrite <- Hin. left. }
  destruct (Store.receive_fresh m tx Hok Hroom Hform) as (m1 & Hrec & Hok' & Hpk & Hif & _);
    [rewrite Hh; by eapply hash_length|done|].
  rewrite Hrec in Hr. cbn in Hr. injection Hr as _ <- _.
  assert (Hids : forall x, x ∈ idents m1 <-> x ∈ idents m \/ x = ident tx).
  { intros x. unfold idents, all_txs. rewrite Hpk, Hif, !fmap_app, !elem_of_app. cbn.
    rewrite list_elem_of_singleton. tauto. }
  assert (Hnew : forall h p b r, (h, p) ∈ idents m -> decode_payload p = Some b -> r ∈ inputs b -> r ∉ inputs a).
  { intros h' p' b r Hi Hb Hrb Hra. by apply (Hfresh r Hra), (tracked_spent m h' p' b). }
  unfold ident in Hids. rewrite Hpay, Hh in Hids.
  constructor; [done|..].
  + intros h' p' Hi. apply Hids in Hi as [Hi|[= -> ->]]; [by eapply sound_decodes|].
    by exists a.
  + intros h1 p1 h2 p2 x y r Hi1 Hi2 Hne' Hx Hy Hrx Hry.
    apply Hids in Hi1 as [Hi1|[= -> ->]], Hi2 as [Hi2|[= -> ->]].
    * by eapply (sound_disjoint _ Hs h1 p1 h2 p2).
    * assert (y = a) as -> by congruence. by eapply (Hnew h1 p1).
    * assert (x = a) as -> by congruence. by eapply (Hnew h2 p2).
    * done.
Qed.

Lemma propagate_sound m hashes m' ev :
  sound m -> Store.mark_inflight m hashes = Ret (Ok (m', ev)) -> sound m'.
Proof.
  intros Hs Hr. pose proof (sound_ok _ Hs) as Hok.
  destruct (Store.mark_inflight_spec m hashes Hok) as (m1 & ev1 & E & Hok' & Hpk & Hif & _).
  rewrite E in Hr. injection Hr as <- _. apply (sound_sub m); [done|done|]. intros x. unfold idents, all_txs.
  rewrite Hpk, Hif, !fmap_app, !elem_of_app. intros [Hx|[Hx|Hx]]; [|by right|].
  + left. apply list_elem_of_fmap in Hx as (t & -> & Ht). apply list_elem_of_filter in Ht as [_ Ht].
    by apply list_elem_of_fmap_2.
  + left. rewrite <- list_fmap_compose in Hx. apply list_elem_of_fmap in Hx as (t & -> & Ht).
    apply list_elem_of_filter in Ht as [_ Ht]. by apply (list_elem_of_fmap_2 ident).
Qed.

Lemma acknowledge_sound m hashes m' ev :
  sound m -> Store.mark_acknowledged m hashes = Ret (Ok (m', ev)) -> sound m'.
Proof.
  intros Hs Hr. pose proof (sound_ok _ Hs) as Hok.
  destruct (Store.mark_acknowledged_spec m hashes Hok) as (m1 & ev1 & l & l' & E & Hok' & Hpk & Hl & Hf2 & Hl' & _).
  rewrite E in Hr. injection Hr as <- _. apply (sound_sub m); [done|done|]. intros x. unfold idents, all_txs.
  rewrite Hpk, Hl, Hl', !fmap_app, !elem_of_app. intros [Hx|Hx]; [by left|right].
  replace (ident <$> l) with (ident <$> l'); [done|]. clear -Hf2.
  induction Hf2 as [|a b l l' Hab _ IH]; [done|]. rewrite !fmap_cons, IH. f_equal.
  by destruct Hab as [->|(_ & _ & ->)].
Qed.

Lemma block_sound point seen unseen fin drop m m' ev :
  sound m -> is_u32 fin -> is_u32 drop -> storable point -> Store.room m (length (Store.peek_inflight m)) ->
  Store.confirm point seen unseen fin drop m = Ret (Ok (m', ev)) -> sound m'.
Proof.
  intros Hs Hf Hd Hp Hroom Hr. pose proof (sound_ok _ Hs) as Hok.
  destruct (Store.confirm_spec point seen unseen fin drop m Hok Hf Hd Hp Hroom)
    as (m1 & ev1 & rq & E & Hok' & Hpk & Hrq & Hif & _).
  rewrite E in Hr. injection Hr as <- _. apply (sound_sub m); [done|done|]. intros x. unfold idents, all_txs.
  assert (Hout : forall t t', t ∈ Store.peek_inflight m ->
    (kept point seen unseen fin drop t = Some t' \/ retried point seen unseen fin drop t = Some t') ->
    ident t' = ident t).
  { intros t t' _. unfold kept, retried, outcome. repeat case_match; intros [?|?]; simplify_eq; done. }
  rewrite Hpk, Hrq, Hif, !fmap_app, !elem_of_app. intros [[Hx|Hx]|Hx]; [by left|right|right];
    apply list_elem_of_fmap in Hx as (t' & -> & Ht); apply list_elem_of_omap in Ht as (t & Ht & Ho);
    rewrite (Hout t t') by auto; by apply list_elem_of_fmap_2.
Qed.

Lemma step_sound m m' : sound m -> node_step m m' -> sound m'.
Proof.
  intros Hs [cbor tx state g h m1 ev Hd Hv Hr Hroom|hashes m1 ev Hr|hashes m1 ev Hr|point seen unseen fin drop m1 ev Hr Hf Hd Hp Hroom].
  - by eapply submit_sound.
  - by eapply propagate_sound.
  - by eapply acknowledge_sound.
  - by eapply (block_sound point seen unseen fin drop).
Qed.

(** C19: the transactions a node keeps for submission never compete: starting
    from an empty mempool, after any sequence of submissions of transactions
    flagged valid, propagations, acknowledgements, blocks and rollbacks, in any
    order, no transaction is tracked twice and no two tracked transactions spend
    the same output.  The check is made by the view of the UTxO set validation is
    given, and holds for every backend that implements the contract. *)
Theorem no_double_spend m0 m :
  Store.ok m0 -> all_txs m0 = [] -> rtc node_step m0 m ->
  NoDup (hashes_of (all_txs m)) /\
  forall i j a b ta tb r, all_txs m !! i = Some a -> all_txs m !! j = Some b -> i ≠ j ->
    decode_payload (MempoolTx.payload a) = Some ta -> decode_payload (MempoolTx.payload b) = Some tb ->
    r ∈ inputs ta -> r ∉ inputs tb.
Proof.
  intros Hok He Hsteps.
  assert (Hs : sound m).
  { assert (H0s : sound m0).
    { constructor; [done|..]; unfold idents; rewrite He; intros h p *; by intros ?%elem_of_nil. }
    clear Hok He. induction Hsteps as [|x y z Hxy _ IH]; [done|]. apply IH. by eapply step_sound. }
  pose proof (Store.tracked_once _ (sound_ok _ Hs)) as Hn. split; [done|].
  intros i j a b ta tb r Ha Hb Hij Hta Htb.
  apply (sound_disjoint _ Hs (MempoolTx.hash a) (MempoolTx.payload a) (MempoolTx.hash b) (MempoolTx.payload b)); try done.
  - apply (list_elem_of_fmap_2 ident). by eapply list_elem_of_lookup_2.
  - apply (list_elem_of_fmap_2 ident). by eapply list_elem_of_lookup_2.
  - intros Hh. apply Hij. eapply (NoDup_lookup (hashes_of (all_txs m)) i j (MempoolTx.hash a)); [done|..];
      unfold hashes_of; rewrite list_lookup_fmap; [by rewrite Ha|by rewrite Hb, Hh].
Qed.

End conflicts.

(** ** Following a transaction through blocks and rollbacks *)

Section settling.
Context {R M : Type} `{BuildCfg, !Store.MempoolStore R M}.
Abbreviation MTx := (MempoolTx.t R).
Abbreviation decide_outcome point seen unseen :=
  (outcome (R := R) point seen unseen MEMPOOL_FINALIZE_THRESHOLD MEMPOOL_DROP_THRESHOLD).

(** The mempool can take [k] more blocks. *)
Definition takes (m : M) (k : nat) : Prop :=
  Store.ok m /\ Store.room m (k * length (Store.peek_inflight m)).

Definition absent (m : M) (h : TxHash) : Prop := h ∉ hashes_of (all_txs m).

Lemma other_hash (l : list MTx) (tx : MTx) (f : MTx -> option MTx) :
  NoDup (hashes_of l) -> tx ∈ l -> (forall t x, f t = Some x -> MempoolTx.hash x = MempoolTx.hash t) ->
  f tx = None -> MempoolTx.hash tx ∉ hashes_of (omap f l).
Proof.
  intros Hn Ht Hf Hnone Hi. apply list_elem_of_fmap in Hi as (x & Hx & Hxo).
  apply list_elem_of_omap in Hxo as (t & Htl & Hft). rewrite (Hf _ _ Hft) in Hx.
  rewrite (hash_unique l tx t Hn Ht Htl Hx) in Hnone. congruence.
Qed.

(** One block, and what it makes of one transaction. *)
Lemma notify_one point seen unseen (s : M * list MTx) k :
  takes s.1 (1 + k) -> storable point ->
  exists m' ev, notify point seen unseen s = Ret (m', s.2 ++ ev) /\ takes m' k /\
    (forall h, absent s.1 h -> absent m' h) /\
    (forall tx, tx ∈ Store.peek_inflight s.1 ->
       match decide_outcome point seen unseen tx with
       | Kept x => x ∈ Store.peek_inflight m'
       | Retried x => x ∈ Store.peek_pending m'
       | Left x => x ∈ ev /\ absent m' (MempoolTx.hash tx)
       end).
Proof.
  intros [Hok Hroom] Hp.
  set (fin := MEMPOOL_FINALIZE_THRESHOLD). set (drop := MEMPOOL_DROP_THRESHOLD).
  destruct (Store.confirm_spec point seen unseen fin drop s.1 Hok)
    as (m' & ev & rq & E & Hok' & Hpk & Hrq & Hif & Hev & Hroom'); try done.
  { eapply Store.room_le; [done|]. lia. }
  assert (Hkh : forall t x : MTx, kept point seen unseen fin drop t = Some x -> MempoolTx.hash x = MempoolTx.hash t).
  { intros t x. unfold kept. pose proof (outcome_hash point seen unseen fin drop t) as Ho.
    destruct (outcome _ _ _ _ _ t); intros [= <-]; done. }
  assert (Hrh : forall t x : MTx, retried point seen unseen fin drop t = Some x -> MempoolTx.hash x = MempoolTx.hash t).
  { intros t x. unfold retried. pose proof (outcome_hash point seen unseen fin drop t) as Ho.
    destruct (outcome _ _ _ _ _ t); intros [= <-]; done. }
  assert (Hhash : hashes_of (all_txs m') ≡ₚ hashes_of (Store.peek_pending s.1) ++
    hashes_of (omap (retried point seen unseen fin drop) (Store.peek_inflight s.1)) ++
    hashes_of (omap (kept point seen unseen fin drop) (Store.peek_inflight s.1))).
  { unfold all_txs. rewrite !hashes_app, Hpk, Hrq, Hif. by rewrite hashes_app, <- app_assoc. }
  exists m', ev. conj_split.
  - unfold notify. fold fin drop. by rewrite E.
  - split; [done|]. apply (Store.room_le _ (k * length (Store.peek_inflight s.1))).
    { apply Hroom'. eapply Store.room_le; [exact Hroom|]. lia. }
    rewrite (Permutation_length Hif). assert (Hl : (length (omap (kept point seen unseen fin drop) (Store.peek_inflight s.1)) ≤
      length (Store.peek_inflight s.1))%nat); [|nia].
    generalize (Store.peek_inflight s.1). induction l as [|x l IH]; [done|]. cbn. destruct (kept _ _ _ _ _ x); cbn; lia.
  - intros h Ha Hin. rewrite Hhash, !elem_of_app in Hin. apply Ha. unfold all_txs. rewrite hashes_app, elem_of_app.
    destruct Hin as [Hin|[Hin|Hin]]; [by left|right|right]; apply list_elem_of_fmap in Hin as (x & -> & Hx);
      apply list_elem_of_omap in Hx as (t & Ht & Hx); [rewrite (Hrh _ _ Hx)|rewrite (Hkh _ _ Hx)];
      by apply list_elem_of_fmap_2.
  - intros tx Htx. destruct (outcome point seen unseen fin drop tx) as [x|x|x] eqn:Eo.
    + rewrite Hif. apply list_elem_of_omap. exists tx. split; [done|]. unfold kept. by rewrite Eo.
    + rewrite Hpk, elem_of_app. right. rewrite Hrq. apply list_elem_of_omap. exists tx. split; [done|].
      unfold retried. by rewrite Eo.
    + split.
      * apply (Hev x), list_elem_of_omap. exists tx. split; [done|]. unfold departed. by rewrite Eo.
      * pose proof (Store.tracked_once _ Hok) as Hn. rewrite hashes_app in Hn. apply NoDup_app in Hn as (_ & Hd & Hn).
        unfold absent. rewrite Hhash, !elem_of_app. intros [Hi|[Hi|Hi]].
        -- apply (Hd _ Hi). by apply list_elem_of_fmap_2.
        -- revert Hi. apply other_hash; try done. unfold retried. by rewrite Eo.
        -- revert Hi. apply other_hash; try done. unfold kept. by rewrite Eo.
Qed.

Lemma updates_absent us : forall (s : M * list MTx) h k,
  takes s.1 (length us + k) -> Forall (fun u => storable u.1) us -> absent s.1 h ->
  exists s', rollback_mempool us s = Ret s' /\ takes s'.1 k /\ absent s'.1 h /\ (forall x, x ∈ s.2 -> x ∈ s'.2).
Proof.
  induction us as [|u us IH]; intros s h k Ht Hp Ha; cbn [rollback_mempool run_foldl]; [by exists s|].
  apply Forall_cons in Hp as [Hu Hp].
  destruct (notify_one u.1 [] u.2 s (length us + k) Ht Hu) as (m' & ev & -> & Ht' & Habs & _).
  cbn [mbind run_bind]. destruct (IH (m', s.2 ++ ev) h k) as (s' & Hr & Ht2 & Ha' & Hev); [done|done|by apply Habs|].
  exists s'. conj_split; [done|done|done|]. intros x Hx. apply Hev. cbn. apply elem_of_app. by left.
Qed.

(** C32: a transaction that has reached the chain is finalized, after exactly the
    number of blocks the threshold asks for.  For any backend, an in-flight transaction that the first of
    a run of blocks contains (or that is already confirmed) is followed until its count reaches
    six: every update succeeds, and at the sixth confirmation the mempool reports it as
    finalized, with that count, and stops tracking it. *)
Theorem seen_tx_finalizes us : forall (s : M * list MTx) tx,
  takes s.1 (length us) -> Forall (fun u => storable u.1) us ->
  tx ∈ Store.peek_inflight s.1 -> us ≠ [] ->
  MempoolTx.stage tx = Confirmed \/ (exists u rest, us = u :: rest /\ MempoolTx.hash tx ∈ u.2) ->
  MempoolTx.confirmations tx + Z.of_nat (length us) = MEMPOOL_FINALIZE_THRESHOLD ->
  exists s' x, update_mempool us s = Ret s' /\ absent s'.1 (MempoolTx.hash tx) /\
    x ∈ s'.2 /\ MempoolTx.hash x = MempoolTx.hash tx /\ MempoolTx.stage x = Finalized /\
    MempoolTx.confirmations x = MEMPOOL_FINALIZE_THRESHOLD.
Proof.
  induction us as [|u us IH]; intros s tx Ht Hp Hin Hne Hc Hn; [done|]. clear Hne.
  apply Forall_cons in Hp as [Hu Hp]. cbn [length] in Ht, Hn.
  destruct (notify_one u.1 u.2 [] s (length us) Ht Hu) as (m' & ev & E & Ht' & _ & Ho).
  specialize (Ho tx Hin). unfold outcome in Ho.
  assert (Hconf : confirms u.2 [] tx = true).
  { unfold confirms. destruct Hc as [Hc|(v & rest & [= <- <-] & Hv)].
    - rewrite (bool_decide_false (_ ∈ [])) by apply not_elem_of_nil. rewrite (bool_decide_true _ Hc). apply orb_true_r.
    - by rewrite bool_decide_true. }
  rewrite Hconf in Ho. unfold update_mempool. cbn [run_foldl]. rewrite E. cbn [mbind run_bind].
  unfold MEMPOOL_FINALIZE_THRESHOLD in *. destruct us as [|u' us].
  - rewrite (proj2 (Z.leb_le _ _)) in Ho by (cbn in Hn; lia). destruct Ho as [Hx Ha].
    eexists (m', s.2 ++ ev), _. conj_split; [reflexivity|exact Ha| |..].
    + cbn. apply elem_of_app. right. exact Hx.
    + done.
    + done.
    + cbn. cbn in Hn. lia.
  - rewrite (proj2 (Z.leb_gt _ _)) in Ho by (cbn [length] in Hn; lia).
    destruct (IH (m', s.2 ++ ev) (confirmed u.1 tx)) as (s' & x & Hr & Ha & Hx); try done.
    + by left.
    + cbn [confirmed MempoolTx.confirmations length] in *. lia.
    + exists s', x. split; [exact Hr|]. split; [exact Ha|exact Hx].
Qed.

(** A transaction no block takes is dropped, not tracked for ever: an
    in-flight transaction that has missed no block yet leaves the mempool, reported as dropped,
    at the second block in a row that does not contain it. *)
Theorem unseen_tx_drops (s : M * list MTx) tx u1 u2 :
  takes s.1 2 -> storable u1.1 -> storable u2.1 -> tx ∈ Store.peek_inflight s.1 ->
  MempoolTx.stage tx ≠ Confirmed -> MempoolTx.non_confirmations tx = 0 ->
  MempoolTx.hash tx ∉ u1.2 -> MempoolTx.hash tx ∉ u2.2 ->
  exists s' x, update_mempool [u1; u2] s = Ret s' /\ absent s'.1 (MempoolTx.hash tx) /\
    x ∈ s'.2 /\ MempoolTx.hash x = MempoolTx.hash tx /\ MempoolTx.stage x = Dropped.
Proof.
  intros Ht Hu1 Hu2 Hin Hst Hnc Hn1 Hn2.
  destruct (notify_one u1.1 u1.2 [] s 1 Ht Hu1) as (m1 & ev1 & E1 & Ht1 & _ & Ho1).
  specialize (Ho1 tx Hin). unfold outcome, confirms in Ho1.
  rewrite (bool_decide_false _ Hn1), (bool_decide_false _ Hst), andb_false_r, Hnc in Ho1. cbn in Ho1.
  rewrite bool_decide_false in Ho1 by apply not_elem_of_nil.
  destruct (notify_one u2.1 u2.2 [] (m1, s.2 ++ ev1) 0 Ht1 Hu2) as (m2 & ev2 & E2 & _ & _ & Ho2).
  specialize (Ho2 _ Ho1). unfold outcome, confirms in Ho2. cbn in Ho2.
  rewrite (bool_decide_false _ Hn2), (bool_decide_false _ Hst), !andb_false_r in Ho2. cbn in Ho2.
  rewrite bool_decide_false in Ho2 by apply not_elem_of_nil. destruct Ho2 as [Hx Ha].
  unfold update_mempool. cbn [run_foldl]. rewrite E1. cbn [mbind run_bind]. rewrite E2. cbn [mbind run_bind].
  eexists (m2, (s.2 ++ ev1) ++ ev2), _. conj_split; [reflexivity|exact Ha|cbn; apply elem_of_app; right; exact Hx|done..].
Qed.

(** Undoing blocks that do not contain a confirmed transaction. *)
Lemma undo_confirms us : forall (s : M * list MTx) tx k,
  takes s.1 (length us + k) -> Forall (fun u => storable u.1) us -> tx ∈ Store.peek_inflight s.1 ->
  MempoolTx.stage tx = Confirmed -> Forall (fun u => MempoolTx.hash tx ∉ u.2) us ->
  exists s', rollback_mempool us s = Ret s' /\ takes s'.1 k /\ (forall x, x ∈ s.2 -> x ∈ s'.2) /\
    if MEMPOOL_FINALIZE_THRESHOLD <=? MempoolTx.confirmations tx + Z.of_nat (length us)
    then MempoolTx.confirmations tx < MEMPOOL_FINALIZE_THRESHOLD ->
         absent s'.1 (MempoolTx.hash tx) /\
         exists x, x ∈ s'.2 /\ MempoolTx.hash x = MempoolTx.hash tx /\ MempoolTx.stage x = Finalized
    else exists tx', tx' ∈ Store.peek_inflight s'.1 /\ MempoolTx.stage tx' = Confirmed /\ ident tx' = ident tx.
Proof.
  induction us as [|u us IH]; intros s tx k Ht Hp Hin Hst Hni; cbn [rollback_mempool run_foldl length].
  - exists s. conj_split; [done|done|done|]. destruct (Z.leb_spec MEMPOOL_FINALIZE_THRESHOLD
      (MempoolTx.confirmations tx + Z.of_nat 0)); [lia|]. by exists tx.
  - apply Forall_cons in Hp as [Hu Hp]. apply Forall_cons in Hni as [Hnu Hni].
    destruct (notify_one u.1 [] u.2 s (length us + k) Ht Hu) as (m' & ev & -> & Ht' & Habs & Ho).
    cbn [mbind run_bind]. specialize (Ho tx Hin). unfold outcome, confirms in Ho.
    rewrite (bool_decide_false (_ ∈ [])), (bool_decide_false _ Hnu), (bool_decide_true _ Hst) in Ho by apply not_elem_of_nil.
    cbn [orb negb andb] in Ho.
    destruct (Z.leb_spec MEMPOOL_FINALIZE_THRESHOLD (MempoolTx.confirmations tx + 1)) as [Hge|Hlt].
    + destruct Ho as [Hx Ha]. rewrite (proj2 (Z.leb_le _ _)) by lia.
      destruct (updates_absent us (m', s.2 ++ ev) (MempoolTx.hash tx) k) as (s' & Hr & Ht2 & Ha' & Hev); try done.
      exists s'. conj_split; [done|done| |].
      * intros x Hxs. apply Hev. cbn. apply elem_of_app. by left.
      * intros _. split; [done|]. eexists. split; [apply Hev; cbn; apply elem_of_app; right; exact Hx|done].
    + destruct (IH (m', s.2 ++ ev) (confirmed u.1 tx) k) as (s' & Hr & Ht2 & Hev & Hend); try done.
      exists s'. conj_split; [done|done| |].
      * intros x Hxs. apply Hev. cbn. apply elem_of_app. by left.
      * cbn [confirmed MempoolTx.confirmations MempoolTx.hash] in Hend.
        replace (MempoolTx.confirmations tx + Z.of_nat (Datatypes.S (length us)))
          with (MempoolTx.confirmations tx + 1 + Z.of_nat (length us)) by lia.
        destruct (_ <=? _); [|done]. intros _. by apply Hend.
Qed.

(** C38: what a rollback makes of a transaction whose block it undoes.  The
    transaction has [c] confirmations and the rollback undoes [n] blocks above its own, then
    its own: it is requeued when [c + n] stays below the threshold of six; otherwise the blocks
    undone above it count as confirmations, and it is finalized and forgotten
    although its block is gone. *)
Theorem rollback_of_confirmed (s : M * list MTx) tx above own :
  takes s.1 (length above + 1) -> Forall (fun u => storable u.1) (above ++ [own]) ->
  tx ∈ Store.peek_inflight s.1 -> MempoolTx.stage tx = Confirmed ->
  MempoolTx.confirmations tx < MEMPOOL_FINALIZE_THRESHOLD ->
  Forall (fun u => MempoolTx.hash tx ∉ u.2) above -> MempoolTx.hash tx ∈ own.2 ->
  exists s', rollback_mempool (above ++ [own]) s = Ret s' /\
    if MempoolTx.confirmations tx + Z.of_nat (length above) <? MEMPOOL_FINALIZE_THRESHOLD
    then MempoolTx.hash tx ∈ hashes_of (Store.peek_pending s'.1)
    else absent s'.1 (MempoolTx.hash tx) /\
         exists x, x ∈ s'.2 /\ MempoolTx.hash x = MempoolTx.hash tx /\ MempoolTx.stage x = Finalized.
Proof.
  intros Ht Hp Hin Hst Hc Hni Hown. apply Forall_app in Hp as [Hp Hp1]. rewrite Forall_singleton in Hp1.
  destruct (undo_confirms above s tx 1 Ht Hp Hin Hst Hni) as (s1 & Hr & Ht1 & Hev & Hend).
  unfold rollback_mempool in *. rewrite run_foldl_app, Hr. cbn [mbind run_bind run_foldl].
  destruct (notify_one own.1 [] own.2 s1 0 Ht1 Hp1) as (m' & ev & -> & _ & Habs & Ho). cbn [mbind run_bind].
  exists (m', s1.2 ++ ev). split; [done|]. rewrite Z.leb_antisym in Hend. cbn [fst snd].
  destruct (_ <? _); cbn [negb] in Hend.
  - destruct Hend as (tx' & Hin' & Hst' & Hid). injection Hid as Hh _. specialize (Ho tx' Hin').
    unfold outcome, confirms in Ho. rewrite Hh in Ho.
    rewrite (bool_decide_false (_ ∈ [])), (bool_decide_true _ Hown) in Ho by apply not_elem_of_nil.
    cbn [orb negb andb] in Ho. unfold hashes_of. rewrite <- Hh.
    change (MempoolTx.hash tx') with (MempoolTx.hash (requeued tx')). by apply list_elem_of_fmap_2.
  - destruct (Hend Hc) as (Ha & x & Hx & Hxh & Hxs). split; [by apply Habs|].
    exists x. conj_split; [apply elem_of_app; by left|done|done].
Qed.

End settling.

(** ** Concrete runs *)

Module SubmitDemo.
Import MempoolDemo.
Existing Instances Memory.store Ephemeral.store.

#[export] Existing Instances cfg_debug demo_pallas demo_cbor.

(** A transaction has for input the output whose reference is its own hash,
    and no collateral; its last byte is the flag. *)
Definition demo_valid (cbor : bytes) : bool := negb (bool_decide (nth 32 cbor 0 = 1)).
Definition demo_tx (cbor : bytes) : Tx :=
  let h := take 32 (cbor ++ replicate 32 0) in
  {| tx_hash := h; produces := if demo_valid cbor then [] else [(0, (7, [0]))]; consumes := if demo_valid cbor then [(h, 0)] else [] |}.

#[export] Instance decoder : TxDecoder := {|
  decode_tx cbor := Some (demo_tx cbor);
  decode_payload p := Some (demo_tx p.2);
  tx_era _ := 7;
  tx_requires tx := [(tx_hash tx, 0)];
  tx_is_valid tx := bool_decide (produces tx = []);
  tx_inputs tx := [(tx_hash tx, 0)];
  tx_collateral tx := [];
|}.

#[export] Instance chrono : Chrono Z := {| from_timestamp x := Some x; default_time := 0 |}.

Definition available (u : UtxoMap) (r : TxoRef) : bool := bool_decide (is_Some (u !! r)).

#[export] Instance validator : Validator Z unit := {|
  decodes_output _ := true;
  era_known n := n <? 8;
  phase1 tx _ u := forallb (fun r => available u (input_ref r)) (tx_inputs tx);
  phase2 _ _ _ _ := Some tt;
  eval_success _ := [];
|}.

Definition utxo_state : Tables CardanoEntity.t :=
  mkTables (Some (ChainPoint.Slot 10000)) (list_to_map BoundaryDemo.rows) {[(hash 1, 0) := (7, [0])]}.

Definition submitted : EphemeralMempool.t unit :=
  EphemeralMempool.mk [] [MempoolTx.mk (hash 1) (7, hash 1) Propagated 0 0 None None] ∅ [].

Lemma demo_phase1 (tx : Tx) (env : Environment Z) (u : UtxoMap) : phase1 (R := unit) tx env u = true ->
  tx_inputs tx ≠ [] /\ forall r, r ∈ tx_inputs tx -> is_Some (u !! input_ref r).
Proof.
  cbn. rewrite andb_true_r. intros Ha. split; [done|]. intros r Hr. apply list_elem_of_singleton in Hr as ->.
  by apply bool_decide_eq_true in Ha.
Qed.

Lemma demo_consumes (p : EraCbor) (tx : Tx) r : decode_payload p = Some tx ->
  r ∈ consumes tx <-> r ∈ if tx_is_valid tx then tx_inputs tx else tx_collateral tx.
Proof. intros [= <-]. cbn. by destruct (demo_valid p.2). Qed.

Lemma demo_reaches :
  rtc (node_step (R := unit) (S := Tables CardanoEntity.t) (T := Z)) EphemeralMempool.new submitted.
Proof.
  eapply (rtc_l _ _ (EphemeralMempool.mk [MempoolTx.mk (hash 1) (7, hash 1) Pending 0 0 None None] [] ∅ [])).
  - eapply (step_submit _ (hash 1) (demo_tx (hash 1)) utxo_state demo_genesis); [done|done|vm_compute; reflexivity|done].
  - apply rtc_once. eapply (step_propagate _ [hash 1]). vm_compute. reflexivity.
Qed.

Lemma no_double_spend_witness :
  NoDup (hashes_of (all_txs submitted)) /\
  forall i j a b ta tb r, all_txs submitted !! i = Some a -> all_txs submitted !! j = Some b -> i ≠ j ->
    decode_payload (MempoolTx.payload a) = Some ta -> decode_payload (MempoolTx.payload b) = Some tb ->
    r ∈ inputs ta -> r ∉ inputs tb.
Proof.
  apply (no_double_spend (R := unit) (S := Tables CardanoEntity.t) (T := Z)) with (m0 := EphemeralMempool.new).
  - done.
  - intros p tx [= <-]. cbn [tx_hash demo_tx]. rewrite length_take, length_app, length_replicate. lia.
  - intros p q a b [= <-] [= <-] E. cbn [tx_inputs tx_collateral decoder]. by rewrite E.
  - exact demo_consumes.
  - exact demo_phase1.
  - apply Ephemeral.ok_new.
  - reflexivity.
  - exact demo_reaches.
Defined.

(** The flag matters: a transaction flagged invalid that has no collateral
    consumes nothing, so that nothing hides its inputs from the view, and the
    in-memory backend, which looks for duplicates among the pending
    transactions only, tracks it a second time once it is in flight. *)
Example flagged_invalid_tracked_twice :
  exists m1 m2 m3 ev1 ev2 ev3,
    receive_tx (T := Z) (hash 1 ++ [1]) utxo_state (EphemeralMempool.new : EphemeralMempool.t unit) demo_genesis = Ret (Ok (hash 1, m1, ev1)) /\
    Store.mark_inflight m1 [hash 1] = Ret (Ok (m2, ev2)) /\
    receive_tx (T := Z) (hash 1 ++ [1]) utxo_state m2 demo_genesis = Ret (Ok (hash 1, m3, ev3)) /\
    hashes_of (all_txs m3) = [hash 1; hash 1].
Proof. do 6 eexists. split; [vm_compute; reflexivity|]. split; [vm_compute; reflexivity|]. split; [vm_compute; reflexivity|]. reflexivity. Qed.

Definition block (txs : list TxHash) : ChainPoint.t * list TxHash := (ChainPoint.Specific 10 (hash 9), txs).

Lemma storable_blocks (l : list (ChainPoint.t * list TxHash)) :
  Forall (fun u => u.1 = ChainPoint.Specific 10 (hash 9)) l -> Forall (fun u => storable u.1) l.
Proof. intros Hl. eapply Forall_impl; [exact Hl|]. intros u Hu. cbn in *. rewrite Hu. apply point_storable. Qed.

Lemma demo_tracked tx : tx ∈ [propagated; on_chain] -> tx ∈ EphemeralMempool.peek_inflight mempool.
Proof. by vm_compute. Qed.

Lemma seen_tx_finalizes_witness :
  exists s' x, update_mempool [block [hash 1]; block []; block []; block []; block []; block []] (mempool, []) = Ret s' /\
    absent s'.1 (hash 1) /\ x ∈ s'.2 /\ MempoolTx.hash x = hash 1 /\ MempoolTx.stage x = Finalized /\
    MempoolTx.confirmations x = 6.
Proof.
  apply (seen_tx_finalizes [block [hash 1]; block []; block []; block []; block []; block []]
    (mempool, []) propagated).
  - split; [exact mempool_ok|done].
  - apply storable_blocks. by repeat constructor.
  - apply demo_tracked. left.
  - done.
  - right. eexists _, _. split; [reflexivity|]. left.
  - reflexivity.
Defined.

Lemma unseen_tx_drops_witness :
  exists s' x, update_mempool [block []; block []] (mempool, []) = Ret s' /\ absent s'.1 (hash 1) /\
    x ∈ s'.2 /\ MempoolTx.hash x = hash 1 /\ MempoolTx.stage x = Dropped.
Proof.
  apply (unseen_tx_drops (mempool, []) propagated (block []) (block [])).
  - split; [exact mempool_ok|done].
  - exact point_storable.
  - exact point_storable.
  - apply demo_tracked. left.
  - done.
  - done.
  - apply not_elem_of_nil.
  - apply not_elem_of_nil.
Defined.

(** Four blocks deep, the transaction is finalized by the rollback that undoes
    its block. *)
Lemma rollback_of_confirmed_witness :
  exists s', rollback_mempool ([block []; block []; block []] ++ [block [hash 2]]) (mempool, []) = Ret s' /\
    absent s'.1 (hash 2) /\
    exists x, x ∈ s'.2 /\ MempoolTx.hash x = hash 2 /\ MempoolTx.stage x = Finalized.
Proof.
  apply (rollback_of_confirmed (mempool, []) on_chain [block []; block []; block []] (block [hash 2])).
  - split; [exact mempool_ok|done].
  - apply storable_blocks. by repeat constructor.
  - apply demo_tracked. right. left.
  - done.
  - done.
  - repeat constructor; apply not_elem_of_nil.
  - left.
Defined.

End SubmitDemo.
