(* ===== verification/CrawlDemo.v ===== *)
(** * A block crawled

    A block of two transactions: the first spends an output of one account,
    pays another and votes, the second spends that payment and makes the
    proposal voted on. *)

From S2P Require Import Prelude Lists Types ChainPoint EpochValue EntityDelta Eras PParams Forks.
From S2P Require Import Accounts Pools DReps Datums Assets Pending Epochs Proposals Gov StateStore Blocks.
From S2P Require Import Metadata PallasExtras GovActions Wal Roll Indexes IndexBuilder CardanoModel Codec Visitors Ewrap Crawl CrawlEffects StakeTracking EwrapDemo.
Open Scope Z_scope.

(** ** Running a block *)

(** The state after a block, when no delta panics. *)
Definition run_block `{BuildCfg, Pallas} (σ : Snap (E := CardanoEntity.t)) (w : WorkBlock.t CardanoDelta.t) :
    Snap (E := CardanoEntity.t) :=
  mkSnap
    (merge (fun q e => match q with
                       | None => e
                       | Some ds => match WorkBatch.apply_seq ds e with Ret (_, e') => e' | Panic => None end
                       end) (WorkBlock.deltas w) (s_entities σ))
    (next_utxos (s_utxos σ) (WorkBlock.block w)).

Definition block_runs `{BuildCfg, Pallas} (σ : Snap (E := CardanoEntity.t)) (w : WorkBlock.t CardanoDelta.t) : bool :=
  forallb (fun x => match WorkBatch.apply_seq (snd x) (s_entities σ !! fst x) with Ret _ => true | Panic => false end)
    (map_to_list (WorkBlock.deltas w)).

Lemma run_block_step `{BuildCfg, Pallas} σ w : block_runs σ w = true -> block_step σ w (run_block σ w).
Proof.
  intros Hr. split; [|done]. intros nk. cbn. rewrite lookup_merge. unfold block_runs in Hr. rewrite forallb_forall in Hr.
  destruct (WorkBlock.deltas w !! nk) as [ds|] eqn:Eq.
  - specialize (Hr (nk, ds)). cbn in Hr |- *. unfold diag_None.
    assert (Hi : In (nk, ds) (map_to_list (WorkBlock.deltas w))) by (apply list_elem_of_In, elem_of_map_to_list; exact Eq).
    specialize (Hr Hi). destruct (s_entities σ !! nk) as [x|];
      destruct (WorkBatch.apply_seq ds _) as [[ds' e']|]; try discriminate Hr; by exists ds'.
  - exists []. by destruct (s_entities σ !! nk).
Qed.

Module CrawlingDemo.

(** Outputs are the account, the coins and the datum they name. *)
Definition cred (n : Z) : StakeCredential := AddrKeyhash (replicate 28 n).
Definition output (b : EraCbor) : option OutputView :=
  match snd b with
  | [c; coin; d] => Some {|
      out_address := Some (AddressShelley {| shelley_network := Testnet; shelley_payment := PaymentKey (replicate 28 0);
                                             shelley_delegation := DelegationKey (replicate 28 c) |});
      out_coin := as_u 64 coin; out_assets := [];
      out_datum := if d =? 0 then None else Some (DatumHash (replicate 32 d)); out_script_ref := None |}
  | _ => None
  end.

Definition view (b : bytes) : OutputView := match output (7, b) with Some o => o | None =>
  {| out_address := None; out_coin := 0; out_assets := []; out_datum := None; out_script_ref := None |} end.

Definition hash (n : Z) : bytes := replicate 32 n.

Definition tx1 : Tx := {| tx_hash := hash 11; produces := [(0, (7, [2; 5; 9])); (1, (7, [1; 1; 0]))]; consumes := [(hash 1, 0)] |}.
Definition tx2 : Tx := {| tx_hash := hash 12; produces := [(0, (7, [1; 4; 0]))]; consumes := [(hash 11, 0)] |}.
Definition block : Block := {| block_slot := 10050; block_hash := hash 3; previous_hash := None; txs := [tx1; tx2] |}.

Definition voter : Voter := VoterDRepKey (replicate 28 3).
Definition anchor : Anchor := {| url := "a"; content_hash := hash 0 |}.

Definition proposal : MultiEraProposal := {|
  mp_deposit := 100;
  as_conway := Some {| pp_deposit := 100; pp_reward_account := []; pp_gov_action := GaInformation; pp_anchor := anchor |} |}.

Definition mt1 : MultiEraTx := {|
  mt_hash := hash 11; mt_is_valid := true; mt_byron_fee := None;
  mt_conway := Some {| voting_procedures := Some [(voter, [(Build_GovActionId (hash 12) 0, VYes)])]; donation := None |};
  mt_fee := Some 1; mt_total_collateral := None; mt_consumes := [(hash 1, 0)];
  mt_produces := [(0, view [2; 5; 9]); (1, view [1; 1; 0])];
  mt_mints := []; mt_certs := []; mt_withdrawals := []; mt_update := None; mt_plutus_data := [(hash 9, [9])];
  mt_gov_proposals := []; mt_redeemers := []; mt_metadata := [] |}.

Definition mt2 : MultiEraTx := {|
  mt_hash := hash 12; mt_is_valid := true; mt_byron_fee := None;
  mt_conway := Some {| voting_procedures := None; donation := None |};
  mt_fee := Some 1; mt_total_collateral := None; mt_consumes := [(hash 11, 0)];
  mt_produces := [(0, view [1; 4; 0])];
  mt_mints := []; mt_certs := []; mt_withdrawals := []; mt_update := None; mt_plutus_data := [];
  mt_gov_proposals := [proposal]; mt_redeemers := []; mt_metadata := [] |}.

Definition mblock : MultiEraBlock := {|
  mb_slot := 10050; mb_hash := hash 3; mb_era := TConway; mb_previous_hash := None; mb_issuer_vkey := None;
  mb_nonce_vrf_output := Some [1]; mb_txs := [mt1; mt2]; mb_update := None |}.

#[export] Existing Instances BoundaryDemo.cfg BoundaryDemo.pallas BoundaryDemo.accounts.
#[export] Instance codecs : MetadataCodecs := {| crc8_smbus _ := 0; cbor_plutus _ := [] |}.
#[export] Instance hasher : Hasher224 := {| blake2b_224 b := take 28 (b ++ replicate 28 7) |}.
#[export] Instance views : Views := {| view_output := output; view_block _ := None |}.
#[export] Instance traversal : Traversal := {| traverse _ := mblock |}.

Definition env : CrawlEnv := mkCrawlEnv demo_genesis PParamsSet.default_ 100 10000 9.

Definition utxos : UtxoMap := {[ (hash 1, 0) := (7, [1; 7; 9]); (hash 2, 0) := (7, [2; 3; 9]) ]}.

Definition account (n coin : Z) : CardanoEntity.t :=
  CardanoEntity.EAccountState ((AccountState.new 100 (cred n))
    <| AccountState.stake := EpochValue.with_live 100 (Stake.mk coin 0 0 0) |>).

Definition before : Snap (E := CardanoEntity.t) :=
  mkSnap {[ account_key (cred 1) := account 1 7; account_key (cred 2) := account 2 3;
            datum_key (hash 9) := CardanoEntity.EDatumState (DatumState.mk 2 [9]);
            EpochState.ns_key := CardanoEntity.EEpochState BoundaryDemo.epoch ]} utxos.

Definition work : WorkBlock.t CardanoDelta.t := WorkBlock.mk block [] ∅ None.
Definition inputs : UtxoMap := batch_inputs utxos [block].
Definition dormancy : DormancyContext := mkDormancyContext 0 [] [].

Definition computed := compute_blocks env inputs dormancy [work].

Lemma computed_succeeds : succeeds_with computed = true.
Proof. vm_compute. reflexivity. Qed.

Definition rolled : list (WorkBlock.t CardanoDelta.t) := the computed computed_succeeds.
Definition rolled_block : WorkBlock.t CardanoDelta.t := hd work rolled.
Definition after : Snap (E := CardanoEntity.t) := run_block before rolled_block.

Lemma rolled_length : length rolled = 1%nat.
Proof. vm_compute. reflexivity. Qed.

Lemma rolled_one : rolled = [rolled_block].
Proof. unfold rolled_block. pose proof rolled_length as Hl. by destruct rolled as [|w [|]]. Qed.

Lemma rolled_runs : block_runs before rolled_block = true.
Proof. vm_compute. reflexivity. Qed.

Lemma rolls : chain before rolled [(WorkBlock.point rolled_block, after)].
Proof. rewrite rolled_one. split; [reflexivity|]. split; [exact (run_block_step _ _ rolled_runs)|exact I]. Qed.

Lemma coins v o : view_output v = Some o -> 0 ≤ out_coin o.
Proof.
  cbn [view_output views]. unfold output. destruct (snd v) as [|c [|coin [|d [|]]]]; try discriminate.
  intros [= <-]. cbn [out_coin]. apply Z.mod_pos_bound. reflexivity.
Qed.

Lemma views_agree : agrees block mblock.
Proof.
  split; [reflexivity|]. split; [reflexivity|]. repeat constructor; vm_compute; reflexivity.
Qed.

Lemma traversals : Forall (fun w => agrees (WorkBlock.block w) (traverse (WorkBlock.raw w))) [work].
Proof. constructor; [exact views_agree|constructor]. Qed.

Lemma block_fresh : outputs_fresh utxos [block].
Proof.
  assert (Ep : map_Forall (fun r _ => utxos !! r = None) (produced_of block)).
  { apply (bool_decide_unpack _). vm_compute. exact I. }
  split; [|exact I]. intros r Hr. split; [destruct Hr as [v Hv]; exact (Ep r v Hv)|intros b' Hb'; destruct (not_elem_of_nil _ Hb')].
Qed.

Lemma block_available : inputs_available utxos [block].
Proof.
  assert (Ec : Forall (fun r => is_Some (produced_of block !! r) \/ is_Some (utxos !! r)) (consumed_of block)).
  { apply (bool_decide_unpack _). vm_compute. exact I. }
  split; [|exact I]. apply Forall_forall. exact Ec.
Qed.

Lemma resolved : resolves_all (s_utxos before) inputs (WorkBlock.block <$> [work]).
Proof. exact (batch_inputs_resolve utxos [block] block_fresh block_available). Qed.

Lemma spends_all u tx :
  NoDup (tx_inputs tx) -> Forall (fun r => is_Some (u !! r)) (tx_inputs tx) ->
  NoDup ((fun o : Z * EraCbor => as_u 32 (fst o)) <$> produces tx) -> spends u tx.
Proof. intros H1 H2 H3. split; [exact H1|]. split; [|exact H3]. apply Forall_forall. exact H2. Qed.

Lemma spending : txs_spend utxos (txs block).
Proof.
  split; [|split; [|exact I]]; apply spends_all; apply (bool_decide_unpack _); vm_compute; exact I.
Qed.

(** The prefixes of the transactions. *)
Lemma below w : total (weight w) utxos < 2 ^ 64 -> total (weight w) (next_tx utxos tx1) < 2 ^ 64 ->
  total (weight w) (next_tx (next_tx utxos tx1) tx2) < 2 ^ 64 -> bounded w (2 ^ 64) utxos (txs block).
Proof.
  intros H0 H1 H2 pre rest E. destruct pre as [|t1 pre]; [exact H0|]. injection E as <- E.
  destruct pre as [|t2 pre]; [exact H1|]. injection E as <- E. destruct pre; [exact H2|discriminate E].
Qed.

Lemma accepted : ledger_blocks (s_utxos before) (WorkBlock.block <$> [work]).
Proof.
  split; [|exact I]. split.
  - apply (bool_decide_unpack _). vm_compute. exact I.
  - exact spending.
  - apply below; vm_compute; reflexivity.
  - apply below; vm_compute; reflexivity.
Qed.

(** *** The state before the block is in step with its outputs *)

Lemma total_utxos w : total w utxos = w (7, [1; 7; 9]) + w (7, [2; 3; 9]).
Proof.
  unfold utxos. rewrite total_insert by (vm_compute; reflexivity). unfold total. by rewrite map_to_list_singleton, Zsum_one.
Qed.

Lemma held k p c coin d : weight (stake_weight k p) (7, [c; coin; d]) =
  if decide (account_key (cred c) = k) then if Bool.eqb false p then as_u 64 coin else 0 else 0.
Proof. reflexivity. Qed.

(** An account with neither credential has no entry, nor is it paid. *)
Lemma stake_before : stake_tracked before.
Proof.
  intros k p Hk. cbn [s_utxos before]. rewrite total_utxos.
  destruct (decide (account_key (cred 1) = k)) as [<-|H1]; [destruct p; vm_compute; reflexivity|].
  destruct (decide (account_key (cred 2) = k)) as [<-|H2]; [destruct p; vm_compute; reflexivity|].
  assert (En : s_entities before !! k = None).
  { cbn [s_entities before]. rewrite !lookup_insert_ne, lookup_singleton_ne; [done|..]; try assumption; intros <-; discriminate Hk. }
  rewrite En. rewrite !held, !decide_False by assumption. reflexivity.
Qed.

Lemma named k c coin : weight (datum_weight k) (7, [c; coin; 9]) = if decide (datum_key (hash 9) = k) then 1 else 0.
Proof. reflexivity. Qed.

Lemma datums_before : datums_tracked before.
Proof.
  intros k Hk. cbn [s_utxos before]. rewrite total_utxos, !named.
  destruct (decide (datum_key (hash 9) = k)) as [<-|Hn]; [split; vm_compute; [discriminate|reflexivity]|].
  assert (En : s_entities before !! k = None).
  { cbn [s_entities before]. rewrite !lookup_insert_ne, lookup_singleton_ne; [done|..]; try assumption; intros <-; discriminate Hk. }
  rewrite En. split; [exact I|reflexivity].
Qed.

Lemma datums_witnessed : Forall witnessed (mb_txs mblock).
Proof.
  constructor; [|constructor; [|constructor]]; intros o h Ho Hd.
  - apply elem_of_cons in Ho as [->|Ho%list_elem_of_singleton].
    + vm_compute in Hd. injection Hd as <-. exists [9]. vm_compute. reflexivity.
    + subst o. vm_compute in Hd. discriminate Hd.
  - apply list_elem_of_singleton in Ho as ->. vm_compute in Hd. discriminate Hd.
Qed.

Lemma witnessed_traversals : Forall (fun w => agrees (WorkBlock.block w) (traverse (WorkBlock.raw w)) /\
  Forall witnessed (mb_txs (traverse (WorkBlock.raw w)))) [work].
Proof. constructor; [split; [exact views_agree|exact datums_witnessed]|constructor]. Qed.

(** After the block the first account holds what the two outputs paid to it
    hold, and the datum is named by the one output left. *)
Lemma accounts_record_utxos_witness :
  stake_tracked after /\ controlled false (s_entities after !! account_key (cred 1)) = 5.
Proof.
  pose proof (accounts_record_utxos coins env inputs dormancy [work] rolled before _ (the_spec computed computed_succeeds)
    rolls traversals resolved accepted stake_before) as H.
  apply Forall_cons in H as [H _]. split; [exact H|]. vm_compute. reflexivity.
Defined.

Lemma datums_count_references_witness :
  datums_tracked after /\ references (s_entities after !! datum_key (hash 9)) = 1.
Proof.
  pose proof (datums_count_references env inputs dormancy [work] rolled before _ (the_spec computed computed_succeeds)
    rolls witnessed_traversals resolved accepted datums_before) as H.
  apply Forall_cons in H as [H _]. split; [exact H|]. vm_compute. reflexivity.
Defined.

(** *** The vote *)

Definition vote : VoteCast.t := VoteCast.new (hash 12) 0 voter VYes 10050.

Definition crawled := crawl env (omap view_output inputs) (new_builder dormancy) mblock.

Lemma crawled_succeeds : succeeds_with crawled = true.
Proof. vm_compute. reflexivity. Qed.

Definition queues : WorkDeltas.t CardanoDelta.t := snd (the crawled crawled_succeeds).

(** The proposal the queue creates has the vote. *)
Definition queue_run := WorkBatch.apply_seq (default [] (queues !! VoteCast.key vote)) (None : option CardanoEntity.t).

Lemma crawled_queues : crawled = Ret (Ok (fst (the crawled crawled_succeeds), queues)).
Proof. rewrite (the_spec crawled crawled_succeeds) at 1. unfold queues. by destruct (the crawled crawled_succeeds). Qed.

Lemma same_block_votes_recorded_witness : exists q e, queue_run = Ret (q, e) /\ is_recorded vote e.
Proof.
  destruct queue_run as [[q e]|] eqn:E; [|vm_compute in E; discriminate E]. exists q, e. split; [reflexivity|].
  refine (same_block_votes_recorded env (omap view_output inputs) dormancy mblock _ queues mt1 mt2 0 proposal _ vote None q e
    crawled_queues _ _ _ eq_refl _ eq_refl eq_refl E).
  - left.
  - vm_compute. left.
  - right. left.
  - vm_compute. left.
Defined.

End CrawlingDemo.
