(* ===== verification/Enactment.v ===== *)
(** * Enacting what was ratified

    The ratification engine enacts the accepted actions on a copy of the
    governance state while it runs; the boundary enacts them again, by the
    deltas it queues on the epoch and on the governance state.  Both end in
    the same parameters, committee and roots. *)

From Stdlib Require Import Sorted.
From S2P Require Import Prelude Lists Types ChainPoint EpochValue EntityDelta Eras PParams Forks Ratio Pots.
From S2P Require Import Accounts Pools DReps Datums Assets Pending Epochs Proposals Hacks Gov Ratify RatifyRule StateStore Shards.
From S2P Require Import Blocks PallasExtras RewardMap Wal Roll CardanoModel Codec Ewrap EwrapDemo.
Open Scope Z_scope.

Import BoundaryWork.

(** The parameters the next epoch would start with. *)
Definition scheduled_pparams (e : EpochState.t) : option PParamsSet.t :=
  match EpochValue.next (EpochState.pparams e) with
  | Some p => Some p
  | None => EpochValue.f_live (EpochState.pparams e)
  end.

(** The stored proposal [q] is the one the engine ruled on as [p]. *)
Record recorded (p : RatifyProposal.t) (q : ProposalState.t) : Prop := {
  rec_action : ProposalState.action q = RatifyProposal.action p;
  rec_purpose : ProposalState.purpose q = action_purpose (RatifyProposal.action p);
  rec_id : ProposalState.gov_action_id q = RatifyProposal.id p;
}.

(** The governance and epoch states agree with a state of the run. *)
Record agrees (r : RunState.t) (g : GovState.t) (e : EpochState.t) : Prop := {
  ag_committee : GovState.committee g = RunState.committee r;
  ag_roots : GovState.prev_gov_action_ids g = RunState.roots r;
  ag_pparams : scheduled_pparams e = Some (RunState.pparams r);
}.

Section enactment.
Context {V S W : Type} `{!EntityCbor V, !StateStore V S W, BuildCfg, Pallas, Addresses}.
Implicit Types (b : BoundaryWork.t).

Lemma apply_all_app ds1 ds2 e :
  apply_all (ds1 ++ ds2) e = (e' ← apply_all ds1 e; apply_all ds2 e').
Proof. apply run_foldl_app. Qed.

(** Withdrawals are queued on accounts only. *)
Lemma queue_withdrawals nk (ws : list (StakeCredential * Z)) (targets : gset StakeCredential) :
  fst nk ≠ NS AccountState.t ->
  queue nk (omap (fun x => if bool_decide (fst x ∈ targets)
                           then Some (CardanoDelta.DTreasuryWithdrawal (TreasuryWithdrawal.new (fst x) (snd x)))
                           else None) ws) = [].
Proof.
  intros Hn. unfold queue. induction ws as [|w ws IH]; cbn [omap list_omap]; [done|].
  case_bool_decide; [|done]. rewrite filter_cons_False; [done|].
  intros <-. by apply Hn.
Qed.

(** The two states after a delta of either. *)
Definition both_after (ds : list CardanoDelta.t) (g : GovState.t) (e : EpochState.t) (P : GovState.t -> EpochState.t -> Prop) : Prop :=
  exists g' e',
    apply_all (queue GovState.ns_key ds) (Some (into g)) = Ret (Some (into g')) /\
    apply_all (queue EpochState.ns_key ds) (Some (into e)) = Ret (Some (into e')) /\ P g' e'.

Lemma both_after_nil g e (P : GovState.t -> EpochState.t -> Prop) : P g e -> both_after [] g e P.
Proof. intros HP. by exists g, e. Qed.

Lemma both_after_app ds1 ds2 g e P :
  both_after ds1 g e (fun g' e' => both_after ds2 g' e' P) -> both_after (ds1 ++ ds2) g e P.
Proof.
  intros (g1 & e1 & Hg & He & g2 & e2 & Hg2 & He2 & HP). exists g2, e2.
  rewrite !queue_app, !apply_all_app, Hg, He. done.
Qed.

Lemma both_after_gov d g e g' P :
  CardanoDelta.key d = GovState.ns_key -> (exists d', CardanoDelta.apply d (Some (into g)) = Ret (d', Some (into g'))) ->
  P g' e -> both_after [d] g e P.
Proof.
  intros Hk [d' Ha] HP. exists g', e. rewrite !queue_one, Hk, decide_True, decide_False by (done || apply gov_key_epoch).
  unfold apply_all. cbn [run_foldl]. by rewrite Ha.
Qed.

Lemma both_after_epoch d g e e' P :
  CardanoDelta.key d = EpochState.ns_key -> (exists d', CardanoDelta.apply d (Some (into e)) = Ret (d', Some (into e'))) ->
  P g e' -> both_after [d] g e P.
Proof.
  intros Hk [d' Ha] HP. exists g, e'. rewrite !queue_one, Hk, decide_False, decide_True by (done || apply not_eq_sym, gov_key_epoch).
  unfold apply_all. cbn [run_foldl]. by rewrite Ha.
Qed.

(** A parameter update merges into the scheduled parameters. *)
Lemma both_after_pparams u g e p P :
  scheduled_pparams e = Some p ->
  (forall e', scheduled_pparams e' = Some (PParamsSet.merge p u) -> P g e') ->
  both_after [CardanoDelta.DPParamsUpdate (PParamsUpdate.new u)] g e P.
Proof.
  intros Hp HP. unfold scheduled_pparams in Hp.
  eapply (both_after_epoch _ _ _ (e <| EpochState.pparams := (EpochState.pparams e) <| EpochValue.f_next :=
    Some (PParamsSet.merge p u) |> |>)); [done| |by apply HP].
  destruct e as [? ? ? [? [x|] l ? ? ?] ? ? ? ? ? ? ? ?]; cbn in Hp; simplify_eq; by eexists.
Qed.

(** The deltas of one proposal take the states where the engine took its own. *)
Lemma enact_one r g e p q targets :
  agrees r g e -> recorded p q ->
  both_after (enactment_deltas q targets) g e (agrees (enacted_state r p)).
Proof.
  intros [Hc Hr Hp] [Ha Hu Hi]. unfold enactment_deltas. apply both_after_app.
  assert (Hroot : forall g' e', GovState.committee g' = RunState.committee (enacted_state r p) ->
    scheduled_pparams e' = Some (RunState.pparams (enacted_state r p)) ->
    GovState.prev_gov_action_ids g' = RunState.roots r ->
    both_after match ProposalState.purpose q with
      | Some purpose =>
          [CardanoDelta.DGovRootsUpdate (GovRootsUpdate.new purpose
             {| transaction_id := ProposalState.tx q; action_index := ProposalState.idx q |})]
      | None => []
      end g' e' (agrees (enacted_state r p))).
  { intros g' e' Hc' Hp' Hr'. rewrite Hu. destruct (action_purpose (RatifyProposal.action p)) as [u|] eqn:Hpu.
    - eapply both_after_gov; [done|by eexists|]. split; cbn; [done| |done]. rewrite Hr', Hpu. do 2 f_equal. by rewrite <- Hi.
    - apply both_after_nil. split; [done| |done]. cbn. by rewrite Hpu. }
  rewrite Ha. unfold enacted_state in *. destruct (RatifyProposal.action p); cbn in Hroot |- *;
    solve [ apply both_after_nil; by apply Hroot
          | eapply both_after_gov; [done|by eexists|]; apply Hroot; cbn; rewrite ?Hc; done
          | eapply both_after_pparams; [done|]; intros; by apply Hroot
          | exists g, e; rewrite !queue_withdrawals by done; split; [done|]; split; [done|]; by apply Hroot ].
Qed.

(** A run of proposals. *)
Lemma enact_many r g e ps qs targets :
  agrees r g e -> Forall2 recorded ps qs ->
  both_after (qs ≫= fun q => enactment_deltas q targets) g e (agrees (foldl enacted_state r ps)).
Proof.
  intros Ha Hps. revert r g e Ha. induction Hps as [|p q ps qs Hpq _ IH]; intros r g e Ha.
  { by apply both_after_nil. }
  cbn [mbind list_bind foldl]. apply both_after_app.
  destruct (enact_one r g e p q targets Ha Hpq) as (g' & e' & Hg & He & Ha').
  exists g', e'. split; [done|]. split; [done|]. by apply IH.
Qed.

Lemma rule_final input r ps vs r' : ratifies input r ps vs r' -> r' = foldl enacted_state r (accepted_of vs).
Proof. induction 1; rewrite ?accepted_of_cons; done. Qed.

(** ** Visiting the enacting proposals *)

Definition same_but_counters (b b' : BoundaryWork.t) : Prop :=
  deliverable_withdrawal_targets b' = deliverable_withdrawal_targets b /\ deltas b' = deltas b.

Lemma enactment_visit_deltas v b q v' b' :
  enactment_visit_proposal v b q = Ret (v', b') ->
  v' = v ++ enactment_deltas q (deliverable_withdrawal_targets b) /\ same_but_counters b b'.
Proof.
  intros Hv. unfold enactment_visit_proposal in Hv. apply bind_Ret in Hv as (b1 & Hb & Hv). apply Ret_inj in Hv.
  injection Hv as <- <-.
  assert (Hs : same_but_counters b b1); [|by rewrite (proj1 Hs)].
  destruct (ProposalState.action q) as [| |ws| | | | |]; try (by apply Ret_inj in Hb as <-).
  revert b Hb. induction ws as [|[c a] ws IH]; intros b Hb; cbn [run_foldl] in Hb; [by apply Ret_inj in Hb as <-|].
  case_bool_decide; apply bind_Ret in Hb as (b2 & Hb2 & Hb); apply bind_Ret in Hb2 as (x & _ & Hb2);
    apply Ret_inj in Hb2 as <-; apply IH in Hb; exact Hb.
Qed.

Lemma visit_enacting_deltas enacting order qs b en refunds b' en' refunds' :
  Forall2 (fun id q => exists account, enacting !! id = Some (q, account)) order qs ->
  run_foldl (visit_enacting_one enacting) (b, en, refunds) order = Ret (b', en', refunds') ->
  en' = en ++ (qs ≫= fun q => enactment_deltas q (deliverable_withdrawal_targets b)) /\ same_but_counters b b'.
Proof.
  intros Hq. revert b en refunds. induction Hq as [|id q order qs [account Hid] _ IH]; intros b en refunds Hv.
  { cbn in Hv. apply Ret_inj in Hv. injection Hv as <- <- <-. cbn. by rewrite app_nil_r. }
  cbn [run_foldl visit_enacting_one] in Hv. rewrite Hid in Hv.
  apply bind_Ret in Hv as (x & Hx & Hv). apply bind_Ret in Hx as ([v1 b1] & Hx & E). apply Ret_inj in E as <-.
  apply enactment_visit_deltas in Hx as [-> [Ht Hd]]. apply IH in Hv as [-> [Ht' Hd']].
  cbn [snd fst mbind list_bind] in *. rewrite Ht, <- app_assoc. split; [done|]. split; congruence.
Qed.

(** ** The keys of the ruling *)

Lemma index_by_id_lookup ps p :
  NoDup (RatifyProposal.id <$> ps) -> p ∈ ps -> index_by_id ps !! RatifyProposal.id p = Some p.
Proof.
  unfold index_by_id. induction ps as [|q ps IH] using rev_ind; [set_solver|].
  rewrite fmap_app, NoDup_app, foldl_snoc. intros (Hd & Hn & _) [Hp| ->%list_elem_of_singleton]%elem_of_app.
  - rewrite lookup_insert_ne; [by apply IH|]. intros E. apply (Hn (RatifyProposal.id p)); [by apply list_elem_of_fmap_2|].
    rewrite <- E. left.
  - apply lookup_insert_eq.
Qed.

Lemma enacted_keys input outcome pruned ps :
  NoDup (RatifyProposal.id <$> RatifyInput.proposals input) ->
  (forall p, p ∈ ps -> p ∈ RatifyInput.proposals input) -> RatifyOutcome.enacted outcome = RatifyProposal.id <$> ps ->
  Ratification.enactment_order (ruling_of input outcome pruned) = RatifyProposal.key <$> ps.
Proof.
  intros Hd Hp He. cbn. rewrite He. clear He. induction ps as [|p ps IH]; [done|].
  cbn. rewrite lookup_fmap, index_by_id_lookup by (done || apply Hp; left). cbn. f_equal. apply IH. set_solver.
Qed.

(** C14: the boundary enacts what the engine enacted: applying the deltas the
    enacting proposals queue, in the order of the ruling, takes the committee,
    the roots and the scheduled parameters exactly where the ratification run
    took its own. *)
Theorem enactment_agrees_with_engine input outcome pruned b refunds b' enactment refunds' g e :
  input_ok input -> NoDup (RatifyProposal.id <$> RatifyInput.proposals input) -> ratify input = Ret outcome ->
  (forall p, p ∈ RatifyInput.proposals input -> RatifyProposal.id p ∈ RatifyOutcome.enacted outcome ->
     exists q account, enacting_proposals b !! RatifyProposal.key p = Some (q, account) /\ recorded p q) ->
  agrees (initial_run input) g e ->
  deltas b !! GovState.ns_key = None -> deltas b !! EpochState.ns_key = None ->
  visit_enacting b (Ratification.enactment_order (ruling_of input outcome pruned)) [] refunds =
    Ret (b', enactment, refunds') ->
  exists ps vs r' g' e',
    ps ≡ₚ RatifyInput.proposals input /\ ratifies input (initial_run input) ps vs r' /\
    RatifyOutcome.enacted outcome = RatifyProposal.id <$> accepted_of vs /\
    apply_all (default [] (deltas (add_deltas b' enactment) !! GovState.ns_key)) (Some (into g)) =
      Ret (Some (into g')) /\
    apply_all (default [] (deltas (add_deltas b' enactment) !! EpochState.ns_key)) (Some (into e)) =
      Ret (Some (into e')) /\
    agrees r' g' e'.
Proof.
  intros Hin Hd Hrat Hq Ha Hg He Hv.
  destruct (ratify_follows_rule input Hin) as (ps & vs & r' & vds & Hp & Hs & Hr & E & _).
  rewrite E in Hrat. apply Ret_inj in Hrat as <-. cbn [RatifyOutcome.enacted] in Hq.
  assert (Hacc : forall p, p ∈ accepted_of vs -> p ∈ RatifyInput.proposals input).
  { intros p Hpin. rewrite <- Hp. by eapply rule_accepted_of. }
  rewrite (enacted_keys input _ pruned (accepted_of vs)) in Hv by done.
  assert (exists qs, Forall2 recorded (accepted_of vs) qs /\
    Forall2 (fun id q => exists account, enacting_proposals b !! id = Some (q, account))
      (RatifyProposal.key <$> accepted_of vs) qs) as (qs & Hrec & Hkeys).
  { assert (Hq' : Forall (fun p => exists q, recorded p q /\
      exists account, enacting_proposals b !! RatifyProposal.key p = Some (q, account)) (accepted_of vs)).
    { apply Forall_forall. intros p Hpin. destruct (Hq p) as (q & account & ? & ?); [auto|by apply list_elem_of_fmap_2|].
      eauto. }
    clear -Hq'. induction Hq' as [|p l (q & Hr & Ha) _ (qs & Hrs & Has)]; [exists []|exists (q :: qs)]; cbn; auto. }
  unfold visit_enacting in Hv. eapply visit_enacting_deltas in Hv as [-> [_ Hdel]]; [|done].
  exists ps, vs, r'. rewrite !add_deltas_queue, Hdel, Hg, He. cbn [default from_option app].
  destruct (enact_many (initial_run input) g e (accepted_of vs) qs (deliverable_withdrawal_targets b) Ha Hrec)
    as (g' & e' & Hg' & He' & Ha').
  rewrite <- (rule_final _ _ _ _ _ Hr) in Ha'. exists g', e'. by split_and!.
Qed.

End enactment.

(** ** The concrete boundary *)

Lemma lift_triple {E A B C} (m : run (A * B * C)) (x : A * B * C) :
  lift (E := E) m = Ret (Ok x) -> m = Ret (fst (fst x), snd (fst x), snd x).
Proof. destruct m as [[[a b] c]|]; cbn; [|done]. intros Hx. apply Ret_inj in Hx. by injection Hx as <-. Qed.

Module EnactmentDemo.
Import BoundaryDemo.

Definition pruned : gset EntityKey := ∅.
Definition order : list EntityKey :=
  Ratification.enactment_order (ruling_of RatifyDemo.input RatifyDemo.outcome pruned).

(** The boundary with the proposals of the run loaded. *)
Definition enacting : BoundaryWork.t :=
  opened <| enacting_proposals := list_to_map
    ((fun p => (RatifyProposal.key p, (proposal p, None))) <$> RatifyInput.proposals RatifyDemo.input) |>.

Lemma visits_succeed : succeeds_with (lift (visit_enacting enacting order [] [])) = true.
Proof. by vm_compute. Qed.

Definition visited : BoundaryWork.t * list CardanoDelta.t * list CardanoDelta.t := the _ visits_succeed.

Lemma visited_spec : visit_enacting enacting order [] [] = Ret (fst (fst visited), snd (fst visited), snd visited).
Proof. exact (lift_triple _ _ (the_spec _ visits_succeed)). Qed.

Lemma enactment_agrees_with_engine_witness :
  length (snd (fst visited)) = 4%nat /\
  exists ps vs r' g' e', ps ≡ₚ RatifyInput.proposals RatifyDemo.input /\
    ratifies RatifyDemo.input (initial_run RatifyDemo.input) ps vs r' /\
    apply_all (default [] (deltas (add_deltas (fst (fst visited)) (snd (fst visited))) !! GovState.ns_key))
      (Some (into gov)) = Ret (Some (into g')) /\
    apply_all (default [] (deltas (add_deltas (fst (fst visited)) (snd (fst visited))) !! EpochState.ns_key))
      (Some (into epoch)) = Ret (Some (into e')) /\ agrees r' g' e'.
Proof.
  split; [by vm_compute|].
  destruct (enactment_agrees_with_engine RatifyDemo.input RatifyDemo.outcome pruned enacting []
    (fst (fst visited)) (snd (fst visited)) (snd visited) gov epoch) as (ps & vs & r' & g' & e' & ? & ? & _ & ? & ? & ?).
  - exact RatifyDemo.input_is_ok.
  - refine (bool_decide_unpack _ _). by vm_compute.
  - by vm_compute.
  - intros p Hp _. exists (proposal p), None.
    split; [|split; [done|done|unfold proposal, ProposalState.gov_action_id; cbn; by destruct (RatifyProposal.id p)]].
    unfold RatifyInput.proposals, RatifyDemo.input in Hp.
    repeat (apply elem_of_cons in Hp as [->|Hp]; [by vm_compute|]). by apply not_elem_of_nil in Hp.
  - by split.
  - by vm_compute.
  - by vm_compute.
  - exact visited_spec.
  - exists ps, vs, r', g', e'. by split_and!.
Defined.

End EnactmentDemo.
