(* ===== verification/Resume.v ===== *)
(** * Resuming an interrupted boundary

    The shards of an epoch close commit one by one, and the cursor in the
    epoch state says which one is next.  A run that stops between two shards
    is resumed where it stopped; one that stops after the last shard has
    nothing left to run. *)

From S2P Require Import Prelude Lists Types ChainPoint EpochValue EntityDelta Eras PParams Forks Ratio Pots.
From S2P Require Import Accounts Pools DReps Datums Assets Pending Epochs Proposals Hacks Gov Ratify StateStore Shards.
From S2P Require Import Blocks PallasExtras RewardMap Wal Roll CardanoModel Codec Ewrap Commits EwrapDemo.
Open Scope Z_scope.

Import BoundaryWork.

Section frames.
Context {V S W : Type} `{!EntityCbor V, !StateStore V S W, BuildCfg, Pallas, Addresses}.
Implicit Types (b : BoundaryWork.t) (s : S).

(** Loading a shard queues nothing. *)

Lemma load_pool_data_deltas b s b' : load_pool_data b s = Ret (Ok b') -> deltas b' = deltas b.
Proof.
  unfold load_pool_data, index_pool_refunds. intros Hl. ok_step.
  assert (deltas a = deltas b) as <-.
  { revert E. apply (for_records_inv (fun a => deltas a = deltas b)); [|done].
    intros ??? _ Hi Hx. ok_inv; subst; cbn; repeat case_match; done. }
  ok_inv; subst; done.
Qed.

Lemma load_drep_data_deltas b s b' : load_drep_data b s = Ret (Ok b') -> deltas b' = deltas b.
Proof.
  unfold load_drep_data. intros Hl. ok_inv. revert Hl.
  apply (for_records_inv (fun a => deltas a = deltas b)); [|done].
  intros ??? _ Hi Hx. ok_inv; subst; cbn; repeat case_match; done.
Qed.

Lemma run_ratification_deltas b s b' : run_ratification b s = Ret (Ok b') -> deltas b' = deltas b.
Proof. unfold run_ratification. intros Hl. ok_inv; subst; done. Qed.

Lemma detect_pv10_deltas b s b' : detect_pv10_migration b s = Ret (Ok b') -> deltas b' = deltas b.
Proof.
  unfold detect_pv10_migration. intros Hl. ok_inv; subst; cbn; try done;
    match goal with E : run_ratification _ _ = _ |- _ => apply run_ratification_deltas in E end;
    by case_match.
Qed.

Lemma load_deposits_deltas b s b' : load_proposal_deposits b s = Ret (Ok b') -> deltas b' = deltas b.
Proof.
  unfold load_proposal_deposits. apply (for_records_inv (fun a => deltas a = deltas b)); [|done].
  intros ??? _ Hi Hx. ok_inv; subst; done.
Qed.

Lemma load_pending_deltas b s ranges b' :
  load_pending_rewards_ranges b s ranges = Ret (Ok b') -> deltas b' = deltas b.
Proof. unfold load_pending_rewards_ranges. intros Hl. ok_inv; subst; done. Qed.

Lemma load_shard_computes s magic i n ranges b :
  load_shard s magic i n ranges = Ret (Ok b) ->
  exists b0, deltas b0 = ∅ /\ compute_shard_deltas b0 s ranges i n = Ret (Ok b).
Proof.
  unfold load_shard. intros Hl. apply rbind_Ret in Hl as (b1 & H1' & Hl).
  apply rbind_Ret in Hl as (b2 & H2' & Hl). apply rbind_Ret in Hl as (b3 & H3' & Hl).
  apply rbind_Ret in Hl as (b4 & H4' & Hl). apply rbind_Ret in Hl as (b5 & H5' & Hl).
  apply rbind_Ret in Hl as (b6 & H6' & Hl). exists b6. split; [|done].
  rewrite (load_pending_deltas _ _ _ _ H6').
  assert (deltas b5 = deltas b4) as ->.
  { destruct (distr_snapshot_epoch b4); [by eapply load_deposits_deltas|]. ok_inv. by subst. }
  rewrite (detect_pv10_deltas _ _ _ H4'), (load_drep_data_deltas _ _ _ H3'), (load_pool_data_deltas _ _ _ H2').
  unfold new_empty in H1'. ok_inv; by subst.
Qed.

(** ** What a shard queues *)

Definition on_account (d : CardanoDelta.t) : Prop := fst (CardanoDelta.key d) = NS AccountState.t.

Lemma queue_on_accounts nk ds : fst nk ≠ NS AccountState.t -> Forall on_account ds -> queue nk ds = [].
Proof. intros Hn Hd. apply filter_none. rewrite Forall_forall in Hd. intros d Hin <-. by apply Hn, Hd. Qed.

Lemma add_deltas_wf b ds : WorkDeltas.wf (deltas b) -> WorkDeltas.wf (deltas (add_deltas b ds)).
Proof.
  unfold add_deltas. revert b. induction ds as [|d ds IH]; intros b Hw; cbn [foldl]; [done|].
  apply IH. exact (WorkDeltas.wf_add (deltas b) d Hw).
Qed.

Lemma rewards_visit_on_accounts v b id account v' b' :
  Forall on_account v -> rewards_visit_account v b id account = Ret (v', b') ->
  Forall on_account v' /\ deltas b' = deltas b.
Proof.
  intros Hv Hr. unfold rewards_visit_account in Hr. apply bind_Ret in Hr as ([[r|] m] & _ & Hr).
  - apply bind_Ret in Hr as (total & _ & Hr). destruct (AccountState.is_registered account); cbn [negb] in Hr.
    + apply Ret_inj in Hr. injection Hr as <- <-. split; [|done]. apply Forall_app. by repeat constructor.
    + apply bind_Ret in Hr as (m' & _ & Hr). apply Ret_inj in Hr. by injection Hr as <- <-.
  - apply Ret_inj in Hr. by injection Hr as <- <-.
Qed.

Lemma drops_visit_on_accounts v b id account :
  Forall on_account v -> Forall on_account (drops_visit_account v b id account).
Proof.
  intros Hv. unfold drops_visit_account. repeat case_match; repeat (apply Forall_app; split); try done; by repeat constructor.
Qed.

Record acc_ok (b : BoundaryWork.t) (a : ShardAcc) : Prop := {
  ao_deltas : deltas (acc_boundary a) = deltas b;
  ao_rewards : Forall on_account (acc_rewards a);
  ao_drops : Forall on_account (acc_drops a);
  ao_migration : Forall on_account (acc_migration a);
}.

Lemma shard_account_acc_ok b snapshot a x a' :
  acc_ok b a -> shard_account snapshot a x = Ret (Ok a') -> acc_ok b a'.
Proof.
  intros [Hd Hr Hp Hm] Hx. destruct x as [id account]. unfold shard_account in Hx.
  apply bind_Ret in Hx as ([v' b'] & Hv & Hx). apply bind_Ret in Hx as (row & _ & Hx).
  apply bind_Ret in Hx as (distr & _ & Hx). apply Ret_inj in Hx. injection Hx as <-.
  apply rewards_visit_on_accounts in Hv as [Hv Hd']; [|done].
  split; cbn [acc_boundary acc_rewards acc_drops acc_migration]; [congruence|done|by apply drops_visit_on_accounts|].
  repeat case_match; repeat (apply Forall_app; split); try done; by repeat constructor.
Qed.

(** The queue of the epoch. *)
Definition epoch_queue (b : BoundaryWork.t) : list CardanoDelta.t := default [] (deltas b !! EpochState.ns_key).

Lemma epoch_queue_accounts b ds : Forall on_account ds -> epoch_queue (add_deltas b ds) = epoch_queue b.
Proof.
  intros Hd. unfold epoch_queue. by rewrite add_deltas_queue, queue_on_accounts, app_nil_r.
Qed.

Lemma rewards_flush_queue v b b' :
  Forall on_account v -> WorkDeltas.wf (deltas b) -> rewards_flush v b = Ret b' ->
  epoch_queue b' = epoch_queue b /\ WorkDeltas.wf (deltas b').
Proof.
  intros Hv Hw Hr. unfold rewards_flush in Hr. apply bind_Ret in Hr as (? & _ & Hr).
  apply bind_Ret in Hr as (? & _ & Hr). apply bind_Ret in Hr as ([cs m] & _ & Hr).
  apply bind_Ret in Hr as (? & _ & Hr). apply Ret_inj in Hr as <-.
  rewrite epoch_queue_accounts by done. split; [done|]. by apply add_deltas_wf.
Qed.

(** The only delta a shard queues on the epoch is its progress. *)
Lemma shard_epoch_queue b s ranges i n b' :
  deltas b = ∅ -> compute_shard_deltas b s ranges i n = Ret (Ok b') ->
  WorkDeltas.wf (deltas b') /\
  exists x y z, deltas b' !! EpochState.ns_key =
    Some [CardanoDelta.DEWrapProgress (EWrapProgress.new x y z i n)].
Proof.
  intros He Hc. unfold compute_shard_deltas in Hc. apply rbind_Ret in Hc as (a & Hl & Hc).
  assert (acc_ok b a) as [Hd Hr Hp Hm].
  { revert Hl. apply (for_each_inv (acc_ok b)); [|by split].
    intros a0 range a1 _ Hi. apply (for_records_inv (acc_ok b)); [|done]. intros ??? _. apply shard_account_acc_ok. }
  apply bind_Ret in Hc as (b1 & Hf & Hc).
  apply rewards_flush_queue in Hf as [Hq1 Hw1]; [|done|by rewrite Hd, He; intros ???; rewrite lookup_empty].
  set (b2 := add_deltas b1 (acc_drops a)) in Hc. set (b3 := add_deltas _ (acc_migration a)) in Hc.
  assert (epoch_queue b3 = [] /\ WorkDeltas.wf (deltas b3)) as [Hq3 Hw3].
  { split.
    - subst b3. rewrite epoch_queue_accounts by done. change (epoch_queue b2 = []). subst b2.
      rewrite epoch_queue_accounts, Hq1 by done. unfold epoch_queue. by rewrite Hd, He, lookup_empty.
    - apply add_deltas_wf. cbn. by apply add_deltas_wf. }
  set (b4 := match distr_snapshot_epoch b with Some _ => _ | None => _ end) in Hc.
  assert (epoch_queue b4 = [] /\ WorkDeltas.wf (deltas b4)) as [Hq4 Hw4].
  { subst b4. destruct (distr_snapshot_epoch b), (acc_distr a) as [[??]?]; [|done..].
    change (add_delta ?b ?d) with (add_deltas b [d]). split; [|by apply add_deltas_wf].
    unfold epoch_queue in *. rewrite add_deltas_queue, Hq3, queue_one, decide_False by apply gov_key_epoch. done. }
  clearbody b4. apply bind_Ret in Hc as (x & _ & Hc). apply bind_Ret in Hc as (y & _ & Hc).
  apply bind_Ret in Hc as (z & _ & Hc). apply Ret_inj in Hc. injection Hc as <-.
  change (add_delta ?b ?d) with (add_deltas b [d]). split; [by apply add_deltas_wf|].
  exists x, y, z. apply default_one. rewrite add_deltas_queue, queue_one, decide_True by done.
  by change (epoch_queue b4 ++ [CardanoDelta.DEWrapProgress (EWrapProgress.new x y z i n)] =
             [CardanoDelta.DEWrapProgress (EWrapProgress.new x y z i n)]); rewrite Hq4.
Qed.

End frames.

(** ** The progress of a shard *)

Section commits.
Context {V S W : Type} `{!EntityCbor V, !StateStore V S W, BuildCfg, Pallas, Addresses}.
Implicit Types (b : BoundaryWork.t) (s : S) (w : W).

(** The plan [initialize] reads. *)
Definition plan (e : EpochState.t) : EwrapWorkUnit :=
  match EpochState.ewrap_progress e with
  | Some p => mkEwrap (ShardProgress.total p) (ShardProgress.committed p)
  | None => mkEwrap ACCOUNT_SHARDS 0
  end.

Lemma initialize_plan s u : initialize s = Ret (Ok u) <-> exists e, load_epoch s = Ret (Ok e) /\ u = plan e.
Proof.
  unfold initialize. rewrite rbind_Ret. split.
  - intros (e & He & Hu). apply Ret_inj in Hu. injection Hu as <-. eauto.
  - intros (e & He & ->). eauto.
Qed.

Lemma progress_apply d e e' :
  apply_all [CardanoDelta.DEWrapProgress d] (Some (into e)) = Ret e' ->
  exists d' x, EWrapProgress.apply d (Some e) = Ret (d', Some x) /\ e' = Some (into x).
Proof.
  unfold apply_all. cbn [run_foldl]. intros Ha. apply bind_Ret in Ha as (e1 & Ha & E1). apply Ret_inj in E1 as <-.
  apply bind_Ret in Ha as ([d1 e2] & Ha & E1). apply Ret_inj in E1 as <-. cbn [CardanoDelta.apply] in Ha.
  apply bind_Ret in Ha as ([d2 e3] & Ha & E1). apply Ret_inj in E1. injection E1 as <- <-.
  unfold downcast_apply in Ha. apply bind_Ret in Ha as ([d4 e4] & Ha & E1). apply Ret_inj in E1.
  injection E1 as <- <-. cbn in Ha. destruct e4 as [x|]; [by exists d4, x|].
  exfalso. unfold EWrapProgress.apply in Ha. cbn in Ha. repeat case_match; run_inv.
Qed.

Lemma commit_shard_epoch b s archive ranges s' archive' ds' i n x y z e :
  WorkDeltas.wf (deltas b) ->
  deltas b !! EpochState.ns_key = Some [CardanoDelta.DEWrapProgress (EWrapProgress.new x y z i n)] ->
  commit_shard b s archive ranges = Ret (Ok (s', archive', ds')) -> load_epoch s = Ret (Ok e) ->
  exists d' e', EWrapProgress.apply (EWrapProgress.new x y z i n) (Some e) = Ret (d', Some e') /\
    load_epoch s' = Ret (Ok e').
Proof.
  intros Hw Hq Hc He. unfold commit_shard in Hc. apply rbind_Ret in Hc as ([ds w] & Hs & Hc).
  assert (WorkDeltas.wf ds /\ ds !! EpochState.ns_key = deltas b !! EpochState.ns_key) as [Hw1 Hd1].
  { refine (for_each_inv (fun a => WorkDeltas.wf (fst a) /\ fst a !! _ = deltas b !! EpochState.ns_key)
              _ _ _ (ds, w) _ _ Hs); [|done].
    intros [ds1 w1] range [ds2 w2] _ [Hw1 Hd1] Hx. cbn [fst] in *.
    apply (stream_other AccountState.t _ _ _ _ _ _ EpochState.ns_key) in Hx as (? & -> & _); done. }
  apply rbind_Ret in Hc as ([[r1 ds1] w1] & Hs1 & Hc). apply rbind_Ret in Hc as ([[r2 ds2] w2] & Hs2 & Hc).
  apply bind_Ret in Hc as (slot & _ & Hc). apply Ret_inj in Hc. injection Hc as <- <- <-.
  apply singleton_spec in Hs1 as (Hw2 & _ & Hs1); [|done|done].
  apply singleton_spec in Hs2 as (_ & Hs2 & _); [|done|done].
  destruct (Hs1 _ ltac:(by rewrite Hd1, Hq)) as (e0 & e1 & Hr & Ha & Hseen).
  destruct e0 as [e0|]; [|unfold load_epoch in He; by rewrite Hr in He].
  assert (e0 = e) as ->.
  { unfold load_epoch in He. rewrite Hr in He. cbn in He. apply Ret_inj in He. by injection He. }
  apply progress_apply in Ha as (d' & e' & Ha & ->). exists d', e'. split; [done|].
  apply load_epoch_seen. exists (to_vec e'). split; [|apply decode_to_vec].
  rewrite seen_commit, !seen_deletes by done. destruct (Hs2 EpochState.ns_key) as [_ ->]; [|done].
  by apply not_eq_sym, gov_key_epoch.
Qed.

(** A shard that runs at the cursor moves it by one. *)
Lemma run_shard_progress u magic sa sa' e :
  load_epoch (fst sa) = Ret (Ok e) -> plan e = u -> 0 ≤ ew_start_shard u ->
  run_shard u magic sa (ew_start_shard u) = Ret (Ok sa') ->
  exists e', load_epoch (fst sa') = Ret (Ok e') /\ plan e' = mkEwrap (ew_total_shards u) (ew_start_shard u + 1).
Proof.
  intros He Hu Hi Hr. unfold run_shard in Hr. apply bind_Ret in Hr as (ranges & Hk & Hr).
  apply rbind_Ret in Hr as (b & Hl & Hr). apply bind_Ret in Hr as (ranges' & _ & Hr).
  apply rbind_Ret in Hr as ([[s' archive'] ds'] & Hc & Hr). apply Ret_inj in Hr. injection Hr as <-. cbn [fst].
  apply load_shard_computes in Hl as (b0 & Hb0 & Hl). apply shard_epoch_queue in Hl as (Hw & x & y & z & Hq); [|done].
  destruct (commit_shard_epoch _ _ _ _ _ _ _ _ _ _ _ _ e Hw Hq Hc He) as (d' & e' & Ha & He').
  exists e'. split; [done|]. apply shard_ranges_bound in Hk as Hb; [|done]. unfold PREFIX_SPACE in Hb.
  assert (Hp : match EpochState.ewrap_progress e with Some p => ShardProgress.committed p | None => 0 end =
               ew_start_shard u) by (subst u; unfold plan; by destruct (EpochState.ewrap_progress e)).
  assert (Ht : match EpochState.ewrap_progress e with
               | Some p => negb (ShardProgress.total p =? ew_total_shards u)
               | None => false end = false).
  { subst u. unfold plan. destruct (EpochState.ewrap_progress e); cbn; [|done]. by rewrite Z.eqb_refl. }
  unfold EWrapProgress.apply in Ha. cbn in Ha. rewrite Hp, Ht, !Z.ltb_irrefl in Ha.
  apply bind_Ret in Ha as (? & _ & Ha). do 3 apply bind_Ret in Ha as (? & _ & Ha).
  rewrite uadd_exact in Ha by (unfold is_u; lia). cbn in Ha. apply Ret_inj in Ha. injection Ha as <- <-. done.
Qed.

(** The shards up to [k] leave the cursor at [k]. *)
Lemma run_shards_progress u magic sa sa' e k :
  load_epoch (fst sa) = Ret (Ok e) -> plan e = u -> 0 ≤ ew_start_shard u ≤ k ->
  for_each (run_shard u magic) sa (seqZ (ew_start_shard u) (k - ew_start_shard u)) = Ret (Ok sa') ->
  exists e', load_epoch (fst sa') = Ret (Ok e') /\ plan e' = mkEwrap (ew_total_shards u) k.
Proof.
  intros He Hu [Hi Hk] Hf. assert (exists m : nat, k = ew_start_shard u + Z.of_nat m) as [m ->].
  { exists (Z.to_nat (k - ew_start_shard u)). lia. }
  clear Hk. replace (ew_start_shard u + Z.of_nat m - ew_start_shard u) with (Z.of_nat m) in Hf by lia.
  revert u sa e He Hu Hi Hf. induction m as [|m IH]; intros u sa e He Hu Hi Hf.
  - cbn in Hf. apply Ret_inj in Hf. injection Hf as <-. exists e. split; [done|]. rewrite Hu, Z.add_0_r. by destruct u.
  - rewrite seqZ_cons in Hf by lia. cbn [for_each] in Hf. apply rbind_Ret in Hf as (sa1 & H1' & Hf).
    destruct (run_shard_progress u magic sa sa1 e He Hu Hi H1') as (e1 & He1 & Hp1).
    destruct (IH (mkEwrap (ew_total_shards u) (ew_start_shard u + 1)) sa1 e1) as (e' & He' & Hp'); [done..|cbn; lia| |].
    + cbn [ew_start_shard]. replace (Z.pred (Z.of_nat (Datatypes.S m))) with (Z.of_nat m) in Hf by lia. exact Hf.
    + exists e'. split; [done|]. rewrite Hp'. cbn. f_equal. lia.
Qed.

(** C6: a boundary interrupted after some of its shards committed is resumed:
    running the unit again on what they left gives what the uninterrupted run
    gives.  When every shard had committed the second run does nothing at
    all, the global pass included. *)
Theorem interrupted_boundary_resumes (magic : Z) (sa sa' : S * gmap (list Z) CardanoEntity.t) u k :
  initialize (fst sa) = Ret (Ok u) -> 0 ≤ ew_start_shard u ≤ k -> k ≤ ew_total_shards u ->
  for_each (run_shard u magic) sa (seqZ (ew_start_shard u) (k - ew_start_shard u)) = Ret (Ok sa') ->
  run_ewrap magic sa' = if k <? ew_total_shards u then run_ewrap magic sa else Ret (Ok sa').
Proof.
  intros Hi Hk Hn Hf. apply initialize_plan in Hi as (e & He & ->).
  destruct (run_shards_progress _ _ _ _ _ _ He eq_refl Hk Hf) as (e' & He' & Hp').
  assert (Hi' : initialize (fst sa') = Ret (Ok (mkEwrap (ew_total_shards (plan e)) k))).
  { apply initialize_plan. eauto. }
  assert (Hi : initialize (fst sa) = Ret (Ok (plan e))) by (apply initialize_plan; eauto).
  unfold run_ewrap. rewrite Hi', Hi. cbn [rbind ew_start_shard ew_total_shards].
  rewrite !debug_assert_holds by (apply Z.leb_le; lia). cbn [mbind run_bind].
  destruct (Z.ltb_spec k (ew_total_shards (plan e))) as [Hlt|Hge].
  - replace (ew_total_shards (plan e) - ew_start_shard (plan e)) with
      ((k - ew_start_shard (plan e)) + (ew_total_shards (plan e) - k)) by lia.
    rewrite seqZ_app, for_each_app, Hf by lia. cbn [rbind].
    replace (ew_start_shard (plan e) + (k - ew_start_shard (plan e))) with k by lia.
    change (run_shard (mkEwrap (ew_total_shards (plan e)) k) magic) with (run_shard (plan e) magic).
    unfold finalize, is_complete. cbn [ew_total_shards ew_start_shard].
    by rewrite (proj2 (Z.leb_gt _ _) Hlt), (proj2 (Z.leb_gt (ew_total_shards (plan e)) (ew_start_shard (plan e)))) by lia.
  - replace (ew_total_shards (plan e) - k) with 0 by lia. cbn [seqZ for_each rbind].
    unfold finalize, is_complete. cbn [ew_total_shards ew_start_shard]. by rewrite (proj2 (Z.leb_le _ _) Hge).
Qed.

End commits.

(** ** The concrete boundary *)

Module ResumeDemo.
Import BoundaryDemo.

Definition unit : EwrapWorkUnit := mkEwrap ACCOUNT_SHARDS 0.

(** The run stopped after [k] shards. *)
Definition shards (k : Z) : run (result ChainError (Tables CardanoEntity.t * gmap (list Z) CardanoEntity.t)) :=
  for_each (run_shard unit 1) (store, ∅) (seqZ 0 (k - 0)).

Lemma some_succeed : succeeds_with (shards 3) = true.
Proof. by vm_compute. Qed.

Lemma all_succeed : succeeds_with (shards 32) = true.
Proof. by vm_compute. Qed.

(** Stopped after three shards the boundary completes; stopped after the last
    one, the MIR of the second account is never paid. *)
Lemma interrupted_boundary_resumes_witness :
  run_ewrap 1 (the _ some_succeed) = run_ewrap 1 (store, ∅) /\
  run_ewrap 1 (the _ all_succeed) = Ret (Ok (the _ all_succeed)) /\
  is_Some (entities (fst (the _ all_succeed)) !! (NS PendingMirState.t, credential_to_key (cred 2))).
Proof.
  split; [|split].
  - apply (interrupted_boundary_resumes 1 (store, ∅) (the _ some_succeed) unit 3).
    + by vm_compute.
    + cbn. lia.
    + cbn. unfold ACCOUNT_SHARDS. lia.
    + exact (the_spec _ some_succeed).
  - apply (interrupted_boundary_resumes 1 (store, ∅) (the _ all_succeed) unit 32).
    + by vm_compute.
    + cbn. lia.
    + cbn. unfold ACCOUNT_SHARDS. lia.
    + exact (the_spec _ all_succeed).
  - eexists. vm_compute. reflexivity.
Defined.

End ResumeDemo.
