(* ===== verification/Estart.v ===== *)
(** * Opening an epoch (cardano/src/estart)

    The open half of the epoch boundary: the rotation of the accounts, shard
    by shard; the global pass that rotates the pools, moves the nonces and the
    pots, and enters the next era when the protocol version changes; the
    reclamation of the unredeemed AVVM outputs; the commits of both. *)

From S2P Require Import Prelude Lists Types ChainPoint EpochValue EntityDelta Eras PParams Forks Ratio Pots.
From S2P Require Import Accounts Pools DReps Epochs Proposals Gov StateStore Shards Indexes.
From S2P Require Import Blocks PallasExtras GenesisFiles Wal Roll IndexBuilder CardanoModel Codec Ewrap.
Open Scope Z_scope.

(** ** The unredeemed AVVM outputs (estart/avvm.rs) *)

Definition SHELLEY : Z := 2.

Module AvvmReclamation.

Record t := mk {
  utxos : UtxoMap;
  total : Z;
}.

Definition default_ : t := mk ∅ 0.

Definition is_empty (a : t) : bool := bool_decide (utxos a = ∅).

(** [consumed_utxo: self.utxos.clone(), ..Default::default()]. *)
Definition deletion_delta (a : t) : UtxoSetDelta.t := UtxoSetDelta.mk ∅ (utxos a) ∅ ∅.

Section ops.
Context {V S W : Type} `{!EntityCbor V, !StateStore V S W, BuildCfg, GenesisUtxos}.

Definition genesis_refs (g : Genesis) : list TxoRef := (fun x => (x.1.1, 0)) <$> genesis_avvm_utxos (byron g).

(** The loop over [utxos.values()]. *)
Fixpoint sum_coins (total : Z) (l : list EraCbor) : run (result ChainError Z) :=
  match l with
  | [] => Ret (Ok total)
  | utxo :: rest =>
      match output_coin utxo with
      | None => Ret (Err DecodingError)
      | Some coin => total ← uadd 64 total coin; sum_coins total rest
      end
  end.

Definition unredeemed (s : S) (g : Genesis) : run (result ChainError t) :=
  let refs := genesis_refs g in
  match refs with
  | [] => Ret (Ok default_)
  | _ =>
      let utxos := get_utxos s refs in
      total ←? sum_coins 0 (snd <$> map_to_list utxos);
      Ret (Ok (mk utxos total))
  end.

Definition at_boundary (s : S) (g : Genesis) : run (result ChainError t) :=
  ended_state ←? load_epoch s;
  transition ← era_transition (EpochState.pparams ended_state);
  if match transition with Some x => EraTransition.entering_allegra x | None => false end
  then unredeemed s g
  else Ret (Ok default_).

Definition boundary_crossed (s : S) : run (result ChainError bool) :=
  shelley ←? read_typed EraSummary.t s (era_protocol_key SHELLEY);
  Ret (Ok match shelley with Some x => bool_decide (is_Some (EraSummary.end_ x)) | None => false end).

End ops.
End AvvmReclamation.

(** The repair path of [dolos doctor reclaim-avvm]. *)
Definition index_deletion `{Addresses, Views, Xxh3} (indexes : MemoryIndex.t) (d : UtxoSetDelta.t) :
    run (result ChainError MemoryIndex.t) :=
  let cursor := default ChainPoint.Origin (MemoryIndex.cursor indexes) in
  ops ← MemoryIndex.apply (Builder.index_delta_from_utxo_delta cursor d);
  Ret match ops with
      | Ok ops => Ok (MemoryIndex.commit ops indexes)
      | Err e => Err (ChainIndex e)
      end.

Definition apply_deletion {V S W : Type} `{!StateStore V S W, Addresses, Views, Xxh3} (a : AvvmReclamation.t)
    (s : S) (indexes : MemoryIndex.t) : run (result ChainError (S * MemoryIndex.t)) :=
  if AvvmReclamation.is_empty a then Ret (Ok (s, indexes))
  else
    let delta := AvvmReclamation.deletion_delta a in
    let s := commit (apply_utxoset (start_writer s) delta) s in
    indexes ←? index_deletion indexes delta;
    Ret (Ok (s, indexes)).

(** ** The context of the boundary (estart/mod.rs) *)

Module WorkContext.

Record t := mk {
  ended_state : EpochState.t;
  active_protocol : EraProtocol;
  chain_summary : ChainSummary.t;
  genesis : Genesis;
  avvm_reclamation : AvvmReclamation.t;
  deltas : WorkDeltas.t CardanoDelta.t;
  logs : list (EntityKey * CardanoEntity.t);
}.

#[global] Instance eta_t : Eta t := fun r =>
  mk (ended_state r) (active_protocol r) (chain_summary r) (genesis r) (avvm_reclamation r) (deltas r) (logs r).

Section ops.
Context `{BuildCfg, Pallas}.

Definition starting_epoch_no (c : t) : run Epoch := uadd 64 (EpochState.number (ended_state c)) 1.

Definition add_delta (c : t) (d : CardanoDelta.t) : t :=
  c <| deltas := WorkDeltas.add_for_entity (deltas c) d |>.

End ops.
End WorkContext.
Import WorkContext.

(** ** The new pots (estart/reset.rs) *)

Section visitors.
Context `{BuildCfg, Pallas}.

Definition pot_delta (c : WorkContext.t) (rolling : RollingStats.t) (end_ : EndStats.t) : run PotDelta.t :=
  let epoch := ended_state c in
  pparams ← EpochValue.unwrap_live (EpochState.pparams epoch);
  key_deposit ← PParamsSet.key_deposit pparams;
  pool_deposit ← PParamsSet.pool_deposit_or_default pparams;
  protocol_version ← PParamsSet.protocol_major_or_default pparams;
  mark_protocol_version ← (match EpochValue.mark (EpochState.pparams epoch) with
                           | Some p => PParamsSet.protocol_major_or_default p
                           | None => PParamsSet.protocol_major_or_default pparams
                           end);
  Ret {| PotDelta.produced_utxos := RollingStats.produced_utxos rolling;
         PotDelta.consumed_utxos := RollingStats.consumed_utxos rolling;
         PotDelta.gathered_fees := RollingStats.gathered_fees rolling;
         PotDelta.deposit_per_account := key_deposit;
         PotDelta.deposit_per_pool := Some pool_deposit;
         PotDelta.new_accounts := RollingStats.new_accounts rolling;
         PotDelta.removed_accounts := RollingStats.removed_accounts rolling;
         PotDelta.withdrawals := RollingStats.withdrawals rolling;
         PotDelta.drep_deposits := RollingStats.drep_deposits rolling;
         PotDelta.proposal_deposits := RollingStats.proposal_deposits rolling;
         PotDelta.drep_refunds := RollingStats.drep_refunds rolling;
         PotDelta.treasury_donations := RollingStats.treasury_donations rolling;
         PotDelta.reserve_mirs := EndStats.reserve_mirs end_;
         PotDelta.treasury_mirs := EndStats.treasury_mirs end_;
         PotDelta.treasury_withdrawals := EndStats.treasury_withdrawals end_;
         PotDelta.proposal_refunds := EndStats.proposal_refunds end_;
         PotDelta.proposal_invalid_refunds := EndStats.proposal_invalid_refunds end_;
         PotDelta.effective_rewards := EndStats.effective_rewards end_;
         PotDelta.unspendable_to_treasury := EndStats.unspendable_to_treasury end_;
         PotDelta.unspendable_to_reserves := EndStats.unspendable_to_reserves end_;
         PotDelta.pool_deposit_count := EndStats.pool_deposit_count end_;
         PotDelta.pool_refund_count := EndStats.pool_refund_count end_;
         PotDelta.pool_invalid_refund_count := EndStats.pool_invalid_refund_count end_;
         PotDelta.protocol_version := protocol_version;
         PotDelta.mark_protocol_version := mark_protocol_version;
         PotDelta.avvm_reclamation := AvvmReclamation.total (avvm_reclamation c) |}.

Definition define_new_pots (c : WorkContext.t) : run Pots.t :=
  let epoch := ended_state c in
  rolling ← EpochValue.unwrap_live (EpochState.rolling epoch);
  end_ ← expect (EpochState.end_ epoch);
  delta ← pot_delta c rolling end_;
  pots ← apply_delta (EpochState.initial_pots epoch) (EndStats.epoch_incentives end_) delta;
  expected ← Pots.max_supply (EpochState.initial_pots epoch);
  consistent ← Pots.is_consistent pots expected;
  _ ← debug_assert consistent;
  Ret pots.

Definition reset_visit_account (c : WorkContext.t) (id : EntityKey) : run WorkContext.t :=
  epoch ← starting_epoch_no c;
  Ret (add_delta c (CardanoDelta.DAccountTransition (AccountTransition.new id epoch))).

Definition reset_visit_pool (c : WorkContext.t) (id : EntityKey) : run WorkContext.t :=
  epoch ← starting_epoch_no c;
  Ret (add_delta c (CardanoDelta.DPoolTransition (PoolTransition.new id epoch))).

Definition emit_epoch_transition (c : WorkContext.t) : run WorkContext.t :=
  new_pots ← define_new_pots c;
  transition ← era_transition (EpochState.pparams (ended_state c));
  epoch ← starting_epoch_no c;
  Ret (add_delta c (CardanoDelta.DEpochTransitionV2
    (EpochTransitionV2.new epoch new_pots transition (Some (genesis c))))).

(** ** The nonces (estart/nonces.rs) *)

Definition next_largest_stable_slot (c : WorkContext.t) : run BlockSlot :=
  window ← nonce_stability_window (active_protocol c) (genesis c);
  epoch ← starting_epoch_no c;
  epoch ← uadd 64 epoch 1;
  finish ← ChainSummary.epoch_start (chain_summary c) epoch;
  sub_ 64 finish window.

Definition initial_nonces (c : WorkContext.t) : run (option Nonces.t) :=
  transition ← era_transition (EpochState.pparams (ended_state c));
  Ret match transition with
      | Some x => if EraTransition.entering_shelley x then Some (Nonces.bootstrap (shelley_hash (genesis c))) else None
      | None => None
      end.

Definition next_nonce (c : WorkContext.t) : run (option Nonces.t) :=
  match EpochState.nonces (ended_state c) with
  | None => initial_nonces c
  | Some current => Ret (Some (Nonces.sweep current (EpochState.previous_nonce_tail (ended_state c)) None))
  end.

Definition nonces_flush (c : WorkContext.t) : run WorkContext.t :=
  next_slot ← next_largest_stable_slot c;
  nonce ← next_nonce c;
  Ret (add_delta c (CardanoDelta.DNonceTransition (NonceTransition.new nonce next_slot))).

End visitors.

(** ** Loading (estart/loading.rs) *)

(** The archive of logs: the rows written, the last one of a key winning. *)
Abbreviation Archive := (gmap (list Z) CardanoEntity.t) (only parsing).

Section loading.
Context {V S W : Type} `{!EntityCbor V, !StateStore V S W, BuildCfg, Pallas, GenesisUtxos}.

(** The DReps and proposals are read, so that a row that does not decode is
    an error, but no visitor does anything with them. *)
Definition compute_global_deltas (c : WorkContext.t) (s : S) : run (result ChainError WorkContext.t) :=
  c ←? for_records (fun c x => lift (reset_visit_pool c (fst x))) c (iter_entities_typed PoolState.t s None);
  c ←? for_records (fun c _ => Ret (Ok c)) c (iter_entities_typed DRepState.t s None);
  c ←? for_records (fun c _ => Ret (Ok c)) c (iter_entities_typed ProposalState.t s None);
  c ← nonces_flush c;
  c ← emit_epoch_transition c;
  transition ← era_transition (EpochState.pparams (ended_state c));
  match transition with
  | Some x =>
      if EraTransition.entering_conway x then
        match gov_from_conway_genesis (conway (genesis c)) with
        | Err e => Ret (Err e)
        | Ok (constitution, committee) =>
            epoch ← starting_epoch_no c;
            Ret (Ok (add_delta c (CardanoDelta.DGovGenesisInit (GovGenesisInit.new constitution committee epoch))))
        end
      else Ret (Ok c)
  | None => Ret (Ok c)
  end.

Definition new_empty_with_avvm (s : S) (g : Genesis) (avvm : AvvmReclamation.t) :
    run (result ChainError WorkContext.t) :=
  ended_state ←? load_epoch s;
  chain_summary ←? load_eras s;
  edge ← ChainSummary.edge chain_summary;
  Ret (Ok (WorkContext.mk ended_state (EraSummary.protocol edge) chain_summary g avvm ∅ [])).

Definition new_empty (s : S) (g : Genesis) : run (result ChainError WorkContext.t) :=
  avvm ←? AvvmReclamation.at_boundary s g;
  new_empty_with_avvm s g avvm.

Definition load_finalize (s : S) (g : Genesis) : run (result ChainError WorkContext.t) :=
  c ←? new_empty s g;
  compute_global_deltas c s.

Definition compute_shard_deltas (c : WorkContext.t) (s : S) (ranges : list (EntityKey * EntityKey))
    (shard_index total_shards : Z) : run (result ChainError WorkContext.t) :=
  c ←? for_each (fun c range =>
      for_records (fun c x => lift (reset_visit_account c (fst x))) c
        (iter_entities_typed AccountState.t s (Some range))) c ranges;
  Ret (Ok (add_delta c (CardanoDelta.DEStartProgress (EStartProgress.new shard_index total_shards)))).

Definition load_shard (s : S) (g : Genesis) (avvm : AvvmReclamation.t) (shard_index total_shards : Z)
    (ranges : list (EntityKey * EntityKey)) : run (result ChainError WorkContext.t) :=
  c ←? new_empty_with_avvm s g avvm;
  compute_shard_deltas c s ranges shard_index total_shards.

(** ** Commits (estart/commit.rs) *)

Record EraTransitionData := {
  prev_key : EntityKey;
  prev_summary : EraSummary.t;
  new_key : EntityKey;
  new_summary : EraSummary.t;
}.

Definition collect_era_transition (c : WorkContext.t) (s : S) : run (result ChainError (option EraTransitionData)) :=
  transition ← era_transition (EpochState.pparams (ended_state c));
  match transition with
  | None => Ret (Ok None)
  | Some x =>
      previous ←? read_typed EraSummary.t s (era_protocol_key (EraTransition.prev_version x));
      match previous with
      | None => Ret (Err (BrokenInv BadBootstrap))
      | Some previous =>
          epoch ← starting_epoch_no c;
          previous ← EraSummary.define_end previous epoch;
          consts ← protocol_constants (EraTransition.new_version x) (genesis c);
          start ← expect (EraSummary.end_ previous);
          Ret (Ok (Some {|
            prev_key := era_protocol_key (EraTransition.prev_version x);
            prev_summary := previous;
            new_key := era_protocol_key (EraTransition.new_version x);
            new_summary := EraSummary.mk start None (pc_epoch_length consts) (pc_slot_length consts)
                             (EraTransition.new_version x) |}))
      end
  end.

Definition write_logs (archive : Archive) (slot : BlockSlot) (logs : list (EntityKey * CardanoEntity.t)) : Archive :=
  foldl (fun m x => <[log_key slot (fst x) := snd x]> m) archive logs.

Definition commit_shard (c : WorkContext.t) (s : S) (archive : Archive) (ranges : list (EntityKey * EntityKey)) :
    run (result ChainError (S * Archive)) :=
  x ←? for_each (fun acc range =>
      stream_and_apply_namespace AccountState.t (fst acc) s (snd acc) (Some range))
      (deltas c, start_writer s) ranges;
  x ←? apply_singleton EpochState.t EpochState.ns_key (fst x) s (snd x);
  let '(_, _, w) := x in
  epoch ← starting_epoch_no c;
  start_of_epoch ← ChainSummary.epoch_start (chain_summary c) epoch;
  Ret (Ok (commit w s, write_logs archive start_of_epoch (logs c))).

Definition all_shards_committed (e : EpochState.t) : bool :=
  match EpochState.estart_progress e with
  | Some p => ShardProgress.committed p =? ShardProgress.total p
  | None => false
  end.

Definition write_era_transition (w : W) (t : option EraTransitionData) : W :=
  match t with
  | Some t =>
      let w := write_entity w (NS EraSummary.t) (prev_key t) (to_vec (prev_summary t)) in
      write_entity w (NS EraSummary.t) (new_key t) (to_vec (new_summary t))
  | None => w
  end.

Context `{Addresses, Views, Xxh3}.

Definition commit_finalize (c : WorkContext.t) (s : S) (archive : Archive) (indexes : MemoryIndex.t)
    (slot : BlockSlot) : run (result ChainError (S * Archive * MemoryIndex.t)) :=
  let progress := EpochState.estart_progress (ended_state c) in
  if negb (all_shards_committed (ended_state c)) then
    Ret (Err (BrokenInv (EpochBoundaryIncomplete (EpochState.number (ended_state c))
      (ShardProgress.committed <$> progress) (ShardProgress.total <$> progress))))
  else
    transition ←? collect_era_transition c s;
    epoch ← starting_epoch_no c;
    start_of_epoch ← ChainSummary.epoch_start (chain_summary c) epoch;
    x ←? stream_and_apply_namespace PoolState.t (deltas c) s (start_writer s) None;
    x ←? stream_and_apply_namespace DRepState.t (fst x) s (snd x) None;
    x ←? stream_and_apply_namespace ProposalState.t (fst x) s (snd x) None;
    x ←? apply_singleton EpochState.t EpochState.ns_key (fst x) s (snd x);
    let '(_, ds, w) := x in
    x ←? apply_singleton GovState.t GovState.ns_key ds s w;
    let '(_, _, w) := x in
    let reclamation := avvm_reclamation c in
    let deletion := AvvmReclamation.deletion_delta reclamation in
    let w := if AvvmReclamation.is_empty reclamation then w else apply_utxoset w deletion in
    let w := write_era_transition w transition in
    let archive := write_logs archive start_of_epoch (logs c) in
    let s := commit (set_cursor w (ChainPoint.Slot slot)) s in
    if AvvmReclamation.is_empty reclamation then Ret (Ok (s, archive, indexes))
    else
      indexes ←? index_deletion indexes deletion;
      Ret (Ok (s, archive, indexes)).

(** ** The work unit (estart/work_unit.rs) *)

Record EstartWorkUnit := mkEstart {
  es_slot : BlockSlot;
  es_genesis : Genesis;
  es_total_shards : Z;
  es_start_shard : Z;
  es_avvm_reclamation : AvvmReclamation.t;
}.

(** What a unit reads and writes: the state, the archive and the indexes. *)
Abbreviation Stores := (S * Archive * MemoryIndex.t)%type (only parsing).

Definition initialize (slot : BlockSlot) (g : Genesis) (s : S) : run (result ChainError EstartWorkUnit) :=
  epoch ←? load_epoch s;
  let progress := EpochState.estart_progress epoch in
  let total := match progress with Some p => ShardProgress.total p | None => ACCOUNT_SHARDS end in
  let start := match progress with Some p => ShardProgress.committed p | None => 0 end in
  avvm ←? AvvmReclamation.at_boundary s g;
  Ret (Ok (mkEstart slot g total start avvm)).

(** One shard: load, then commit. *)
Definition run_shard (u : EstartWorkUnit) (d : Stores) (shard_index : Z) : run (result ChainError Stores) :=
  let '(s, archive, indexes) := d in
  ranges ← shard_key_ranges shard_index (es_total_shards u);
  c ←? load_shard s (es_genesis u) (es_avvm_reclamation u) shard_index (es_total_shards u) ranges;
  ranges ← shard_key_ranges shard_index (es_total_shards u);
  x ←? commit_shard c s archive ranges;
  Ret (Ok (fst x, snd x, indexes)).

Definition finalize (u : EstartWorkUnit) (d : Stores) : run (result ChainError Stores) :=
  let '(s, archive, indexes) := d in
  c ←? load_finalize s (es_genesis u);
  commit_finalize c s archive indexes (es_slot u).

(** The unit as the executor runs it: initialize, the shards from the resume
    cursor on, finalize. *)
Definition run_estart (slot : BlockSlot) (g : Genesis) (d : Stores) : run (result ChainError Stores) :=
  u ←? initialize slot g (fst (fst d));
  _ ← debug_assert (es_start_shard u <=? es_total_shards u);
  d ←? for_each (run_shard u) d (seqZ (es_start_shard u) (es_total_shards u - es_start_shard u));
  finalize u d.

End loading.
