(* ===== verification/Opening.v ===== *)
(** * What opening an epoch guarantees

    Each shard rotates exactly the accounts of its key ranges, once; an
    interrupted opening is resumed at the shard where it stopped, and the
    global pass, which runs only when every shard has committed, cannot run
    twice.  Every row it writes is accounted for, and so is every pot. *)

From S2P Require Import Prelude Lists Types ChainPoint EpochValue EntityDelta Eras PParams Forks Ratio Pots.
From S2P Require Import Accounts Pools DReps Epochs Proposals Gov StateStore Shards Indexes.
From S2P Require Import Blocks PallasExtras GenesisFiles RewardMap Wal Roll IndexBuilder CardanoModel Codec Ewrap Commits EwrapDemo Estart.
Open Scope Z_scope.

Import WorkContext.

Section shards.
Context {V S W : Type} `{!EntityCbor V, !StateStore V S W, BuildCfg, Pallas, GenesisUtxos}.
Implicit Types (c : WorkContext.t) (s : S) (w : W).

(** ** What a shard queues *)

Definition with_deltas c (l : list CardanoDelta.t) : WorkContext.t :=
  c <| deltas := foldl WorkDeltas.add_for_entity (deltas c) l |>.

Lemma with_deltas_app c l1 l2 : with_deltas c (l1 ++ l2) = with_deltas (with_deltas c l1) l2.
Proof. unfold with_deltas. cbn. by rewrite foldl_app. Qed.

Definition rotation (epoch : Epoch) (k : EntityKey) : CardanoDelta.t :=
  CardanoDelta.DAccountTransition (AccountTransition.new k epoch).

(** The keys of the rows of a namespace in a range. *)
Definition keys_in (s : S) (ns : string) (range : EntityKey * EntityKey) : list EntityKey := (iter_entities s ns range).*1.

(** A loop that queues one delta per row queues them all. *)
Lemma visits (T : Type) `{!Entity T, !Minicbor T V} (delta : EntityKey -> CardanoDelta.t)
    (visit : WorkContext.t -> EntityKey -> run WorkContext.t) s range c c' epoch :
  (forall c k, starting_epoch_no c = Ret epoch -> visit c k = Ret (with_deltas c [delta k])) ->
  starting_epoch_no c = Ret epoch ->
  for_records (fun c x => lift (visit c (fst x))) c (iter_entities_typed T s (Some range)) = Ret (Ok c') ->
  c' = with_deltas c (delta <$> keys_in s (NS T) range) /\ starting_epoch_no c' = Ret epoch.
Proof.
  intros Hv He Hf. unfold iter_entities_typed in Hf. change (default full_range (Some range)) with range in Hf. unfold keys_in.
  apply decoded_rows in Hf as (l & Hl & <- & _).
  revert c He Hl. induction l as [|[k x] l IH]; intros c He Hl; cbn [for_each] in Hl.
  { apply Ret_inj in Hl. injection Hl as <-. split; [by destruct c|done]. }
  apply rbind_Ret in Hl as (c1 & H1' & Hl). cbn [fst] in H1'. rewrite (Hv c k He) in H1'. apply Ret_inj in H1'.
  injection H1' as <-. apply IH in Hl as [-> Hs]; [|done]. split; [|done].
  cbn [fmap list_fmap fst]. change (?d :: ?l) with ([d] ++ l). by rewrite with_deltas_app.
Qed.

Lemma visit_account_rotation c k epoch :
  starting_epoch_no c = Ret epoch -> reset_visit_account c k = Ret (with_deltas c [rotation epoch k]).
Proof. intros He. unfold reset_visit_account. by rewrite He. Qed.

(** The context of a shard: the rotations of its accounts and its progress. *)
Lemma shard_context s g avvm i n ranges c e epoch :
  load_epoch s = Ret (Ok e) -> uadd 64 (EpochState.number e) 1 = Ret epoch ->
  load_shard s g avvm i n ranges = Ret (Ok c) ->
  ended_state c = e /\ logs c = [] /\
  deltas c = foldl WorkDeltas.add_for_entity ∅
    ((rotation epoch <$> (ranges ≫= keys_in s (NS AccountState.t))) ++
     [CardanoDelta.DEStartProgress (EStartProgress.new i n)]).
Proof.
  intros He Hep Hl. unfold load_shard, new_empty_with_avvm in Hl. rewrite He in Hl. cbn [rbind] in Hl.
  apply rbind_Ret in Hl as (c0 & Hc0 & Hl). apply rbind_Ret in Hc0 as (summary & _ & Hc0).
  apply bind_Ret in Hc0 as (edge & _ & Hc0). apply Ret_inj in Hc0. injection Hc0 as Hc0.
  unfold compute_shard_deltas in Hl. apply rbind_Ret in Hl as (c1 & Hc1 & Hl). apply Ret_inj in Hl. injection Hl as <-.
  assert (c1 = with_deltas c0 (rotation epoch <$> (ranges ≫= keys_in s (NS AccountState.t)))) as ->.
  { assert (Hs0 : starting_epoch_no c0 = Ret epoch) by (by subst c0). clear Hc0.
    revert c0 Hs0 Hc1. induction ranges as [|r ranges IH]; intros c0 Hs0 Hc1; cbn [for_each] in Hc1.
    { apply Ret_inj in Hc1. injection Hc1 as <-. by destruct c0. }
    apply rbind_Ret in Hc1 as (c2 & Hc2 & Hc1).
    apply (visits _ (rotation epoch) _ _ _ _ _ epoch) in Hc2 as [-> Hs]; [|intros; by apply visit_account_rotation|done].
    rewrite (IH _ Hs Hc1). cbn [mbind list_bind]. by rewrite fmap_app, with_deltas_app. }
  subst c0. cbn. split; [done|]. split; [done|]. by rewrite foldl_app.
Qed.

Definition in_range (k : EntityKey) (r : EntityKey * EntityKey) : Prop := key_in_range r k = true.

#[export] Instance in_range_dec k r : Decision (in_range k r).
Proof. unfold in_range. apply _. Defined.

(** The deltas queued on a stored row when each visit of a row queues one: as
    many as there are ranges that hold it. *)
Lemma visits_queue (delta : EntityKey -> CardanoDelta.t) ns s k v ranges :
  (forall k, CardanoDelta.key (delta k) = (ns, k)) -> entities (tables s) !! (ns, k) = Some v ->
  queue (ns, k) (delta <$> (ranges ≫= keys_in s ns)) = (fun _ => delta k) <$> filter (in_range k) ranges.
Proof.
  intros Hd Hv. induction ranges as [|r ranges IH]; [done|]. cbn [mbind list_bind]. rewrite fmap_app, queue_app, IH.
  rewrite filter_cons. assert (Hk : k ∈ keys_in s ns r <-> key_in_range r k = true).
  { unfold keys_in. rewrite list_elem_of_fmap. split.
    - intros ([k' v'] & -> & [_ Hx]%iter_entities_spec). exact Hx.
    - intros Hr. exists (k, v). split; [done|]. by apply iter_entities_spec. }
  assert (Hn : NoDup (keys_in s ns r)) by apply iter_entities_nodup.
  revert Hk Hn. generalize (keys_in s ns r) as ks. intros ks Hk Hn.
  assert (Hq : queue (ns, k) (delta <$> ks) = if decide (k ∈ ks) then [delta k] else []).
  { clear Hk. induction Hn as [|k' ks Hni Hn IHks]; [done|]. cbn [fmap list_fmap].
    change (?d :: ?l) with ([d] ++ l) at 1. rewrite queue_app, queue_one, IHks, Hd.
    destruct (decide (k' = k)) as [->|Hne].
    - rewrite decide_True by done. rewrite decide_False by done. by rewrite decide_True by left.
    - rewrite decide_False by (intros [= E]; done). cbn. apply decide_ext. rewrite elem_of_cons. naive_solver. }
  rewrite Hq. destruct (decide (k ∈ ks)) as [Hi|Hi].
  - rewrite decide_True by (by apply Hk). done.
  - rewrite decide_False by (by rewrite <- Hk). done.
Qed.

(** A queue of another key. *)
Lemma visits_queue_other (delta : EntityKey -> CardanoDelta.t) ns ks nk :
  (forall k, CardanoDelta.key (delta k) = (ns, k)) -> fst nk ≠ ns -> queue nk (delta <$> ks) = [].
Proof.
  intros Hd Hn. apply filter_none. intros d (k & -> & _)%list_elem_of_fmap E. apply Hn. rewrite <- E. by rewrite Hd.
Qed.

(** ** What a shard commits *)

Lemma stream_ranges s ranges ds w ds' w' :
  WorkDeltas.wf ds ->
  for_each (fun acc range => stream_and_apply_namespace AccountState.t (fst acc) s (snd acc) (Some range))
    (ds, w) ranges = Ret (Ok (ds', w')) ->
  WorkDeltas.wf ds' /\ rest_of (after w' s) = rest_of (after w s) /\
  (forall nk, (fst nk = NS AccountState.t -> ~ Exists (in_range (snd nk)) ranges) ->
     ds' !! nk = ds !! nk /\ seen w' s nk = seen w s nk) /\
  (forall k v a, entities (tables s) !! (NS AccountState.t, k) = Some v -> decode v = Some a ->
     Exists (in_range k) ranges ->
     streamed AccountState.t (ds !! (NS AccountState.t, k)) a
       (seen w s (NS AccountState.t, k)) (seen w' s (NS AccountState.t, k))).
Proof.
  revert ds w. induction ranges as [|r ranges IH]; intros ds w Hw Hf; cbn [for_each] in Hf.
  { apply Ret_inj in Hf. injection Hf as <- <-. split; [done|]. split; [done|]. split; [done|].
    intros k v a _ _ He. by apply Exists_nil in He. }
  apply rbind_Ret in Hf as ([ds1 w1] & H1' & Hf). cbn [fst snd] in H1'.
  pose proof (rest_stream _ _ _ _ _ _ _ H1') as Hr1. pose proof (stream_rows _ _ _ _ _ _ _ Hw H1') as (Hw1 & Ho1 & Hs1).
  destruct (IH ds1 w1 Hw1 Hf) as (Hw2 & Hr2 & Ho2 & Hs2). split; [done|]. split; [congruence|]. split.
  - intros nk Hn. destruct (decide (fst nk = NS AccountState.t)) as [Hk|Hk].
    + destruct nk as [ns k]. cbn [fst snd] in *. subst ns. specialize (Hn eq_refl). rewrite Exists_cons in Hn.
      destruct (Ho2 (NS AccountState.t, k)) as [-> ->]; [tauto|]. apply Ho1.
      apply not_true_is_false. unfold in_range in Hn. cbn. tauto.
    + destruct (Ho2 nk) as [-> ->]; [done|].
      apply (stream_other AccountState.t _ _ _ _ _ _ nk) in H1' as (_ & -> & ->); done.
  - intros k v a Hv Hd He. destruct (key_in_range r k) eqn:Hk.
    + destruct (Hs1 k v a Hv Hd Hk) as [Hn1 Hs]. assert (seen w' s (NS AccountState.t, k) = seen w1 s (NS AccountState.t, k)) as ->; [|done].
      destruct (decide (Exists (in_range k) ranges)) as [Hex|Hex].
      * specialize (Hs2 k v a Hv Hd Hex). by rewrite Hn1 in Hs2.
      * by apply (Ho2 (NS AccountState.t, k)).
    + destruct (Ho1 k Hk) as [<- <-]. apply (Hs2 k v a Hv Hd).
      apply Exists_cons in He as [He|He]; [unfold in_range in He; congruence|done].
Qed.

(** An account that has no row gets none. *)
Lemma ranges_absent s ranges ds w ds' w' k :
  WorkDeltas.wf ds -> entities (tables s) !! (NS AccountState.t, k) = None ->
  for_each (fun acc range => stream_and_apply_namespace AccountState.t (fst acc) s (snd acc) (Some range))
    (ds, w) ranges = Ret (Ok (ds', w')) ->
  seen w' s (NS AccountState.t, k) = seen w s (NS AccountState.t, k).
Proof.
  intros Hw Hn Hf.
  apply (for_each_inv (fun a => WorkDeltas.wf (fst a) /\ seen (snd a) s (NS AccountState.t, k) = seen w s (NS AccountState.t, k)))
    in Hf as [_ Hf]; [done| |done].
  intros [ds1 w1] range [ds2 w2] _ [Hw1 E] Hx. cbn [fst snd] in *. split.
  - by apply stream_rows in Hx as (? & _).
  - by rewrite (stream_absent _ _ _ _ _ _ _ k Hw1 Hx Hn).
Qed.

(** Applying one delta of an entity type. *)
Lemma apply_one (D T : Type) `{!Entity T, !EntityVariant T, !EntityDelta D T} (inj : D -> CardanoDelta.t) d (x : T) e' :
  (forall e, CardanoDelta.apply (inj d) e = (r ← downcast_apply d e; Ret (inj (fst r), snd r))) ->
  apply_all [inj d] (Some (into x)) = Ret e' ->
  exists d' y, EntityDelta.apply d (Some x) = Ret (d', y) /\ e' = option_map into y.
Proof.
  intros Hi Ha. unfold apply_all in Ha. cbn [run_foldl] in Ha. apply bind_Ret in Ha as (e1 & Ha & E1). apply Ret_inj in E1 as <-.
  apply bind_Ret in Ha as ([d1 e2] & Ha & E1). apply Ret_inj in E1 as <-. rewrite Hi in Ha.
  apply bind_Ret in Ha as ([d2 e3] & Ha & E1). apply Ret_inj in E1. injection E1 as <- <-.
  unfold downcast_apply in Ha. apply bind_Ret in Ha as ([d4 e4] & Ha & E1). apply Ret_inj in E1.
  injection E1 as <- <-. cbn in Ha. rewrite downcast_into in Ha. eauto.
Qed.

Lemma rotation_applied epoch k a e' :
  apply_all [rotation epoch k] (Some (into a)) = Ret e' ->
  exists d a', AccountTransition.apply (AccountTransition.new k epoch) (Some a) = Ret (d, Some a') /\ e' = Some (into a').
Proof.
  intros Ha. apply (apply_one _ _ CardanoDelta.DAccountTransition) in Ha as (d & y & Hd & ->); [|done].
  destruct y as [a'|]; [by exists d, a'|]. exfalso. cbn in Hd. unfold AccountTransition.apply in Hd. cbn in Hd. run_inv.
Qed.

Lemma progress_applied d e e' :
  apply_all [CardanoDelta.DEStartProgress d] (Some (into e)) = Ret e' ->
  exists d' x, EStartProgress.apply d (Some e) = Ret (d', Some x) /\ e' = Some (into x).
Proof.
  intros Ha. apply (apply_one _ _ CardanoDelta.DEStartProgress) in Ha as (d' & y & Hd & ->); [|done].
  destruct y as [x|]; [by exists d', x|]. exfalso. cbn in Hd. unfold EStartProgress.apply in Hd. cbn in Hd.
  repeat case_match; run_inv.
Qed.

(** The account at [k] of [s], rotated into the next epoch in [s']. *)
Definition account_rotated (s s' : S) (epoch : Epoch) (k : EntityKey) : Prop :=
  forall v a, entities (tables s) !! (NS AccountState.t, k) = Some v -> decode v = Some a ->
  exists d a', AccountTransition.apply (AccountTransition.new k epoch) (Some a) = Ret (d, Some a') /\
    entities (tables s') !! (NS AccountState.t, k) = Some (to_vec a').

(** What one shard does to the stores. *)
Record shard_effect (i n : Z) (ranges : list (EntityKey * EntityKey)) (e : EpochState.t) (epoch : Epoch) (s s' : S) : Prop := {
  se_rest : rest_of (tables s') = rest_of (tables s);
  se_epoch : exists d e', EStartProgress.apply (EStartProgress.new i n) (Some e) = Ret (d, Some e') /\
    load_epoch s' = Ret (Ok e');
  se_inside : forall k r, filter (in_range k) ranges = [r] -> account_rotated s s' epoch k;
  se_outside : forall nk, nk ≠ EpochState.ns_key -> (fst nk = NS AccountState.t -> ~ Exists (in_range (snd nk)) ranges) ->
    entities (tables s') !! nk = entities (tables s) !! nk;
  se_absent : forall k, entities (tables s) !! (NS AccountState.t, k) = None ->
    entities (tables s') !! (NS AccountState.t, k) = None;
}.

Lemma commit_shard_effect c s archive ranges s' archive' i n e epoch :
  load_epoch s = Ret (Ok e) -> uadd 64 (EpochState.number e) 1 = Ret epoch -> logs c = [] ->
  deltas c = foldl WorkDeltas.add_for_entity ∅
    ((rotation epoch <$> (ranges ≫= keys_in s (NS AccountState.t))) ++
     [CardanoDelta.DEStartProgress (EStartProgress.new i n)]) ->
  commit_shard c s archive ranges = Ret (Ok (s', archive')) ->
  archive' = archive /\ shard_effect i n ranges e epoch s s'.
Proof.
  intros He Hep Hlogs Hds Hc. unfold commit_shard in Hc. apply rbind_Ret in Hc as ([ds1 w1] & Hs1 & Hc).
  apply rbind_Ret in Hc as ([[r2 ds2] w2] & Hs2 & Hc). apply bind_Ret in Hc as (? & _ & Hc).
  apply bind_Ret in Hc as (? & _ & Hc). apply Ret_inj in Hc. injection Hc as <- <-. rewrite Hlogs. split; [done|].
  cbn [fst snd] in Hs2. pose proof (rest_singleton _ _ _ _ _ _ _ _ Hs2) as Hr2.
  assert (Hw0 : WorkDeltas.wf (deltas c)) by (rewrite Hds; apply foldl_wf; intros ???; by rewrite lookup_empty).
  pose proof (fun k Hn => ranges_absent s ranges _ _ _ _ k Hw0 Hn Hs1) as Habs.
  apply stream_ranges in Hs1 as (Hw1 & Hr1 & Ho1 & Hi1); [|done].
  apply singleton_spec in Hs2 as (_ & Ho2 & Hi2); [|done|done].
  assert (Hq : forall nk, default [] (deltas c !! nk) = queue nk (rotation epoch <$> (ranges ≫= keys_in s (NS AccountState.t))) ++
             queue nk [CardanoDelta.DEStartProgress (EStartProgress.new i n)]).
  { intros nk. rewrite Hds, foldl_queue, lookup_empty. cbn [default app]. apply queue_app. }
  split.
  - rewrite commit_spec. fold (after w2 s). by rewrite Hr2, Hr1, rest_start.
  - assert (Hd1 : ds1 !! EpochState.ns_key = Some [CardanoDelta.DEStartProgress (EStartProgress.new i n)]).
    { destruct (Ho1 EpochState.ns_key) as [-> _]; [done|]. apply default_one. rewrite Hq, queue_one, decide_True by done.
      by rewrite (visits_queue_other _ (NS AccountState.t)). }
    destruct (Hi2 _ Hd1) as (e0 & e1 & Hr & Ha & Hseen).
    assert (e0 = Some e) as ->.
    { unfold load_epoch in He. rewrite Hr in He. cbn in He. destruct e0; apply Ret_inj in He; [|done]. by injection He as <-. }
    apply progress_applied in Ha as (d' & e' & Ha & ->). exists d', e'. split; [done|].
    apply load_epoch_seen. exists (to_vec e'). split; [|apply decode_to_vec]. by rewrite seen_commit.
  - intros k r Hr v a Hv Hd.
    assert (Hex : Exists (in_range k) ranges).
    { apply Exists_exists. exists r. apply and_comm, (list_elem_of_filter (in_range k)). rewrite Hr. left. }
    specialize (Hi1 k v a Hv Hd Hex). assert (deltas c !! (NS AccountState.t, k) = Some [rotation epoch k]) as Hk.
    { apply default_one. rewrite Hq, queue_one, decide_False, app_nil_r by (intros E; by apply (f_equal fst) in E).
      rewrite (visits_queue (rotation epoch) _ s k v) by done. by rewrite Hr. }
    rewrite Hk in Hi1. destruct Hi1 as (e1 & Ha & Hseen). apply rotation_applied in Ha as (d & a' & Ha & ->).
    exists d, a'. split; [done|]. rewrite seen_commit. destruct (Ho2 (NS AccountState.t, k)) as [_ ->]; [|done].
    intros E. by apply (f_equal fst) in E.
  - intros nk Hn Hout. rewrite seen_commit. destruct (Ho2 nk) as [_ ->]; [done|].
    destruct (Ho1 nk Hout) as [_ ->]. apply seen_start.
  - intros k Hn. rewrite seen_commit. destruct (Ho2 (NS AccountState.t, k)) as [_ ->]; [intros E; by apply (f_equal fst) in E|].
    by rewrite (Habs k Hn), seen_start.
Qed.

Context `{Addresses, Views, Xxh3}.

Lemma run_shard_effect u s archive indexes i d' e :
  load_epoch s = Ret (Ok e) -> run_shard u (s, archive, indexes) i = Ret (Ok d') ->
  exists ranges epoch s', shard_key_ranges i (es_total_shards u) = Ret ranges /\
    uadd 64 (EpochState.number e) 1 = Ret epoch /\ d' = (s', archive, indexes) /\
    shard_effect i (es_total_shards u) ranges e epoch s s'.
Proof.
  intros He Hr. unfold run_shard in Hr. apply bind_Ret in Hr as (ranges & Hk & Hr). apply rbind_Ret in Hr as (c & Hl & Hr).
  rewrite Hk in Hr. cbn in Hr. apply rbind_Ret in Hr as ([s' archive'] & Hc & Hr). apply Ret_inj in Hr. injection Hr as <-.
  assert (exists epoch, uadd 64 (EpochState.number e) 1 = Ret epoch) as [epoch Hep].
  { pose proof Hc as Hc'. unfold commit_shard in Hc'. apply rbind_Ret in Hc' as (? & _ & Hc').
    apply rbind_Ret in Hc' as ([[??]?] & _ & Hc'). apply bind_Ret in Hc' as (epoch & Hep & _). exists epoch.
    assert (ended_state c = e) as <-; [|done].
    unfold load_shard, new_empty_with_avvm, compute_shard_deltas in Hl. rewrite He in Hl. cbn [rbind] in Hl.
    apply rbind_Ret in Hl as (c0 & Hc0 & Hl). apply rbind_Ret in Hl as (c1 & Hc1 & Hl). apply Ret_inj in Hl. injection Hl as <-.
    cbn. refine (for_each_inv (fun c => ended_state c = e) _ _ _ _ _ _ Hc1).
    - intros c2 range c3 _ Hc2. apply (for_records_inv (fun c => ended_state c = e)); [|done].
      intros ??? _ <- Hx. unfold lift, reset_visit_account in Hx. ok_inv. run_inv. done.
    - apply rbind_Ret in Hc0 as (? & _ & Hc0). apply bind_Ret in Hc0 as (? & _ & Hc0). apply Ret_inj in Hc0. by injection Hc0 as <-. }
  destruct (shard_context s _ _ _ _ _ _ _ _ He Hep Hl) as (Hc1 & Hc2 & Hc3).
  destruct (commit_shard_effect c s archive ranges s' archive' _ _ e epoch He Hep Hc2 Hc3 Hc) as [-> Heff].
  exists ranges, epoch, s'. done.
Qed.

(** ** What the global pass queues *)

Definition pool_rotation (epoch : Epoch) (k : EntityKey) : CardanoDelta.t :=
  CardanoDelta.DPoolTransition (PoolTransition.new k epoch).

Lemma for_records_keep {A T} (l : list (result StateError T)) (a a' : A) :
  for_records (fun a _ => Ret (Ok a)) a l = Ret (Ok a') -> a' = a.
Proof. intros Hf. refine (for_records_inv (fun x => x = a) _ _ _ _ _ eq_refl Hf). intros ??? _ -> Hx. by apply Ret_inj in Hx; injection Hx. Qed.

Definition enters_conway (transition : option EraTransition.t) : bool :=
  match transition with Some x => EraTransition.entering_conway x | None => false end.

(** What is queued on the governance singleton: its seed, when Conway begins. *)
Definition gov_queued (g : Genesis) (epoch : Epoch) (transition : option EraTransition.t) (gov : list CardanoDelta.t) : Prop :=
  if enters_conway transition
  then exists constitution committee, gov_from_conway_genesis (conway g) = Ok (constitution, committee) /\
    gov = [CardanoDelta.DGovGenesisInit (GovGenesisInit.new constitution committee epoch)]
  else gov = [].

(** The context of the global pass. *)
Record global_context (s : S) (g : Genesis) (e : EpochState.t) (epoch : Epoch) (c : WorkContext.t) : Prop := {
  gc_ended : ended_state c = e;
  gc_logs : logs c = [];
  gc_genesis : genesis c = g;
  gc_avvm : AvvmReclamation.at_boundary s g = Ret (Ok (avvm_reclamation c));
  gc_deltas : exists nonce next_slot pots transition gov,
    next_nonce c = Ret nonce /\ next_largest_stable_slot c = Ret next_slot /\ define_new_pots c = Ret pots /\
    era_transition (EpochState.pparams e) = Ret transition /\ gov_queued g epoch transition gov /\
    deltas c = foldl WorkDeltas.add_for_entity ∅
      ((pool_rotation epoch <$> keys_in s (NS PoolState.t) full_range) ++
       [CardanoDelta.DNonceTransition (NonceTransition.new nonce next_slot);
        CardanoDelta.DEpochTransitionV2 (EpochTransitionV2.new epoch pots transition (Some g))] ++ gov);
}.

Lemma gc_nonempty s g e epoch c : global_context s g e epoch c -> forall nk, deltas c !! nk ≠ Some [].
Proof. intros [_ _ _ _ (? & ? & ? & ? & ? & _ & _ & _ & _ & _ & ->)] nk. by apply foldl_nonempty. Qed.

Lemma load_finalize_context s g c e epoch :
  load_epoch s = Ret (Ok e) -> uadd 64 (EpochState.number e) 1 = Ret epoch -> load_finalize s g = Ret (Ok c) ->
  global_context s g e epoch c.
Proof.
  intros He Hep Hl. unfold load_finalize, new_empty in Hl. apply rbind_Ret in Hl as (c0 & Hc0 & Hl).
  apply rbind_Ret in Hc0 as (avvm & Hav & Hc0). unfold new_empty_with_avvm in Hc0. rewrite He in Hc0. cbn [rbind] in Hc0.
  apply rbind_Ret in Hc0 as (summary & _ & Hc0). apply bind_Ret in Hc0 as (edge & _ & Hc0). apply Ret_inj in Hc0. injection Hc0 as Hc0.
  unfold compute_global_deltas in Hl. apply rbind_Ret in Hl as (c1 & Hc1 & Hl).
  apply (visits PoolState.t (pool_rotation epoch) reset_visit_pool s full_range c0 c1 epoch) in Hc1 as [-> Hs1];
    [|intros c' k Hc'; unfold reset_visit_pool; by rewrite Hc'|by subst c0].
  apply rbind_Ret in Hl as (c2 & Hc2 & Hl). apply for_records_keep in Hc2 as ->.
  apply rbind_Ret in Hl as (c3 & Hc3 & Hl). apply for_records_keep in Hc3 as ->.
  apply bind_Ret in Hl as (c4 & Hc4 & Hl). unfold nonces_flush in Hc4. apply bind_Ret in Hc4 as (next_slot & Hns & Hc4).
  apply bind_Ret in Hc4 as (nonce & Hno & Hc4). apply Ret_inj in Hc4 as <-.
  apply bind_Ret in Hl as (c5 & Hc5 & Hl). unfold emit_epoch_transition in Hc5. apply bind_Ret in Hc5 as (pots & Hpo & Hc5).
  apply bind_Ret in Hc5 as (transition & Htr & Hc5). apply bind_Ret in Hc5 as (epoch' & Hep' & Hc5). apply Ret_inj in Hc5 as <-.
  assert (epoch' = epoch) as ->.
  { assert (starting_epoch_no c0 = Ret epoch) as E by (by subst c0). change (starting_epoch_no c0 = Ret epoch') in Hep'. congruence. }
  apply bind_Ret in Hl as (transition' & Htr' & Hl).
  change (era_transition (EpochState.pparams (ended_state c0)) = Ret transition) in Htr.
  change (era_transition (EpochState.pparams (ended_state c0)) = Ret transition') in Htr'.
  rewrite Htr in Htr'. apply Ret_inj in Htr' as <-.
  assert (exists gov, gov_queued (genesis c0) epoch transition gov /\ c = with_deltas c0
    ((pool_rotation epoch <$> keys_in s (NS PoolState.t) full_range) ++
       [CardanoDelta.DNonceTransition (NonceTransition.new nonce next_slot);
        CardanoDelta.DEpochTransitionV2 (EpochTransitionV2.new epoch pots transition (Some (genesis c0)))] ++ gov)) as (gov & Hgov & ->).
  { match type of Hl with context [starting_epoch_no ?c'] => set (cc := c') in Hl end.
    assert (Hcc : forall gov, with_deltas cc gov = with_deltas c0
      ((pool_rotation epoch <$> keys_in s (NS PoolState.t) full_range) ++
       [CardanoDelta.DNonceTransition (NonceTransition.new nonce next_slot);
        CardanoDelta.DEpochTransitionV2 (EpochTransitionV2.new epoch pots transition (Some (genesis c0)))] ++ gov)).
    { intros gov. rewrite app_assoc, !with_deltas_app. done. }
    assert (Hkeep : Ret (Ok (E := ChainError) cc) = Ret (Ok c) -> c = with_deltas cc []) by (intros E; apply Ret_inj in E; by injection E as <-).
    unfold gov_queued, enters_conway. destruct transition as [x|]; [destruct (EraTransition.entering_conway x)|].
    - change (genesis cc) with (genesis c0) in Hl.
      destruct (gov_from_conway_genesis _) as [[constitution committee]|]; [|done].
      change (starting_epoch_no cc) with (starting_epoch_no c0) in Hl. change (starting_epoch_no c0 = Ret epoch) in Hep'.
      rewrite Hep' in Hl. cbn [mbind run_bind] in Hl. apply Ret_inj in Hl. injection Hl as <-.
      exists [CardanoDelta.DGovGenesisInit (GovGenesisInit.new constitution committee epoch)].
      split; [by eauto|]. by rewrite <- Hcc.
    - exists []. split; [done|]. rewrite <- Hcc. by apply Hkeep.
    - exists []. split; [done|]. rewrite <- Hcc. by apply Hkeep. }
  subst c0. split; [done..|]. exists nonce, next_slot, pots, transition, gov. done.
Qed.

(** ** What the global pass commits *)

Definition pool_rotated (s s' : S) (epoch : Epoch) (k : EntityKey) : Prop :=
  forall v p, entities (tables s) !! (NS PoolState.t, k) = Some v -> decode v = Some p ->
  exists d p', PoolTransition.apply (PoolTransition.new k epoch) (Some p) = Ret (d, Some p') /\
    entities (tables s') !! (NS PoolState.t, k) = Some (to_vec p').

Lemma pool_rotation_applied epoch k p e' :
  apply_all [pool_rotation epoch k] (Some (into p)) = Ret e' ->
  exists d p', PoolTransition.apply (PoolTransition.new k epoch) (Some p) = Ret (d, Some p') /\ e' = Some (into p').
Proof.
  intros Ha. apply (apply_one _ _ CardanoDelta.DPoolTransition) in Ha as (d & y & Hd & ->); [|done].
  destruct y as [p'|]; [by exists d, p'|]. exfalso. cbn in Hd. unfold PoolTransition.apply in Hd. cbn in Hd. run_inv.
Qed.

(** The two deltas of the epoch, one after the other. *)
Lemma transition_applied dn dt e e' :
  apply_all [CardanoDelta.DNonceTransition dn; CardanoDelta.DEpochTransitionV2 dt] (Some (into e)) = Ret e' ->
  exists dn' e1 dt' e2, NonceTransition.apply dn (Some e) = Ret (dn', Some e1) /\
    EpochTransitionV2.apply dt (Some e1) = Ret (dt', Some e2) /\ e' = Some (into e2).
Proof.
  intros Ha. change (apply_all ([CardanoDelta.DNonceTransition dn] ++ [CardanoDelta.DEpochTransitionV2 dt]) (Some (into e)) = Ret e') in Ha.
  unfold apply_all in Ha. rewrite run_foldl_app in Ha. apply bind_Ret in Ha as (x1 & H1' & H2').
  apply (apply_one _ _ CardanoDelta.DNonceTransition) in H1' as (dn' & y & Hn & ->); [|done].
  destruct y as [e1|]; [|exfalso; cbn in Hn; unfold NonceTransition.apply in Hn; cbn in Hn; run_inv].
  apply (apply_one _ _ CardanoDelta.DEpochTransitionV2) in H2' as (dt' & y & Ht & ->); [|done].
  destruct y as [e2|]; [|exfalso; change (EpochTransitionV2.apply dt (Some e1) = Ret (dt', None)) in Ht; unfold EpochTransitionV2.apply in Ht;
    do 5 apply bind_Ret in Ht as (? & _ & Ht); apply Ret_inj in Ht; discriminate].
  by exists dn', e1, dt', e2.
Qed.

Lemma seen_era_transition w s t nk : fst nk ≠ NS EraSummary.t -> seen (write_era_transition w t) s nk = seen w s nk.
Proof.
  intros Hn. destruct t as [t|]; [|done]. cbn [write_era_transition]. rewrite !seen_write.
  by rewrite !decide_False by (intros <-; done).
Qed.

Lemma rest_era_transition w s t : rest_of (after (write_era_transition w t) s) = rest_of (after w s).
Proof. destruct t as [t|]; [|done]. cbn [write_era_transition]. by rewrite !rest_write. Qed.

(** What the writer of the global pass leaves when its streams have run. *)
Record streams_done (ds : WorkDeltas.t CardanoDelta.t) (s : S) (w : W) : Prop := {
  st_rest : rest_of (after w s) = rest_of (tables s);
  st_pool : forall k v p, entities (tables s) !! (NS PoolState.t, k) = Some v -> decode v = Some p ->
    in_range k full_range -> streamed PoolState.t (ds !! (NS PoolState.t, k)) p (Some v) (seen w s (NS PoolState.t, k));
  st_epoch : forall l, ds !! EpochState.ns_key = Some l -> exists e0 e, read_typed EpochState.t s (snd EpochState.ns_key) = Ret (Ok e0) /\
     apply_all l (option_map into e0) = Ret e /\ seen w s EpochState.ns_key = snd ∘ EntityCodec.encode_entity <$> e;
  st_absent : forall k, entities (tables s) !! (NS PoolState.t, k) = None -> seen w s (NS PoolState.t, k) = None;
  st_gov : match ds !! GovState.ns_key with
    | Some l => exists g0 g1, read_typed GovState.t s (snd GovState.ns_key) = Ret (Ok g0) /\
        apply_all l (option_map into g0) = Ret g1 /\ seen w s GovState.ns_key = snd ∘ EntityCodec.encode_entity <$> g1
    | None => seen w s GovState.ns_key = entities (tables s) !! GovState.ns_key
    end;
  st_other : forall nk, fst nk ≠ NS PoolState.t -> nk ≠ EpochState.ns_key -> nk ≠ GovState.ns_key ->
    seen w s nk = entities (tables s) !! nk;
}.

Lemma streams_spec ds s x1 x2 x3 r4 ds4 w4 r5 ds5 w5 :
  WorkDeltas.wf ds -> (forall k, ds !! (NS DRepState.t, k) = None) -> (forall k, ds !! (NS ProposalState.t, k) = None) ->
  stream_and_apply_namespace PoolState.t ds s (start_writer s) None = Ret (Ok x1) ->
  stream_and_apply_namespace DRepState.t (fst x1) s (snd x1) None = Ret (Ok x2) ->
  stream_and_apply_namespace ProposalState.t (fst x2) s (snd x2) None = Ret (Ok x3) ->
  apply_singleton EpochState.t EpochState.ns_key (fst x3) s (snd x3) = Ret (Ok (r4, ds4, w4)) ->
  apply_singleton GovState.t GovState.ns_key ds4 s w4 = Ret (Ok (r5, ds5, w5)) ->
  streams_done ds s w5.
Proof.
  intros Hw Hd2 Hd3 H1' H2' H3' H4' H5'. destruct x1 as [ds1 w1], x2 as [ds2 w2], x3 as [ds3 w3]. cbn [fst snd] in *.
  pose proof (rest_stream _ _ _ _ _ _ _ H1') as Hr1. pose proof (stream_rows _ _ _ _ _ _ _ Hw H1') as (Hw1 & _ & Hp).
  assert (Ho1 : forall nk, NS PoolState.t ≠ fst nk -> ds1 !! nk = ds !! nk /\ seen w1 s nk = seen (start_writer s) s nk).
  { intros nk Hn. by apply (stream_other PoolState.t _ _ _ _ _ _ nk) in H1' as (_ & ? & ?). }
  apply stream_idle in H2' as [-> ->]; [|intros k; destruct (Ho1 (NS DRepState.t, k)) as [-> _]; done].
  apply stream_idle in H3' as [-> ->]; [|intros k; destruct (Ho1 (NS ProposalState.t, k)) as [-> _]; done].
  pose proof (rest_singleton _ _ _ _ _ _ _ _ H4') as Hr4. pose proof (rest_singleton _ _ _ _ _ _ _ _ H5') as Hr5.
  pose proof gov_key_epoch as Hne.
  apply singleton_spec in H4' as (Hw4 & Ho4 & He4); [|done|done]. pose proof H5' as H5g.
  apply singleton_spec in H5' as (_ & Ho5 & Hg5); [|done|done].
  destruct (Ho4 GovState.ns_key Hne) as [Hdg Hsg]. destruct (Ho1 GovState.ns_key ltac:(done)) as [Hdg1 Hsg1].
  assert (Hpool : forall k, seen w5 s (NS PoolState.t, k) = seen w1 s (NS PoolState.t, k)).
  { intros k. destruct (Ho5 (NS PoolState.t, k)) as [_ ->]; [intros E; by apply (f_equal fst) in E|].
    destruct (Ho4 (NS PoolState.t, k)) as [_ ->]; [intros E; by apply (f_equal fst) in E|done]. }
  split.
  - by rewrite Hr5, Hr4, Hr1, rest_start.
  - intros k v p Hv Hd Hk. destruct (Hp k v p Hv Hd Hk) as [_ Hs]. rewrite seen_start, Hv in Hs. by rewrite Hpool.
  - intros l Hl. destruct (He4 l) as (e0 & e & Hr & Ha & Hs); [by destruct (Ho1 EpochState.ns_key) as [-> _]|].
    exists e0, e. destruct (Ho5 EpochState.ns_key) as [_ ->]; done.
  - intros k Hk. by rewrite Hpool, (stream_absent _ _ _ _ _ _ _ k Hw H1' Hk), seen_start.
  - destruct (ds !! GovState.ns_key) as [l|] eqn:Hl.
    + apply Hg5. by rewrite Hdg, Hdg1.
    + apply singleton_idle in H5g as [_ ->]; [|by rewrite Hdg, Hdg1]. by rewrite Hsg, Hsg1, seen_start.
  - intros nk Hn1 Hn2 Hn3. destruct (Ho5 nk Hn3) as [_ ->]. destruct (Ho4 nk Hn2) as [_ ->].
    destruct (Ho1 nk ltac:(done)) as [_ ->]. apply seen_start.
Qed.

Lemma load_finalize_epoch s g c e :
  load_epoch s = Ret (Ok e) -> load_finalize s g = Ret (Ok c) -> exists epoch, uadd 64 (EpochState.number e) 1 = Ret epoch.
Proof.
  intros He Hl. unfold load_finalize, new_empty in Hl. apply rbind_Ret in Hl as (c0 & Hc0 & Hl).
  apply rbind_Ret in Hc0 as (avvm & _ & Hc0). unfold new_empty_with_avvm in Hc0. rewrite He in Hc0. cbn [rbind] in Hc0.
  apply rbind_Ret in Hc0 as (summary & _ & Hc0). apply bind_Ret in Hc0 as (edge & _ & Hc0). apply Ret_inj in Hc0. injection Hc0 as Hc0.
  unfold compute_global_deltas in Hl. apply rbind_Ret in Hl as (c1 & Hc1 & Hl).
  assert (ended_state c1 = e) as Hc1e.
  { refine (for_records_inv (fun c => ended_state c = e) _ _ _ _ _ _ Hc1); [|by subst c0].
    intros c' x c'' _ Hc' Hx. apply bind_Ret in Hx as (c3 & Hx & E). apply Ret_inj in E. injection E as <-.
    apply bind_Ret in Hx as (? & _ & Hx). apply Ret_inj in Hx as <-. exact Hc'. }
  apply rbind_Ret in Hl as (c2 & Hc2 & Hl). apply for_records_keep in Hc2 as ->.
  apply rbind_Ret in Hl as (c3 & Hc3 & Hl). apply for_records_keep in Hc3 as ->.
  apply bind_Ret in Hl as (c4 & Hc4 & _). unfold nonces_flush, next_largest_stable_slot in Hc4.
  apply bind_Ret in Hc4 as (? & Hc4 & _). apply bind_Ret in Hc4 as (? & _ & Hc4). apply bind_Ret in Hc4 as (epoch & Hc4 & _).
  exists epoch. unfold starting_epoch_no in Hc4. by rewrite Hc1e in Hc4.
Qed.

(** The governance singleton: seeded from the genesis file when Conway begins,
    left alone otherwise. *)
Definition gov_opened (transition : option EraTransition.t) (g : Genesis) (epoch : Epoch) (s s' : S) : Prop :=
  if enters_conway transition
  then exists constitution committee gov, gov_from_conway_genesis (conway g) = Ok (constitution, committee) /\
    read_typed GovState.t s (snd GovState.ns_key) = Ret (Ok (Some gov)) /\
    entities (tables s') !! GovState.ns_key = Some (to_vec (GovState.seed_genesis gov constitution committee epoch))
  else entities (tables s') !! GovState.ns_key = entities (tables s) !! GovState.ns_key.

(** The eras: when the protocol version changes, the summary of the era that
    ends is closed at the new epoch, the one of the era that begins starts at
    that boundary with the constants of its version, and every other summary is
    left alone; without a change, all of them are. *)
Definition eras_opened (transition : option EraTransition.t) (g : Genesis) (epoch : Epoch) (s s' : S) : Prop :=
  match transition with
  | None => forall k, entities (tables s') !! (NS EraSummary.t, k) = entities (tables s) !! (NS EraSummary.t, k)
  | Some x => exists ended closed boundary consts,
      read_typed EraSummary.t s (era_protocol_key (EraTransition.prev_version x)) = Ret (Ok (Some ended)) /\
      EraSummary.define_end ended epoch = Ret closed /\ EraSummary.end_ closed = Some boundary /\
      EraBoundary.epoch boundary = epoch /\ protocol_constants (EraTransition.new_version x) g = Ret consts /\
      forall k, entities (tables s') !! (NS EraSummary.t, k) =
        if decide (k = era_protocol_key (EraTransition.new_version x))
        then Some (to_vec (EraSummary.mk boundary None (pc_epoch_length consts) (pc_slot_length consts) (EraTransition.new_version x)))
        else if decide (k = era_protocol_key (EraTransition.prev_version x)) then Some (to_vec closed)
        else entities (tables s) !! (NS EraSummary.t, k)
  end.

(** Both depend on the rows they are about only. *)
Lemma gov_opened_from s1 transition g epoch s s' :
  entities (tables s1) !! GovState.ns_key = entities (tables s) !! GovState.ns_key ->
  gov_opened transition g epoch s1 s' -> gov_opened transition g epoch s s'.
Proof.
  intros E. unfold gov_opened. rewrite E. destruct (enters_conway transition); [|done].
  intros (x & y & gov & Hf & Hr & Hs). exists x, y, gov. split; [done|]. split; [|done].
  rewrite read_typed_spec in Hr |- *. change (NS GovState.t, snd GovState.ns_key) with GovState.ns_key in *. by rewrite <- E.
Qed.

Lemma eras_opened_from s1 transition g epoch s s' :
  (forall k, entities (tables s1) !! (NS EraSummary.t, k) = entities (tables s) !! (NS EraSummary.t, k)) ->
  eras_opened transition g epoch s1 s' -> eras_opened transition g epoch s s'.
Proof.
  intros E. destruct transition as [x|]; cbn [eras_opened]; [|intros Hs k; by rewrite Hs, E].
  intros (x1 & x2 & x3 & x4 & Hr & Hc & Hb & Hbe & Hp & Hs). exists x1, x2, x3, x4. conj_split; try done.
  - rewrite read_typed_spec in Hr |- *. by rewrite <- E.
  - intros k. by rewrite Hs, E.
Qed.

(** The era rows the writer leaves. *)
Lemma eras_written c s w et transition epoch (s' : S) :
  era_transition (EpochState.pparams (ended_state c)) = Ret transition -> starting_epoch_no c = Ret epoch ->
  collect_era_transition c s = Ret (Ok et) ->
  (forall k, seen w s (NS EraSummary.t, k) = entities (tables s) !! (NS EraSummary.t, k)) ->
  (forall k, entities (tables s') !! (NS EraSummary.t, k) = seen (write_era_transition w et) s (NS EraSummary.t, k)) ->
  eras_opened transition (genesis c) epoch s s'.
Proof.
  intros Htr Hep Hc Hs Hs'. unfold collect_era_transition in Hc. rewrite Htr in Hc. cbn [mbind run_bind] in Hc.
  destruct transition as [x|]; cbn [eras_opened].
  2: { apply Ret_inj in Hc. injection Hc as <-. intros k. by rewrite Hs', <- Hs. }
  apply rbind_Ret in Hc as (ended & Hr & Hc). destruct ended as [ended|]; [|done]. rewrite Hep in Hc. cbn [mbind run_bind] in Hc.
  apply bind_Ret in Hc as (closed & Hcl & Hc). apply bind_Ret in Hc as (consts & Hco & Hc). apply bind_Ret in Hc as (b & Hb & Hc).
  apply Ret_inj in Hc. injection Hc as <-. apply expect_Ret in Hb. exists ended, closed, b, consts.
  assert (EraBoundary.epoch b = epoch) as Hbe.
  { clear -Hcl Hb. unfold EraSummary.define_end in Hcl. do 5 apply bind_Ret in Hcl as (? & _ & Hcl).
    apply Ret_inj in Hcl as <-. cbn in Hb. by injection Hb as <-. }
  conj_split; try done. intros k. rewrite Hs'. cbn [write_era_transition prev_key new_key prev_summary new_summary].
  rewrite !seen_write. by repeat case_decide; congruence.
Qed.

Lemma gov_seeded constitution committee epoch g0 g1 :
  apply_all [CardanoDelta.DGovGenesisInit (GovGenesisInit.new constitution committee epoch)] (option_map into g0) = Ret g1 ->
  exists gov, g0 = Some gov /\ g1 = Some (into (GovState.seed_genesis gov constitution committee epoch)).
Proof.
  intros Ha. destruct g0 as [gov|]; [|exfalso; unfold apply_all in Ha; cbn in Ha; run_inv].
  apply (apply_one _ _ CardanoDelta.DGovGenesisInit) in Ha as (d & y & Hd & ->); [|done]. exists gov. split; [done|].
  cbn in Hd. unfold GovGenesisInit.apply in Hd. cbn in Hd. apply Ret_inj in Hd. by injection Hd as _ <-.
Qed.

(** What the global pass does to the stores. *)
Record finalize_effect (slot : BlockSlot) (e : EpochState.t) (epoch : Epoch) (c : WorkContext.t) (s s' : S) : Prop := {
  fe_committed : all_shards_committed e = true;
  fe_cursor : cursor (tables s') = Some (ChainPoint.Slot slot);
  fe_utxos : utxos (tables s') = utxos (tables s) ∖ AvvmReclamation.utxos (avvm_reclamation c);
  fe_epoch : exists nonce next_slot pots transition dn e1 dt e',
    next_nonce c = Ret nonce /\ next_largest_stable_slot c = Ret next_slot /\ define_new_pots c = Ret pots /\
    era_transition (EpochState.pparams e) = Ret transition /\
    NonceTransition.apply (NonceTransition.new nonce next_slot) (Some e) = Ret (dn, Some e1) /\
    EpochTransitionV2.apply (EpochTransitionV2.new epoch pots transition (Some (genesis c))) (Some e1) = Ret (dt, Some e') /\
    load_epoch s' = Ret (Ok e');
  fe_pools : forall k, in_range k full_range -> pool_rotated s s' epoch k;
  fe_absent : forall k, entities (tables s) !! (NS PoolState.t, k) = None -> entities (tables s') !! (NS PoolState.t, k) = None;
  fe_gov : forall transition, era_transition (EpochState.pparams e) = Ret transition -> gov_opened transition (genesis c) epoch s s';
  fe_eras : forall transition, era_transition (EpochState.pparams e) = Ret transition -> eras_opened transition (genesis c) epoch s s';
  fe_other : forall nk, fst nk ≠ NS PoolState.t -> fst nk ≠ NS EraSummary.t -> nk ≠ EpochState.ns_key -> nk ≠ GovState.ns_key ->
    entities (tables s') !! nk = entities (tables s) !! nk;
}.

(** The queues of a pool and of the epoch in that context. *)
Lemma global_queues s g e epoch c :
  global_context s g e epoch c ->
  WorkDeltas.wf (deltas c) /\
  (forall k v, entities (tables s) !! (NS PoolState.t, k) = Some v -> in_range k full_range ->
     deltas c !! (NS PoolState.t, k) = Some [pool_rotation epoch k]) /\
  (forall nk, fst nk ≠ NS PoolState.t -> nk ≠ EpochState.ns_key -> nk ≠ GovState.ns_key -> deltas c !! nk = None) /\
  exists nonce next_slot pots transition,
    next_nonce c = Ret nonce /\ next_largest_stable_slot c = Ret next_slot /\ define_new_pots c = Ret pots /\
    era_transition (EpochState.pparams e) = Ret transition /\
    deltas c !! EpochState.ns_key = Some [CardanoDelta.DNonceTransition (NonceTransition.new nonce next_slot);
        CardanoDelta.DEpochTransitionV2 (EpochTransitionV2.new epoch pots transition (Some g))] /\
    gov_queued g epoch transition (default [] (deltas c !! GovState.ns_key)).
Proof.
  intros Hgc. pose proof Hgc as [_ _ _ _ (nonce & next_slot & pots & transition & gov & Hno & Hns & Hpo & Htr & Hgov & Hds)].
  assert (Hkeys : Forall (fun d => CardanoDelta.key d = GovState.ns_key) gov).
  { unfold gov_queued in Hgov. destruct (enters_conway transition); [destruct Hgov as (? & ? & _ & ->)|subst gov]; by repeat constructor. }
  assert (Hq : forall nk, default [] (deltas c !! nk) =
     queue nk (pool_rotation epoch <$> keys_in s (NS PoolState.t) full_range) ++
     queue nk [CardanoDelta.DNonceTransition (NonceTransition.new nonce next_slot);
        CardanoDelta.DEpochTransitionV2 (EpochTransitionV2.new epoch pots transition (Some g))] ++ queue nk gov).
  { intros nk. by rewrite Hds, foldl_queue, lookup_empty, !queue_app. }
  assert (Hng : forall nk, nk ≠ GovState.ns_key -> queue nk gov = []).
  { intros nk Hn. apply filter_none. rewrite Forall_forall in Hkeys. intros d Hd <-. by apply Hn, Hkeys. }
  assert (Hnone : forall nk, default [] (deltas c !! nk) = [] -> deltas c !! nk = None).
  { intros nk E. destruct (deltas c !! nk) as [l|] eqn:El; [|done]. exfalso. cbn in E. subst l.
    by apply (gc_nonempty _ _ _ _ _ Hgc) in El. }
  split; [rewrite Hds; apply foldl_wf; intros ???; by rewrite lookup_empty|]. split; [|split].
  - intros k v Hv Hk. apply default_one. rewrite Hq, (Hng (NS PoolState.t, k)) by (intros E; by apply (f_equal fst) in E).
    rewrite app_nil_r. cbn [queue].
    pose proof (visits_queue (pool_rotation epoch) (NS PoolState.t) s k v [full_range] ltac:(done) Hv) as Hqq.
    cbn [mbind list_bind] in Hqq. rewrite app_nil_r in Hqq. rewrite Hqq, filter_cons, decide_True by done. done.
  - intros nk Hn1 Hn2 Hn3. apply Hnone. rewrite Hq, (Hng nk Hn3), (visits_queue_other _ (NS PoolState.t)), app_nil_r by done.
    apply filter_none. intros d Hd <-. apply Hn2. by repeat (apply elem_of_cons in Hd as [->|Hd]; [done|]); apply not_elem_of_nil in Hd.
  - exists nonce, next_slot, pots, transition. conj_split; try done.
    + pose proof (Hq EpochState.ns_key) as Hq'. rewrite (Hng EpochState.ns_key) in Hq' by (by apply not_eq_sym, gov_key_epoch).
      rewrite (visits_queue_other _ (NS PoolState.t)), app_nil_r in Hq' by done.
      change (queue EpochState.ns_key ?l) with l in Hq'. destruct (deltas c !! EpochState.ns_key); [|done].
      cbn in Hq'. by rewrite Hq'.
    + rewrite Hq, (visits_queue_other _ (NS PoolState.t)) by done. change (queue GovState.ns_key [_; _]) with (@nil CardanoDelta.t).
      cbn [app]. unfold queue. rewrite filter_all; [done|]. by rewrite Forall_forall in Hkeys.
Qed.

Lemma deletion_after w s a :
  let w' := if AvvmReclamation.is_empty a then w else apply_utxoset w (AvvmReclamation.deletion_delta a) in
  after w' s = mkTables (cursor (after w s)) (entities (after w s)) (utxos (after w s) ∖ AvvmReclamation.utxos a).
Proof.
  cbv zeta. unfold AvvmReclamation.is_empty. case_bool_decide as Hu.
  - rewrite Hu, map_difference_empty. by destruct (after w s).
  - rewrite after_utxoset, exec_utxoset. cbn. by rewrite map_difference_empty, !(left_id_L ∅ (∪)).
Qed.

(** The governance row, from its queue. *)
Lemma gov_committed ds s w g epoch transition s' :
  streams_done ds s w -> ds !! GovState.ns_key ≠ Some [] -> gov_queued g epoch transition (default [] (ds !! GovState.ns_key)) ->
  entities (tables s') !! GovState.ns_key = seen w s GovState.ns_key -> gov_opened transition g epoch s s'.
Proof.
  intros [_ _ _ _ Hgov _] Hne Hq Hseen. unfold gov_opened. unfold gov_queued in Hq. destruct (enters_conway transition).
  - destruct Hq as (constitution & committee & Hfile & Hq). exists constitution, committee.
    apply default_one in Hq. rewrite Hq in Hgov. destruct Hgov as (g0 & g1 & Hr & Ha & Hs).
    apply gov_seeded in Ha as (gov & -> & ->). exists gov. split; [done|]. split; [done|]. by rewrite Hseen, Hs.
  - destruct (ds !! GovState.ns_key) as [l|]; [|by rewrite Hseen]. exfalso. cbn in Hq. by subst l.
Qed.

(** The epoch row, from its queue. *)
Lemma epoch_committed ds s w s' e dn dt :
  streams_done ds s w -> load_epoch s = Ret (Ok e) ->
  ds !! EpochState.ns_key = Some [CardanoDelta.DNonceTransition dn; CardanoDelta.DEpochTransitionV2 dt] ->
  entities (tables s') !! EpochState.ns_key = seen w s EpochState.ns_key ->
  exists dn' e1 dt' e', NonceTransition.apply dn (Some e) = Ret (dn', Some e1) /\
    EpochTransitionV2.apply dt (Some e1) = Ret (dt', Some e') /\ load_epoch s' = Ret (Ok e').
Proof.
  intros [_ _ Hepoch _ _ _] He Hq Hseen. destruct (Hepoch _ Hq) as (e0 & e1 & Hr & Ha & Hs).
  assert (e0 = Some e) as ->.
  { unfold load_epoch in He. rewrite Hr in He. cbn in He. destruct e0; apply Ret_inj in He; [|done]. by injection He as <-. }
  apply transition_applied in Ha as (dn' & e2 & dt' & e3 & Hn & Ht & ->). exists dn', e2, dt', e3. conj_split; try done.
  apply load_epoch_seen. exists (to_vec e3). split; [|apply decode_to_vec]. by rewrite Hseen.
Qed.

Lemma finalize_spec u s archive indexes s' archive' indexes' e :
  load_epoch s = Ret (Ok e) -> finalize u (s, archive, indexes) = Ret (Ok (s', archive', indexes')) ->
  archive' = archive /\ exists epoch c, uadd 64 (EpochState.number e) 1 = Ret epoch /\
    global_context s (es_genesis u) e epoch c /\ finalize_effect (es_slot u) e epoch c s s' /\
    (if AvvmReclamation.is_empty (avvm_reclamation c) then Ret (Ok indexes)
     else index_deletion indexes (AvvmReclamation.deletion_delta (avvm_reclamation c))) = Ret (Ok indexes').
Proof.
  intros He Hf. unfold finalize in Hf. apply rbind_Ret in Hf as (c & Hl & Hf).
  destruct (load_finalize_epoch _ _ _ _ He Hl) as [epoch Hep].
  pose proof (load_finalize_context _ _ _ _ _ He Hep Hl) as Hg. pose proof Hg as [Hen Hlo Hge _ _].
  destruct (global_queues _ _ _ _ _ Hg) as (Hw0 & Hqp & Hqo & nonce & next_slot & pots & transition & Hno & Hns & Hpo & Htr & Hqe & Hqg).
  unfold commit_finalize in Hf. rewrite Hen, Hlo in Hf. destruct (all_shards_committed e) eqn:Hall; [|done]. cbn [negb] in Hf.
  apply rbind_Ret in Hf as (et & Het & Hf). apply bind_Ret in Hf as (? & _ & Hf). apply bind_Ret in Hf as (start & _ & Hf).
  apply rbind_Ret in Hf as (x1 & H1' & Hf). apply rbind_Ret in Hf as (x2 & H2' & Hf). apply rbind_Ret in Hf as (x3 & H3' & Hf).
  apply rbind_Ret in Hf as ([[r4 ds4] w4] & H4' & Hf). apply rbind_Ret in Hf as ([[r5 ds5] w5] & H5' & Hf).
  assert (Hst : streams_done (deltas c) s w5).
  { apply (streams_spec (deltas c) s x1 x2 x3 r4 ds4 w4 r5 ds5 w5); try done;
      intros k; apply Hqo; (done || (intros E; by apply (f_equal fst) in E)). }
  pose proof Hst as [Hrest Hpool _ Habs _ Hother]. clear H1' H2' H3' H4' H5'.
  set (w6 := if AvvmReclamation.is_empty _ then w5 else _) in Hf.
  pose proof (deletion_after w5 s (avvm_reclamation c)) as H6. cbv zeta in H6. fold w6 in H6.
  set (w7 := set_cursor (write_era_transition w6 et) (ChainPoint.Slot (es_slot u))) in Hf.
  assert (archive' = archive /\ s' = commit w7 s /\
    (if AvvmReclamation.is_empty (avvm_reclamation c) then Ret (Ok indexes)
     else index_deletion indexes (AvvmReclamation.deletion_delta (avvm_reclamation c))) = Ret (Ok indexes')) as (-> & -> & Hidx).
  { destruct (AvvmReclamation.is_empty _); [|apply rbind_Ret in Hf as (? & -> & Hf)]; apply Ret_inj in Hf; by injection Hf as <- <- <-. }
  clear Hf. split; [done|]. exists epoch, c. split; [done|]. split; [done|]. split; [|done]. clear Hidx.
  assert (Hseen : forall nk, fst nk ≠ NS EraSummary.t -> entities (tables (commit w7 s)) !! nk = seen w5 s nk).
  { intros nk Hn. rewrite commit_spec. fold (after w7 s). subst w7. rewrite after_set_cursor. cbn [entities].
    change (seen (write_era_transition w6 et) s nk = seen w5 s nk). rewrite seen_era_transition by done.
    unfold seen. fold (after w6 s) (after w5 s). by rewrite H6. }
  split; [done| | | | | | | |].
  - rewrite commit_spec. fold (after w7 s). subst w7. by rewrite after_set_cursor.
  - rewrite commit_spec. fold (after w7 s). subst w7. rewrite after_set_cursor. cbn [utxos].
    change (snd (rest_of (after (write_era_transition w6 et) s)) = snd (rest_of (tables s)) ∖ AvvmReclamation.utxos (avvm_reclamation c)).
    by rewrite rest_era_transition, H6, <- Hrest.
  - destruct (epoch_committed _ s w5 (commit w7 s) e _ _ Hst He Hqe) as (dn & e2 & dt & e3 & Hn & Ht & Hl'); [by apply Hseen|].
    rewrite Hge. by exists nonce, next_slot, pots, transition, dn, e2, dt, e3.
  - intros k Hk v p Hv Hd. specialize (Hpool k v p Hv Hd Hk).
    rewrite (Hqp k v Hv Hk) in Hpool. destruct Hpool as (e1 & Ha & Hs). apply pool_rotation_applied in Ha as (d & p' & Ha & ->).
    exists d, p'. split; [done|]. by rewrite Hseen.
  - intros k Hk. by rewrite Hseen, Habs.
  - intros t Ht. rewrite Htr in Ht. apply Ret_inj in Ht as <-. rewrite Hge.
    apply (gov_committed (deltas c) s w5); [done|by apply (gc_nonempty _ _ _ _ _ Hg)|done|by apply Hseen].
  - intros t Ht. apply (eras_written c s w6 et); [by rewrite Hen|by unfold starting_epoch_no; rewrite Hen|done| |].
    + intros k. rewrite <- Hother by (done || (intros E; by apply (f_equal fst) in E)).
      unfold seen. fold (after w6 s) (after w5 s). by rewrite H6.
    + intros k. rewrite commit_spec. fold (after w7 s). subst w7. by rewrite after_set_cursor.
  - intros nk Hn1 Hn2 Hn3 Hn4. rewrite Hseen, Hother; done.
Qed.

(** ** The global pass runs once *)

Lemma transition_fields nonce next_slot epoch pots transition g dn e e1 dt e' :
  NonceTransition.apply (NonceTransition.new nonce next_slot) (Some e) = Ret (dn, Some e1) ->
  EpochTransitionV2.apply (EpochTransitionV2.new epoch pots transition (Some g)) (Some e1) = Ret (dt, Some e') ->
  EpochState.number e' = epoch /\ EpochState.initial_pots e' = pots /\ EpochState.nonces e' = nonce /\
  EpochState.largest_stable_slot e' = next_slot /\ EpochState.end_ e' = Some EndStats.default_ /\
  EpochState.ewrap_progress e' = None /\ EpochState.estart_progress e' = None /\ EpochState.rupd_progress e' = None.
Proof.
  intros Hn Ht. unfold NonceTransition.apply in Hn. cbn in Hn. apply Ret_inj in Hn. injection Hn as _ <-.
  unfold EpochTransitionV2.apply in Ht. cbn [existing mbind run_bind expect] in Ht.
  apply bind_Ret in Ht as (? & _ & Ht). apply bind_Ret in Ht as (? & _ & Ht). apply bind_Ret in Ht as (? & _ & Ht).
  apply bind_Ret in Ht as (? & _ & Ht). apply Ret_inj in Ht. injection Ht as _ <-. done.
Qed.

Lemma finalize_loads u s archive indexes d' :
  finalize u (s, archive, indexes) = Ret (Ok d') -> exists e, load_epoch s = Ret (Ok e).
Proof.
  unfold finalize, load_finalize, new_empty, AvvmReclamation.at_boundary. intros Hf. apply rbind_Ret in Hf as (? & Hf & _).
  apply rbind_Ret in Hf as (? & Hf & _). apply rbind_Ret in Hf as (? & Hf & _). apply rbind_Ret in Hf as (e & Hf & _). eauto.
Qed.

(** C9: the global pass of an opening runs at most once: on the stores it
    leaves, no unit, whatever its slot, its genesis and its plan, can run it
    again.  So no pool is rotated twice and no pots are moved twice. *)
Theorem finalize_runs_once (u : EstartWorkUnit) (s : S) (archive : gmap (list Z) CardanoEntity.t) indexes d' :
  finalize u (s, archive, indexes) = Ret (Ok d') -> forall u' d'', finalize u' d' ≠ Ret (Ok d'').
Proof.
  intros Hf u' [[s'' ar''] ix''] Hf'. destruct d' as [[s' ar'] ix']. destruct (finalize_loads _ _ _ _ _ Hf) as [e He].
  destruct (finalize_spec _ _ _ _ _ _ _ _ He Hf) as (_ & epoch & c & _ & _ & [_ _ _ Hep _ _ _ _ _] & _).
  destruct Hep as (nonce & next & pots & tr & dn & e1 & dt & e' & _ & _ & _ & _ & Hn & Ht & He').
  apply (transition_fields _ _ _ _ _ _ _ _ _ _ _ Hn) in Ht as (_ & _ & _ & _ & _ & _ & Hp & _).
  destruct (finalize_spec _ _ _ _ _ _ _ _ He' Hf') as (_ & ? & ? & _ & _ & [Hall _ _ _ _ _ _ _ _] & _).
  unfold all_shards_committed in Hall. by rewrite Hp in Hall.
Qed.

(** ** A run of shards *)

(** The shard count and the next shard [initialize] reads. *)
Definition total_of (e : EpochState.t) : Z :=
  match EpochState.estart_progress e with Some p => ShardProgress.total p | None => ACCOUNT_SHARDS end.
Definition start_of (e : EpochState.t) : Z :=
  match EpochState.estart_progress e with Some p => ShardProgress.committed p | None => 0 end.

(** The epoch but for its progress. *)
Definition settled (e : EpochState.t) : EpochState.t := e <| EpochState.estart_progress := None |>.

Lemma progress_step e i n d e' :
  total_of e = n -> start_of e = i -> 0 ≤ i < n -> n ≤ PREFIX_SPACE ->
  EStartProgress.apply (EStartProgress.new i n) (Some e) = Ret (d, Some e') ->
  total_of e' = n /\ start_of e' = i + 1 /\ settled e' = settled e.
Proof.
  intros Ht Hs Hi Hn Ha. unfold PREFIX_SPACE in Hn. unfold EStartProgress.apply in Ha. cbn in Ha.
  fold (start_of e) in Ha. rewrite Hs, !Z.ltb_irrefl in Ha.
  assert (match EpochState.estart_progress e with
          | Some p => negb (ShardProgress.total p =? n)
          | None => false end = false) as E.
  { unfold total_of in Ht. destruct (EpochState.estart_progress e); [|done]. by rewrite Ht, Z.eqb_refl. }
  rewrite E, uadd_exact in Ha by (unfold is_u; lia). cbn in Ha. apply Ret_inj in Ha. injection Ha as _ <-. done.
Qed.

Definition account_key (cr : StakeCredential) : EntityKey := entity_key_from (cbor_cred cr).

(** The shard of a credential. *)
Definition home (n : Z) (cr : StakeCredential) : Z := bucket cr / (256 / n).

Context (layout : cbor_layout).

Lemma shard_holds cr i n ranges :
  cred_ok cr -> 0 ≤ i -> shard_key_ranges i n = Ret ranges ->
  (i = home n cr -> exists r, filter (in_range (account_key cr)) ranges = [r]) /\
  (i ≠ home n cr -> ~ Exists (in_range (account_key cr)) ranges).
Proof.
  intros Hc Hi Hr. pose proof (shard_ranges_bound i n ranges Hr Hi) as Hn.
  assert (Hv : validate_total_shards n = true).
  { unfold shard_key_ranges in Hr. apply bind_Ret in Hr as (? & Hv & _). by apply assert_Ret in Hv. }
  destruct (in_shard layout cr i n Hc ltac:(lia) Hv ltac:(lia)) as (a & b & Hab & Hin & Hone).
  rewrite Hr in Hab. apply Ret_inj in Hab as ->. split.
  - intros Hh. specialize (Hone Hh). unfold account_key. rewrite !filter_cons.
    destruct (decide (in_range (entity_key_from (cbor_cred cr)) b)) as [Hb|Hb].
    + rewrite Hb in Hone. rewrite decide_False by (unfold in_range; by rewrite Hone). eauto.
    + apply not_true_is_false in Hb. rewrite Hb in Hone. rewrite decide_True by done. eauto.
  - intros Hh (r & Hr' & Hk)%Exists_exists. by apply Hh, (Hin r).
Qed.

(** What the shards from [i] up to [k] have done. *)
Record shards_done (i k n : Z) (e : EpochState.t) (s s' : S) : Prop := {
  sd_rest : rest_of (tables s') = rest_of (tables s);
  sd_epoch : exists e', load_epoch s' = Ret (Ok e') /\ total_of e' = n /\ start_of e' = k /\ settled e' = settled e;
  sd_account : forall cr epoch, cred_ok cr -> uadd 64 (EpochState.number e) 1 = Ret epoch ->
    if decide (i ≤ home n cr < k) then account_rotated s s' epoch (account_key cr)
    else entities (tables s') !! (NS AccountState.t, account_key cr) = entities (tables s) !! (NS AccountState.t, account_key cr);
  sd_absent : forall k, entities (tables s) !! (NS AccountState.t, k) = None ->
    entities (tables s') !! (NS AccountState.t, k) = None;
  sd_other : forall nk, nk ≠ EpochState.ns_key -> fst nk ≠ NS AccountState.t ->
    entities (tables s') !! nk = entities (tables s) !! nk;
}.

Lemma shards_done_refl i n e s :
  load_epoch s = Ret (Ok e) -> total_of e = n -> start_of e = i -> shards_done i i n e s s.
Proof. intros He Ht Hs. split; [done|eauto| |done|done]. intros cr epoch _ _. by rewrite decide_False by lia. Qed.

Lemma shards_done_cons i k n e s s1 s2 ranges e1 epoch :
  0 ≤ i < k -> load_epoch s1 = Ret (Ok e1) -> settled e1 = settled e ->
  uadd 64 (EpochState.number e) 1 = Ret epoch ->
  shard_key_ranges i n = Ret ranges -> shard_effect i n ranges e epoch s s1 -> shards_done (i + 1) k n e1 s1 s2 ->
  shards_done i k n e s s2.
Proof.
  intros Hi He1 Hse Hep Hr [Hre _ Hin Hout Habs] [Hre2 He2 Hac2 Habs2 Hot2]. split.
  - congruence.
  - destruct He2 as (e' & ? & ? & ? & ?). exists e'. split; [done|]. split; [done|]. split; [done|]. congruence.
  - intros cr epoch' Hc Hep'. rewrite Hep in Hep'. apply Ret_inj in Hep' as <-.
    assert (EpochState.number e1 = EpochState.number e) as Hnum by (by apply (f_equal EpochState.number) in Hse).
    specialize (Hac2 cr epoch Hc ltac:(by rewrite Hnum)).
    destruct (shard_holds cr i n ranges Hc ltac:(lia) Hr) as [Hhome Haway]. destruct (decide (i = home n cr)) as [Hh|Hh].
    + rewrite decide_False in Hac2 by lia. rewrite decide_True by lia. destruct (Hhome Hh) as (r & Hf).
      intros v a Hv Hd. destruct (Hin _ r Hf v a Hv Hd) as (d & a' & Ha & Hrow). exists d, a'. split; [done|]. by rewrite Hac2.
    + specialize (Hout (NS AccountState.t, account_key cr) ltac:(intros E; by apply (f_equal fst) in E) (fun _ => Haway Hh)).
      destruct (decide (i + 1 ≤ home n cr < k)) as [Hd|Hd].
      * rewrite decide_True by lia. intros v a Hv. rewrite <- Hout in Hv. by apply Hac2.
      * rewrite decide_False by lia. congruence.
  - intros k' Hn. by apply Habs2, Habs.
  - intros nk Hn Hk. rewrite (Hot2 nk Hn Hk). by apply Hout.
Qed.

Lemma run_shards_done u s archive indexes e i k d' :
  load_epoch s = Ret (Ok e) -> total_of e = es_total_shards u -> start_of e = i -> 0 ≤ i ≤ k ->
  for_each (run_shard u) (s, archive, indexes) (seqZ i (k - i)) = Ret (Ok d') ->
  exists s', d' = (s', archive, indexes) /\ shards_done i k (es_total_shards u) e s s'.
Proof.
  intros He Ht Hs [Hi Hk] Hf. assert (exists m : nat, k = i + Z.of_nat m) as [m ->] by (exists (Z.to_nat (k - i)); lia).
  clear Hk. replace (i + Z.of_nat m - i) with (Z.of_nat m) in Hf by lia.
  revert s e i He Ht Hs Hi Hf. induction m as [|m IH]; intros s e i He Ht Hs Hi Hf.
  - cbn in Hf. apply Ret_inj in Hf. injection Hf as <-. exists s. split; [done|].
    rewrite Z.add_0_r. by apply shards_done_refl.
  - rewrite seqZ_cons in Hf by lia. cbn [for_each] in Hf. apply rbind_Ret in Hf as (d1 & H1' & Hf).
    destruct (run_shard_effect _ _ _ _ _ _ _ He H1') as (ranges & epoch & s1 & Hr & Hep & -> & Heff).
    pose proof (se_epoch _ _ _ _ _ _ _ Heff) as (d & e1 & Ha & He1). pose proof (shard_ranges_bound _ _ _ Hr Hi) as Hb.
    apply (progress_step e i (es_total_shards u)) in Ha as (Ht1 & Hs1 & Hse); [|done|done|lia|lia].
    destruct (IH s1 e1 (i + 1) He1 Ht1 Hs1 ltac:(lia)) as (s' & -> & Hd).
    { by replace (Z.pred (Z.of_nat (Datatypes.S m))) with (Z.of_nat m) in Hf by lia. }
    exists s'. split; [done|]. replace (i + 1 + Z.of_nat m) with (i + Z.of_nat (Datatypes.S m)) in Hd by lia.
    eapply shards_done_cons; [lia|done..].
Qed.

(** ** Resuming an interrupted opening *)

Lemma get_utxos_same s s' refs : utxos (tables s') = utxos (tables s) -> get_utxos s' refs = get_utxos s refs.
Proof. intros E. apply map_eq. intros r. by rewrite !get_utxos_spec, E. Qed.

Lemma at_boundary_same s s' g e e' :
  load_epoch s = Ret (Ok e) -> load_epoch s' = Ret (Ok e') -> settled e' = settled e ->
  rest_of (tables s') = rest_of (tables s) -> AvvmReclamation.at_boundary s' g = AvvmReclamation.at_boundary s g.
Proof.
  intros He He' Hs Hr. unfold AvvmReclamation.at_boundary. rewrite He, He'. cbn [rbind].
  apply (f_equal EpochState.pparams) in Hs. cbn in Hs. rewrite Hs. apply (f_equal snd) in Hr. cbn in Hr.
  unfold AvvmReclamation.unredeemed. by rewrite (get_utxos_same s s').
Qed.

Lemma opening_plan slot g s u :
  initialize slot g s = Ret (Ok u) <->
  exists e avvm, load_epoch s = Ret (Ok e) /\ AvvmReclamation.at_boundary s g = Ret (Ok avvm) /\
    u = mkEstart slot g (total_of e) (start_of e) avvm.
Proof.
  unfold initialize. split.
  - intros Hu. apply rbind_Ret in Hu as (e & He & Hu). apply rbind_Ret in Hu as (avvm & Ha & Hu).
    apply Ret_inj in Hu. injection Hu as <-. by exists e, avvm.
  - intros (e & avvm & He & Ha & ->). rewrite He. cbn [rbind]. by rewrite Ha.
Qed.

(** C8: an opening interrupted after any number of its shards, all of them
    included, is resumed: running the unit again on what they left gives what
    the uninterrupted run gives, whether that is an opened epoch, an error or
    a panic. *)
Theorem interrupted_opening_resumes (slot : BlockSlot) (g : Genesis) (s : S)
    (archive : gmap (list Z) CardanoEntity.t) (indexes : MemoryIndex.t) d' u k :
  initialize slot g s = Ret (Ok u) -> 0 ≤ es_start_shard u ≤ k -> k ≤ es_total_shards u ->
  for_each (run_shard u) (s, archive, indexes) (seqZ (es_start_shard u) (k - es_start_shard u)) = Ret (Ok d') ->
  run_estart slot g d' = run_estart slot g (s, archive, indexes).
Proof.
  intros Hi Hk Hn Hf. pose proof Hi as Hi0. apply opening_plan in Hi as (e & avvm & He & Ha & ->).
  cbn [es_start_shard es_total_shards] in *.
  destruct (run_shards_done (mkEstart slot g (total_of e) (start_of e) avvm) _ _ _ e _ k _ He eq_refl eq_refl Hk Hf) as (s' & -> & [Hr (e' & He' & Ht & Hs & Hse) _ _ _]).
  assert (Hi' : initialize slot g s' = Ret (Ok (mkEstart slot g (total_of e) k avvm))).
  { apply opening_plan. exists e', avvm. rewrite (at_boundary_same s s' g e e') by done. cbn in Ht. by rewrite Ht, Hs. }
  unfold run_estart. cbn [fst]. rewrite Hi', Hi0. cbn [rbind es_start_shard es_total_shards].
  rewrite !debug_assert_holds by (apply Z.leb_le; lia). cbn [mbind run_bind].
  replace (total_of e - start_of e) with ((k - start_of e) + (total_of e - k)) by lia.
  rewrite seqZ_app, for_each_app, Hf by lia. cbn [rbind]. by replace (start_of e + (k - start_of e)) with k by lia.
Qed.

(** ** The open epoch *)

Lemma home_bound n cr : cred_ok cr -> 0 < n -> validate_total_shards n = true -> 0 ≤ home n cr < n.
Proof.
  intros Hc Hn Hv. pose proof (bucket_byte cr Hc) as Hb. destruct (valid_shards n Hn Hv) as [Hp Hm]. unfold home.
  split; [apply Z.div_pos; lia|]. apply Z.div_lt_upper_bound; lia.
Qed.

(** What the global pass reads of the epoch does not include its progress. *)
Lemma settled_context c e :
  settled (ended_state c) = settled e ->
  define_new_pots (c <| ended_state := e |>) = define_new_pots c /\ next_nonce (c <| ended_state := e |>) = next_nonce c.
Proof.
  destruct c as [e0 p ch g a ds ls]. cbn. intros Hs. unfold define_new_pots, pot_delta, next_nonce, initial_nonces. cbn.
  pose proof (f_equal EpochState.rolling Hs) as H1'. pose proof (f_equal EpochState.end_ Hs) as H2'.
  pose proof (f_equal EpochState.pparams Hs) as H3'. pose proof (f_equal EpochState.initial_pots Hs) as H4'.
  pose proof (f_equal EpochState.nonces Hs) as H5'. pose proof (f_equal EpochState.previous_nonce_tail Hs) as H6'.
  cbn in H1', H2', H3', H4', H5', H6'. by rewrite H1', H2', H3', H4', H5', H6'.
Qed.

(** A fresh opening: all the shards, then the global pass. *)
Lemma fresh_run slot g s archive indexes d' e :
  load_epoch s = Ret (Ok e) -> EpochState.estart_progress e = None ->
  run_estart slot g (s, archive, indexes) = Ret (Ok d') ->
  exists s1 u, shards_done 0 ACCOUNT_SHARDS ACCOUNT_SHARDS e s s1 /\ finalize u (s1, archive, indexes) = Ret (Ok d') /\
    es_slot u = slot /\ es_genesis u = g.
Proof.
  intros He Hfresh Hr. unfold run_estart in Hr. apply rbind_Ret in Hr as (u & Hi & Hr). cbn [fst] in Hi.
  apply opening_plan in Hi as (e0 & avvm & He0 & Ha & ->). rewrite He in He0. apply Ret_inj in He0. injection He0 as <-.
  assert (total_of e = ACCOUNT_SHARDS /\ start_of e = 0) as [Ht Hs] by (unfold total_of, start_of; by rewrite Hfresh).
  rewrite Ht, Hs in Hr. cbn [es_start_shard es_total_shards] in Hr. apply bind_Ret in Hr as (? & _ & Hr). apply rbind_Ret in Hr as (d1 & Hsh & Hf).
  apply (run_shards_done (mkEstart slot g ACCOUNT_SHARDS 0 avvm) _ _ _ e 0 ACCOUNT_SHARDS _ He Ht Hs) in Hsh
    as (s1 & -> & Hd); [|by unfold ACCOUNT_SHARDS; lia].
  by exists s1, (mkEstart slot g ACCOUNT_SHARDS 0 avvm).
Qed.

(** ** The pots of the open epoch

    From the pots [p] and the incentives [i] of the ended epoch, the statistics
    of its blocks [r] and of its closing [st], the deposits in force and the
    reclaimed AVVM value: each pot is what it held, plus what flows into it,
    minus what flows out. *)
Definition opened_pots (p : Pots.t) (i : EpochIncentives.t) (r : RollingStats.t) (st : EndStats.t)
    (key_deposit : option Z) (pool_deposit reclaimed : Z) : Pots.t := {|
  Pots.reserves := Pots.reserves p - EpochIncentives.total i - EndStats.reserve_mirs st
    + (EpochIncentives.available_rewards i - (EndStats.effective_rewards st + EndStats.unspendable_to_treasury st))
    + reclaimed;
  Pots.treasury := Pots.treasury p + EpochIncentives.treasury_tax i + EndStats.unspendable_to_treasury st
    + EndStats.pool_invalid_refund_count st * pool_deposit + EndStats.proposal_invalid_refunds st
    + RollingStats.treasury_donations r - EndStats.treasury_mirs st - EndStats.treasury_withdrawals st;
  Pots.utxos := Pots.utxos p + RollingStats.produced_utxos r - RollingStats.consumed_utxos r - reclaimed;
  Pots.rewards := Pots.rewards p + EndStats.effective_rewards st - RollingStats.withdrawals r
    + EndStats.pool_refund_count st * pool_deposit + EndStats.proposal_refunds st
    + EndStats.reserve_mirs st + EndStats.treasury_mirs st + EndStats.treasury_withdrawals st;
  Pots.fees := Pots.fees p - EpochIncentives.used_fees i + RollingStats.gathered_fees r;
  Pots.pool_count := Pots.pool_count p + EndStats.pool_deposit_count st - EndStats.pool_refund_count st
    - EndStats.pool_invalid_refund_count st;
  Pots.account_count := Pots.account_count p + RollingStats.new_accounts r - RollingStats.removed_accounts r;
  Pots.deposit_per_pool := pool_deposit;
  Pots.deposit_per_account := default (Pots.deposit_per_account p) key_deposit;
  Pots.nominal_deposits := Pots.nominal_deposits p;
  Pots.drep_deposits := Pots.drep_deposits p + RollingStats.drep_deposits r - RollingStats.drep_refunds r;
  Pots.proposal_deposits := Pots.proposal_deposits p + RollingStats.proposal_deposits r
    - EndStats.proposal_refunds st - EndStats.proposal_invalid_refunds st;
|}.

(** In Byron only the reserves and the UTxO pot exist. *)
Definition opened_byron_pots (p : Pots.t) (r : RollingStats.t) : Pots.t :=
  Pots.mk (Pots.reserves p - RollingStats.produced_utxos r + RollingStats.consumed_utxos r) 0
    (Pots.utxos p + RollingStats.produced_utxos r - RollingStats.consumed_utxos r) 0 0 0 0 0 0
    (Pots.nominal_deposits p) 0 0.

(** Every pot can pay what the boundary takes from it, and the amounts fit
    their machine words. *)
Definition payable (version : Z) (p : Pots.t) (i : EpochIncentives.t) (d : PotDelta.t) : Prop :=
  Pots.wf p /\ EpochIncentives.wf i /\ PotDelta.wf d /\ (if version <=? 1 then byron_solvent p d else solvent p i d).

(** The statistics a boundary reads of the epoch it ends. *)
Record boundary_stats (e : EpochState.t) (rolling : RollingStats.t) (end_ : EndStats.t) (version : Z)
    (key_deposit : option Z) (pool_deposit : Z) : Prop := {
  bs_rolling : EpochValue.unwrap_live (EpochState.rolling e) = Ret rolling;
  bs_end : EpochState.end_ e = Some end_;
  bs_params : exists params, EpochValue.unwrap_live (EpochState.pparams e) = Ret params /\
    PParamsSet.protocol_major_or_default params = Ret version /\ PParamsSet.key_deposit params = Ret key_deposit /\
    PParamsSet.pool_deposit_or_default params = Ret pool_deposit;
}.

Lemma new_pots_equations c p' :
  define_new_pots c = Ret p' ->
  exists rolling end_ version key_deposit pool_deposit delta,
    boundary_stats (ended_state c) rolling end_ version key_deposit pool_deposit /\ pot_delta c rolling end_ = Ret delta /\
    (payable version (EpochState.initial_pots (ended_state c)) (EndStats.epoch_incentives end_) delta ->
     p' = if version <=? 1 then opened_byron_pots (EpochState.initial_pots (ended_state c)) rolling
          else opened_pots (EpochState.initial_pots (ended_state c)) (EndStats.epoch_incentives end_) rolling end_
                 key_deposit pool_deposit (AvvmReclamation.total (avvm_reclamation c))).
Proof.
  unfold define_new_pots. intros Hp. apply bind_Ret in Hp as (rolling & Hr & Hp). apply bind_Ret in Hp as (end_ & He & Hp).
  apply bind_Ret in Hp as (delta & Hd & Hp). apply bind_Ret in Hp as (pots & Ha & Hp). apply bind_Ret in Hp as (? & _ & Hp).
  apply bind_Ret in Hp as (? & _ & Hp). apply bind_Ret in Hp as (? & _ & Hp). apply Ret_inj in Hp as ->.
  pose proof Hd as Hd'. unfold pot_delta in Hd'. apply bind_Ret in Hd' as (params & Hpp & Hd'). apply bind_Ret in Hd' as (key & Hkd & Hd').
  apply bind_Ret in Hd' as (pool & Hpd & Hd'). apply bind_Ret in Hd' as (version & Hv & Hd'). apply bind_Ret in Hd' as (mark & _ & Hd').
  apply Ret_inj in Hd'. exists rolling, end_, version, key, pool, delta. split; [split; [done|by apply expect_Ret|by exists params]|].
  split; [done|]. intros (Hwp & Hwi & Hwd & Hs). unfold apply_delta in Ha.
  assert (PotDelta.protocol_version delta = version) as Ev by (by subst delta). rewrite Ev in Ha. destruct (version <=? 1).
  - rewrite byron_closed_form in Ha by done. apply Ret_inj in Ha as <-. unfold byron_boundary, opened_byron_pots.
    rewrite byron_neutral_eq. by subst delta.
  - rewrite shelley_closed_form in Ha by done. apply Ret_inj in Ha as <-. by subst delta.
Qed.

(** C7: opening an epoch succeeds only if it does all of it, once.  Every
    account and every pool is rotated into the next epoch by exactly one
    transition, and none is added.  The epoch has the next number, fresh
    progress and, as long as every pot can pay what the boundary takes from
    it, the pots that the flows of the ended epoch give.  When the protocol
    version changes the summary of the ended era is closed and that of the
    next one opened at this epoch, and when Conway begins the governance
    singleton is seeded.  The cursor is at the boundary, the UTxO set has lost
    exactly the reclaimed outputs, and no other row changes: no DRep, no
    proposal, no other era summary, and not the governance singleton at any
    other boundary. *)
Theorem epoch_opens (slot : BlockSlot) (g : Genesis) (s s' : S) (archive archive' : gmap (list Z) CardanoEntity.t)
    (indexes indexes' : MemoryIndex.t) (e : EpochState.t) :
  run_estart slot g (s, archive, indexes) = Ret (Ok (s', archive', indexes')) ->
  load_epoch s = Ret (Ok e) -> EpochState.estart_progress e = None ->
  exists epoch e' c transition, uadd 64 (EpochState.number e) 1 = Ret epoch /\ load_epoch s' = Ret (Ok e') /\
    EpochState.number e' = epoch /\ EpochState.end_ e' = Some EndStats.default_ /\
    EpochState.ewrap_progress e' = None /\ EpochState.estart_progress e' = None /\
    ended_state c = e /\ AvvmReclamation.at_boundary s g = Ret (Ok (avvm_reclamation c)) /\
    next_nonce c = Ret (EpochState.nonces e') /\
    (exists rolling end_ version key_deposit pool_deposit delta,
       boundary_stats e rolling end_ version key_deposit pool_deposit /\ pot_delta c rolling end_ = Ret delta /\
       (payable version (EpochState.initial_pots e) (EndStats.epoch_incentives end_) delta ->
        EpochState.initial_pots e' =
          if version <=? 1 then opened_byron_pots (EpochState.initial_pots e) rolling
          else opened_pots (EpochState.initial_pots e) (EndStats.epoch_incentives end_) rolling end_ key_deposit pool_deposit
                 (AvvmReclamation.total (avvm_reclamation c)))) /\
    read_cursor s' = Some (ChainPoint.Slot slot) /\ archive' = archive /\
    utxos (tables s') = utxos (tables s) ∖ AvvmReclamation.utxos (avvm_reclamation c) /\
    (forall cr, cred_ok cr -> account_rotated s s' epoch (account_key cr)) /\
    (forall k, in_range k full_range -> pool_rotated s s' epoch k) /\
    (forall nk, fst nk = NS AccountState.t \/ fst nk = NS PoolState.t ->
       entities (tables s) !! nk = None -> entities (tables s') !! nk = None) /\
    era_transition (EpochState.pparams e) = Ret transition /\
    gov_opened transition g epoch s s' /\ eras_opened transition g epoch s s' /\
    (forall nk, fst nk ∉ [NS AccountState.t; NS PoolState.t; NS EraSummary.t] ->
       nk ≠ EpochState.ns_key -> nk ≠ GovState.ns_key ->
       entities (tables s') !! nk = entities (tables s) !! nk).
Proof.
  intros Hr He Hfresh. destruct (fresh_run _ _ _ _ _ _ _ He Hfresh Hr) as (s1 & u & [Hr1 (e1 & He1 & _ & _ & Hse) Hac Hab Hot] & Hf & <- & <-).
  destruct (finalize_spec _ _ _ _ _ _ _ _ He1 Hf) as (-> & epoch & c & Hep & [Hen _ Hge Hav _] & [_ Hcu Hut Hfe Hpo Hpa Hfg Hfr Hfo] & _).
  destruct Hfe as (nonce & next & pots & tr & dn & e2 & dt & e' & Hno & _ & Hpots & Htr0 & Hn & Htr & He').
  apply (transition_fields _ _ _ _ _ _ _ _ _ _ _ Hn) in Htr as (? & ? & ? & _ & ? & ? & ? & _).
  specialize (Hfg tr Htr0). specialize (Hfr tr Htr0). rewrite Hge in Hfg, Hfr. subst.
  assert (Hnum : EpochState.number (ended_state c) = EpochState.number e) by (by apply (f_equal EpochState.number) in Hse).
  rewrite Hnum in Hep. rewrite (at_boundary_same s s1 _ e (ended_state c)) in Hav by done.
  replace (EpochState.pparams (ended_state c)) with (EpochState.pparams e) in Htr0 by (by apply (f_equal EpochState.pparams) in Hse).
  destruct (settled_context c e Hse) as [Hc1 Hc2]. rewrite <- Hc1 in Hpots. apply new_pots_equations in Hpots.
  assert (Hacc : forall k, entities (tables s') !! (NS AccountState.t, k) = entities (tables s1) !! (NS AccountState.t, k)).
  { intros k. apply Hfo; [done|done|intros E; by apply (f_equal fst) in E..]. }
  assert (Hs1 : forall nk, fst nk ≠ NS AccountState.t -> nk ≠ EpochState.ns_key ->
    entities (tables s1) !! nk = entities (tables s) !! nk) by auto.
  exists (EpochState.number e'), e', (c <| ended_state := e |>), tr. rewrite Hc2. conj_split; try done.
  - by rewrite read_cursor_spec.
  - by rewrite Hut, (f_equal snd Hr1 : utxos (tables s1) = utxos (tables s)).
  - intros cr Hc v a Hv Hd. specialize (Hac cr _ Hc Hep). rewrite decide_True in Hac by (apply home_bound; done).
    destruct (Hac v a Hv Hd) as (d & a' & Hd' & Hrow). exists d, a'. split; [done|]. by rewrite Hacc.
  - intros k Hk v p Hv Hd. apply (Hpo k Hk v p); [|done]. rewrite Hs1; [done|done|]. intros E. by apply (f_equal fst) in E.
  - intros [ns k] Hns Hnone. cbn [fst] in Hns. destruct Hns as [-> | ->]; [rewrite Hacc; by apply Hab|].
    apply Hpa. rewrite Hs1; [done|done|]. intros E. by apply (f_equal fst) in E.
  - apply (gov_opened_from s1); [|done]. apply Hs1; [done|]. apply gov_key_epoch.
  - apply (eras_opened_from s1); [|done]. intros k. apply Hs1; [done|]. intros E. by apply (f_equal fst) in E.
  - intros nk Hn' Hn1 Hn2. rewrite !not_elem_of_cons in Hn'. destruct Hn' as (Hn3 & Hn4 & Hn5 & _). rewrite Hfo by done. by apply Hs1.
Qed.

(** ** The reclaimed outputs *)

Lemma sum_coins_spec t l total :
  AvvmReclamation.sum_coins t l = Ret (Ok total) -> 0 ≤ t -> t + Zsum coin_of l < 2 ^ 64 -> total = t + Zsum coin_of l.
Proof.
  revert t. induction l as [|b l IH]; intros t Hs Ht Hb; cbn in Hs.
  { apply Ret_inj in Hs. injection Hs as <-. cbn. lia. }
  rewrite Zsum_cons in Hb |- *. assert (0 ≤ Zsum coin_of l) by (apply Zsum_nonneg; intros; apply coin_nonneg).
  destruct (output_coin b) as [n|] eqn:E; [|done]. assert (coin_of b = n) as Hn by (unfold coin_of; by rewrite E).
  pose proof (coin_nonneg b). rewrite uadd_exact in Hs by (unfold is_u; lia). cbn in Hs. apply IH in Hs; lia.
Qed.

Definition enters_allegra (transition : option EraTransition.t) : bool :=
  match transition with Some x => EraTransition.entering_allegra x | None => false end.

Lemma reclaimed_subset s g avvm :
  AvvmReclamation.at_boundary s g = Ret (Ok avvm) -> coins (utxos (tables s)) < 2 ^ 64 ->
  AvvmReclamation.utxos avvm ⊆ utxos (tables s) /\ AvvmReclamation.total avvm = coins (AvvmReclamation.utxos avvm) /\
  exists e transition, load_epoch s = Ret (Ok e) /\ era_transition (EpochState.pparams e) = Ret transition /\
    forall r, AvvmReclamation.utxos avvm !! r =
      if match transition with Some x => EraTransition.entering_allegra x | None => false end
         && bool_decide (r ∈ AvvmReclamation.genesis_refs g)
      then utxos (tables s) !! r else None.
Proof.
  intros Ha Hb. unfold AvvmReclamation.at_boundary in Ha. apply rbind_Ret in Ha as (e & He & Ha).
  apply bind_Ret in Ha as (transition & Ht & Ha).
  assert (forall r, AvvmReclamation.utxos avvm !! r =
      if match transition with Some x => EraTransition.entering_allegra x | None => false end
         && bool_decide (r ∈ AvvmReclamation.genesis_refs g)
      then utxos (tables s) !! r else None) as Hl.
  { intros r. destruct (match transition with Some _ => _ | None => _ end).
    - unfold AvvmReclamation.unredeemed in Ha. destruct (AvvmReclamation.genesis_refs g) as [|r0 refs] eqn:Eg.
      + apply Ret_inj in Ha. injection Ha as <-. by rewrite bool_decide_false by apply not_elem_of_nil.
      + apply rbind_Ret in Ha as (total & _ & Ha). apply Ret_inj in Ha. injection Ha as <-. apply get_utxos_spec.
    - apply Ret_inj in Ha. by injection Ha as <-. }
  assert (Hsub : AvvmReclamation.utxos avvm ⊆ utxos (tables s)).
  { apply map_subseteq_spec. intros r b. rewrite Hl. by destruct (_ && _). }
  split; [done|]. split; [|by exists e, transition].
  assert (Hle : coins (AvvmReclamation.utxos avvm) ≤ coins (utxos (tables s))).
  { rewrite (coins_split _ _ Hsub). pose proof (coins_nonneg (utxos (tables s) ∖ AvvmReclamation.utxos avvm)). lia. }
  destruct (match transition with Some _ => _ | None => _ end); [|apply Ret_inj in Ha; by injection Ha as <-].
  unfold AvvmReclamation.unredeemed in Ha. destruct (AvvmReclamation.genesis_refs g); [apply Ret_inj in Ha; by injection Ha as <-|].
  apply rbind_Ret in Ha as (total & Hs & Ha). apply Ret_inj in Ha. injection Ha as <-. cbn [AvvmReclamation.total AvvmReclamation.utxos] in *.
  unfold coins in Hle |- *. apply sum_coins_spec in Hs; [|done|]; unfold coins in Hb; rewrite Zsum_fmap in *; [done|lia].
Qed.

(** Their removal from the set is followed by the index. *)
Lemma reclaimed_unindexed (a : AvvmReclamation.t) (indexes indexes' : MemoryIndex.t) (u : UtxoMap) :
  AvvmReclamation.utxos a ⊆ u -> coherent indexes u ->
  (if AvvmReclamation.is_empty a then Ret (Ok indexes) else index_deletion indexes (AvvmReclamation.deletion_delta a)) = Ret (Ok indexes') ->
  coherent indexes' (u ∖ AvvmReclamation.utxos a).
Proof.
  intros Hsub Hco Hidx. unfold AvvmReclamation.is_empty in Hidx. case_bool_decide as Hem.
  - apply Ret_inj in Hidx. injection Hidx as <-. by rewrite Hem, map_difference_empty.
  - assert (Hap : applies u [AvvmReclamation.deletion_delta a]).
    { cbn. rewrite (left_id_L ∅ (∪)). conj_split; try done. apply map_disjoint_empty_l. }
    destruct (delta_coherent indexes _ _ (default ChainPoint.Origin (MemoryIndex.cursor indexes)) Hco Hap) as (ops & Happ & _ & Hc').
    unfold index_deletion in Hidx. rewrite Happ in Hidx. cbn in Hidx. apply Ret_inj in Hidx. injection Hidx as <-.
    unfold utxo_step in Hc'. cbn in Hc'. by rewrite map_difference_empty, !(left_id_L ∅ (∪)) in Hc'.
Qed.

(** Allegra is entered from the protocol version of Shelley. *)
Lemma allegra_from_shelley e rolling end_ version key pool transition :
  boundary_stats e rolling end_ version key pool -> era_transition (EpochState.pparams e) = Ret transition ->
  enters_allegra transition = true -> version = 2.
Proof.
  intros [_ _ (params & Hl & Hv & _)] Ht Ha. unfold era_transition in Ht. rewrite Hl in Ht. cbn [mbind run_bind] in Ht.
  rewrite Hv in Ht. cbn [mbind run_bind] in Ht. apply bind_Ret in Ht as (update & _ & Ht). apply Ret_inj in Ht as <-.
  destruct update as [update|]; [|done]. destruct (version =? update); [done|]. unfold enters_allegra, EraTransition.entering_allegra in Ha.
  cbn in Ha. apply andb_true_iff in Ha as [Ha _]. by apply Z.eqb_eq in Ha.
Qed.

(** C25: the reclamation of the unredeemed AVVM outputs is one event.  Opening
    the first epoch of Allegra removes exactly the outputs of the genesis
    distribution that are still unspent, from the set and from the filters of
    the index; opening any other epoch leaves the set alone.  The value removed
    moves between the pots: as long as every pot can pay what the boundary
    takes from it, the UTxO pot of the new epoch is lower and its reserves are
    higher by exactly that value than what the other flows give, and a UTxO pot
    that agreed with the set before agrees with the set after. *)
Theorem avvm_reclaimed (slot : BlockSlot) (g : Genesis) (s s' : S) (archive archive' : gmap (list Z) CardanoEntity.t)
    (indexes indexes' : MemoryIndex.t) (e : EpochState.t) :
  run_estart slot g (s, archive, indexes) = Ret (Ok (s', archive', indexes')) ->
  load_epoch s = Ret (Ok e) -> EpochState.estart_progress e = None -> coins (utxos (tables s)) < 2 ^ 64 ->
  coherent indexes (utxos (tables s)) ->
  coherent indexes' (utxos (tables s')) /\
  exists transition c e', era_transition (EpochState.pparams e) = Ret transition /\
    ended_state c = e /\ AvvmReclamation.at_boundary s g = Ret (Ok (avvm_reclamation c)) /\
    coins (utxos (tables s')) + AvvmReclamation.total (avvm_reclamation c) = coins (utxos (tables s)) /\
    (forall r, utxos (tables s') !! r =
      if enters_allegra transition && bool_decide (r ∈ AvvmReclamation.genesis_refs g)
      then None else utxos (tables s) !! r) /\
    load_epoch s' = Ret (Ok e') /\
    exists rolling end_ version key_deposit pool_deposit delta,
      boundary_stats e rolling end_ version key_deposit pool_deposit /\ pot_delta c rolling end_ = Ret delta /\
      (enters_allegra transition = true -> version = 2) /\
      (payable version (EpochState.initial_pots e) (EndStats.epoch_incentives end_) delta ->
       let removed := coins (utxos (tables s)) - coins (utxos (tables s')) in
       let flows := RollingStats.produced_utxos rolling - RollingStats.consumed_utxos rolling in
       Pots.utxos (EpochState.initial_pots e') = Pots.utxos (EpochState.initial_pots e) + flows - removed /\
       (1 < version -> Pots.reserves (EpochState.initial_pots e') =
          Pots.reserves (opened_pots (EpochState.initial_pots e) (EndStats.epoch_incentives end_) rolling end_
            key_deposit pool_deposit 0) + removed) /\
       (Pots.utxos (EpochState.initial_pots e) + flows = coins (utxos (tables s)) ->
        Pots.utxos (EpochState.initial_pots e') = coins (utxos (tables s')))).
Proof.
  intros Hr He Hfresh Hb Hco. destruct (fresh_run _ _ _ _ _ _ _ He Hfresh Hr) as (s1 & u & [Hr1 (e1 & He1 & _ & _ & Hse) _ _ _] & Hf & <- & <-).
  destruct (finalize_spec _ _ _ _ _ _ _ _ He1 Hf) as (-> & epoch & c & _ & [Hen _ _ Hav _] & [_ _ Hut Hfe _ _ _ _ _] & Hidx).
  destruct Hfe as (nonce & next & pots & tr & dn & e2 & dt & e' & _ & _ & Hpots & _ & Hn & Hdt & He').
  apply (transition_fields _ _ _ _ _ _ _ _ _ _ _ Hn) in Hdt as (_ & Hip & _). subst e1.
  rewrite (at_boundary_same s s1 _ e (ended_state c)) in Hav by done.
  destruct (settled_context c e Hse) as [Hc1 _]. rewrite <- Hc1 in Hpots. apply new_pots_equations in Hpots.
  destruct Hpots as (rolling & end_ & version & key & pool & delta & Hst & Hpd & Heq). cbn [ended_state] in Hst, Heq.
  destruct (reclaimed_subset _ _ _ Hav Hb) as (Hsub & Htot & e0 & transition & He0 & Htr & Hl).
  rewrite He in He0. apply Ret_inj in He0. injection He0 as <-.
  rewrite (f_equal snd Hr1 : utxos (tables s1) = utxos (tables s)) in Hut.
  assert (Hcoins : coins (utxos (tables s')) + AvvmReclamation.total (avvm_reclamation c) = coins (utxos (tables s))).
  { rewrite Hut, Htot. by rewrite <- coins_split. }
  split; [rewrite Hut; by apply (reclaimed_unindexed (avvm_reclamation c) indexes)|].
  exists transition, (c <| ended_state := e |>), e'. conj_split; try done.
  - intros r. rewrite Hut, lookup_difference, Hl. unfold enters_allegra. destruct (_ && _); [by destruct (utxos (tables s) !! r)|done].
  - exists rolling, end_, version, key, pool, delta. pose proof (allegra_from_shelley e rolling end_ version key pool transition Hst Htr) as Hv.
    split; [done|]. split; [done|]. split; [done|]. intros Hpay. specialize (Heq Hpay). rewrite Hip, Heq. cbv zeta.
    cbn [avvm_reclamation] in *. destruct (Z.leb_spec version 1) as [Hle|Hgt].
    + assert (AvvmReclamation.total (avvm_reclamation c) = 0) as Hz.
      { rewrite Htot. assert (AvvmReclamation.utxos (avvm_reclamation c) = ∅) as ->; [|done].
        apply map_empty. intros r. rewrite Hl. fold (enters_allegra transition).
        destruct (enters_allegra transition); [specialize (Hv eq_refl); lia|done]. }
      cbn. lia.
    + cbn. lia.
Qed.

End shards.

(** ** The first epoch of Allegra, opened

    Two accounts, a pool, a DRep, and one output of the Byron distribution that was
    never redeemed. *)
Module OpeningDemo.

#[export] Existing Instances Memory.store cfg_debug demo_pallas demo_cbor.
#[export] Existing Instances IndexDemo.addresses IndexDemo.views IndexDemo.xxh3.

Definition avvm : TxoRef := IndexDemo.spent.
#[export] Instance genesis_files : GenesisUtxos := demo_genesis_utxos [(fst avvm, [], 500)] [] [].

Definition pparams (major : Z) : PParamsSet.t := PParamsSet.mk [PParamValue.ProtocolVersion (major, 0)].

Definition epoch : EpochState.t :=
  BoundaryDemo.epoch
    <| EpochState.initial_pots := Pots.default_ <| Pots.treasury := 1000 |> <| Pots.utxos := 500 |> |>
    <| EpochState.pparams := EpochValue.mk (EpochAt 100) (Some (pparams 3)) (Some (pparams 2)) None None None |>.

Definition pool : PoolState.t :=
  PoolState.mk (replicate 28 7)
    (EpochValue.with_live 100 (PoolSnapshot.mk false 3 RewardDemo.params false)) 3 10 None 500.

Definition drep_key : NsKey := (NS DRepState.t, drep_to_entity_key (DRepState.identifier BoundaryDemo.drep)).

Definition rows : list (NsKey * CardanoEntity.t) :=
  [ ((NS EraSummary.t, era_protocol_key 2), CardanoEntity.EEraSummary (BoundaryDemo.era <| EraSummary.protocol := 2 |>));
    (EpochState.ns_key, CardanoEntity.EEpochState epoch);
    ((NS PoolState.t, entity_key_from (PoolState.operator pool)), CardanoEntity.EPoolState pool);
    (drep_key, CardanoEntity.EDRepState BoundaryDemo.drep) ] ++
  ((fun n => ((NS AccountState.t, account_key (BoundaryDemo.cred n)),
      CardanoEntity.EAccountState (BoundaryDemo.account n true))) <$> [1; 200]).

Definition store : Tables CardanoEntity.t := mkTables None (list_to_map rows) {[ avvm := (7, [500]) ]}.
Definition index : MemoryIndex.t := MemoryIndex.mk None {[ (Utxo.ADDRESS, [500]) := {[ avvm ]} ]} ∅ ∅.

Definition started : EstartWorkUnit :=
  mkEstart 10100 demo_genesis ACCOUNT_SHARDS 0 (AvvmReclamation.mk {[ avvm := (7, [500]) ]} 500).

Definition stores : Tables CardanoEntity.t * gmap (list Z) CardanoEntity.t * MemoryIndex.t := (store, ∅, index).

Definition opening := run_estart 10100 demo_genesis stores.
Definition some_shards := for_each (run_shard started) stores (seqZ 0 (32 - 0)).

Lemma opens : succeeds_with opening = true.
Proof. by vm_compute. Qed.

Lemma shards_succeed : succeeds_with some_shards = true.
Proof. by vm_compute. Qed.

Definition opened := the opening opens.
Definition shards_done_ := the some_shards shards_succeed.

Lemma layout : cbor_layout.
Proof. by intros []. Qed.

Lemma cred_valid n : 0 ≤ n < 256 -> cred_ok (BoundaryDemo.cred n).
Proof. intros Hn. split; [done|]. by apply Forall_replicate. Qed.

(** Stopped after its last shard the opening still runs its global pass. *)
Lemma interrupted_opening_resumes_witness :
  run_estart 10100 demo_genesis shards_done_ = opening /\ read_cursor (fst (fst opened)) = Some (ChainPoint.Slot 10100).
Proof.
  split.
  - apply (interrupted_opening_resumes layout 10100 demo_genesis store ∅ index shards_done_ started 32).
    + by vm_compute.
    + cbn. lia.
    + cbn. unfold ACCOUNT_SHARDS. lia.
    + exact (the_spec some_shards shards_succeed).
  - by vm_compute.
Defined.

Lemma demo_payable : payable 2 (EpochState.initial_pots epoch) (EndStats.epoch_incentives EndStats.default_)
  ((PotDelta.neutral 2 2) <| PotDelta.deposit_per_pool := Some 0 |> <| PotDelta.avvm_reclamation := 500 |>).
Proof.
  unfold payable. split; [unfold Pots.wf, is_u; cbn; lia|]. split; [unfold EpochIncentives.wf, is_u; cbn; lia|].
  split; [unfold PotDelta.wf, is_u; cbn; lia|]. cbn. unfold solvent, new_pool_deposit. cbn. rewrite !Forall_cons, Forall_nil. lia.
Qed.

Lemma epoch_opens_witness :
  exists epoch e', load_epoch (fst (fst opened)) = Ret (Ok e') /\ EpochState.number e' = epoch /\ epoch = 101 /\
    Pots.reserves (EpochState.initial_pots e') = 500 /\
    account_rotated store (fst (fst opened)) epoch (account_key (BoundaryDemo.cred 200)) /\
    pool_rotated store (fst (fst opened)) epoch (entity_key_from (PoolState.operator pool)) /\
    entities (tables (fst (fst opened))) !! drep_key = Some (CardanoEntity.EDRepState BoundaryDemo.drep).
Proof.
  destruct (epoch_opens layout 10100 demo_genesis store (fst (fst opened)) ∅ (snd (fst opened)) index (snd opened) epoch)
    as (n & e' & c & tr & Hn & He' & Hnum & _ & _ & _ & _ & _ & _ & _ & _ & _ & _ & Hac & Hpo & _ & _ & _ & _ & Hfr).
  - assert (opened = (fst (fst opened), snd (fst opened), snd opened)) as <- by (by destruct opened as [[??]?]).
    exact (the_spec opening opens).
  - vm_compute. reflexivity.
  - reflexivity.
  - exists n, e'. vm_compute in Hn. apply Ret_inj in Hn as <-. split; [exact He'|]. split; [exact Hnum|]. split; [reflexivity|].
    split; [vm_compute in He'; apply Ret_inj in He'; injection He' as <-; reflexivity|].
    split; [apply Hac, cred_valid; lia|]. split; [apply Hpo; vm_compute; reflexivity|].
    rewrite Hfr; [vm_compute; reflexivity|apply (bool_decide_unpack _); vm_compute; exact I|discriminate|discriminate].
Defined.

(** The 500 of the unredeemed output leave the UTxO pot for the reserves. *)
Lemma avvm_reclaimed_witness :
  coherent (snd opened) (utxos (tables (fst (fst opened)))) /\ utxos (tables (fst (fst opened))) !! avvm = None /\
  exists e', load_epoch (fst (fst opened)) = Ret (Ok e') /\
    Pots.utxos (EpochState.initial_pots e') = 0 /\ Pots.reserves (EpochState.initial_pots e') = 500.
Proof.
  destruct (avvm_reclaimed layout 10100 demo_genesis store (fst (fst opened)) ∅ (snd (fst opened)) index (snd opened) epoch)
    as (Hco & transition & c & e' & Ht & Hc & Ha & _ & Hl & He' & rolling & end_ & version & key & pool & delta & Hst & Hd & _ & Hp).
  - assert (opened = (fst (fst opened), snd (fst opened), snd opened)) as <- by (by destruct opened as [[??]?]).
    exact (the_spec opening opens).
  - vm_compute. reflexivity.
  - reflexivity.
  - vm_compute. reflexivity.
  - by apply IndexDemo.singleton_coherent.
  - split; [exact Hco|]. split; [rewrite Hl; vm_compute in Ht; apply Ret_inj in Ht as <-; vm_compute; reflexivity|].
    exists e'. split; [exact He'|]. destruct Hst as [Hr He (params & Hpar & Hv & _)].
    vm_compute in Hr. apply Ret_inj in Hr as <-. vm_compute in He. injection He as <-.
    vm_compute in Hpar. apply Ret_inj in Hpar as <-. vm_compute in Hv. apply Ret_inj in Hv as <-.
    destruct c as [e0 pr ch ge a ds ls]. cbn in Hc, Ha. subst e0. vm_compute in Ha. apply Ret_inj in Ha. injection Ha as <-.
    vm_compute in Hd. apply Ret_inj in Hd as <-. destruct Hp as (Hu & Hre & _); [exact demo_payable|].
    split; [rewrite Hu; vm_compute; reflexivity|]. rewrite Hre by done. vm_compute. reflexivity.
Defined.

Lemma finalize_runs_once_witness : succeeds_with (finalize started opened) = false.
Proof.
  destruct (finalize started opened) as [[d|]|] eqn:E; [exfalso|reflexivity..]. revert E.
  apply (finalize_runs_once started (fst (fst shards_done_)) (snd (fst shards_done_)) (snd shards_done_)).
  assert (shards_done_ = (fst (fst shards_done_), snd (fst shards_done_), snd shards_done_)) as <- by (by destruct shards_done_ as [[??]?]).
  vm_compute. reflexivity.
Defined.

End OpeningDemo.
