(* ===== verification/Rupd.v ===== *)
(** * The reward update (cardano/src/rupd)

    The pass that computes the rewards of an epoch before its end: the stake
    snapshot it pays by, the incentives, the rewards of every shard of the
    accounts, stored as pending rewards, and the stake logs of the pools. *)

From Stdlib Require Import SpecFloat.
From S2P Require Import Prelude Lists Types ChainPoint EpochValue EntityDelta Eras PParams Forks Ratio Pots.
From S2P Require Import Accounts Pools Pending Epochs Hacks StateStore Shards.
From S2P Require Import Blocks PallasExtras GenesisFiles RewardMap CardanoModel Codec Ewrap.
Open Scope Z_scope.

(** [num_rational]'s approximation of a float by a ratio of two [i64]. *)
Class ApproximateFloat := { approximate_float : spec_float -> option (Z * Z) }.

(** ** Delegators by pool (rupd/mod.rs) *)

Module DelegatorMap.

Abbreviation t := (gmap PoolHash (gmap StakeCredential Z)) (only parsing).

Definition insert (m : t) (pool : PoolHash) (account : StakeCredential) (stake : Z) : t :=
  <[pool := <[account := stake]> (default ∅ (m !! pool))]> m.

Definition get_stake (m : t) (pool : PoolHash) (account : StakeCredential) : Z :=
  match m !! pool with
  | None => 0
  | Some for_pool => default 0 (for_pool !! account)
  end.

Definition iter_delegators (m : t) (pool : PoolHash) : list (StakeCredential * Z) :=
  map_to_list (default ∅ (m !! pool)).

Definition count_delegators (m : t) (pool : PoolHash) : Z :=
  match m !! pool with Some x => Z.of_nat (size x) | None => 0 end.

Definition iter_all (m : t) : list (PoolHash * StakeCredential * Z) :=
  map_to_list m ≫= fun x => (fun y => (fst x, fst y, snd y)) <$> map_to_list (snd x).

End DelegatorMap.

(** ** The stake snapshot *)

Module StakeSnapshot.

Record t := mk {
  active_stake_sum : Z;
  accounts_by_pool : DelegatorMap.t;
  registered_accounts : gset StakeCredential;
  pools : gmap PoolHash (EpochValue.t PoolSnapshot.t);
  pool_stake : gmap PoolHash Z;
  pool_delegator_counts : gmap PoolHash Z;
  pool_live_pledges : gmap PoolHash Z;
  performance_epoch_pool_blocks : Z;
}.

#[global] Instance eta_t : Eta t := fun r =>
  mk (active_stake_sum r) (accounts_by_pool r) (registered_accounts r) (pools r) (pool_stake r)
     (pool_delegator_counts r) (pool_live_pledges r) (performance_epoch_pool_blocks r).

Definition default_ : t := mk 0 ∅ ∅ ∅ ∅ ∅ ∅ 0.

Definition iter_accounts (x : t) : list (PoolHash * StakeCredential * Z) := DelegatorMap.iter_all (accounts_by_pool x).
Definition get_pool_delegator_count (x : t) (pool : PoolHash) : Z := default 0 (pool_delegator_counts x !! pool).
Definition get_pool_stake (x : t) (pool : PoolHash) : Z := default 0 (pool_stake x !! pool).

End StakeSnapshot.

(** [f64::to_bits], the form in which a log keeps a double. *)
Definition f64_to_bits (x : spec_float) : Z :=
  match x with
  | S754_zero s => if s then 2 ^ 63 else 0
  | S754_infinity s => (if s then 2 ^ 63 else 0) + 0x7ff * 2 ^ 52
  | S754_nan => 0x7ff8 * 2 ^ 48
  | S754_finite s m e =>
      (if s then 2 ^ 63 else 0) +
      (if Z.pos m <? 2 ^ 52 then Z.pos m else (e + 1075) * 2 ^ 52 + (Z.pos m - 2 ^ 52))
  end.

(** ** Incentives (rupd/loading.rs) *)

Section incentives.
Context `{BuildCfg, Pallas, ApproximateFloat}.

Definition define_eta (g : Genesis) (epoch : EpochState.t) (pool_blocks : option Z) : run (result ChainError Ratio) :=
  let mark := EpochValue.mark (EpochState.pparams epoch) in
  byron ← (match mark with Some x => PParamsSet.is_byron x | None => Ret true end);
  if byron : bool then Ret (Ok (ratio_int 1))
  else
    match pool_blocks with
    | None => Ret (Ok (ratio_int 1))
    | Some pool_blocks =>
        match active_slots_coeff (shelley g) with
        | None => Ret (Err (GenesisFieldMissing "active_slots_coeff"))
        | Some f_param =>
            mark ← expect mark;
            d_param ←? ensured (PParamsSet.ensure_d mark);
            epoch_length ←? ensured (PParamsSet.ensure_epoch_length mark);
            d ← pallas_ratio d_param;
            lift (calculate_eta pool_blocks d (approximate_float f_param) epoch_length)
        end
    end.

Definition neutral_incentives : EpochIncentives.t :=
  {| EpochIncentives.total := 0; EpochIncentives.treasury_tax := 0; EpochIncentives.available_rewards := 0;
     EpochIncentives.used_fees := 0 |}.

Definition define_epoch_incentives (g : Genesis) (state : EpochState.t) (reserves : Z) (pool_blocks : option Z) :
    run (result ChainError EpochIncentives.t) :=
  pparams ← EpochValue.unwrap_live (EpochState.pparams state);
  byron ← PParamsSet.is_byron pparams;
  if byron : bool then Ret (Ok neutral_incentives)
  else
    rho_param ←? ensured (PParamsSet.ensure_rho pparams);
    tau_param ←? ensured (PParamsSet.ensure_tau pparams);
    mark_is_byron ← (match EpochValue.mark (EpochState.pparams state) with
                     | Some x => PParamsSet.is_byron x
                     | None => Ret false
                     end);
    let fee_ss := match EpochValue.mark (EpochState.rolling state) with
                  | Some rolling => if mark_is_byron : bool then 0 else RollingStats.gathered_fees rolling
                  | None => 0
                  end in
    eta ←? define_eta g state pool_blocks;
    rho ← pallas_ratio rho_param;
    tau ← pallas_ratio tau_param;
    lift (epoch_incentives reserves fee_ss rho tau eta).

End incentives.

(** ** Loading the snapshot (rupd/loading.rs) *)

Definition ensure_pool_aligned (operator : PoolHash) (snapshot : EpochValue.t PoolSnapshot.t) (current_epoch : Epoch) :
    result ChainError unit :=
  if EpochValue.is_at_epoch snapshot current_epoch then Ok tt
  else Err (PoolSnapshotLagging (hex_encode operator) (EpochValue.epoch snapshot) current_epoch).

Section snapshot.
Context `{BuildCfg}.
Import StakeSnapshot.

Definition track_stake (x : t) (account : StakeCredential) (pool_id : PoolHash) (stake : Z) (in_shard : bool) : run t :=
  total ← (match pool_stake x !! pool_id with Some y => uadd 64 y stake | None => Ret stake end);
  count ← (match pool_delegator_counts x !! pool_id with Some y => uadd 64 y 1 | None => Ret 1 end);
  active ← uadd 64 (active_stake_sum x) stake;
  let x := x <| pool_stake := <[pool_id := total]> (pool_stake x) |>
             <| pool_delegator_counts := <[pool_id := count]> (pool_delegator_counts x) |>
             <| active_stake_sum := active |> in
  Ret (if in_shard then x <| accounts_by_pool := DelegatorMap.insert (accounts_by_pool x) pool_id account stake |> else x).

(** One pool of the globals pass. *)
Definition load_pool (current_epoch stake_epoch : Epoch) (x : t) (pool : PoolState.t) : run (result ChainError t) :=
  _ ←? Ret (ensure_pool_aligned (PoolState.operator pool) (PoolState.snapshot pool) current_epoch);
  blocks ← (match EpochValue.mark (PoolState.snapshot pool) with
            | Some mark => uadd 64 (performance_epoch_pool_blocks x) (PoolSnapshot.blocks_minted mark)
            | None => Ret (performance_epoch_pool_blocks x)
            end);
  let x := x <| performance_epoch_pool_blocks := blocks |> in
  Ret (Ok (match EpochValue.snapshot_at (PoolState.snapshot pool) stake_epoch with
           | Some _ => x <| pools := <[PoolState.operator pool := PoolState.snapshot pool]> (pools x) |>
           | None => x
           end)).

(** The owners of the pools, by the parameters of their go snapshot. *)
Definition owner_index (pools : gmap PoolHash (EpochValue.t PoolSnapshot.t)) : gmap StakeCredential (list PoolHash) :=
  foldl (fun m x =>
    match EpochValue.go (snd x) with
    | None => m
    | Some go =>
        foldl (fun m owner =>
          let cred := keyhash_to_stake_cred owner in
          <[cred := default [] (m !! cred) ++ [fst x]]> m) m (PoolParams.pool_owners (PoolSnapshot.params go))
    end) ∅ (map_to_list pools).

(** The pool an account's stake counts for, and that stake. *)
Definition delegation_at (pools : gmap PoolHash (EpochValue.t PoolSnapshot.t)) (stake_epoch : Epoch)
    (protocol : EraProtocol) (account : AccountState.t) : run (option (PoolHash * Z)) :=
  match AccountState.delegated_pool_at account stake_epoch with
  | None => Ret None
  | Some pool =>
      match pools !! pool with
      | None => Ret None
      | Some pool_state =>
          match EpochValue.snapshot_at pool_state stake_epoch with
          | None => Ret None
          | Some stake_snapshot =>
              if PoolSnapshot.is_retired stake_snapshot then Ret None
              else
                stake ← (match EpochValue.snapshot_at (AccountState.stake account) stake_epoch with
                         | Some x => Stake.total_for_era x protocol
                         | None => Ret 0
                         end);
                Ret (Some (pool, stake))
          end
      end
  end.

(** One account of the globals pass. *)
Definition load_account (owners : gmap StakeCredential (list PoolHash)) (stake_epoch : Epoch) (protocol : EraProtocol)
    (x : t) (account : AccountState.t) : run t :=
  delegation ← delegation_at (pools x) stake_epoch protocol account;
  match delegation with
  | None => Ret x
  | Some (pool, stake) =>
      x ← track_stake x (AccountState.credential account) pool stake false;
      if bool_decide (pool ∈ default [] (owners !! AccountState.credential account)) then
        pledge ← uadd 64 (default 0 (pool_live_pledges x !! pool)) stake;
        Ret (x <| pool_live_pledges := <[pool := pledge]> (pool_live_pledges x) |>)
      else Ret x
  end.

(** One account of a shard. *)
Definition merge_account (stake_epoch : Epoch) (protocol : EraProtocol) (x : t) (account : AccountState.t) : run t :=
  let x := if AccountState.is_registered account
           then x <| registered_accounts := {[AccountState.credential account]} ∪ registered_accounts x |> else x in
  delegation ← delegation_at (pools x) stake_epoch protocol account;
  Ret (match delegation with
       | None => x
       | Some (pool, stake) =>
           x <| accounts_by_pool := DelegatorMap.insert (accounts_by_pool x) pool (AccountState.credential account) stake |>
       end).

End snapshot.

Section loading.
Context {V S W : Type} `{!EntityCbor V, !StateStore V S W, BuildCfg, Pallas, ApproximateFloat}.

(** [StakeSnapshot::load_globals]. *)
Definition snapshot_globals (s : S) (current_epoch stake_epoch : Epoch) (protocol : EraProtocol) :
    run (result ChainError StakeSnapshot.t) :=
  x ←? for_records (fun x r => load_pool current_epoch stake_epoch x (snd r)) StakeSnapshot.default_
         (iter_entities_typed PoolState.t s None);
  let owners := owner_index (StakeSnapshot.pools x) in
  for_records (fun x r => lift (load_account owners stake_epoch protocol x (snd r))) x
    (iter_entities_typed AccountState.t s None).

(** [StakeSnapshot::merge_shard]. *)
Definition snapshot_shard (x : StakeSnapshot.t) (s : S) (stake_epoch : Epoch) (protocol : EraProtocol)
    (ranges : list (EntityKey * EntityKey)) : run (result ChainError StakeSnapshot.t) :=
  for_each (fun x range =>
    for_records (fun x r => lift (merge_account stake_epoch protocol x (snd r))) x
      (iter_entities_typed AccountState.t s (Some range))) x ranges.

End loading.

(** ** The work of a reward update *)

Module RupdWork.

Record t := mk {
  current_epoch : Epoch;
  snapshot : StakeSnapshot.t;
  pots : Pots.t;
  incentives : EpochIncentives.t;
  blocks_made_total : Z;
  max_supply : Z;
  chain : ChainSummary.t;
  pparams : option PParamsSet.t;
  shard_ranges : option (list (EntityKey * EntityKey));
}.

#[global] Instance eta_t : Eta t := fun r =>
  mk (current_epoch r) (snapshot r) (pots r) (incentives r) (blocks_made_total r) (max_supply r) (chain r)
     (pparams r) (shard_ranges r).

(** The snapshot epoch and the performance epoch. *)
Definition relevant_epochs `{BuildCfg} (w : t) : run (option (Epoch * Epoch)) :=
  if current_epoch w <? 4 then Ret None
  else
    let snapshot_epoch := current_epoch w - 3 in
    let performance_epoch := current_epoch w - 1 in
    first_shelley ← ChainSummary.first_shelley_epoch (chain w);
    Ret (if snapshot_epoch <=? first_shelley then None else Some (snapshot_epoch, performance_epoch)).

Section loading.
Context {V S W : Type} `{!EntityCbor V, !StateStore V S W, BuildCfg, Pallas, ApproximateFloat}.

Definition snapshot_protocol (w : t) (snapshot_epoch : Epoch) : run EraProtocol :=
  epoch ← uadd 64 snapshot_epoch 1;
  era ← ChainSummary.era_for_epoch (chain w) epoch;
  Ret (EraSummary.protocol era).

Definition load_globals (s : S) (g : Genesis) : run (result ChainError t) :=
  epoch ←? load_epoch s;
  match max_lovelace_supply (shelley g) with
  | None => Ret (Err (GenesisFieldMissing "max_lovelace_supply"))
  | Some max_supply =>
      let pots := EpochState.initial_pots epoch in
      let blocks_made_total := match EpochValue.mark (EpochState.rolling epoch) with
                               | Some x => RollingStats.non_overlay_blocks_minted x
                               | None => 0
                               end in
      let blocks_made_opt := if 0 <? blocks_made_total then Some blocks_made_total else None in
      incentives ←? define_epoch_incentives g epoch (Pots.reserves pots) blocks_made_opt;
      chain ←? load_eras s;
      let work := mk (EpochState.number epoch) StakeSnapshot.default_ pots incentives blocks_made_total max_supply chain
                    (EpochValue.mark (EpochState.pparams epoch)) None in
      epochs ← relevant_epochs work;
      match epochs with
      | None => Ret (Ok work)
      | Some (snapshot_epoch, _) =>
          protocol ← snapshot_protocol work snapshot_epoch;
          x ←? snapshot_globals s (EpochState.number epoch) snapshot_epoch protocol;
          Ret (Ok (work <| snapshot := x |>))
      end
  end.

Definition merge_shard (w : t) (s : S) (ranges : list (EntityKey * EntityKey)) : run (result ChainError t) :=
  epochs ← relevant_epochs w;
  w ←? match epochs with
       | None => Ret (Ok w)
       | Some (snapshot_epoch, _) =>
           protocol ← snapshot_protocol w snapshot_epoch;
           x ←? snapshot_shard (snapshot w) s snapshot_epoch protocol ranges;
           Ret (Ok (w <| snapshot := x |>))
       end;
  Ret (Ok (w <| shard_ranges := Some ranges |>)).

(** [RupdWork::load]: every account at once. *)
Definition load (s : S) (g : Genesis) : run (result ChainError t) :=
  w ←? load_globals s g;
  epochs ← relevant_epochs w;
  match epochs with
  | None => Ret (Ok w)
  | Some _ => merge_shard w s [full_range]
  end.

End loading.

(** [impl RewardsContext for RupdWork]. *)
Section context.
Context `{BuildCfg, Pallas}.

Definition pool_snapshot (w : t) (pool : PoolHash) : run (EpochValue.t PoolSnapshot.t) :=
  expect (StakeSnapshot.pools (snapshot w) !! pool).

Definition pool_params (w : t) (pool : PoolHash) : run PoolParams.t :=
  x ← pool_snapshot w pool;
  go ← expect (EpochValue.go x);
  Ret (PoolSnapshot.params go).

Definition pool_blocks (w : t) (pool : PoolHash) : run Z :=
  x ← pool_snapshot w pool;
  mark ← expect (EpochValue.mark x);
  Ret (PoolSnapshot.blocks_minted mark).

Definition pre_allegra (w : t) : run bool :=
  p ← expect (pparams w);
  major ← PParamsSet.protocol_major p;
  Ret (default 0 major <? 3).

Definition should_include (w : t) (account : StakeCredential) : bool :=
  match shard_ranges w with
  | None => true
  | Some ranges => existsb (fun r => key_in_range r (credential_to_key account)) ranges
  end.

Definition context (w : t) : RewardsContext.t := {|
  RewardsContext.incentives := incentives w;
  RewardsContext.pots := pots w;
  RewardsContext.pre_allegra := pre_allegra w;
  RewardsContext.active_stake := StakeSnapshot.active_stake_sum (snapshot w);
  RewardsContext.epoch_blocks := blocks_made_total w;
  RewardsContext.pool_blocks := pool_blocks w;
  RewardsContext.pool_stake pool := default 0 (StakeSnapshot.pool_stake (snapshot w) !! pool);
  RewardsContext.account_stake := DelegatorMap.get_stake (StakeSnapshot.accounts_by_pool (snapshot w));
  RewardsContext.is_account_registered account :=
    bool_decide (account ∈ StakeSnapshot.registered_accounts (snapshot w));
  RewardsContext.iter_all_pools := (map_to_list (StakeSnapshot.pools (snapshot w))).*1;
  RewardsContext.pool_params := pool_params w;
  RewardsContext.pool_delegators pool :=
    (DelegatorMap.iter_delegators (StakeSnapshot.accounts_by_pool (snapshot w)) pool).*1;
  RewardsContext.pparams := expect (pparams w);
  RewardsContext.live_pledge pool _ := Ret (default 0 (StakeSnapshot.pool_live_pledges (snapshot w) !! pool));
  RewardsContext.should_include := should_include w;
|}.

End context.
End RupdWork.

(** ** The work unit (rupd/work_unit.rs) *)

(** Rows of the archive log, by namespace and key. *)
Abbreviation LogArchive := (gmap (string * list Z) CardanoEntity.t) (only parsing).

(** The fields [work] and [rewards] are set before they are read: the unit
    after [initialize], and the rewards of a shard after [compute]. *)
Record RupdWorkUnit := mkRupd {
  ru_slot : BlockSlot;
  ru_genesis : Genesis;
  ru_total_shards : Z;
  ru_start_shard : Z;
  ru_work : RupdWork.t;
}.

Definition pending_of (credential : StakeCredential) (reward : Reward.t) : PendingRewardState.t :=
  let '(as_leader, as_delegator) :=
    match reward with
    | Reward.MultiPool r => (map_to_list (MultiPoolReward.as_leader r), map_to_list (MultiPoolReward.as_delegator r))
    | Reward.PreAllegra r =>
        let x := (PreAllegraReward.pool r, PreAllegraReward.value r) in
        if PreAllegraReward.as_leader r then ([x], []) else ([], [x])
    end in
  PendingRewardState.mk credential (Reward.is_spendable reward) as_leader as_delegator.

Definition sum_reward (leader : bool) (m : gmap PoolHash (Z * Z)) (x : PoolHash * Z) : gmap PoolHash (Z * Z) :=
  let '(total_rewards, operator_share) := default (0, 0) (m !! fst x) in
  <[fst x := (saturating_add 64 total_rewards (snd x),
              if leader then saturating_add 64 operator_share (snd x) else operator_share)]> m.

Section unit.
Context {V S W : Type} `{!EntityCbor V, !StateStore V S W, BuildCfg, Pallas, ApproximateFloat, Addresses}.

Definition aggregate_pending_pool_rewards (s : S) : run (result ChainError (gmap PoolHash (Z * Z))) :=
  for_records (fun m r =>
    let m := foldl (sum_reward false) m (PendingRewardState.as_delegator (snd r)) in
    Ret (Ok (foldl (sum_reward true) m (PendingRewardState.as_leader (snd r)))))
    ∅ (iter_entities_typed PendingRewardState.t s None).

Definition initialize (slot : BlockSlot) (g : Genesis) (s : S) : run (result ChainError RupdWorkUnit) :=
  epoch ←? load_epoch s;
  let progress := EpochState.rupd_progress epoch in
  let total := match progress with Some p => ShardProgress.total p | None => ACCOUNT_SHARDS end in
  let start := match progress with Some p => ShardProgress.committed p | None => 0 end in
  work ←? RupdWork.load_globals s g;
  Ret (Ok (mkRupd slot g total start work)).

Definition reset_for_next_shard (w : RupdWork.t) : RupdWork.t :=
  w <| RupdWork.snapshot := (RupdWork.snapshot w) <| StakeSnapshot.accounts_by_pool := ∅ |>
                                                  <| StakeSnapshot.registered_accounts := ∅ |> |>
    <| RupdWork.shard_ranges := None |>.

(** [load]: what the shards before have left in the unit is dropped. *)
Definition load (u : RupdWorkUnit) (s : S) (shard_index : Z) : run (result ChainError RupdWorkUnit) :=
  ranges ← shard_key_ranges shard_index (ru_total_shards u);
  work ←? RupdWork.merge_shard (reset_for_next_shard (ru_work u)) s ranges;
  Ret (Ok (mkRupd (ru_slot u) (ru_genesis u) (ru_total_shards u) (ru_start_shard u) work)).

Definition compute (work : RupdWork.t) : run (result ChainError RewardMap.t) :=
  epochs ← RupdWork.relevant_epochs work;
  match epochs with
  | Some _ => define_rewards (RupdWork.context work)
  | None => Ret (Ok (RewardMap.from_pending ∅ (RupdWork.incentives work)))
  end.

Definition write_pending (w : W) (rewards : RewardMap.t) : W :=
  foldl (fun w x => write_entity w (NS PendingRewardState.t) (credential_to_key (fst x)) (to_vec (pending_of (fst x) (snd x))))
    w (RewardMap.iter_pending rewards).

Definition commit_shard (u : RupdWorkUnit) (rewards : RewardMap.t) (s : S) (shard_index : Z) : run (result ChainError S) :=
  let w := write_pending (start_writer s) rewards in
  epoch ←? read_typed EpochState.t s (snd EpochState.ns_key);
  x ← RupdProgress.apply (RupdProgress.new shard_index (ru_total_shards u)) epoch;
  let w := match snd x with
           | Some epoch => write_entity w (NS EpochState.t) (snd EpochState.ns_key) (to_vec epoch)
           | None => w
           end in
  Ret (Ok (commit w s)).

Definition stake_log (x : StakeSnapshot.t) (pool_rewards : gmap PoolHash (Z * Z)) (pool_hash : PoolHash)
    (pool_state : EpochValue.t PoolSnapshot.t) : StakeLog.t :=
  let pool_stake := StakeSnapshot.get_pool_stake x pool_hash in
  let relative_size :=
    if 0 <? StakeSnapshot.active_stake_sum x
    then SFdiv 53 1024 (f64_of_Z pool_stake) (f64_of_Z (StakeSnapshot.active_stake_sum x))
    else S754_zero false in
  let params := PoolSnapshot.params <$> EpochValue.go pool_state in
  let '(total_rewards, operator_share) := default (0, 0) (pool_rewards !! pool_hash) in
  {| StakeLog.blocks_minted := match EpochValue.mark pool_state with Some m => PoolSnapshot.blocks_minted m | None => 0 end;
     StakeLog.total_stake := pool_stake;
     StakeLog.relative_size := f64_to_bits relative_size;
     StakeLog.delegators_count := StakeSnapshot.get_pool_delegator_count x pool_hash;
     StakeLog.live_pledge := 0;
     StakeLog.declared_pledge := match params with Some p => PoolParams.pledge p | None => 0 end;
     StakeLog.total_rewards := total_rewards;
     StakeLog.operator_share := operator_share;
     StakeLog.fixed_cost := match params with Some p => PoolParams.cost p | None => 0 end;
     StakeLog.margin_cost := PoolParams.margin <$> params |}.

Definition write_stake_logs (u : RupdWorkUnit) (s : S) (archive : LogArchive) : run (result ChainError LogArchive) :=
  let work := ru_work u in
  epochs ← RupdWork.relevant_epochs work;
  match epochs with
  | None => Ret (Ok archive)
  | Some (_, epoch) =>
      start_of_epoch ← ChainSummary.epoch_start (RupdWork.chain work) epoch;
      pool_rewards ←? aggregate_pending_pool_rewards s;
      Ret (Ok (foldl (fun m x =>
        <[(NS StakeLog.t, log_key start_of_epoch (entity_key_from (fst x))) :=
            CardanoEntity.EStakeLog (stake_log (RupdWork.snapshot work) pool_rewards (fst x) (snd x))]> m)
        archive (map_to_list (StakeSnapshot.pools (RupdWork.snapshot work)))))
  end.

(** The shard in the executor: load, compute, commit the state.  The unit
    keeps what the last shard loaded. *)
Definition run_shard (x : RupdWorkUnit * S) (shard_index : Z) : run (result ChainError (RupdWorkUnit * S)) :=
  let '(u, s) := x in
  u ←? load u s shard_index;
  rewards ←? compute (ru_work u);
  s ←? commit_shard u rewards s shard_index;
  Ret (Ok (u, s)).

Definition finalize_epoch (u : RupdWorkUnit) (s : S) : run (result ChainError S) :=
  let w := start_writer s in
  epoch ←? read_typed EpochState.t s (snd EpochState.ns_key);
  let w := match epoch with
           | Some e => write_entity w (NS EpochState.t) (snd EpochState.ns_key)
                         (to_vec (e <| EpochState.incentives := Some (RupdWork.incentives (ru_work u)) |>
                                    <| EpochState.rupd_progress := None |>))
           | None => w
           end in
  Ret (Ok (commit w s)).

Definition finalize (u : RupdWorkUnit) (s : S) (archive : LogArchive) : run (result ChainError (S * LogArchive)) :=
  s ←? finalize_epoch u s;
  archive ←? write_stake_logs u s archive;
  Ret (Ok (s, archive)).

Definition run_rupd (slot : BlockSlot) (g : Genesis) (s : S) (archive : LogArchive) :
    run (result ChainError (S * LogArchive)) :=
  u ←? initialize slot g s;
  _ ← debug_assert (ru_start_shard u <=? ru_total_shards u);
  x ←? for_each run_shard (u, s) (seqZ (ru_start_shard u) (ru_total_shards u - ru_start_shard u));
  finalize (fst x) (snd x) archive.

End unit.
