(* ===== verification/RewardUpdate.v ===== *)
(** * What the reward update guarantees

    The update computes the rewards one shard of the accounts at a time.  Its
    shards together store the rewards that the unsharded computation gives,
    and an update that was interrupted anywhere is completed by running it
    again. *)

From S2P Require Import Prelude Lists Types ChainPoint EpochValue EntityDelta Eras PParams Forks Ratio Pots.
From S2P Require Import Accounts Pools Pending Epochs Hacks StateStore Shards.
From S2P Require Import Blocks PallasExtras GenesisFiles RewardMap CardanoModel Codec Ewrap Commits EwrapDemo Rupd.
Open Scope Z_scope.

Lemma ret_ok_inj {E A} (a b : A) : Ret (Ok (E := E) a) = Ret (Ok b) -> a = b.
Proof. by intros [= ->]. Qed.

Section keys.
Context `{Pallas} (layout : cbor_layout).

Lemma credential_to_key_inj a b :
  cred_ok a -> cred_ok b -> credential_to_key a = credential_to_key b -> a = b.
Proof.
  intros [La _] [Lb _]. unfold credential_to_key. rewrite !layout, !entity_key_from_exact by (rewrite length_app, ?La, ?Lb; done).
  destruct a as [x|x], b as [y|y]; cbn in *; intros E; by simplify_eq.
Qed.

(** Every credential is in the range of an unsharded pass. *)
Lemma credential_in_full_range c : key_in_range full_range (credential_to_key c) = true.
Proof. unfold credential_to_key. rewrite layout. unfold entity_key_from. cbn. done. Qed.

End keys.

(** ** The accounts of a shard *)

Section update.
Context {V S W : Type} `{!EntityCbor V, !StateStore V S W, BuildCfg, Pallas, ApproximateFloat, Addresses}.
Context (layout : cbor_layout).
Implicit Types (s : S) (x : StakeSnapshot.t).

(** The account rows of a store, each under the key of its credential. *)
Definition accounts_keyed (s : S) : Prop :=
  forall k v a, entities (tables s) !! (NS AccountState.t, k) = Some v -> decode (T := AccountState.t) v = Some a ->
    cred_ok (AccountState.credential a) /\ k = credential_to_key (AccountState.credential a).

Definition in_ranges (ranges : list (EntityKey * EntityKey)) (c : StakeCredential) : bool :=
  existsb (fun r => key_in_range r (credential_to_key c)) ranges.

(** The accounts a pass over some ranges visits. *)
Definition visited (s : S) (ranges : list (EntityKey * EntityKey)) (a : AccountState.t) : Prop :=
  exists k v, entities (tables s) !! (NS AccountState.t, k) = Some v /\ decode (T := AccountState.t) v = Some a /\
    Exists (fun r => key_in_range r k = true) ranges.

Lemma visited_in_ranges s ranges a :
  accounts_keyed s -> visited s ranges a <-> visited s [full_range] a /\ in_ranges ranges (AccountState.credential a) = true.
Proof.
  intros Hk. unfold visited, in_ranges. rewrite existsb_exists. setoid_rewrite Exists_exists. split.
  - intros (k & v & Hv & Hd & r & Hr & Hin). destruct (Hk k v a Hv Hd) as [_ ->]. split.
    + exists (credential_to_key (AccountState.credential a)), v. split; [done|]. split; [done|].
      exists full_range. split; [left|by apply credential_in_full_range].
    + exists r. split; [by apply list_elem_of_In|done].
  - intros [(k & v & Hv & Hd & _) (r & Hr & Hin)]. exists k, v. split; [done|]. split; [done|].
    destruct (Hk k v a Hv Hd) as [_ ->]. exists r. split; [by apply list_elem_of_In|done].
Qed.

Lemma visited_unique s ranges a b :
  accounts_keyed s -> visited s ranges a -> visited s ranges b -> AccountState.credential a = AccountState.credential b -> a = b.
Proof.
  intros Hk (k & v & Hv & Hd & _) (k' & v' & Hv' & Hd' & _) Hc. destruct (Hk _ _ _ Hv Hd) as [_ ->], (Hk _ _ _ Hv' Hd') as [_ ->].
  congruence.
Qed.

(** *** Merging accounts *)

Definition globals_of (x : StakeSnapshot.t) : StakeSnapshot.t :=
  x <| StakeSnapshot.accounts_by_pool := ∅ |> <| StakeSnapshot.registered_accounts := ∅ |>.

Definition stake_of (x : StakeSnapshot.t) (p : PoolHash) (c : StakeCredential) : option Z :=
  StakeSnapshot.accounts_by_pool x !! p ≫= fun m => m !! c.

Lemma stake_of_insert x p c st p' c' :
  stake_of (x <| StakeSnapshot.accounts_by_pool := DelegatorMap.insert (StakeSnapshot.accounts_by_pool x) p c st |>) p' c' =
  if decide ((p, c) = (p', c')) then Some st else stake_of x p' c'.
Proof.
  unfold stake_of, DelegatorMap.insert. cbn. destruct (decide (p = p')) as [->|Hp].
  - rewrite lookup_insert_eq. cbn. destruct (decide (c = c')) as [->|Hc].
    + by rewrite lookup_insert_eq, decide_True.
    + rewrite lookup_insert_ne, decide_False by congruence. by destruct (StakeSnapshot.accounts_by_pool x !! p').
  - rewrite lookup_insert_ne, decide_False by congruence. done.
Qed.

Section merging.
Context (stake_epoch : Epoch) (protocol : EraProtocol).

(** What the merged accounts leave in a snapshot that held none. *)
Record merged (l : list AccountState.t) (x x' : StakeSnapshot.t) : Prop := {
  mg_globals : globals_of x' = globals_of x;
  mg_registered : forall c, c ∈ StakeSnapshot.registered_accounts x' <->
    exists a, a ∈ l /\ AccountState.credential a = c /\ AccountState.is_registered a = true;
  mg_stake : forall p c st, stake_of x' p c = Some st <->
    exists a, a ∈ l /\ AccountState.credential a = c /\
      delegation_at (StakeSnapshot.pools x) stake_epoch protocol a = Ret (Some (p, st));
}.

Lemma merge_account_spec x a x' :
  merge_account stake_epoch protocol x a = Ret x' <->
  exists d, delegation_at (StakeSnapshot.pools x) stake_epoch protocol a = Ret d /\
    let x1 := if AccountState.is_registered a
              then x <| StakeSnapshot.registered_accounts := {[AccountState.credential a]} ∪ StakeSnapshot.registered_accounts x |> else x in
    x' = match d with
         | None => x1
         | Some (p, st) => x1 <| StakeSnapshot.accounts_by_pool :=
             DelegatorMap.insert (StakeSnapshot.accounts_by_pool x1) p (AccountState.credential a) st |>
         end.
Proof.
  unfold merge_account. cbv zeta.
  assert (StakeSnapshot.pools (if AccountState.is_registered a
    then x <| StakeSnapshot.registered_accounts := {[AccountState.credential a]} ∪ StakeSnapshot.registered_accounts x |> else x) =
    StakeSnapshot.pools x) as -> by (by destruct (AccountState.is_registered a)).
  split.
  - intros (d & Hd & E)%bind_Ret. apply Ret_inj in E as <-. by exists d.
  - intros (d & -> & ->). done.
Qed.

Lemma merge_list l x x' :
  globals_of x = x -> (forall a b, a ∈ l -> b ∈ l -> AccountState.credential a = AccountState.credential b -> a = b) ->
  run_foldl (merge_account stake_epoch protocol) x l = Ret x' -> merged l x x'.
Proof.
  intros Hx. revert x'. induction l as [|a l IH] using rev_ind; intros x' Hu E.
  - cbn in E. apply Ret_inj in E as <-. split; [done| |].
    + intros c. rewrite <- Hx. cbn. rewrite elem_of_empty. split; [done|]. intros (a & Ha & _). by apply not_elem_of_nil in Ha.
    + intros p c st. rewrite <- Hx. unfold stake_of. cbn. rewrite lookup_empty. split; [done|].
      intros (a & Ha & _). by apply not_elem_of_nil in Ha.
  - rewrite run_foldl_app in E. apply bind_Ret in E as (x1 & E1 & E). cbn in E. apply bind_Ret in E as (x2 & E2 & E).
    apply Ret_inj in E as <-. destruct (IH x1 ltac:(intros; apply Hu; set_solver) E1) as [Hg Hr Hst].
    apply merge_account_spec in E2 as (d & Hd & ->). cbv zeta.
    assert (Hp : StakeSnapshot.pools x1 = StakeSnapshot.pools x) by (exact (f_equal StakeSnapshot.pools Hg)). rewrite Hp in Hd.
    split.
    + destruct (AccountState.is_registered a), d as [[p st]|]; exact Hg.
    + intros c. setoid_rewrite elem_of_app. setoid_rewrite list_elem_of_singleton.
      transitivity (c ∈ StakeSnapshot.registered_accounts x1 \/ (AccountState.credential a = c /\ AccountState.is_registered a = true)).
      { destruct (AccountState.is_registered a), d as [[p st]|]; cbn; rewrite ?elem_of_union, ?elem_of_singleton; naive_solver. }
      rewrite Hr. naive_solver.
    + intros p c st. setoid_rewrite elem_of_app. setoid_rewrite list_elem_of_singleton.
      assert (Hs1 : forall y, stake_of (if AccountState.is_registered a then x1 <| StakeSnapshot.registered_accounts := y |> else x1) p c =
        stake_of x1 p c) by (intros; by destruct (AccountState.is_registered a)).
      destruct d as [[p1 st1]|].
      * rewrite stake_of_insert, Hs1. case_decide as Hpc.
        { injection Hpc as -> Hc. split; [intros [= ->]; exists a; split; [by right|done]|].
          intros (b & Hb & Hbc & Hbd). assert (b = a) as -> by (apply Hu; [set_solver..|congruence]). congruence. }
        rewrite Hst. split; [intros (b & ? & ? & ?); exists b; split; [by left|done]|].
        intros (b & [Hb|<-] & Hbc & Hbd); [eauto|]. exfalso. apply Hpc. congruence.
      * rewrite Hs1, Hst. split; [intros (b & ? & ? & ?); exists b; split; [by left|done]|].
        intros (b & [Hb|<-] & Hbc & Hbd); [eauto|congruence].
Qed.

(** *** Loading accounts *)

Lemma for_each_lift {A T} (f : A -> T -> run A) a l : for_each (fun a t => lift (f a t)) a l = lift (run_foldl f a l).
Proof.
  revert a. induction l as [|t l IH]; intros a; cbn; [done|]. unfold lift at 1. destruct (f a t) as [y|]; cbn; [apply IH|done].
Qed.

Lemma for_each_values {A T K} (f : A -> T -> run A) a (l : list (K * T)) a' :
  for_each (fun a r => lift (f a (snd r))) a l = Ret (Ok a') <-> run_foldl f a l.*2 = Ret a'.
Proof.
  rewrite run_foldl_fmap, (for_each_lift (fun a r => f a (snd r))). unfold lift. destruct (run_foldl _ a l); cbn; [|done].
  split; intros E; apply Ret_inj in E; congruence.
Qed.

Lemma snapshot_shard_list s ranges x x' :
  snapshot_shard x s stake_epoch protocol ranges = Ret (Ok x') ->
  exists l, run_foldl (merge_account stake_epoch protocol) x l = Ret x' /\ forall a, a ∈ l <-> visited s ranges a.
Proof.
  unfold snapshot_shard, visited. revert x. induction ranges as [|r ranges IH]; intros x E; cbn [for_each] in E.
  - apply Ret_inj in E. injection E as <-. exists []. split; [done|]. intros a. rewrite elem_of_nil. split; [done|].
    intros (k & v & _ & _ & He). by apply Exists_nil in He.
  - apply rbind_Ret in E as (x1 & E1 & E). apply decoded_rows in E1 as (l1 & E1 & _ & Hl1). apply for_each_values in E1.
    destruct (IH x1 E) as (l2 & E2 & Hl2). exists (l1.*2 ++ l2). split; [by rewrite run_foldl_app, E1|]. intros a.
    rewrite elem_of_app, Hl2. setoid_rewrite Exists_cons. split.
    + intros [Ha|(k & v & ? & ? & ?)]; [|exists k, v; eauto]. apply list_elem_of_fmap in Ha as ([k b] & -> & Hb).
      apply Hl1 in Hb as (v & Hv & Hd). apply iter_entities_spec in Hv as [Hv Hr]. exists k, v. eauto.
    + intros (k & v & Hv & Hd & [Hr|Hr]); [left|right; eauto]. apply list_elem_of_fmap. exists (k, a). split; [done|].
      apply Hl1. exists v. split; [|done]. by apply iter_entities_spec.
Qed.

(** The rows a pass needs: each decodes, and its stake can be computed. *)
Definition loadable (pools : gmap PoolHash (EpochValue.t PoolSnapshot.t)) (v : V) : Prop :=
  exists a d, decode (T := AccountState.t) v = Some a /\ delegation_at pools stake_epoch protocol a = Ret d.

Lemma merge_pools x l x' :
  run_foldl (merge_account stake_epoch protocol) x l = Ret x' -> StakeSnapshot.pools x' = StakeSnapshot.pools x /\
  forall a, a ∈ l -> exists d, delegation_at (StakeSnapshot.pools x) stake_epoch protocol a = Ret d.
Proof.
  revert x. induction l as [|a l IH]; intros x E; cbn in E.
  - apply Ret_inj in E as <-. split; [done|]. intros a Ha. by apply not_elem_of_nil in Ha.
  - apply bind_Ret in E as (x1 & E1 & E). apply merge_account_spec in E1 as (d & Hd & ->). destruct (IH _ E) as [Hp Hl].
    assert (Hp1 : StakeSnapshot.pools (match d with
       | None => if AccountState.is_registered a
              then x <| StakeSnapshot.registered_accounts := {[AccountState.credential a]} ∪ StakeSnapshot.registered_accounts x |> else x
       | Some (p, st) => (if AccountState.is_registered a
              then x <| StakeSnapshot.registered_accounts := {[AccountState.credential a]} ∪ StakeSnapshot.registered_accounts x |> else x)
           <| StakeSnapshot.accounts_by_pool := DelegatorMap.insert (StakeSnapshot.accounts_by_pool (if AccountState.is_registered a
              then x <| StakeSnapshot.registered_accounts := {[AccountState.credential a]} ∪ StakeSnapshot.registered_accounts x |> else x))
                p (AccountState.credential a) st |>
       end) = StakeSnapshot.pools x) by (by destruct (AccountState.is_registered a), d as [[??]|]).
    rewrite Hp1 in Hp, Hl. split; [done|]. intros b [->|Hb]%elem_of_cons; eauto.
Qed.

Lemma merge_list_ret x l :
  (forall a, a ∈ l -> exists d, delegation_at (StakeSnapshot.pools x) stake_epoch protocol a = Ret d) ->
  exists x', run_foldl (merge_account stake_epoch protocol) x l = Ret x'.
Proof.
  induction l as [|a l IH] using rev_ind; intros Hl; [by exists x|].
  destruct IH as (x1 & E1); [intros; apply Hl; set_solver|]. destruct (merge_pools _ _ _ E1) as [Hp _].
  destruct (Hl a) as (d & Hd); [set_solver|].
  eassert (merge_account stake_epoch protocol x1 a = Ret _) as Hm.
  { apply merge_account_spec. exists d. rewrite Hp. split; [exact Hd|reflexivity]. }
  eexists. rewrite run_foldl_app, E1. cbn. rewrite Hm. reflexivity.
Qed.

Lemma snapshot_shard_ret s ranges x :
  (forall k v, entities (tables s) !! (NS AccountState.t, k) = Some v -> Exists (fun r => key_in_range r k = true) ranges ->
     loadable (StakeSnapshot.pools x) v) ->
  exists x', snapshot_shard x s stake_epoch protocol ranges = Ret (Ok x').
Proof.
  unfold snapshot_shard. revert x. induction ranges as [|r ranges IH]; intros x Hl; cbn [for_each]; [by eexists|].
  set (rows := iter_entities s (NS AccountState.t) r).
  assert (Hrows : forall k v, (k, v) ∈ rows -> loadable (StakeSnapshot.pools x) v).
  { intros k v [Hv Hr]%iter_entities_spec. apply (Hl k v Hv). by left. }
  assert (exists l, iter_entities_typed AccountState.t s (Some r) = Ok <$> l /\
    forall a, a ∈ l.*2 -> exists d, delegation_at (StakeSnapshot.pools x) stake_epoch protocol a = Ret d) as (l & Hit & Hd).
  { unfold iter_entities_typed. change (default full_range (Some r)) with r. fold rows. clearbody rows. induction rows as [|[k v] rows IHr].
    - exists []. split; [done|]. intros a Ha. by apply not_elem_of_nil in Ha.
    - destruct IHr as (l & El & Hd); [intros; eapply Hrows; by right|].
      destruct (Hrows k v ltac:(left)) as (a & d & Ha & Hda). exists ((k, a) :: l). cbn. rewrite El.
      unfold decode_row. cbn. rewrite Ha. split; [done|]. intros b [->|Hb]%elem_of_cons; eauto. }
  rewrite Hit, for_records_ok. destruct (merge_list_ret x l.*2 Hd) as (x1 & E1).
  pose proof (proj2 (for_each_values (merge_account stake_epoch protocol) x l x1) E1) as E1'. rewrite E1'. cbn [rbind].
  apply IH. intros k v Hv Hr. destruct (merge_pools _ _ _ E1) as [-> _]. apply (Hl k v Hv). by right.
Qed.

(** A pass that succeeded on some range could load its rows. *)
Lemma snapshot_shard_loadable s r x x' k v :
  snapshot_shard x s stake_epoch protocol [r] = Ret (Ok x') ->
  entities (tables s) !! (NS AccountState.t, k) = Some v -> key_in_range r k = true -> loadable (StakeSnapshot.pools x) v.
Proof.
  intros E Hv Hr. unfold snapshot_shard in E. cbn [for_each] in E. apply rbind_Ret in E as (x1 & E1 & _).
  apply decoded_rows in E1 as (l & E1 & Hk & Hl). apply for_each_values in E1. destruct (merge_pools _ _ _ E1) as [_ Hd].
  assert (Hin : (k, v) ∈ iter_entities s (NS AccountState.t) r) by (by apply iter_entities_spec).
  assert (k ∈ l.*1) as ([k' a] & -> & Ha)%list_elem_of_fmap.
  { rewrite Hk. apply list_elem_of_fmap. by exists (k, v). }
  cbn in *. destruct (proj1 (Hl k' a) Ha) as (v' & Hv' & Hda). apply iter_entities_spec in Hv' as [Hv' _].
  assert (v' = v) as -> by congruence. destruct (Hd a) as (d & ?); [|by exists a, d].
  apply list_elem_of_fmap. by exists (k', a).
Qed.

End merging.

(** *** The context of a shard *)

Lemma merge_shard_spec w s ranges se pe prot w' :
  RupdWork.relevant_epochs w = Ret (Some (se, pe)) -> RupdWork.snapshot_protocol w se = Ret prot ->
  RupdWork.merge_shard w s ranges = Ret (Ok w') <->
  exists x, snapshot_shard (RupdWork.snapshot w) s se prot ranges = Ret (Ok x) /\
    w' = w <| RupdWork.snapshot := x |> <| RupdWork.shard_ranges := Some ranges |>.
Proof.
  intros Hr Hp. unfold RupdWork.merge_shard. rewrite Hr. cbn [mbind run_bind]. rewrite Hp. cbn [mbind run_bind]. split.
  - intros (w1 & (x & Hx & E)%rbind_Ret & E')%rbind_Ret. apply Ret_inj in E, E'. injection E as <-. injection E' as <-. eauto.
  - intros (x & -> & ->). done.
Qed.

Lemma get_stake_of x p c : DelegatorMap.get_stake (StakeSnapshot.accounts_by_pool x) p c = default 0 (stake_of x p c).
Proof. unfold DelegatorMap.get_stake, stake_of. by destruct (_ !! p). Qed.

Lemma delegators_of x p c :
  c ∈ (DelegatorMap.iter_delegators (StakeSnapshot.accounts_by_pool x) p).*1 <-> is_Some (stake_of x p c).
Proof.
  unfold DelegatorMap.iter_delegators, stake_of. rewrite list_elem_of_fmap. split.
  - intros ([c' st] & -> & Hc). apply elem_of_map_to_list in Hc. cbn. destruct (_ !! p); cbn in *; [eauto|by rewrite lookup_empty in Hc].
  - intros (st & Hst). exists (c, st). split; [done|]. apply elem_of_map_to_list. by destruct (_ !! p).
Qed.

Lemma shard_sees s ranges w0 se pe prot wg :
  accounts_keyed s -> globals_of (RupdWork.snapshot w0) = RupdWork.snapshot w0 ->
  RupdWork.relevant_epochs w0 = Ret (Some (se, pe)) -> RupdWork.snapshot_protocol w0 se = Ret prot ->
  RupdWork.merge_shard w0 s [full_range] = Ret (Ok wg) ->
  (forall k, Exists (fun r => key_in_range r k = true) ranges -> key_in_range full_range k = true) ->
  exists x, RupdWork.merge_shard w0 s ranges = Ret (Ok (w0 <| RupdWork.snapshot := x |> <| RupdWork.shard_ranges := Some ranges |>)) /\
    globals_of x = RupdWork.snapshot w0 /\
    shard_view (in_ranges ranges) (RupdWork.context wg)
      (RupdWork.context (w0 <| RupdWork.snapshot := x |> <| RupdWork.shard_ranges := Some ranges |>)).
Proof.
  intros Hk Hg Hr Hp Hw Hin. pose proof (merge_shard_spec w0 s ranges se pe prot) as Hspec.
  apply (merge_shard_spec w0 s _ se pe prot) in Hw as (xg & Hxg & ->); [|done..].
  destruct (snapshot_shard_ret se prot s ranges (RupdWork.snapshot w0)) as (x & Hx).
  { intros k v Hv He. eapply snapshot_shard_loadable; [exact Hxg|done|by apply Hin]. }
  exists x. split; [apply Hspec; eauto|]. clear Hspec.
  destruct (snapshot_shard_list se prot s ranges _ _ Hx) as (l & El & Hl).
  destruct (snapshot_shard_list se prot s [full_range] _ _ Hxg) as (lg & Elg & Hlg).
  apply merge_list in El as [Hgl Hreg Hst]; [|done|intros a b Ha Hb; apply (visited_unique s ranges); [done|by apply Hl..]].
  apply merge_list in Elg as [Hglg Hregg Hstg]; [|done|intros a b Ha Hb; apply (visited_unique s [full_range]); [done|by apply Hlg..]].
  rewrite Hg in Hgl, Hglg. split; [done|]. assert (He : globals_of x = globals_of xg) by congruence.
  assert (Hpools : StakeSnapshot.pools x = StakeSnapshot.pools xg) by exact (f_equal StakeSnapshot.pools He).
  assert (Hps : StakeSnapshot.pool_stake x = StakeSnapshot.pool_stake xg) by exact (f_equal StakeSnapshot.pool_stake He).
  assert (Hlp : StakeSnapshot.pool_live_pledges x = StakeSnapshot.pool_live_pledges xg) by exact (f_equal StakeSnapshot.pool_live_pledges He).
  assert (Hstake : forall p c, in_ranges ranges c = true -> stake_of x p c = stake_of xg p c).
  { intros p c Hc. apply option_eq. intros st. rewrite Hst, Hstg. setoid_rewrite Hl. setoid_rewrite Hlg.
    setoid_rewrite (visited_in_ranges s ranges _ Hk). naive_solver. }
  constructor; cbn; try done.
  - exact (f_equal StakeSnapshot.active_stake_sum He).
  - intros p. unfold RupdWork.pool_blocks, RupdWork.pool_snapshot. cbn. by rewrite Hpools.
  - intros p. by rewrite Hps.
  - intros p a Ha. by rewrite !get_stake_of, Hstake.
  - intros a Ha. apply bool_decide_ext. rewrite Hreg, Hregg. setoid_rewrite Hl. setoid_rewrite Hlg.
    setoid_rewrite (visited_in_ranges s ranges _ Hk). naive_solver.
  - by rewrite Hpools.
  - intros p. unfold RupdWork.pool_params, RupdWork.pool_snapshot. cbn. by rewrite Hpools.
  - intros p. apply NoDup_Permutation; [apply NoDup_fst_map_to_list| |].
    + eapply sublist_NoDup; [|apply bool_filter_sublist]. apply NoDup_fst_map_to_list.
    + intros c. rewrite elem_of_bool_filter, !delegators_of. split.
      * intros (st & Hc). destruct (proj1 (Hst p c st) Hc) as (a & Ha & Hac & Had). apply Hl, visited_in_ranges in Ha as [Ha Hr']; [|done].
        subst c. split; [|done]. exists st. apply Hstg. exists a. split; [by apply Hlg|done].
      * intros [Hc Hr']. by rewrite Hstake.
  - intros p owners. by rewrite Hlp.
  - intros a. rewrite orb_false_r. by apply credential_in_full_range.
Qed.

Lemma whole_listed_once w : listed_once (RupdWork.context w).
Proof. split; cbn; [apply NoDup_fst_map_to_list|]. intros p. apply NoDup_fst_map_to_list. Qed.

(** ** The shards and the whole

    The computation over every account at once, which the shards divide. *)
Definition unsharded (s : S) (g : Genesis) : run (result ChainError RewardMap.t) :=
  w ←? RupdWork.load s g;
  compute w.

Lemma account_untouched owners se prot x a x' :
  load_account owners se prot x a = Ret x' ->
  StakeSnapshot.accounts_by_pool x' = StakeSnapshot.accounts_by_pool x /\
  StakeSnapshot.registered_accounts x' = StakeSnapshot.registered_accounts x.
Proof.
  unfold load_account. intros (d & _ & E)%bind_Ret. destruct d as [[p st]|]; [|by apply Ret_inj in E as <-].
  apply bind_Ret in E as (x1 & E1 & E). unfold track_stake in E1. do 3 apply bind_Ret in E1 as (? & _ & E1).
  apply Ret_inj in E1 as <-. case_bool_decide; [apply bind_Ret in E as (? & _ & E)|]; by apply Ret_inj in E as <-.
Qed.

Lemma globals_fresh s g w : RupdWork.load_globals s g = Ret (Ok w) -> reset_for_next_shard w = w.
Proof.
  unfold RupdWork.load_globals. intros (e & _ & E)%rbind_Ret. destruct (max_lovelace_supply (shelley g)); [|done].
  apply rbind_Ret in E as (inc & _ & E). apply rbind_Ret in E as (ch & _ & E). cbv zeta in E.
  apply bind_Ret in E as (ep & _ & E). destruct ep as [[se pe]|]; [|by apply Ret_inj in E; injection E as <-].
  apply bind_Ret in E as (prot & _ & E). apply rbind_Ret in E as (x & Hx & E). apply Ret_inj in E. injection E as <-.
  assert (Hg : globals_of x = x); [|unfold reset_for_next_shard; cbn; by rewrite <- Hg].
  assert (StakeSnapshot.accounts_by_pool x = ∅ /\ StakeSnapshot.registered_accounts x = ∅) as [Ha Hr].
  2: { destruct x. cbn in *. by subst. }
  unfold snapshot_globals in Hx. apply rbind_Ret in Hx as (x1 & H1' & Hx).
  refine (for_records_inv (fun x => StakeSnapshot.accounts_by_pool x = ∅ /\ StakeSnapshot.registered_accounts x = ∅) _ _ _ _ _ _ Hx).
  - intros y r y' _ [<- <-] E. unfold lift in E. apply bind_Ret in E as (y1 & E & Ey). apply Ret_inj in Ey. injection Ey as <-.
    by apply account_untouched in E.
  - refine (for_records_inv (fun x => StakeSnapshot.accounts_by_pool x = ∅ /\ StakeSnapshot.registered_accounts x = ∅) _ _ _ _ _ _ H1'); [|done].
    intros y r y' _ [<- <-] E. unfold load_pool in E. apply rbind_Ret in E as (? & _ & E). apply bind_Ret in E as (? & _ & E).
    apply Ret_inj in E. injection E as <-. by destruct (EpochValue.snapshot_at _ _).
Qed.

Lemma shard_computes s g w0 m ranges :
  accounts_keyed s -> RupdWork.load_globals s g = Ret (Ok w0) -> unsharded s g = Ret (Ok m) ->
  (forall k, Exists (fun r => key_in_range r k = true) ranges -> key_in_range full_range k = true) ->
  exists w, RupdWork.merge_shard w0 s ranges = Ret (Ok w) /\ reset_for_next_shard w = w0 /\
    compute w = Ret (Ok (restrict (in_ranges ranges) m)).
Proof.
  intros Hk Hw Hm Hin. pose proof (globals_fresh _ _ _ Hw) as Hf. unfold unsharded, RupdWork.load in Hm. rewrite Hw in Hm.
  cbn [rbind] in Hm. assert (Hrel : forall x r, RupdWork.relevant_epochs (w0 <| RupdWork.snapshot := x |> <| RupdWork.shard_ranges := r |>) =
    RupdWork.relevant_epochs w0) by done.
  destruct (RupdWork.relevant_epochs w0) as [[[se pe]|]|] eqn:Hr; cbn [mbind run_bind] in Hm; [| |done].
  - apply rbind_Ret in Hm as (wg & Hwg & Hm). destruct (RupdWork.snapshot_protocol w0 se) as [prot|] eqn:Hp.
    2: { unfold RupdWork.merge_shard in Hwg. rewrite Hr in Hwg. cbn in Hwg. by rewrite Hp in Hwg. }
    assert (Hg : globals_of (RupdWork.snapshot w0) = RupdWork.snapshot w0) by exact (f_equal RupdWork.snapshot Hf).
    destruct (shard_sees s ranges w0 se pe prot wg Hk Hg Hr Hp Hwg Hin) as (x & Hx & Hgx & Hv). eexists. split; [exact Hx|]. split.
    + unfold reset_for_next_shard. cbn. fold (globals_of x). rewrite Hgx. by rewrite <- Hf.
    + unfold compute. rewrite Hrel. cbn [mbind run_bind]. apply (shard_rewards_exact _ _ _ Hv); [apply whole_listed_once|].
      apply (merge_shard_spec w0 s _ se pe prot) in Hwg as (xg & _ & ->); [|done..]. unfold compute in Hm. by rewrite Hrel in Hm.
  - exists (w0 <| RupdWork.shard_ranges := Some ranges |>). split; [unfold RupdWork.merge_shard; by rewrite Hr|].
    split; [by rewrite <- Hf|]. cbn [rbind] in Hm. unfold compute in Hm |- *. rewrite Hr in Hm.
    assert (RupdWork.relevant_epochs (w0 <| RupdWork.shard_ranges := Some ranges |>) = RupdWork.relevant_epochs w0) as -> by done.
    rewrite Hr. cbn in *. apply Ret_inj in Hm. injection Hm as <-. unfold restrict, RewardMap.from_pending. cbn. by rewrite map_filter_empty.
Qed.

(** *** What an update reads

    The accounts, the pools and the eras, and the epoch apart from its
    progress and its incentives. *)

Definition settled (e : EpochState.t) : EpochState.t :=
  e <| EpochState.incentives := None |> <| EpochState.rupd_progress := None |>.

Record same_inputs (s s' : S) : Prop := {
  si_accounts : forall k, entities (tables s') !! (NS AccountState.t, k) = entities (tables s) !! (NS AccountState.t, k);
  si_pools : forall k, entities (tables s') !! (NS PoolState.t, k) = entities (tables s) !! (NS PoolState.t, k);
  si_eras : forall k, entities (tables s') !! (NS EraSummary.t, k) = entities (tables s) !! (NS EraSummary.t, k);
  si_epoch : exists e e', load_epoch s = Ret (Ok e) /\ load_epoch s' = Ret (Ok e') /\ settled e' = settled e;
}.

Lemma iter_typed_same (T : Type) `{!Entity T, !Minicbor T V} s s' r :
  (forall k, entities (tables s') !! (NS T, k) = entities (tables s) !! (NS T, k)) ->
  iter_entities_typed T s' r = iter_entities_typed T s r.
Proof. intros E. unfold iter_entities_typed. by rewrite (iter_entities_same s' s). Qed.

Lemma merge_shard_same w s s' ranges :
  (forall k, entities (tables s') !! (NS AccountState.t, k) = entities (tables s) !! (NS AccountState.t, k)) ->
  RupdWork.merge_shard w s' ranges = RupdWork.merge_shard w s ranges.
Proof.
  intros E. assert (Hs : forall x se prot, snapshot_shard x s' se prot ranges = snapshot_shard x s se prot ranges).
  { intros x se prot. unfold snapshot_shard. revert x. induction ranges as [|r l IH]; intros x; cbn [for_each]; [done|].
    rewrite (iter_typed_same AccountState.t s s') by done. destruct (for_records _ x _) as [[y|]|]; cbn; auto. }
  unfold RupdWork.merge_shard. destruct (RupdWork.relevant_epochs w) as [[[se pe]|]|]; cbn [mbind run_bind]; [|done..].
  destruct (RupdWork.snapshot_protocol w se); cbn [mbind run_bind]; [|done]. by rewrite Hs.
Qed.

Lemma load_globals_same s s' g : same_inputs s s' -> RupdWork.load_globals s' g = RupdWork.load_globals s g.
Proof.
  intros [Ha Hp He (e & e' & Hl & Hl' & Hs)]. unfold RupdWork.load_globals, load_eras, snapshot_globals.
  rewrite Hl, Hl', !(iter_typed_same _ s s') by done. cbn [rbind].
  assert (EpochState.initial_pots e' = EpochState.initial_pots e) as -> by exact (f_equal EpochState.initial_pots Hs).
  assert (EpochState.rolling e' = EpochState.rolling e) as -> by exact (f_equal EpochState.rolling Hs).
  assert (EpochState.number e' = EpochState.number e) as -> by exact (f_equal EpochState.number Hs).
  assert (Hpp : EpochState.pparams e' = EpochState.pparams e) by exact (f_equal EpochState.pparams Hs). rewrite Hpp.
  assert (forall r b, define_epoch_incentives g e' r b = define_epoch_incentives g e r b) as ->; [|done].
  intros r b. unfold define_epoch_incentives, define_eta. rewrite Hpp.
  by assert (EpochState.rolling e' = EpochState.rolling e) as -> by exact (f_equal EpochState.rolling Hs).
Qed.

Lemma unsharded_same s s' g : same_inputs s s' -> unsharded s' g = unsharded s g.
Proof.
  intros Hs. unfold unsharded, RupdWork.load. rewrite (load_globals_same s s') by done.
  destruct (RupdWork.load_globals s g) as [[w|]|]; cbn [rbind]; [|done..].
  destruct (RupdWork.relevant_epochs w) as [[[se pe]|]|]; cbn [mbind run_bind]; [|done..].
  by rewrite (merge_shard_same w s s') by apply Hs.
Qed.

(** ** Commits *)

Lemma seen_writes {A} ns (key : A -> EntityKey) (val : A -> V) (l : list A) w s :
  NoDup (key <$> l) ->
  (forall y, y ∈ l -> seen (foldl (fun w y => write_entity w ns (key y) (val y)) w l) s (ns, key y) = Some (val y)) /\
  (forall nk, (forall y, y ∈ l -> nk ≠ (ns, key y)) ->
     seen (foldl (fun w y => write_entity w ns (key y) (val y)) w l) s nk = seen w s nk).
Proof.
  induction l as [|y l IH] using rev_ind; intros Hn.
  - split; [|done]. intros y Hx. by apply not_elem_of_nil in Hx.
  - rewrite fmap_app in Hn. apply NoDup_app in Hn as (Hl & Hd & _). destruct (IH Hl) as [Hin Hout]. setoid_rewrite foldl_snoc.
    setoid_rewrite seen_write. split.
    + intros z [Hy| ->%list_elem_of_singleton]%elem_of_app; [|by rewrite decide_True].
      rewrite decide_False; [by apply Hin|]. intros [= E]. apply (Hd (key z)); [by apply list_elem_of_fmap_2|].
      apply list_elem_of_fmap. exists y. split; [done|]. by apply list_elem_of_singleton.
    + intros nk Hnk. rewrite decide_False; [apply Hout; intros; apply Hnk; set_solver|]. apply not_eq_sym, Hnk. set_solver.
Qed.

Lemma rest_writes {A} ns (key : A -> EntityKey) (val : A -> V) (l : list A) w s :
  rest_of (after (foldl (fun w y => write_entity w ns (key y) (val y)) w l) s) = rest_of (after w s).
Proof. revert w. induction l as [|y l IH]; intros w; cbn [foldl]; [done|]. by rewrite IH, rest_write. Qed.

Lemma rest_commit w s : rest_of (tables (commit w s)) = rest_of (after w s).
Proof. unfold after. by rewrite commit_spec. Qed.

(** The rewards of the credentials [Q] are stored, and nothing else changes
    but the epoch. *)
Record stored (m : RewardMap.t) (Q : StakeCredential -> bool) (s s' : S) : Prop := {
  st_rest : rest_of (tables s') = rest_of (tables s);
  st_rows : forall c r, RewardMap.pending m !! c = Some r -> Q c = true ->
    entities (tables s') !! (NS PendingRewardState.t, credential_to_key c) = Some (to_vec (pending_of c r));
  st_other : forall nk, nk ≠ EpochState.ns_key ->
    (forall c r, RewardMap.pending m !! c = Some r -> Q c = true -> nk ≠ (NS PendingRewardState.t, credential_to_key c)) ->
    entities (tables s') !! nk = entities (tables s) !! nk;
}.

Lemma stored_trans m Q1 Q2 s s1 s2 :
  map_Forall (fun c _ => cred_ok c) (RewardMap.pending m) ->
  stored m Q1 s s1 -> stored m Q2 s1 s2 -> stored m (fun c => Q1 c || Q2 c) s s2.
Proof.
  intros Hm [R1 W1 O1] [R2 W2 O2]. split.
  - congruence.
  - intros c r Hc Hq. destruct (Q2 c) eqn:H2'; [by apply W2|]. rewrite orb_false_r in Hq. rewrite O2; [by apply W1|done|].
    intros c' r' Hc' Hq' [= E]. apply credential_to_key_inj in E as <-; [congruence|done|by apply (Hm c r)|by apply (Hm c' r')].
  - intros nk Hn Hnk. rewrite O2, O1; [done|done| |done|]; intros c r Hc Hq; apply (Hnk c r Hc); by rewrite Hq, ?orb_true_r.
Qed.

(** *** One shard *)

(** The progress of an update whose next shard is [i]. *)
Definition at_shard (i n : Z) (e : EpochState.t) : Prop :=
  match EpochState.rupd_progress e with
  | Some p => ShardProgress.committed p = i /\ ShardProgress.total p = n
  | None => i = 0
  end.

Definition progressed (i n : Z) (e : EpochState.t) : EpochState.t :=
  e <| EpochState.rupd_progress := Some (ShardProgress.mk i n) |>.

Lemma progress_applies i n e :
  at_shard i n e -> 0 ≤ i < n -> n ≤ PREFIX_SPACE ->
  exists d, RupdProgress.apply (RupdProgress.new i n) (Some e) = Ret (d, Some (progressed (i + 1) n e)).
Proof.
  intros Ha Hi Hn. unfold PREFIX_SPACE in Hn. unfold RupdProgress.apply, at_shard in *. cbn.
  assert (match EpochState.rupd_progress e with Some p => ShardProgress.committed p | None => 0 end = i) as ->.
  { destruct (EpochState.rupd_progress e); [apply Ha|done]. }
  rewrite Z.ltb_irrefl. assert (match EpochState.rupd_progress e with Some p => negb (ShardProgress.total p =? n) | None => false end = false) as ->.
  { destruct (EpochState.rupd_progress e); [|done]. apply negb_false_iff, Z.eqb_eq, Ha. }
  rewrite uadd_exact by (unfold is_u; lia). cbn. eexists. done.
Qed.

Lemma pending_not_epoch k : (NS PendingRewardState.t, k) ≠ EpochState.ns_key.
Proof. intros E. by apply (f_equal fst) in E. Qed.

Lemma commit_shard_stores u m s e i :
  load_epoch s = Ret (Ok e) -> at_shard i (ru_total_shards u) e -> 0 ≤ i < ru_total_shards u -> ru_total_shards u ≤ PREFIX_SPACE ->
  map_Forall (fun c _ => cred_ok c) (RewardMap.pending m) ->
  exists s', commit_shard u m s i = Ret (Ok s') /\ stored m (fun _ => true) s s' /\
    load_epoch s' = Ret (Ok (progressed (i + 1) (ru_total_shards u) e)).
Proof.
  intros He Ha Hi Hn Hm. destruct (progress_applies i _ e Ha Hi Hn) as (d & Hd). unfold commit_shard.
  pose proof (proj1 (load_epoch_seen s e) He) as (v & Hv & Hde). rewrite read_typed_spec.
  change (NS EpochState.t, snd EpochState.ns_key) with EpochState.ns_key. rewrite Hv, Hde. cbn [rbind]. rewrite Hd. cbn [mbind run_bind snd].
  eexists. split; [done|]. unfold write_pending.
  set (key := fun z : StakeCredential * Reward.t => credential_to_key (fst z)).
  set (val := fun z : StakeCredential * Reward.t => to_vec (pending_of (fst z) (snd z)) : V).
  assert (Hnd : NoDup (key <$> RewardMap.iter_pending m)).
  { unfold RewardMap.iter_pending, key. apply NoDup_fmap_2_strong; [|apply NoDup_map_to_list]. intros [c r] [c' r'] Hc Hc' E.
    apply elem_of_map_to_list in Hc, Hc'. cbn in E. apply credential_to_key_inj in E as <-; [congruence|done|by apply (Hm c r)|by apply (Hm c' r')]. }
  destruct (seen_writes (NS PendingRewardState.t) key val (RewardMap.iter_pending m) (start_writer s) s Hnd) as [Hin Hout].
  split; [split|].
  - rewrite rest_commit, rest_write. etransitivity; [apply (rest_writes _ key val)|apply rest_start].
  - intros c r Hc _. rewrite seen_commit, seen_write, decide_False by (apply not_eq_sym, pending_not_epoch).
    apply (Hin (c, r)). by apply elem_of_map_to_list.
  - intros nk Hnk Hno. rewrite seen_commit, seen_write, decide_False by (by apply not_eq_sym). etransitivity; [apply Hout|apply seen_start].
    intros [c r] Hc. apply elem_of_map_to_list in Hc. by apply (Hno c r).
  - apply load_epoch_seen. exists (to_vec (progressed (i + 1) (ru_total_shards u) e)). split; [|apply decode_to_vec].
    by rewrite seen_commit, seen_write, decide_True.
Qed.

Lemma stored_ext m Q Q' s s' :
  (forall c r, RewardMap.pending m !! c = Some r -> Q' c = Q c) -> stored m Q s s' -> stored m Q' s s'.
Proof.
  intros Hq [R W' O]. split; [done| |].
  - intros c r Hc. rewrite (Hq c r Hc). by apply W'.
  - intros nk Hn Hnk. apply O; [done|]. intros c r Hc. rewrite <- (Hq c r Hc). by apply (Hnk c r).
Qed.

Lemma stored_restrict m P s s' : stored (restrict P m) (fun _ => true) s s' -> stored m P s s'.
Proof.
  assert (Hr : forall c r, RewardMap.pending (restrict P m) !! c = Some r <-> RewardMap.pending m !! c = Some r /\ P c = true).
  { intros c r. unfold restrict. cbn. by rewrite map_lookup_filter_Some. }
  intros [R W' O]. split; [done| |].
  - intros c r Hc Hp. apply W'; [by apply Hr|done].
  - intros nk Hn Hnk. apply O; [done|]. intros c r [Hc Hp]%Hr _. by apply (Hnk c r).
Qed.

Lemma stored_none m Q s : (forall c, Q c = false) -> stored m Q s s.
Proof. intros Hq. split; [done| |done]. intros c r _ Hc. by rewrite Hq in Hc. Qed.

(** *** The ranges of a shard *)

Definition shard_of (n : Z) (c : StakeCredential) : Z := bucket c / (256 / n).

Lemma in_ranges_shard c i n ranges :
  cred_ok c -> 0 ≤ i -> shard_key_ranges i n = Ret ranges -> in_ranges ranges c = (i =? shard_of n c).
Proof.
  intros Hc Hi Hr. pose proof (shard_ranges_bound i n ranges Hr Hi) as Hn.
  assert (Hv : validate_total_shards n = true).
  { unfold shard_key_ranges in Hr. apply bind_Ret in Hr as (? & Hv & _). by apply assert_Ret in Hv. }
  destruct (in_shard layout c i n Hc ltac:(lia) Hv ltac:(lia)) as (a & b & Hab & Hin & Hone).
  rewrite Hr in Hab. apply Ret_inj in Hab as ->. unfold in_ranges. cbn. rewrite orb_false_r. fold (credential_to_key c) in *.
  destruct (Z.eqb_spec i (shard_of n c)) as [E|E].
  - rewrite (Hone E). by destruct (key_in_range b _).
  - destruct (key_in_range a _) eqn:Ea; [by destruct E; apply (Hin a); [left|]|].
    destruct (key_in_range b _) eqn:Eb; [by destruct E; apply (Hin b); [right; left|]|done].
Qed.

Lemma shard_of_bound n c : cred_ok c -> 0 < n -> validate_total_shards n = true -> 0 ≤ shard_of n c < n.
Proof.
  intros Hc Hn Hv. destruct (valid_shards n Hn Hv) as [Hs Hm]. pose proof (bucket_byte c Hc).
  unfold shard_of. split; [apply Z.div_pos; lia|]. apply Z.div_lt_upper_bound; lia.
Qed.

Lemma ranges_inside i n : 0 < n -> validate_total_shards n = true -> 0 ≤ i < n ->
  exists ranges, shard_key_ranges i n = Ret ranges /\
    forall k, Exists (fun r => key_in_range r k = true) ranges -> key_in_range full_range k = true.
Proof.
  intros Hn Hv Hi. unfold shard_key_ranges. rewrite Hv, (proj2 (Z.ltb_lt i n)) by lia. cbn [assert_ mbind run_bind].
  destruct (variant_range_eq CRED_KEY_VARIANT_ADDRKEYHASH i n Hn Hv Hi) as (h0 & x0 & -> & _).
  destruct (variant_range_eq CRED_KEY_VARIANT_SCRIPTHASH i n Hn Hv Hi) as (h1 & x1 & -> & _). cbn [mbind run_bind].
  eexists. split; [done|]. assert (Hk : forall v h lo hi k, key_in_range (entity_key_from ([0x82; v; 0x58; 0x1c; lo] ++ replicate 27 0),
    entity_key_from ([0x82; v; 0x58; h; hi] ++ replicate 27 0)) k = true -> key_in_range full_range k = true).
  { intros v h lo hi [|z k]; [done|]. rewrite !entity_key_from_exact by done. unfold key_in_range, bytes_le, bytes_lt.
    cbn [app bytes_cmp fst snd]. intros [Ha Hb]%andb_true_iff.
    assert (z = 130) as ->; [|done]. destruct (Z.compare_spec 130 z) as [|Hlt|Hgt]; [done| |done].
    by rewrite (proj2 (Z.compare_gt_iff z 130)) in Hb by lia. }
  intros k [Ha|[Hb|Hb]%Exists_cons]%Exists_cons; [by eapply Hk|by eapply Hk|by apply Exists_nil in Hb].
Qed.

(** *** All the shards *)

Lemma stored_accounts m Q s s' k :
  stored m Q s s' -> entities (tables s') !! (NS AccountState.t, k) = entities (tables s) !! (NS AccountState.t, k).
Proof.
  intros Hs. apply (st_other _ _ _ _ Hs); [intros E; by apply (f_equal fst) in E|]. intros c r _ _ E. by apply (f_equal fst) in E.
Qed.

(** The rewards of the shards from [i] up to [k]. *)
Definition shards_between (i k n : Z) (c : StakeCredential) : bool := (i <=? shard_of n c) && (shard_of n c <? k).

(** What the work of a unit keeps from shard to shard. *)
Record unit_for (n : Z) (w0 : RupdWork.t) (u : RupdWorkUnit) : Prop := {
  uf_total : ru_total_shards u = n;
  uf_work : reset_for_next_shard (ru_work u) = w0;
}.

Section shards.
Context (s0 : S) (g : Genesis) (w0 : RupdWork.t) (m : RewardMap.t) (n : Z).
Context (keyed : accounts_keyed s0) (globals : RupdWork.load_globals s0 g = Ret (Ok w0)).
Context (whole : unsharded s0 g = Ret (Ok m)) (creds : map_Forall (fun c _ => cred_ok c) (RewardMap.pending m)).
Context (positive : 0 < n) (valid : validate_total_shards n = true).

Lemma run_shard_stores u s e i :
  unit_for n w0 u -> (forall k, entities (tables s) !! (NS AccountState.t, k) = entities (tables s0) !! (NS AccountState.t, k)) ->
  load_epoch s = Ret (Ok e) -> at_shard i n e -> 0 ≤ i < n ->
  exists u' s', run_shard (u, s) i = Ret (Ok (u', s')) /\ unit_for n w0 u' /\
    stored m (fun c => i =? shard_of n c) s s' /\ load_epoch s' = Ret (Ok (progressed (i + 1) n e)).
Proof.
  intros [Hn Hw] Hacc He Ha Hi. destruct (ranges_inside i n positive valid Hi) as (ranges & Hr & Hin).
  pose proof (shard_ranges_bound i n ranges Hr ltac:(lia)) as Hb.
  destruct (shard_computes s0 g w0 m ranges keyed globals whole Hin) as (w & Hm & Hres & Hc).
  unfold run_shard, load. rewrite Hn, Hr. cbn [mbind run_bind]. rewrite Hw, (merge_shard_same w0 s0 s), Hm by done.
  cbn [rbind]. unfold ru_work at 1. rewrite Hc. cbn [rbind].
  set (u' := mkRupd _ _ _ _ w).
  destruct (commit_shard_stores u' (restrict (in_ranges ranges) m) s e i) as (s' & Hs & Hst & He'); cbn; try done; [lia| |].
  { intros c r. unfold restrict. cbn. intros [Hcr _]%map_lookup_filter_Some. by apply (creds c r). }
  rewrite Hs. cbn [rbind]. exists u', s'. split; [done|]. split; [done|]. split; [|done].
  eapply stored_ext; [|by apply stored_restrict]. intros c r Hcr. symmetry. apply in_ranges_shard; [by apply (creds c r)|lia|done].
Qed.

Lemma run_shards_store (j : nat) u s e i :
  unit_for n w0 u -> (forall k, entities (tables s) !! (NS AccountState.t, k) = entities (tables s0) !! (NS AccountState.t, k)) ->
  load_epoch s = Ret (Ok e) -> at_shard i n e -> 0 ≤ i -> i + Z.of_nat j ≤ n ->
  exists u' s' e', for_each run_shard (u, s) (seqZ i (Z.of_nat j)) = Ret (Ok (u', s')) /\ unit_for n w0 u' /\
    stored m (shards_between i (i + Z.of_nat j) n) s s' /\ load_epoch s' = Ret (Ok e') /\ settled e' = settled e.
Proof.
  revert u s e i. induction j as [|j IH]; intros u s e i Hu Hacc He Ha Hi Hj.
  - exists u, s, e. split; [done|]. split; [done|]. split; [|done]. apply stored_none. intros c. apply andb_false_iff. rewrite Z.leb_gt, Z.ltb_ge. lia.
  - destruct (run_shard_stores u s e i Hu Hacc He Ha ltac:(lia)) as (u1 & s1 & E1 & Hu1 & Hst1 & He1).
    destruct (IH u1 s1 (progressed (i + 1) n e) (i + 1)) as (u2 & s2 & e2 & E2 & Hu2 & Hst2 & He2 & Hs2);
      [exact Hu1| |exact He1|by split|lia|lia|].
    { intros k. by rewrite (stored_accounts _ _ _ _ k Hst1). }
    exists u2, s2, e2. rewrite seqZ_cons by lia. cbn [for_each]. rewrite E1. cbn [rbind].
    replace (Z.succ i) with (i + 1) by lia. replace (Z.pred (Z.of_nat (Datatypes.S j))) with (Z.of_nat j) by lia.
    split; [done|]. split; [done|]. split; [|done]. eapply stored_ext; [|by eapply stored_trans]. intros c r _.
    unfold shards_between. apply eq_true_iff_eq. rewrite orb_true_iff, !andb_true_iff, Z.eqb_eq, !Z.leb_le, !Z.ltb_lt. lia.
Qed.

End shards.

(** *** The end of an update *)

Definition paid (e : EpochState.t) (incentives : EpochIncentives.t) : EpochState.t :=
  e <| EpochState.incentives := Some incentives |> <| EpochState.rupd_progress := None |>.

(** What an update that pays the rewards [m] makes of a store. *)
Record updated (m : RewardMap.t) (s s' : S) : Prop := {
  up_stored : stored m (fun _ => true) s s';
  up_epoch : forall e, load_epoch s = Ret (Ok e) ->
    entities (tables s') !! EpochState.ns_key = Some (to_vec (paid e (RewardMap.incentives m)));
}.

Lemma finalize_epoch_pays u s e :
  load_epoch s = Ret (Ok e) ->
  exists s', finalize_epoch u s = Ret (Ok s') /\ rest_of (tables s') = rest_of (tables s) /\
    entities (tables s') !! EpochState.ns_key = Some (to_vec (paid e (RupdWork.incentives (ru_work u)))) /\
    forall nk, nk ≠ EpochState.ns_key -> entities (tables s') !! nk = entities (tables s) !! nk.
Proof.
  intros He. unfold finalize_epoch. pose proof (proj1 (load_epoch_seen s e) He) as (v & Hv & Hde). rewrite read_typed_spec.
  change (NS EpochState.t, snd EpochState.ns_key) with EpochState.ns_key. rewrite Hv, Hde. cbn [rbind].
  eexists. split; [done|]. split; [by rewrite rest_commit, rest_write, rest_start|]. split.
  - by rewrite seen_commit, seen_write, decide_True.
  - intros nk Hn. by rewrite seen_commit, seen_write, decide_False, seen_start by (by apply not_eq_sym).
Qed.

(** The logs depend on the globals of the unit only. *)
Lemma stake_logs_unit n w0 u slot g s archive :
  unit_for n w0 u -> write_stake_logs u s archive = write_stake_logs (mkRupd slot g 0 0 w0) s archive.
Proof. intros [_ <-]. done. Qed.

Lemma aggregate_ret s :
  (forall k v, entities (tables s) !! (NS PendingRewardState.t, k) = Some v -> is_Some (decode (T := PendingRewardState.t) v)) ->
  exists totals, aggregate_pending_pool_rewards s = Ret (Ok totals).
Proof.
  intros Hd. unfold aggregate_pending_pool_rewards, iter_entities_typed.
  set (rows := iter_entities s (NS PendingRewardState.t) _).
  assert (Hrows : forall k v, (k, v) ∈ rows -> is_Some (decode (T := PendingRewardState.t) v)).
  { intros k v [Hv _]%iter_entities_spec. by eapply Hd. }
  clearbody rows. generalize (∅ : gmap PoolHash (Z * Z)) as acc. induction rows as [|[k v] rows IH]; intros acc; [by eexists|].
  destruct (Hrows k v ltac:(left)) as (x & Hx). cbn. unfold decode_row at 1. cbn. rewrite Hx. cbn. apply IH.
  intros k' v' Hv'. eapply Hrows. by right.
Qed.

Lemma include_all_incentives ctx m l m' : include_all ctx m l = Ret m' -> RewardMap.incentives m' = RewardMap.incentives m.
Proof.
  unfold include_all. revert m. induction l as [|c l IH]; intros m E; cbn in E; [by apply Ret_inj in E as <-|].
  apply bind_Ret in E as (m1 & E1 & E). rewrite (IH _ E). rewrite include_one_spec in E1. apply bind_Ret in E1 as (r & _ & E1).
  by apply Ret_inj in E1 as <-.
Qed.

Lemma compute_incentives w m : compute w = Ret (Ok m) -> RewardMap.incentives m = RupdWork.incentives w.
Proof.
  unfold compute, define_rewards. intros (ep & _ & E)%bind_Ret. destruct ep; [|by apply Ret_inj in E; injection E as <-].
  apply pool_loop_contributions in E as (css & _ & E). by apply include_all_incentives in E.
Qed.

Lemma stored_decodes m Q s s' k v :
  (forall k v, entities (tables s) !! (NS PendingRewardState.t, k) = Some v -> is_Some (decode (T := PendingRewardState.t) v)) ->
  stored m Q s s' -> entities (tables s') !! (NS PendingRewardState.t, k) = Some v -> is_Some (decode (T := PendingRewardState.t) v).
Proof.
  intros Hd [_ Hw Ho] Hv.
  destruct (decide (Exists (fun z => Q (fst z) = true /\ k = credential_to_key (fst z)) (map_to_list (RewardMap.pending m)))) as [Hx|Hx].
  - apply Exists_exists in Hx as ([c r] & Hc & Hq & ->). apply elem_of_map_to_list in Hc. cbn [fst] in *. rewrite (Hw c r Hc Hq) in Hv.
    injection Hv as <-. rewrite decode_to_vec. eauto.
  - apply (Hd k). rewrite <- Ho; [done|apply pending_not_epoch|]. intros c r Hc Hq [= ->]. apply Hx, Exists_exists. exists (c, r).
    split; [by apply elem_of_map_to_list|done].
Qed.

(** A store on which an update can start: its accounts are keyed by their
    credentials, no update is under way, the unsharded computation pays [m]
    to credentials of twenty-eight bytes, what pending rewards there are
    decode, and the epoch the logs are for has a first slot. *)
Record ready (s : S) (g : Genesis) (m : RewardMap.t) : Prop := {
  rd_keyed : accounts_keyed s;
  rd_epoch : exists e, load_epoch s = Ret (Ok e) /\ EpochState.rupd_progress e = None;
  rd_whole : unsharded s g = Ret (Ok m);
  rd_creds : map_Forall (fun c _ => cred_ok c) (RewardMap.pending m);
  rd_pending : forall k v, entities (tables s) !! (NS PendingRewardState.t, k) = Some v ->
    is_Some (decode (T := PendingRewardState.t) v);
  rd_slot : forall w ep, RupdWork.load_globals s g = Ret (Ok w) -> RupdWork.relevant_epochs w = Ret (Some ep) ->
    exists slot, ChainSummary.epoch_start (RupdWork.chain w) (snd ep) = Ret slot;
}.

Lemma whole_globals s g m : unsharded s g = Ret (Ok m) ->
  exists w, RupdWork.load_globals s g = Ret (Ok w) /\ RewardMap.incentives m = RupdWork.incentives w.
Proof.
  unfold unsharded, RupdWork.load. intros (w & (w0 & H0' & E)%rbind_Ret & Hc)%rbind_Ret. exists w0. split; [done|].
  apply compute_incentives in Hc. apply bind_Ret in E as (ep & _ & E). destruct ep as [ep|]; [|by apply Ret_inj in E; injection E as <-].
  unfold RupdWork.merge_shard in E. apply bind_Ret in E as (ep' & _ & E). apply rbind_Ret in E as (w1 & E1 & E).
  apply Ret_inj in E. injection E as <-. rewrite Hc. cbn. destruct ep' as [[se pe]|]; [|by apply Ret_inj in E1; injection E1 as <-].
  apply bind_Ret in E1 as (? & _ & E1). apply rbind_Ret in E1 as (? & _ & E1). apply Ret_inj in E1. by injection E1 as <-.
Qed.

Lemma update_runs slot s g m :
  ready s g m ->
  exists w0 s', RupdWork.load_globals s g = Ret (Ok w0) /\ updated m s s' /\
    (forall archive, run_rupd slot g s archive =
       (archive ←? write_stake_logs (mkRupd slot g 0 0 w0) s' archive; Ret (Ok (s', archive)))) /\
    (forall archive, exists archive', write_stake_logs (mkRupd slot g 0 0 w0) s' archive = Ret (Ok archive')).
Proof.
  intros [Hk (e & He & Hp) Hw Hc Hd Hsl]. destruct (whole_globals s g m Hw) as (w0 & Hg & Hinc).
  set (u := mkRupd slot g ACCOUNT_SHARDS 0 w0).
  assert (Hi : initialize slot g s = Ret (Ok u)).
  { unfold initialize. rewrite He. cbn [rbind]. rewrite Hg. cbn [rbind]. by rewrite Hp. }
  destruct (run_shards_store s g w0 m ACCOUNT_SHARDS Hk Hg Hw Hc ltac:(done) ltac:(done) (Z.to_nat ACCOUNT_SHARDS) u s e 0)
    as (u' & s1 & e1 & Hf & Hu & Hst & He1 & Hse); [split; [done|by eapply globals_fresh]|done|done|unfold at_shard; by rewrite Hp|done|done|].
  destruct (finalize_epoch_pays u' s1 e1 He1) as (s' & Hfin & Hrest & He' & Hoth). exists w0, s'. split; [done|].
  assert (Hup : stored m (fun _ => true) s s').
  { apply (stored_ext m _ (fun _ => true)) in Hst as [R W' O].
    - split; [congruence| |].
      + intros c r Hcr _. rewrite Hoth by apply pending_not_epoch. by apply W'.
      + intros nk Hn Hnk. rewrite Hoth by done. by apply O.
    - intros c r Hcr. symmetry. apply andb_true_iff. rewrite Z.leb_le, Z.ltb_lt. pose proof (shard_of_bound ACCOUNT_SHARDS c (Hc c r Hcr)
        ltac:(done) ltac:(done)). lia. }
  split; [|split].
  - split; [done|]. intros e2 He2. rewrite He in He2. apply Ret_inj in He2. injection He2 as <-. rewrite He', Hinc.
    replace (RupdWork.incentives (ru_work u')) with (RupdWork.incentives w0) by (by rewrite <- (uf_work _ _ _ Hu)).
    do 2 f_equal. exact (f_equal (fun e => e <| EpochState.incentives := Some (RupdWork.incentives w0) |>) Hse).
  - intros archive. unfold run_rupd. rewrite Hi. cbn [rbind]. rewrite debug_assert_holds by done. cbn [mbind run_bind]. change (seqZ (ru_start_shard u) (ru_total_shards u - ru_start_shard u))
      with (seqZ 0 (Z.of_nat (Z.to_nat ACCOUNT_SHARDS))). rewrite Hf. cbn [rbind fst snd]. unfold finalize. rewrite Hfin. cbn [rbind].
    by rewrite (stake_logs_unit _ _ _ slot g s' archive Hu).
  - intros archive. unfold write_stake_logs. cbn [ru_work].
    destruct (RupdWork.relevant_epochs w0) as [[[se pe]|]|] eqn:Hrel; cbn [mbind run_bind]; [|by eexists|].
    + destruct (Hsl w0 (se, pe) Hg Hrel) as (sl & Hsl'). cbn in Hsl'. rewrite Hsl'. cbn [mbind run_bind].
      destruct (aggregate_ret s') as (totals & Ht); [|rewrite Ht; by eexists].
      intros k v Hv. by eapply stored_decodes.
    + exfalso. unfold unsharded, RupdWork.load in Hw. rewrite Hg in Hw. cbn [rbind] in Hw. by rewrite Hrel in Hw.
Qed.

Lemma updated_epoch m s s' e :
  updated m s s' -> load_epoch s = Ret (Ok e) -> load_epoch s' = Ret (Ok (paid e (RewardMap.incentives m))).
Proof. intros Hu He. apply load_epoch_seen. eexists. split; [by apply (up_epoch _ _ _ Hu)|apply decode_to_vec]. Qed.

Lemma updated_inputs m s s' e : updated m s s' -> load_epoch s = Ret (Ok e) -> same_inputs s s'.
Proof.
  intros Hu He. pose proof (up_stored _ _ _ Hu) as Hs.
  assert (Hns : forall ns k, ns ≠ NS EpochState.t -> ns ≠ NS PendingRewardState.t ->
    entities (tables s') !! (ns, k) = entities (tables s) !! (ns, k)).
  { intros ns k H1' H2'. apply (st_other _ _ _ _ Hs); [intros E; by apply (f_equal fst) in E|].
    intros c r _ _ E. by apply (f_equal fst) in E. }
  split; [intros k; by apply Hns..|]. exists e, (paid e (RewardMap.incentives m)). split; [done|]. split; [by apply (updated_epoch m s)|done].
Qed.

Lemma updated_ready s s' g m : ready s g m -> updated m s s' -> ready s' g m.
Proof.
  intros [Hk (e & He & Hp) Hw Hc Hd Hsl] Hu. pose proof (updated_inputs _ _ _ _ Hu He) as Hs. split.
  - intros k v a Hv. rewrite (si_accounts _ _ Hs) in Hv. by apply Hk.
  - exists (paid e (RewardMap.incentives m)). split; [by apply (updated_epoch m s)|done].
  - by rewrite (unsharded_same s s').
  - done.
  - intros k v. by apply (stored_decodes m (fun _ => true) s); [|apply Hu].
  - intros w ep. rewrite (load_globals_same s s') by done. apply Hsl.
Qed.

(** An update overwrites what the same update has written. *)
Lemma updated_twice m s s1 s2 e :
  load_epoch s = Ret (Ok e) -> updated m s s1 -> updated m s1 s2 -> tables s2 = tables s1.
Proof.
  intros He U1 U2. pose proof (updated_epoch _ _ _ _ U1 He) as He1. destruct U1 as [[R1 W1 O1] E1], U2 as [[R2 W2 O2] E2].
  assert (Hen : entities (tables s2) = entities (tables s1)).
  { apply map_eq. intros nk. destruct (decide (nk = EpochState.ns_key)) as [->|Hn]; [by rewrite (E2 _ He1), (E1 _ He)|].
    destruct (decide (Exists (fun z => nk = (NS PendingRewardState.t, credential_to_key (fst z))) (map_to_list (RewardMap.pending m)))) as [Hx|Hx].
    - apply Exists_exists in Hx as ([c r] & Hc & ->). apply elem_of_map_to_list in Hc. cbn [fst].
      by rewrite (W2 c r Hc eq_refl), (W1 c r Hc eq_refl).
    - apply O2; [done|]. intros c r Hc _ ->. apply Hx, Exists_exists. exists (c, r). split; [by apply elem_of_map_to_list|done]. }
  pose proof (f_equal fst R2 : cursor (tables s2) = cursor (tables s1)). pose proof (f_equal snd R2 : utxos (tables s2) = utxos (tables s1)).
  destruct (tables s1), (tables s2). cbn in *. congruence.
Qed.

(** C10: an update stores the rewards of the whole epoch: on a store that is
    ready for it, the sharded pass succeeds, every account the unsharded
    computation pays has its pending reward, every other row but the epoch's
    is left alone, and the epoch carries the incentives and no progress. *)
Theorem update_stores_rewards (slot : BlockSlot) (g : Genesis) (s : S) (archive : gmap (string * list Z) CardanoEntity.t) m :
  ready s g m -> exists s' archive', run_rupd slot g s archive = Ret (Ok (s', archive')) /\ updated m s s'.
Proof.
  intros Hr. destruct (update_runs slot s g m Hr) as (w0 & s' & _ & Hu & Hrun & Hlog). destruct (Hlog archive) as (archive' & Ha).
  exists s', archive'. split; [|done]. by rewrite Hrun, Ha.
Qed.

(** The logs written over what they have written. *)
Lemma logs_replay {A} (key : A -> string * list Z) (val : A -> CardanoEntity.t) (l : list A) (a : gmap (string * list Z) CardanoEntity.t) :
  foldl (fun a z => <[key z := val z]> a) (foldl (fun a z => <[key z := val z]> a) a l) l = foldl (fun a z => <[key z := val z]> a) a l.
Proof.
  apply map_eq. intros nk.
  pose proof (view_replay (fun a z => <[key z := val z]> a) (fun a : gmap (string * list Z) CardanoEntity.t => a !! nk)
    (fun z => if decide (key z = nk) then Some (Some (val z)) else None)) as Hr.
  specialize (Hr ltac:(intros b z; cbn; case_decide as E; cbn; [by rewrite E, lookup_insert_eq|by rewrite lookup_insert_ne]) a l []).
  by rewrite app_nil_r in Hr.
Qed.

(** An update can be repeated: run on the store it left, be it before or
    after its logs were written, it succeeds and leaves the same tables and
    the same logs. *)
Theorem update_repeats (slot : BlockSlot) (g : Genesis) (s s' : S) (archive archive' archive0 : gmap (string * list Z) CardanoEntity.t) m :
  ready s g m -> run_rupd slot g s archive = Ret (Ok (s', archive')) -> archive0 = archive \/ archive0 = archive' ->
  exists s'', run_rupd slot g s' archive0 = Ret (Ok (s'', archive')) /\ tables s'' = tables s'.
Proof.
  intros Hr Hrun Ha. pose proof Hr as [_ (e & He & _) _ _ _ _]. destruct (update_runs slot s g m Hr) as (w0 & s1 & Hg & Hu & Hrun1 & _).
  rewrite Hrun1 in Hrun. apply rbind_Ret in Hrun as (a & Hlog & E). apply Ret_inj in E. injection E as <- <-.
  destruct (update_runs slot s1 g m (updated_ready _ _ _ _ Hr Hu)) as (w1 & s2 & Hg1 & Hu1 & Hrun2 & _).
  rewrite (load_globals_same s s1), Hg in Hg1 by (by eapply updated_inputs). apply Ret_inj in Hg1. injection Hg1 as <-.
  pose proof (updated_twice m s s1 s2 e He Hu Hu1) as Ht. exists s2. split; [|done]. rewrite Hrun2.
  assert (Hagg : aggregate_pending_pool_rewards s2 = aggregate_pending_pool_rewards s1).
  { unfold aggregate_pending_pool_rewards. by rewrite (iter_typed_same PendingRewardState.t s1 s2) by (by rewrite Ht). }
  assert (write_stake_logs (mkRupd slot g 0 0 w0) s2 archive0 = Ret (Ok a)) as ->; [|done].
  unfold write_stake_logs in *. cbn [ru_work] in *. destruct (RupdWork.relevant_epochs w0) as [[[se pe]|]|]; cbn [mbind run_bind] in *; [| |done].
  - destruct (ChainSummary.epoch_start _ pe) as [sl|]; cbn [mbind run_bind] in *; [|done]. rewrite Hagg.
    destruct (aggregate_pending_pool_rewards s1) as [[totals|]|]; cbn [rbind] in *; [|done..]. apply Ret_inj in Hlog. injection Hlog as <-.
    do 2 f_equal. destruct Ha as [->| ->]; [done|]. apply logs_replay.
  - apply Ret_inj in Hlog. injection Hlog as <-. by destruct Ha as [->| ->].
Qed.

(** ** Resuming an interrupted update *)

Definition total_of (e : EpochState.t) : Z :=
  match EpochState.rupd_progress e with Some p => ShardProgress.total p | None => ACCOUNT_SHARDS end.
Definition start_of (e : EpochState.t) : Z :=
  match EpochState.rupd_progress e with Some p => ShardProgress.committed p | None => 0 end.

Lemma at_start e : at_shard (start_of e) (total_of e) e.
Proof. unfold at_shard, start_of, total_of. by destruct (EpochState.rupd_progress e). Qed.

Lemma merge_globals se prot x l x' :
  run_foldl (merge_account se prot) x l = Ret x' -> globals_of x' = globals_of x.
Proof.
  revert x. induction l as [|a l IH]; intros x E; cbn in E; [by apply Ret_inj in E as <-|].
  apply bind_Ret in E as (x1 & E1 & E). rewrite (IH _ E). apply merge_account_spec in E1 as (d & _ & ->).
  by destruct (AccountState.is_registered a), d as [[??]|].
Qed.

Lemma merge_shard_resets w s ranges w' :
  RupdWork.merge_shard w s ranges = Ret (Ok w') -> reset_for_next_shard w' = reset_for_next_shard w.
Proof.
  unfold RupdWork.merge_shard. intros (ep & _ & E)%bind_Ret. apply rbind_Ret in E as (w1 & E1 & E). apply Ret_inj in E. injection E as <-.
  destruct ep as [[se pe]|]; [|by apply Ret_inj in E1; injection E1 as <-]. apply bind_Ret in E1 as (prot & _ & E1).
  apply rbind_Ret in E1 as (x & Hx & E1). apply Ret_inj in E1. injection E1 as <-.
  apply snapshot_shard_list in Hx as (l & Hl & _). apply merge_globals in Hl. unfold reset_for_next_shard. cbn.
  unfold globals_of in Hl. cbn in Hl. by rewrite Hl.
Qed.

(** Units that differ at most in what a shard leaves in them. *)
Record alike (u1 u2 : RupdWorkUnit) : Prop := {
  al_slot : ru_slot u1 = ru_slot u2;
  al_genesis : ru_genesis u1 = ru_genesis u2;
  al_total : ru_total_shards u1 = ru_total_shards u2;
  al_work : reset_for_next_shard (ru_work u1) = reset_for_next_shard (ru_work u2);
}.

Lemma finalize_alike u1 u2 s archive : alike u1 u2 -> finalize u1 s archive = finalize u2 s archive.
Proof.
  intros [_ _ _ Hw]. assert (finalize_epoch u1 s = finalize_epoch u2 s) as Hf.
  { unfold finalize_epoch. by replace (RupdWork.incentives (ru_work u1)) with (RupdWork.incentives (ru_work u2))
      by exact (eq_sym (f_equal RupdWork.incentives Hw)). }
  unfold finalize. rewrite Hf. destruct (finalize_epoch u2 s) as [[s'|]|]; cbn [rbind]; [|done..].
  rewrite (stake_logs_unit (ru_total_shards u1) (reset_for_next_shard (ru_work u1)) u1 0 (ru_genesis u1) s' archive) by done.
  rewrite Hw. symmetry. by rewrite (stake_logs_unit (ru_total_shards u2) (reset_for_next_shard (ru_work u2)) u2 0 (ru_genesis u1) s' archive).
Qed.

Lemma shards_alike u1 u2 s archive l :
  alike u1 u2 ->
  (y ←? for_each run_shard (u1, s) l; finalize (fst y) (snd y) archive) =
  (y ←? for_each run_shard (u2, s) l; finalize (fst y) (snd y) archive).
Proof.
  revert u1 u2 s. induction l as [|i l IH]; intros u1 u2 s Ha; [by apply finalize_alike|]. destruct Ha as [Hs Hg Ht Hw].
  cbn [for_each]. unfold run_shard at 1 3, load. rewrite Hs, Hg, Ht, Hw.
  destruct (shard_key_ranges i _) as [ranges|]; cbn [mbind run_bind rbind]; [|done].
  destruct (RupdWork.merge_shard _ s ranges) as [[w|]|] eqn:Em; cbn [rbind]; [|done..].
  cbn [ru_work]. destruct (compute w) as [[m|]|]; cbn [rbind]; [|done..].
  assert (commit_shard (mkRupd (ru_slot u2) (ru_genesis u2) (ru_total_shards u2) (ru_start_shard u1) w) m s i =
    commit_shard (mkRupd (ru_slot u2) (ru_genesis u2) (ru_total_shards u2) (ru_start_shard u2) w) m s i) as -> by done.
  destruct (commit_shard _ m s i) as [[s'|]|]; cbn [rbind]; [|done..]. by apply IH.
Qed.

Lemma seen_pending m w s nk : fst nk ≠ NS PendingRewardState.t -> seen (write_pending w m) s nk = seen w s nk.
Proof.
  intros Hn. unfold write_pending. generalize (RewardMap.iter_pending m) as l. intros l. revert w.
  induction l as [|z l IH]; intros w; cbn [foldl]; [done|]. rewrite IH, seen_write, decide_False; [done|]. by intros <-.
Qed.

(** What a shard that has committed leaves of the inputs. *)
Lemma run_shard_frame u s e i u' s' :
  run_shard (u, s) i = Ret (Ok (u', s')) -> load_epoch s = Ret (Ok e) -> total_of e = ru_total_shards u -> start_of e = i -> 0 ≤ i ->
  alike u' u /\ same_inputs s s' /\ load_epoch s' = Ret (Ok (progressed (i + 1) (ru_total_shards u) e)).
Proof.
  unfold run_shard, load. intros (u1 & (ranges & Hr & E)%bind_Ret & E')%rbind_Ret He Ht Hst Hi.
  apply rbind_Ret in E as (w & Hw & E). apply Ret_inj in E. injection E as <-. cbn [ru_work] in E'.
  apply rbind_Ret in E' as (m & _ & E'). apply rbind_Ret in E' as (s1 & Hc & E'). apply Ret_inj in E'. injection E' as <- <-.
  pose proof (shard_ranges_bound _ _ _ Hr Hi) as Hb. pose proof (at_start e) as Ha. rewrite Hst, Ht in Ha.
  destruct (progress_applies i _ e Ha ltac:(lia) ltac:(lia)) as (d & Hd). unfold commit_shard in Hc. cbn [ru_total_shards] in Hc.
  pose proof (proj1 (load_epoch_seen s e) He) as (v & Hv & Hde). rewrite read_typed_spec in Hc.
  change (NS EpochState.t, snd EpochState.ns_key) with EpochState.ns_key in Hc. rewrite Hv, Hde in Hc. cbn [rbind] in Hc.
  rewrite Hd in Hc. cbn [mbind run_bind snd] in Hc. apply Ret_inj in Hc. injection Hc as <-.
  split; [split; [done..|]; apply merge_shard_resets in Hw; exact Hw|].
  assert (He' : load_epoch (commit (write_entity (write_pending (start_writer s) m) (NS EpochState.t) (snd EpochState.ns_key)
    (to_vec (progressed (i + 1) (ru_total_shards u) e))) s) = Ret (Ok (progressed (i + 1) (ru_total_shards u) e))).
  { apply load_epoch_seen. eexists. split; [by rewrite seen_commit, seen_write, decide_True|apply decode_to_vec]. }
  split; [|done]. assert (Hns : forall ns k, ns ≠ NS EpochState.t -> ns ≠ NS PendingRewardState.t -> entities (tables (commit
    (write_entity (write_pending (start_writer s) m) (NS EpochState.t) (snd EpochState.ns_key) (to_vec (progressed (i + 1) (ru_total_shards u) e))) s))
      !! (ns, k) = entities (tables s) !! (ns, k)).
  { intros ns k H1' H2'. by rewrite seen_commit, seen_write, decide_False, seen_pending, seen_start by (congruence || done). }
  split; [intros k; by apply Hns..|]. by exists e, (progressed (i + 1) (ru_total_shards u) e).
Qed.

Lemma same_inputs_trans s1 s2 s3 : same_inputs s1 s2 -> same_inputs s2 s3 -> same_inputs s1 s3.
Proof.
  intros [A1 P1 E1 (e & e1 & L & L1 & S1)] [A2 P2 E2 (e1' & e2 & L1' & L2 & S2)]. rewrite L1 in L1'. apply Ret_inj in L1'. injection L1' as <-.
  split; [intros k; congruence..|]. exists e, e2. split; [done|]. split; [done|]. congruence.
Qed.

Lemma run_shards_frame (j : nat) u s e u' s' :
  load_epoch s = Ret (Ok e) -> total_of e = ru_total_shards u -> 0 ≤ start_of e ->
  for_each run_shard (u, s) (seqZ (start_of e) (Z.of_nat j)) = Ret (Ok (u', s')) ->
  alike u' u /\ same_inputs s s' /\ exists e', load_epoch s' = Ret (Ok e') /\ total_of e' = ru_total_shards u /\
    start_of e' = start_of e + Z.of_nat j.
Proof.
  revert u s e. induction j as [|j IH]; intros u s e He Ht Hs Hf.
  - cbn in Hf. apply Ret_inj in Hf. injection Hf as <- <-. split; [done|]. split; [split; [done..|by exists e, e]|].
    exists e. split; [done|]. split; [done|lia].
  - rewrite seqZ_cons in Hf by lia. cbn [for_each] in Hf. apply rbind_Ret in Hf as ([u1 s1] & H1' & Hf).
    destruct (run_shard_frame _ _ _ _ _ _ H1' He Ht eq_refl Hs) as (Hal & Hin & He1).
    destruct (IH u1 s1 (progressed (start_of e + 1) (ru_total_shards u) e)) as (Hal' & Hin' & e' & He' & Ht' & Hs'); [done| | | |].
    + cbn. by rewrite (al_total _ _ Hal).
    + cbn. lia.
    + by replace (Z.pred (Z.of_nat (Datatypes.S j))) with (Z.of_nat j) in Hf by lia.
    + destruct Hal' as [B1 B2 B3 B4], Hal as [A1 A2 A3 A4]. split; [split; congruence|]. split; [by eapply same_inputs_trans|].
      exists e'. split; [done|]. split; [congruence|]. rewrite Hs'. cbn. lia.
Qed.

(** C11: an update interrupted after any number of its shards is resumed:
    running it again on what they left gives what the uninterrupted run
    gives, be it an error or a panic. *)
Theorem update_resumes (slot : BlockSlot) (g : Genesis) (s s' : S) (archive : gmap (string * list Z) CardanoEntity.t) u u' k :
  initialize slot g s = Ret (Ok u) -> 0 ≤ ru_start_shard u ≤ k -> k ≤ ru_total_shards u ->
  for_each run_shard (u, s) (seqZ (ru_start_shard u) (k - ru_start_shard u)) = Ret (Ok (u', s')) ->
  run_rupd slot g s' archive = run_rupd slot g s archive.
Proof.
  intros Hi Hk Hn Hf. pose proof Hi as Hi0. unfold initialize in Hi. apply rbind_Ret in Hi as (e & He & Hi).
  apply rbind_Ret in Hi as (w0 & Hw & Hi). apply Ret_inj in Hi. injection Hi as <-. fold (total_of e) (start_of e) in *.
  cbn [ru_start_shard ru_total_shards] in *. pose proof Hf as Hf0. replace (k - start_of e) with (Z.of_nat (Z.to_nat (k - start_of e))) in Hf by lia.
  destruct (run_shards_frame _ (mkRupd slot g (total_of e) (start_of e) w0) _ e _ _ He eq_refl ltac:(lia) Hf) as (Hal & Hin & e' & He' & Ht' & Hs').
  assert (Hi' : initialize slot g s' = Ret (Ok (mkRupd slot g (total_of e) k w0))).
  { unfold initialize. rewrite He'. cbn [rbind]. rewrite (load_globals_same s s'), Hw by done. cbn [rbind].
    fold (total_of e') (start_of e'). rewrite Hs'. cbn in Ht'. rewrite Ht'. do 3 f_equal. lia. }
  unfold run_rupd. rewrite Hi0, Hi'. cbn [rbind ru_start_shard ru_total_shards].
  rewrite !debug_assert_holds by (apply Z.leb_le; lia). cbn [mbind run_bind].
  replace (seqZ (start_of e) (total_of e - start_of e)) with (seqZ (start_of e) (k - start_of e) ++ seqZ k (total_of e - k)).
  2: { replace (total_of e - start_of e) with ((k - start_of e) + (total_of e - k)) by lia. rewrite seqZ_app by lia.
       by replace (start_of e + (k - start_of e)) with k by lia. }
  rewrite for_each_app, Hf0. cbn [rbind]. apply shards_alike. destruct Hal as [A1 A2 A3 A4]. by split.
Qed.

End update.

(** ** An update of epoch 10

    A pool, its operator and two delegators in different shards. *)
Module UpdateDemo.

#[export] Existing Instances Memory.store cfg_debug demo_pallas demo_cbor RewardDemo.accounts.
#[export] Instance float : ApproximateFloat := {| approximate_float _ := Some (1, 20) |}.

Definition everywhere {T} (x : T) : EpochValue.t T := EpochValue.mk (EpochAt 10) None (Some x) (Some x) (Some x) (Some x).

Definition cred (n : Z) : StakeCredential := AddrKeyhash (replicate 28 n).

Definition account (n : Z) : AccountState.t :=
  AccountState.mk (Some 10) (everywhere (Stake.mk (100 * n) 0 0 0)) (everywhere (PoolDelegated RewardDemo.pool))
    (everywhere DRepNotDelegated) None None (cred n) None.

Definition pool : PoolState.t :=
  PoolState.mk RewardDemo.pool (everywhere (PoolSnapshot.mk false 3 RewardDemo.params false)) 3 10 None 500.

Definition pparams : PParamsSet.t := PParamsSet.mk
  (PParamValue.ExpansionRate {| numerator := 1; denominator := 10 |} ::
   PParamValue.TreasuryGrowthRate {| numerator := 1; denominator := 5 |} ::
   PParamValue.EpochLength 100 :: PParamsSet.values RewardDemo.epoch_pparams).

Definition epoch : EpochState.t :=
  EpochState.default_
    <| EpochState.number := 10 |>
    <| EpochState.initial_pots := Pots.default_ <| Pots.reserves := 50000 |> <| Pots.utxos := 2000 |> |>
    <| EpochState.rolling := everywhere (RollingStats.default_ <| RollingStats.non_overlay_blocks_minted := 3 |>) |>
    <| EpochState.pparams := everywhere pparams |>.

Definition accounts : list (NsKey * CardanoEntity.t) :=
  (fun n => ((NS AccountState.t, credential_to_key (cred n)), CardanoEntity.EAccountState (account n))) <$> [1; 100; 200].

Definition rows : list (NsKey * CardanoEntity.t) :=
  [ ((NS EraSummary.t, era_protocol_key 10), CardanoEntity.EEraSummary BoundaryDemo.era);
    (EpochState.ns_key, CardanoEntity.EEpochState epoch);
    ((NS PoolState.t, entity_key_from (PoolState.operator pool)), CardanoEntity.EPoolState pool) ] ++ accounts.

Definition store : Tables CardanoEntity.t := mkTables None (list_to_map rows) ∅.

Lemma update_layout : cbor_layout.
Proof. by intros []. Qed.

Lemma unsharded_succeeds : succeeds_with (unsharded store demo_genesis) = true.
Proof. vm_compute. reflexivity. Qed.

Definition rewards : RewardMap.t := the _ unsharded_succeeds.

Lemma globals_succeed : succeeds_with (RupdWork.load_globals store demo_genesis) = true.
Proof. vm_compute. reflexivity. Qed.

Definition globals : RupdWork.t := the _ globals_succeed.

Lemma row_cases nk v :
  entities store !! nk = Some v -> nk = EpochState.ns_key \/ fst nk = NS EraSummary.t \/ fst nk = NS PoolState.t \/
    exists n, 0 ≤ n < 256 /\ nk = (NS AccountState.t, credential_to_key (cred n)) /\ v = CardanoEntity.EAccountState (account n).
Proof.
  intros Hv%elem_of_list_to_map_2. unfold rows, accounts in Hv. cbn [app fmap list_fmap] in Hv.
  repeat (apply elem_of_cons in Hv as [[= -> ->]|Hv]); [by right; left|by left|by do 2 right; left|..|by apply not_elem_of_nil in Hv].
  all: do 3 right; eexists; split; [|split; reflexivity]; lia.
Qed.

Lemma update_cred_valid n : 0 ≤ n < 256 -> cred_ok (cred n).
Proof. intros Hn. split; [done|]. by apply Forall_replicate. Qed.

#[local] Instance cred_ok_dec c : Decision (cred_ok c).
Proof. unfold cred_ok, bytes_ok. apply _. Defined.

Lemma store_ready : ready store demo_genesis rewards.
Proof.
  split.
  - intros k v a Hv Ha. apply row_cases in Hv as [E|[E|[E|(n & Hn & [= ->] & ->)]]]; [by apply (f_equal fst) in E|done|done|].
    cbn in Ha. injection Ha as <-. split; [by apply update_cred_valid|done].
  - exists epoch. split; [vm_compute|]; reflexivity.
  - exact (the_spec _ unsharded_succeeds).
  - apply (bool_decide_unpack _). vm_compute. reflexivity.
  - intros k v Hv. by apply row_cases in Hv as [E|[E|[E|(n & _ & E & _)]]]; [apply (f_equal fst) in E|..|apply (f_equal fst) in E].
  - intros w ep Hw Hr. rewrite (the_spec _ globals_succeed) in Hw. apply ret_ok_inj in Hw. subst w.
    vm_compute in Hr. injection Hr as <-. exists 900. vm_compute. reflexivity.
Qed.

Lemma update_stores_rewards_witness :
  exists s' archive', run_rupd 950 demo_genesis store ∅ = Ret (Ok (s', archive')) /\ updated rewards store s' /\
    size (RewardMap.pending rewards) = 3%nat.
Proof.
  destruct (update_stores_rewards update_layout 950 demo_genesis store ∅ rewards store_ready) as (s' & a & Hr & Hu).
  exists s', a. split; [exact Hr|]. split; [exact Hu|]. vm_compute. reflexivity.
Defined.

Lemma update_succeeds : succeeds_with (run_rupd 950 demo_genesis store ∅) = true.
Proof. vm_compute. reflexivity. Qed.

Definition result_ := the _ update_succeeds.

Lemma update_repeats_witness :
  exists s'', run_rupd 950 demo_genesis (fst result_) ∅ = Ret (Ok (s'', snd result_)) /\ s'' = fst result_ /\ size (snd result_) = 1%nat.
Proof.
  destruct (update_repeats update_layout 950 demo_genesis store (fst result_) ∅ (snd result_) ∅ rewards store_ready) as (s'' & Hr & Ht).
  - assert (result_ = (fst result_, snd result_)) as <- by (by destruct result_). exact (the_spec _ update_succeeds).
  - left. reflexivity.
  - exists s''. split; [exact Hr|]. split; [exact Ht|]. vm_compute. reflexivity.
Defined.

Lemma initialize_succeeds : succeeds_with (initialize 950 demo_genesis store) = true.
Proof. vm_compute. reflexivity. Qed.

Definition started : RupdWorkUnit := the _ initialize_succeeds.

Lemma some_shards_succeed : succeeds_with (for_each run_shard (started, store) (seqZ 0 (20 - 0))) = true.
Proof. vm_compute. reflexivity. Qed.

Definition part := the _ some_shards_succeed.

(** Stopped after twenty of its shards. *)
Lemma update_resumes_witness : run_rupd 950 demo_genesis (snd part) ∅ = Ret (Ok result_) /\ snd part <> store.
Proof.
  split.
  - etransitivity; [|exact (the_spec _ update_succeeds)].
    apply (update_resumes 950 demo_genesis store (snd part) ∅ started (fst part) 20).
    + exact (the_spec _ initialize_succeeds).
    + vm_compute. split; discriminate.
    + vm_compute. discriminate.
    + assert (part = (fst part, snd part)) as <- by (by destruct part). exact (the_spec _ some_shards_succeed).
  - intros E. apply (f_equal (fun s => bool_decide (entities s !! (NS PendingRewardState.t, credential_to_key (cred 1)) = None))) in E.
    vm_compute in E. discriminate E.
Defined.

End UpdateDemo.
