(* ===== verification/Bootstrap.v ===== *)
(** * Genesis (cardano/src/genesis)

    The first entities of a store, seeded from the genesis files: the first
    epoch and its pots, the first era, the governance singleton, the UTxOs of
    the origin, the initial pools and delegations.  Every step is a commit of
    its own, and the cursor is set last. *)

From S2P Require Import Prelude Lists Types ChainPoint EpochValue EntityDelta Eras PParams Forks Ratio Pots.
From S2P Require Import Accounts Pools DReps Epochs Proposals Hacks Gov StateStore Shards Indexes.
From S2P Require Import Blocks PallasExtras GenesisFiles Wal Roll IndexBuilder CardanoModel Codec Ewrap Commits Estart.
Open Scope Z_scope.

(** ** The first pools and delegations (genesis/staking.rs) *)

Section staking.
Context `{BuildCfg, Pallas, Addresses}.

Definition parse_config_account (reward_account : ConfigRewardAccount) : run bytes :=
  let network := if bool_decide (ra_network reward_account = "MainNet"%string) then Mainnet else Testnet in
  let text := match ra_credential reward_account with ConfigKeyHash x => x | ConfigScriptHash x => x end in
  hash ← expect (parse_hash 28 text);
  let payload := match ra_credential reward_account with
                 | ConfigKeyHash _ => PayloadStake hash
                 | ConfigScriptHash _ => PayloadScript hash
                 end in
  Ret (stake_to_vec {| stake_network := network; stake_payload := payload |}).

Definition parse_pool (dto : ConfigPool) : run PoolState.t :=
  reward_account ← parse_config_account (cfg_reward_account dto);
  vrf_keyhash ← expect (parse_hash 32 (cfg_vrf dto));
  let snapshot := PoolSnapshot.mk false 0
    (PoolParams.mk vrf_keyhash (cfg_pledge dto) (cfg_cost dto) (cfg_margin dto) reward_account [] [] None) true in
  operator ← expect (parse_hash 28 (cfg_public_key dto));
  Ret (PoolState.mk operator (EpochValue.with_live 0 snapshot) 0 0 None 0).

(** The loop over the funds returns at the first match. *)
Fixpoint find_funds (credential : StakeCredential) (funds : list (string * Z)) : run Z :=
  match funds with
  | [] => Ret 0
  | (text, amount) :: rest =>
      address ← expect (address_from_str text);
      candidate ← address_as_stake_cred address;
      match candidate with
      | Some (candidate, _) => if bool_decide (credential = candidate) then Ret amount else find_funds credential rest
      | None => find_funds credential rest
      end
  end.

Definition find_initial_utxo_sum (credential : StakeCredential) (g : Genesis) : run Z :=
  match initial_funds (shelley g) with
  | None => Ret 0
  | Some funds => find_funds credential funds
  end.

Definition parse_delegation (account pool : string) (g : Genesis) : run AccountState.t :=
  keyhash ← expect (parse_hash 28 account);
  let credential := AddrKeyhash keyhash in
  pool ← expect (parse_hash 28 pool);
  utxo_sum ← find_initial_utxo_sum credential g;
  Ret (AccountState.mk (Some 0) (EpochValue.with_live 0 (Stake.mk utxo_sum 0 0 0))
    (EpochValue.with_live 0 (PoolDelegated pool)) (EpochValue.with_live 0 DRepNotDelegated) None None credential None).

End staking.

(** ** The first epoch (genesis/mod.rs) *)

Section epoch.
Context `{BuildCfg, Pallas, GenesisUtxos}.

Definition sum_amounts (l : list (TxHash * bytes * Z)) : run Z := run_foldl (fun acc x => uadd 64 acc x.2) 0 l.

Definition get_utxo_amount (g : Genesis) : run Z :=
  byron_utxo ← sum_amounts (genesis_utxos (byron g));
  shelley_utxo ← sum_amounts (shelley_utxos (shelley g));
  uadd 64 byron_utxo shelley_utxo.

Definition bootstrap_pots (pparams : PParamsSet.t) (g : Genesis) : run (result ChainError Pots.t) :=
  utxos ← get_utxo_amount g;
  match max_lovelace_supply (shelley g) with
  | None => Ret (Err (GenesisFieldMissing "max_lovelace_supply"))
  | Some max_supply =>
      reserves ← usub 64 max_supply utxos;
      deposit_per_pool ← PParamsSet.pool_deposit_or_default pparams;
      deposit_per_account ← PParamsSet.key_deposit_or_default pparams;
      Ret (Ok (Pots.default_ <| Pots.reserves := reserves |> <| Pots.utxos := utxos |>
                             <| Pots.deposit_per_pool := deposit_per_pool |>
                             <| Pots.deposit_per_account := deposit_per_account |>))
  end.

(** [p.ensure_x()?]. *)
Definition ensured {A} (m : run (A + string)) : run (result ChainError A) :=
  x ← m; Ret match x with inl a => Ok a | inr name => Err (PParamsNotFound name) end.

Definition genesis_epoch (g : Genesis) : run (result ChainError EpochState.t) :=
  pparams ← from_byron_genesis (byron g);
  x ← (match force_protocol g with
       | Some force_protocol =>
           pparams ← force_pparams_version pparams g 0 (as_u 16 force_protocol);
           Ret (pparams, if 2 <=? force_protocol then Some (Nonces.bootstrap (shelley_hash g)) else None)
       | None => Ret (pparams, None)
       end);
  let '(pparams, nonces) := x in
  pots ←? bootstrap_pots pparams g;
  protocol ←? ensured (PParamsSet.ensure_protocol_major pparams);
  epoch_length ← expect (g_epoch_length (shelley g));
  window ← nonce_stability_window protocol g;
  largest_stable_slot ← usub 64 epoch_length window;
  Ret (Ok (EpochState.mk 0 pots (EpochValue.with_live 0 RollingStats.default_) (EpochValue.with_genesis pparams)
    largest_stable_slot None nonces (Some EndStats.default_) None None None None)).

Definition genesis_era (epoch : EpochState.t) : run (result ChainError EraSummary.t) :=
  pparams ← EpochValue.unwrap_live (EpochState.pparams epoch);
  system_start ←? ensured (PParamsSet.ensure_system_start pparams);
  epoch_length ←? ensured (PParamsSet.ensure_epoch_length pparams);
  slot_length ←? ensured (PParamsSet.ensure_slot_length pparams);
  protocol_major ← PParamsSet.protocol_major_or_default pparams;
  Ret (Ok (EraSummary.mk (EraBoundary.mk 0 0 system_start) None epoch_length slot_length protocol_major)).

Definition genesis_gov (g : Genesis) : result ChainError GovState.t :=
  if match force_protocol g with Some protocol => 9 <=? protocol | None => false end then
    match gov_from_conway_genesis (conway g) with
    | Ok (constitution, committee) => Ok (GovState.seed_genesis GovState.default_ constitution committee 0)
    | Err e => Err e
    end
  else Ok GovState.default_.

End epoch.

(** ** The commits *)

Section bootstrap.
Context {V S W : Type} `{!EntityCbor V, !StateStore V S W, BuildCfg, Pallas, GenesisUtxos, Addresses, Views, Xxh3}.

Definition write_one (T : Type) `{!Entity T, !Minicbor T V} (s : S) (key : EntityKey) (x : T) : S :=
  commit (write_entity (start_writer s) (NS T) key (to_vec x)) s.

Definition bootstrap_epoch (s : S) (g : Genesis) : run (result ChainError (S * EpochState.t)) :=
  epoch ←? genesis_epoch g;
  Ret (Ok (write_one EpochState.t s (snd EpochState.ns_key) epoch, epoch)).

Definition bootstrap_eras (s : S) (epoch : EpochState.t) : run (result ChainError S) :=
  era ←? genesis_era epoch;
  Ret (Ok (write_one EraSummary.t s (era_protocol_key (EraSummary.protocol era)) era)).

Definition bootstrap_gov (s : S) (g : Genesis) : run (result ChainError S) :=
  gov ←? Ret (genesis_gov g);
  Ret (Ok (write_one GovState.t s (snd GovState.ns_key) gov)).

(** The deltas of the origin and of the configured outputs, applied by one
    writer of the state and one of the indexes, committed in that order. *)
Definition bootstrap_utxos (s : S) (indexes : MemoryIndex.t) (g : Genesis) (custom_utxos : list CustomUtxo) :
    run (result ChainError (S * MemoryIndex.t)) :=
  let origin_delta := compute_origin_delta g in
  let w := apply_utxoset (start_writer s) origin_delta in
  origin_ops ← MemoryIndex.apply (Builder.index_delta_from_utxo_delta ChainPoint.Origin origin_delta);
  origin_ops ←? Ret (map_err ChainIndex origin_ops);
  let custom_delta := build_custom_utxos_delta custom_utxos in
  let w := apply_utxoset w custom_delta in
  custom_ops ← MemoryIndex.apply (Builder.index_delta_from_utxo_delta ChainPoint.Origin custom_delta);
  custom_ops ←? Ret (map_err ChainIndex custom_ops);
  Ret (Ok (commit w s, MemoryIndex.commit (origin_ops ++ custom_ops) indexes)).

(** [staking::bootstrap]: a writer that is not committed is dropped. *)
Definition write_pools (w : W) (pools : list (string * ConfigPool)) : run W :=
  run_foldl (fun w dto =>
    state ← parse_pool (snd dto);
    Ret (write_entity w (NS PoolState.t) (entity_key_from (PoolState.operator state)) (to_vec state))) w pools.

Definition write_delegations (g : Genesis) (w : W) (delegations : list (string * string)) : run W :=
  run_foldl (fun w x =>
    state ← parse_delegation (fst x) (snd x) g;
    Ret (write_entity w (NS AccountState.t) (entity_key_from (cbor_cred (AccountState.credential state))) (to_vec state)))
    w delegations.

Definition bootstrap_staking (s : S) (g : Genesis) : run S :=
  let w := start_writer s in
  match staking (shelley g) with
  | None => Ret s
  | Some staking =>
      match st_pools staking with
      | None => Ret s
      | Some pools =>
          w ← write_pools w pools;
          match st_stake staking with
          | None => Ret s
          | Some delegations =>
              w ← write_delegations g w delegations;
              Ret (commit w s)
          end
      end
  end.

Definition mark_applied (s : S) : S := commit (set_cursor (start_writer s) ChainPoint.Origin) s.

Definition execute (s : S) (indexes : MemoryIndex.t) (g : Genesis) (custom_utxos : list CustomUtxo) :
    run (result ChainError (S * MemoryIndex.t)) :=
  x ←? bootstrap_epoch s g;
  let '(s, epoch) := x in
  s ←? bootstrap_eras s epoch;
  s ←? bootstrap_gov s g;
  x ←? bootstrap_utxos s indexes g custom_utxos;
  let '(s, indexes) := x in
  s ←? lift (bootstrap_staking s g);
  Ret (Ok (mark_applied s, indexes)).

(** ** The work unit (genesis/work_unit.rs)

    One shard: the log is reset when the executor includes it, then the state
    is seeded. *)
Definition run_genesis {T D} `{!RedbTable T (LogValue.t D), !WalDelta D} (include_wal : bool) (wal : T) (s : S)
    (indexes : MemoryIndex.t) (g : Genesis) (custom_utxos : list CustomUtxo) :
    run (result ChainError (T * S * MemoryIndex.t)) :=
  let wal := if include_wal then Wal.reset_to wal ChainPoint.Origin else wal in
  x ←? execute s indexes g custom_utxos;
  Ret (Ok (wal, fst x, snd x)).

End bootstrap.
