(* ===== verification/Genesis.v ===== *)
(** * What genesis guarantees

    The store genesis leaves accounts for the whole supply, its filters list
    its UTxOs, and a genesis that was interrupted anywhere is repaired by
    running it again. *)

From S2P Require Import Prelude Lists Types ChainPoint EpochValue EntityDelta Eras PParams Forks Ratio Pots.
From S2P Require Import Accounts Pools DReps Epochs Proposals Hacks Gov StateStore Shards Indexes.
From S2P Require Import Blocks PallasExtras GenesisFiles Wal Roll IndexBuilder CardanoModel Codec Ewrap Commits EwrapDemo Estart Bootstrap.
Open Scope Z_scope.

Section tables.
Context {V : Type}.
Implicit Types (t : Tables V) (p q : list (Op V)).

Definition row_effect (nk : NsKey) (o : Op V) : option (option V) :=
  match o with
  | WriteEntity ns k v => if decide ((ns, k) = nk) then Some (Some v) else None
  | DeleteEntity ns k => if decide ((ns, k) = nk) then Some None else None
  | _ => None
  end.

Definition utxo_effect (r : TxoRef) (o : Op V) : option (option EraCbor) :=
  match o with
  | PutUtxo r' b => if decide (r' = r) then Some (Some b) else None
  | DeleteUtxo r' => if decide (r' = r) then Some None else None
  | _ => None
  end.

Definition cursor_effect (o : Op V) : option (option ChainPoint.t) :=
  match o with SetCursor p => Some (Some p) | _ => None end.

Lemma row_effects nk t o : entities (exec t o) !! nk = default (entities t !! nk) (row_effect nk o).
Proof.
  destruct o; cbn; try done; case_decide as E; cbn.
  - by rewrite E, lookup_insert_eq.
  - by rewrite lookup_insert_ne.
  - by rewrite E, lookup_delete_eq.
  - by rewrite lookup_delete_ne.
Qed.

Lemma utxo_effects r t o : utxos (exec t o) !! r = default (utxos t !! r) (utxo_effect r o).
Proof.
  destruct o; cbn; try done; case_decide as E; cbn.
  - by rewrite E, lookup_insert_eq.
  - by rewrite lookup_insert_ne.
  - by rewrite E, lookup_delete_eq.
  - by rewrite lookup_delete_ne.
Qed.

Lemma tables_replay t p q : exec_all (exec_all t p) (p ++ q) = exec_all t (p ++ q).
Proof.
  assert (Hc : cursor (exec_all (exec_all t p) (p ++ q)) = cursor (exec_all t (p ++ q))).
  { apply (view_replay exec cursor cursor_effect). by intros ? []. }
  assert (He : entities (exec_all (exec_all t p) (p ++ q)) = entities (exec_all t (p ++ q))).
  { apply map_eq. intros nk. apply (view_replay exec (fun t => entities t !! nk) (row_effect nk)). intros. apply row_effects. }
  assert (Hu : utxos (exec_all (exec_all t p) (p ++ q)) = utxos (exec_all t (p ++ q))).
  { apply map_eq. intros r. apply (view_replay exec (fun t => utxos t !! r) (utxo_effect r)). intros. apply utxo_effects. }
  destruct (exec_all (exec_all t p) (p ++ q)), (exec_all t (p ++ q)). cbn in *. by subst.
Qed.

End tables.

(** *** Indexes *)

Lemma bool_decide_eq_iff (P Q : Prop) `{!Decision P, !Decision Q} : bool_decide P = bool_decide Q -> (P <-> Q).
Proof. by repeat case_bool_decide. Qed.

Definition tag_effect (d : string) (k : bytes) (r : TxoRef) (o : MemoryIndex.Op) : option bool :=
  match o with
  | MemoryIndex.InsertUtxoTag d' k' r' => if decide ((d', k', r') = (d, k, r)) then Some true else None
  | MemoryIndex.RemoveUtxoTag d' k' r' => if decide ((d', k', r') = (d, k, r)) then Some false else None
  | _ => None
  end.

Definition archive_effect (x : string * bytes * BlockSlot) (o : MemoryIndex.Op) : option bool :=
  match o with
  | MemoryIndex.InsertArchiveTag tag => if decide (tag = x) then Some true else None
  | MemoryIndex.RemoveArchiveTag tag => if decide (tag = x) then Some false else None
  | _ => None
  end.

Definition exact_effect (kk : ExactKind * bytes) (o : MemoryIndex.Op) : option (option BlockSlot) :=
  match o with
  | MemoryIndex.InsertExact kind key slot => if decide ((kind, key) = kk) then Some (Some slot) else None
  | MemoryIndex.RemoveExact kind key => if decide ((kind, key) = kk) then Some None else None
  | _ => None
  end.

Definition index_cursor_effect (o : MemoryIndex.Op) : option (option ChainPoint.t) :=
  match o with MemoryIndex.SetCursor p => Some (Some p) | _ => None end.

Lemma tag_effects d k r i o :
  bool_decide (r ∈ MemoryIndex.utxos_by_tag (MemoryIndex.exec i o) d k) =
  default (bool_decide (r ∈ MemoryIndex.utxos_by_tag i d k)) (tag_effect d k r o).
Proof.
  destruct o; try done.
  - rewrite (bool_decide_ext _ _ (MemoryIndex.by_tag_InsertUtxoTag i d k r _ _ _)). cbn [tag_effect]. case_decide as E; cbn [default].
    + apply bool_decide_true. by left.
    + apply bool_decide_ext. naive_solver.
  - rewrite (bool_decide_ext _ _ (MemoryIndex.by_tag_RemoveUtxoTag i d k r _ _ _)). cbn [tag_effect]. case_decide as E; cbn [default].
    + apply bool_decide_false. naive_solver.
    + apply bool_decide_ext. naive_solver.
Qed.

Lemma remove_keeps {A} (f : MemoryIndex.t -> A) i d k r :
  (forall c u a x u', f (MemoryIndex.mk c u a x) = f (MemoryIndex.mk c u' a x)) ->
  f (MemoryIndex.exec i (MemoryIndex.RemoveUtxoTag d k r)) = f i.
Proof. intros Hf. cbn. destruct (MemoryIndex.utxo_tags i !! (d, k)); [|done]. destruct i. apply Hf. Qed.

Lemma archive_effects x i o :
  bool_decide (x ∈ MemoryIndex.archive_tags (MemoryIndex.exec i o)) =
  default (bool_decide (x ∈ MemoryIndex.archive_tags i)) (archive_effect x o).
Proof.
  destruct o; try done.
  - by rewrite (remove_keeps MemoryIndex.archive_tags).
  - cbn. case_decide as E; cbn; [apply bool_decide_true|apply bool_decide_ext]; set_solver.
  - cbn. case_decide as E; cbn; [apply bool_decide_false|apply bool_decide_ext]; set_solver.
Qed.

Lemma exact_effects kk i o :
  MemoryIndex.exact (MemoryIndex.exec i o) !! kk = default (MemoryIndex.exact i !! kk) (exact_effect kk o).
Proof.
  destruct o; try done.
  - by rewrite (remove_keeps MemoryIndex.exact).
  - cbn. case_decide as E; cbn; [by rewrite E, lookup_insert_eq|by rewrite lookup_insert_ne].
  - cbn. case_decide as E; cbn; [by rewrite E, lookup_delete_eq|by rewrite lookup_delete_ne].
Qed.

Lemma index_cursor_effects i o :
  MemoryIndex.cursor (MemoryIndex.exec i o) = default (MemoryIndex.cursor i) (index_cursor_effect o).
Proof. destruct o; try done. by rewrite (remove_keeps MemoryIndex.cursor). Qed.

Lemma index_replay i p q :
  MemoryIndex.tidy i -> MemoryIndex.commit (p ++ q) (MemoryIndex.commit p i) = MemoryIndex.commit (p ++ q) i.
Proof.
  intros Ht. set (a := MemoryIndex.commit (p ++ q) (MemoryIndex.commit p i)). set (b := MemoryIndex.commit (p ++ q) i).
  assert (MemoryIndex.cursor a = MemoryIndex.cursor b) as Hc.
  { exact (view_replay MemoryIndex.exec MemoryIndex.cursor index_cursor_effect index_cursor_effects i p q). }
  assert (MemoryIndex.utxo_tags a = MemoryIndex.utxo_tags b) as Hu.
  { apply MemoryIndex.tidy_ext; [by do 2 apply MemoryIndex.tidy_commit|by apply MemoryIndex.tidy_commit|].
    intros d k r.
    refine (bool_decide_eq_iff (r ∈ MemoryIndex.utxos_by_tag a d k) (r ∈ MemoryIndex.utxos_by_tag b d k) _). exact (view_replay MemoryIndex.exec _ (tag_effect d k r) (tag_effects d k r) i p q). }
  assert (MemoryIndex.archive_tags a = MemoryIndex.archive_tags b) as Ha.
  { apply set_eq. intros x.
    refine (bool_decide_eq_iff (x ∈ MemoryIndex.archive_tags a) (x ∈ MemoryIndex.archive_tags b) _). exact (view_replay MemoryIndex.exec _ (archive_effect x) (archive_effects x) i p q). }
  assert (MemoryIndex.exact a = MemoryIndex.exact b) as He.
  { apply map_eq. intros kk. exact (view_replay MemoryIndex.exec _ (exact_effect kk) (exact_effects kk) i p q). }
  destruct a, b. cbn in *. by subst.
Qed.

(** ** The commits of genesis, one by one *)

Section steps.
Context {V S W : Type} `{!EntityCbor V, !StateStore V S W, BuildCfg, Pallas, GenesisUtxos, Addresses, Views, Xxh3}.
Variables (g : Genesis) (custom_utxos : list CustomUtxo).

Abbreviation Stores := (S * MemoryIndex.t)%type (only parsing).
Abbreviation Step := (Stores -> run (result ChainError Stores)) (only parsing).

Definition step_epoch : Step := fun d =>
  x ←? bootstrap_epoch (fst d) g; Ret (Ok (fst x, snd d)).
Definition step_eras : Step := fun d =>
  epoch ←? genesis_epoch g; s ←? bootstrap_eras (fst d) epoch; Ret (Ok (s, snd d)).
Definition step_gov : Step := fun d =>
  s ←? bootstrap_gov (fst d) g; Ret (Ok (s, snd d)).
Definition step_utxos : Step := fun d =>
  x ←? bootstrap_utxos (fst d) (snd d) g custom_utxos; Ret (Ok (fst x, snd d)).
Definition step_indexes : Step := fun d =>
  x ←? bootstrap_utxos (fst d) (snd d) g custom_utxos; Ret (Ok (fst d, snd x)).
Definition step_staking : Step := fun d =>
  s ←? lift (bootstrap_staking (fst d) g); Ret (Ok (s, snd d)).
Definition step_cursor : Step := fun d => Ret (Ok (mark_applied (fst d), snd d)).

(** What a genesis that stops after some of its commits has run. *)
Definition genesis_steps : list Step :=
  [step_epoch; step_eras; step_gov; step_utxos; step_indexes; step_staking; step_cursor].

Definition run_steps (d : Stores) (l : list Step) : run (result ChainError Stores) := for_each (fun d f => f d) d l.

Lemma run_steps_app d l1 l2 : run_steps d (l1 ++ l2) = (d' ←? run_steps d l1; run_steps d' l2).
Proof. apply for_each_app. Qed.

Lemma utxos_index s indexes s' indexes' :
  bootstrap_utxos s indexes g custom_utxos = Ret (Ok (s', indexes')) ->
  forall s1, exists s1', bootstrap_utxos s1 indexes g custom_utxos = Ret (Ok (s1', indexes')).
Proof.
  unfold bootstrap_utxos. intros Hb s1. apply bind_Ret in Hb as (o1 & -> & Hb). cbn [mbind run_bind].
  destruct o1 as [o1|]; [|done]. cbn [map_err rbind] in *. apply bind_Ret in Hb as (o2 & -> & Hb). cbn [mbind run_bind].
  destruct o2 as [o2|]; [|done]. cbn [map_err rbind] in *. apply Ret_inj in Hb. injection Hb as _ <-. eauto.
Qed.

(** The steps are the whole of it. *)
Lemma execute_steps d r :
  execute (fst d) (snd d) g custom_utxos = Ret (Ok r) <-> run_steps d genesis_steps = Ret (Ok r).
Proof.
  destruct d as [s i]. cbn [fst snd]. unfold execute, run_steps, genesis_steps, bootstrap_epoch. cbn [for_each].
  unfold step_epoch at 1, bootstrap_epoch. cbn [fst snd]. destruct (genesis_epoch g) as [[epoch|]|] eqn:Hg; cbn [rbind fst snd]; try done.
  unfold step_eras at 1. rewrite Hg. cbn [rbind fst snd]. destruct (bootstrap_eras _ epoch) as [[s2|]|]; cbn [rbind]; try done.
  unfold step_gov at 1. cbn [fst snd]. destruct (bootstrap_gov s2 g) as [[s3|]|]; cbn [rbind]; try done.
  unfold step_utxos at 1. cbn [fst snd]. destruct (bootstrap_utxos s3 i g custom_utxos) as [[[s4 i4]|]|] eqn:Hu; cbn [rbind fst snd]; try done.
  unfold step_indexes at 1. cbn [fst snd]. destruct (utxos_index _ _ _ _ Hu s4) as (s4' & ->). cbn [rbind fst snd].
  unfold step_staking at 1. cbn [fst snd]. destruct (lift (E := ChainError) (bootstrap_staking s4 g)) as [[s5|]|]; cbn [rbind]; done.
Qed.

(** *** Every commit writes the same log whatever the store holds *)

Definition writes (f : Step) (ops : list (Op V)) (iops : list MemoryIndex.Op) : Prop :=
  forall d, exists d', f d = Ret (Ok d') /\ tables (fst d') = exec_all (tables (fst d)) ops /\
    snd d' = MemoryIndex.commit iops (snd d).

(** The step of a computation that does not look at the store. *)
Definition uniform (f : Step) : Prop := forall d d', f d = Ret (Ok d') -> exists ops iops, writes f ops iops.

Lemma write_one_tables (T : Type) `{!Entity T, !Minicbor T V} (s : S) key (x : T) :
  tables (write_one T s key x) = exec_all (tables s) [WriteEntity (NS T) key (to_vec x)].
Proof. unfold write_one. by rewrite commit_spec, write_entity_spec, start_writer_spec. Qed.

Lemma uniform_epoch : uniform step_epoch.
Proof.
  intros d d' Hf. unfold step_epoch, bootstrap_epoch in Hf. apply rbind_Ret in Hf as (x & Hf & _). apply rbind_Ret in Hf as (e & He & _).
  exists [WriteEntity (NS EpochState.t) (snd EpochState.ns_key) (to_vec e)], []. intros [s i].
  unfold step_epoch, bootstrap_epoch. rewrite He. cbn [rbind fst snd]. eexists. split; [done|]. split; [apply write_one_tables|done].
Qed.

Lemma uniform_eras : uniform step_eras.
Proof.
  intros d d' Hf. unfold step_eras, bootstrap_eras in Hf. apply rbind_Ret in Hf as (e & He & Hf). apply rbind_Ret in Hf as (s & Hf & _).
  apply rbind_Ret in Hf as (era & Hera & _).
  exists [WriteEntity (NS EraSummary.t) (era_protocol_key (EraSummary.protocol era)) (to_vec era)], []. intros [s0 i].
  unfold step_eras, bootstrap_eras. rewrite He. cbn [rbind fst snd]. rewrite Hera. cbn [rbind]. eexists. split; [done|].
  split; [apply write_one_tables|done].
Qed.

Lemma uniform_gov : uniform step_gov.
Proof.
  intros d d' Hf. unfold step_gov, bootstrap_gov in Hf. apply rbind_Ret in Hf as (s & Hf & _). apply rbind_Ret in Hf as (gov & Hg & _).
  exists [WriteEntity (NS GovState.t) (snd GovState.ns_key) (to_vec gov)], []. intros [s0 i].
  unfold step_gov, bootstrap_gov. rewrite Hg. cbn [rbind fst snd]. eexists. split; [done|]. split; [apply write_one_tables|done].
Qed.

(** The log of the UTxOs, and the index operations that go with it. *)
Lemma utxos_writes d x :
  bootstrap_utxos (fst d) (snd d) g custom_utxos = Ret (Ok x) ->
  exists iops, forall s i, exists s', bootstrap_utxos s i g custom_utxos = Ret (Ok (s', MemoryIndex.commit iops i)) /\
    tables s' = exec_all (tables s) (utxoset_ops (compute_origin_delta g) ++ utxoset_ops (build_custom_utxos_delta custom_utxos)).
Proof.
  unfold bootstrap_utxos. intros Hb. apply bind_Ret in Hb as (o1 & H1' & Hb). destruct o1 as [o1|]; [|done].
  cbn [map_err rbind] in Hb. apply bind_Ret in Hb as (o2 & H2' & Hb). destruct o2 as [o2|]; [|done]. exists (o1 ++ o2).
  intros s i. rewrite H1'. cbn [mbind run_bind map_err rbind]. rewrite H2'. cbn [mbind run_bind map_err rbind].
  eexists. split; [done|]. by rewrite commit_spec, !apply_utxoset_spec, start_writer_spec.
Qed.

Lemma uniform_utxos : uniform step_utxos.
Proof.
  intros d d' Hf. unfold step_utxos in Hf. apply rbind_Ret in Hf as (x & Hx & _). apply utxos_writes in Hx as (iops & Hw).
  eexists _, []. intros [s i]. destruct (Hw s i) as (s' & E & Ht). unfold step_utxos. cbn [fst snd]. rewrite E. cbn [rbind fst].
  eexists. split; [done|]. split; [exact Ht|done].
Qed.

Lemma uniform_indexes : uniform step_indexes.
Proof.
  intros d d' Hf. unfold step_indexes in Hf. apply rbind_Ret in Hf as (x & Hx & _). apply utxos_writes in Hx as (iops & Hw).
  exists [], iops. intros [s i]. destruct (Hw s i) as (s' & E & _). unfold step_indexes. cbn [fst snd]. rewrite E. cbn [rbind snd].
  eexists. split; [done|]. done.
Qed.

Lemma uniform_cursor : uniform step_cursor.
Proof.
  intros d d' _. exists [SetCursor ChainPoint.Origin], []. intros [s i]. eexists. split; [done|]. split; [|done].
  unfold mark_applied. cbn [fst]. by rewrite commit_spec, set_cursor_spec, start_writer_spec.
Qed.

(** What a writer gets that does not depend on what it holds. *)
Definition appends (m : W -> run W) (ops : list (Op V)) : Prop :=
  forall w, exists w', m w = Ret w' /\ pending w' = pending w ++ ops.

Lemma appends_foldl {A} (f : W -> A -> run W) l :
  (forall x w w', f w x = Ret w' -> exists ops, appends (fun w => f w x) ops) ->
  forall w w', run_foldl f w l = Ret w' -> exists ops, appends (fun w => run_foldl f w l) ops.
Proof.
  intros Hf. induction l as [|x l IH]; intros w w' Hr.
  { exists []. intros w0. exists w0. by rewrite app_nil_r. }
  cbn [run_foldl] in Hr. apply bind_Ret in Hr as (w1 & H1' & Hr). destruct (Hf _ _ _ H1') as (o1 & Ho1).
  destruct (IH _ _ Hr) as (o2 & Ho2). exists (o1 ++ o2). intros w0. destruct (Ho1 w0) as (w2 & E2 & P2).
  destruct (Ho2 w2) as (w3 & E3 & P3). exists w3. cbn [run_foldl]. rewrite E2. cbn [mbind run_bind].
  split; [done|]. by rewrite P3, P2, app_assoc.
Qed.

Lemma appends_pools pools w w' : write_pools w pools = Ret w' -> exists ops, appends (fun w => write_pools w pools) ops.
Proof.
  apply appends_foldl. intros x w0 w1 Hx. apply bind_Ret in Hx as (p & Hp & _). eexists. intros w2. rewrite Hp. cbn [mbind run_bind].
  eexists. split; [done|]. apply write_entity_spec.
Qed.

Lemma appends_delegations l w w' : write_delegations g w l = Ret w' -> exists ops, appends (fun w => write_delegations g w l) ops.
Proof.
  apply appends_foldl. intros x w0 w1 Hx. apply bind_Ret in Hx as (p & Hp & _). eexists. intros w2. rewrite Hp. cbn [mbind run_bind].
  eexists. split; [done|]. apply write_entity_spec.
Qed.

Lemma uniform_staking : uniform step_staking.
Proof.
  assert (Hskip : forall m : S -> run S, (forall s, m s = Ret s) ->
    exists ops iops, writes (fun d => s ←? lift (m (fst d)); Ret (Ok (s, snd d))) ops iops).
  { intros m Hm. exists [], []. intros [s i]. cbn [fst snd]. rewrite Hm. eexists. split; [done|]. done. }
  intros d d' Hf. unfold step_staking in Hf |- *. apply rbind_Ret in Hf as (s' & Hf & _). unfold lift in Hf.
  apply bind_Ret in Hf as (s1 & Hf & _). unfold bootstrap_staking in Hf |- *.
  destruct (staking (shelley g)) as [st|]; [|by apply Hskip]. destruct (st_pools st) as [pools|]; [|by apply Hskip].
  apply bind_Ret in Hf as (w1 & Hp & Hf). apply appends_pools in Hp as (o1 & Ho1).
  destruct (st_stake st) as [delegations|].
  - apply bind_Ret in Hf as (w2 & Hd & _). apply appends_delegations in Hd as (o2 & Ho2). exists (o1 ++ o2), [].
    intros [s i]. cbn [fst snd]. destruct (Ho1 (start_writer s)) as (w3 & E3 & P3). rewrite E3. cbn [mbind run_bind].
    destruct (Ho2 w3) as (w4 & E4 & P4). rewrite E4. cbn [mbind run_bind lift rbind]. eexists. split; [done|]. split; [|done].
    cbn [fst]. by rewrite commit_spec, P4, P3, start_writer_spec.
  - apply (Hskip (fun s => w ← write_pools (start_writer s) pools; Ret s)). intros s.
    destruct (Ho1 (start_writer s)) as (w3 & -> & _). done.
Qed.

Lemma uniform_steps : Forall uniform genesis_steps.
Proof.
  repeat constructor; [apply uniform_epoch|apply uniform_eras|apply uniform_gov|apply uniform_utxos|apply uniform_indexes|
    apply uniform_staking|apply uniform_cursor].
Qed.

Lemma uniform_list l d d' :
  Forall uniform l -> run_steps d l = Ret (Ok d') -> exists ops iops, writes (fun d => run_steps d l) ops iops.
Proof.
  intros Hl. revert d. induction Hl as [|f l Hf _ IH]; intros d Hr.
  { exists [], []. intros d0. exists d0. done. }
  unfold run_steps in Hr. cbn [for_each] in Hr. apply rbind_Ret in Hr as (d1 & H1' & Hr).
  destruct (Hf _ _ H1') as (o1 & i1 & Hw1). destruct (IH _ Hr) as (o2 & i2 & Hw2). exists (o1 ++ o2), (i1 ++ i2).
  intros d0. destruct (Hw1 d0) as (d2 & E2 & T2 & I2). destruct (Hw2 d2) as (d3 & E3 & T3 & I3).
  exists d3. unfold run_steps in *. cbn [for_each]. rewrite E2. cbn [rbind]. split; [done|]. split.
  - by rewrite T3, T2, exec_all_app.
  - by rewrite I3, I2, MemoryIndex.commit_app.
Qed.

(** C13: a genesis that stops after any of its commits is repaired by running it
    again: the second run succeeds where the uninterrupted one does, and
    leaves the same entities, UTxOs, cursor and indexes. *)
Theorem genesis_restarts (n : nat) (d d' r : S * MemoryIndex.t) :
  MemoryIndex.tidy (snd d) -> execute (fst d) (snd d) g custom_utxos = Ret (Ok r) ->
  run_steps d (take n genesis_steps) = Ret (Ok d') ->
  exists r', execute (fst d') (snd d') g custom_utxos = Ret (Ok r') /\
    tables (fst r') = tables (fst r) /\ snd r' = snd r.
Proof.
  intros Ht He Hp. apply execute_steps in He. pose proof uniform_steps as Hu. rewrite <- (take_drop n genesis_steps) in He, Hu.
  apply Forall_app in Hu as [Hu1 Hu2]. rewrite run_steps_app, Hp in He. cbn [rbind] in He.
  destruct (uniform_list _ _ _ Hu1 Hp) as (o1 & i1 & Hw1). destruct (uniform_list _ _ _ Hu2 He) as (o2 & i2 & Hw2).
  assert (Hw : writes (fun d => run_steps d genesis_steps) (o1 ++ o2) (i1 ++ i2)).
  { intros d0. rewrite <- (take_drop n genesis_steps), run_steps_app. destruct (Hw1 d0) as (d1 & -> & T1 & I1).
    destruct (Hw2 d1) as (d2 & E2 & T2 & I2). exists d2. cbn [rbind]. split; [done|].
    by rewrite T2, T1, exec_all_app, I2, I1, MemoryIndex.commit_app. }
  destruct (Hw1 d) as (d1 & E1 & T1 & I1). rewrite Hp in E1. apply Ret_inj in E1. injection E1 as <-.
  destruct (Hw2 d') as (r0 & E2 & T2 & I2). rewrite He in E2. apply Ret_inj in E2. injection E2 as <-.
  destruct (Hw d') as (r' & E & T & I). exists r'. split; [by apply execute_steps|]. split.
  - rewrite T, T2, T1, tables_replay. apply exec_all_app.
  - rewrite I, I2, I1, index_replay by done. apply MemoryIndex.commit_app.
Qed.

(** ** The store genesis leaves *)

Lemma sum_amounts_spec l :
  Forall (fun x => is_u64 x.2) l -> Zsum snd l < 2 ^ 64 -> sum_amounts l = Ret (Zsum snd l).
Proof.
  intros Ha Hs. unfold sum_amounts. enough (forall t, 0 ≤ t -> t + Zsum snd l < 2 ^ 64 ->
    run_foldl (fun acc x => uadd 64 acc x.2) t l = Ret (t + Zsum snd l)) as E by (apply E; lia). clear Hs.
  induction Ha as [|x l Hx Ha IH]; intros t Ht Hs; cbn [run_foldl]; [cbn; f_equal; lia|].
  rewrite Zsum_cons in Hs |- *. assert (0 ≤ Zsum snd l).
  { apply Zsum_nonneg. rewrite Forall_forall in Ha. intros y Hy. by destruct (Ha y Hy). }
  destruct Hx as [Hx0 Hx1]. rewrite uadd_exact by (unfold is_u; lia). cbn [mbind run_bind]. rewrite IH by lia. f_equal. lia.
Qed.

Lemma genesis_epoch_pots e max :
  genesis_epoch g = Ret (Ok e) -> max_lovelace_supply (shelley g) = Some max -> is_u64 max ->
  Forall (fun x => is_u64 x.2) (origin_outputs g) -> Zsum snd (origin_outputs g) ≤ max ->
  EpochState.number e = 0 /\ Pots.supply (EpochState.initial_pots e) = max /\
  Pots.utxos (EpochState.initial_pots e) = Zsum snd (origin_outputs g).
Proof.
  intros He Hm [Hm0 Hm1] Ha Hs. unfold genesis_epoch in He. apply bind_Ret in He as (p & _ & He).
  apply bind_Ret in He as ([p' nonces] & _ & He). apply rbind_Ret in He as (pots & Hp & He).
  apply rbind_Ret in He as (? & _ & He). apply bind_Ret in He as (? & _ & He). apply bind_Ret in He as (? & _ & He).
  apply bind_Ret in He as (? & _ & He). apply Ret_inj in He. injection He as <-. cbn [EpochState.number EpochState.initial_pots].
  unfold bootstrap_pots, get_utxo_amount in Hp. unfold origin_outputs in *. pose proof Ha as Ha'. apply Forall_app in Ha' as [Hb Hsh].
  rewrite Zsum_app in *.
  assert (Hnn : forall l : list (TxHash * bytes * Z), Forall (fun x => is_u64 x.2) l -> 0 ≤ Zsum snd l).
  { intros l Hl. apply Zsum_nonneg. rewrite Forall_forall in Hl. intros y Hy. by destruct (Hl y Hy). }
  pose proof (Hnn _ Hb). pose proof (Hnn _ Hsh). rewrite !sum_amounts_spec in Hp by (done || lia). cbn [mbind run_bind] in Hp.
  rewrite uadd_exact, Hm in Hp by (unfold is_u; lia). cbn [mbind run_bind] in Hp. rewrite usub_exact in Hp by (unfold is_u; lia).
  cbn [mbind run_bind] in Hp. apply bind_Ret in Hp as (? & _ & Hp). apply bind_Ret in Hp as (? & _ & Hp). apply Ret_inj in Hp.
  injection Hp as <-. unfold Pots.supply. cbn. lia.
Qed.

(** Staking writes pools and accounts only. *)
Lemma staking_frame s s' :
  bootstrap_staking s g = Ret s' ->
  rest_of (tables s') = rest_of (tables s) /\
  forall nk, fst nk ≠ NS PoolState.t -> fst nk ≠ NS AccountState.t -> entities (tables s') !! nk = entities (tables s) !! nk.
Proof.
  unfold bootstrap_staking. intros Hs. destruct (staking (shelley g)) as [st|]; [|by apply Ret_inj in Hs as <-].
  destruct (st_pools st) as [pools|]; [|by apply Ret_inj in Hs as <-]. apply bind_Ret in Hs as (w1 & Hp & Hs).
  destruct (st_stake st) as [l|]; [|by apply Ret_inj in Hs as <-]. apply bind_Ret in Hs as (w2 & Hd & Hs). apply Ret_inj in Hs as <-.
  assert (Hloop : forall (A T : Type) `{!Entity T, !Minicbor T V} (parse : A -> run T) (key : T -> EntityKey) l w w',
    run_foldl (fun w x => state ← parse x; Ret (write_entity w (NS T) (key state) (to_vec state))) w l = Ret w' ->
    rest_of (after w' s) = rest_of (after w s) /\ forall nk, fst nk ≠ NS T -> seen w' s nk = seen w s nk).
  { intros A T ? ? parse key l0. induction l0 as [|x l0 IH]; intros w w' Hr; cbn [run_foldl] in Hr; [by apply Ret_inj in Hr as <-|].
    apply bind_Ret in Hr as (w3 & Hx & Hr). apply bind_Ret in Hx as (state & _ & Hx). apply Ret_inj in Hx as <-.
    destruct (IH _ _ Hr) as [-> Hseen]. rewrite rest_write. split; [done|]. intros nk Hn. rewrite Hseen, seen_write, decide_False; [done|by intros <-|done]. }
  apply (Hloop _ _ _ _ (fun dto => parse_pool (snd dto)) (fun p => entity_key_from (PoolState.operator p))) in Hp as [Hr1 Hs1].
  apply (Hloop _ _ _ _ (fun x => parse_delegation (fst x) (snd x) g) (fun a => entity_key_from (cbor_cred (AccountState.credential a)))) in Hd as [Hr2 Hs2].
  split.
  - rewrite commit_spec. fold (after w2 s). by rewrite Hr2, Hr1, rest_start.
  - intros nk Hn1 Hn2. by rewrite seen_commit, Hs2, Hs1, seen_start.
Qed.

(** The UTxOs and the filters after the outputs of the origin. *)
Lemma bootstrap_utxos_spec s i s' i' :
  bootstrap_utxos s i g custom_utxos = Ret (Ok (s', i')) -> utxos (tables s) = ∅ -> coherent i ∅ ->
  UtxoSetDelta.produced_utxo (build_custom_utxos_delta custom_utxos) ##ₘ UtxoSetDelta.produced_utxo (compute_origin_delta g) ->
  cursor (tables s') = cursor (tables s) /\ entities (tables s') = entities (tables s) /\
  utxos (tables s') = UtxoSetDelta.produced_utxo (build_custom_utxos_delta custom_utxos) ∪
    UtxoSetDelta.produced_utxo (compute_origin_delta g) /\
  coherent i' (utxos (tables s')).
Proof.
  intros Hb Hu Hi Hd. set (o := compute_origin_delta g) in *. set (c := build_custom_utxos_delta custom_utxos) in *.
  assert (Ho : applies ∅ [o]).
  { cbn. conj_split; try done; [apply map_disjoint_empty_r|apply map_empty_subseteq]. }
  destruct (delta_coherent i ∅ o ChainPoint.Origin Hi Ho) as (o1 & E1 & _ & Hc1).
  assert (Hs1 : utxo_step o ∅ = UtxoSetDelta.produced_utxo o).
  { unfold utxo_step. cbn. by rewrite !map_difference_empty, (left_id_L ∅ (∪)), (right_id_L ∅ (∪)). }
  rewrite Hs1 in Hc1. assert (Hc : applies (UtxoSetDelta.produced_utxo o) [c]).
  { cbn [applies]. conj_split; try done. apply map_empty_subseteq. }
  destruct (delta_coherent _ _ c ChainPoint.Origin Hc1 Hc) as (o2 & E2 & _ & Hc2).
  unfold bootstrap_utxos in Hb. fold o c in Hb. rewrite E1 in Hb. cbn [mbind run_bind map_err rbind] in Hb.
  rewrite E2 in Hb. cbn [mbind run_bind map_err rbind] in Hb. apply Ret_inj in Hb. injection Hb as <- <-.
  rewrite commit_spec, !apply_utxoset_spec, start_writer_spec, exec_all_app. cbn [app]. rewrite !exec_utxoset. cbn [cursor entities utxos].
  rewrite Hu. subst o c. cbn [UtxoSetDelta.produced_utxo UtxoSetDelta.consumed_utxo UtxoSetDelta.recovered_stxi UtxoSetDelta.undone_utxo
    compute_origin_delta build_custom_utxos_delta] in *.
  rewrite !map_difference_empty, !(left_id_L ∅ (∪)), (right_id_L ∅ (∪)). split; [done|]. split; [done|]. split; [done|].
  rewrite MemoryIndex.commit_app. unfold utxo_step in Hc2. cbn in Hc2. by rewrite !map_difference_empty, (left_id_L ∅ (∪)) in Hc2.
Qed.

Lemma coins_union (a b : UtxoMap) : a ##ₘ b -> coins (a ∪ b) = coins a + coins b.
Proof.
  intros Hd. rewrite (coins_split (a ∪ b) b) by (by apply map_union_subseteq_r).
  replace ((a ∪ b) ∖ b) with a; [lia|]. symmetry.
  apply map_eq. intros r. rewrite lookup_difference, lookup_union. pose proof (map_disjoint_spec a b) as [Hs _].
  specialize (Hs Hd r). destruct (a !! r), (b !! r); try done. by destruct (Hs _ _ eq_refl eq_refl).
Qed.

(** C12: the store genesis leaves accounts for the whole supply: the pots of the
    first epoch add up to the maximal supply, their UTxO pot is what the
    outputs of the genesis files hold, and the UTxO set holds that and the
    configured outputs, which no pot counts; the filters list exactly the set, the epoch,
    the era and the governance singleton are there, and the cursor is at the
    origin. *)
Theorem genesis_state (s s' : S) (i i' : MemoryIndex.t) max :
  execute s i g custom_utxos = Ret (Ok (s', i')) ->
  utxos (tables s) = ∅ -> coherent i ∅ ->
  max_lovelace_supply (shelley g) = Some max -> is_u64 max ->
  Forall (fun x => is_u64 x.2) (origin_outputs g) -> Zsum snd (origin_outputs g) ≤ max ->
  NoDup ((fun x : TxHash * bytes * Z => (x.1.1, 0)) <$> origin_outputs g) ->
  UtxoSetDelta.produced_utxo (build_custom_utxos_delta custom_utxos) ##ₘ UtxoSetDelta.produced_utxo (compute_origin_delta g) ->
  exists e gov era, load_epoch s' = Ret (Ok e) /\ load_gov s' = Ret (Ok gov) /\
    genesis_gov g = Ok gov /\ genesis_era e = Ret (Ok era) /\
    read_typed EraSummary.t s' (era_protocol_key (EraSummary.protocol era)) = Ret (Ok (Some era)) /\
    read_cursor s' = Some ChainPoint.Origin /\ EpochState.number e = 0 /\
    Pots.supply (EpochState.initial_pots e) = max /\
    Pots.utxos (EpochState.initial_pots e) = coins (UtxoSetDelta.produced_utxo (compute_origin_delta g)) /\
    coins (utxos (tables s')) = Pots.utxos (EpochState.initial_pots e) +
      coins (UtxoSetDelta.produced_utxo (build_custom_utxos_delta custom_utxos)) /\
    coherent i' (utxos (tables s')).
Proof.
  intros He Hu Hi Hm Hmax Ha Hs Hn Hd. unfold execute in He. apply rbind_Ret in He as ([s1 e] & H1' & He).
  apply rbind_Ret in H1' as (e0 & Hge & H1'). apply Ret_inj in H1'. injection H1' as <- <-.
  apply rbind_Ret in He as (s2 & H2' & He). apply rbind_Ret in H2' as (era & Hera & H2'). apply Ret_inj in H2'. injection H2' as <-.
  apply rbind_Ret in He as (s3 & H3' & He). unfold bootstrap_gov in H3'.
  destruct (genesis_gov g) as [gov|] eqn:Hgov; [|done]. apply Ret_inj in H3'.
  injection H3' as <-. apply rbind_Ret in He as ([s4 i4] & H4' & He). apply rbind_Ret in He as (s5 & H5' & He).
  apply bind_Ret in H5' as (s5' & H5' & E). apply Ret_inj in E. injection E as ->. apply Ret_inj in He. injection He as <- <-.
  apply bootstrap_utxos_spec in H4' as (_ & Hen4 & Hu4 & Hc4); [|by rewrite !write_one_tables|done|done].
  apply staking_frame in H5' as [Hr5 Hen5]. pose proof (f_equal snd Hr5 : utxos (tables s5) = utxos (tables s4)) as Hu5.
  destruct (genesis_epoch_pots e0 max Hge Hm Hmax Ha Hs) as (Hnum & Hsup & Hpot). pose proof (origin_coins g Ha Hn) as Hco.
  assert (Ht : tables (mark_applied s5) = mkTables (Some ChainPoint.Origin) (entities (tables s5)) (utxos (tables s5))).
  { unfold mark_applied. by rewrite commit_spec, set_cursor_spec, start_writer_spec. }
  rewrite !write_one_tables in Hen4. cbn in Hen4. exists e0, gov, era. rewrite read_cursor_spec, Ht. cbn [utxos cursor].
  rewrite Hu5, Hu4, coins_union, Hpot, Hco by done. conj_split; try done; [| | |lia|by rewrite <- Hu4].
  - apply load_epoch_seen. exists (to_vec e0). split; [|apply decode_to_vec]. rewrite Ht. cbn [entities].
    rewrite Hen5, Hen4 by done. rewrite lookup_insert_ne by (by apply gov_key_epoch).
    rewrite lookup_insert_ne by (intros E; by apply (f_equal fst) in E). by rewrite lookup_insert_eq.
  - unfold load_gov. rewrite read_typed_spec, Ht. cbn [entities]. rewrite Hen5, Hen4 by done. rewrite lookup_insert_eq, decode_to_vec. done.
  - rewrite read_typed_spec, Ht. cbn [entities]. rewrite Hen5, Hen4 by done.
    rewrite lookup_insert_ne by (intros E; by apply (f_equal fst) in E). by rewrite lookup_insert_eq, decode_to_vec.
Qed.

End steps.

(** ** A small genesis, run

    One output in each distribution, a configured output, a pool and a
    delegation to it. *)
Module GenesisDemo.

#[export] Existing Instances Memory.store cfg_debug demo_pallas demo_cbor.
#[export] Existing Instances IndexDemo.addresses IndexDemo.views IndexDemo.xxh3.

#[export] Instance genesis_files : GenesisUtxos :=
  demo_genesis_utxos [] [(replicate 32 1, [7], 600)] [(replicate 32 2, [8], 400)].

#[local] Instance eta_shelley : Eta ShelleyGenesis := fun r =>
  Build_ShelleyGenesis (system_start r)
    (g_epoch_length r) (g_slot_length r) (g_protocol_version r) (max_block_body_size r) (max_tx_size r)
    (max_block_header_size r) (key_deposit r) (min_utxo_value r) (min_fee_a r) (min_fee_b r) (pool_deposit r)
    (n_opt r) (min_pool_cost r) (g_rho r) (g_tau r) (e_max r) (g_a0 r) (decentralisation_param r) (extra_entropy r)
    (active_slots_coeff r) (max_lovelace_supply r) (initial_funds r) (staking r)
    (shelley_network_magic r) (shelley_network_id r).
#[local] Instance eta_genesis : Eta Genesis := fun r =>
  Build_Genesis (byron r) (shelley r) (alonzo r) (conway r) (shelley_hash r) (force_protocol r).

Definition pool_id : string := "0a0a0a0a0a0a0a0a0a0a0a0a0a0a0a0a0a0a0a0a0a0a0a0a0a0a0a0a".
Definition account_id : string := "0b0b0b0b0b0b0b0b0b0b0b0b0b0b0b0b0b0b0b0b0b0b0b0b0b0b0b0b".

Definition pool : ConfigPool := {|
  cfg_public_key := pool_id;
  cfg_vrf := "0c0c0c0c0c0c0c0c0c0c0c0c0c0c0c0c0c0c0c0c0c0c0c0c0c0c0c0c0c0c0c0c";
  cfg_pledge := 10; cfg_cost := 5; cfg_margin := Build_RationalNumber 1 10;
  cfg_reward_account := {| ra_network := "Testnet"; ra_credential := ConfigKeyHash account_id |} |}.

Definition genesis : Genesis :=
  demo_genesis <| shelley := (shelley demo_genesis)
    <| staking := Some {| st_pools := Some [(pool_id, pool)]; st_stake := Some [(account_id, pool_id)] |} |> |>.

Definition custom : list CustomUtxo := [ {| cu_ref := (replicate 32 3, 1); cu_era := None; cu_cbor := [50] |} ].

Definition init : Tables CardanoEntity.t * MemoryIndex.t := (mkTables None ∅ ∅, MemoryIndex.empty).

Definition whole := execute (fst init) (snd init) genesis custom.
Definition part := run_steps init (take 4 (genesis_steps genesis custom)).

Lemma whole_succeeds : succeeds_with whole = true.
Proof. by vm_compute. Qed.

Lemma part_succeeds : succeeds_with part = true.
Proof. by vm_compute. Qed.

Definition seeded := the whole whole_succeeds.
Definition interrupted := the part part_succeeds.

Lemma empty_tidy : MemoryIndex.tidy MemoryIndex.empty.
Proof. intros dk refs E. cbn in E. by rewrite lookup_empty in E. Qed.

Lemma empty_coherent : coherent MemoryIndex.empty ∅.
Proof.
  intros d k r. unfold MemoryIndex.utxos_by_tag, tagged. cbn. rewrite lookup_empty. cbn. split.
  - intros Hr. by apply elem_of_empty in Hr.
  - intros (body & tags & Hb & _). by rewrite lookup_empty in Hb.
Qed.

(** Stopped after the UTxOs of the state and before their filters. *)
Lemma genesis_restarts_witness :
  read_cursor (fst interrupted) = None /\
  exists r, execute (fst interrupted) (snd interrupted) genesis custom = Ret (Ok r) /\
    tables (fst r) = tables (fst seeded) /\ snd r = snd seeded.
Proof.
  split; [vm_compute; reflexivity|].
  apply (genesis_restarts genesis custom 4 init interrupted seeded).
  - exact empty_tidy.
  - exact (the_spec whole whole_succeeds).
  - exact (the_spec part part_succeeds).
Defined.

Lemma genesis_state_witness :
  read_cursor (fst seeded) = Some ChainPoint.Origin /\ coherent (snd seeded) (utxos (tables (fst seeded))) /\
  exists e, load_epoch (fst seeded) = Ret (Ok e) /\ Pots.supply (EpochState.initial_pots e) = 45000000000000000 /\
    Pots.utxos (EpochState.initial_pots e) = 1000 /\ coins (utxos (tables (fst seeded))) = 1050.
Proof.
  destruct (genesis_state genesis custom (fst init) (fst seeded) (snd init) (snd seeded) 45000000000000000)
    as (e & gov & era & He & _ & _ & _ & _ & Hc & _ & Hs & Hu & Hco & Hi).
  - assert (seeded = (fst seeded, snd seeded)) as <- by (by destruct seeded). exact (the_spec whole whole_succeeds).
  - vm_compute. reflexivity.
  - exact empty_coherent.
  - reflexivity.
  - split; [lia|reflexivity].
  - repeat (constructor; [vm_compute; split; [discriminate|reflexivity]|]). constructor.
  - vm_compute. discriminate.
  - apply (bool_decide_unpack _). vm_compute. reflexivity.
  - apply map_disjoint_dom. apply (bool_decide_unpack _). vm_compute. reflexivity.
  - split; [exact Hc|]. split; [exact Hi|]. exists e. split; [exact He|]. split; [exact Hs|].
    rewrite Hco, Hu. split; vm_compute; reflexivity.
Defined.

End GenesisDemo.
