(* ===== verification/Node.v ===== *)
(** * The Cardano node: state, log and rollback together

    The instance of the rollback machinery for the ledger's entities and
    deltas, and the end-to-end theorems. *)

From stdpp Require Import sorting.
From S2P Require Import Prelude Types ChainPoint EpochValue EntityDelta Eras PParams Forks Ratio Pots.
From S2P Require Import Accounts Pools DReps Datums Assets Pending Epochs Proposals Gov StateStore Blocks Wal Roll CardanoModel Codec.
Open Scope Z_scope.

#[local] Obligation Tactic := idtac.

(** ** The contract for the ledger's deltas *)

#[export] Instance cardano_wal : Wal.WalDelta CardanoDelta.t := CardanoDelta.wal_decode.

#[export] Program Instance cardano_safe {V} `{!EntityCbor V, BuildCfg, Pallas} :
    SafeDelta CardanoDelta.t CardanoEntity.t V :=
  {| ok_for ns e := typed ns e /\ cardano_wf e; adm := CardanoDelta.admissible |}.
Next Obligation. intros V ? ? ? ns e [Ht _]. cbn in *. by rewrite EntityCodec.encode_namespace. Qed.
Next Obligation. intros V ? ? ? d d' e e'. apply CardanoDelta.key_apply. Qed.
Next Obligation.
  intros V ? ? ? d d' e e' Ha [Ht Hw] Hr. split.
  - by apply (CardanoDelta.typed_apply d e d').
  - by apply (CardanoDelta.wf_apply d e d').
Qed.
Next Obligation. intros V ? ? ? d d' e e' Ha [Ht Hw]. by apply CardanoDelta.undo_apply. Qed.
Next Obligation. intros V ? ? ? d. apply CardanoDelta.wal_decode_key. Qed.
Next Obligation. intros V ? ? ? d e. apply CardanoDelta.wal_decode_undo. Qed.

(** ** A concrete node

    A node at the block of slot 10 with one unspent output, and a batch with a
    block that spends it, produces another and stores a datum. *)
Module Demo.

#[export] Existing Instance Memory.store.
#[export] Existing Instance MapTable.table.
#[export] Instance cfg : BuildCfg := cfg_debug.
#[export] Instance pallas : Pallas := demo_pallas.
#[export] Instance cbor : EntityCbor CardanoEntity.t := demo_cbor.

Definition h10 : Hash32 := replicate 32 10.
Definition h20 : Hash32 := replicate 32 20.
Definition old_ref : TxoRef := (replicate 32 1, 0).
Definition new_ref : TxoRef := (replicate 32 2, 0).

Definition tx : Tx :=
  {| tx_hash := replicate 32 2; produces := [(0, (6, [2]))]; consumes := [old_ref] |}.

Definition block : Block :=
  {| block_slot := 20; block_hash := h20; previous_hash := Some h10; txs := [tx] |}.

#[export] Instance decoder : BlockDecoder :=
  {| decode_block raw := if bool_decide (raw = [1]) then Some block else None;
     decode_output _ := true |}.

Definition store_datum : CardanoDelta.t :=
  CardanoDelta.DDatumRefIncrement (DatumRefIncrement.new (replicate 32 7) [42]).

Definition work : WorkBlock.t CardanoDelta.t :=
  WorkBlock.mk block [1] (WorkDeltas.add_for_entity ∅ store_datum) None.

Definition batch : WorkBatch.t CardanoDelta.t CardanoEntity.t := WorkBatch.for_single_block work.

Abbreviation Log := (gmap (list Z) (LogValue.t CardanoDelta.t)).

Definition p10 : ChainPoint.t := ChainPoint.Specific 10 h10.
Definition p20 : ChainPoint.t := ChainPoint.Specific 20 h20.

Definition start : Node (Tables CardanoEntity.t) Log :=
  mkNode (mkTables (Some p10) ∅ {[old_ref := (6, [1])]})
         {[ChainPoint.into_bytes p10 := LogValue.origin]}.

Definition after : Node (Tables CardanoEntity.t) Log :=
  match roll batch start with Ret (Ok n) => n | _ => start end.

Abbreviation Snap := (Roll.Snap (E := CardanoEntity.t)).

Definition σ10 : Snap := mkSnap ∅ {[old_ref := (6, [1])]}.
Definition σ20 : Snap :=
  mkSnap {[CardanoDelta.key store_datum := CardanoEntity.EDatumState (DatumState.new [42])]}
         {[new_ref := (6, [2])]}.

Lemma produced : produced_of block = {[new_ref := (6, [2])]}.
Proof. apply (bool_decide_eq_true_1 _). vm_compute. reflexivity. Qed.

Lemma consumed : consumed_of block = [old_ref].
Proof. vm_compute. reflexivity. Qed.

Lemma queues : WorkBlock.deltas work = {[CardanoDelta.key store_datum := [store_datum]]}.
Proof. cbn [WorkBlock.deltas work]. unfold WorkDeltas.add_for_entity. by rewrite lookup_empty. Qed.

Lemma started : reachable (D := CardanoDelta.t) start [(p10, σ10)].
Proof.
  apply (reach_start _ _ _ LogValue.origin).
  - vm_compute. reflexivity.
  - vm_compute. reflexivity.
  - intros nk. unfold σ10. cbn. by rewrite lookup_empty.
  - split; [|done]. intros nk. unfold σ10, stored. cbn. by rewrite lookup_empty.
  - done.
Qed.

Lemma batch_valid : batch_ok σ10 (ordered batch).
Proof.
  change (ordered batch) with [work]. unfold batch_ok. cbn [fmap list_fmap WorkBlock.block work].
  conj_split.
  - constructor; [|constructor]. unfold block_ok. conj_split; [done|vm_compute; reflexivity|].
    intros nk ds d Hl Hd. rewrite queues in Hl. apply lookup_singleton_Some in Hl as [<- <-].
    by apply list_elem_of_singleton in Hd as ->.
  - intros nk. unfold queue_of. cbn [mbind list_bind]. rewrite queues, app_nil_r.
    destruct (decide (CardanoDelta.key store_datum = nk)) as [<-|Hn].
    + rewrite lookup_singleton_eq. cbn. done.
    + rewrite lookup_singleton_ne by done. done.
  - split; [|done]. intros r. rewrite consumed. intros ->%list_elem_of_singleton. right.
    unfold σ10. cbn [s_utxos]. rewrite lookup_singleton_eq. eauto.
  - split; [|done]. intros r. rewrite produced. intros [v [<- _]%lookup_singleton_Some].
    split; [|by intros ? ?%not_elem_of_nil].
    unfold σ10. cbn [s_utxos]. by rewrite lookup_singleton_ne.
Qed.

Definition succeeds {F A} (r : run (result F A)) : bool :=
  match r with Ret (Ok _) => true | _ => false end.

Lemma applied : roll batch start = Ret (Ok after).
Proof.
  assert (Hs : succeeds (roll batch start) = true) by (vm_compute; reflexivity).
  unfold after. by destruct (roll batch start) as [[n|e]|].
Qed.

Lemma chained : chain σ10 (ordered batch) [(p20, σ20)].
Proof.
  change (ordered batch) with [work]. cbn [chain]. conj_split; [done| |done].
  split; [|symmetry; apply (bool_decide_eq_true_1 _); vm_compute; reflexivity].
  intros nk. rewrite queues. destruct (decide (CardanoDelta.key store_datum = nk)) as [<-|Hn].
  - rewrite lookup_singleton_eq. unfold σ20. cbn [s_entities]. rewrite lookup_singleton_eq.
    unfold σ10. cbn [s_entities]. rewrite lookup_empty. eexists. reflexivity.
  - rewrite lookup_singleton_ne by done. unfold σ20. cbn [s_entities].
    rewrite lookup_singleton_ne by done. unfold σ10. cbn [s_entities].
    rewrite lookup_empty. eexists. reflexivity.
Qed.

Lemma ascending : StronglySorted key_lt
  (ChainPoint.into_bytes <$> (p10 :: (WorkBlock.point <$> ordered batch))).
Proof.
  change (ordered batch) with [work]. repeat constructor.
Qed.

End Demo.

(** ** End to end *)

Section node.
Context {V S W T : Type} `{!EntityCbor V, !StateStore V S W, BuildCfg, Pallas, BlockDecoder}.
Context `{!RedbTable T (LogValue.t CardanoDelta.t)}.

Abbreviation Snap := (Roll.Snap (E := CardanoEntity.t)).

(** C1: rolling back to any logged point of any node reached by rolling batches
    forward and rolling back succeeds, and leaves the entities, the UTxO set and the cursor
    exactly as they were when that point was the tip. *)
Theorem rollback_restores_ledger (n : Node S T) hist1 p (σ : Snap) hist2 :
  reachable (D := CardanoDelta.t) n (hist1 ++ (p, σ) :: hist2) ->
  exists n', rollback (D := CardanoDelta.t) (E := CardanoEntity.t) p n = Ret (Ok n') /\
    holds (state n') σ /\ read_cursor (state n') = Some p /\
    reachable (D := CardanoDelta.t) n' (hist1 ++ [(p, σ)]).
Proof.
  intros Hr. destruct (rollback_restores _ _ _ _ _ (reachable_tracked _ _ Hr))
    as (n' & E & Hh & Hc & _).
  exists n'. conj_split; [done|done|done|]. by eapply reach_rollback.
Qed.

(** C2: rolling a batch forward is a refinement of the abstract ledger: the
    store ends in the state that folding the blocks, one queue of deltas per
    entity and one UTxO transition per block, gives, and the cursor is the last block. *)
Theorem roll_refines_ledger (n : Node S T) hist p (σ : Snap) b n' :
  reachable (D := CardanoDelta.t) n (hist ++ [(p, σ)]) ->
  fresh_batch b -> batch_ok σ (ordered b) ->
  StronglySorted key_lt (ChainPoint.into_bytes <$> (p :: (WorkBlock.point <$> ordered b))) ->
  roll b n = Ret (Ok n') ->
  exists h q σn, chain σ (ordered b) h /\ last h = Some (q, σn) /\
    holds (state n') σn /\ read_cursor (state n') = Some q.
Proof.
  intros Hr Hf Hok Hs Hroll. apply reachable_tracked in Hr as Ht.
  destruct (roll_extends _ _ _ _ _ _ Ht Hf Hok Hs Hroll) as (h & Hne & Hch & Ht').
  exists h. destruct (last h) as [[q σn]|] eqn:El; [|by apply last_None in El].
  apply last_Some in El as [h' ->]. exists q, σn. rewrite app_assoc in Ht'.
  destruct (tracked_tip _ _ _ _ Ht') as (_ & Hh & _ & _). conj_split; try done.
  destruct Ht' as (? & ? & ? & ? & ? & ? & _ & _ & _ & _ & _ & _ & Hc). by rewrite Hc, last_snoc.
Qed.

(** C22: the roll unit accepts every chain the abstract ledger accepts: a
    non-empty batch that extends the cursor, whose inputs are available, whose
    outputs decode and whose deltas the entities can take is committed without
    a panic or an error, and the node it leaves has the blocks as its history. *)
Theorem roll_accepts_chain (n : Node S T) hist p (σ : Snap) b h :
  reachable (D := CardanoDelta.t) n (hist ++ [(p, σ)]) ->
  fresh_batch b -> batch_ok σ (ordered b) ->
  StronglySorted key_lt (ChainPoint.into_bytes <$> (p :: (WorkBlock.point <$> ordered b))) ->
  WorkBatch.continuity_from p (ordered b) = Ok tt ->
  map_Forall (fun _ body => decode_output body = true)
    (batch_inputs (s_utxos σ) (WorkBlock.block <$> ordered b)) ->
  ordered b ≠ [] -> chain σ (ordered b) h ->
  exists n', roll b n = Ret (Ok n') /\ reachable (D := CardanoDelta.t) n' ((hist ++ [(p, σ)]) ++ h).
Proof.
  intros Hr Hf Hok Hs Hcont Hout Hne Hch.
  destruct (roll_returns n hist p σ b h) as [n' Hn']; [by apply reachable_tracked|done..|].
  exists n'. split; [done|]. by eapply reach_roll.
Qed.
End node.

Section witnesses.
Import Demo.

Lemma rollback_restores_ledger_witness :
  exists n', rollback (D := CardanoDelta.t) (E := CardanoEntity.t) p10 after = Ret (Ok n') /\
    holds (state n') σ10 /\ read_cursor (state n') = Some p10 /\
    reachable (D := CardanoDelta.t) n' [(p10, σ10)].
Proof.
  apply (rollback_restores_ledger after [] p10 σ10 [(p20, σ20)]).
  apply (reach_roll start [] p10 σ10 batch after [(p20, σ20)]).
  - exact started.
  - done.
  - exact batch_valid.
  - exact ascending.
  - exact applied.
  - exact chained.
Defined.

Lemma roll_refines_ledger_witness :
  exists h q σn, chain σ10 (ordered batch) h /\ last h = Some (q, σn) /\
    holds (state after) σn /\ read_cursor (state after) = Some q.
Proof.
  apply (roll_refines_ledger start [] p10 σ10 batch after).
  - exact started.
  - done.
  - exact batch_valid.
  - exact ascending.
  - exact applied.
Defined.

Lemma roll_accepts_chain_witness :
  exists n', roll batch start = Ret (Ok n') /\
    reachable (D := CardanoDelta.t) n' [(p10, σ10); (p20, σ20)].
Proof.
  apply (roll_accepts_chain start [] p10 σ10 batch [(p20, σ20)]).
  - exact started.
  - done.
  - exact batch_valid.
  - exact ascending.
  - vm_compute. reflexivity.
  - intros r v _. reflexivity.
  - by change (ordered batch) with [work].
  - exact chained.
Defined.

End witnesses.
